(* ===== verification/_CoqProject ===== *)
-Q . S2P
Prelude.v
GoStd.v
NetIP.v
DNSMessage.v
Metadata.v
Sample.v
RuleItems.v
RuleMatch.v
RuleAction.v
RuleOptions.v
RuleBuild.v
RuleSet.v
Rules.v
RuleSpec.v
RuleConditions.v
RuleLaws.v
RuleMerge.v
RuleCaveats.v
ItemSpec.v
Adapter.v
Sniff.v
Router.v
RouterLaws.v
RouterSelect.v
RouterLife.v
RouterPayload.v
DNSRouter.v
DNSRouterLaws.v
DNSClient.v
Lifecycle.v
Managers.v
StartOrder.v
ManagerLaws.v
FakeIP.v
FakeIPCodec.v
GoIO.v
FakeIPLaws.v
DNSClientLaws.v
DNSClientCache.v
DNSClientSample.v
Float64.v
Balancer.v
BalancerLaws.v
Groups.v
GroupLaws.v
GroupSample.v
CacheFile.v
CacheFileLaws.v
CacheFileFakeIP.v
CacheFileSample.v
TransportBase.v
Connector.v
UDPTransport.v
HostsDNS.v
MultiDNS.v
URLTest.v
TrafficControl.v
BadVersion.v
SRS.v
SRSLaws.v
SRSTotal.v
SRSMatch.v
SRSCompile.v
SRSSample.v
SniffBasic.v
SniffLaws.v
JA3.v
JA3Laws.v
QUIC.v
QUICLaws.v
QUICFrames.v
QUICPacket.v
SniffDriver.v
TLSFragment.v
TLSFragmentLaws.v
SniffSample.v
CoreService.v
Broadcaster.v
Monitoring.v
MonitoringLaws.v
