(* ===== verification/Prelude.v ===== *)
(** * Routing core of the engine: a Rocq development

    The program is a proxy engine (src/aibooster-sing-box, Go).  Inbounds accept connections and
    packets; a router matches each of them against a list of rules, which may sniff the protocol,
    resolve the destination, or choose an outbound; DNS queries go through a router of their own,
    whose rules choose a DNS transport; rule-sets are files of conditions the rules refer to, local
    or fetched again and again; managers keep the inbounds, outbounds, endpoints, services and
    transports, start them in order and close them; a fake IP store hands out addresses for
    domains; groups of outbounds choose one of their members, by the user's choice or by measured
    delays; DNS transports ask servers, over one UDP connection, several servers at once, or a hosts file; sniffers find the
    protocol and the server name in the first bytes; rule-sets have a binary format; a cache file keeps what must survive a
    restart; a traffic manager counts what is used.  Paths below are relative to src/aibooster-sing-box.

    ** Conventions

    A Go call is a function to [result] (a value, an error, or a panic).  Mutable objects are
    records that operations take and return; a rule-set, which many rules point to, is a tag in a
    store.  What is not code of the repository (the operating system, libraries, sockets, the
    registry that makes objects) is an interface: a class or a record of functions, with named laws
    where something relies on them.  Widths matter where the code narrows numbers: ports and
    lengths are [N] with their bound checked or their wrap-around written out.  Definitions keep the
    names of the source, [Type_Method] for a method.

    ** Files

    - [Prelude]: errors, results, notations, tactics, hints and generic lemmas.  [GoStd]: strings and
      numbers as the Go standard library has them.  [NetIP]: package net/netip.
    - [Metadata]: adapter/inbound.go and the other adapter types; [World] is what rules ask of the
      network manager, the Clash server and the outbounds.
    - [RuleItems]: the items of route/rule/rule_item_*.go, one record and one [Match] each.
      [RuleMatch]: route/rule/rule_abstract.go, the match of default and logical rules with the
      flags they leave in the rule cache.  [RuleAction]: route/rule/rule_action.go.
      [RuleOptions], [RuleBuild]: option/rule*.go and the constructors of rule_default.go,
      rule_dns.go and rule_headless.go, with every condition block in the order of the source.
      [RuleSet]: rule_set.go, rule_set_local.go, rule_set_remote.go.  [Rules]: the rules of the three
      kinds as one type, and the DNS rules' address limit.
    - [Adapter], [Sniff], [Router]: route/route.go, route/router.go, common/sniff/sniff.go.
    - [DNSRouter]: dns/router.go, dns/blocked_checker.go.  [DNSMessage], [DNSClient]: dns/client.go,
      dns/extension_edns0_subnet.go and the messages they handle.
    - [Lifecycle], [Managers]: adapter/lifecycle.go and the five managers
      (adapter/{endpoint,inbound,outbound,service}/manager.go, dns/transport_manager.go).
    - [FakeIP], [FakeIPCodec]: dns/transport/fakeip and adapter/fakeip_metadata.go.
    - [Float64]: the float64 arithmetic of the load balancer.  [Balancer]: common/interrupt and the
      strategies of protocol/group/balancer.  [Groups]: its balancer.go, and protocol/group/selector.go.
      [URLTest]: protocol/group/urltest.go and common/urltest.
    - [CacheFile]: experimental/cachefile, and SavedBinary of adapter/experimental.go.
      [TrafficControl]: experimental/clashapi/trafficontrol.  [BadVersion]: common/badversion.
    - [Broadcaster], [Monitoring]: common/monitoring, the tests of all outbounds in cycles and the events of groups.
    - [CoreService]: the application around the engine, src/v2/hcore (start, stop, restart, status, pings).
    - [TransportBase], [Connector], [UDPTransport], [MultiDNS], [HostsDNS]: dns/transport/base.go,
      connector.go, udp.go, multi/multi.go and hosts.
    - [GoIO], [SRS], [SRSCompile]: readers and writers, common/srs, and the command that
      compiles a rule-set.
    - [SniffBasic], [JA3], [QUIC], [SniffDriver]: the sniffers of common/sniff, the parser of client hellos
      (common/ja3), QUIC with its packet protection and frames, and all of them under the action of the
      router.  [TLSFragment]: common/tlsfragment.
    - The other files hold theorems ([*Laws], [*Spec], [*Conditions],
      [CacheFileFakeIP], ...) and concrete inputs ([*Sample]).

    ** Theorems

    - Rules ([RuleSpec], [RuleConditions], [RuleLaws], [RuleMerge], [ItemSpec]): a rule matches
      exactly when the conditions written in its options hold, group by group, for each of the three
      kinds of rule; a rule-set merged into a rule is the rule with the groups united; the address
      limit of a DNS rule only ever narrows it; items mean what their options say.  [RuleCaveats]
      states where composition of rule-sets departs from that.
    - Rule-sets ([RuleLaws]): the flags derived from a remote rule-set are those of its rules in
      every reachable state; what a fetch stores is what a restart loads; a failed fetch changes
      nothing.
    - Router ([RouterLaws], [RouterSelect], [RouterLife], [RouterPayload]): the first matching rule
      decides; the outbound chosen supports the network; sniffing neither loses nor invents bytes or
      packets; pre-matching agrees with matching; the origin of a connection is never changed; the
      start order of rule-sets does not matter.
    - DNS router ([DNSRouterLaws]): the first rule decides, the retry loops end, and caveats.
    - DNS client ([DNSClientLaws]): the life of a cached answer, strategies, rejected answers.
    - Managers ([StartOrder], [ManagerLaws]): starting in dependency order ends, respects the order,
      and succeeds exactly when an order exists; errors name a real obstacle; the outbound manager
      implements an ordered registry and its dependency index is exact.
    - Fake IP ([FakeIPLaws], [FakeIPCodec]): the store implements two bounded queues of domains; an
      address lasts as long as the range allows; the saved metadata is read back.

    - Groups ([BalancerLaws], [GroupLaws]): the jump hash ends and is consistent; a
      round of round robin is the acceptable outbounds, each once; lowest delay is the least;
      consistent hashing finds an alive outbound; a sticky session sticks; a started balancer never
      panics and dials one of its outbounds, by the networks they had when it started; the selector's choice survives a restart, and choosing
      interrupts the connections it should.
    - Cache file ([CacheFileLaws], [CacheFileFakeIP]): what is stored is loaded; a rejected answer
      lasts until its timeout; the fake IP store on the file answers as in memory; and two calls
      that do not do what they mean to.  The laws of the database are those bbolt documents, and
      discharge what the selector and the fake IP store ask of their storage.

    - URL test group ([URLTest]): as long as delays are measured ones the choice is within the tolerance of the least and
      stays when it is; the outbounds in use are members, one loop runs; the order in which tests end does not matter;
      and an outbound whose test has failed is chosen when the sum with the tolerance wraps around.
    - DNS transports: shutting down waits for the queries ([TransportBase]); one connection is dialed at a
      time and none leaks ([Connector]); queries over UDP get their own answers, with the buffers receivers make ([UDPTransport]);
      asking several servers is the first answer outside the ignored ranges, and at once it loses none
      ([MultiDNS]); a hosts file answers with its lines of at most five seconds ago ([HostsDNS]).  The goroutines of the
      first four are interleaved: a step of a run is what one of them does under a mutex or on a channel, and
      the theorems hold for every run.
    - Rule-set format ([SRSLaws], [SRSTotal], [SRSMatch], [SRSCompile]): what is written is read back; reading
      any bytes ends, with a well-formed rule-set or an error; a compiled rule-set matches as its source.
    - Sniffers ([SniffLaws], [JA3Laws], [QUICLaws], [QUICFrames], [QUICPacket], [SniffDriver]): a verdict on a
      stream does not change with more bytes; the packet sniffers exclude each other; the hello that a client
      writes is parsed, and its server name is found through protection, frames and reassembly of QUIC,
      up to the router's action; [SniffSample] has the inputs on which they fail.
    - TLS fragmentation ([TLSFragmentLaws]): the peer reads the same handshake whatever the split, and an error stops it.
    - Traffic ([TrafficControl]): the totals are what was pushed, an outbound's downloads are not; a connection is
      open, then closed once; versions ([BadVersion]) are printed, parsed and ordered.
    - Monitoring ([Broadcaster], [MonitoringLaws]): events reach open channels only, and publications that do not overlap keep their order; a stage of a cycle gets the results it
      waits for; what is reported of a group does not depend on the order of a map; a test asked for may be lost for good.
    - The application ([CoreService]): calls interleave step by step; while nobody comes between a call that writes without the lock, the
      state says whether a service runs, and all others have been told to close; otherwise services are lost, and examples show it.

    ** Fuel

    Loops over input lists are structural.  The others take fuel and return [None] without it, and a
    theorem says that the fuel given is enough: the retry loops of the DNS router visit each rule at
    most once ([dns_router_terminates]); the jump hash raises its bucket in every turn
    ([jumpHash_consistent]); each pass of the start loop starts an object
    ([start_in_order_sound]) and each step of [lint] adds a tag to the circle it looks for.  The
    sniffing driver reads at most as often as its timeout and the stream allow, given as the list
    of reads to come.  The readers of binary formats and of hosts files take at least a byte in every turn, and their fuel is
    the length of the input ([Read_ends], [ja3_ends], [hosts_table_lines]); the search for a query ID visits each of the 65536
    once ([nextAvailableQueryId_spec]); the chain of a tracker and the delay of a group need groups without circles ([tracker_chain_way], [getUrlTest_reported]); the loop of
    QUIC fragments may not end in the code, and [SniffSample] shows it.

    ** Not modelled

    Goroutines, tickers and the mutexes, outside the DNS transports, the URL test group, the broadcaster, the monitoring and the application: an operation is atomic, and what happens
    between two operations is a sequence of steps.  Logging, connection tracking, deadlines, platform
    notifications.  [SniffContext] is the state of the sniffers' class; the metadata leaves out
    fields that no modelled code reads ([InboundType], the GeoIP codes).  HTTP, TLS and DNS
    messages on the wire, cryptography and the database are behind interfaces, and so are the session cache of the load balancer, the
    hash of strings, the public suffix list, the clock and the answers of the reverse mapping and of process search, functions of the moment they are asked.
    Empty slices and nil ones are one value, which is what the [IsValid] checks make of them.  The
    aliasing of slices by [append] in the managers is not visible in their lists.  [String] of
    actions and [Close] of rules have no definitions.  The rest of the repository is protocol
    implementations, transports, vendored forks, user interface and generated code: network I/O and
    glue, listed component by component in the manifest. *)

From stdpp Require Export base tactics list gmap strings numbers fin_maps option.
From stdpp Require Export sorting.
From Stdlib Require Export Ascii ZArith NArith Lia Bool.

#[export] Set Warnings "-register-all,-clear-no-such-hyp".

(** ** Errors and results *)

(** The [error] values the modelled code builds: [E.New], [E.Cause], [E.Extend],
    errors of libraries (identified by name), the response codes of dns/rcode.go as errors, the two
    wrapper types of [route/rule/rule_action.go], and several errors in one ([E.Errors]). *)
Inductive error : Type :=
| ENew (msg : string)
| ECause (cause : error) (msg : string)
| EExtend (cause : error) (msg : string)
| EWrap (cause msg : error)
| ELib (name : string)
| ERcode (rcode : Z)
| ERejected (cause : error)
| EBypassed (cause : error)
| EJoin (first second : error).

#[export] Instance error_eq_dec : EqDecision error.
Proof. solve_decision. Defined.

(** [errors.Is]: the target is found among the errors wrapped.  Errors are compared by
    identity in Go; the targets of the modelled code are package variables, each an error of its
    own here. *)
Fixpoint errors_Is (e target : error) : bool :=
  bool_decide (e = target) ||
  match e with
  | ENew _ | ELib _ | ERcode _ => false
  | ECause c _ | EExtend c _ | EWrap c _ | ERejected c | EBypassed c => errors_Is c target
  | EJoin a b => errors_Is a target || errors_Is b target
  end.

(** A Go call returns a value, returns an error, or panics. *)
Inductive result (A : Type) : Type :=
| Ok (a : A)
| Err (e : error)
| Panic (msg : string).
Arguments Ok {_} _.
Arguments Err {_} _.
Arguments Panic {_} _.

#[export] Instance result_eq_dec `{EqDecision A} : EqDecision (result A).
Proof. solve_decision. Defined.

#[export] Instance result_ret : MRet result := fun A a => Ok a.
#[export] Instance result_bind : MBind result := fun A B f r =>
  match r with Ok a => f a | Err e => Err e | Panic m => Panic m end.
#[export] Instance result_fmap : FMap result := fun A B f r =>
  match r with Ok a => Ok (f a) | Err e => Err e | Panic m => Panic m end.

(** [E.Cause(err, msg)] on the error branch of a call. *)
Definition with_cause {A} (msg : string) (r : result A) : result A :=
  match r with Err e => Err (ECause e msg) | _ => r end.

Declare Scope go_scope.
Delimit Scope go_scope with go.
Notation "'let!' x ':=' e 'in' k" :=
  (mbind (fun x => k) e)
  (at level 10, x pattern, e at level 100, k at level 200) : go_scope.
Open Scope go_scope.

Definition is_Ok {A} (r : result A) : bool := match r with Ok _ => true | _ => false end.

(** The value of a call known to succeed. *)
Definition from_Ok {A} (d : A) (r : result A) : A := match r with Ok a => a | _ => d end.

Lemma is_Ok_from_Ok {A} (d : A) r : is_Ok r = true -> r = Ok (from_Ok d r).
Proof. by destruct r. Qed.
Lemma is_Ok_from_Ok_fst {A B} (d : A) (p : result A * B) :
  is_Ok (fst p) = true -> p = (Ok (from_Ok d (fst p)), snd p).
Proof. destruct p as [[] ?]; simpl; congruence. Qed.

Lemma bind_Ok {A B} (f : A -> result B) (r : result A) b :
  (r ≫= f) = Ok b <-> exists a, r = Ok a /\ f a = Ok b.
Proof.
  split.
  - destruct r as [a|e|m]; simpl; intros; simplify_eq. eauto.
  - intros (a & -> & H). exact H.
Qed.

Lemma fmap_Ok {A B} (f : A -> B) (r : result A) b :
  f <$> r = Ok b <-> exists a, r = Ok a /\ b = f a.
Proof.
  split; [|by intros (a & -> & ->)]. destruct r; simpl; intros; simplify_eq; eauto.
Qed.

Lemma with_cause_Ok {A} msg (r : result A) a : with_cause msg r = Ok a <-> r = Ok a.
Proof. destruct r; simpl; split; intros; simplify_eq; done. Qed.

(** ** Maps used as sets: [map[K]bool] whose entries are all [true] *)

Section BoolMap.
Context {K : Type} {HE : EqDecision K} {HC : Countable K}.

(** [m[k]] of a [map[K]bool]: a missing key reads as [false]. *)
Definition map_bool (m : gmap K bool) (k : K) : bool := default false (m !! k).

(** [for _, k := range l { m[k] = true }]. *)
Definition fill_true (m : gmap K bool) (l : list K) : gmap K bool :=
  foldl (fun m k => <[k := true]> m) m l.

Definition make_bool_map (l : list K) : gmap K bool := fill_true ∅ l.

Lemma fill_true_lookup l : forall m k,
  map_bool (fill_true m l) k = map_bool m k || bool_decide (k ∈ l).
Proof.
  induction l as [|a l IH]; intros m k; unfold fill_true in *; cbn [foldl].
  - rewrite bool_decide_eq_false_2 by set_solver. by rewrite orb_false_r.
  - rewrite IH. unfold map_bool. rewrite lookup_insert.
    case_decide as E; subst; simpl.
    + rewrite (bool_decide_eq_true_2 (k ∈ k :: l)) by set_solver. by rewrite orb_true_r.
    + f_equal. apply bool_decide_ext. set_solver.
Qed.

(** The map the constructors build answers list membership. *)
Lemma make_bool_map_spec l k : map_bool (make_bool_map l) k = bool_decide (k ∈ l).
Proof. unfold make_bool_map. by rewrite fill_true_lookup. Qed.
End BoolMap.

(** ** Booleans and lists *)

(** Ruleset predicates are boolean functions; these are the two views of a search loop. *)
Lemma existsb_true_iff {A} (f : A -> bool) l :
  existsb f l = true <-> exists x, x ∈ l /\ f x = true.
Proof.
  rewrite existsb_exists. split; intros (x & Hx & Hf); exists x; split; auto;
    by apply list_elem_of_In.
Qed.

Lemma forallb_true_iff {A} (f : A -> bool) l :
  forallb f l = true <-> forall x, x ∈ l -> f x = true.
Proof. rewrite forallb_forall. setoid_rewrite list_elem_of_In. done. Qed.

Lemma existsb_ext_in {A} (f g : A -> bool) l :
  (forall x, x ∈ l -> f x = g x) -> existsb f l = existsb g l.
Proof.
  induction l as [|a l IH]; intros H; simpl; [done|].
  rewrite H by set_solver. f_equal. apply IH. set_solver.
Qed.

Lemma forallb_ext_in {A} (f g : A -> bool) l :
  (forall x, x ∈ l -> f x = g x) -> forallb f l = forallb g l.
Proof.
  induction l as [|a l IH]; intros H; simpl; [done|].
  rewrite H by set_solver. f_equal. apply IH. set_solver.
Qed.

(** [len(l) > 0]. *)
Definition nonempty {A} (l : list A) : bool := match l with [] => false | _ => true end.

Lemma nonempty_true {A} (l : list A) : nonempty l = true <-> l <> [].
Proof. destruct l; simpl; split; congruence. Qed.

Lemma nonempty_false {A} (l : list A) : nonempty l = false <-> l = [].
Proof. destruct l; simpl; split; congruence. Qed.

Lemma nonempty_app {A} (l k : list A) : nonempty (l ++ k) = nonempty l || nonempty k.
Proof. by destruct l. Qed.

Lemma nonempty_Permutation {A} (l k : list A) : l ≡ₚ k -> nonempty l = nonempty k.
Proof. intros H; destruct l; [by apply Permutation_nil in H as ->|].
  destruct k; [by apply Permutation_sym, Permutation_nil in H|done]. Qed.

(** Prefixes and the last element of a sorted list. *)
Lemma sorted_prefix {A} (R : relation A) l k : StronglySorted R (l ++ k) -> StronglySorted R l.
Proof. apply StronglySorted_app_1_l. Qed.

Lemma sorted_snoc {A} (R : relation A) l x :
  StronglySorted R (l ++ [x]) -> Forall (fun y => R y x) l.
Proof.
  intros H. apply Forall_forall. intros y Hy.
  apply (StronglySorted_app_1_elem_of R l [x] y x H); set_solver.
Qed.

(** ** Automation *)

Create HintDb go.
Create Rewrite HintDb go.
#[export] Hint Rewrite @make_bool_map_spec @nonempty_app orb_false_r orb_true_r
  andb_true_r andb_false_r : go.

(** Split every [match] and [if] on a boolean or option in the goal. *)
Ltac break_match :=
  match goal with
  | |- context [match ?x with _ => _ end] => destruct x eqn:?
  end.
Ltac break_match_in H :=
  match type of H with
  | context [match ?x with _ => _ end] => destruct x eqn:?
  end.
(** Inverts a successful chain of binds. *)
Ltac inv_bind :=
  repeat match goal with
  | H : mbind _ _ = Ok _ |- _ => apply bind_Ok in H as (? & ? & ?)
  | H : with_cause _ _ = Ok _ |- _ => apply with_cause_Ok in H
  | H : fmap _ _ = Ok _ |- _ => apply fmap_Ok in H as (? & ? & ->)
  | H : Ok _ = Ok _ |- _ => injection H as H; try subst
  | H : Err _ = Ok _ |- _ => discriminate H
  | H : Panic _ = Ok _ |- _ => discriminate H
  end.
(** Rewrites with the calls known to succeed. *)
Ltac rewrite_Ok := match goal with H : ?e = Ok _ |- context [?e] => rewrite H end.
