(* ===== verification/GoStd.v ===== *)
(** * GoStd: the parts of Go's standard library the modelled code uses

    [strings], [strconv], [path/filepath] and [net/netip], written as executable
    functions on byte strings.  What needs tables or engines of its own (Unicode
    case mapping, regular expressions) is a parameter, see [Externals.v]. *)

From S2P Require Import Prelude.
Open Scope string_scope.

(** ** Bytes *)

Definition byte_val (c : ascii) : N := N_of_ascii c.
Definition byte_in (lo hi : N) (c : ascii) : bool :=
  (lo <=? byte_val c)%N && (byte_val c <=? hi)%N.
Definition is_digit (c : ascii) : bool := byte_in 48 57 c.
Definition digit_char (d : N) : ascii := ascii_of_N (48 + d).
(** Value of a hexadecimal digit, lower or upper case. *)
Definition hex_val (c : ascii) : option N :=
  if is_digit c then Some (byte_val c - 48)%N
  else if byte_in 97 102 c then Some (byte_val c - 87)%N
  else if byte_in 65 70 c then Some (byte_val c - 55)%N
  else None.

(** ** Package strings *)

Fixpoint string_forallb (f : ascii -> bool) (s : string) : bool :=
  match s with "" => true | String c s' => f c && string_forallb f s' end.

Fixpoint string_map (f : ascii -> ascii) (s : string) : string :=
  match s with "" => "" | String c s' => String (f c) (string_map f s') end.

Fixpoint has_prefix (p s : string) : bool :=
  match p, s with
  | "", _ => true
  | String a p', String b s' => bool_decide (a = b) && has_prefix p' s'
  | _, _ => false
  end.

(** [strings.Contains(s, sub)]. *)
Fixpoint str_contains (s sub : string) : bool :=
  has_prefix sub s || match s with "" => false | String _ s' => str_contains s' sub end.

(** [s[:i]] and [s[i:]]. *)
Fixpoint str_take (n : nat) (s : string) : string :=
  match n, s with S n', String c s' => String c (str_take n' s') | _, _ => "" end.
Fixpoint str_drop (n : nat) (s : string) : string :=
  match n, s with S n', String _ s' => str_drop n' s' | _, _ => s end.

Definition has_suffix (s suf : string) : bool :=
  (String.length suf <=? String.length s)%nat &&
  bool_decide (str_drop (String.length s - String.length suf) s = suf).

(** [strings.IndexByte]: position of the first [c]. *)
Fixpoint index_byte (c : ascii) (s : string) : option nat :=
  match s with
  | "" => None
  | String a s' => if bool_decide (a = c) then Some 0%nat else S <$> index_byte c s'
  end.

(** [strings.LastIndexByte]. *)
Fixpoint last_index_byte (c : ascii) (s : string) : option nat :=
  match s with
  | "" => None
  | String a s' =>
      match last_index_byte c s' with
      | Some i => Some (S i)
      | None => if bool_decide (a = c) then Some 0%nat else None
      end
  end.

(** [strings.Split(s, sep)], for a separator of one byte. *)
Fixpoint str_split (sep : ascii) (s : string) : list string :=
  match s with
  | "" => [""]
  | String c s' =>
      if bool_decide (c = sep) then "" :: str_split sep s'
      else match str_split sep s' with
           | [] => [String c ""]
           | x :: l => String c x :: l
           end
  end.

(** [s == ""]. *)
Definition str_empty (s : string) : bool := bool_decide (s = "").

(** [strings.Join]. *)
Fixpoint str_join (l : list string) (sep : string) : string :=
  match l with
  | [] => ""
  | [s] => s
  | s :: l' => s +:+ sep +:+ str_join l' sep
  end.

(** All the strings, one after the other. *)
Definition str_concat (l : list string) : string := foldr String.append "" l.

Lemma str_app_assoc (a b c : string) : (a +:+ b) +:+ c = a +:+ (b +:+ c).
Proof. induction a as [|x a IH]; [done|]. exact (f_equal (String x) IH). Qed.
Lemma str_app_nil (a : string) : a +:+ "" = a.
Proof. induction a as [|x a IH]; [done|]. exact (f_equal (String x) IH). Qed.
Lemma str_concat_app l k : str_concat (l ++ k)%list = str_concat l +:+ str_concat k.
Proof.
  induction l as [|a l IH]; [done|]. unfold str_concat in *. cbn [app foldr]. by rewrite IH, str_app_assoc.
Qed.

Definition is_ascii (s : string) : bool := string_forallb (fun c => (byte_val c <? 128)%N) s.
Definition lower_byte (c : ascii) : ascii :=
  if byte_in 65 90 c then ascii_of_N (byte_val c + 32) else c.
Definition ascii_lower (s : string) : string := string_map lower_byte s.

(** ** Package strconv *)

(** [strconv.FormatUint(n, 10)].  [N.log2 n + 2] steps are enough: each step
    divides by ten. *)
Fixpoint dec_go (fuel : nat) (n : N) (acc : string) : string :=
  match fuel with
  | O => acc
  | S f =>
      let acc' := String (digit_char (n mod 10)) acc in
      if (n <? 10)%N then acc' else dec_go f (n / 10)%N acc'
  end.
Definition format_uint (n : N) : string := dec_go (S (S (N.to_nat (N.log2 n)))) n "".
Definition format_int (z : Z) : string :=
  match z with
  | Zneg p => "-" +:+ format_uint (Npos p)
  | _ => format_uint (Z.to_N z)
  end.

(** The digit loop of [strconv.ParseUint(s, 10, bits)], with [maxVal = 1<<bits - 1]. *)
Fixpoint parse_uint_go (maxVal acc : N) (s : string) : option N :=
  match s with
  | "" => Some acc
  | String c s' =>
      if is_digit c then
        let n := (acc * 10 + (byte_val c - 48))%N in
        if (maxVal <? n)%N then None else parse_uint_go maxVal n s'
      else None
  end.
Definition parse_uint (bits : N) (s : string) : option N :=
  if bool_decide (s = "") then None else parse_uint_go (2 ^ bits - 1)%N 0%N s.

Lemma digit_char_ok d : (d < 10)%N -> is_digit (digit_char d) = true /\ (byte_val (digit_char d) - 48)%N = d.
Proof.
  intros H. unfold is_digit, byte_in, byte_val, digit_char.
  rewrite N_ascii_embedding by lia. split; [|lia].
  apply andb_true_iff; split; apply N.leb_le; lia.
Qed.

Lemma parse_uint_go_dec maxVal fuel : forall n acc,
  (n < 2 ^ N.of_nat fuel)%N -> (n <= maxVal)%N ->
  parse_uint_go maxVal 0 (dec_go (S fuel) n acc) = parse_uint_go maxVal n acc.
Proof.
  induction fuel as [|f IH]; intros n acc Hlt Hle;
    destruct (digit_char_ok (n mod 10)) as [D1 D2]; try (apply N.mod_upper_bound; lia);
    cbn [dec_go]; destruct (N.ltb_spec n 10) as [Hs|Hs]; try (simpl in Hlt; lia).
  1, 2: cbn [parse_uint_go]; rewrite D1, D2, N.mod_small by lia;
    destruct (N.ltb_spec maxVal (0 * 10 + n)) as [?|?]; [lia|by f_equal; lia].
  assert (n = 10 * (n / 10) + n mod 10)%N as Hn by (apply N.div_mod; lia).
  rewrite Nat2N.inj_succ, N.pow_succ_r' in Hlt.
  change (parse_uint_go maxVal 0 (dec_go (S f) (n / 10) (String (digit_char (n mod 10)) acc))
    = parse_uint_go maxVal n acc).
  rewrite IH by lia. cbn [parse_uint_go]. rewrite D1, D2.
  replace (n / 10 * 10 + n mod 10)%N with n by lia.
  destruct (N.ltb_spec maxVal n) as [?|?]; [lia|done].
Qed.

Lemma dec_go_ne fuel : forall n acc, dec_go (S fuel) n acc <> "".
Proof.
  induction fuel as [|f IH]; intros n acc; cbn [dec_go]; destruct (_ <? _)%N; try done.
  apply IH.
Qed.

(** Printing a number and parsing it back returns it, as long as it fits the width. *)
Lemma parse_format_uint bits n :
  (n < 2 ^ bits)%N -> parse_uint bits (format_uint n) = Some n.
Proof.
  intros H. unfold parse_uint, format_uint.
  rewrite bool_decide_eq_false_2 by apply dec_go_ne.
  rewrite parse_uint_go_dec; [done| |lia].
  rewrite Nat2N.inj_succ, N2Nat.id.
  destruct (decide (n = 0)%N) as [->|?]; [simpl; lia|]. apply N.log2_spec; lia.
Qed.

(** Cutting a string where two parts meet. *)
Lemma str_length_app (a b : string) : String.length (a +:+ b) = (String.length a + String.length b)%nat.
Proof. induction a as [|c a IH]; [done|]. exact (f_equal S IH). Qed.
Lemma str_take_app n (a b : string) : String.length a = n -> str_take n (a +:+ b) = a.
Proof. intros <-. induction a as [|c a IH]; [by destruct b|]. exact (f_equal (String c) IH). Qed.
Lemma str_drop_app n (a b : string) : String.length a = n -> str_drop n (a +:+ b) = b.
Proof. intros <-. induction a as [|c a IH]; [by destruct b|]. exact IH. Qed.
Lemma str_drop_S_app s c t : str_drop (S (String.length s)) (s +:+ String c t) = t.
Proof.
  replace (s +:+ String c t) with ((s +:+ String c "") +:+ t) by apply str_app_assoc.
  apply str_drop_app. rewrite str_length_app. simpl. lia.
Qed.

(** Splitting at a separator that a part does not have. *)
Lemma index_byte_cons c a s : index_byte c (String a s) = None <-> a <> c /\ index_byte c s = None.
Proof. cbn [index_byte]. case_bool_decide; [naive_solver|]. destruct (index_byte c s); naive_solver. Qed.
Lemma index_byte_app c a b : index_byte c (a +:+ b) = None <-> index_byte c a = None /\ index_byte c b = None.
Proof.
  induction a as [|d a IH]; [change ("" +:+ b) with b; naive_solver|]. change (String d a +:+ b) with (String d (a +:+ b)). rewrite !index_byte_cons, IH. naive_solver.
Qed.
Lemma str_split_part c a r : index_byte c a = None -> str_split c (a +:+ String c r) = a :: str_split c r.
Proof.
  induction a as [|d a IH]; intros H.
  - change ("" +:+ String c r) with (String c r). cbn [str_split]. by rewrite bool_decide_eq_true_2.
  - apply index_byte_cons in H as [Hc H]. change (String d a +:+ String c r) with (String d (a +:+ String c r)). cbn [str_split]. rewrite bool_decide_eq_false_2 by done. by rewrite IH.
Qed.
Lemma str_split_whole c a : index_byte c a = None -> str_split c a = [a].
Proof.
  induction a as [|d a IH]; intros H; [done|]. apply index_byte_cons in H as [Hc H]. cbn [str_split]. rewrite bool_decide_eq_false_2 by done. by rewrite IH.
Qed.
Lemma format_uint_digits n : string_forallb is_digit (format_uint n) = true.
Proof.
  unfold format_uint. assert (forall f m acc, string_forallb is_digit acc = true -> string_forallb is_digit (dec_go f m acc) = true) as G; [|by apply G].
  induction f as [|f IH]; intros m acc H; [done|]. cbn [dec_go]. assert (string_forallb is_digit (String (digit_char (m mod 10)) acc) = true) as H'.
  { cbn [string_forallb]. destruct (digit_char_ok (m mod 10)) as [-> _]; [apply N.mod_lt; lia|done]. }
  destruct (m <? 10)%N; [done|by apply IH].
Qed.
Lemma format_uint_ne n : format_uint n <> "".
Proof. apply dec_go_ne. Qed.
Lemma str_take_drop n s : str_take n s +:+ str_drop n s = s.
Proof.
  revert s. induction n as [|n IH]; intros [|c s]; try done. cbn [str_take str_drop].
  change (String c ?a +:+ ?b) with (String c (a +:+ b)). by rewrite IH.
Qed.

(** The value of an [int64] (and of an [int] on the platforms of 64 bits). *)
Definition wrap64 (z : Z) : Z := ((z + 2 ^ 63) mod 2 ^ 64 - 2 ^ 63)%Z.
Lemma wrap64_add a b : wrap64 (wrap64 a + b)%Z = wrap64 (a + b)%Z.
Proof.
  unfold wrap64. replace ((a + 2 ^ 63) mod 2 ^ 64 - 2 ^ 63 + b + 2 ^ 63)%Z with ((a + 2 ^ 63) mod 2 ^ 64 + b)%Z by lia.
  rewrite Z.add_mod_idemp_l by lia. do 2 f_equal. lia.
Qed.
