(* ===== verification/NetIP.v ===== *)
(** * NetIP: Go's [net/netip] addresses and prefixes

    [Addr] and [Prefix] with the operations the rule items use: [ParseAddr],
    [ParsePrefix], [String], [Prefix.Contains], [Prefix.Overlaps], and
    [filepath.Base].  Parse errors are not told apart: the callers only test them. *)

From S2P Require Import Prelude GoStd.
Open Scope string_scope.

(** [netip.Addr]: the zero value, an IPv4 address, or an IPv6 address with its zone. *)
Inductive Addr : Type :=
| AddrNone
| Addr4 (v : N)
| Addr6 (v : N) (zone : string).

#[export] Instance Addr_eq_dec : EqDecision Addr.
Proof. solve_decision. Defined.

Definition Addr_IsValid (a : Addr) : bool := match a with AddrNone => false | _ => true end.
Definition Addr_Is4 (a : Addr) : bool := match a with Addr4 _ => true | _ => false end.
Definition Addr_Is6 (a : Addr) : bool := match a with Addr6 _ _ => true | _ => false end.
Definition Addr_BitLen (a : Addr) : Z :=
  match a with AddrNone => 0 | Addr4 _ => 32 | Addr6 _ _ => 128 end%Z.
Definition Addr_Zone (a : Addr) : string := match a with Addr6 _ z => z | _ => "" end.
Definition Addr_bits (a : Addr) : N := match a with AddrNone => 0%N | Addr4 v | Addr6 v _ => v end.
Definition Addr_withoutZone (a : Addr) : Addr := match a with Addr6 v _ => Addr6 v "" | _ => a end.

(** ** Parsing *)

(** [parseIPv4Fields]: the octets seen so far (most recent first), the value and
    the number of digits of the current one. *)
Fixpoint parseIPv4Fields (s : string) (val : N) (digLen : nat) (fields : list N) : option (list N) :=
  match s with
  | "" => if (length fields <? 3)%nat then None else Some (rev (val :: fields))
  | String c s' =>
      if is_digit c then
        if bool_decide (digLen = 1%nat) && bool_decide (val = 0%N) then None
        else let val' := (val * 10 + (byte_val c - 48))%N in
          if (255 <? val')%N then None else parseIPv4Fields s' val' (S digLen) fields
      else if bool_decide (c = "."%char) then
        if bool_decide (digLen = 0%nat) || bool_decide (s' = "") then None
        else if bool_decide (length fields = 3%nat) then None
        else parseIPv4Fields s' 0%N 0%nat (val :: fields)
      else None
  end.

(** Big-endian number of a list of [w]-bit digits. *)
Definition digits_val (w : N) (l : list N) : N := foldl (fun acc d => (acc * 2 ^ w + d)%N) 0%N l.

Definition parseIPv4 (s : string) : option Addr :=
  (fun l => Addr4 (digits_val 8 l)) <$> parseIPv4Fields s 0%N 0%nat [].

(** The hexadecimal digits at the front of [s]: their count, value and the rest;
    [None] for a fifth digit. *)
Fixpoint hex_field (s : string) (off : nat) (acc : N) : option (nat * N * string) :=
  match s with
  | "" => Some (off, acc, "")
  | String c s' =>
      match hex_val c with
      | Some d => if (3 <? off)%nat then None else hex_field s' (S off) (acc * 16 + d)%N
      | None => Some (off, acc, s)
      end
  end.

(** The loop of [parseIPv6] over 16-bit groups ([groups], most recent first);
    [ellipsis] is the group index of [::].  Eight turns are enough: each adds a group. *)
Fixpoint parseIPv6_loop (fuel : nat) (s : string) (groups : list N) (ellipsis : option nat)
  : option (string * list N * option nat) :=
  match fuel with
  | O => Some (s, groups, ellipsis)
  | S f =>
      match hex_field s 0 0 with
      | None => None
      | Some (O, _, _) => None
      | Some (_, acc, rest) =>
          let continue_ (rest : string) :=
            let groups := acc :: groups in
            match rest with
            | "" => Some ("", groups, ellipsis)
            | String c rest =>
                if negb (bool_decide (c = ":"%char)) then None
                else match rest with
                  | "" => None
                  | String c2 rest2 =>
                      if bool_decide (c2 = ":"%char) then
                        match ellipsis with
                        | Some _ => None
                        | None => match rest2 with
                            | "" => Some ("", groups, Some (length groups))
                            | _ => parseIPv6_loop f rest2 groups (Some (length groups))
                            end
                        end
                      else parseIPv6_loop f rest groups ellipsis
                  end
            end in
          match rest with
          | String "."%char _ =>
              if bool_decide (ellipsis = None) && negb (bool_decide (length groups = 6%nat)) then None
              else if (6 <? length groups)%nat then None
              else match parseIPv4Fields s 0%N 0%nat [] with
                | Some [a; b; c; d] =>
                    Some ("", (c * 256 + d)%N :: (a * 256 + b)%N :: groups, ellipsis)
                | _ => None
                end
          | _ => continue_ rest
          end
      end
  end.

Definition parseIPv6 (input : string) : option Addr :=
  let zoned :=
    match index_byte "%"%char input with
    | None => Some (input, "")
    | Some i =>
        let zone := str_drop (S i) input in
        if bool_decide (zone = "") then None else Some (str_take i input, zone)
    end in
  '(s, zone) ← zoned;
  let lead := has_prefix "::" s in
  let s := if lead then str_drop 2 s else s in
  if lead && bool_decide (s = "") then Some (Addr6 0 zone)
  else
    '(rest, groups, ellipsis) ← parseIPv6_loop 8 s [] (if lead then Some 0%nat else None);
    if negb (bool_decide (rest = "")) then None
    else
      let g := rev groups in
      if (length g <? 8)%nat then
        e ← ellipsis;
        Some (Addr6 (digits_val 16 (take e g ++ replicate (8 - length g) 0%N ++ drop e g)) zone)
      else match ellipsis with
        | Some _ => None
        | None => Some (Addr6 (digits_val 16 g) zone)
        end.

(** [netip.ParseAddr]: the first of ['.'], [':'], ['%'] decides. *)
Fixpoint ParseAddr_scan (t whole : string) : option Addr :=
  match t with
  | "" => None
  | String c t' =>
      if bool_decide (c = "."%char) then parseIPv4 whole
      else if bool_decide (c = ":"%char) then parseIPv6 whole
      else if bool_decide (c = "%"%char) then None
      else ParseAddr_scan t' whole
  end.
Definition ParseAddr (s : string) : option Addr := ParseAddr_scan s s.

(** ** Prefixes *)

(** [netip.Prefix]; [pfx_bits = -1] is the invalid prefix. *)
Record Prefix : Type := mkPrefix { pfx_ip : Addr; pfx_bits : Z }.

#[export] Instance Prefix_eq_dec : EqDecision Prefix.
Proof. solve_decision. Defined.

Definition Prefix_zero : Prefix := mkPrefix AddrNone (-1).
Definition Prefix_IsValid (p : Prefix) : bool := (0 <=? pfx_bits p)%Z.
Definition PrefixFrom (ip : Addr) (bits : Z) : Prefix :=
  mkPrefix (Addr_withoutZone ip)
    (if Addr_IsValid ip && (0 <=? bits)%Z && (bits <=? Addr_BitLen ip)%Z then bits else -1)%Z.

Definition ParsePrefix (s : string) : option Prefix :=
  i ← last_index_byte "/"%char s;
  ip ← ParseAddr (str_take i s);
  if Addr_Is6 ip && negb (bool_decide (Addr_Zone ip = "")) then None
  else
    let bitsStr := str_drop (S i) s in
    if (1 <? String.length bitsStr)%nat &&
       match bitsStr with String c _ => negb (byte_in 49 57 c) | "" => false end
    then None
    else
      bits ← parse_uint 63 bitsStr;
      if (Addr_BitLen ip <? Z.of_N bits)%Z then None else Some (PrefixFrom ip (Z.of_N bits)).

(** The leading [bits] bits of an address. *)
Definition Addr_top (bits : Z) (a : Addr) : N :=
  N.shiftr (Addr_bits a) (Z.to_N (Addr_BitLen a - bits)).

(** [Prefix.Contains]: same family, no zone, equal leading bits. *)
Definition Prefix_Contains (p : Prefix) (ip : Addr) : bool :=
  Prefix_IsValid p && bool_decide (Addr_Zone ip = "") &&
  Addr_IsValid ip && Addr_IsValid (pfx_ip p) &&
  bool_decide (Addr_BitLen (pfx_ip p) = Addr_BitLen ip) &&
  bool_decide (Addr_top (pfx_bits p) (pfx_ip p) = Addr_top (pfx_bits p) ip).

(** [Prefix.Overlaps]. *)
Definition Prefix_Overlaps (p o : Prefix) : bool :=
  if negb (Prefix_IsValid p) || negb (Prefix_IsValid o) then false
  else if bool_decide (p = o) then true
  else if negb (Bool.eqb (Addr_Is4 (pfx_ip p)) (Addr_Is4 (pfx_ip o))) then false
  else
    let minBits := if (pfx_bits p <? pfx_bits o)%Z then pfx_bits p else pfx_bits o in
    if (minBits =? 0)%Z then true
    else bool_decide (Addr_top minBits (pfx_ip p) = Addr_top minBits (pfx_ip o)).

(** ** Printing *)

Definition octet (v : N) (i : N) : N := ((v / 2 ^ (8 * (3 - i))) mod 256)%N.
Definition ipv4_string (v : N) : string :=
  str_join (map (fun i => format_uint (octet v i)) [0%N; 1%N; 2%N; 3%N]) ".".

Definition hex_char (d : N) : ascii := if (d <? 10)%N then digit_char d else ascii_of_N (87 + d).
Fixpoint hex_go (fuel : nat) (n : N) (acc : string) : string :=
  match fuel with
  | O => acc
  | S f =>
      let acc' := String (hex_char (n mod 16)) acc in
      if (n <? 16)%N then acc' else hex_go f (n / 16)%N acc'
  end.
Definition format_hex16 (n : N) : string := hex_go 4 n "".

Definition group16 (v : N) (i : nat) : N := ((v / 2 ^ (16 * (7 - N.of_nat i))) mod 65536)%N.

(** Length of the run of zero groups starting at [i]. *)
Fixpoint zero_run (fuel : nat) (v : N) (i : nat) : nat :=
  match fuel with
  | O => 0%nat
  | S f => if (group16 v i =? 0)%N then S (zero_run f v (S i)) else 0%nat
  end.
(** The first longest run of at least two zero groups, as [start, end). *)
Definition zero_span (v : N) : option (nat * nat) :=
  foldl (fun best i =>
    let l := zero_run (8 - i) v i in
    if (2 <=? l)%nat && match best with
        | None => true | Some (a, b) => (b - a <? l)%nat end
    then Some (i, (i + l)%nat) else best) None (seq 0 8).

Fixpoint ipv6_groups (fuel : nat) (v : N) (span : option (nat * nat)) (i : nat) : string :=
  match fuel with
  | O => ""
  | S f =>
      if (8 <=? i)%nat then ""
      else match span with
      | Some (a, b) =>
          if bool_decide (i = a) then
            "::" +:+ (if (8 <=? b)%nat then ""
                      else format_hex16 (group16 v b) +:+ ipv6_groups f v span (S b))
          else (if (0 <? i)%nat then ":" else "") +:+ format_hex16 (group16 v i)
               +:+ ipv6_groups f v span (S i)
      | None => (if (0 <? i)%nat then ":" else "") +:+ format_hex16 (group16 v i)
                +:+ ipv6_groups f v span (S i)
      end
  end.

Definition Addr_Is4In6 (v : N) : bool := (N.shiftr v 32 =? 65535)%N.

Definition Addr_String (a : Addr) : string :=
  match a with
  | AddrNone => "invalid IP"
  | Addr4 v => ipv4_string v
  | Addr6 v zone =>
      (if Addr_Is4In6 v then "::ffff:" +:+ ipv4_string (v mod 2 ^ 32)%N
       else ipv6_groups 8 v (zero_span v) 0)
      +:+ (if bool_decide (zone = "") then "" else "%" +:+ zone)
  end.

Definition Prefix_String (p : Prefix) : string :=
  if Prefix_IsValid p then Addr_String (pfx_ip p) +:+ "/" +:+ format_int (pfx_bits p)
  else "invalid Prefix".

(** ** [filepath.Base] (Unix separators) *)

Fixpoint drop_trailing_slashes (s : string) : string :=
  match s with
  | "" => ""
  | String c s' =>
      let t := drop_trailing_slashes s' in
      if bool_decide (t = "") && bool_decide (c = "/"%char) then "" else String c t
  end.
Definition filepath_Base (path : string) : string :=
  if bool_decide (path = "") then "."
  else
    let p := drop_trailing_slashes path in
    let p := match last_index_byte "/"%char p with Some i => str_drop (S i) p | None => p end in
    if bool_decide (p = "") then "/" else p.

(** ** Sanity examples *)

Example parse_v4 : ParseAddr "10.0.0.1" = Some (Addr4 167772161). Proof. reflexivity. Qed.
Example parse_v4_lead : ParseAddr "10.00.0.1" = None. Proof. reflexivity. Qed.
Example parse_v6 : ParseAddr "fe80::1%eth0" = Some (Addr6 (0xfe80 * 2 ^ 112 + 1) "eth0").
Proof. reflexivity. Qed.
Example parse_v6_embedded : ParseAddr "::ffff:1.2.3.4" = Some (Addr6 0xffff01020304 "").
Proof. reflexivity. Qed.
Example print_v6 : Addr_String (Addr6 (0x20010db8 * 2 ^ 96 + 1) "") = "2001:db8::1".
Proof. reflexivity. Qed.
Example parse_pfx : ParsePrefix "192.168.0.0/16" = Some (mkPrefix (Addr4 3232235520) 16).
Proof. reflexivity. Qed.
Example base_ex : filepath_Base "/usr/bin/curl//" = "curl". Proof. reflexivity. Qed.
