(* ===== verification/DNSMessage.v ===== *)
(** * DNSMessage: DNS messages and the answers the engine makes

    The part of github.com/miekg/dns the engine handles as data: questions, resource records,
    messages; and the functions of dns/client.go, dns/client_log.go, dns/rcode.go and
    dns/extension_edns0_subnet.go that only make or read messages. *)

From S2P Require Import Prelude GoStd NetIP.
Open Scope string_scope.
Open Scope list_scope.

(** ** Records and messages *)

Definition TypeA : N := 1.
Definition TypeCNAME : N := 5.
Definition TypeAAAA : N := 28.
Definition TypeOPT : N := 41.
Definition TypeHTTPS : N := 65.
Definition ClassINET : N := 1.
Definition SVCB_IPV4HINT : N := 4.
Definition SVCB_IPV6HINT : N := 6.
Definition RcodeSuccess : Z := 0.
Definition RcodeFormatError : Z := 1.
Definition RcodeNameError : Z := 3.
Definition RcodeRefused : Z := 5.

Record Question : Type := mkQuestion { q_Name : string; q_Qtype : N; q_Qclass : N }.
#[export] Instance Question_eq_dec : EqDecision Question.
Proof. solve_decision. Defined.

(** An option of an OPT record. *)
Inductive EDNS0 : Type :=
| EDNS0_SUBNET (family netmask : N) (address : Addr)
| EDNS0_Other (text : string).
#[export] Instance EDNS0_eq_dec : EqDecision EDNS0.
Proof. solve_decision. Defined.

(** What the engine looks at of the data of a record.  An address record holds the address that
    [M.AddrFromIP] reads from its bytes; a value of an HTTPS record is its key and its text. *)
Inductive RRData : Type :=
| RR_A (a : Addr)
| RR_AAAA (a : Addr)
| RR_CNAME (target : string)
| RR_SOA (minttl : N)
| RR_HTTPS (value : list (N * string))
| RR_OPT (option : list EDNS0)
| RR_TXT (txt : list string)
| RR_MX (preference : N) (mx : string)
| RR_Other (text : string).
#[export] Instance RRData_eq_dec : EqDecision RRData.
Proof. solve_decision. Defined.

(** A resource record: its header and its data.  In an OPT record the class is the UDP size and the
    TTL holds the extended code, the version and the flags. *)
Record RR : Type := mkRR {
  rr_Name : string;
  rr_Rrtype : N;
  rr_Class : N;
  rr_Ttl : N;
  rr_Data : RRData
}.
#[export] Instance RR_eq_dec : EqDecision RR.
Proof. solve_decision. Defined.
Definition set_rr_Name (name : string) (r : RR) : RR :=
  mkRR name (rr_Rrtype r) (rr_Class r) (rr_Ttl r) (rr_Data r).
Definition set_rr_Ttl (ttl : N) (r : RR) : RR :=
  mkRR (rr_Name r) (rr_Rrtype r) (rr_Class r) ttl (rr_Data r).
Definition set_rr_Data (d : RRData) (r : RR) : RR :=
  mkRR (rr_Name r) (rr_Rrtype r) (rr_Class r) (rr_Ttl r) d.
Definition is_OPT (r : RR) : bool := match rr_Data r with RR_OPT _ => true | _ => false end.

(** [mDNS.Msg]. *)
Record Msg : Type := mkMsg {
  msg_Id : N;
  msg_Response : bool;
  msg_Authoritative : bool;
  msg_RecursionDesired : bool;
  msg_RecursionAvailable : bool;
  msg_Rcode : Z;
  msg_Question : list Question;
  msg_Answer : list RR;
  msg_Ns : list RR;
  msg_Extra : list RR
}.
#[export] Instance Msg_eq_dec : EqDecision Msg.
Proof. solve_decision. Defined.
Definition set_msg_Id (id : N) (m : Msg) : Msg :=
  mkMsg id (msg_Response m) (msg_Authoritative m) (msg_RecursionDesired m) (msg_RecursionAvailable m)
    (msg_Rcode m) (msg_Question m) (msg_Answer m) (msg_Ns m) (msg_Extra m).
Definition set_msg_Answer (l : list RR) (m : Msg) : Msg :=
  mkMsg (msg_Id m) (msg_Response m) (msg_Authoritative m) (msg_RecursionDesired m) (msg_RecursionAvailable m)
    (msg_Rcode m) (msg_Question m) l (msg_Ns m) (msg_Extra m).
Definition set_msg_Extra (l : list RR) (m : Msg) : Msg :=
  mkMsg (msg_Id m) (msg_Response m) (msg_Authoritative m) (msg_RecursionDesired m) (msg_RecursionAvailable m)
    (msg_Rcode m) (msg_Question m) (msg_Answer m) (msg_Ns m) l.

(** Every record, in the order of the loops
    [for _, recordList := range \[\]\[\]dns.RR{response.Answer, response.Ns, response.Extra}]. *)
Definition msg_records (m : Msg) : list RR := msg_Answer m ++ msg_Ns m ++ msg_Extra m.
Definition map_records (f : RR -> RR) (m : Msg) : Msg :=
  mkMsg (msg_Id m) (msg_Response m) (msg_Authoritative m) (msg_RecursionDesired m) (msg_RecursionAvailable m)
    (msg_Rcode m) (msg_Question m) (map f (msg_Answer m)) (map f (msg_Ns m)) (map f (msg_Extra m)).

(** What the engine calls of the DNS library and of sing. *)
Class DNSLibrary : Type := {
  mDNS_IsFqdn : string -> bool;
  mDNS_Fqdn : string -> string;
  M_ParseAddr : string -> Addr;
  (* [Msg.IsEdns0], the parts of an OPT record, and the record that [Msg.SetEdns0] appends *)
  IsEdns0 : Msg -> option RR;
  opt_Version : RR -> N;
  opt_UDPSize : RR -> N;
  opt_Do : RR -> bool;
  NewEdns0 : N -> bool -> RR
}.

(** ** Response codes as errors *)

Definition RcodeError (rcode : Z) : error := ERcode rcode.
(** [errors.As(err, &rcodeError)]. *)
Fixpoint As_RcodeError (e : error) : option Z :=
  match e with
  | ERcode rcode => Some rcode
  | ENew _ | ELib _ => None
  | ECause c _ | EExtend c _ | EWrap c _ | ERejected c | EBypassed c => As_RcodeError c
  | EJoin a b => match As_RcodeError a with Some r => Some r | None => As_RcodeError b end
  end.

(** ** Answers *)

(** [DefaultDNSTTL]. *)
Definition DefaultDNSTTL : N := 600.

Definition FixedResponseStatus (message : Msg) (rcode : Z) : Msg :=
  mkMsg (msg_Id message) true true true true rcode (msg_Question message) [] [] [].

(** A message that answers a question. *)
Definition fixed_response (id : N) (question : Question) (answer : list RR) : Msg :=
  mkMsg id true true true true RcodeSuccess [question] answer [] [].

Definition fixed_record (question : Question) (timeToLive : N) (address : Addr) : list RR :=
  if Addr_Is4 address && (q_Qtype question =? TypeA)%N then
    [mkRR (q_Name question) TypeA ClassINET timeToLive (RR_A address)]
  else if Addr_Is6 address && (q_Qtype question =? TypeAAAA)%N then
    [mkRR (q_Name question) TypeAAAA ClassINET timeToLive (RR_AAAA (Addr_withoutZone address))]
  else [].
Definition FixedResponse (id : N) (question : Question) (addresses : list Addr) (timeToLive : N) : Msg :=
  fixed_response id question (flat_map (fixed_record question timeToLive) addresses).

Definition FixedResponseCNAME (id : N) (question : Question) (record : string) (timeToLive : N) : Msg :=
  fixed_response id question [mkRR (q_Name question) TypeCNAME ClassINET timeToLive (RR_CNAME record)].
(** The header says type A. *)
Definition FixedResponseTXT (id : N) (question : Question) (records : list string) (timeToLive : N) : Msg :=
  fixed_response id question [mkRR (q_Name question) TypeA ClassINET timeToLive (RR_TXT records)].
Definition FixedResponseMX (id : N) (question : Question) (records : list (N * string)) (timeToLive : N) : Msg :=
  fixed_response id question
    (map (fun r => mkRR (q_Name question) TypeA ClassINET timeToLive (RR_MX (fst r) (snd r))) records).

(** ** The client subnet *)

(** The loop over the extra records: it stops at the first OPT record with a subnet option; without
    one, [optRecord] is nil if the last record is not an OPT record, the last record if it is. *)
Definition is_subnet (o : EDNS0) : bool := match o with EDNS0_SUBNET _ _ _ => true | _ => false end.
Fixpoint find_subnet (i : nat) (last : option nat) (l : list RR) : option nat * bool :=
  match l with
  | [] => (last, false)
  | r :: l =>
      match rr_Data r with
      | RR_OPT options => if existsb is_subnet options then (Some i, true) else find_subnet (S i) (Some i) l
      | _ => find_subnet (S i) None l
      end
  end.

Definition subnet_option (clientSubnet : Prefix) : EDNS0 :=
  EDNS0_SUBNET (if Addr_Is4 (pfx_ip clientSubnet) then 1 else 2) (Z.to_N (pfx_bits clientSubnet mod 256))
    (Addr_withoutZone (pfx_ip clientSubnet)).
(** The first subnet option is written over, or one is appended. *)
Fixpoint put_subnet (o : EDNS0) (l : list EDNS0) : list EDNS0 :=
  match l with
  | [] => [o]
  | x :: l => if is_subnet x then o :: l else x :: put_subnet o l
  end.
Definition put_opt (o : EDNS0) (r : RR) : RR :=
  match rr_Data r with RR_OPT options => set_rr_Data (RR_OPT (put_subnet o options)) r | _ => r end.

(** The message is a copy: the one given is not changed. *)
Definition SetClientSubnet (message : Msg) (clientSubnet : Prefix) : Msg :=
  let o := subnet_option clientSubnet in
  match fst (find_subnet 0 None (msg_Extra message)) with
  | None => set_msg_Extra (msg_Extra message ++ [mkRR "." TypeOPT 0 0 (RR_OPT [o])]) message
  | Some i => set_msg_Extra (alter (put_opt o) i (msg_Extra message)) message
  end.

Section Library.
Context {DL : DNSLibrary}.

Definition FqdnToDomain (fqdn : string) : string :=
  if mDNS_IsFqdn fqdn then str_take (String.length fqdn - 1) fqdn else fqdn.

Definition record_addresses (r : RR) : list Addr :=
  match rr_Data r with
  | RR_A a | RR_AAAA a => [a]
  | RR_HTTPS values =>
      flat_map (fun v : N * string =>
        if (fst v =? SVCB_IPV4HINT)%N || (fst v =? SVCB_IPV6HINT)%N
        then map M_ParseAddr (str_split "," (snd v)) else []) values
  | _ => []
  end.
Definition MessageToAddresses (response : Msg) : list Addr :=
  if negb (msg_Rcode response =? RcodeSuccess)%Z then []
  else flat_map record_addresses (msg_Answer response).
End Library.

(** ** Properties of the answers *)

Lemma msg_records_map f m : msg_records (map_records f m) = map f (msg_records m).
Proof. unfold msg_records. by rewrite !map_app. Qed.

(** The addresses of an answer are those asked for that are of the family of the question. *)
Definition of_type (qtype : N) (a : Addr) : bool :=
  Addr_Is4 a && (qtype =? TypeA)%N || Addr_Is6 a && (qtype =? TypeAAAA)%N.

Lemma FixedResponse_addresses `{DL : DNSLibrary} id q addresses ttl :
  MessageToAddresses (FixedResponse id q addresses ttl) =
  map Addr_withoutZone (List.filter (of_type (q_Qtype q)) addresses).
Proof.
  unfold MessageToAddresses, FixedResponse, fixed_response. simpl.
  induction addresses as [|a l IH]; [done|]. simpl. rewrite flat_map_app, IH.
  unfold fixed_record, of_type.
  destruct a; simpl; destruct (_ =? TypeA)%N eqn:E1, (_ =? TypeAAAA)%N eqn:E2; try done.
  all: apply N.eqb_eq in E1, E2; rewrite E1 in E2; done.
Qed.
