(* ===== verification/Metadata.v ===== *)
(** * Metadata: the connection metadata the rules read and write

    [adapter.InboundContext] (adapter/inbound.go), the data of the network manager and
    of the platform the rule items look at, and the third-party code the rule system
    calls ([Externals]).

    The Go struct is flat; its comment-separated groups ("sniffer", "rule cache", the
    dial options the route action fills in) are sub-records here so that an update of
    one group reads as one record.  [SniffContext any] and [InboundType] are not read by
    the modelled code and are left out. *)

From S2P Require Import Prelude GoStd NetIP.
Open Scope string_scope.

(** [M.Socksaddr] of sing: an address or a domain name, and a port. *)
Record Socksaddr : Type := mkSocksaddr { sa_Addr : Addr; sa_Port : N; sa_Fqdn : string }.
Definition Socksaddr_zero : Socksaddr := mkSocksaddr AddrNone 0 "".

#[export] Instance Socksaddr_eq_dec : EqDecision Socksaddr.
Proof. solve_decision. Defined.

(** ** Third-party code, as a parameter *)

(** What is added to a [netipx.IPSetBuilder]. *)
Inductive ipset_op : Type := OpAddPrefix (p : Prefix) | OpAdd (a : Addr).

(** The library code the rule system calls and that is not part of the repository:
    sing's [Socksaddr] methods, address classification and domain matchers, [netipx] IP sets,
    [badoption.Prefixable], miekg/dns' type names, and of Go's library the regular
    expression engine and the Unicode case tables. *)
Class Externals : Type := {
  Socksaddr_IsIP : Socksaddr -> bool;
  Socksaddr_IsIPv4 : Socksaddr -> bool;
  Socksaddr_IsIPv6 : Socksaddr -> bool;
  Socksaddr_IsFqdn : Socksaddr -> bool;
  Socksaddr_IsValid : Socksaddr -> bool;
  ParseSocksaddrHostPort : string -> N -> Socksaddr;
  IsDomainName : string -> bool;
  IsPublicAddr : Addr -> bool;
  DomainMatcher : Type;
  NewMatcher : list string -> list string -> bool -> DomainMatcher;
  Matcher_Match : DomainMatcher -> string -> bool;
  AdGuardMatcher : Type;
  NewAdGuardMatcher : list string -> AdGuardMatcher;
  AdGuardMatcher_Match : AdGuardMatcher -> string -> bool;
  IPSet : Type;
  IPSetBuilder_IPSet : list ipset_op -> result IPSet;
  IPSet_Contains : IPSet -> Addr -> bool;
  Regexp : Type;
  regexp_Compile : string -> result Regexp;
  Regexp_MatchString : Regexp -> string -> bool;
  Prefixable : Type;
  Prefixable_Build : option Prefixable -> Prefix -> Prefix;
  Prefixable_Prefix : Prefixable -> Prefix;
  unicode_ToLower : string -> string;
  unicode_EqualFold : string -> string -> bool;
  mDNS_TypeToString : N -> option string
}.

Section Strings.
Context {X : Externals}.
(** [strings.ToLower]: bytewise for an ASCII string, by the Unicode tables otherwise. *)
Definition ToLower (s : string) : string :=
  if is_ascii s then ascii_lower s else unicode_ToLower s.
(** [strings.EqualFold]. *)
Definition EqualFold (s t : string) : bool :=
  if is_ascii s && is_ascii t then bool_decide (ascii_lower s = ascii_lower t)
  else unicode_EqualFold s t.
End Strings.

(** ** [adapter.InboundContext] *)

(** [adapter.ConnectionOwner]. *)
Record ConnectionOwner : Type := mkConnectionOwner {
  ProcessID : N;
  UserId : Z;
  UserName : string;
  ProcessPath : string;
  AndroidPackageName : string
}.

(** The sniffer group. *)
Record SniffInfo : Type := mkSniffInfo {
  sn_Protocol : string;
  sn_Domain : string;
  sn_Client : string;
  sn_SnifferNames : list string;
  sn_SniffError : option error
}.
Definition SniffInfo_zero : SniffInfo := mkSniffInfo "" "" "" [] None.

(** [option.InboundOptions], the deprecated per-inbound options. *)
Record InboundOptions : Type := mkInboundOptions {
  io_SniffEnabled : bool;
  io_SniffOverrideDestination : bool;
  io_SniffTimeout : Z;
  io_DomainStrategy : N;
  io_UDPDisableDomainUnmapping : bool;
  io_Detour : string
}.
Definition InboundOptions_zero : InboundOptions := mkInboundOptions false false 0 0 false "".

#[export] Instance InboundOptions_eq_dec : EqDecision InboundOptions.
Proof. solve_decision. Defined.

(** Dial options a matched rule leaves in the metadata. *)
Record DialInfo : Type := mkDialInfo {
  di_UDPDisableDomainUnmapping : bool;
  di_UDPConnect : bool;
  di_UDPTimeout : Z;
  di_TLSFragment : bool;
  di_TLSFragmentFallbackDelay : Z;
  di_TLSRecordFragment : bool;
  di_NetworkStrategy : option N;
  di_NetworkType : list N;
  di_FallbackNetworkType : list N;
  di_FallbackDelay : Z
}.
Definition DialInfo_zero : DialInfo := mkDialInfo false false 0 false 0 false None [] [] 0.

(** The rule cache group. *)
Record RuleCache : Type := mkRuleCache {
  IPCIDRMatchSource : bool;
  IPCIDRAcceptEmpty : bool;
  SourceAddressMatch : bool;
  SourcePortMatch : bool;
  DestinationAddressMatch : bool;
  DestinationPortMatch : bool;
  DidMatch : bool;
  IgnoreDestinationIPCIDRMatch : bool
}.

Record InboundContext : Type := mkInboundContext {
  md_Inbound : string;
  md_IPVersion : N;
  md_Network : string;
  md_Source : Socksaddr;
  md_Destination : Socksaddr;
  md_TunnelSource : string;
  md_TunnelDestination : string;
  md_User : string;
  md_Outbound : string;
  md_sniff : SniffInfo;
  md_InboundDetour : string;
  md_LastInbound : string;
  md_OriginDestination : Socksaddr;
  md_RouteOriginalDestination : Socksaddr;
  md_InboundOptions : InboundOptions;
  md_dial : DialInfo;
  md_DestinationAddresses : list Addr;
  md_ProcessInfo : option ConnectionOwner;
  md_QueryType : N;
  md_FakeIP : bool;
  md_cache : RuleCache
}.

(** ** Updates *)

(** [ResetRuleCache]: everything in the rule cache but [IgnoreDestinationIPCIDRMatch]. *)
Definition RuleCache_reset (c : RuleCache) : RuleCache :=
  mkRuleCache false false false false false false false (IgnoreDestinationIPCIDRMatch c).

Definition set_cache (c : RuleCache) (m : InboundContext) : InboundContext :=
  match m with
  | mkInboundContext a1 a2 a3 a4 a5 a6 a7 a8 a9 a10 a11 a12 a13 a14 a15 a16 a17 a18 a19 a20 _ =>
      mkInboundContext a1 a2 a3 a4 a5 a6 a7 a8 a9 a10 a11 a12 a13 a14 a15 a16 a17 a18 a19 a20 c
  end.

(** [metadata.<field> = v]. *)
Definition set_Inbound (v : string) (m : InboundContext) : InboundContext :=
  let '(mkInboundContext _ a2 a3 a4 a5 a6 a7 a8 a9 a10 a11 a12 a13 a14 a15 a16 a17 a18 a19 a20 a21) := m in
  mkInboundContext v a2 a3 a4 a5 a6 a7 a8 a9 a10 a11 a12 a13 a14 a15 a16 a17 a18 a19 a20 a21.
Definition set_IPVersion (v : N) (m : InboundContext) : InboundContext :=
  let '(mkInboundContext a1 _ a3 a4 a5 a6 a7 a8 a9 a10 a11 a12 a13 a14 a15 a16 a17 a18 a19 a20 a21) := m in
  mkInboundContext a1 v a3 a4 a5 a6 a7 a8 a9 a10 a11 a12 a13 a14 a15 a16 a17 a18 a19 a20 a21.
Definition set_Network (v : string) (m : InboundContext) : InboundContext :=
  let '(mkInboundContext a1 a2 _ a4 a5 a6 a7 a8 a9 a10 a11 a12 a13 a14 a15 a16 a17 a18 a19 a20 a21) := m in
  mkInboundContext a1 a2 v a4 a5 a6 a7 a8 a9 a10 a11 a12 a13 a14 a15 a16 a17 a18 a19 a20 a21.
Definition set_Destination (v : Socksaddr) (m : InboundContext) : InboundContext :=
  let '(mkInboundContext a1 a2 a3 a4 _ a6 a7 a8 a9 a10 a11 a12 a13 a14 a15 a16 a17 a18 a19 a20 a21) := m in
  mkInboundContext a1 a2 a3 a4 v a6 a7 a8 a9 a10 a11 a12 a13 a14 a15 a16 a17 a18 a19 a20 a21.
Definition set_TunnelDestination (v : string) (m : InboundContext) : InboundContext :=
  let '(mkInboundContext a1 a2 a3 a4 a5 a6 _ a8 a9 a10 a11 a12 a13 a14 a15 a16 a17 a18 a19 a20 a21) := m in
  mkInboundContext a1 a2 a3 a4 a5 a6 v a8 a9 a10 a11 a12 a13 a14 a15 a16 a17 a18 a19 a20 a21.
Definition set_sniff (v : SniffInfo) (m : InboundContext) : InboundContext :=
  let '(mkInboundContext a1 a2 a3 a4 a5 a6 a7 a8 a9 _ a11 a12 a13 a14 a15 a16 a17 a18 a19 a20 a21) := m in
  mkInboundContext a1 a2 a3 a4 a5 a6 a7 a8 a9 v a11 a12 a13 a14 a15 a16 a17 a18 a19 a20 a21.
Definition set_InboundDetour (v : string) (m : InboundContext) : InboundContext :=
  let '(mkInboundContext a1 a2 a3 a4 a5 a6 a7 a8 a9 a10 _ a12 a13 a14 a15 a16 a17 a18 a19 a20 a21) := m in
  mkInboundContext a1 a2 a3 a4 a5 a6 a7 a8 a9 a10 v a12 a13 a14 a15 a16 a17 a18 a19 a20 a21.
Definition set_LastInbound (v : string) (m : InboundContext) : InboundContext :=
  let '(mkInboundContext a1 a2 a3 a4 a5 a6 a7 a8 a9 a10 a11 _ a13 a14 a15 a16 a17 a18 a19 a20 a21) := m in
  mkInboundContext a1 a2 a3 a4 a5 a6 a7 a8 a9 a10 a11 v a13 a14 a15 a16 a17 a18 a19 a20 a21.
Definition set_OriginDestination (v : Socksaddr) (m : InboundContext) : InboundContext :=
  let '(mkInboundContext a1 a2 a3 a4 a5 a6 a7 a8 a9 a10 a11 a12 _ a14 a15 a16 a17 a18 a19 a20 a21) := m in
  mkInboundContext a1 a2 a3 a4 a5 a6 a7 a8 a9 a10 a11 a12 v a14 a15 a16 a17 a18 a19 a20 a21.
Definition set_RouteOriginalDestination (v : Socksaddr) (m : InboundContext) : InboundContext :=
  let '(mkInboundContext a1 a2 a3 a4 a5 a6 a7 a8 a9 a10 a11 a12 a13 _ a15 a16 a17 a18 a19 a20 a21) := m in
  mkInboundContext a1 a2 a3 a4 a5 a6 a7 a8 a9 a10 a11 a12 a13 v a15 a16 a17 a18 a19 a20 a21.
Definition set_InboundOptions (v : InboundOptions) (m : InboundContext) : InboundContext :=
  let '(mkInboundContext a1 a2 a3 a4 a5 a6 a7 a8 a9 a10 a11 a12 a13 a14 _ a16 a17 a18 a19 a20 a21) := m in
  mkInboundContext a1 a2 a3 a4 a5 a6 a7 a8 a9 a10 a11 a12 a13 a14 v a16 a17 a18 a19 a20 a21.
Definition set_dial (v : DialInfo) (m : InboundContext) : InboundContext :=
  let '(mkInboundContext a1 a2 a3 a4 a5 a6 a7 a8 a9 a10 a11 a12 a13 a14 a15 _ a17 a18 a19 a20 a21) := m in
  mkInboundContext a1 a2 a3 a4 a5 a6 a7 a8 a9 a10 a11 a12 a13 a14 a15 v a17 a18 a19 a20 a21.
Definition set_DestinationAddresses (v : list Addr) (m : InboundContext) : InboundContext :=
  let '(mkInboundContext a1 a2 a3 a4 a5 a6 a7 a8 a9 a10 a11 a12 a13 a14 a15 a16 _ a18 a19 a20 a21) := m in
  mkInboundContext a1 a2 a3 a4 a5 a6 a7 a8 a9 a10 a11 a12 a13 a14 a15 a16 v a18 a19 a20 a21.
Definition set_ProcessInfo (v : option ConnectionOwner) (m : InboundContext) : InboundContext :=
  let '(mkInboundContext a1 a2 a3 a4 a5 a6 a7 a8 a9 a10 a11 a12 a13 a14 a15 a16 a17 _ a19 a20 a21) := m in
  mkInboundContext a1 a2 a3 a4 a5 a6 a7 a8 a9 a10 a11 a12 a13 a14 a15 a16 a17 v a19 a20 a21.
Definition set_QueryType (v : N) (m : InboundContext) : InboundContext :=
  let '(mkInboundContext a1 a2 a3 a4 a5 a6 a7 a8 a9 a10 a11 a12 a13 a14 a15 a16 a17 a18 _ a20 a21) := m in
  mkInboundContext a1 a2 a3 a4 a5 a6 a7 a8 a9 a10 a11 a12 a13 a14 a15 a16 a17 a18 v a20 a21.
Definition set_FakeIP (v : bool) (m : InboundContext) : InboundContext :=
  let '(mkInboundContext a1 a2 a3 a4 a5 a6 a7 a8 a9 a10 a11 a12 a13 a14 a15 a16 a17 a18 a19 _ a21) := m in
  mkInboundContext a1 a2 a3 a4 a5 a6 a7 a8 a9 a10 a11 a12 a13 a14 a15 a16 a17 a18 a19 v a21.

Definition ResetRuleCache (m : InboundContext) : InboundContext :=
  set_cache (RuleCache_reset (md_cache m)) m.

Definition set_IPCIDRMatchSource (b : bool) (c : RuleCache) : RuleCache :=
  mkRuleCache b (IPCIDRAcceptEmpty c) (SourceAddressMatch c) (SourcePortMatch c)
    (DestinationAddressMatch c) (DestinationPortMatch c) (DidMatch c) (IgnoreDestinationIPCIDRMatch c).
Definition set_IPCIDRAcceptEmpty (b : bool) (c : RuleCache) : RuleCache :=
  mkRuleCache (IPCIDRMatchSource c) b (SourceAddressMatch c) (SourcePortMatch c)
    (DestinationAddressMatch c) (DestinationPortMatch c) (DidMatch c) (IgnoreDestinationIPCIDRMatch c).
Definition set_SourceAddressMatch (b : bool) (c : RuleCache) : RuleCache :=
  mkRuleCache (IPCIDRMatchSource c) (IPCIDRAcceptEmpty c) b (SourcePortMatch c)
    (DestinationAddressMatch c) (DestinationPortMatch c) (DidMatch c) (IgnoreDestinationIPCIDRMatch c).
Definition set_SourcePortMatch (b : bool) (c : RuleCache) : RuleCache :=
  mkRuleCache (IPCIDRMatchSource c) (IPCIDRAcceptEmpty c) (SourceAddressMatch c) b
    (DestinationAddressMatch c) (DestinationPortMatch c) (DidMatch c) (IgnoreDestinationIPCIDRMatch c).
Definition set_DestinationAddressMatch (b : bool) (c : RuleCache) : RuleCache :=
  mkRuleCache (IPCIDRMatchSource c) (IPCIDRAcceptEmpty c) (SourceAddressMatch c) (SourcePortMatch c)
    b (DestinationPortMatch c) (DidMatch c) (IgnoreDestinationIPCIDRMatch c).
Definition set_DestinationPortMatch (b : bool) (c : RuleCache) : RuleCache :=
  mkRuleCache (IPCIDRMatchSource c) (IPCIDRAcceptEmpty c) (SourceAddressMatch c) (SourcePortMatch c)
    (DestinationAddressMatch c) b (DidMatch c) (IgnoreDestinationIPCIDRMatch c).
Definition set_DidMatch (b : bool) (c : RuleCache) : RuleCache :=
  mkRuleCache (IPCIDRMatchSource c) (IPCIDRAcceptEmpty c) (SourceAddressMatch c) (SourcePortMatch c)
    (DestinationAddressMatch c) (DestinationPortMatch c) b (IgnoreDestinationIPCIDRMatch c).
Definition set_IgnoreDestinationIPCIDRMatch (b : bool) (c : RuleCache) : RuleCache :=
  mkRuleCache (IPCIDRMatchSource c) (IPCIDRAcceptEmpty c) (SourceAddressMatch c) (SourcePortMatch c)
    (DestinationAddressMatch c) (DestinationPortMatch c) (DidMatch c) b.

(** [metadata.<flag> = b] for a flag of the rule cache. *)
Definition upd_cache (f : RuleCache -> RuleCache) (m : InboundContext) : InboundContext :=
  set_cache (f (md_cache m)) m.

(** ** Laws of the updates *)

Lemma set_cache_cache c m : md_cache (set_cache c m) = c.
Proof. by destruct m. Qed.
Lemma set_cache_set c d m : set_cache c (set_cache d m) = set_cache c m.
Proof. by destruct m. Qed.
Lemma set_cache_id m : set_cache (md_cache m) m = m.
Proof. by destruct m. Qed.
Lemma reset_cache m : md_cache (ResetRuleCache m) = RuleCache_reset (md_cache m).
Proof. apply set_cache_cache. Qed.
Lemma RuleCache_reset_idemp c : RuleCache_reset (RuleCache_reset c) = RuleCache_reset c.
Proof. by destruct c. Qed.
Lemma reset_set_cache c m : ResetRuleCache (set_cache c m) = set_cache (RuleCache_reset c) m.
Proof. unfold ResetRuleCache. by rewrite set_cache_cache, set_cache_set. Qed.
Lemma reset_idemp m : ResetRuleCache (ResetRuleCache m) = ResetRuleCache m.
Proof. unfold ResetRuleCache at 2 3. by rewrite reset_set_cache, RuleCache_reset_idemp. Qed.

(** Two contexts that agree outside the rule cache and on its persistent flag. *)
Record same_frame (m m' : InboundContext) : Prop := SameFrame {
  same_frame_eq : ResetRuleCache m = ResetRuleCache m' }.

#[export] Instance same_frame_equiv : Equivalence same_frame.
Proof.
  split.
  - by split.
  - intros ? ? [H]. by split.
  - intros ? ? ? [H1] [H2]. split. congruence.
Qed.

#[export] Instance ResetRuleCache_proper : Proper (same_frame ==> eq) ResetRuleCache.
Proof. by intros m m' [H]. Qed.

Lemma same_frame_reset m : same_frame (ResetRuleCache m) m.
Proof. split. apply reset_idemp. Qed.

Lemma same_frame_upd f m :
  (forall c, IgnoreDestinationIPCIDRMatch (f c) = IgnoreDestinationIPCIDRMatch c) ->
  same_frame (upd_cache f m) m.
Proof.
  intros H. split. unfold upd_cache. rewrite reset_set_cache.
  unfold ResetRuleCache. f_equal. unfold RuleCache_reset. by rewrite H.
Qed.

Lemma same_frame_ignore m m' : same_frame m m' ->
  IgnoreDestinationIPCIDRMatch (md_cache m) = IgnoreDestinationIPCIDRMatch (md_cache m').
Proof.
  intros [H]. apply (f_equal md_cache) in H. rewrite !reset_cache in H.
  by injection H.
Qed.

(** The context with cache [c]: any context is its frame with its cache put back. *)
Lemma same_frame_set m m' : same_frame m m' -> m = set_cache (md_cache m) m'.
Proof.
  intros [H]. unfold ResetRuleCache in H.
  apply (f_equal (set_cache (md_cache m))) in H.
  by rewrite !set_cache_set, set_cache_id in H.
Qed.

#[export] Hint Rewrite set_cache_cache set_cache_set set_cache_id reset_cache : go.
#[export] Hint Resolve same_frame_reset same_frame_upd : go.

(** ** The environment rule items look at *)

(** [control.Interface]: the fields the rule items read. *)
Record Interface : Type := mkInterface { if_Name : string; if_Addresses : list Prefix }.
Definition Interface_zero : Interface := mkInterface "" [].

(** [adapter.NetworkInterface]; [C.InterfaceType] is a [uint8]. *)
Record NetworkInterface : Type := mkNetworkInterface {
  ni_Interface : Interface;
  ni_Type : N;
  ni_DNSServers : list string;
  ni_Expensive : bool;
  ni_Constrained : bool
}.

(** What the network manager, the interface monitor, the Clash server and the outbounds with
    preferred routes answer at the moment a rule is matched. *)
Record World : Type := mkWorld {
  DefaultNetworkInterface : option NetworkInterface;
  NetworkInterfaces : list NetworkInterface;
  Interfaces : list Interface;
  DefaultInterface : option Interface;
  WIFIState_SSID : string;
  WIFIState_BSSID : string;
  ClashServer_Mode : string;
  PreferredDomain : string -> string -> bool;
  PreferredAddress : string -> Addr -> bool
}.
