(* ===== verification/Sample.v ===== *)
(** * Sample: a concrete instance of the third-party code

    Small executable stand-ins for the libraries of [Externals], used to evaluate the model on
    concrete rules and connections: an IP set is the list of what was added to its builder, a
    domain matcher the lists of names and suffixes, a regular expression a literal substring. *)

From S2P Require Import Prelude GoStd NetIP DNSMessage Metadata.
Open Scope string_scope.

Definition op_contains (a : Addr) (op : ipset_op) : bool :=
  match op with OpAddPrefix p => Prefix_Contains p a | OpAdd b => bool_decide (a = b) end.

(** [M.ParseSocksaddrHostPort]: an address literal or a name. *)
Definition sample_ParseSocksaddrHostPort (host : string) (port : N) : Socksaddr :=
  match ParseAddr host with
  | Some a => mkSocksaddr a port ""
  | None => mkSocksaddr AddrNone port host
  end.

(** 10.0.0.0/8, 192.168.0.0/16 and 127.0.0.0/8 are the private networks here. *)
Definition sample_IsPublicAddr (a : Addr) : bool :=
  negb (existsb (fun p => Prefix_Contains p a)
    [mkPrefix (Addr4 (10 * 2 ^ 24)) 8; mkPrefix (Addr4 (192 * 2 ^ 24 + 168 * 2 ^ 16)) 16;
     mkPrefix (Addr4 (127 * 2 ^ 24)) 8]).

Definition sample_Matcher_Match (d : list string * list string) (s : string) : bool :=
  existsb (fun x => bool_decide (x = s)) (fst d) ||
  existsb (fun x => bool_decide (x = s) || has_suffix s ("." +:+ x)) (snd d).

Definition sample : Externals := {|
  Socksaddr_IsIP a := Addr_IsValid (sa_Addr a);
  Socksaddr_IsIPv4 a := Addr_Is4 (sa_Addr a);
  Socksaddr_IsIPv6 a := Addr_Is6 (sa_Addr a);
  Socksaddr_IsFqdn a := negb (Addr_IsValid (sa_Addr a)) && negb (bool_decide (sa_Fqdn a = ""));
  Socksaddr_IsValid a := Addr_IsValid (sa_Addr a) || negb (bool_decide (sa_Fqdn a = ""));
  ParseSocksaddrHostPort := sample_ParseSocksaddrHostPort;
  IsDomainName s := negb (bool_decide (s = ""));
  IsPublicAddr := sample_IsPublicAddr;
  DomainMatcher := list string * list string;
  NewMatcher d s _ := (d, s);
  Matcher_Match := sample_Matcher_Match;
  AdGuardMatcher := list string;
  NewAdGuardMatcher l := l;
  AdGuardMatcher_Match l s := existsb (fun x => bool_decide (x = "||" +:+ s +:+ "^")) l;
  IPSet := list ipset_op;
  IPSetBuilder_IPSet ops := Ok ops;
  IPSet_Contains ops a := existsb (op_contains a) ops;
  Regexp := string;
  regexp_Compile e := if bool_decide (e = "(") then Err (ELib "regexp.Compile") else Ok e;
  Regexp_MatchString e s := str_contains s e;
  Prefixable := Prefix;
  Prefixable_Build o d := default d o;
  Prefixable_Prefix p := p;
  unicode_ToLower s := s;
  unicode_EqualFold s t := bool_decide (s = t);
  mDNS_TypeToString t := if (t =? 1)%N then Some "A" else if (t =? 28)%N then Some "AAAA" else None
|}.

(** The DNS library: names end with a dot, and an OPT record keeps version and flags in its TTL. *)
Definition sample_dns_library : DNSLibrary := {|
  mDNS_IsFqdn s := has_suffix s ".";
  mDNS_Fqdn s := if has_suffix s "." then s else s +:+ ".";
  M_ParseAddr s := default AddrNone (ParseAddr s);
  IsEdns0 m := last (List.filter (fun r => (rr_Rrtype r =? TypeOPT)%N) (msg_Extra m));
  opt_Version r := (rr_Ttl r / 2 ^ 16 mod 256)%N;
  opt_UDPSize := rr_Class;
  opt_Do r := N.testbit (rr_Ttl r) 15;
  NewEdns0 size do := mkRR "." TypeOPT size (if do : bool then 2 ^ 15 else 0) (RR_OPT [])
|}.

(** ** A connection and an environment *)

Definition sample_cache : RuleCache := mkRuleCache false false false false false false false false.

(** A TCP connection from 192.168.1.2:50000 to [fqdn]:[port]. *)
Definition sample_context (fqdn : string) (addr : Addr) (port : N) : InboundContext :=
  mkInboundContext "tun-in" 4 "tcp" (mkSocksaddr (Addr4 (192 * 2 ^ 24 + 168 * 2 ^ 16 + 258)) 50000 "")
    (mkSocksaddr addr port fqdn) "" "" "" "" SniffInfo_zero "" "" Socksaddr_zero Socksaddr_zero
    InboundOptions_zero DialInfo_zero [] None 0 false sample_cache.

Definition sample_world : World :=
  mkWorld (Some (mkNetworkInterface (mkInterface "en0" []) 0 [] true false)) [] [] None "home" "" "rule"
    (fun _ _ => false) (fun _ _ => false).
