(* ===== verification/RuleItems.v ===== *)
(** * RuleItems: the conditions of a rule

    One record, constructor, [Match] and [String] per file [route/rule/rule_item_*.go] and
    [route/rule/rule_*interface_address.go].  A [map[K]bool] is a [gmap K bool]; constructors that
    can fail return a [result].  [BaseItem] is the [RuleItem] interface without rule-set items,
    which live in [RuleSet.v] because they contain rules. *)

From S2P Require Import Prelude GoStd NetIP Metadata.
Open Scope string_scope.

(** [key=x] for one element, [key=[x y ...]] otherwise. *)
Definition describe (key : string) (l : list string) : string :=
  match l with
  | [x] => key +:+ "=" +:+ x
  | _ => key +:+ "=[" +:+ str_join l " " +:+ "]"
  end.
(** The same, showing at most three elements and then [more]. *)
Definition describe3 (more key : string) (l : list string) : string :=
  match l with
  | [x] => key +:+ "=" +:+ x
  | _ => if (3 <? length l)%nat then key +:+ "=[" +:+ str_join (take 3 l) " " +:+ more +:+ "]"
         else key +:+ "=[" +:+ str_join l " " +:+ "]"
  end.

(** ** Items that look one metadata field up in a set *)

Record InboundItem := mkInboundItem { ib_inbounds : list string; ib_inboundMap : gmap string bool }.
Definition NewInboundRule (inbounds : list string) : InboundItem :=
  mkInboundItem inbounds (make_bool_map inbounds).
Definition InboundItem_Match (r : InboundItem) (m : InboundContext) : bool :=
  map_bool (ib_inboundMap r) (md_Inbound m).
Definition InboundItem_String (r : InboundItem) : string := describe "inbound" (ib_inbounds r).

Record NetworkItem := mkNetworkItem { nw_networks : list string; nw_networkMap : gmap string bool }.
Definition NewNetworkItem (networks : list string) : NetworkItem :=
  mkNetworkItem networks (make_bool_map networks).
Definition NetworkItem_Match (r : NetworkItem) (m : InboundContext) : bool :=
  map_bool (nw_networkMap r) (md_Network m).
Definition NetworkItem_String (r : NetworkItem) : string := describe "network" (nw_networks r).

Record AuthUserItem := mkAuthUserItem { au_users : list string; au_userMap : gmap string bool }.
Definition NewAuthUserItem (users : list string) : AuthUserItem :=
  mkAuthUserItem users (make_bool_map users).
Definition AuthUserItem_Match (r : AuthUserItem) (m : InboundContext) : bool :=
  map_bool (au_userMap r) (md_User m).
Definition AuthUserItem_String (r : AuthUserItem) : string := describe "auth_user" (au_users r).

Record ProtocolItem := mkProtocolItem { pr_protocols : list string; pr_protocolMap : gmap string bool }.
Definition NewProtocolItem (protocols : list string) : ProtocolItem :=
  mkProtocolItem protocols (make_bool_map protocols).
Definition ProtocolItem_Match (r : ProtocolItem) (m : InboundContext) : bool :=
  map_bool (pr_protocolMap r) (sn_Protocol (md_sniff m)).
Definition ProtocolItem_String (r : ProtocolItem) : string := describe "protocol" (pr_protocols r).

Record ClientItem := mkClientItem { cl_clients : list string; cl_clientMap : gmap string bool }.
Definition NewClientItem (clients : list string) : ClientItem :=
  mkClientItem clients (make_bool_map clients).
Definition ClientItem_Match (r : ClientItem) (m : InboundContext) : bool :=
  map_bool (cl_clientMap r) (sn_Client (md_sniff m)).
Definition ClientItem_String (r : ClientItem) : string := describe "client" (cl_clients r).

Record TunnelSourceItem := mkTunnelSourceItem { ts_sources : list string; ts_sourceMap : gmap string bool }.
Definition NewTunnelSourceItem (sources : list string) : TunnelSourceItem :=
  mkTunnelSourceItem sources (make_bool_map sources).
Definition TunnelSourceItem_Match (r : TunnelSourceItem) (m : InboundContext) : bool :=
  map_bool (ts_sourceMap r) (md_TunnelSource m).
Definition TunnelSourceItem_String (r : TunnelSourceItem) : string := describe "tunnel_source" (ts_sources r).

Record TunnelDestinationItem :=
  mkTunnelDestinationItem { td_destinations : list string; td_destinationMap : gmap string bool }.
Definition NewTunnelDestinationItem (destinations : list string) : TunnelDestinationItem :=
  mkTunnelDestinationItem destinations (make_bool_map destinations).
Definition TunnelDestinationItem_Match (r : TunnelDestinationItem) (m : InboundContext) : bool :=
  map_bool (td_destinationMap r) (md_TunnelDestination m).
Definition TunnelDestinationItem_String (r : TunnelDestinationItem) : string :=
  describe "tunnel_destination" (td_destinations r).

Record QueryTypeItem := mkQueryTypeItem { qt_typeList : list N; qt_typeMap : gmap N bool }.
Definition NewQueryTypeItem (typeList : list N) : QueryTypeItem :=
  mkQueryTypeItem typeList (make_bool_map typeList).
(** A query type of zero means that no DNS query is being routed. *)
Definition QueryTypeItem_Match (r : QueryTypeItem) (m : InboundContext) : bool :=
  if (md_QueryType m =? 0)%N then false else map_bool (qt_typeMap r) (md_QueryType m).
Definition DNSQueryTypeToString `{Externals} (queryType : N) : string :=
  match mDNS_TypeToString queryType with Some name => name | None => format_uint queryType end.
Definition QueryTypeItem_String `{Externals} (r : QueryTypeItem) : string :=
  describe "query_type" (map DNSQueryTypeToString (qt_typeList r)).

(** ["any"] in the list matches every query made on behalf of an outbound. *)
Record OutboundItem := mkOutboundItem {
  ob_outbounds : list string; ob_outboundMap : gmap string bool; ob_matchAny : bool }.
Definition NewOutboundRule (outbounds : list string) : OutboundItem :=
  foldl (fun r o =>
    if bool_decide (o = "any")
    then mkOutboundItem (ob_outbounds r) (ob_outboundMap r) true
    else mkOutboundItem (ob_outbounds r) (<[o := true]> (ob_outboundMap r)) (ob_matchAny r))
  (mkOutboundItem outbounds ∅ false) outbounds.
Definition OutboundItem_Match (r : OutboundItem) (m : InboundContext) : bool :=
  if ob_matchAny r then negb (bool_decide (md_Outbound m = ""))
  else map_bool (ob_outboundMap r) (md_Outbound m).
Definition OutboundItem_String (r : OutboundItem) : string := describe "outbound" (ob_outbounds r).

(** ** Items on the process that owns the connection *)

Record ProcessItem := mkProcessItem { ps_processes : list string; ps_processMap : gmap string bool }.
Definition NewProcessItem (l : list string) : ProcessItem := mkProcessItem l (make_bool_map l).
Definition ProcessItem_Match (r : ProcessItem) (m : InboundContext) : bool :=
  match md_ProcessInfo m with
  | None => false
  | Some p => if bool_decide (ProcessPath p = "") then false
              else map_bool (ps_processMap r) (filepath_Base (ProcessPath p))
  end.
Definition ProcessItem_String (r : ProcessItem) : string := describe "process_name" (ps_processes r).

Record ProcessPathItem := mkProcessPathItem { pp_processes : list string; pp_processMap : gmap string bool }.
Definition NewProcessPathItem (l : list string) : ProcessPathItem := mkProcessPathItem l (make_bool_map l).
Definition ProcessPathItem_Match (r : ProcessPathItem) (m : InboundContext) : bool :=
  match md_ProcessInfo m with
  | None => false
  | Some p => if bool_decide (ProcessPath p = "") then false
              else map_bool (pp_processMap r) (ProcessPath p)
  end.
Definition ProcessPathItem_String (r : ProcessPathItem) : string := describe "process_path" (pp_processes r).

Record PackageNameItem := mkPackageNameItem { pk_packageNames : list string; pk_packageMap : gmap string bool }.
Definition NewPackageNameItem (l : list string) : PackageNameItem := mkPackageNameItem l (make_bool_map l).
Definition PackageNameItem_Match (r : PackageNameItem) (m : InboundContext) : bool :=
  match md_ProcessInfo m with
  | None => false
  | Some p => if bool_decide (AndroidPackageName p = "") then false
              else map_bool (pk_packageMap r) (AndroidPackageName p)
  end.
Definition PackageNameItem_String (r : PackageNameItem) : string := describe "package_name" (pk_packageNames r).

Record UserItem := mkUserItem { us_users : list string; us_userMap : gmap string bool }.
Definition NewUserItem (l : list string) : UserItem := mkUserItem l (make_bool_map l).
Definition UserItem_Match (r : UserItem) (m : InboundContext) : bool :=
  match md_ProcessInfo m with
  | None => false
  | Some p => if bool_decide (UserName p = "") then false else map_bool (us_userMap r) (UserName p)
  end.
Definition UserItem_String (r : UserItem) : string := describe "user" (us_users r).

Record UserIdItem := mkUserIdItem { ui_userIds : list Z; ui_userIdMap : gmap Z bool }.
Definition NewUserIDItem (l : list Z) : UserIdItem := mkUserIdItem l (make_bool_map l).
Definition UserIdItem_Match (r : UserIdItem) (m : InboundContext) : bool :=
  match md_ProcessInfo m with
  | None => false
  | Some p => if (UserId p =? -1)%Z then false else map_bool (ui_userIdMap r) (UserId p)
  end.
Definition UserIdItem_String (r : UserIdItem) : string := describe "user_id" (map format_int (ui_userIds r)).

(** ** Ports *)

Record PortItem := mkPortItem { po_ports : list N; po_portMap : gmap N bool; po_isSource : bool }.
Definition NewPortItem (isSource : bool) (ports : list N) : PortItem :=
  mkPortItem ports (make_bool_map ports) isSource.
Definition PortItem_Match (r : PortItem) (m : InboundContext) : bool :=
  if po_isSource r then map_bool (po_portMap r) (sa_Port (md_Source m))
  else map_bool (po_portMap r) (sa_Port (md_Destination m)).
Definition PortItem_String (r : PortItem) : string :=
  describe (if po_isSource r then "source_port" else "port") (map format_uint (po_ports r)).

Record rangeItem := mkRangeItem { rg_start : N; rg_end : N }.
Record PortRangeItem := mkPortRangeItem {
  pg_isSource : bool; pg_portRanges : list string; pg_portRangeList : list rangeItem }.

Definition ErrBadPortRange : error := ENew "bad port range".

(** One element of [NewPortRangeItem]'s loop: ["a:b"], [":b"] (from 0) or ["a:"] (to 65535). *)
Definition parse_port_range (portRange : string) : result rangeItem :=
  match index_byte ":"%char portRange with
  | None => Err (EExtend ErrBadPortRange portRange)
  | Some subIndex =>
      let bad := Err (EWrap (ELib "strconv.ParseUint") (EExtend ErrBadPortRange portRange)) in
      let! start :=
        if (0 <? subIndex)%nat then
          match parse_uint 16 (str_take subIndex portRange) with
          | Some n => Ok n | None => bad end
        else Ok 0%N in
      let! end_ :=
        if (subIndex =? String.length portRange - 1)%nat then Ok 65535%N
        else match parse_uint 16 (str_drop (S subIndex) portRange) with
          | Some n => Ok n | None => bad end in
      Ok (mkRangeItem start end_)
  end.

Fixpoint parse_port_ranges (rangeList : list string) : result (list rangeItem) :=
  match rangeList with
  | [] => Ok []
  | s :: l => let! r := parse_port_range s in let! rs := parse_port_ranges l in Ok (r :: rs)
  end.

Definition NewPortRangeItem (isSource : bool) (rangeList : list string) : result PortRangeItem :=
  let! portRangeList := parse_port_ranges rangeList in
  Ok (mkPortRangeItem isSource rangeList portRangeList).
Definition PortRangeItem_Match (r : PortRangeItem) (m : InboundContext) : bool :=
  let port := if pg_isSource r then sa_Port (md_Source m) else sa_Port (md_Destination m) in
  existsb (fun g => (rg_start g <=? port)%N && (port <=? rg_end g)%N) (pg_portRangeList r).
Definition PortRangeItem_String (r : PortRangeItem) : string :=
  describe (if pg_isSource r then "source_port_range" else "port_range") (pg_portRanges r).

(** ** Domains, addresses and regular expressions *)

Section External.
Context {X : Externals}.

(** The name a domain condition is tried on: the sniffed or queried domain, else the
    destination's. *)
Definition domain_host (m : InboundContext) : string :=
  if bool_decide (sn_Domain (md_sniff m) = "") then sa_Fqdn (md_Destination m)
  else sn_Domain (md_sniff m).

Record DomainItem := mkDomainItem { dm_matcher : DomainMatcher; dm_description : string }.
Definition NewDomainItem (domains domainSuffixes : list string) : result DomainItem :=
  if existsb (fun d => bool_decide (d = "")) domains
  then Err (ENew "domain: empty item is not allowed")
  else if existsb (fun d => bool_decide (d = "")) domainSuffixes
  then Err (ENew "domain_suffix: empty item is not allowed")
  else
    let d := if nonempty domains then describe3 "..." "domain" domains else "" in
    let ds := if nonempty domainSuffixes then
        (if bool_decide (d = "") then "" else " ") +:+ describe3 "..." "domain_suffix" domainSuffixes
      else "" in
    Ok (mkDomainItem (NewMatcher domains domainSuffixes false) (d +:+ ds)).
Definition NewRawDomainItem (matcher : DomainMatcher) : DomainItem :=
  mkDomainItem matcher "domain/domain_suffix=<binary>".
Definition DomainItem_Match (r : DomainItem) (m : InboundContext) : bool :=
  if bool_decide (domain_host m = "") then false
  else Matcher_Match (dm_matcher r) (ToLower (domain_host m)).

Record DomainKeywordItem := mkDomainKeywordItem { dk_keywords : list string }.
Definition NewDomainKeywordItem (keywords : list string) : DomainKeywordItem :=
  mkDomainKeywordItem keywords.
Definition DomainKeywordItem_Match (r : DomainKeywordItem) (m : InboundContext) : bool :=
  if bool_decide (domain_host m = "") then false
  else existsb (fun keyword => str_contains (ToLower (domain_host m)) keyword) (dk_keywords r).
Definition DomainKeywordItem_String (r : DomainKeywordItem) : string :=
  describe3 "..." "domain_keyword" (dk_keywords r).

(** [regexp.Compile] over a list, the index of the failing expression in the error. *)
Fixpoint compile_all (i : N) (expressions : list string) : result (list Regexp) :=
  match expressions with
  | [] => Ok []
  | e :: l =>
      let! x := with_cause ("parse expression " +:+ format_uint i) (regexp_Compile e) in
      let! xs := compile_all (i + 1) l in
      Ok (x :: xs)
  end.

Record DomainRegexItem := mkDomainRegexItem { dr_matchers : list Regexp; dr_description : string }.
Definition NewDomainRegexItem (expressions : list string) : result DomainRegexItem :=
  let! matchers := compile_all 0 expressions in
  Ok (mkDomainRegexItem matchers (describe3 "" "domain_regex" expressions)).
Definition DomainRegexItem_Match (r : DomainRegexItem) (m : InboundContext) : bool :=
  if bool_decide (domain_host m = "") then false
  else existsb (fun x => Regexp_MatchString x (ToLower (domain_host m))) (dr_matchers r).

Record ProcessPathRegexItem := mkProcessPathRegexItem {
  px_matchers : list Regexp; px_description : string }.
Definition NewProcessPathRegexItem (expressions : list string) : result ProcessPathRegexItem :=
  let! matchers := compile_all 0 expressions in
  Ok (mkProcessPathRegexItem matchers (describe3 "" "process_path_regex" expressions)).
Definition ProcessPathRegexItem_Match (r : ProcessPathRegexItem) (m : InboundContext) : bool :=
  match md_ProcessInfo m with
  | None => false
  | Some p => if bool_decide (ProcessPath p = "") then false
              else existsb (fun x => Regexp_MatchString x (ProcessPath p)) (px_matchers r)
  end.

Record AdGuardDomainItem := mkAdGuardDomainItem { ag_matcher : AdGuardMatcher }.
Definition NewAdGuardDomainItem (ruleLines : list string) : AdGuardDomainItem :=
  mkAdGuardDomainItem (NewAdGuardMatcher ruleLines).
Definition NewRawAdGuardDomainItem (matcher : AdGuardMatcher) : AdGuardDomainItem :=
  mkAdGuardDomainItem matcher.
Definition AdGuardDomainItem_Match (r : AdGuardDomainItem) (m : InboundContext) : bool :=
  if bool_decide (domain_host m = "") then false
  else AdGuardMatcher_Match (ag_matcher r) (ToLower (domain_host m)).

Record IPCIDRItem := mkIPCIDRItem { ci_ipSet : IPSet; ci_isSource : bool; ci_description : string }.
(** The parse loop: a prefix, else a single address, else the prefix parser's error. *)
Fixpoint parse_cidrs (i : N) (prefixStrings : list string) : result (list ipset_op) :=
  match prefixStrings with
  | [] => Ok []
  | s :: l =>
      let! op :=
        match ParsePrefix s with
        | Some p => Ok (OpAddPrefix p)
        | None => match ParseAddr s with
            | Some a => Ok (OpAdd a)
            | None => Err (ECause (ELib "netip.ParsePrefix") ("parse [" +:+ format_uint i +:+ "]"))
            end
        end in
      let! ops := parse_cidrs (i + 1) l in
      Ok (op :: ops)
  end.
Definition cidr_key (isSource : bool) : string := if isSource then "source_ip_cidr" else "ip_cidr".
Definition NewIPCIDRItem (isSource : bool) (prefixStrings : list string) : result IPCIDRItem :=
  let! ops := parse_cidrs 0 prefixStrings in
  let! ipSet := IPSetBuilder_IPSet ops in
  Ok (mkIPCIDRItem ipSet isSource (describe3 "..." (cidr_key isSource) prefixStrings)).
Definition NewRawIPCIDRItem (isSource : bool) (ipSet : IPSet) : IPCIDRItem :=
  mkIPCIDRItem ipSet isSource (cidr_key isSource +:+ "=<binary>").
Definition IPCIDRItem_Match (r : IPCIDRItem) (m : InboundContext) : bool :=
  if ci_isSource r || IPCIDRMatchSource (md_cache m)
  then IPSet_Contains (ci_ipSet r) (sa_Addr (md_Source m))
  else if Socksaddr_IsIP (md_Destination m)
  then IPSet_Contains (ci_ipSet r) (sa_Addr (md_Destination m))
  else if nonempty (md_DestinationAddresses m)
  then existsb (IPSet_Contains (ci_ipSet r)) (md_DestinationAddresses m)
  else IPCIDRAcceptEmpty (md_cache m).

Record IPIsPrivateItem := mkIPIsPrivateItem { ip_isSource : bool }.
Definition NewIPIsPrivateItem (isSource : bool) : IPIsPrivateItem := mkIPIsPrivateItem isSource.
Definition IPIsPrivateItem_Match (r : IPIsPrivateItem) (m : InboundContext) : bool :=
  let destination := if ip_isSource r then sa_Addr (md_Source m) else sa_Addr (md_Destination m) in
  if Addr_IsValid destination then negb (IsPublicAddr destination)
  else if ip_isSource r then false
  else existsb (fun a => negb (IsPublicAddr a)) (md_DestinationAddresses m).
Definition IPIsPrivateItem_String (r : IPIsPrivateItem) : string :=
  if ip_isSource r then "source_ip_is_private=true" else "ip_is_private=true".

Record IPVersionItem := mkIPVersionItem { iv_isIPv6 : bool }.
Definition NewIPVersionItem (isIPv6 : bool) : IPVersionItem := mkIPVersionItem isIPv6.
Definition IPVersionItem_Match (r : IPVersionItem) (m : InboundContext) : bool :=
  negb (md_IPVersion m =? 0)%N && Bool.eqb (md_IPVersion m =? 6)%N (iv_isIPv6 r) ||
  Socksaddr_IsIP (md_Destination m) && Bool.eqb (Socksaddr_IsIPv6 (md_Destination m)) (iv_isIPv6 r).
Definition IPVersionItem_String (r : IPVersionItem) : string :=
  "ip_version=" +:+ (if iv_isIPv6 r then "6" else "4").

(** ** Items on the network environment *)

Record ClashModeItem := mkClashModeItem { cm_clashServer : bool; cm_mode : string }.
(** Before [Start] there is no Clash server. *)
Definition NewClashModeItem (mode : string) : ClashModeItem := mkClashModeItem false mode.
Definition ClashModeItem_Start (registered : bool) (r : ClashModeItem) : ClashModeItem :=
  mkClashModeItem registered (cm_mode r).
Definition ClashModeItem_Match (w : World) (r : ClashModeItem) : bool :=
  if cm_clashServer r then EqualFold (ClashServer_Mode w) (cm_mode r) else false.

Record NetworkTypeItem := mkNetworkTypeItem { nt_networkType : list N }.
Definition NewNetworkTypeItem (networkType : list N) : NetworkTypeItem := mkNetworkTypeItem networkType.
Definition NetworkTypeItem_Match (w : World) (r : NetworkTypeItem) : bool :=
  match DefaultNetworkInterface w with
  | None => false
  | Some i => bool_decide (ni_Type i ∈ nt_networkType r)
  end.
(** [C.InterfaceType.String]. *)
Definition InterfaceType_String (t : N) : string :=
  match t with
  | 0%N => "wifi" | 1%N => "cellular" | 2%N => "ethernet" | 3%N => "other"
  | _ => format_uint t
  end.
Definition NetworkTypeItem_String (r : NetworkTypeItem) : string :=
  describe "network_type" (map InterfaceType_String (nt_networkType r)).

Definition NetworkIsExpensiveItem_Match (w : World) : bool :=
  match DefaultNetworkInterface w with None => false | Some i => ni_Expensive i end.
Definition NetworkIsExpensiveItem_String : string := "network_is_expensive=true".
Definition NetworkIsConstrainedItem_Match (w : World) : bool :=
  match DefaultNetworkInterface w with None => false | Some i => ni_Constrained i end.
(** The source prints the name of the other item here. *)
Definition NetworkIsConstrainedItem_String : string := "network_is_expensive=true".

Record WIFISSIDItem := mkWIFISSIDItem { ws_ssidList : list string; ws_ssidMap : gmap string bool }.
Definition NewWIFISSIDItem (l : list string) : WIFISSIDItem := mkWIFISSIDItem l (make_bool_map l).
Definition WIFISSIDItem_Match (w : World) (r : WIFISSIDItem) : bool :=
  map_bool (ws_ssidMap r) (WIFIState_SSID w).
Definition WIFISSIDItem_String (r : WIFISSIDItem) : string := describe "wifi_ssid" (ws_ssidList r).

Record WIFIBSSIDItem := mkWIFIBSSIDItem { wb_bssidList : list string; wb_bssidMap : gmap string bool }.
Definition NewWIFIBSSIDItem (l : list string) : WIFIBSSIDItem := mkWIFIBSSIDItem l (make_bool_map l).
Definition WIFIBSSIDItem_Match (w : World) (r : WIFIBSSIDItem) : bool :=
  map_bool (wb_bssidMap r) (WIFIState_BSSID w).
Definition WIFIBSSIDItem_String (r : WIFIBSSIDItem) : string := describe "wifi_bssid" (wb_bssidList r).

Definition build_prefixes (l : list Prefixable) : list Prefix :=
  map (fun p => Prefixable_Build (Some p) Prefix_zero) l.
Definition entry_description (key : string) (prefixes : list Prefix) : string :=
  key +:+ "=" +:+ str_join (map Prefix_String prefixes) ",".

Record InterfaceAddressItem := mkInterfaceAddressItem {
  ia_interfaceAddresses : gmap string (list Prefix); ia_description : string }.
Definition NewInterfaceAddressItem (entries : list (string * list Prefixable)) : InterfaceAddressItem :=
  mkInterfaceAddressItem
    (foldl (fun m e => <[fst e := build_prefixes (snd e)]> m) ∅ entries)
    ("interface_address=[" +:+
     str_join (map (fun e => entry_description (fst e) (build_prefixes (snd e))) entries) " " +:+ "]").
(** [common.Find]: the first element, or the zero value. *)
Definition find_interface (name : string) (l : list Interface) : Interface :=
  default Interface_zero (find (fun i => bool_decide (if_Name i = name)) l).
Definition InterfaceAddressItem_Match (w : World) (r : InterfaceAddressItem) : bool :=
  forallb (fun '(ifName, addresses) =>
    let iface := find_interface ifName (Interfaces w) in
    if bool_decide (if_Name iface = "") then false
    else negb (forallb (fun address =>
           forallb (fun it => negb (Prefix_Overlaps address it)) (if_Addresses iface)) addresses))
  (map_to_list (ia_interfaceAddresses r)).

Record NetworkInterfaceAddressItem := mkNetworkInterfaceAddressItem {
  na_interfaceAddresses : gmap N (list Prefix); na_description : string }.
Definition NewNetworkInterfaceAddressItem (entries : list (N * list Prefixable)) : NetworkInterfaceAddressItem :=
  mkNetworkInterfaceAddressItem
    (foldl (fun m e => <[fst e := build_prefixes (snd e)]> m) ∅ entries)
    ("network_interface_address=[" +:+
     str_join (map (fun e => entry_description (InterfaceType_String (fst e)) (build_prefixes (snd e)))
       entries) " " +:+ "]").
Definition NetworkInterfaceAddressItem_Match (w : World) (r : NetworkInterfaceAddressItem) : bool :=
  forallb (fun '(ifType, addresses) =>
    existsb (fun ni =>
      if negb (ni_Type ni =? ifType)%N then false
      else existsb (fun it => existsb (fun prefix => Prefix_Overlaps prefix it) addresses)
             (if_Addresses (ni_Interface ni)))
    (NetworkInterfaces w))
  (map_to_list (na_interfaceAddresses r)).

Record DefaultInterfaceAddressItem := mkDefaultInterfaceAddressItem {
  da_interfaceAddresses : list Prefix }.
Definition NewDefaultInterfaceAddressItem (l : list Prefixable) : DefaultInterfaceAddressItem :=
  mkDefaultInterfaceAddressItem (build_prefixes l).
Definition DefaultInterfaceAddressItem_Match (w : World) (r : DefaultInterfaceAddressItem) : bool :=
  match DefaultInterface w with
  | None => false
  | Some i => forallb (fun address =>
      negb (forallb (fun it => negb (Prefix_Overlaps address it)) (if_Addresses i)))
      (da_interfaceAddresses r)
  end.
Definition DefaultInterfaceAddressItem_String (r : DefaultInterfaceAddressItem) : string :=
  describe3 "..." "default_interface_address" (map Prefix_String (da_interfaceAddresses r)).

(** [pb_outbounds]: the outbounds found by [Start], by tag. *)
Record PreferredByItem := mkPreferredByItem { pb_outboundTags : list string; pb_outbounds : list string }.
Definition NewPreferredByItem (tags : list string) : PreferredByItem := mkPreferredByItem tags [].
Definition PreferredByItem_Match (w : World) (r : PreferredByItem) (m : InboundContext) : bool :=
  negb (bool_decide (domain_host m = "")) &&
    existsb (fun o => PreferredDomain w o (domain_host m)) (pb_outbounds r)
  || Socksaddr_IsIP (md_Destination m) &&
    existsb (fun o => PreferredAddress w o (sa_Addr (md_Destination m))) (pb_outbounds r)
  || existsb (fun a => existsb (fun o => PreferredAddress w o a) (pb_outbounds r))
       (md_DestinationAddresses m).
Definition PreferredByItem_String (r : PreferredByItem) : string :=
  describe "preferred_by" (pb_outboundTags r).

(** [IPAcceptAnyItem]. *)
Definition IPAcceptAnyItem_Match (m : InboundContext) : bool := nonempty (md_DestinationAddresses m).
Definition IPAcceptAnyItem_String : string := "ip_accept_any=true".

(** ** The [RuleItem] interface *)

Inductive BaseItem : Type :=
| IInbound (r : InboundItem) | IIPVersion (r : IPVersionItem) | INetwork (r : NetworkItem)
| IAuthUser (r : AuthUserItem) | IProtocol (r : ProtocolItem) | IClient (r : ClientItem)
| IDomain (r : DomainItem) | IDomainKeyword (r : DomainKeywordItem) | IDomainRegex (r : DomainRegexItem)
| IIPCIDR (r : IPCIDRItem) | IIPIsPrivate (r : IPIsPrivateItem) | IIPAcceptAny
| IPort (r : PortItem) | IPortRange (r : PortRangeItem)
| ITunnelSource (r : TunnelSourceItem) | ITunnelDestination (r : TunnelDestinationItem)
| IProcess (r : ProcessItem) | IProcessPath (r : ProcessPathItem)
| IProcessPathRegex (r : ProcessPathRegexItem) | IPackageName (r : PackageNameItem)
| IUser (r : UserItem) | IUserId (r : UserIdItem) | IOutbound (r : OutboundItem)
| IQueryType (r : QueryTypeItem) | IClashMode (r : ClashModeItem) | INetworkType (r : NetworkTypeItem)
| INetworkIsExpensive | INetworkIsConstrained
| IWIFISSID (r : WIFISSIDItem) | IWIFIBSSID (r : WIFIBSSIDItem)
| IInterfaceAddress (r : InterfaceAddressItem)
| INetworkInterfaceAddress (r : NetworkInterfaceAddressItem)
| IDefaultInterfaceAddress (r : DefaultInterfaceAddressItem)
| IPreferredBy (r : PreferredByItem) | IAdGuardDomain (r : AdGuardDomainItem).

Definition BaseItem_Match (w : World) (i : BaseItem) (m : InboundContext) : bool :=
  match i with
  | IInbound r => InboundItem_Match r m
  | IIPVersion r => IPVersionItem_Match r m
  | INetwork r => NetworkItem_Match r m
  | IAuthUser r => AuthUserItem_Match r m
  | IProtocol r => ProtocolItem_Match r m
  | IClient r => ClientItem_Match r m
  | IDomain r => DomainItem_Match r m
  | IDomainKeyword r => DomainKeywordItem_Match r m
  | IDomainRegex r => DomainRegexItem_Match r m
  | IIPCIDR r => IPCIDRItem_Match r m
  | IIPIsPrivate r => IPIsPrivateItem_Match r m
  | IIPAcceptAny => IPAcceptAnyItem_Match m
  | IPort r => PortItem_Match r m
  | IPortRange r => PortRangeItem_Match r m
  | ITunnelSource r => TunnelSourceItem_Match r m
  | ITunnelDestination r => TunnelDestinationItem_Match r m
  | IProcess r => ProcessItem_Match r m
  | IProcessPath r => ProcessPathItem_Match r m
  | IProcessPathRegex r => ProcessPathRegexItem_Match r m
  | IPackageName r => PackageNameItem_Match r m
  | IUser r => UserItem_Match r m
  | IUserId r => UserIdItem_Match r m
  | IOutbound r => OutboundItem_Match r m
  | IQueryType r => QueryTypeItem_Match r m
  | IClashMode r => ClashModeItem_Match w r
  | INetworkType r => NetworkTypeItem_Match w r
  | INetworkIsExpensive => NetworkIsExpensiveItem_Match w
  | INetworkIsConstrained => NetworkIsConstrainedItem_Match w
  | IWIFISSID r => WIFISSIDItem_Match w r
  | IWIFIBSSID r => WIFIBSSIDItem_Match w r
  | IInterfaceAddress r => InterfaceAddressItem_Match w r
  | INetworkInterfaceAddress r => NetworkInterfaceAddressItem_Match w r
  | IDefaultInterfaceAddress r => DefaultInterfaceAddressItem_Match w r
  | IPreferredBy r => PreferredByItem_Match w r m
  | IAdGuardDomain r => AdGuardDomainItem_Match r m
  end.

Definition BaseItem_String (i : BaseItem) : string :=
  match i with
  | IInbound r => InboundItem_String r
  | IIPVersion r => IPVersionItem_String r
  | INetwork r => NetworkItem_String r
  | IAuthUser r => AuthUserItem_String r
  | IProtocol r => ProtocolItem_String r
  | IClient r => ClientItem_String r
  | IDomain r => dm_description r
  | IDomainKeyword r => DomainKeywordItem_String r
  | IDomainRegex r => dr_description r
  | IIPCIDR r => ci_description r
  | IIPIsPrivate r => IPIsPrivateItem_String r
  | IIPAcceptAny => IPAcceptAnyItem_String
  | IPort r => PortItem_String r
  | IPortRange r => PortRangeItem_String r
  | ITunnelSource r => TunnelSourceItem_String r
  | ITunnelDestination r => TunnelDestinationItem_String r
  | IProcess r => ProcessItem_String r
  | IProcessPath r => ProcessPathItem_String r
  | IProcessPathRegex r => px_description r
  | IPackageName r => PackageNameItem_String r
  | IUser r => UserItem_String r
  | IUserId r => UserIdItem_String r
  | IOutbound r => OutboundItem_String r
  | IQueryType r => QueryTypeItem_String r
  | IClashMode r => "clash_mode=" +:+ cm_mode r
  | INetworkType r => NetworkTypeItem_String r
  | INetworkIsExpensive => NetworkIsExpensiveItem_String
  | INetworkIsConstrained => NetworkIsConstrainedItem_String
  | IWIFISSID r => WIFISSIDItem_String r
  | IWIFIBSSID r => WIFIBSSIDItem_String r
  | IInterfaceAddress r => ia_description r
  | INetworkInterfaceAddress r => na_description r
  | IDefaultInterfaceAddress r => DefaultInterfaceAddressItem_String r
  | IPreferredBy r => PreferredByItem_String r
  | IAdGuardDomain r => "!adguard_domain_rules=<binary>"
  end.
End External.
