(* ===== verification/RuleMatch.v ===== *)
(** * RuleMatch: [abstractDefaultRule] and [abstractLogicalRule]

    route/rule/rule_abstract.go.  Matching threads the metadata, whose rule cache the code
    mutates.  The item type and its [Match] are parameters of the section: rules of a
    rule-set use [BaseItem], route and DNS rules also have rule-set items. *)

From S2P Require Import Prelude GoStd NetIP Metadata RuleItems.
Open Scope string_scope.

(** [abstractDefaultRule]; the unused field [ruleSetItem] is left out. *)
Record abstractDefaultRule (Item Action : Type) : Type := mkDefaultRule {
  items : list Item;
  sourceAddressItems : list Item;
  sourcePortItems : list Item;
  destinationAddressItems : list Item;
  destinationIPCIDRItems : list Item;
  destinationPortItems : list Item;
  allItems : list Item;
  invert : bool;
  action : Action
}.
Arguments mkDefaultRule {_ _}.
Arguments items {_ _}. Arguments sourceAddressItems {_ _}. Arguments sourcePortItems {_ _}.
Arguments destinationAddressItems {_ _}. Arguments destinationIPCIDRItems {_ _}.
Arguments destinationPortItems {_ _}. Arguments allItems {_ _}. Arguments invert {_ _}.
Arguments action {_ _}.

(** [abstractLogicalRule]. *)
Record abstractLogicalRule (R Action : Type) : Type := mkLogicalRule {
  lr_rules : list R;
  lr_mode : string;
  lr_invert : bool;
  lr_action : Action
}.
Arguments mkLogicalRule {_ _}.
Arguments lr_rules {_ _}. Arguments lr_mode {_ _}. Arguments lr_invert {_ _}. Arguments lr_action {_ _}.

Definition LogicalTypeAnd : string := "and".
Definition LogicalTypeOr : string := "or".

(** A [Match] method: the answer and the metadata afterwards. *)
Definition matcher := InboundContext -> bool * InboundContext.

Section Match.
Context {Item Action : Type}.
Variable item_Match : Item -> matcher.
Variable isRuleSet : Item -> bool.

(** [for _, item := range l { if item.Match(metadata) { ...; break } }]. *)
Fixpoint match_first (l : list Item) (m : InboundContext) : bool * InboundContext :=
  match l with
  | [] => (false, m)
  | i :: l' => let '(b, m) := item_Match i m in if b then (true, m) else match_first l' m
  end.

(** One of the five blocks of [Match]: the group is tried unless its flag is already set. *)
Definition match_group (l : list Item) (get : RuleCache -> bool) (set : bool -> RuleCache -> RuleCache)
  (m : InboundContext) : InboundContext :=
  if nonempty l && negb (get (md_cache m)) then
    let '(b, m) := match_first l (upd_cache (set_DidMatch true) m) in
    if b then upd_cache (set true) m else m
  else m.

(** The loop over [r.items]: [false] when an item does not match. *)
Fixpoint match_items (l : list Item) (m : InboundContext) : bool * InboundContext :=
  match l with
  | [] => (true, m)
  | i :: l' =>
      let m := if isRuleSet i then m else upd_cache (set_DidMatch true) m in
      let '(b, m) := item_Match i m in
      if b then match_items l' m else (false, m)
  end.

(** The five blocks, in order; destination CIDRs are skipped while
    [IgnoreDestinationIPCIDRMatch] is set. *)
Definition match_groups (r : abstractDefaultRule Item Action) (m : InboundContext) : InboundContext :=
  let m := match_group (sourceAddressItems r) SourceAddressMatch set_SourceAddressMatch m in
  let m := match_group (sourcePortItems r) SourcePortMatch set_SourcePortMatch m in
  let m := match_group (destinationAddressItems r) DestinationAddressMatch set_DestinationAddressMatch m in
  let m := match_group (if IgnoreDestinationIPCIDRMatch (md_cache m) then [] else destinationIPCIDRItems r)
    DestinationAddressMatch set_DestinationAddressMatch m in
  match_group (destinationPortItems r) DestinationPortMatch set_DestinationPortMatch m.

Definition abstractDefaultRule_Match (r : abstractDefaultRule Item Action) : matcher := fun m =>
  if negb (nonempty (allItems r)) then (true, m)
  else
    let '(ok, m) := match_items (items r) (match_groups r m) in
    let c := md_cache m in
    if negb ok then (invert r, m)
    else if nonempty (sourceAddressItems r) && negb (SourceAddressMatch c) then (invert r, m)
    else if nonempty (sourcePortItems r) && negb (SourcePortMatch c) then (invert r, m)
    else if (negb (IgnoreDestinationIPCIDRMatch c) && nonempty (destinationIPCIDRItems r)
             || nonempty (destinationAddressItems r)) && negb (DestinationAddressMatch c)
    then (invert r, m)
    else if nonempty (destinationPortItems r) && negb (DestinationPortMatch c) then (invert r, m)
    else if negb (DidMatch c) then (true, m)
    else (negb (invert r), m).
End Match.

Section Logical.
Context {R Action : Type}.
Variable rule_Match : R -> matcher.

(** [common.All] and [common.Any] over the rules, resetting the rule cache before each. *)
Fixpoint all_Match (l : list R) (m : InboundContext) : bool * InboundContext :=
  match l with
  | [] => (true, m)
  | r :: l' => let '(b, m) := rule_Match r (ResetRuleCache m) in
      if b then all_Match l' m else (false, m)
  end.
Fixpoint any_Match (l : list R) (m : InboundContext) : bool * InboundContext :=
  match l with
  | [] => (false, m)
  | r :: l' => let '(b, m) := rule_Match r (ResetRuleCache m) in
      if b then (true, m) else any_Match l' m
  end.

(** [abstractLogicalRule.Match]. *)
Definition abstractLogicalRule_Match (r : abstractLogicalRule R Action) : matcher := fun m =>
  let '(b, m) := if bool_decide (lr_mode r = LogicalTypeAnd)
    then all_Match (lr_rules r) m else any_Match (lr_rules r) m in
  (negb (Bool.eqb b (lr_invert r)), m).
End Logical.

(** [String] of both kinds. *)
Definition abstractDefaultRule_String {Item Action} (item_String : Item -> string)
  (r : abstractDefaultRule Item Action) : string :=
  let s := str_join (map item_String (allItems r)) " " in
  if invert r then "!(" +:+ s +:+ ")" else s.
Definition abstractLogicalRule_String {R Action} (rule_String : R -> string)
  (r : abstractLogicalRule R Action) : string :=
  let op := if bool_decide (lr_mode r = LogicalTypeAnd) then "&&"
            else if bool_decide (lr_mode r = LogicalTypeOr) then "||" else "" in
  let s := str_join (map rule_String (lr_rules r)) (" " +:+ op +:+ " ") in
  if lr_invert r then "!(" +:+ s +:+ ")" else s.

(** ** The frame of matching

    A matcher is [framed] when it only writes the rule cache, and there not the flag that
    [ResetRuleCache] keeps. *)

Definition framed (f : matcher) : Prop := forall m, same_frame (snd (f m)) m.

Section Frame.
Context {Item Action : Type}.
Variable item_Match : Item -> matcher.
Variable isRuleSet : Item -> bool.
Variable P : Item -> Prop.
Hypothesis item_framed : forall i, P i -> framed (item_Match i).

Lemma match_first_framed l : Forall P l -> framed (match_first item_Match l).
Proof.
  induction 1 as [|i l Hi _ IH]; intros m; simpl; [done|].
  pose proof (item_framed i Hi m) as Hm. destruct (item_Match i m) as [[] m1]; simpl in *; [done|].
  by rewrite (IH m1).
Qed.

Lemma match_group_framed l get set m :
  (forall c, IgnoreDestinationIPCIDRMatch (set true c) = IgnoreDestinationIPCIDRMatch c) ->
  Forall P l -> same_frame (match_group item_Match l get set m) m.
Proof.
  intros Hset Hl. unfold match_group. destruct (_ && _); [|done].
  pose proof (match_first_framed l Hl (upd_cache (set_DidMatch true) m)) as Hm.
  destruct (match_first _ _ _) as [[] m1]; simpl in Hm.
  - rewrite same_frame_upd by apply Hset. by rewrite Hm, same_frame_upd.
  - by rewrite Hm, same_frame_upd.
Qed.

Lemma match_items_framed l : Forall P l -> framed (match_items item_Match isRuleSet l).
Proof.
  induction 1 as [|i l Hi _ IH]; intros m; simpl; [done|].
  set (m0 := if isRuleSet i then m else _).
  assert (same_frame m0 m) as H0 by (subst m0; destruct (isRuleSet i); by try apply same_frame_upd).
  pose proof (item_framed i Hi m0) as Hm. destruct (item_Match i m0) as [[] m1]; simpl in *.
  - by rewrite (IH m1), Hm.
  - by rewrite Hm.
Qed.

Definition rule_all (r : abstractDefaultRule Item Action) : Prop :=
  Forall P (items r) /\ Forall P (sourceAddressItems r) /\ Forall P (sourcePortItems r) /\
  Forall P (destinationAddressItems r) /\ Forall P (destinationIPCIDRItems r) /\
  Forall P (destinationPortItems r).

Lemma match_groups_framed r m : rule_all r -> same_frame (match_groups item_Match r m) m.
Proof.
  intros (H1 & H2 & H3 & H4 & H5 & H6). unfold match_groups.
  do 5 (rewrite match_group_framed; [|done|try done; by case_match]). done.
Qed.

Lemma abstractDefaultRule_Match_framed r :
  rule_all r -> framed (abstractDefaultRule_Match item_Match isRuleSet r).
Proof.
  intros H m. unfold abstractDefaultRule_Match.
  destruct (negb (nonempty (allItems r))); [done|].
  pose proof (match_items_framed (items r) (proj1 H) (match_groups item_Match r m)) as Hi.
  destruct (match_items _ _ _ _) as [ok m6]; simpl in Hi.
  rewrite match_groups_framed in Hi by done.
  repeat match goal with |- context [if ?x then _ else _] => destruct x end; done.
Qed.
End Frame.

(** Matching looks at items through [item_Match] and [isRuleSet] only. *)
Section Ext.
Context {Item Action : Type}.
Variables f g : Item -> matcher.
Variables p q : Item -> bool.
Variable P : Item -> Prop.
Hypothesis Hfg : forall i m, P i -> f i m = g i m.
Hypothesis Hpq : forall i, P i -> p i = q i.

Lemma match_first_ext l m : Forall P l -> match_first f l m = match_first g l m.
Proof.
  intros H. revert m. induction H as [|i l Hi _ IH]; intros m; simpl; [done|].
  rewrite Hfg by done. by destruct (g i m) as [[] ?].
Qed.
Lemma match_group_ext l get set m : Forall P l -> match_group f l get set m = match_group g l get set m.
Proof. intros H. unfold match_group. by rewrite match_first_ext. Qed.
Lemma match_items_ext l m : Forall P l -> match_items f p l m = match_items g q l m.
Proof.
  intros H. revert m. induction H as [|i l Hi _ IH]; intros m; simpl; [done|].
  rewrite Hpq, Hfg by done. by destruct (g i _) as [[] ?].
Qed.
Lemma match_groups_ext (r : abstractDefaultRule Item Action) m :
  rule_all P r -> match_groups f r m = match_groups g r m.
Proof.
  intros (H1 & H2 & H3 & H4 & H5 & H6). unfold match_groups.
  rewrite !match_group_ext by (try done; by case_match). done.
Qed.
Lemma abstractDefaultRule_Match_ext (r : abstractDefaultRule Item Action) m :
  rule_all P r -> abstractDefaultRule_Match f p r m = abstractDefaultRule_Match g q r m.
Proof.
  intros H. unfold abstractDefaultRule_Match.
  by rewrite match_groups_ext, match_items_ext by (done || apply (proj1 H)).
Qed.
End Ext.

Section LogicalFrame.
Context {R Action : Type}.
Variable rule_Match : R -> matcher.

Lemma all_Match_spec l m :
  Forall (fun r => framed (rule_Match r)) l ->
  same_frame (snd (all_Match rule_Match l m)) m /\
  fst (all_Match rule_Match l m) = forallb (fun r => fst (rule_Match r (ResetRuleCache m))) l.
Proof.
  intros Hl. revert m. induction Hl as [|r l Hr _ IH]; intros m; simpl; [done|].
  pose proof (Hr (ResetRuleCache m)) as Hf.
  destruct (rule_Match r (ResetRuleCache m)) as [[] m1]; simpl in *; [|by rewrite Hf, same_frame_reset].
  rewrite same_frame_reset in Hf. destruct (IH m1) as [I1 I2]. rewrite I1, I2, <- (same_frame_eq _ _ Hf). done.
Qed.

Lemma any_Match_spec l m :
  Forall (fun r => framed (rule_Match r)) l ->
  same_frame (snd (any_Match rule_Match l m)) m /\
  fst (any_Match rule_Match l m) = existsb (fun r => fst (rule_Match r (ResetRuleCache m))) l.
Proof.
  intros Hl. revert m. induction Hl as [|r l Hr _ IH]; intros m; simpl; [done|].
  pose proof (Hr (ResetRuleCache m)) as Hf.
  destruct (rule_Match r (ResetRuleCache m)) as [[] m1]; simpl in *; [by rewrite Hf, same_frame_reset|].
  rewrite same_frame_reset in Hf. destruct (IH m1) as [I1 I2]. rewrite I1, I2, <- (same_frame_eq _ _ Hf). done.
Qed.

(** The sub-rules of a logical rule do not see each other's cache: the answer is the
    conjunction (disjunction) of their answers on the reset context, negated if [invert]. *)
Definition logical_spec (r : abstractLogicalRule R Action) (m : InboundContext) : bool :=
  let f := fun r => fst (rule_Match r (ResetRuleCache m)) in
  xorb (lr_invert r)
    (if bool_decide (lr_mode r = LogicalTypeAnd) then forallb f (lr_rules r) else existsb f (lr_rules r)).

Lemma abstractLogicalRule_Match_spec r m :
  Forall (fun r => framed (rule_Match r)) (lr_rules r) ->
  same_frame (snd (abstractLogicalRule_Match rule_Match r m)) m /\
  fst (abstractLogicalRule_Match rule_Match r m) = logical_spec r m.
Proof.
  intros H. unfold abstractLogicalRule_Match, logical_spec. case_bool_decide.
  - destruct (all_Match_spec (lr_rules r) m H) as [F S].
    destruct (all_Match _ _ _) as [b m1]; simpl in *. split; [done|]. rewrite <- S.
    by destruct b, (lr_invert r).
  - destruct (any_Match_spec (lr_rules r) m H) as [F S].
    destruct (any_Match _ _ _) as [b m1]; simpl in *. split; [done|]. rewrite <- S.
    by destruct b, (lr_invert r).
Qed.
End LogicalFrame.

(** ** Matching with items that only read

    For items that do not write the metadata and whose answer does not depend on the match
    flags, [Match] is computed in closed form: the answer and the cache it leaves. *)

(** Replacing the match flags: the two flags that rule-set items set are kept. *)
Definition keeps_cidr_flags (c d : RuleCache) : Prop :=
  IPCIDRMatchSource c = IPCIDRMatchSource d /\ IPCIDRAcceptEmpty c = IPCIDRAcceptEmpty d.

Section Pure.
Context {Item Action : Type}.
Variable f : Item -> InboundContext -> bool.
Hypothesis f_cache : forall i m c,
  keeps_cidr_flags c (md_cache m) -> f i (set_cache c m) = f i m.

Definition pure_Match : Item -> matcher := fun i m => (f i m, m).
Definition no_rule_set : Item -> bool := fun _ => false.

Definition any_item (l : list Item) (m : InboundContext) : bool := existsb (fun i => f i m) l.
Definition all_item (l : list Item) (m : InboundContext) : bool := forallb (fun i => f i m) l.

Lemma match_first_pure l m : match_first pure_Match l m = (any_item l m, m).
Proof. induction l as [|i l IH]; simpl; [done|]. rewrite IH. by destruct (f i m). Qed.

Lemma any_item_cache l m c : keeps_cidr_flags c (md_cache m) -> any_item l (set_cache c m) = any_item l m.
Proof. intros H. apply existsb_ext_in. intros i _. by apply f_cache. Qed.

Lemma all_item_cache l m c : keeps_cidr_flags c (md_cache m) -> all_item l (set_cache c m) = all_item l m.
Proof. intros H. apply forallb_ext_in. intros i _. by apply f_cache. Qed.

(** The cache after one group. *)
Definition group_cache (l : list Item) (get : RuleCache -> bool) (set : bool -> RuleCache -> RuleCache)
  (m : InboundContext) (c : RuleCache) : RuleCache :=
  if nonempty l && negb (get c) then
    if any_item l m then set true (set_DidMatch true c) else set_DidMatch true c
  else c.

Lemma match_group_pure l get set m c :
  (forall b d, keeps_cidr_flags (set b d) d) -> keeps_cidr_flags c (md_cache m) ->
  match_group pure_Match l get set (set_cache c m) = set_cache (group_cache l get set m c) m /\
  keeps_cidr_flags (group_cache l get set m c) (md_cache m).
Proof.
  intros Hset Hc. unfold match_group, group_cache. rewrite set_cache_cache.
  destruct (nonempty l && negb (get c)); [|done].
  rewrite match_first_pure. unfold upd_cache. rewrite !set_cache_cache, !set_cache_set.
  rewrite any_item_cache by (by destruct Hc).
  destruct Hc as [Hc1 Hc2].
  destruct (any_item l m); rewrite ?set_cache_cache; (split; [done|]).
  - destruct (Hset true (set_DidMatch true c)) as [E1 E2]. split; simpl in *; congruence.
  - by split.
Qed.

(** The cache after the five groups, by field. *)
Definition groups_cache (r : abstractDefaultRule Item Action) (m : InboundContext) (c : RuleCache) : RuleCache :=
  let cidrs := if IgnoreDestinationIPCIDRMatch c then [] else destinationIPCIDRItems r in
  mkRuleCache (IPCIDRMatchSource c) (IPCIDRAcceptEmpty c)
    (SourceAddressMatch c || any_item (sourceAddressItems r) m)
    (SourcePortMatch c || any_item (sourcePortItems r) m)
    (DestinationAddressMatch c || any_item (destinationAddressItems r ++ cidrs) m)
    (DestinationPortMatch c || any_item (destinationPortItems r) m)
    (DidMatch c
     || nonempty (sourceAddressItems r) && negb (SourceAddressMatch c)
     || nonempty (sourcePortItems r) && negb (SourcePortMatch c)
     || nonempty (destinationAddressItems r ++ cidrs) && negb (DestinationAddressMatch c)
     || nonempty (destinationPortItems r) && negb (DestinationPortMatch c))
    (IgnoreDestinationIPCIDRMatch c).

Lemma any_item_nonempty l m : any_item l m = true -> nonempty l = true.
Proof. by destruct l. Qed.

Local Ltac group_cases l m :=
  unfold group_cache; pose proof (any_item_nonempty l m) as Hne; simpl;
  destruct (nonempty l); [|destruct (any_item l m); [by discriminate Hne|]]; simpl;
  [match goal with |- context [negb ?b] => destruct b end; destruct (any_item l m); simpl|];
  by rewrite ?orb_true_r, ?orb_false_r.

Lemma group_cache_SourceAddress l m ms ae sa sp da dp did ig :
  group_cache l SourceAddressMatch set_SourceAddressMatch m (mkRuleCache ms ae sa sp da dp did ig) =
  mkRuleCache ms ae (sa || any_item l m) sp da dp (did || nonempty l && negb sa) ig.
Proof. group_cases l m. Qed.
Lemma group_cache_SourcePort l m ms ae sa sp da dp did ig :
  group_cache l SourcePortMatch set_SourcePortMatch m (mkRuleCache ms ae sa sp da dp did ig) =
  mkRuleCache ms ae sa (sp || any_item l m) da dp (did || nonempty l && negb sp) ig.
Proof. group_cases l m. Qed.
Lemma group_cache_DestinationAddress l m ms ae sa sp da dp did ig :
  group_cache l DestinationAddressMatch set_DestinationAddressMatch m (mkRuleCache ms ae sa sp da dp did ig) =
  mkRuleCache ms ae sa sp (da || any_item l m) dp (did || nonempty l && negb da) ig.
Proof. group_cases l m. Qed.
Lemma group_cache_DestinationPort l m ms ae sa sp da dp did ig :
  group_cache l DestinationPortMatch set_DestinationPortMatch m (mkRuleCache ms ae sa sp da dp did ig) =
  mkRuleCache ms ae sa sp da (dp || any_item l m) (did || nonempty l && negb dp) ig.
Proof. group_cases l m. Qed.

(** The address group and the CIDR group share a flag: together they behave as one group. *)
Lemma group_cache_DestinationAddress_app l k m c :
  group_cache k DestinationAddressMatch set_DestinationAddressMatch m
    (group_cache l DestinationAddressMatch set_DestinationAddressMatch m c) =
  group_cache (l ++ k) DestinationAddressMatch set_DestinationAddressMatch m c.
Proof.
  destruct c as [ms ae sa sp da dp did ig]. rewrite !group_cache_DestinationAddress.
  unfold any_item. rewrite existsb_app, nonempty_app.
  fold (any_item l m). fold (any_item k m).
  pose proof (any_item_nonempty l m) as H. pose proof (any_item_nonempty k m) as H'.
  f_equal; destruct (any_item l m), (any_item k m), (nonempty l), (nonempty k), da, did;
    simpl in *; try done; by (discriminate H || discriminate H').
Qed.

Lemma group_cache_ignore l get set m c :
  (forall b d, IgnoreDestinationIPCIDRMatch (set b d) = IgnoreDestinationIPCIDRMatch d) ->
  IgnoreDestinationIPCIDRMatch (group_cache l get set m c) = IgnoreDestinationIPCIDRMatch c.
Proof. intros H. unfold group_cache. repeat case_match; rewrite ?H; done. Qed.

Lemma match_groups_pure r m c :
  keeps_cidr_flags c (md_cache m) ->
  match_groups pure_Match r (set_cache c m) = set_cache (groups_cache r m c) m.
Proof.
  intros Hc. unfold match_groups.
  set (G := fun l get set c => group_cache l get set m c).
  assert (forall l get set c, (forall b d, keeps_cidr_flags (set b d) d) -> keeps_cidr_flags c (md_cache m) ->
    match_group pure_Match l get set (set_cache c m) = set_cache (G l get set c) m) as E.
  { intros. by apply match_group_pure. }
  assert (forall l get set c, (forall b d, keeps_cidr_flags (set b d) d) -> keeps_cidr_flags c (md_cache m) ->
    keeps_cidr_flags (G l get set c) (md_cache m)) as K.
  { intros. by apply match_group_pure. }
  rewrite !E by (repeat first [done | by intros ? ?; split | apply K]). rewrite set_cache_cache. f_equal. unfold G.
  rewrite !group_cache_ignore by done.
  rewrite group_cache_DestinationAddress_app.
  destruct c as [ms ae sa sp da dp did ig].
  by rewrite group_cache_SourceAddress, group_cache_SourcePort, group_cache_DestinationAddress,
    group_cache_DestinationPort.
Qed.

Lemma match_items_pure l m c :
  keeps_cidr_flags c (md_cache m) ->
  match_items pure_Match no_rule_set l (set_cache c m) =
  (all_item l m, set_cache (set_DidMatch (DidMatch c || nonempty l) c) m).
Proof.
  revert c. induction l as [|i l IH]; intros c Hc; simpl.
  - rewrite orb_false_r. by destruct c.
  - unfold upd_cache. rewrite set_cache_cache, set_cache_set, orb_true_r.
    unfold pure_Match at 1. rewrite f_cache by (by destruct Hc).
    destruct (f i m); [|done]. rewrite IH by (by destruct Hc). done.
Qed.

(** What the rule asks for, given the flags [c] already set: every item of [items], and in
    each group that is present one item (or the group's flag). *)
Definition group_holds (l : list Item) (flag : bool) (m : InboundContext) : bool :=
  negb (nonempty l) || flag || any_item l m.

Definition dest_items (r : abstractDefaultRule Item Action) (ignore : bool) : list Item :=
  destinationAddressItems r ++ (if ignore then [] else destinationIPCIDRItems r).

Definition rule_holds (r : abstractDefaultRule Item Action) (m : InboundContext) : bool :=
  let c := md_cache m in
  all_item (items r) m
  && group_holds (sourceAddressItems r) (SourceAddressMatch c) m
  && group_holds (sourcePortItems r) (SourcePortMatch c) m
  && group_holds (dest_items r (IgnoreDestinationIPCIDRMatch c)) (DestinationAddressMatch c) m
  && group_holds (destinationPortItems r) (DestinationPortMatch c) m.

(** The cache [Match] leaves. *)
Definition rule_cache (r : abstractDefaultRule Item Action) (m : InboundContext) : RuleCache :=
  if negb (nonempty (allItems r)) then md_cache m
  else let c := groups_cache r m (md_cache m) in set_DidMatch (DidMatch c || nonempty (items r)) c.

(** The answer [Match] gives. *)
Definition rule_answer (r : abstractDefaultRule Item Action) (m : InboundContext) : bool :=
  if negb (nonempty (allItems r)) then true
  else if rule_holds r m then (if DidMatch (rule_cache r m) then negb (invert r) else true)
  else invert r.

Lemma group_flag l flag m :
  nonempty l && negb (flag || any_item l m) = negb (group_holds l flag m).
Proof. unfold group_holds. by destruct (nonempty l), flag, (any_item l m). Qed.

Lemma abstractDefaultRule_Match_pure r m :
  abstractDefaultRule_Match pure_Match no_rule_set r m = (rule_answer r m, set_cache (rule_cache r m) m).
Proof.
  unfold abstractDefaultRule_Match, rule_answer, rule_cache.
  destruct (negb (nonempty (allItems r))); [by rewrite set_cache_id|].
  rewrite <- (set_cache_id m) at 1. rewrite match_groups_pure by done.
  rewrite match_items_pure by done. rewrite set_cache_cache.
  unfold rule_holds. set (c := md_cache m).
  set (h4 := group_holds (dest_items r _) _ m).
  assert (h4 = negb ((negb (IgnoreDestinationIPCIDRMatch c) && nonempty (destinationIPCIDRItems r)
    || nonempty (destinationAddressItems r)) && negb (DestinationAddressMatch (groups_cache r m c)))) as E.
  { unfold h4. simpl. fold (dest_items r (IgnoreDestinationIPCIDRMatch c)).
    rewrite <- (negb_involutive (group_holds _ _ _)), <- group_flag. do 2 f_equal.
    unfold dest_items. rewrite nonempty_app.
    by destruct (IgnoreDestinationIPCIDRMatch c), (nonempty (destinationIPCIDRItems r)),
      (nonempty (destinationAddressItems r)). }
  rewrite E. clear E h4. simpl. rewrite !group_flag.
  destruct (all_item (items r) m); simpl; [|done].
  destruct (group_holds (sourceAddressItems r) _ m); simpl; [|done].
  destruct (group_holds (sourcePortItems r) _ m); simpl; [|done].
  destruct (_ && negb (_ || any_item (_ ++ _) m)); simpl; [done|].
  destruct (group_holds (destinationPortItems r) _ m); simpl; [|done].
  by destruct (_ || nonempty (items r)).
Qed.
End Pure.
