(* ===== verification/RuleAction.v ===== *)
(** * RuleAction: what a matched rule asks for

    route/rule/rule_action.go and the option types of option/rule_action.go: the actions, their
    construction from options, the flood control of [reject], and the records of [predefined].
    Durations are nanoseconds.  The dialer a [direct] action builds (common/dialer) is an argument
    of the constructor; the action keeps its description. *)

From S2P Require Import Prelude GoStd NetIP DNSMessage Metadata RuleItems.
Open Scope string_scope.

Definition RuleActionTypeRoute := "route".
Definition RuleActionTypeRouteOptions := "route-options".
Definition RuleActionTypeDirect := "direct".
Definition RuleActionTypeBypass := "bypass".
Definition RuleActionTypeReject := "reject".
Definition RuleActionTypeHijackDNS := "hijack-dns".
Definition RuleActionTypeSniff := "sniff".
Definition RuleActionTypeResolve := "resolve".
Definition RuleActionTypePredefined := "predefined".
Definition RuleActionRejectMethodDefault := "default".
Definition RuleActionRejectMethodDrop := "drop".
Definition RuleActionRejectMethodReply := "reply".

(** ** Actions *)

Record RuleActionRouteOptions : Type := mkRouteOptions {
  OverrideAddress : Socksaddr;
  OverridePort : N;
  OverrideTunnelDestination : string;
  NetworkStrategy : option N;
  NetworkType : list N;
  FallbackNetworkType : list N;
  FallbackDelay : Z;
  UDPDisableDomainUnmapping : bool;
  UDPConnect : bool;
  UDPTimeout : Z;
  TLSFragment : bool;
  TLSFragmentFallbackDelay : Z;
  TLSRecordFragment : bool
}.

Record RuleActionDNSRouteOptions : Type := mkDNSRouteOptions {
  dro_Strategy : N;
  dro_DisableCache : bool;
  dro_RewriteTTL : option N;
  dro_ClientSubnet : Prefix;
  dro_BypassIfFailed : bool
}.

(** [dropCounter]: the times of the last triggers, oldest first. *)
Record RuleActionReject : Type := mkReject {
  rej_Method : string;
  rej_NoDrop : bool;
  rej_dropCounter : list Z
}.

Inductive StreamSniffer : Type :=
  TLSClientHello | HTTPHost | StreamDomainNameQuery | BitTorrent | SSH | RDP.
Inductive PacketSniffer : Type :=
  QUICClientHello | DomainNameQuery | STUNMessage | UTP | UDPTracker | DTLSRecord | NTP.

Record RuleActionSniff : Type := mkSniff {
  SnifferNames : list string;
  StreamSniffers : list StreamSniffer;
  PacketSniffers : list PacketSniffer;
  SniffActionTimeout : Z;
  OverrideDestination : bool
}.

Record RuleActionResolve : Type := mkResolve {
  rs_Server : string;
  rs_Strategy : N;
  rs_DisableCache : bool;
  rs_RewriteTTL : option N;
  rs_ClientSubnet : Prefix
}.

Record RuleActionPredefined : Type := mkPredefined {
  pd_Rcode : Z;
  pd_Answer : list RR;
  pd_Ns : list RR;
  pd_Extra : list RR
}.

Inductive RuleAction : Type :=
| ActRoute (outbound : string) (o : RuleActionRouteOptions)
| ActRouteOptions (o : RuleActionRouteOptions)
| ActBypass (outbound : string) (o : RuleActionRouteOptions)
| ActDirect (description : string)
| ActReject (r : RuleActionReject)
| ActHijackDNS
| ActSniff (s : RuleActionSniff)
| ActResolve (r : RuleActionResolve)
| ActDNSRoute (server : string) (o : RuleActionDNSRouteOptions)
| ActDNSRouteOptions (o : RuleActionDNSRouteOptions)
| ActPredefined (p : RuleActionPredefined).

Definition RuleAction_Type (a : RuleAction) : string :=
  match a with
  | ActRoute _ _ | ActDNSRoute _ _ => RuleActionTypeRoute
  | ActRouteOptions _ | ActDNSRouteOptions _ => RuleActionTypeRouteOptions
  | ActBypass _ _ => RuleActionTypeBypass
  | ActDirect _ => RuleActionTypeDirect
  | ActReject _ => RuleActionTypeReject
  | ActHijackDNS => RuleActionTypeHijackDNS
  | ActSniff _ => RuleActionTypeSniff
  | ActResolve _ => RuleActionTypeResolve
  | ActPredefined _ => RuleActionTypePredefined
  end.

(** ** Construction from options *)

Record RawRouteOptionsActionOptions : Type := mkRawRouteOptions {
  oro_OverrideAddress : string;
  oro_OverridePort : N;
  oro_OverrideTunnelDestination : string;
  oro_NetworkStrategy : option N;
  oro_FallbackDelay : N;
  oro_UDPDisableDomainUnmapping : bool;
  oro_UDPConnect : bool;
  oro_UDPTimeout : Z;
  oro_TLSFragment : bool;
  oro_TLSFragmentFallbackDelay : Z;
  oro_TLSRecordFragment : bool
}.
Definition RawRouteOptions_zero := mkRawRouteOptions "" 0 "" None 0 false false 0 false 0 false.
Record RouteActionOptions : Type := mkRouteActionOptions {
  oa_Outbound : string; oa_Raw : RawRouteOptionsActionOptions }.
Record RejectActionOptions : Type := mkRejectOptions { ore_Method : string; ore_NoDrop : bool }.
Record RouteActionSniff : Type := mkSniffOptions { osn_Sniffer : list string; osn_Timeout : Z }.
Record RouteActionResolve `{Externals} : Type := mkResolveOptions {
  ors_Server : string; ors_Strategy : N; ors_DisableCache : bool; ors_RewriteTTL : option N;
  ors_ClientSubnet : option Prefixable }.
Arguments mkResolveOptions {_}.

(** [option.DirectActionOptions], dialer options: whether they are the zero value, and their
    [Descriptions()]. *)
Record DirectActionOptions : Type := mkDirectOptions {
  oad_zero : bool; oad_Descriptions : list string }.

(** [option.RuleAction]. *)
Record RuleActionOptions `{Externals} : Type := mkRuleActionOptions {
  oact_Action : string;
  oact_RouteOptions : RouteActionOptions;
  oact_RouteOptionsOptions : RawRouteOptionsActionOptions;
  oact_DirectOptions : DirectActionOptions;
  oact_BypassOptions : RouteActionOptions;
  oact_RejectOptions : RejectActionOptions;
  oact_SniffOptions : RouteActionSniff;
  oact_ResolveOptions : RouteActionResolve
}.
Arguments mkRuleActionOptions {_}.

Record DNSRouteActionOptions `{Externals} : Type := mkDNSRouteActionOptions {
  odr_Server : string; odr_Strategy : N; odr_DisableCache : bool; odr_RewriteTTL : option N;
  odr_ClientSubnet : option Prefixable; odr_BypassIfFailed : bool }.
Arguments mkDNSRouteActionOptions {_}.
Record DNSRouteOptionsActionOptions `{Externals} : Type := mkDNSRouteOptionsActionOptions {
  odo_Strategy : N; odo_DisableCache : bool; odo_RewriteTTL : option N;
  odo_ClientSubnet : option Prefixable }.
Arguments mkDNSRouteOptionsActionOptions {_}.
Record DNSRouteActionPredefined : Type := mkPredefinedOptions {
  opd_Rcode : option Z; opd_Answer : list RR; opd_Ns : list RR; opd_Extra : list RR }.
Record DNSRuleActionOptions `{Externals} : Type := mkDNSRuleActionOptions {
  odact_Action : string;
  odact_RouteOptions : DNSRouteActionOptions;
  odact_RouteOptionsOptions : DNSRouteOptionsActionOptions;
  odact_RejectOptions : RejectActionOptions;
  odact_PredefinedOptions : DNSRouteActionPredefined
}.
Arguments mkDNSRuleActionOptions {_}.

(** Comparison with the zero value ([reflect.DeepEqual] in [IsValid]). *)
#[export] Instance RawRouteOptions_eq_dec : EqDecision RawRouteOptionsActionOptions.
Proof. solve_decision. Defined.

Section Zero.
Context {X : Externals}.
Definition is_none {A} (o : option A) : bool := match o with None => true | _ => false end.
Definition RouteActionOptions_isZero (o : RouteActionOptions) : bool :=
  str_empty (oa_Outbound o) && bool_decide (oa_Raw o = RawRouteOptions_zero).
Definition RejectActionOptions_isZero (o : RejectActionOptions) : bool :=
  str_empty (ore_Method o) && negb (ore_NoDrop o).
Definition RuleActionOptions_isZero (a : RuleActionOptions) : bool :=
  str_empty (oact_Action a)
  && RouteActionOptions_isZero (oact_RouteOptions a)
  && bool_decide (oact_RouteOptionsOptions a = RawRouteOptions_zero)
  && oad_zero (oact_DirectOptions a)
  && RouteActionOptions_isZero (oact_BypassOptions a)
  && RejectActionOptions_isZero (oact_RejectOptions a)
  && negb (nonempty (osn_Sniffer (oact_SniffOptions a))) && (osn_Timeout (oact_SniffOptions a) =? 0)%Z
  && str_empty (ors_Server (oact_ResolveOptions a)) && (ors_Strategy (oact_ResolveOptions a) =? 0)%N
  && negb (ors_DisableCache (oact_ResolveOptions a)) && is_none (ors_RewriteTTL (oact_ResolveOptions a))
  && is_none (ors_ClientSubnet (oact_ResolveOptions a)).
Definition DNSRuleActionOptions_isZero (a : DNSRuleActionOptions) : bool :=
  str_empty (odact_Action a)
  && str_empty (odr_Server (odact_RouteOptions a)) && (odr_Strategy (odact_RouteOptions a) =? 0)%N
  && negb (odr_DisableCache (odact_RouteOptions a)) && is_none (odr_RewriteTTL (odact_RouteOptions a))
  && is_none (odr_ClientSubnet (odact_RouteOptions a)) && negb (odr_BypassIfFailed (odact_RouteOptions a))
  && (odo_Strategy (odact_RouteOptionsOptions a) =? 0)%N
  && negb (odo_DisableCache (odact_RouteOptionsOptions a))
  && is_none (odo_RewriteTTL (odact_RouteOptionsOptions a))
  && is_none (odo_ClientSubnet (odact_RouteOptionsOptions a))
  && RejectActionOptions_isZero (odact_RejectOptions a)
  && is_none (opd_Rcode (odact_PredefinedOptions a)) && negb (nonempty (opd_Answer (odact_PredefinedOptions a)))
  && negb (nonempty (opd_Ns (odact_PredefinedOptions a)))
  && negb (nonempty (opd_Extra (odact_PredefinedOptions a))).
End Zero.

(** [RuleActionSniff.build]: one name. *)
Definition sniffer_of_name (name : string) : option (list StreamSniffer * list PacketSniffer) :=
  match name with
  | "tls" => Some ([TLSClientHello], [])
  | "http" => Some ([HTTPHost], [])
  | "quic" => Some ([], [QUICClientHello])
  | "dns" => Some ([StreamDomainNameQuery], [DomainNameQuery])
  | "stun" => Some ([], [STUNMessage])
  | "bittorrent" => Some ([BitTorrent], [UTP; UDPTracker])
  | "dtls" => Some ([], [DTLSRecord])
  | "ssh" => Some ([SSH], [])
  | "rdp" => Some ([RDP], [])
  | "ntp" => Some ([], [NTP])
  | _ => None
  end.
Fixpoint build_sniffers (names : list string) (ss : list StreamSniffer) (ps : list PacketSniffer)
  : result (list StreamSniffer * list PacketSniffer) :=
  match names with
  | [] => Ok (ss, ps)
  | name :: l =>
      match sniffer_of_name name with
      | Some (s, p) => build_sniffers l (ss ++ s) (ps ++ p)
      | None => Err (ENew ("unknown sniffer: " +:+ name))
      end
  end.
Definition RuleActionSniff_build (r : RuleActionSniff) : result RuleActionSniff :=
  let! (ss, ps) := build_sniffers (SnifferNames r) (StreamSniffers r) (PacketSniffers r) in
  Ok (mkSniff (SnifferNames r) ss ps (SniffActionTimeout r) (OverrideDestination r)).

Section New.
Context {X : Externals}.

(** The description of a [direct] action. *)
Definition direct_description (descriptions : list string) : string :=
  match descriptions with
  | [] => ""
  | [a] => "(" +:+ a +:+ ")"
  | [a; b] => "(" +:+ a +:+ "," +:+ b +:+ ")"
  | a :: b :: _ => "(" +:+ a +:+ "," +:+ b +:+ ",...)"
  end.

(** [NewRuleAction].  [directDialer] is what [dialer.New] returns for the [direct] options.
    The [route] and [bypass] forms do not copy [UDPTimeout]; [route-options] and [bypass] do not
    copy [OverrideTunnelDestination]. *)
Definition NewRuleAction (directDialer : result unit) (a : RuleActionOptions) : result (option RuleAction) :=
  let conv (o : RawRouteOptionsActionOptions) (tunnel : string) (udpTimeout : Z) :=
    mkRouteOptions (ParseSocksaddrHostPort (oro_OverrideAddress o) 0) (oro_OverridePort o) tunnel
      (oro_NetworkStrategy o) [] [] (Z.of_N (oro_FallbackDelay o)) (oro_UDPDisableDomainUnmapping o)
      (oro_UDPConnect o) udpTimeout (oro_TLSFragment o) (oro_TLSFragmentFallbackDelay o)
      (oro_TLSRecordFragment o) in
  let act := oact_Action a in
  if bool_decide (act = "") then Ok None
  else if bool_decide (act = RuleActionTypeRoute) then
    let o := oa_Raw (oact_RouteOptions a) in
    Ok (Some (ActRoute (oa_Outbound (oact_RouteOptions a)) (conv o (oro_OverrideTunnelDestination o) 0%Z)))
  else if bool_decide (act = RuleActionTypeRouteOptions) then
    let o := oact_RouteOptionsOptions a in
    Ok (Some (ActRouteOptions (conv o "" (oro_UDPTimeout o))))
  else if bool_decide (act = RuleActionTypeBypass) then
    let o := oa_Raw (oact_BypassOptions a) in
    Ok (Some (ActBypass (oa_Outbound (oact_BypassOptions a)) (conv o "" 0%Z)))
  else if bool_decide (act = RuleActionTypeDirect) then
    let! _ := directDialer in
    Ok (Some (ActDirect (direct_description (oad_Descriptions (oact_DirectOptions a)))))
  else if bool_decide (act = RuleActionTypeReject) then
    Ok (Some (ActReject (mkReject (ore_Method (oact_RejectOptions a)) (ore_NoDrop (oact_RejectOptions a)) [])))
  else if bool_decide (act = RuleActionTypeHijackDNS) then Ok (Some ActHijackDNS)
  else if bool_decide (act = RuleActionTypeSniff) then
    let o := oact_SniffOptions a in
    let! s := RuleActionSniff_build (mkSniff (osn_Sniffer o) [] [] (osn_Timeout o) false) in
    Ok (Some (ActSniff s))
  else if bool_decide (act = RuleActionTypeResolve) then
    let o := oact_ResolveOptions a in
    Ok (Some (ActResolve (mkResolve (ors_Server o) (ors_Strategy o) (ors_DisableCache o)
      (ors_RewriteTTL o) (Prefixable_Build (ors_ClientSubnet o) Prefix_zero))))
  else Panic ("unknown rule action: " +:+ act).

(** [NewDNSRuleAction]. *)
Definition NewDNSRuleAction (a : DNSRuleActionOptions) : result (option RuleAction) :=
  let subnet (p : option Prefixable) := default Prefix_zero (Prefixable_Prefix <$> p) in
  let act := odact_Action a in
  if bool_decide (act = "") then Ok None
  else if bool_decide (act = RuleActionTypeRoute) then
    let o := odact_RouteOptions a in
    Ok (Some (ActDNSRoute (odr_Server o) (mkDNSRouteOptions (odr_Strategy o) (odr_DisableCache o)
      (odr_RewriteTTL o) (subnet (odr_ClientSubnet o)) (odr_BypassIfFailed o))))
  else if bool_decide (act = RuleActionTypeRouteOptions) then
    let o := odact_RouteOptionsOptions a in
    Ok (Some (ActDNSRouteOptions (mkDNSRouteOptions (odo_Strategy o) (odo_DisableCache o)
      (odo_RewriteTTL o) (subnet (odo_ClientSubnet o)) false)))
  else if bool_decide (act = RuleActionTypeReject) then
    Ok (Some (ActReject (mkReject (ore_Method (odact_RejectOptions a)) (ore_NoDrop (odact_RejectOptions a)) [])))
  else if bool_decide (act = RuleActionTypePredefined) then
    let o := odact_PredefinedOptions a in
    Ok (Some (ActPredefined (mkPredefined (default 0%Z (opd_Rcode o)) (opd_Answer o) (opd_Ns o) (opd_Extra o))))
  else Panic ("unknown rule action: " +:+ act).
End New.

(** ** Rejection *)

Definition ErrReset : error := ELib "tun.ErrReset".
Definition ErrDrop : error := ELib "tun.ErrDrop".

(** The window and the limit of the flood control. *)
Definition drop_window : Z := 30 * 1000000000.
Definition drop_limit : nat := 50.

Definition in_window (now t : Z) : bool := (now - t <=? drop_window)%Z.

(** [RuleActionReject.Error] at time [now]: the error ([None] for [nil]) and the action with its
    updated counter. *)
Definition RuleActionReject_Error (now : Z) (r : RuleActionReject) : result (option error * RuleActionReject) :=
  if bool_decide (rej_Method r = RuleActionRejectMethodDrop) then Ok (Some (ERejected ErrDrop), r)
  else if bool_decide (rej_Method r = RuleActionRejectMethodReply) then Ok (None, r)
  else if negb (bool_decide (rej_Method r = RuleActionRejectMethodDefault))
  then Panic ("unknown reject method: " +:+ rej_Method r)
  else if rej_NoDrop r then Ok (Some (ERejected ErrReset), r)
  else
    let counter := (List.filter (in_window now) (rej_dropCounter r) ++ [now])%list in
    let r' := mkReject (rej_Method r) (rej_NoDrop r) counter in
    if (drop_limit <? length counter)%nat then Ok (Some (ERejected ErrDrop), r')
    else Ok (Some (ERejected ErrReset), r').

(** [errors.As] through the wrappers of [E.Cause] and the like. *)
Fixpoint IsRejected (e : error) : bool :=
  match e with
  | ERejected _ => true
  | ECause c _ | EExtend c _ | EWrap c _ | EBypassed c => IsRejected c
  | EJoin a b => IsRejected a || IsRejected b
  | ENew _ | ELib _ | ERcode _ => false
  end.
Fixpoint IsBypassed (e : error) : bool :=
  match e with
  | EBypassed _ => true
  | ECause c _ | EExtend c _ | EWrap c _ | ERejected c => IsBypassed c
  | EJoin a b => IsBypassed a || IsBypassed b
  | ENew _ | ELib _ | ERcode _ => false
  end.

(** ** Predefined answers *)

(** [rewriteRecords]: a wildcard record whose suffix the question has takes the question's name. *)
Definition rewriteRecords (records : list RR) (question : string) : list RR :=
  map (fun it =>
    if has_prefix "*" (rr_Name it) && has_suffix question (str_drop 1 (rr_Name it))
    then set_rr_Name question it else it) records.

(** ** Flood control *)

(** The action after it was triggered at [times]. *)
Fixpoint trigger_all (times : list Z) (r : RuleActionReject) : result RuleActionReject :=
  match times with
  | [] => Ok r
  | t :: l => let! (_, r) := RuleActionReject_Error t r in trigger_all l r
  end.

(** The action rejects with a reset and counts. *)
Definition counting (r : RuleActionReject) : Prop :=
  rej_Method r = RuleActionRejectMethodDefault /\ rej_NoDrop r = false.

Definition counter_step (now : Z) (r : RuleActionReject) : RuleActionReject :=
  mkReject (rej_Method r) (rej_NoDrop r) (List.filter (in_window now) (rej_dropCounter r) ++ [now])%list.

Lemma RuleActionReject_Error_counting now r : counting r ->
  RuleActionReject_Error now r =
  Ok (Some (ERejected (if (drop_limit <? length (rej_dropCounter (counter_step now r)))%nat
                       then ErrDrop else ErrReset)), counter_step now r).
Proof.
  intros [Hm Hn]. unfold RuleActionReject_Error. rewrite Hm, Hn.
  rewrite !bool_decide_eq_false_2 by done. rewrite bool_decide_eq_true_2 by done.
  cbn [negb]. unfold counter_step. rewrite Hm, Hn. cbn [rej_dropCounter].
  by destruct (_ <? _)%nat.
Qed.

Lemma filter_window_mono t now l : (t <= now)%Z ->
  List.filter (in_window now) (List.filter (in_window t) l) = List.filter (in_window now) l.
Proof.
  intros H. induction l as [|x l IH]; [done|]. cbn [List.filter].
  destruct (in_window t x) eqn:E; cbn [List.filter]; rewrite IH; [done|].
  replace (in_window now x) with false; [done|].
  unfold in_window in *. symmetry. apply Z.leb_gt in E. apply Z.leb_gt. lia.
Qed.

(** The counter keeps what later windows can see of the triggers [seen]. *)
Definition remembers (seen : list Z) (r : RuleActionReject) : Prop :=
  forall now, Forall (fun t => (t <= now)%Z) seen ->
  List.filter (in_window now) (rej_dropCounter r) = List.filter (in_window now) seen.

Lemma counter_step_remembers seen r now :
  Forall (fun t => (t <= now)%Z) seen -> remembers seen r -> remembers (seen ++ [now])%list (counter_step now r).
Proof.
  intros Hs Hr t Ht. apply Forall_app in Ht as [Ht Hn]. inversion Hn; subst. simpl.
  rewrite !List.filter_app, filter_window_mono by lia. by rewrite Hr.
Qed.

Lemma trigger_all_remembers times : forall seen r,
  counting r -> remembers seen r -> StronglySorted Z.le (seen ++ times)%list ->
  exists r', trigger_all times r = Ok r' /\ counting r' /\ remembers (seen ++ times)%list r'.
Proof.
  induction times as [|t l IH]; intros seen r Hc Hr Hs; cbn [trigger_all].
  - exists r. by rewrite app_nil_r.
  - rewrite RuleActionReject_Error_counting by done. cbn [mbind result_bind].
    replace (seen ++ t :: l)%list with ((seen ++ [t]) ++ l)%list in * by (by rewrite <- app_assoc).
    apply IH; [done| |done]. apply counter_step_remembers; [|done].
    apply sorted_snoc, (sorted_prefix _ _ _ Hs).
Qed.

(** Flood control of the default rejection: after any sequence of triggers at non-decreasing
    times, the next one is answered with a silent drop exactly when more than 50 of them, itself
    included, happened in the last 30 seconds, and with a reset otherwise. *)
Theorem reject_flood_control times now method :
  method = RuleActionRejectMethodDefault ->
  StronglySorted Z.le (times ++ [now])%list ->
  exists r r', trigger_all times (mkReject method false []) = Ok r /\
    RuleActionReject_Error now r =
      Ok (Some (ERejected (if (50 <? length (List.filter (in_window now) (times ++ [now])))%nat
                           then ErrDrop else ErrReset)), r') /\
    (length (rej_dropCounter r') <= S (length times))%nat /\
    Forall (fun t => in_window now t = true) (rej_dropCounter r').
Proof.
  intros -> Hs.
  destruct (trigger_all_remembers times [] (mkReject RuleActionRejectMethodDefault false []))
    as (r & Hr & Hc & Hm); [done|done| |].
  { apply (sorted_prefix _ _ _ Hs). }
  exists r, (counter_step now r). split; [done|].
  assert (Forall (fun t => (t <= now)%Z) times) as Hle by (by apply sorted_snoc).
  specialize (Hm now Hle). cbn [app] in Hm.
  assert (in_window now now = true) as Hn by (unfold in_window, drop_window; apply Z.leb_le; rewrite Z.sub_diag; lia).
  rewrite RuleActionReject_Error_counting by done. simpl. rewrite Hm.
  rewrite List.filter_app. cbn [List.filter]. rewrite Hn. split; [done|]. split.
  - rewrite length_app. simpl. pose proof (List.filter_length_le (in_window now) times). lia.
  - apply Forall_app. split; [|by repeat constructor].
    apply Forall_forall. intros x Hx%list_elem_of_In. by apply List.filter_In in Hx as [_ ?].
Qed.

Lemma reject_flood_control_witness :
  exists r r', trigger_all (repeat 0%Z 50) (mkReject RuleActionRejectMethodDefault false []) = Ok r /\
    RuleActionReject_Error 1000 r = Ok (Some (ERejected ErrDrop), r').
Proof.
  destruct (reject_flood_control (repeat 0%Z 50) 1000 RuleActionRejectMethodDefault) as (r & r' & H1 & H2 & _).
  - reflexivity.
  - vm_compute. repeat (apply SSorted_cons || apply SSorted_nil || apply Forall_cons || apply Forall_nil || split); discriminate.
  - exists r, r'. split; [exact H1|]. rewrite H2. vm_compute. reflexivity.
Defined.
