(* ===== verification/RuleOptions.v ===== *)
(** * RuleOptions: the rules of the configuration

    The option types rules are built from (option/rule.go, option/rule_dns.go,
    option/rule_set.go) and their [IsValid] checks.  A nil slice or a slice without elements is
    the empty list, a nil pointer is [None].  [IsValid] compares with the zero value by
    [reflect.DeepEqual]; the model takes slices without elements to be nil, as the decoder leaves
    absent fields. *)

From S2P Require Import Prelude GoStd NetIP Metadata RuleItems RuleAction.
Open Scope string_scope.

Definition RuleTypeDefault : string := "default".
Definition RuleTypeLogical : string := "logical".

(** [option.LogicalHeadlessRule] and the raw logical rules, over the rule type. *)
Record opt_Logical (R : Type) : Type := mkOptLogical {
  lo_Mode : string;
  lo_Rules : list R;
  lo_Invert : bool
}.

Arguments mkOptLogical {_}.
Arguments lo_Mode {_}.
Arguments lo_Rules {_}.
Arguments lo_Invert {_}.

Section Options.
Context {X : Externals}.

(** [option.DefaultHeadlessRule] (option/rule_set.go). *)
Record opt_DefaultHeadlessRule : Type := mkOptDefaultHeadlessRule {
  ho_QueryType : list N;
  ho_Network : list string;
  ho_Domain : list string;
  ho_DomainSuffix : list string;
  ho_DomainKeyword : list string;
  ho_DomainRegex : list string;
  ho_SourceIPCIDR : list string;
  ho_IPCIDR : list string;
  ho_SourcePort : list N;
  ho_SourcePortRange : list string;
  ho_Port : list N;
  ho_PortRange : list string;
  ho_ProcessName : list string;
  ho_ProcessPath : list string;
  ho_ProcessPathRegex : list string;
  ho_PackageName : list string;
  ho_NetworkType : list N;
  ho_NetworkIsExpensive : bool;
  ho_NetworkIsConstrained : bool;
  ho_WIFISSID : list string;
  ho_WIFIBSSID : list string;
  ho_Invert : bool;
  ho_DomainMatcher : option DomainMatcher;
  ho_SourceIPSet : option IPSet;
  ho_IPSet : option IPSet;
  ho_AdGuardDomain : list string;
  ho_AdGuardDomainMatcher : option AdGuardMatcher;
  ho_TunnelSource : list string;
  ho_TunnelDestination : list string;
  ho_NetworkInterfaceAddress : option (list (N * list Prefixable));
  ho_DefaultInterfaceAddress : list Prefixable
}.

Definition opt_DefaultHeadlessRule_isZero (o : opt_DefaultHeadlessRule) : bool :=
  negb (nonempty (ho_QueryType o)) && negb (nonempty (ho_Network o))
  && negb (nonempty (ho_Domain o)) && negb (nonempty (ho_DomainSuffix o))
  && negb (nonempty (ho_DomainKeyword o)) && negb (nonempty (ho_DomainRegex o))
  && negb (nonempty (ho_SourceIPCIDR o)) && negb (nonempty (ho_IPCIDR o))
  && negb (nonempty (ho_SourcePort o)) && negb (nonempty (ho_SourcePortRange o))
  && negb (nonempty (ho_Port o)) && negb (nonempty (ho_PortRange o))
  && negb (nonempty (ho_ProcessName o)) && negb (nonempty (ho_ProcessPath o))
  && negb (nonempty (ho_ProcessPathRegex o)) && negb (nonempty (ho_PackageName o))
  && negb (nonempty (ho_NetworkType o)) && negb (ho_NetworkIsExpensive o)
  && negb (ho_NetworkIsConstrained o) && negb (nonempty (ho_WIFISSID o))
  && negb (nonempty (ho_WIFIBSSID o)) && is_none (ho_DomainMatcher o)
  && is_none (ho_SourceIPSet o) && is_none (ho_IPSet o) && negb (nonempty (ho_AdGuardDomain o))
  && is_none (ho_AdGuardDomainMatcher o) && negb (nonempty (ho_TunnelSource o))
  && negb (nonempty (ho_TunnelDestination o)) && is_none (ho_NetworkInterfaceAddress o)
  && negb (nonempty (ho_DefaultInterfaceAddress o)).

Definition opt_DefaultHeadlessRule_zero : opt_DefaultHeadlessRule :=
  mkOptDefaultHeadlessRule [] [] [] [] [] [] [] [] [] [] [] [] [] [] [] [] [] false false []
    [] false None None None [] None [] [] None [].

(** [option.RawDefaultRule] (option/rule.go). *)
Record opt_RawDefaultRule : Type := mkOptRawDefaultRule {
  ro_Inbound : list string;
  ro_IPVersion : Z;
  ro_Network : list string;
  ro_AuthUser : list string;
  ro_Protocol : list string;
  ro_Client : list string;
  ro_Domain : list string;
  ro_DomainSuffix : list string;
  ro_DomainKeyword : list string;
  ro_DomainRegex : list string;
  ro_Geosite : list string;
  ro_SourceGeoIP : list string;
  ro_GeoIP : list string;
  ro_SourceIPCIDR : list string;
  ro_SourceIPIsPrivate : bool;
  ro_IPCIDR : list string;
  ro_IPIsPrivate : bool;
  ro_SourcePort : list N;
  ro_SourcePortRange : list string;
  ro_Port : list N;
  ro_PortRange : list string;
  ro_ProcessName : list string;
  ro_ProcessPath : list string;
  ro_ProcessPathRegex : list string;
  ro_PackageName : list string;
  ro_User : list string;
  ro_UserID : list Z;
  ro_ClashMode : string;
  ro_NetworkType : list N;
  ro_NetworkIsExpensive : bool;
  ro_NetworkIsConstrained : bool;
  ro_WIFISSID : list string;
  ro_WIFIBSSID : list string;
  ro_RuleSet : list string;
  ro_RuleSetIPCIDRMatchSource : bool;
  ro_Invert : bool;
  ro_Deprecated_RulesetIPCIDRMatchSource : bool;
  ro_TunnelSource : list string;
  ro_TunnelDestination : list string;
  ro_InterfaceAddress : option (list (string * list Prefixable));
  ro_NetworkInterfaceAddress : option (list (N * list Prefixable));
  ro_DefaultInterfaceAddress : list Prefixable;
  ro_PreferredBy : list string
}.

Definition opt_RawDefaultRule_isZero (o : opt_RawDefaultRule) : bool :=
  negb (nonempty (ro_Inbound o)) && (ro_IPVersion o =? 0)%Z && negb (nonempty (ro_Network o))
  && negb (nonempty (ro_AuthUser o)) && negb (nonempty (ro_Protocol o))
  && negb (nonempty (ro_Client o)) && negb (nonempty (ro_Domain o))
  && negb (nonempty (ro_DomainSuffix o)) && negb (nonempty (ro_DomainKeyword o))
  && negb (nonempty (ro_DomainRegex o)) && negb (nonempty (ro_Geosite o))
  && negb (nonempty (ro_SourceGeoIP o)) && negb (nonempty (ro_GeoIP o))
  && negb (nonempty (ro_SourceIPCIDR o)) && negb (ro_SourceIPIsPrivate o)
  && negb (nonempty (ro_IPCIDR o)) && negb (ro_IPIsPrivate o)
  && negb (nonempty (ro_SourcePort o)) && negb (nonempty (ro_SourcePortRange o))
  && negb (nonempty (ro_Port o)) && negb (nonempty (ro_PortRange o))
  && negb (nonempty (ro_ProcessName o)) && negb (nonempty (ro_ProcessPath o))
  && negb (nonempty (ro_ProcessPathRegex o)) && negb (nonempty (ro_PackageName o))
  && negb (nonempty (ro_User o)) && negb (nonempty (ro_UserID o)) && str_empty (ro_ClashMode o)
  && negb (nonempty (ro_NetworkType o)) && negb (ro_NetworkIsExpensive o)
  && negb (ro_NetworkIsConstrained o) && negb (nonempty (ro_WIFISSID o))
  && negb (nonempty (ro_WIFIBSSID o)) && negb (nonempty (ro_RuleSet o))
  && negb (ro_RuleSetIPCIDRMatchSource o) && negb (ro_Deprecated_RulesetIPCIDRMatchSource o)
  && negb (nonempty (ro_TunnelSource o)) && negb (nonempty (ro_TunnelDestination o))
  && is_none (ro_InterfaceAddress o) && is_none (ro_NetworkInterfaceAddress o)
  && negb (nonempty (ro_DefaultInterfaceAddress o)) && negb (nonempty (ro_PreferredBy o)).

Definition opt_RawDefaultRule_zero : opt_RawDefaultRule :=
  mkOptRawDefaultRule [] 0 [] [] [] [] [] [] [] [] [] [] [] [] false [] false [] [] [] [] []
    [] [] [] [] [] "" [] false false [] [] [] false false false [] [] None None [] [].

(** [option.RawDefaultDNSRule] (option/rule_dns.go). *)
Record opt_RawDefaultDNSRule : Type := mkOptRawDefaultDNSRule {
  dn_Inbound : list string;
  dn_IPVersion : Z;
  dn_QueryType : list N;
  dn_Network : list string;
  dn_AuthUser : list string;
  dn_Protocol : list string;
  dn_Domain : list string;
  dn_DomainSuffix : list string;
  dn_DomainKeyword : list string;
  dn_DomainRegex : list string;
  dn_Geosite : list string;
  dn_SourceGeoIP : list string;
  dn_GeoIP : list string;
  dn_IPCIDR : list string;
  dn_IPIsPrivate : bool;
  dn_IPAcceptAny : bool;
  dn_SourceIPCIDR : list string;
  dn_SourceIPIsPrivate : bool;
  dn_SourcePort : list N;
  dn_SourcePortRange : list string;
  dn_Port : list N;
  dn_PortRange : list string;
  dn_ProcessName : list string;
  dn_ProcessPath : list string;
  dn_ProcessPathRegex : list string;
  dn_PackageName : list string;
  dn_User : list string;
  dn_UserID : list Z;
  dn_Outbound : list string;
  dn_ClashMode : string;
  dn_NetworkType : list N;
  dn_NetworkIsExpensive : bool;
  dn_NetworkIsConstrained : bool;
  dn_WIFISSID : list string;
  dn_WIFIBSSID : list string;
  dn_RuleSet : list string;
  dn_RuleSetIPCIDRMatchSource : bool;
  dn_RuleSetIPCIDRAcceptEmpty : bool;
  dn_Invert : bool;
  dn_TunnelSource : list string;
  dn_TunnelDestination : list string;
  dn_InterfaceAddress : option (list (string * list Prefixable));
  dn_NetworkInterfaceAddress : option (list (N * list Prefixable));
  dn_DefaultInterfaceAddress : list Prefixable;
  dn_Deprecated_RulesetIPCIDRMatchSource : bool
}.

Definition opt_RawDefaultDNSRule_isZero (o : opt_RawDefaultDNSRule) : bool :=
  negb (nonempty (dn_Inbound o)) && (dn_IPVersion o =? 0)%Z
  && negb (nonempty (dn_QueryType o)) && negb (nonempty (dn_Network o))
  && negb (nonempty (dn_AuthUser o)) && negb (nonempty (dn_Protocol o))
  && negb (nonempty (dn_Domain o)) && negb (nonempty (dn_DomainSuffix o))
  && negb (nonempty (dn_DomainKeyword o)) && negb (nonempty (dn_DomainRegex o))
  && negb (nonempty (dn_Geosite o)) && negb (nonempty (dn_SourceGeoIP o))
  && negb (nonempty (dn_GeoIP o)) && negb (nonempty (dn_IPCIDR o)) && negb (dn_IPIsPrivate o)
  && negb (dn_IPAcceptAny o) && negb (nonempty (dn_SourceIPCIDR o))
  && negb (dn_SourceIPIsPrivate o) && negb (nonempty (dn_SourcePort o))
  && negb (nonempty (dn_SourcePortRange o)) && negb (nonempty (dn_Port o))
  && negb (nonempty (dn_PortRange o)) && negb (nonempty (dn_ProcessName o))
  && negb (nonempty (dn_ProcessPath o)) && negb (nonempty (dn_ProcessPathRegex o))
  && negb (nonempty (dn_PackageName o)) && negb (nonempty (dn_User o))
  && negb (nonempty (dn_UserID o)) && negb (nonempty (dn_Outbound o))
  && str_empty (dn_ClashMode o) && negb (nonempty (dn_NetworkType o))
  && negb (dn_NetworkIsExpensive o) && negb (dn_NetworkIsConstrained o)
  && negb (nonempty (dn_WIFISSID o)) && negb (nonempty (dn_WIFIBSSID o))
  && negb (nonempty (dn_RuleSet o)) && negb (dn_RuleSetIPCIDRMatchSource o)
  && negb (dn_RuleSetIPCIDRAcceptEmpty o) && negb (nonempty (dn_TunnelSource o))
  && negb (nonempty (dn_TunnelDestination o)) && is_none (dn_InterfaceAddress o)
  && is_none (dn_NetworkInterfaceAddress o) && negb (nonempty (dn_DefaultInterfaceAddress o))
  && negb (dn_Deprecated_RulesetIPCIDRMatchSource o).

Definition opt_RawDefaultDNSRule_zero : opt_RawDefaultDNSRule :=
  mkOptRawDefaultDNSRule [] 0 [] [] [] [] [] [] [] [] [] [] [] [] false false [] false [] []
    [] [] [] [] [] [] [] [] [] "" [] false false [] [] [] false false false [] [] None None []
    false.

(** [option.DefaultRule], [option.DefaultDNSRule]: conditions and action. *)
Record opt_DefaultRule : Type := mkOptDefaultRule {
  dr_Raw : opt_RawDefaultRule; dr_Action : RuleActionOptions }.
Record opt_DefaultDNSRule : Type := mkOptDefaultDNSRule {
  dd_Raw : opt_RawDefaultDNSRule; dd_Action : DNSRuleActionOptions }.

(** [option.HeadlessRule], [option.Rule], [option.DNSRule]: the type tag and both variants. *)
Inductive opt_HeadlessRule : Type :=
| mkOptHeadlessRule (type : string) (default : opt_DefaultHeadlessRule)
    (logical : opt_Logical opt_HeadlessRule).
Inductive opt_Rule : Type :=
| mkOptRule (type : string) (default : opt_DefaultRule)
    (logical : opt_Logical opt_Rule) (logicalAction : RuleActionOptions).
Inductive opt_DNSRule : Type :=
| mkOptDNSRule (type : string) (default : opt_DefaultDNSRule)
    (logical : opt_Logical opt_DNSRule) (logicalAction : DNSRuleActionOptions).

(** ** Validity *)

Definition opt_DefaultHeadlessRule_IsValid (o : opt_DefaultHeadlessRule) : bool :=
  negb (opt_DefaultHeadlessRule_isZero o).
Definition opt_DefaultRule_IsValid (o : opt_DefaultRule) : bool :=
  negb (opt_RawDefaultRule_isZero (dr_Raw o) && RuleActionOptions_isZero (dr_Action o)).
Definition opt_DefaultDNSRule_IsValid (o : opt_DefaultDNSRule) : bool :=
  negb (opt_RawDefaultDNSRule_isZero (dd_Raw o) && DNSRuleActionOptions_isZero (dd_Action o)).

(** [common.All] with a predicate that may panic. *)
Fixpoint all_result {R : Type} (f : R -> result bool) (l : list R) : result bool :=
  match l with
  | [] => Ok true
  | r :: l' => f r ≫= fun b : bool => if b then all_result f l' else Ok false
  end.
(** [len(r.Rules) > 0 && common.All(r.Rules, IsValid)]. *)
Definition opt_Logical_IsValid {R : Type} (f : R -> result bool) (o : opt_Logical R) : result bool :=
  if nonempty (lo_Rules o) then all_result f (lo_Rules o) else Ok false.

Fixpoint opt_HeadlessRule_IsValid (r : opt_HeadlessRule) : result bool :=
  match r with
  | mkOptHeadlessRule ty d l =>
      if bool_decide (ty = RuleTypeDefault) || str_empty ty then Ok (opt_DefaultHeadlessRule_IsValid d)
      else if bool_decide (ty = RuleTypeLogical) then opt_Logical_IsValid opt_HeadlessRule_IsValid l
      else Panic ("unknown rule type: " +:+ ty)
  end.
(** Unlike the headless rule's, these panic on the empty type. *)
Fixpoint opt_Rule_IsValid (r : opt_Rule) : result bool :=
  match r with
  | mkOptRule ty d l _ =>
      if bool_decide (ty = RuleTypeDefault) then Ok (opt_DefaultRule_IsValid d)
      else if bool_decide (ty = RuleTypeLogical) then opt_Logical_IsValid opt_Rule_IsValid l
      else Panic ("unknown rule type: " +:+ ty)
  end.
Fixpoint opt_DNSRule_IsValid (r : opt_DNSRule) : result bool :=
  match r with
  | mkOptDNSRule ty d l _ =>
      if bool_decide (ty = RuleTypeDefault) then Ok (opt_DefaultDNSRule_IsValid d)
      else if bool_decide (ty = RuleTypeLogical) then opt_Logical_IsValid opt_DNSRule_IsValid l
      else Panic ("unknown DNS rule type: " +:+ ty)
  end.
End Options.
