(* ===== verification/RuleBuild.v ===== *)
(** * RuleBuild: from options to default rules

    The constructors of the three kinds of default rule
    (route/rule/rule_headless.go, rule_default.go, rule_dns.go).  Each is a sequence of blocks

<<
      if <option is present> {
          item, err := New...Item(...)
          if err != nil { return nil, err }
          rule.<group> = append(rule.<group>, item)
          rule.allItems = append(rule.allItems, item)
      }
>>

    A block is a record with the condition, the group and the item or the error; [run_blocks]
    executes a sequence of them. *)

From S2P Require Import Prelude GoStd NetIP Metadata RuleItems RuleMatch RuleAction RuleOptions.
Open Scope string_scope.

(** The slices of [abstractDefaultRule] an item is appended to, besides [allItems]. *)
Inductive rule_group : Type :=
  GItems | GSourceAddress | GSourcePort | GDestinationAddress | GDestinationIPCIDR | GDestinationPort.
#[export] Instance rule_group_eq_dec : EqDecision rule_group.
Proof. solve_decision. Defined.

Record block (Item : Type) : Type := mkBlock {
  blk_cond : bool; blk_group : rule_group; blk_item : result Item }.
Arguments mkBlock {_}.
Arguments blk_cond {_}.
Arguments blk_group {_}.
Arguments blk_item {_}.

Section Build.
Context {Item Action : Type}.

Definition rule_init (invert : bool) (act : Action) : abstractDefaultRule Item Action :=
  mkDefaultRule [] [] [] [] [] [] [] invert act.

Definition group_of (g : rule_group) (r : abstractDefaultRule Item Action) : list Item :=
  match g with
  | GItems => items r
  | GSourceAddress => sourceAddressItems r
  | GSourcePort => sourcePortItems r
  | GDestinationAddress => destinationAddressItems r
  | GDestinationIPCIDR => destinationIPCIDRItems r
  | GDestinationPort => destinationPortItems r
  end.

(** The two [append]s at the end of a block. *)
Definition add_item (g : rule_group) (i : Item) (r : abstractDefaultRule Item Action)
  : abstractDefaultRule Item Action :=
  let app (h : rule_group) (l : list Item) := if bool_decide (g = h) then (l ++ [i])%list else l in
  mkDefaultRule (app GItems (items r)) (app GSourceAddress (sourceAddressItems r))
    (app GSourcePort (sourcePortItems r)) (app GDestinationAddress (destinationAddressItems r))
    (app GDestinationIPCIDR (destinationIPCIDRItems r)) (app GDestinationPort (destinationPortItems r))
    (allItems r ++ [i])%list (invert r) (action r).

Fixpoint run_blocks (l : list (block Item)) (r : abstractDefaultRule Item Action)
  : result (abstractDefaultRule Item Action) :=
  match l with
  | [] => Ok r
  | b :: l' =>
      if blk_cond b then let! i := blk_item b in run_blocks l' (add_item (blk_group b) i r)
      else run_blocks l' r
  end.
End Build.

(** Conversion unfolds the constructors before it runs their blocks. *)
#[global] Strategy 100 [run_blocks].

(** ** Rule-set items *)

(** [RuleSetItem]; [setList] holds the tags of the rule-sets [Start] has resolved. *)
Record RuleSetItem : Type := mkRuleSetItem {
  rsi_tagList : list string;
  rsi_setList : list string;
  rsi_ipCidrMatchSource : bool;
  rsi_ipCidrAcceptEmpty : bool
}.
Definition NewRuleSetItem (tagList : list string) (ipCIDRMatchSource ipCidrAcceptEmpty : bool) : RuleSetItem :=
  mkRuleSetItem tagList [] ipCIDRMatchSource ipCidrAcceptEmpty.
Definition RuleSetItem_String (r : RuleSetItem) : string := describe "rule_set" (rsi_tagList r).

Section Rules.
Context {X : Externals}.

(** The [RuleItem]s of route and DNS rules. *)
Inductive RuleItem : Type := ItemBase (i : BaseItem) | ItemRuleSet (r : RuleSetItem).
Definition RuleItem_String (i : RuleItem) : string :=
  match i with ItemBase b => BaseItem_String b | ItemRuleSet r => RuleSetItem_String r end.

(** ** Headless rules *)

(** [NewDefaultHeadlessRule], conditions on the connection. *)
Definition headless_blocks_conn (o : opt_DefaultHeadlessRule) : list (block BaseItem) := [
  mkBlock (nonempty (ho_Network o)) GItems (Ok (INetwork (NewNetworkItem (ho_Network o))));
  mkBlock (nonempty (ho_Domain o) || nonempty (ho_DomainSuffix o)) GDestinationAddress
    (IDomain <$> NewDomainItem (ho_Domain o) (ho_DomainSuffix o));
  mkBlock (negb (nonempty (ho_Domain o) || nonempty (ho_DomainSuffix o)) && negb (is_none (ho_DomainMatcher o)))
    GDestinationAddress
    (match ho_DomainMatcher o with Some m => Ok (IDomain (NewRawDomainItem m)) | None => Panic "nil" end);
  mkBlock (nonempty (ho_DomainKeyword o)) GDestinationAddress
    (Ok (IDomainKeyword (NewDomainKeywordItem (ho_DomainKeyword o))));
  mkBlock (nonempty (ho_DomainRegex o)) GDestinationAddress
    (with_cause "domain_regex" (IDomainRegex <$> NewDomainRegexItem (ho_DomainRegex o)));
  mkBlock (nonempty (ho_SourceIPCIDR o)) GSourceAddress
    (with_cause "source_ip_cidr" (IIPCIDR <$> NewIPCIDRItem true (ho_SourceIPCIDR o)));
  mkBlock (negb (nonempty (ho_SourceIPCIDR o)) && negb (is_none (ho_SourceIPSet o))) GSourceAddress
    (match ho_SourceIPSet o with Some s => Ok (IIPCIDR (NewRawIPCIDRItem true s)) | None => Panic "nil" end);
  mkBlock (nonempty (ho_IPCIDR o)) GDestinationIPCIDR
    (with_cause "ipcidr" (IIPCIDR <$> NewIPCIDRItem false (ho_IPCIDR o)));
  mkBlock (negb (nonempty (ho_IPCIDR o)) && negb (is_none (ho_IPSet o))) GDestinationIPCIDR
    (match ho_IPSet o with Some s => Ok (IIPCIDR (NewRawIPCIDRItem false s)) | None => Panic "nil" end);
  mkBlock (nonempty (ho_SourcePort o)) GSourcePort (Ok (IPort (NewPortItem true (ho_SourcePort o))));
  mkBlock (nonempty (ho_SourcePortRange o)) GSourcePort
    (with_cause "source_port_range" (IPortRange <$> NewPortRangeItem true (ho_SourcePortRange o)));
  mkBlock (nonempty (ho_Port o)) GDestinationPort (Ok (IPort (NewPortItem false (ho_Port o))));
  mkBlock (nonempty (ho_PortRange o)) GDestinationPort
    (with_cause "port_range" (IPortRange <$> NewPortRangeItem false (ho_PortRange o)));
  mkBlock (nonempty (ho_TunnelSource o)) GItems (Ok (ITunnelSource (NewTunnelSourceItem (ho_TunnelSource o))));
  mkBlock (nonempty (ho_TunnelDestination o)) GItems
    (Ok (ITunnelDestination (NewTunnelDestinationItem (ho_TunnelDestination o))));
  mkBlock (nonempty (ho_ProcessName o)) GItems (Ok (IProcess (NewProcessItem (ho_ProcessName o))));
  mkBlock (nonempty (ho_ProcessPath o)) GItems (Ok (IProcessPath (NewProcessPathItem (ho_ProcessPath o))));
  mkBlock (nonempty (ho_ProcessPathRegex o)) GItems
    (with_cause "process_path_regex" (IProcessPathRegex <$> NewProcessPathRegexItem (ho_ProcessPathRegex o)));
  mkBlock (nonempty (ho_PackageName o)) GItems (Ok (IPackageName (NewPackageNameItem (ho_PackageName o))))
].

(** [a != nil && a.Size() > 0]. *)
Definition map_present {A} (o : option (list A)) : bool := nonempty (default [] o).

(** [NewDefaultHeadlessRule], conditions on the environment; those that need the network manager
    are skipped without one ([nm]). *)
Definition headless_blocks_env (nm : bool) (o : opt_DefaultHeadlessRule) : list (block BaseItem) := [
  mkBlock (nm && nonempty (ho_NetworkType o)) GItems (Ok (INetworkType (NewNetworkTypeItem (ho_NetworkType o))));
  mkBlock (nm && ho_NetworkIsExpensive o) GItems (Ok INetworkIsExpensive);
  mkBlock (nm && ho_NetworkIsConstrained o) GItems (Ok INetworkIsConstrained);
  mkBlock (nm && nonempty (ho_WIFISSID o)) GItems (Ok (IWIFISSID (NewWIFISSIDItem (ho_WIFISSID o))));
  mkBlock (nm && nonempty (ho_WIFIBSSID o)) GItems (Ok (IWIFIBSSID (NewWIFIBSSIDItem (ho_WIFIBSSID o))));
  mkBlock (nm && map_present (ho_NetworkInterfaceAddress o)) GItems
    (Ok (INetworkInterfaceAddress (NewNetworkInterfaceAddressItem (default [] (ho_NetworkInterfaceAddress o)))));
  mkBlock (nm && nonempty (ho_DefaultInterfaceAddress o)) GItems
    (Ok (IDefaultInterfaceAddress (NewDefaultInterfaceAddressItem (ho_DefaultInterfaceAddress o))));
  mkBlock (nonempty (ho_AdGuardDomain o)) GDestinationAddress
    (Ok (IAdGuardDomain (NewAdGuardDomainItem (ho_AdGuardDomain o))));
  mkBlock (negb (nonempty (ho_AdGuardDomain o)) && negb (is_none (ho_AdGuardDomainMatcher o))) GDestinationAddress
    (match ho_AdGuardDomainMatcher o with
     | Some m => Ok (IAdGuardDomain (NewRawAdGuardDomainItem m)) | None => Panic "nil" end)
].

Definition NewDefaultHeadlessRule (nm : bool) (o : opt_DefaultHeadlessRule)
  : result (abstractDefaultRule BaseItem unit) :=
  run_blocks (headless_blocks_conn o ++ headless_blocks_env nm o)%list (rule_init (ho_Invert o) tt).

(** ** Route rules *)

Definition err_geosite : error :=
  ENew "geosite database is deprecated in sing-box 1.8.0 and removed in sing-box 1.12.0".
Definition err_geoip : error :=
  ENew "geoip database is deprecated in sing-box 1.8.0 and removed in sing-box 1.12.0".
Definition new_ip_version (v : Z) : result BaseItem :=
  if (v =? 4)%Z || (v =? 6)%Z then Ok (IIPVersion (NewIPVersionItem (v =? 6)%Z))
  else Err (ENew ("invalid ip version: " +:+ format_int v)).

(** [NewDefaultRule]: inbound, network, user, protocol and domain conditions. *)
Definition route_blocks_domain (o : opt_RawDefaultRule) : list (block BaseItem) := [
  mkBlock (nonempty (ro_Inbound o)) GItems (Ok (IInbound (NewInboundRule (ro_Inbound o))));
  mkBlock (0 <? ro_IPVersion o)%Z GItems (new_ip_version (ro_IPVersion o));
  mkBlock (nonempty (ro_Network o)) GItems (Ok (INetwork (NewNetworkItem (ro_Network o))));
  mkBlock (nonempty (ro_AuthUser o)) GItems (Ok (IAuthUser (NewAuthUserItem (ro_AuthUser o))));
  mkBlock (nonempty (ro_Protocol o)) GItems (Ok (IProtocol (NewProtocolItem (ro_Protocol o))));
  mkBlock (nonempty (ro_Client o)) GItems (Ok (IClient (NewClientItem (ro_Client o))));
  mkBlock (nonempty (ro_Domain o) || nonempty (ro_DomainSuffix o)) GDestinationAddress
    (IDomain <$> NewDomainItem (ro_Domain o) (ro_DomainSuffix o));
  mkBlock (nonempty (ro_DomainKeyword o)) GDestinationAddress
    (Ok (IDomainKeyword (NewDomainKeywordItem (ro_DomainKeyword o))));
  mkBlock (nonempty (ro_DomainRegex o)) GDestinationAddress
    (IDomainRegex <$> NewDomainRegexItem (ro_DomainRegex o));
  mkBlock (nonempty (ro_Geosite o)) GItems (Err err_geosite);
  mkBlock (nonempty (ro_SourceGeoIP o)) GItems (Err err_geoip);
  mkBlock (nonempty (ro_GeoIP o)) GItems (Err err_geoip)
].

(** [NewDefaultRule]: addresses, ports, tunnels, processes and users. *)
Definition route_blocks_conn (o : opt_RawDefaultRule) : list (block BaseItem) := [
  mkBlock (nonempty (ro_SourceIPCIDR o)) GSourceAddress
    (with_cause "source_ip_cidr" (IIPCIDR <$> NewIPCIDRItem true (ro_SourceIPCIDR o)));
  mkBlock (ro_SourceIPIsPrivate o) GSourceAddress (Ok (IIPIsPrivate (NewIPIsPrivateItem true)));
  mkBlock (nonempty (ro_IPCIDR o)) GDestinationIPCIDR
    (with_cause "ipcidr" (IIPCIDR <$> NewIPCIDRItem false (ro_IPCIDR o)));
  mkBlock (ro_IPIsPrivate o) GDestinationIPCIDR (Ok (IIPIsPrivate (NewIPIsPrivateItem false)));
  mkBlock (nonempty (ro_SourcePort o)) GSourcePort (Ok (IPort (NewPortItem true (ro_SourcePort o))));
  mkBlock (nonempty (ro_SourcePortRange o)) GSourcePort
    (with_cause "source_port_range" (IPortRange <$> NewPortRangeItem true (ro_SourcePortRange o)));
  mkBlock (nonempty (ro_Port o)) GDestinationPort (Ok (IPort (NewPortItem false (ro_Port o))));
  mkBlock (nonempty (ro_PortRange o)) GDestinationPort
    (with_cause "port_range" (IPortRange <$> NewPortRangeItem false (ro_PortRange o)));
  mkBlock (nonempty (ro_TunnelSource o)) GItems (Ok (ITunnelSource (NewTunnelSourceItem (ro_TunnelSource o))));
  mkBlock (nonempty (ro_TunnelDestination o)) GItems
    (Ok (ITunnelDestination (NewTunnelDestinationItem (ro_TunnelDestination o))));
  mkBlock (nonempty (ro_ProcessName o)) GItems (Ok (IProcess (NewProcessItem (ro_ProcessName o))));
  mkBlock (nonempty (ro_ProcessPath o)) GItems (Ok (IProcessPath (NewProcessPathItem (ro_ProcessPath o))));
  mkBlock (nonempty (ro_ProcessPathRegex o)) GItems
    (with_cause "process_path_regex" (IProcessPathRegex <$> NewProcessPathRegexItem (ro_ProcessPathRegex o)));
  mkBlock (nonempty (ro_PackageName o)) GItems (Ok (IPackageName (NewPackageNameItem (ro_PackageName o))));
  mkBlock (nonempty (ro_User o)) GItems (Ok (IUser (NewUserItem (ro_User o))));
  mkBlock (nonempty (ro_UserID o)) GItems (Ok (IUserId (NewUserIDItem (ro_UserID o))))
].

(** [NewDefaultRule]: the environment and preferred outbounds. *)
Definition route_blocks_env (o : opt_RawDefaultRule) : list (block BaseItem) := [
  mkBlock (negb (str_empty (ro_ClashMode o))) GItems (Ok (IClashMode (NewClashModeItem (ro_ClashMode o))));
  mkBlock (nonempty (ro_NetworkType o)) GItems (Ok (INetworkType (NewNetworkTypeItem (ro_NetworkType o))));
  mkBlock (ro_NetworkIsExpensive o) GItems (Ok INetworkIsExpensive);
  mkBlock (ro_NetworkIsConstrained o) GItems (Ok INetworkIsConstrained);
  mkBlock (nonempty (ro_WIFISSID o)) GItems (Ok (IWIFISSID (NewWIFISSIDItem (ro_WIFISSID o))));
  mkBlock (nonempty (ro_WIFIBSSID o)) GItems (Ok (IWIFIBSSID (NewWIFIBSSIDItem (ro_WIFIBSSID o))));
  mkBlock (map_present (ro_InterfaceAddress o)) GItems
    (Ok (IInterfaceAddress (NewInterfaceAddressItem (default [] (ro_InterfaceAddress o)))));
  mkBlock (map_present (ro_NetworkInterfaceAddress o)) GItems
    (Ok (INetworkInterfaceAddress (NewNetworkInterfaceAddressItem (default [] (ro_NetworkInterfaceAddress o)))));
  mkBlock (nonempty (ro_DefaultInterfaceAddress o)) GItems
    (Ok (IDefaultInterfaceAddress (NewDefaultInterfaceAddressItem (ro_DefaultInterfaceAddress o))));
  mkBlock (nonempty (ro_PreferredBy o)) GItems (Ok (IPreferredBy (NewPreferredByItem (ro_PreferredBy o))))
].

Definition lift_block (b : block BaseItem) : block RuleItem :=
  mkBlock (blk_cond b) (blk_group b) (ItemBase <$> blk_item b).

(** [NewDefaultRule]: the rule-set condition. *)
Definition route_block_rule_set (o : opt_RawDefaultRule) : block RuleItem :=
  mkBlock (nonempty (ro_RuleSet o)) GItems
    (Ok (ItemRuleSet (NewRuleSetItem (ro_RuleSet o)
      (ro_RuleSetIPCIDRMatchSource o || ro_Deprecated_RulesetIPCIDRMatchSource o) false))).

Definition route_blocks (o : opt_RawDefaultRule) : list (block RuleItem) :=
  (map lift_block (route_blocks_domain o ++ route_blocks_conn o ++ route_blocks_env o)
   ++ [route_block_rule_set o])%list.

(** [directDialer]: see [NewRuleAction]. *)
Definition NewDefaultRule (directDialer : result unit) (o : opt_DefaultRule)
  : result (abstractDefaultRule RuleItem (option RuleAction)) :=
  let! act := with_cause "action" (NewRuleAction directDialer (dr_Action o)) in
  run_blocks (route_blocks (dr_Raw o)) (rule_init (ro_Invert (dr_Raw o)) act).

(** ** DNS rules *)

(** [NewDefaultDNSRule]: inbound, query, network, user, protocol and domain conditions. *)
Definition dns_blocks_domain (o : opt_RawDefaultDNSRule) : list (block BaseItem) := [
  mkBlock (nonempty (dn_Inbound o)) GItems (Ok (IInbound (NewInboundRule (dn_Inbound o))));
  mkBlock (0 <? dn_IPVersion o)%Z GItems (new_ip_version (dn_IPVersion o));
  mkBlock (nonempty (dn_QueryType o)) GItems (Ok (IQueryType (NewQueryTypeItem (dn_QueryType o))));
  mkBlock (nonempty (dn_Network o)) GItems (Ok (INetwork (NewNetworkItem (dn_Network o))));
  mkBlock (nonempty (dn_AuthUser o)) GItems (Ok (IAuthUser (NewAuthUserItem (dn_AuthUser o))));
  mkBlock (nonempty (dn_Protocol o)) GItems (Ok (IProtocol (NewProtocolItem (dn_Protocol o))));
  mkBlock (nonempty (dn_Domain o) || nonempty (dn_DomainSuffix o)) GDestinationAddress
    (IDomain <$> NewDomainItem (dn_Domain o) (dn_DomainSuffix o));
  mkBlock (nonempty (dn_DomainKeyword o)) GDestinationAddress
    (Ok (IDomainKeyword (NewDomainKeywordItem (dn_DomainKeyword o))));
  mkBlock (nonempty (dn_DomainRegex o)) GDestinationAddress
    (with_cause "domain_regex" (IDomainRegex <$> NewDomainRegexItem (dn_DomainRegex o)));
  mkBlock (nonempty (dn_Geosite o)) GItems (Err err_geosite);
  mkBlock (nonempty (dn_SourceGeoIP o)) GItems (Err err_geoip);
  mkBlock (nonempty (dn_GeoIP o)) GItems (Err err_geoip)
].

(** [NewDefaultDNSRule]: addresses, ports, tunnels, processes and users. *)
Definition dns_blocks_conn (o : opt_RawDefaultDNSRule) : list (block BaseItem) := [
  mkBlock (nonempty (dn_SourceIPCIDR o)) GSourceAddress
    (with_cause "source_ip_cidr" (IIPCIDR <$> NewIPCIDRItem true (dn_SourceIPCIDR o)));
  mkBlock (nonempty (dn_IPCIDR o)) GDestinationIPCIDR
    (with_cause "ip_cidr" (IIPCIDR <$> NewIPCIDRItem false (dn_IPCIDR o)));
  mkBlock (dn_SourceIPIsPrivate o) GSourceAddress (Ok (IIPIsPrivate (NewIPIsPrivateItem true)));
  mkBlock (dn_IPIsPrivate o) GDestinationIPCIDR (Ok (IIPIsPrivate (NewIPIsPrivateItem false)));
  mkBlock (dn_IPAcceptAny o) GDestinationIPCIDR (Ok IIPAcceptAny);
  mkBlock (nonempty (dn_SourcePort o)) GSourcePort (Ok (IPort (NewPortItem true (dn_SourcePort o))));
  mkBlock (nonempty (dn_SourcePortRange o)) GSourcePort
    (with_cause "source_port_range" (IPortRange <$> NewPortRangeItem true (dn_SourcePortRange o)));
  mkBlock (nonempty (dn_Port o)) GDestinationPort (Ok (IPort (NewPortItem false (dn_Port o))));
  mkBlock (nonempty (dn_PortRange o)) GDestinationPort
    (with_cause "port_range" (IPortRange <$> NewPortRangeItem false (dn_PortRange o)));
  mkBlock (nonempty (dn_TunnelSource o)) GItems (Ok (ITunnelSource (NewTunnelSourceItem (dn_TunnelSource o))));
  mkBlock (nonempty (dn_TunnelDestination o)) GItems
    (Ok (ITunnelDestination (NewTunnelDestinationItem (dn_TunnelDestination o))));
  mkBlock (nonempty (dn_ProcessName o)) GItems (Ok (IProcess (NewProcessItem (dn_ProcessName o))));
  mkBlock (nonempty (dn_ProcessPath o)) GItems (Ok (IProcessPath (NewProcessPathItem (dn_ProcessPath o))));
  mkBlock (nonempty (dn_ProcessPathRegex o)) GItems
    (with_cause "process_path_regex" (IProcessPathRegex <$> NewProcessPathRegexItem (dn_ProcessPathRegex o)));
  mkBlock (nonempty (dn_PackageName o)) GItems (Ok (IPackageName (NewPackageNameItem (dn_PackageName o))));
  mkBlock (nonempty (dn_User o)) GItems (Ok (IUser (NewUserItem (dn_User o))));
  mkBlock (nonempty (dn_UserID o)) GItems (Ok (IUserId (NewUserIDItem (dn_UserID o))))
].

(** [NewDefaultDNSRule]: outbound and environment. *)
Definition dns_blocks_env (o : opt_RawDefaultDNSRule) : list (block BaseItem) := [
  mkBlock (nonempty (dn_Outbound o)) GItems (Ok (IOutbound (NewOutboundRule (dn_Outbound o))));
  mkBlock (negb (str_empty (dn_ClashMode o))) GItems (Ok (IClashMode (NewClashModeItem (dn_ClashMode o))));
  mkBlock (nonempty (dn_NetworkType o)) GItems (Ok (INetworkType (NewNetworkTypeItem (dn_NetworkType o))));
  mkBlock (dn_NetworkIsExpensive o) GItems (Ok INetworkIsExpensive);
  mkBlock (dn_NetworkIsConstrained o) GItems (Ok INetworkIsConstrained);
  mkBlock (nonempty (dn_WIFISSID o)) GItems (Ok (IWIFISSID (NewWIFISSIDItem (dn_WIFISSID o))));
  mkBlock (nonempty (dn_WIFIBSSID o)) GItems (Ok (IWIFIBSSID (NewWIFIBSSIDItem (dn_WIFIBSSID o))));
  mkBlock (map_present (dn_InterfaceAddress o)) GItems
    (Ok (IInterfaceAddress (NewInterfaceAddressItem (default [] (dn_InterfaceAddress o)))));
  mkBlock (map_present (dn_NetworkInterfaceAddress o)) GItems
    (Ok (INetworkInterfaceAddress (NewNetworkInterfaceAddressItem (default [] (dn_NetworkInterfaceAddress o)))));
  mkBlock (nonempty (dn_DefaultInterfaceAddress o)) GItems
    (Ok (IDefaultInterfaceAddress (NewDefaultInterfaceAddressItem (dn_DefaultInterfaceAddress o))))
].

(** [NewDefaultDNSRule]: the rule-set condition. *)
Definition dns_block_rule_set (o : opt_RawDefaultDNSRule) : block RuleItem :=
  mkBlock (nonempty (dn_RuleSet o)) GItems
    (Ok (ItemRuleSet (NewRuleSetItem (dn_RuleSet o)
      (dn_RuleSetIPCIDRMatchSource o || dn_Deprecated_RulesetIPCIDRMatchSource o)
      (dn_RuleSetIPCIDRAcceptEmpty o)))).

Definition dns_blocks (o : opt_RawDefaultDNSRule) : list (block RuleItem) :=
  (map lift_block (dns_blocks_domain o ++ dns_blocks_conn o ++ dns_blocks_env o)
   ++ [dns_block_rule_set o])%list.

Definition NewDefaultDNSRule (o : opt_DefaultDNSRule)
  : result (abstractDefaultRule RuleItem (option RuleAction)) :=
  let! act := NewDNSRuleAction (dd_Action o) in
  run_blocks (dns_blocks (dd_Raw o)) (rule_init (dn_Invert (dd_Raw o)) act).
End Rules.

