(* ===== verification/RuleSet.v ===== *)
(** * RuleSet: headless rules and rule-sets

    Headless rules (route/rule/rule_headless.go), the local and the remote rule-set
    (rule_set.go, rule_set_local.go, rule_set_remote.go) and the interface they implement
    ([adapter.RuleSet], a type class here), and the rule-set item of route and DNS rules
    (rule_item_rule_set.go).

    A rule-set object is shared between the router, the rules that refer to it and its update
    loop.  The router owns them in a store [gmap string T]; a rule-set item keeps tags and
    looks the object up when it matches, which is how the pointer behaves. *)

From S2P Require Import Prelude GoStd NetIP Metadata RuleItems RuleMatch RuleAction RuleOptions RuleBuild.
Open Scope string_scope.

(** ** Logical rules, over the kind of sub-rule *)

(** The loop over the sub-rules of the [NewLogical...Rule] functions. *)
Fixpoint new_sub_rules {O R : Type} (new : O -> result R) (i : N) (l : list O) : result (list R) :=
  match l with
  | [] => Ok []
  | o :: l' =>
      let! r := with_cause ("sub rule[" +:+ format_uint i +:+ "]") (new o) in
      let! rs := new_sub_rules new (i + 1) l' in
      Ok (r :: rs)
  end.
(** The check of the mode and the loop, common to the three constructors. *)
Definition new_logical {O R Action : Type} (new : O -> result R) (act : Action) (o : opt_Logical O)
  : result (abstractLogicalRule R Action) :=
  if bool_decide (lo_Mode o = LogicalTypeAnd) || bool_decide (lo_Mode o = LogicalTypeOr) then
    let! rs := new_sub_rules new 0 (lo_Rules o) in
    Ok (mkLogicalRule rs (lo_Mode o) (lo_Invert o) act)
  else Err (ENew ("unknown logical mode: " +:+ lo_Mode o)).

Section RuleSets.
Context {X : Externals}.

(** ** Headless rules *)

Inductive HeadlessRule : Type :=
| DefaultHeadlessRule (r : abstractDefaultRule BaseItem unit)
| LogicalHeadlessRule (r : abstractLogicalRule HeadlessRule unit).

(** [BaseItem]s read the metadata and do not write it. *)
Definition BaseItem_matcher (w : World) (i : BaseItem) : matcher := fun m => (BaseItem_Match w i m, m).

Fixpoint HeadlessRule_Match (w : World) (r : HeadlessRule) : matcher :=
  match r with
  | DefaultHeadlessRule r => abstractDefaultRule_Match (BaseItem_matcher w) no_rule_set r
  | LogicalHeadlessRule r => abstractLogicalRule_Match (HeadlessRule_Match w) r
  end.

Fixpoint HeadlessRule_String (r : HeadlessRule) : string :=
  match r with
  | DefaultHeadlessRule r => abstractDefaultRule_String BaseItem_String r
  | LogicalHeadlessRule r => abstractLogicalRule_String HeadlessRule_String r
  end.

Definition err_missing : error := ENew "missing conditions".

(** [NewHeadlessRule] and [NewLogicalHeadlessRule]; [nm]: a network manager is registered. *)
Fixpoint NewHeadlessRule (nm : bool) (o : opt_HeadlessRule) : result HeadlessRule :=
  match o with
  | mkOptHeadlessRule ty d l =>
      if str_empty ty || bool_decide (ty = RuleTypeDefault) then
        if opt_DefaultHeadlessRule_IsValid d then DefaultHeadlessRule <$> NewDefaultHeadlessRule nm d
        else Err err_missing
      else if bool_decide (ty = RuleTypeLogical) then
        opt_Logical_IsValid opt_HeadlessRule_IsValid l ≫= fun valid : bool =>
        if valid then LogicalHeadlessRule <$> new_logical (NewHeadlessRule nm) tt l
        else Err err_missing
      else Err (ENew ("unknown rule type: " +:+ ty))
  end.

(** ** What the rules of a set contain *)

(** [HasHeadlessRule]; rules of the empty type are passed over. *)
Fixpoint has_headless_rule (cond : opt_DefaultHeadlessRule -> bool) (o : opt_HeadlessRule) : bool :=
  match o with
  | mkOptHeadlessRule ty d l =>
      if bool_decide (ty = RuleTypeDefault) then cond d
      else if bool_decide (ty = RuleTypeLogical) then existsb (has_headless_rule cond) (lo_Rules l)
      else false
  end.
Definition HasHeadlessRule (rules : list opt_HeadlessRule) (cond : opt_DefaultHeadlessRule -> bool) : bool :=
  existsb (has_headless_rule cond) rules.

Definition isProcessHeadlessRule (o : opt_DefaultHeadlessRule) : bool :=
  nonempty (ho_ProcessName o) || nonempty (ho_ProcessPath o) || nonempty (ho_ProcessPathRegex o)
  || nonempty (ho_PackageName o).
Definition isWIFIHeadlessRule (o : opt_DefaultHeadlessRule) : bool :=
  nonempty (ho_WIFISSID o) || nonempty (ho_WIFIBSSID o).
Definition isIPCIDRHeadlessRule (o : opt_DefaultHeadlessRule) : bool :=
  nonempty (ho_IPCIDR o) || negb (is_none (ho_IPSet o)).

(** [extractIPSetFromRule]. *)
Fixpoint extractIPSetFromRule (r : HeadlessRule) : list IPSet :=
  match r with
  | DefaultHeadlessRule r =>
      flat_map (fun i => match i with IIPCIDR c => [ci_ipSet c] | _ => [] end) (destinationIPCIDRItems r)
  | LogicalHeadlessRule r => flat_map extractIPSetFromRule (lr_rules r)
  end.

(** [adapter.RuleSetMetadata]. *)
Record RuleSetMetadata : Type := mkRuleSetMetadata {
  ContainsProcessRule : bool;
  ContainsWIFIRule : bool;
  ContainsIPCIDRRule : bool
}.
Definition metadata_of (rules : list opt_HeadlessRule) : RuleSetMetadata :=
  mkRuleSetMetadata (HasHeadlessRule rules isProcessHeadlessRule)
    (HasHeadlessRule rules isWIFIHeadlessRule) (HasHeadlessRule rules isIPCIDRHeadlessRule).

(** The parse loop of [reloadRules] and [loadBytes]. *)
Fixpoint new_headless_rules (nm : bool) (i : N) (l : list opt_HeadlessRule) : result (list HeadlessRule) :=
  match l with
  | [] => Ok []
  | o :: l' =>
      let! r := with_cause ("parse rule_set.rules.[" +:+ format_uint i +:+ "]") (NewHeadlessRule nm o) in
      let! rs := new_headless_rules nm (i + 1) l' in
      Ok (r :: rs)
  end.

(** [Match] of both rule-sets: the first rule that matches.  The rule cache is not reset
    between the rules. *)
Fixpoint rules_Match (w : World) (rules : list HeadlessRule) (m : InboundContext) : bool * InboundContext :=
  match rules with
  | [] => (false, m)
  | r :: l => let '(b, m) := HeadlessRule_Match w r m in if b then (true, m) else rules_Match w l m
  end.

(** ** The contents of a rule-set file *)

(** [option.PlainRuleSetCompat], decoded. *)
Record PlainRuleSetCompat : Type := mkPlainRuleSetCompat {
  prc_Version : N; prc_Rules : list opt_HeadlessRule }.
(** [PlainRuleSetCompat.Upgrade]. *)
Definition PlainRuleSetCompat_Upgrade (r : PlainRuleSetCompat) : result (list opt_HeadlessRule) :=
  if (1 <=? prc_Version r)%N && (prc_Version r <=? 4)%N then Ok (prc_Rules r)
  else Err (ENew ("unknown rule-set version: " +:+ format_uint (prc_Version r))).

(** The decoders: [json.UnmarshalExtended[PlainRuleSetCompat]] and [srs.Read]. *)
Record Decoders : Type := mkDecoders {
  dec_json : string -> result PlainRuleSetCompat;
  dec_srs : string -> result PlainRuleSetCompat
}.
Variable dec : Decoders.

(** ** Local rule-sets *)

(** [int32] wrap-around of [atomic.Int32.Add]. *)
Definition wrap_int32 (z : Z) : Z := ((z + 2 ^ 31) mod 2 ^ 32 - 2 ^ 31)%Z.

(** [callbacks]: the registered elements, by number; [nextCallback] numbers the next one. *)
Record LocalRuleSet : Type := mkLocalRuleSet {
  ls_tag : string;
  ls_rules : list HeadlessRule;
  ls_metadata : RuleSetMetadata;
  ls_fileFormat : string;
  ls_watching : bool;
  ls_callbacks : list N;
  ls_nextCallback : N;
  ls_refs : Z
}.
Definition ls_set_rules (rules : list HeadlessRule) (s : LocalRuleSet) : LocalRuleSet :=
  mkLocalRuleSet (ls_tag s) rules (ls_metadata s) (ls_fileFormat s) (ls_watching s) (ls_callbacks s)
    (ls_nextCallback s) (ls_refs s).
Definition ls_set_refs (n : Z) (s : LocalRuleSet) : LocalRuleSet :=
  mkLocalRuleSet (ls_tag s) (ls_rules s) (ls_metadata s) (ls_fileFormat s) (ls_watching s) (ls_callbacks s)
    (ls_nextCallback s) n.

(** [reloadRules]: the new state and the callbacks that are called with it. *)
Definition LocalRuleSet_reloadRules (nm : bool) (headlessRules : list opt_HeadlessRule) (s : LocalRuleSet)
  : result (LocalRuleSet * list N) :=
  let! rules := new_headless_rules nm 0 headlessRules in
  let s' := mkLocalRuleSet (ls_tag s) rules (metadata_of headlessRules) (ls_fileFormat s) (ls_watching s)
    (ls_callbacks s) (ls_nextCallback s) (ls_refs s) in
  Ok (s', ls_callbacks s).

Definition RuleSetFormatSource : string := "source".
Definition RuleSetFormatBinary : string := "binary".

(** [reloadFile]; [file] is what reading the file gives. *)
Definition LocalRuleSet_reloadFile (nm : bool) (file : result string) (s : LocalRuleSet)
  : result (LocalRuleSet * list N) :=
  let! ruleSet :=
    if bool_decide (ls_fileFormat s = RuleSetFormatSource) || str_empty (ls_fileFormat s) then
      let! content := file in dec_json dec content
    else if bool_decide (ls_fileFormat s = RuleSetFormatBinary) then
      let! content := file in dec_srs dec content
    else Err (ENew ("unknown rule-set format: " +:+ ls_fileFormat s)) in
  let! plain := PlainRuleSetCompat_Upgrade ruleSet in
  LocalRuleSet_reloadRules nm plain s.

Definition LocalRuleSet_Name (s : LocalRuleSet) : string := ls_tag s.
Definition LocalRuleSet_String (s : LocalRuleSet) : string :=
  str_join (map HeadlessRule_String (ls_rules s)) " ".
Definition LocalRuleSet_ExtractIPSet (s : LocalRuleSet) : list IPSet :=
  flat_map extractIPSetFromRule (ls_rules s).
Definition LocalRuleSet_IncRef (s : LocalRuleSet) : LocalRuleSet :=
  ls_set_refs (wrap_int32 (ls_refs s + 1)) s.
Definition LocalRuleSet_DecRef (s : LocalRuleSet) : result LocalRuleSet :=
  let refs := wrap_int32 (ls_refs s - 1) in
  if (refs <? 0)%Z then Panic "rule-set: negative refs" else Ok (ls_set_refs refs s).
Definition LocalRuleSet_Cleanup (s : LocalRuleSet) : LocalRuleSet :=
  if (ls_refs s =? 0)%Z then ls_set_rules [] s else s.
Definition LocalRuleSet_RegisterCallback (s : LocalRuleSet) : N * LocalRuleSet :=
  (ls_nextCallback s,
   mkLocalRuleSet (ls_tag s) (ls_rules s) (ls_metadata s) (ls_fileFormat s) (ls_watching s)
     (ls_callbacks s ++ [ls_nextCallback s])%list (ls_nextCallback s + 1) (ls_refs s)).
Definition LocalRuleSet_UnregisterCallback (element : N) (s : LocalRuleSet) : LocalRuleSet :=
  mkLocalRuleSet (ls_tag s) (ls_rules s) (ls_metadata s) (ls_fileFormat s) (ls_watching s)
    (List.filter (fun c => negb (c =? element)%N) (ls_callbacks s)) (ls_nextCallback s) (ls_refs s).
(** [Close]; closing the watcher is the watcher's. *)
Definition LocalRuleSet_Close (s : LocalRuleSet) : LocalRuleSet := ls_set_rules [] s.
Definition LocalRuleSet_Match (w : World) (s : LocalRuleSet) : matcher := rules_Match w (ls_rules s).

(** [option.RuleSet]. *)
Record opt_RuleSet : Type := mkOptRuleSet {
  os_Type : string;
  os_Tag : string;
  os_Format : string;
  os_InlineRules : list opt_HeadlessRule;
  os_LocalPath : string;
  os_URL : string;
  os_DownloadDetour : string;
  os_UpdateInterval : Z
}.
Definition RuleSetTypeInline : string := "inline".
Definition RuleSetTypeLocal : string := "local".
Definition RuleSetTypeRemote : string := "remote".

(** [NewLocalRuleSet]; [file] is the content of the file at the (absolute) path, [watcher] what
    [fswatch.NewWatcher] returns. *)
Definition NewLocalRuleSet (nm : bool) (file : string -> result string) (watcher : result unit)
  (o : opt_RuleSet) : result LocalRuleSet :=
  let ruleSet := mkLocalRuleSet (os_Tag o) [] (mkRuleSetMetadata false false false) (os_Format o) false [] 0 0 in
  if bool_decide (os_Type o = RuleSetTypeInline) then
    if negb (nonempty (os_InlineRules o)) then Err (ENew "empty inline rule-set")
    else let! (s, _) := LocalRuleSet_reloadRules nm (os_InlineRules o) ruleSet in Ok s
  else
    let! (s, _) := LocalRuleSet_reloadFile nm (file (os_LocalPath o)) ruleSet in
    let! _ := watcher in
    Ok (mkLocalRuleSet (ls_tag s) (ls_rules s) (ls_metadata s) (ls_fileFormat s) true (ls_callbacks s)
      (ls_nextCallback s) (ls_refs s)).

(** ** Remote rule-sets *)

(** [lastUpdated] is [None] for the zero time. *)
Record RemoteRuleSet : Type := mkRemoteRuleSet {
  rr_options : opt_RuleSet;
  rr_updateInterval : Z;
  rr_rules : list HeadlessRule;
  rr_metadata : RuleSetMetadata;
  rr_lastUpdated : option Z;
  rr_lastEtag : string;
  rr_callbacks : list N;
  rr_nextCallback : N;
  rr_refs : Z
}.
Definition rr_set_rules (rules : list HeadlessRule) (s : RemoteRuleSet) : RemoteRuleSet :=
  mkRemoteRuleSet (rr_options s) (rr_updateInterval s) rules (rr_metadata s) (rr_lastUpdated s)
    (rr_lastEtag s) (rr_callbacks s) (rr_nextCallback s) (rr_refs s).
Definition rr_set_refs (n : Z) (s : RemoteRuleSet) : RemoteRuleSet :=
  mkRemoteRuleSet (rr_options s) (rr_updateInterval s) (rr_rules s) (rr_metadata s) (rr_lastUpdated s)
    (rr_lastEtag s) (rr_callbacks s) (rr_nextCallback s) n.
Definition rr_set_updated (updated : option Z) (etag : string) (s : RemoteRuleSet) : RemoteRuleSet :=
  mkRemoteRuleSet (rr_options s) (rr_updateInterval s) (rr_rules s) (rr_metadata s) updated
    etag (rr_callbacks s) (rr_nextCallback s) (rr_refs s).

(** [adapter.SavedBinary], and the rule-set table of the cache file ([None]: no cache file). *)
Record SavedBinary : Type := mkSavedBinary {
  sb_Content : string; sb_LastUpdated : option Z; sb_LastEtag : string }.
Definition SavedSets : Type := option (gmap string SavedBinary).

Definition NewRemoteRuleSet (o : opt_RuleSet) : RemoteRuleSet :=
  mkRemoteRuleSet o (if (0 <? os_UpdateInterval o)%Z then os_UpdateInterval o else 24 * 3600 * 1000000000)%Z
    [] (mkRuleSetMetadata false false false) None "" [] 0 0.

(** [loadBytes]: unlike [reloadFile] it refuses the empty format. *)
Definition RemoteRuleSet_loadBytes (nm : bool) (content : string) (s : RemoteRuleSet)
  : result (RemoteRuleSet * list N) :=
  let! ruleSet :=
    if bool_decide (os_Format (rr_options s) = RuleSetFormatSource) then dec_json dec content
    else if bool_decide (os_Format (rr_options s) = RuleSetFormatBinary) then dec_srs dec content
    else Err (ENew ("unknown rule-set format: " +:+ os_Format (rr_options s))) in
  let! plain := PlainRuleSetCompat_Upgrade ruleSet in
  let! rules := new_headless_rules nm 0 plain in
  Ok (mkRemoteRuleSet (rr_options s) (rr_updateInterval s) rules (metadata_of plain) (rr_lastUpdated s)
        (rr_lastEtag s) (rr_callbacks s) (rr_nextCallback s) (rr_refs s), rr_callbacks s).

(** [StartContext]; [detour] tells whether the download detour is a known outbound. *)
Definition RemoteRuleSet_StartContext (nm : bool) (detour : string -> bool) (cacheFile : SavedSets)
  (s : RemoteRuleSet) : result RemoteRuleSet :=
  if negb (str_empty (os_DownloadDetour (rr_options s))) && negb (detour (os_DownloadDetour (rr_options s)))
  then Err (ENew ("download detour not found: " +:+ os_DownloadDetour (rr_options s)))
  else
    match cacheFile ≫= lookup (os_Tag (rr_options s)) with
    | None => Ok s
    | Some savedSet =>
        let! (s, _) := with_cause "restore cached rule-set" (RemoteRuleSet_loadBytes nm (sb_Content savedSet) s) in
        Ok (rr_set_updated (sb_LastUpdated savedSet) (sb_LastEtag savedSet) s)
    end.

(** What the HTTP request gives: an error, or a response whose body may fail to be read. *)
Inductive http_outcome : Type :=
| HttpFailed (e : error)
| HttpResponse (status : N) (body : result string) (etag : string).

(** [SaveRuleSet]; [saveErr] is the error of the cache file. *)
Definition save_rule_set (tag : string) (b : SavedBinary) (saveErr : option error) (c : SavedSets) : SavedSets :=
  match saveErr with Some _ => c | None => (fun t => <[tag := b]> t) <$> c end.

(** [fetch] at time [now]: the error ([None]: success), the rule-set and the cache afterwards.
    The request carries [rr_lastEtag]; a failed save of the cache is only logged. *)
Definition RemoteRuleSet_fetch (nm : bool) (now : Z) (http : string -> http_outcome) (saveErr : option error)
  (s : RemoteRuleSet) (c : SavedSets) : result (option error * RemoteRuleSet * SavedSets) :=
  match http (rr_lastEtag s) with
  | HttpFailed e => Ok (Some e, s, c)
  | HttpResponse status body etag =>
      if (status =? 304)%N then
        let s := rr_set_updated (Some now) (rr_lastEtag s) s in
        match c ≫= lookup (os_Tag (rr_options s)) with
        | None => Ok (None, s, c)
        | Some saved =>
            Ok (None, s, save_rule_set (os_Tag (rr_options s))
                  (mkSavedBinary (sb_Content saved) (Some now) (sb_LastEtag saved)) saveErr c)
        end
      else if negb (status =? 200)%N then Ok (Some (ENew "unexpected status"), s, c)
      else
        match body with
        | Err e => Ok (Some e, s, c)
        | Panic msg => Panic msg
        | Ok content =>
            match RemoteRuleSet_loadBytes nm content s with
            | Err e => Ok (Some e, s, c)
            | Panic msg => Panic msg
            | Ok (s, _) =>
                let s := rr_set_updated (Some now) (if str_empty etag then rr_lastEtag s else etag) s in
                Ok (None, s, save_rule_set (os_Tag (rr_options s))
                      (mkSavedBinary content (Some now) (rr_lastEtag s)) saveErr c)
            end
        end
  end.

(** [updateOnce]: an unreferenced rule-set drops its rules again. *)
Definition RemoteRuleSet_updateOnce (nm : bool) (now : Z) (http : string -> http_outcome)
  (saveErr : option error) (s : RemoteRuleSet) (c : SavedSets) : result (RemoteRuleSet * SavedSets) :=
  let! (err, s, c) := RemoteRuleSet_fetch nm now http saveErr s c in
  match err with
  | Some _ => Ok (s, c)
  | None => if (rr_refs s =? 0)%Z then Ok (rr_set_rules [] s, c) else Ok (s, c)
  end.

Definition RemoteRuleSet_Name (s : RemoteRuleSet) : string := os_Tag (rr_options s).
Definition RemoteRuleSet_String (s : RemoteRuleSet) : string :=
  str_join (map HeadlessRule_String (rr_rules s)) " ".
Definition RemoteRuleSet_ExtractIPSet (s : RemoteRuleSet) : list IPSet :=
  flat_map extractIPSetFromRule (rr_rules s).
Definition RemoteRuleSet_IncRef (s : RemoteRuleSet) : RemoteRuleSet :=
  rr_set_refs (wrap_int32 (rr_refs s + 1)) s.
Definition RemoteRuleSet_DecRef (s : RemoteRuleSet) : result RemoteRuleSet :=
  let refs := wrap_int32 (rr_refs s - 1) in
  if (refs <? 0)%Z then Panic "rule-set: negative refs" else Ok (rr_set_refs refs s).
Definition RemoteRuleSet_Cleanup (s : RemoteRuleSet) : RemoteRuleSet :=
  if (rr_refs s =? 0)%Z then rr_set_rules [] s else s.
Definition RemoteRuleSet_RegisterCallback (s : RemoteRuleSet) : N * RemoteRuleSet :=
  (rr_nextCallback s,
   mkRemoteRuleSet (rr_options s) (rr_updateInterval s) (rr_rules s) (rr_metadata s) (rr_lastUpdated s)
     (rr_lastEtag s) (rr_callbacks s ++ [rr_nextCallback s])%list (rr_nextCallback s + 1) (rr_refs s)).
Definition RemoteRuleSet_UnregisterCallback (element : N) (s : RemoteRuleSet) : RemoteRuleSet :=
  mkRemoteRuleSet (rr_options s) (rr_updateInterval s) (rr_rules s) (rr_metadata s) (rr_lastUpdated s)
    (rr_lastEtag s) (List.filter (fun c => negb (c =? element)%N) (rr_callbacks s)) (rr_nextCallback s) (rr_refs s).
(** [Close]; it also cancels the context and stops the tickers. *)
Definition RemoteRuleSet_Close (s : RemoteRuleSet) : RemoteRuleSet := rr_set_rules [] s.
Definition RemoteRuleSet_Match (w : World) (s : RemoteRuleSet) : matcher := rules_Match w (rr_rules s).

(** ** The interface *)

(** [adapter.RuleSet], of which a rule-set is one of two kinds. *)
Inductive RuleSet : Type := ALocal (s : LocalRuleSet) | ARemote (s : RemoteRuleSet).

(** [NewRuleSet]. *)
Definition NewRuleSet (nm : bool) (file : string -> result string) (watcher : result unit) (o : opt_RuleSet)
  : result RuleSet :=
  if bool_decide (os_Type o = RuleSetTypeInline) || bool_decide (os_Type o = RuleSetTypeLocal)
     || str_empty (os_Type o)
  then ALocal <$> NewLocalRuleSet nm file watcher o
  else if bool_decide (os_Type o = RuleSetTypeRemote) then Ok (ARemote (NewRemoteRuleSet o))
  else Err (ENew ("unknown rule-set type: " +:+ os_Type o)).
End RuleSets.

(** The part of [adapter.RuleSet] that rules, the router and the network manager use. *)
Class AdapterRuleSet `{X : Externals} (T : Type) : Type := {
  Name : T -> string;
  Metadata : T -> RuleSetMetadata;
  ExtractIPSet : T -> list IPSet;
  IncRef : T -> T;
  DecRef : T -> result T;
  Cleanup : T -> T;
  RegisterCallback : T -> N * T;
  UnregisterCallback : N -> T -> T;
  Close : T -> T;
  Match : World -> T -> matcher
}.

Section Instances.
Context {X : Externals}.

#[export] Instance LocalRuleSet_adapter : AdapterRuleSet LocalRuleSet := {
  Name := LocalRuleSet_Name; Metadata := ls_metadata; ExtractIPSet := LocalRuleSet_ExtractIPSet;
  IncRef := LocalRuleSet_IncRef; DecRef := LocalRuleSet_DecRef; Cleanup := LocalRuleSet_Cleanup;
  RegisterCallback := LocalRuleSet_RegisterCallback;
  UnregisterCallback := LocalRuleSet_UnregisterCallback;
  Close := LocalRuleSet_Close; Match := LocalRuleSet_Match }.

#[export] Instance RemoteRuleSet_adapter : AdapterRuleSet RemoteRuleSet := {
  Name := RemoteRuleSet_Name; Metadata := rr_metadata; ExtractIPSet := RemoteRuleSet_ExtractIPSet;
  IncRef := RemoteRuleSet_IncRef; DecRef := RemoteRuleSet_DecRef; Cleanup := RemoteRuleSet_Cleanup;
  RegisterCallback := RemoteRuleSet_RegisterCallback;
  UnregisterCallback := RemoteRuleSet_UnregisterCallback;
  Close := RemoteRuleSet_Close; Match := RemoteRuleSet_Match }.

#[export] Instance RuleSet_adapter : AdapterRuleSet RuleSet := {
  Name s := match s with ALocal s => Name s | ARemote s => Name s end;
  Metadata s := match s with ALocal s => Metadata s | ARemote s => Metadata s end;
  ExtractIPSet s := match s with ALocal s => ExtractIPSet s | ARemote s => ExtractIPSet s end;
  IncRef s := match s with ALocal s => ALocal (IncRef s) | ARemote s => ARemote (IncRef s) end;
  DecRef s := match s with ALocal s => ALocal <$> DecRef s | ARemote s => ARemote <$> DecRef s end;
  Cleanup s := match s with ALocal s => ALocal (Cleanup s) | ARemote s => ARemote (Cleanup s) end;
  RegisterCallback s := match s with
    | ALocal s => let '(n, s) := RegisterCallback s in (n, ALocal s)
    | ARemote s => let '(n, s) := RegisterCallback s in (n, ARemote s) end;
  UnregisterCallback n s := match s with
    | ALocal s => ALocal (UnregisterCallback n s) | ARemote s => ARemote (UnregisterCallback n s) end;
  Close s := match s with ALocal s => ALocal (Close s) | ARemote s => ARemote (Close s) end;
  Match w s := match s with ALocal s => Match w s | ARemote s => Match w s end }.
End Instances.

(** ** Rule-set items *)

Section RuleSetItems.
Context {X : Externals} {T : Type} {A : AdapterRuleSet T}.

(** [RuleSetItem.Start]: resolves the tags and counts a reference for each; on an unknown tag
    the references already counted stay. *)
Fixpoint start_tags (tags : list string) (setList : list string) (store : gmap string T)
  : result (list string) * gmap string T :=
  match tags with
  | [] => (Ok setList, store)
  | tag :: l =>
      match store !! tag with
      | None => (Err (ENew ("rule-set not found: " +:+ tag)), store)
      | Some ruleSet => start_tags l (setList ++ [tag])%list (<[tag := IncRef ruleSet]> store)
      end
  end.
Definition RuleSetItem_Start (r : RuleSetItem) (store : gmap string T) : result RuleSetItem * gmap string T :=
  let '(res, store) := start_tags (rsi_tagList r) (rsi_setList r) store in
  ((fun l => mkRuleSetItem (rsi_tagList r) l (rsi_ipCidrMatchSource r) (rsi_ipCidrAcceptEmpty r)) <$> res, store).

(** The loop of [RuleSetItem.Match]. *)
Fixpoint sets_Match (w : World) (store : gmap string T) (setList : list string) (m : InboundContext)
  : bool * InboundContext :=
  match setList with
  | [] => (false, m)
  | tag :: l =>
      match store !! tag with
      | None => sets_Match w store l m
      | Some ruleSet =>
          let '(b, m) := Match w ruleSet m in if b then (true, m) else sets_Match w store l m
      end
  end.
Definition RuleSetItem_Match (w : World) (store : gmap string T) (r : RuleSetItem) : matcher := fun m =>
  sets_Match w store (rsi_setList r)
    (upd_cache (set_IPCIDRAcceptEmpty (rsi_ipCidrAcceptEmpty r))
      (upd_cache (set_IPCIDRMatchSource (rsi_ipCidrMatchSource r)) m)).

Definition RuleSetItem_ContainsDestinationIPCIDRRule (store : gmap string T) (r : RuleSetItem) : bool :=
  if rsi_ipCidrMatchSource r then false
  else existsb (fun tag => match store !! tag with
         | Some s => ContainsIPCIDRRule (Metadata s) | None => false end) (rsi_setList r).

(** ** Items of route and DNS rules *)

Definition isRuleSetItem (i : RuleItem) : bool :=
  match i with ItemBase _ => false | ItemRuleSet _ => true end.
Definition RuleItem_Match (w : World) (store : gmap string T) (i : RuleItem) : matcher :=
  match i with
  | ItemBase b => BaseItem_matcher w b
  | ItemRuleSet r => RuleSetItem_Match w store r
  end.
End RuleSetItems.
