(* ===== verification/Rules.v ===== *)
(** * Rules: route rules and DNS rules

    [NewRule]/[NewLogicalRule] (route/rule/rule_default.go), [NewDNSRule]/[NewLogicalDNSRule] and
    the DNS rules' matching (route/rule/rule_dns.go), and the start of rules
    (rule_abstract.go).  The rule-sets are reached through the interface [AdapterRuleSet]. *)

From S2P Require Import Prelude GoStd NetIP Metadata RuleItems RuleMatch RuleAction RuleOptions RuleBuild RuleSet.
Open Scope string_scope.

Section Rules.
Context {X : Externals}.

(** ** Types and constructors *)

Inductive Rule : Type :=
| DefaultRule (r : abstractDefaultRule RuleItem (option RuleAction))
| LogicalRule (r : abstractLogicalRule Rule (option RuleAction)).
Inductive DNSRule : Type :=
| DefaultDNSRule (r : abstractDefaultRule RuleItem (option RuleAction))
| LogicalDNSRule (r : abstractLogicalRule DNSRule (option RuleAction)).

Definition Rule_Action (r : Rule) : option RuleAction :=
  match r with DefaultRule r => action r | LogicalRule r => lr_action r end.
Definition DNSRule_Action (r : DNSRule) : option RuleAction :=
  match r with DefaultDNSRule r => action r | LogicalDNSRule r => lr_action r end.

(** [case "", C.RuleActionTypeRoute]. *)
Definition is_route_action (act : string) : bool :=
  str_empty act || bool_decide (act = RuleActionTypeRoute).

(** [NewRule] and [NewLogicalRule]; sub-rules are built without the outbound check.
    [dialer]: see [NewRuleAction]. *)
Fixpoint NewRule (dialer : result unit) (o : opt_Rule) (checkOutbound : bool) : result Rule :=
  match o with
  | mkOptRule ty d l act =>
      if str_empty ty || bool_decide (ty = RuleTypeDefault) then
        if negb (opt_DefaultRule_IsValid d) then Err err_missing
        else if is_route_action (oact_Action (dr_Action d))
                && str_empty (oa_Outbound (oact_RouteOptions (dr_Action d))) && checkOutbound
        then Err (ENew "missing outbound field")
        else DefaultRule <$> NewDefaultRule dialer d
      else if bool_decide (ty = RuleTypeLogical) then
        opt_Logical_IsValid opt_Rule_IsValid l ≫= fun valid : bool =>
        if negb valid then Err err_missing
        else if is_route_action (oact_Action act)
                && str_empty (oa_Outbound (oact_RouteOptions act)) && checkOutbound
        then Err (ENew "missing outbound field")
        else
          let! a := with_cause "action" (NewRuleAction dialer act) in
          LogicalRule <$> new_logical (fun s => NewRule dialer s false) a l
      else Err (ENew ("unknown rule type: " +:+ ty))
  end.

(** [NewDNSRule] and [NewLogicalDNSRule]. *)
Fixpoint NewDNSRule (o : opt_DNSRule) (checkServer : bool) : result DNSRule :=
  match o with
  | mkOptDNSRule ty d l act =>
      if str_empty ty || bool_decide (ty = RuleTypeDefault) then
        if negb (opt_DefaultDNSRule_IsValid d) then Err err_missing
        else if is_route_action (odact_Action (dd_Action d))
                && str_empty (odr_Server (odact_RouteOptions (dd_Action d))) && checkServer
        then Err (ENew "missing server field")
        else DefaultDNSRule <$> NewDefaultDNSRule d
      else if bool_decide (ty = RuleTypeLogical) then
        opt_Logical_IsValid opt_DNSRule_IsValid l ≫= fun valid : bool =>
        if negb valid then Err err_missing
        else if is_route_action (odact_Action act)
                && str_empty (odr_Server (odact_RouteOptions act)) && checkServer
        then Err (ENew "missing server field")
        else
          let! a := NewDNSRuleAction act in
          LogicalDNSRule <$> new_logical (fun s => NewDNSRule s false) a l
      else Err (ENew ("unknown rule type: " +:+ ty))
  end.

(** ** Start *)

(** What [Start] looks up: the outbounds (their type, and whether they have preferred routes)
    and whether a Clash server is registered. *)
Record StartEnv : Type := mkStartEnv {
  se_Outbound : string -> option (string * bool);
  se_ClashServer : bool
}.

(** [PreferredByItem.Start]: the outbounds found, appended to those the item has. *)
Fixpoint preferred_outbounds (env : StartEnv) (tags acc : list string) : result (list string) :=
  match tags with
  | [] => Ok acc
  | tag :: l =>
      match se_Outbound env tag with
      | None => Err (ENew ("outbound not found: " +:+ tag))
      | Some (ty, false) => Err (ENew ("outbound type does not support preferred routes: " +:+ ty))
      | Some (_, true) => preferred_outbounds env l (acc ++ [tag])%list
      end
  end.
Definition PreferredByItem_Start (env : StartEnv) (r : PreferredByItem) : result PreferredByItem :=
  let! l := preferred_outbounds env (pb_outboundTags r) (pb_outbounds r) in
  Ok (mkPreferredByItem (pb_outboundTags r) l).

Context {T : Type} {A : AdapterRuleSet T}.

(** The items with a [Start] method. *)
Definition RuleItem_Start (env : StartEnv) (i : RuleItem) (store : gmap string T)
  : result RuleItem * gmap string T :=
  match i with
  | ItemBase (IClashMode r) => (Ok (ItemBase (IClashMode (ClashModeItem_Start (se_ClashServer env) r))), store)
  | ItemBase (IPreferredBy r) => ((fun r => ItemBase (IPreferredBy r)) <$> PreferredByItem_Start env r, store)
  | ItemBase _ => (Ok i, store)
  | ItemRuleSet r => let '(res, store) := RuleSetItem_Start r store in (ItemRuleSet <$> res, store)
  end.

(** The loop over a list of items, up to the first error. *)
Fixpoint start_items (env : StartEnv) (l : list RuleItem) (store : gmap string T)
  : result (list RuleItem) * gmap string T :=
  match l with
  | [] => (Ok [], store)
  | i :: l' =>
      match RuleItem_Start env i store with
      | (Ok i', store) =>
          let '(res, store) := start_items env l' store in ((fun l => i' :: l) <$> res, store)
      | (Err e, store) => (Err e, store)
      | (Panic p, store) => (Panic p, store)
      end
  end.

(** The state in which a successful [Start] leaves an item. *)
Definition item_started (env : StartEnv) (i : RuleItem) : RuleItem :=
  match i with
  | ItemBase (IClashMode r) => ItemBase (IClashMode (ClashModeItem_Start (se_ClashServer env) r))
  | ItemBase (IPreferredBy r) =>
      ItemBase (IPreferredBy (mkPreferredByItem (pb_outboundTags r) (pb_outbounds r ++ pb_outboundTags r)%list))
  | ItemBase b => ItemBase b
  | ItemRuleSet r =>
      ItemRuleSet (mkRuleSetItem (rsi_tagList r) (rsi_setList r ++ rsi_tagList r)%list
        (rsi_ipCidrMatchSource r) (rsi_ipCidrAcceptEmpty r))
  end.

(** [abstractDefaultRule.Start] starts the items of [allItems].  The other slices hold the same
    pointers, so the items they hold are started too. *)
Definition abstractDefaultRule_Start {Act} (env : StartEnv) (r : abstractDefaultRule RuleItem Act)
  (store : gmap string T) : result (abstractDefaultRule RuleItem Act) * gmap string T :=
  let '(res, store) := start_items env (allItems r) store in
  ((fun l => mkDefaultRule (map (item_started env) (items r)) (map (item_started env) (sourceAddressItems r))
      (map (item_started env) (sourcePortItems r)) (map (item_started env) (destinationAddressItems r))
      (map (item_started env) (destinationIPCIDRItems r)) (map (item_started env) (destinationPortItems r))
      l (invert r) (action r)) <$> res, store).

(** [abstractLogicalRule.Start]. *)
Fixpoint start_rules {R} (start : R -> gmap string T -> result R * gmap string T) (l : list R)
  (store : gmap string T) : result (list R) * gmap string T :=
  match l with
  | [] => (Ok [], store)
  | r :: l' =>
      match start r store with
      | (Ok r', store) =>
          let '(res, store) := start_rules start l' store in ((fun l => r' :: l) <$> res, store)
      | (Err e, store) => (Err e, store)
      | (Panic p, store) => (Panic p, store)
      end
  end.
Definition abstractLogicalRule_Start {R Act} (start : R -> gmap string T -> result R * gmap string T)
  (r : abstractLogicalRule R Act) (store : gmap string T) : result (abstractLogicalRule R Act) * gmap string T :=
  let '(res, store) := start_rules start (lr_rules r) store in
  ((fun l => mkLogicalRule l (lr_mode r) (lr_invert r) (lr_action r)) <$> res, store).

Fixpoint Rule_Start (env : StartEnv) (r : Rule) (store : gmap string T) : result Rule * gmap string T :=
  match r with
  | DefaultRule r => let '(res, store) := abstractDefaultRule_Start env r store in (DefaultRule <$> res, store)
  | LogicalRule r =>
      let '(res, store) := abstractLogicalRule_Start (Rule_Start env) r store in (LogicalRule <$> res, store)
  end.
Fixpoint DNSRule_Start (env : StartEnv) (r : DNSRule) (store : gmap string T) : result DNSRule * gmap string T :=
  match r with
  | DefaultDNSRule r => let '(res, store) := abstractDefaultRule_Start env r store in (DefaultDNSRule <$> res, store)
  | LogicalDNSRule r =>
      let '(res, store) := abstractLogicalRule_Start (DNSRule_Start env) r store in (LogicalDNSRule <$> res, store)
  end.

(** ** Matching *)

Variable w : World.
Variable store : gmap string T.

(** [abstractDefaultRule.Match] for the items of route and DNS rules. *)
Definition default_Match (r : abstractDefaultRule RuleItem (option RuleAction)) : matcher :=
  abstractDefaultRule_Match (RuleItem_Match w store) isRuleSetItem r.

Fixpoint Rule_Match (r : Rule) : matcher :=
  match r with
  | DefaultRule r => default_Match r
  | LogicalRule r => abstractLogicalRule_Match Rule_Match r
  end.

(** [DefaultDNSRule.Match] (the deferred function runs after the match) and
    [LogicalDNSRule.Match]. *)
Definition DefaultDNSRule_Match (r : abstractDefaultRule RuleItem (option RuleAction)) : matcher := fun m =>
  let '(b, m) := default_Match r (upd_cache (set_IgnoreDestinationIPCIDRMatch true) m) in
  (b, upd_cache (set_IgnoreDestinationIPCIDRMatch false) m).
Fixpoint DNSRule_Match (r : DNSRule) : matcher :=
  match r with
  | DefaultDNSRule r => DefaultDNSRule_Match r
  | LogicalDNSRule r => abstractLogicalRule_Match DNSRule_Match r
  end.
(** [MatchAddressLimit] of both kinds. *)
Fixpoint DNSRule_MatchAddressLimit (r : DNSRule) : matcher :=
  match r with
  | DefaultDNSRule r => default_Match r
  | LogicalDNSRule r => abstractLogicalRule_Match DNSRule_MatchAddressLimit r
  end.

(** [WithAddressLimit] of both kinds. *)
Definition DefaultDNSRule_WithAddressLimit (r : abstractDefaultRule RuleItem (option RuleAction)) : bool :=
  nonempty (destinationIPCIDRItems r) ||
  existsb (fun i => match i with
    | ItemRuleSet s => RuleSetItem_ContainsDestinationIPCIDRRule store s
    | ItemBase _ => false end) (items r).
Fixpoint DNSRule_WithAddressLimit (r : DNSRule) : bool :=
  match r with
  | DefaultDNSRule r => DefaultDNSRule_WithAddressLimit r
  | LogicalDNSRule r => existsb DNSRule_WithAddressLimit (lr_rules r)
  end.

(** [BypassIfFailed] of both kinds. *)
Definition DNSRule_BypassIfFailed (r : DNSRule) : bool :=
  match DNSRule_Action r with
  | Some (ActDNSRoute _ o) => dro_BypassIfFailed o
  | _ => false
  end.
End Rules.
