(* ===== verification/RuleSpec.v ===== *)
(** * RuleSpec: what a default rule means

    The documentation (docs/configuration/route/rule.md, dns/rule.md) describes a default rule by
    its options: conditions on the destination address are alternatives of one another, as are
    conditions on the source address, the source port and the destination port; all other
    conditions have to hold; [invert] negates the result.  Here that description is a table of
    conditions read off the options ([cond]), with [conditions_answer] its meaning, and the
    theorems show that the constructors build, and [Match] decides, exactly that. *)

From S2P Require Import Prelude GoStd NetIP Metadata RuleItems RuleMatch RuleAction RuleOptions RuleBuild RuleSet.
From S2P Require Import Rules.
Open Scope string_scope.

(** ** The meaning of a table of conditions *)

Record cond : Type := mkCond { cd_group : rule_group; cd_present : bool; cd_holds : bool }.

Definition in_groups (gs : list rule_group) (g : rule_group) : bool := bool_decide (g ∈ gs).

(** A group of alternatives: absent, or one of the conditions present holds. *)
Definition one_holds (gs : list rule_group) (l : list cond) : bool :=
  negb (existsb (fun c => in_groups gs (cd_group c) && cd_present c) l)
  || existsb (fun c => in_groups gs (cd_group c) && cd_present c && cd_holds c) l.
(** Conditions that all have to hold. *)
Definition all_hold (l : list cond) : bool :=
  forallb (fun c => negb (in_groups [GItems] (cd_group c) && cd_present c) || cd_holds c) l.

Definition conditions_hold (l : list cond) : bool :=
  all_hold l && one_holds [GSourceAddress] l && one_holds [GSourcePort] l
  && one_holds [GDestinationAddress; GDestinationIPCIDR] l && one_holds [GDestinationPort] l.

(** A rule without conditions matches. *)
Definition conditions_answer (invert : bool) (l : list cond) : bool :=
  if existsb cd_present l then xorb invert (conditions_hold l) else true.

(** The conditions that count while addresses are not known yet. *)
Definition active (ignore : bool) (l : list cond) : list cond :=
  if ignore then List.filter (fun c => negb (in_groups [GDestinationIPCIDR] (cd_group c))) l else l.

(** ** What the constructors build *)

Section BuildSpec.
Context {Item Action : Type}.

(** The items of the enabled blocks, or the first error. *)
Fixpoint picked (l : list (block Item)) : result (list (rule_group * Item)) :=
  match l with
  | [] => Ok []
  | b :: l' =>
      if blk_cond b then
        let! i := blk_item b in let! r := picked l' in Ok ((blk_group b, i) :: r)
      else picked l'
  end.

Definition add_items (its : list (rule_group * Item)) (r : abstractDefaultRule Item Action) :=
  foldl (fun r p => add_item (fst p) (snd p) r) r its.

Lemma run_blocks_picked l : forall r, run_blocks l r = (fun its => add_items its r) <$> picked l.
Proof.
  induction l as [|b l IH]; intros r; [done|]. cbn [run_blocks picked].
  destruct (blk_cond b); [|apply IH].
  destruct (blk_item b) as [i| |]; [|done|done]. cbn [mbind result_bind].
  rewrite IH. by destruct (picked l).
Qed.

Lemma run_blocks_Ok l r r' : run_blocks l r = Ok r' -> exists its, picked l = Ok its /\ r' = add_items its r.
Proof. rewrite run_blocks_picked. intros H. inv_bind. eauto. Qed.

Definition of_group (g : rule_group) (its : list (rule_group * Item)) : list Item :=
  map snd (List.filter (fun p => bool_decide (fst p = g)) its).

Lemma group_of_add g h i (r : abstractDefaultRule Item Action) :
  group_of g (add_item h i r) = (group_of g r ++ if bool_decide (h = g) then [i] else [])%list.
Proof. destruct g, h; simpl; by rewrite ?app_nil_r. Qed.

Lemma group_of_adds g its : forall r : abstractDefaultRule Item Action,
  group_of g (add_items its r) = (group_of g r ++ of_group g its)%list.
Proof.
  unfold add_items, of_group. induction its as [|[h i] its IH]; intros r; cbn [foldl List.filter map].
  - by rewrite app_nil_r.
  - rewrite IH, group_of_add. simpl. destruct (bool_decide (h = g)); simpl; by rewrite <- app_assoc.
Qed.

Lemma allItems_adds its : forall r : abstractDefaultRule Item Action,
  allItems (add_items its r) = (allItems r ++ map snd its)%list.
Proof.
  unfold add_items. induction its as [|[h i] its IH]; intros r; cbn [foldl map].
  - by rewrite app_nil_r.
  - rewrite IH. simpl. by rewrite <- app_assoc.
Qed.

Lemma invert_adds its : forall r : abstractDefaultRule Item Action, invert (add_items its r) = invert r.
Proof. unfold add_items. induction its as [|p its IH]; intros r; [done|]. cbn [foldl]. by rewrite IH. Qed.
Lemma action_adds its : forall r : abstractDefaultRule Item Action, action (add_items its r) = action r.
Proof. unfold add_items. induction its as [|p its IH]; intros r; [done|]. cbn [foldl]. by rewrite IH. Qed.

(** The representation invariant of a default rule: [allItems] holds the items of the groups. *)
Definition rule_wf (r : abstractDefaultRule Item Action) : Prop :=
  allItems r ≡ₚ items r ++ sourceAddressItems r ++ sourcePortItems r ++ destinationAddressItems r
    ++ destinationIPCIDRItems r ++ destinationPortItems r.

Lemma add_item_wf g i r : rule_wf r -> rule_wf (add_item g i r).
Proof.
  unfold rule_wf. intros H. destruct g; cbn -[app]; simpl; rewrite H; solve_Permutation.
Qed.

Lemma run_blocks_wf l : forall r r', rule_wf r -> run_blocks l r = Ok r' -> rule_wf r'.
Proof.
  induction l as [|b l IH]; intros r r' Hr H; cbn [run_blocks] in H; [by simplify_eq|].
  destruct (blk_cond b); [|by eapply IH]. inv_bind.
  eapply IH; [|eassumption]. by apply add_item_wf.
Qed.

Lemma run_blocks_invert l (r r' : abstractDefaultRule Item Action) : run_blocks l r = Ok r' -> invert r' = invert r.
Proof. rewrite run_blocks_picked. destruct (picked l); simpl; intros; simplify_eq. apply invert_adds. Qed.
Lemma run_blocks_action l (r r' : abstractDefaultRule Item Action) : run_blocks l r = Ok r' -> action r' = action r.
Proof. rewrite run_blocks_picked. destruct (picked l); simpl; intros; simplify_eq. apply action_adds. Qed.
End BuildSpec.

(** What holds of every item built holds of every item of the rule. *)
Lemma run_blocks_all {Item Action} (P : Item -> Prop) bs : forall r r' : abstractDefaultRule Item Action,
  Forall (fun b => forall i, blk_item b = Ok i -> P i) bs ->
  rule_all P r -> run_blocks bs r = Ok r' -> rule_all P r'.
Proof.
  induction bs as [|b bs IH]; intros r r' Hb Hr H; cbn [run_blocks] in H; [by simplify_eq|].
  inversion Hb as [|? ? Hi Hbs]; subst. destruct (blk_cond b); [|by eapply IH].
  inv_bind. eapply IH; [done| |eassumption].
  destruct Hr as (H1 & H2 & H3 & H4 & H5 & H6). unfold rule_all, add_item. simpl.
  assert (P x) by eauto.
  repeat split; case_bool_decide; rewrite ?Forall_app; auto.
Qed.

(** A group none of whose options is present stays as it is. *)
Lemma run_blocks_group {Item Action} g bs : forall r r' : abstractDefaultRule Item Action,
  Forall (fun b => blk_group b = g -> blk_cond b = false) bs ->
  run_blocks bs r = Ok r' -> group_of g r' = group_of g r.
Proof.
  induction bs as [|b bs IH]; intros r r' Hb H; cbn [run_blocks] in H; [by simplify_eq|].
  inversion Hb as [|? ? Hc Hbs]; subst. destruct (blk_cond b) eqn:E; [|by eapply IH].
  inv_bind. erewrite IH by eassumption. rewrite group_of_add, bool_decide_eq_false_2; [by rewrite app_nil_r|].
  intros Hg. by specialize (Hc Hg).
Qed.

(** A block whose option is absent does nothing. *)
Lemma run_blocks_skip {Item Action} bs b (r : abstractDefaultRule Item Action) :
  blk_cond b = false -> run_blocks (bs ++ [b]) r = run_blocks bs r.
Proof.
  intros H. revert r. induction bs as [|c bs IH]; intros r; cbn [run_blocks app].
  - by rewrite H.
  - destruct (blk_cond c); [|apply IH]. by destruct (blk_item c); simpl.
Qed.

(** A last block whose option is present. *)
Lemma run_blocks_snoc {Item Action} bs b i (r : abstractDefaultRule Item Action) :
  blk_cond b = true -> blk_item b = Ok i ->
  run_blocks (bs ++ [b]) r = add_item (blk_group b) i <$> run_blocks bs r.
Proof.
  intros Hc Hi. revert r. induction bs as [|c bs IH]; intros r; cbn [run_blocks app].
  - by rewrite Hc, Hi.
  - destruct (blk_cond c); [|apply IH]. destruct (blk_item c); simpl; [apply IH|done|done].
Qed.

(** Replacing every item of a rule. *)
Definition map_rule {I J Action} (g : I -> J) (r : abstractDefaultRule I Action) : abstractDefaultRule J Action :=
  mkDefaultRule (map g (items r)) (map g (sourceAddressItems r)) (map g (sourcePortItems r))
    (map g (destinationAddressItems r)) (map g (destinationIPCIDRItems r)) (map g (destinationPortItems r))
    (map g (allItems r)) (invert r) (action r).

Lemma existsb_map {A B} (f : B -> bool) (g : A -> B) l : existsb f (map g l) = existsb (fun x => f (g x)) l.
Proof. induction l as [|x l IH]; [done|]. cbn. by rewrite IH. Qed.
Lemma forallb_map {A B} (f : B -> bool) (g : A -> B) l : forallb f (map g l) = forallb (fun x => f (g x)) l.
Proof. induction l as [|x l IH]; [done|]. cbn. by rewrite IH. Qed.
Lemma nonempty_map {A B} (g : A -> B) l : nonempty (map g l) = nonempty l.
Proof. by destruct l. Qed.

Lemma map_rule_answer {I J Action} (f : J -> InboundContext -> bool) (g : I -> J)
  (r : abstractDefaultRule I Action) m :
  rule_answer f (map_rule g r) m = rule_answer (fun i => f (g i)) r m.
Proof.
  unfold rule_answer, rule_cache, rule_holds, groups_cache, group_holds, dest_items, any_item, all_item.
  destruct (IgnoreDestinationIPCIDRMatch (md_cache m)); simpl;
    rewrite ?app_nil_r, <- ?map_app, ?nonempty_map, ?existsb_map, ?forallb_map; done.
Qed.

Lemma map_rule_add {I J Action} (g : I -> J) h i (r : abstractDefaultRule I Action) :
  map_rule g (add_item h i r) = add_item h (g i) (map_rule g r).
Proof. unfold map_rule, add_item. simpl. f_equal; rewrite ?map_app; try done; case_bool_decide; by rewrite ?map_app. Qed.

Lemma rule_init_wf {Item Action} inv (act : Action) : rule_wf (rule_init (Item := Item) inv act).
Proof. unfold rule_wf. simpl. constructor. Qed.

Lemma map_rule_all {I J Action} (P : J -> Prop) (g : I -> J) (r : abstractDefaultRule I Action) :
  rule_all (fun i => P (g i)) r -> rule_all P (map_rule g r).
Proof. unfold rule_all. simpl. rewrite !Forall_map. done. Qed.

(** ** From tables to matching *)

Lemma existsb_filter {A} (p q : A -> bool) l : existsb p (List.filter q l) = existsb (fun x => q x && p x) l.
Proof. induction l as [|x l IH]; [done|]. cbn. destruct (q x); cbn; by rewrite IH. Qed.
Lemma forallb_filter {A} (p q : A -> bool) l : forallb p (List.filter q l) = forallb (fun x => negb (q x) || p x) l.
Proof. induction l as [|x l IH]; [done|]. cbn. destruct (q x); cbn; by rewrite IH. Qed.
Lemma existsb_false_in {A} (p : A -> bool) l x : existsb p l = false -> x ∈ l -> p x = false.
Proof.
  intros H Hx. destruct (p x) eqn:E; [|done].
  assert (existsb p l = true) by (apply existsb_true_iff; eauto). congruence.
Qed.
Lemma existsb_none {A} (p : A -> bool) l : (forall x, x ∈ l -> p x = false) -> existsb p l = false.
Proof.
  intros H. induction l as [|x l IH]; [done|]. cbn. rewrite H by set_solver. apply IH. set_solver.
Qed.
Lemma existsb_orb {A} (p q : A -> bool) l : existsb (fun x => p x || q x) l = existsb p l || existsb q l.
Proof.
  induction l as [|x l IH]; [done|]. cbn. rewrite IH.
  by destruct (p x), (q x), (existsb p l), (existsb q l).
Qed.

Lemma one_holds_absent gs l : existsb cd_present l = false -> one_holds gs l = true.
Proof.
  intros H. unfold one_holds. rewrite existsb_none; [done|]. intros c Hc.
  by rewrite (existsb_false_in _ _ _ H Hc), andb_false_r.
Qed.

Lemma conditions_hold_absent l : existsb cd_present l = false -> conditions_hold l = true.
Proof.
  intros H. unfold conditions_hold. rewrite !one_holds_absent by done. rewrite !andb_true_r.
  apply forallb_true_iff. intros c Hc. by rewrite (existsb_false_in _ _ _ H Hc), andb_false_r.
Qed.

Section Table.
Context {Item Action : Type}.
Variable f : Item -> InboundContext -> bool.

(** A block and the condition it implements, at [m]. *)
Record block_cond (m : InboundContext) (b : block Item) (c : cond) : Prop := BlockCond {
  bc_group : blk_group b = cd_group c;
  bc_present : blk_cond b = cd_present c;
  bc_holds : forall i, blk_cond b = true -> blk_item b = Ok i -> f i m = cd_holds c
}.

(** Any search over the items picked is the search over the conditions present. *)
Lemma picked_existsb m bs cs its (P : rule_group -> bool -> bool) :
  Forall2 (block_cond m) bs cs -> picked bs = Ok its ->
  existsb (fun p => P (fst p) (f (snd p) m)) its =
  existsb (fun c => cd_present c && P (cd_group c) (cd_holds c)) cs.
Proof.
  intros H. revert its. induction H as [|b c bs cs [Hg Hp Hh] _ IH]; intros its; cbn [picked].
  - intros; by simplify_eq.
  - destruct (blk_cond b) eqn:E; intros Hi.
    + inv_bind. cbn [existsb fst snd]. rewrite Hg, (Hh _ eq_refl) by done. rewrite <- Hp. simpl. f_equal. by apply IH.
    + cbn [existsb]. rewrite <- Hp. simpl. by apply IH.
Qed.

Lemma picked_forallb m bs cs its (P : rule_group -> bool -> bool) :
  Forall2 (block_cond m) bs cs -> picked bs = Ok its ->
  forallb (fun p => P (fst p) (f (snd p) m)) its =
  forallb (fun c => negb (cd_present c) || P (cd_group c) (cd_holds c)) cs.
Proof.
  intros H. revert its. induction H as [|b c bs cs [Hg Hp Hh] _ IH]; intros its; cbn [picked].
  - intros; by simplify_eq.
  - destruct (blk_cond b) eqn:E; intros Hi.
    + inv_bind. cbn [forallb fst snd]. rewrite Hg, (Hh _ eq_refl) by done. rewrite <- Hp. simpl. f_equal. by apply IH.
    + cbn [forallb]. rewrite <- Hp. simpl. by apply IH.
Qed.

Lemma nonempty_of_group g (its : list (rule_group * Item)) :
  nonempty (of_group g its) = existsb (fun p => bool_decide (fst p = g)) its.
Proof.
  unfold of_group. induction its as [|p its IH]; [done|]. cbn. by destruct (bool_decide _).
Qed.
Lemma any_of_group g (its : list (rule_group * Item)) m :
  any_item f (of_group g its) m = existsb (fun p => bool_decide (fst p = g) && f (snd p) m) its.
Proof.
  unfold of_group, any_item. induction its as [|p its IH]; [done|]. cbn.
  destruct (bool_decide _); cbn; by rewrite IH.
Qed.
Lemma all_of_group g (its : list (rule_group * Item)) m :
  all_item f (of_group g its) m = forallb (fun p => negb (bool_decide (fst p = g)) || f (snd p) m) its.
Proof.
  unfold of_group, all_item. induction its as [|p its IH]; [done|]. cbn.
  destruct (bool_decide _); cbn; by rewrite IH.
Qed.

(** The two searches of a group, on the conditions. *)
Definition group_present (g : rule_group) (cs : list cond) : bool :=
  existsb (fun c => cd_present c && bool_decide (cd_group c = g)) cs.

Lemma group_holds_conds m bs cs its g :
  Forall2 (block_cond m) bs cs -> picked bs = Ok its ->
  nonempty (of_group g its) = group_present g cs /\
  any_item f (of_group g its) m =
    existsb (fun c => cd_present c && (bool_decide (cd_group c = g) && cd_holds c)) cs.
Proof.
  intros H Hp. rewrite nonempty_of_group, any_of_group. split.
  - pose (P := fun (h : rule_group) (_ : bool) => bool_decide (h = g)).
    apply (picked_existsb m bs cs its P H Hp).
  - pose (P := fun (h : rule_group) b => bool_decide (h = g) && b).
    apply (picked_existsb m bs cs its P H Hp).
Qed.

Local Ltac by_cond := apply existsb_ext_in; intros [[] [] []] _; done.

Lemma one_holds_group cs ig g :
  g <> GDestinationIPCIDR ->
  one_holds [g] (active ig cs) =
  negb (group_present g cs) || existsb (fun c => cd_present c && (bool_decide (cd_group c = g) && cd_holds c)) cs.
Proof.
  intros Hg. unfold one_holds, group_present, active. f_equal; [f_equal|];
    destruct ig; rewrite ?existsb_filter; destruct g; try done; by_cond.
Qed.

Lemma one_holds_dest cs ig :
  one_holds [GDestinationAddress; GDestinationIPCIDR] (active ig cs) =
  negb (group_present GDestinationAddress cs || (if ig then false else group_present GDestinationIPCIDR cs))
  || (existsb (fun c => cd_present c && (bool_decide (cd_group c = GDestinationAddress) && cd_holds c)) cs
      || (if ig then false else
          existsb (fun c => cd_present c && (bool_decide (cd_group c = GDestinationIPCIDR) && cd_holds c)) cs)).
Proof.
  unfold one_holds, group_present, active. destruct ig; rewrite ?existsb_filter, ?orb_false_r, <- ?existsb_orb;
    (f_equal; [f_equal|]); by_cond.
Qed.

Lemma active_present cs ig :
  existsb cd_present (active ig cs) =
  group_present GSourceAddress cs || group_present GSourcePort cs
  || (group_present GDestinationAddress cs || (if ig then false else group_present GDestinationIPCIDR cs))
  || group_present GDestinationPort cs || group_present GItems cs.
Proof.
  unfold active, group_present. destruct ig; rewrite ?orb_false_r, ?existsb_filter, <- !existsb_orb; by_cond.
Qed.

Lemma all_hold_conds m bs cs its ig :
  Forall2 (block_cond m) bs cs -> picked bs = Ok its ->
  all_item f (of_group GItems its) m = all_hold (active ig cs).
Proof.
  intros H Hp. rewrite all_of_group.
  pose (P := fun (h : rule_group) b => negb (bool_decide (h = GItems)) || b).
  etransitivity; [apply (picked_forallb m bs cs its P H Hp)|]. unfold P.
  unfold all_hold, active. destruct ig; rewrite ?forallb_filter; apply forallb_ext_in; by intros [[] [] []] _.
Qed.

(** [Match] on a reset context answers what the table says. *)
Lemma built_answer m bs cs inv (act : Action) r :
  Forall2 (block_cond (ResetRuleCache m)) bs cs -> run_blocks bs (rule_init inv act) = Ok r ->
  rule_answer f r (ResetRuleCache m) =
  conditions_answer inv (active (IgnoreDestinationIPCIDRMatch (md_cache m)) cs).
Proof.
  intros H Hr. rewrite run_blocks_picked in Hr. destruct (picked bs) as [its| |] eqn:Hp; simplify_eq/=.
  set (r := add_items its (rule_init inv act)). set (ig := IgnoreDestinationIPCIDRMatch (md_cache m)).
  assert (forall g, group_of g r = of_group g its) as G by (intros g; unfold r; rewrite group_of_adds; by destruct g).
  pose proof (G GItems) as G1. pose proof (G GSourceAddress) as G2. pose proof (G GSourcePort) as G3.
  pose proof (G GDestinationAddress) as G4. pose proof (G GDestinationIPCIDR) as G5.
  pose proof (G GDestinationPort) as G6. simpl in G1, G2, G3, G4, G5, G6.
  pose proof (fun g => proj1 (group_holds_conds _ _ _ _ g H Hp)) as N.
  pose proof (fun g => proj2 (group_holds_conds _ _ _ _ g H Hp)) as E.
  assert (rule_holds f r (ResetRuleCache m) = conditions_hold (active ig cs)) as Hh.
  { unfold rule_holds, conditions_hold, group_holds, dest_items. rewrite reset_cache. simpl. fold ig.
    rewrite G1, G2, G3, G4, G5, G6, (all_hold_conds _ _ _ _ ig H Hp).
    rewrite !one_holds_group, one_holds_dest by done.
    rewrite !nonempty_app. unfold any_item at 3. rewrite existsb_app. fold (any_item f (of_group GDestinationAddress its) (ResetRuleCache m)).
    destruct ig; simpl; rewrite ?orb_false_r, ?N; fold (any_item f (of_group GDestinationIPCIDR its) (ResetRuleCache m));
      by rewrite ?E. }
  assert (nonempty (allItems r) = existsb cd_present cs) as Ha.
  { subst r. rewrite allItems_adds. simpl.
    transitivity (existsb (fun c => cd_present c && true) cs); [|by_cond].
    rewrite <- (picked_existsb _ bs cs its (fun _ _ => true) H Hp). by destruct its. }
  assert (DidMatch (rule_cache f r (ResetRuleCache m)) = nonempty (allItems r) && existsb cd_present (active ig cs)) as Hd.
  { unfold rule_cache. rewrite reset_cache. destruct (nonempty (allItems r)); [|done]. simpl. fold ig.
    rewrite active_present, !andb_true_r, !nonempty_app, G1, G2, G3, G4, G5, G6. by destruct ig; rewrite !N. }
  unfold rule_answer, conditions_answer. rewrite Hd, Hh. subst r. rewrite invert_adds. simpl.
  destruct (nonempty _); simpl.
  - destruct (existsb cd_present (active ig cs)) eqn:Hpr; [by destruct inv, (conditions_hold _)|].
    by rewrite conditions_hold_absent.
  - assert (existsb cd_present (active ig cs) = false) as ->; [|done].
    unfold active. destruct ig; [|done]. rewrite existsb_filter. apply existsb_none. intros c Hc.
    by rewrite (existsb_false_in _ _ _ (eq_sym Ha) Hc), andb_false_r.
Qed.
End Table.
