(* ===== verification/RuleConditions.v ===== *)
(** * RuleConditions: the options of a rule and what it matches

    For each kind of default rule the table of its conditions, written on the options alone
    (which fields are present, what each means for a connection), and the theorems that
    construction, [Start] and [Match] together implement the table. *)

From S2P Require Import Prelude GoStd NetIP Metadata RuleItems RuleMatch RuleAction RuleOptions RuleBuild RuleSet.
From S2P Require Import Rules RuleSpec Sample.
Open Scope string_scope.

Section Conditions.
Context {X : Externals}.

(** ** The meaning of one field *)

Definition in_list {K} `{EqDecision K} (l : list K) (k : K) : bool := bool_decide (k ∈ l).
Definition opt_cond {B} (f : B -> bool) (o : option B) : bool := match o with Some x => f x | None => false end.

(** Conditions on the domain: never for a connection without one, else on the lower-case name. *)
Definition on_host (m : InboundContext) (f : string -> bool) : bool :=
  negb (str_empty (domain_host m)) && f (ToLower (domain_host m)).
Definition regex_matches (s e : string) : bool :=
  match regexp_Compile e with Ok x => Regexp_MatchString x s | _ => false end.

(** Conditions on the owner of the connection. *)
Definition on_owner (m : InboundContext) (get : ConnectionOwner -> string) (f : string -> bool) : bool :=
  opt_cond (fun p => negb (str_empty (get p)) && f (get p)) (md_ProcessInfo m).
Definition on_process_path (m : InboundContext) (f : string -> bool) : bool := on_owner m ProcessPath f.
Definition user_id_cond (l : list Z) (m : InboundContext) : bool :=
  opt_cond (fun p => negb (UserId p =? -1)%Z && in_list l (UserId p)) (md_ProcessInfo m).

Definition on_interface (w : World) (f : NetworkInterface -> bool) : bool := opt_cond f (DefaultNetworkInterface w).
Definition range_has (port : N) (s : string) : bool :=
  match parse_port_range s with Ok g => (rg_start g <=? port)%N && (port <=? rg_end g)%N | _ => false end.

(** Conditions on addresses. *)
Definition cidr_contains (l : list string) (a : Addr) : bool :=
  match parse_cidrs 0 l with
  | Ok ops => match IPSetBuilder_IPSet ops with Ok s => IPSet_Contains s a | _ => false end
  | _ => false
  end.
(** The destination address, else one of the resolved addresses; a rule-set item may redirect
    the test to the source ([IPCIDRMatchSource]) and accept a missing address. *)
Definition destination_ip_cond (contains : Addr -> bool) (m : InboundContext) : bool :=
  if IPCIDRMatchSource (md_cache m) then contains (sa_Addr (md_Source m))
  else if Socksaddr_IsIP (md_Destination m) then contains (sa_Addr (md_Destination m))
  else if nonempty (md_DestinationAddresses m) then existsb contains (md_DestinationAddresses m)
  else IPCIDRAcceptEmpty (md_cache m).
Definition private (a : Addr) : bool := Addr_IsValid a && negb (IsPublicAddr a).
Definition private_destination_cond (m : InboundContext) : bool :=
  if Addr_IsValid (sa_Addr (md_Destination m)) then negb (IsPublicAddr (sa_Addr (md_Destination m)))
  else existsb (fun a => negb (IsPublicAddr a)) (md_DestinationAddresses m).
Definition ip_version_cond (v6 : bool) (m : InboundContext) : bool :=
  negb (md_IPVersion m =? 0)%N && Bool.eqb (md_IPVersion m =? 6)%N v6
  || Socksaddr_IsIP (md_Destination m) && Bool.eqb (Socksaddr_IsIPv6 (md_Destination m)) v6.
(** The outbound a DNS query is made for; "any" stands for every outbound. *)
Definition outbound_cond (l : list string) (m : InboundContext) : bool :=
  if in_list l "any" then negb (str_empty (md_Outbound m)) else in_list l (md_Outbound m).

(** ** The tables *)

(** A headless rule; [nm]: a network manager is registered. *)
Definition headless_conditions (nm : bool) (w : World) (o : opt_DefaultHeadlessRule) (m : InboundContext) : list cond := [
  mkCond GItems (nonempty (ho_Network o)) (in_list (ho_Network o) (md_Network m));
  mkCond GDestinationAddress (nonempty (ho_Domain o) || nonempty (ho_DomainSuffix o))
    (on_host m (Matcher_Match (NewMatcher (ho_Domain o) (ho_DomainSuffix o) false)));
  mkCond GDestinationAddress
    (negb (nonempty (ho_Domain o) || nonempty (ho_DomainSuffix o)) && negb (is_none (ho_DomainMatcher o)))
    (on_host m (fun h => opt_cond (fun d => Matcher_Match d h) (ho_DomainMatcher o)));
  mkCond GDestinationAddress (nonempty (ho_DomainKeyword o))
    (on_host m (fun h => existsb (str_contains h) (ho_DomainKeyword o)));
  mkCond GDestinationAddress (nonempty (ho_DomainRegex o))
    (on_host m (fun h => existsb (regex_matches h) (ho_DomainRegex o)));
  mkCond GSourceAddress (nonempty (ho_SourceIPCIDR o))
    (cidr_contains (ho_SourceIPCIDR o) (sa_Addr (md_Source m)));
  mkCond GSourceAddress (negb (nonempty (ho_SourceIPCIDR o)) && negb (is_none (ho_SourceIPSet o)))
    (opt_cond (fun s => IPSet_Contains s (sa_Addr (md_Source m))) (ho_SourceIPSet o));
  mkCond GDestinationIPCIDR (nonempty (ho_IPCIDR o)) (destination_ip_cond (cidr_contains (ho_IPCIDR o)) m);
  mkCond GDestinationIPCIDR (negb (nonempty (ho_IPCIDR o)) && negb (is_none (ho_IPSet o)))
    (opt_cond (fun s => destination_ip_cond (IPSet_Contains s) m) (ho_IPSet o));
  mkCond GSourcePort (nonempty (ho_SourcePort o)) (in_list (ho_SourcePort o) (sa_Port (md_Source m)));
  mkCond GSourcePort (nonempty (ho_SourcePortRange o))
    (existsb (range_has (sa_Port (md_Source m))) (ho_SourcePortRange o));
  mkCond GDestinationPort (nonempty (ho_Port o)) (in_list (ho_Port o) (sa_Port (md_Destination m)));
  mkCond GDestinationPort (nonempty (ho_PortRange o))
    (existsb (range_has (sa_Port (md_Destination m))) (ho_PortRange o));
  mkCond GItems (nonempty (ho_TunnelSource o)) (in_list (ho_TunnelSource o) (md_TunnelSource m));
  mkCond GItems (nonempty (ho_TunnelDestination o))
    (in_list (ho_TunnelDestination o) (md_TunnelDestination m));
  mkCond GItems (nonempty (ho_ProcessName o))
    (on_process_path m (fun p => in_list (ho_ProcessName o) (filepath_Base p)));
  mkCond GItems (nonempty (ho_ProcessPath o)) (on_process_path m (in_list (ho_ProcessPath o)));
  mkCond GItems (nonempty (ho_ProcessPathRegex o))
    (on_process_path m (fun p => existsb (regex_matches p) (ho_ProcessPathRegex o)));
  mkCond GItems (nonempty (ho_PackageName o)) (on_owner m AndroidPackageName (in_list (ho_PackageName o)));
  mkCond GItems (nm && nonempty (ho_NetworkType o))
    (on_interface w (fun i => in_list (ho_NetworkType o) (ni_Type i)));
  mkCond GItems (nm && ho_NetworkIsExpensive o) (on_interface w ni_Expensive);
  mkCond GItems (nm && ho_NetworkIsConstrained o) (on_interface w ni_Constrained);
  mkCond GItems (nm && nonempty (ho_WIFISSID o)) (in_list (ho_WIFISSID o) (WIFIState_SSID w));
  mkCond GItems (nm && nonempty (ho_WIFIBSSID o)) (in_list (ho_WIFIBSSID o) (WIFIState_BSSID w));
  mkCond GItems (nm && map_present (ho_NetworkInterfaceAddress o))
    (NetworkInterfaceAddressItem_Match w (NewNetworkInterfaceAddressItem (default [] (ho_NetworkInterfaceAddress o))));
  mkCond GItems (nm && nonempty (ho_DefaultInterfaceAddress o))
    (DefaultInterfaceAddressItem_Match w (NewDefaultInterfaceAddressItem (ho_DefaultInterfaceAddress o)));
  mkCond GDestinationAddress (nonempty (ho_AdGuardDomain o))
    (on_host m (AdGuardMatcher_Match (NewAdGuardMatcher (ho_AdGuardDomain o))));
  mkCond GDestinationAddress (negb (nonempty (ho_AdGuardDomain o)) && negb (is_none (ho_AdGuardDomainMatcher o)))
    (on_host m (fun h => opt_cond (fun d => AdGuardMatcher_Match d h) (ho_AdGuardDomainMatcher o)))
].

(** A route rule without rule-sets, after [Start]. *)
Definition route_conditions (env : StartEnv) (w : World) (o : opt_RawDefaultRule) (m : InboundContext) : list cond := [
  mkCond GItems (nonempty (ro_Inbound o)) (in_list (ro_Inbound o) (md_Inbound m));
  mkCond GItems (0 <? ro_IPVersion o)%Z (ip_version_cond (ro_IPVersion o =? 6)%Z m);
  mkCond GItems (nonempty (ro_Network o)) (in_list (ro_Network o) (md_Network m));
  mkCond GItems (nonempty (ro_AuthUser o)) (in_list (ro_AuthUser o) (md_User m));
  mkCond GItems (nonempty (ro_Protocol o)) (in_list (ro_Protocol o) (sn_Protocol (md_sniff m)));
  mkCond GItems (nonempty (ro_Client o)) (in_list (ro_Client o) (sn_Client (md_sniff m)));
  mkCond GDestinationAddress (nonempty (ro_Domain o) || nonempty (ro_DomainSuffix o))
    (on_host m (Matcher_Match (NewMatcher (ro_Domain o) (ro_DomainSuffix o) false)));
  mkCond GDestinationAddress (nonempty (ro_DomainKeyword o))
    (on_host m (fun h => existsb (str_contains h) (ro_DomainKeyword o)));
  mkCond GDestinationAddress (nonempty (ro_DomainRegex o))
    (on_host m (fun h => existsb (regex_matches h) (ro_DomainRegex o)));
  mkCond GItems (nonempty (ro_Geosite o)) false;
  mkCond GItems (nonempty (ro_SourceGeoIP o)) false;
  mkCond GItems (nonempty (ro_GeoIP o)) false;
  mkCond GSourceAddress (nonempty (ro_SourceIPCIDR o))
    (cidr_contains (ro_SourceIPCIDR o) (sa_Addr (md_Source m)));
  mkCond GSourceAddress (ro_SourceIPIsPrivate o) (private (sa_Addr (md_Source m)));
  mkCond GDestinationIPCIDR (nonempty (ro_IPCIDR o)) (destination_ip_cond (cidr_contains (ro_IPCIDR o)) m);
  mkCond GDestinationIPCIDR (ro_IPIsPrivate o) (private_destination_cond m);
  mkCond GSourcePort (nonempty (ro_SourcePort o)) (in_list (ro_SourcePort o) (sa_Port (md_Source m)));
  mkCond GSourcePort (nonempty (ro_SourcePortRange o))
    (existsb (range_has (sa_Port (md_Source m))) (ro_SourcePortRange o));
  mkCond GDestinationPort (nonempty (ro_Port o)) (in_list (ro_Port o) (sa_Port (md_Destination m)));
  mkCond GDestinationPort (nonempty (ro_PortRange o))
    (existsb (range_has (sa_Port (md_Destination m))) (ro_PortRange o));
  mkCond GItems (nonempty (ro_TunnelSource o)) (in_list (ro_TunnelSource o) (md_TunnelSource m));
  mkCond GItems (nonempty (ro_TunnelDestination o))
    (in_list (ro_TunnelDestination o) (md_TunnelDestination m));
  mkCond GItems (nonempty (ro_ProcessName o))
    (on_process_path m (fun p => in_list (ro_ProcessName o) (filepath_Base p)));
  mkCond GItems (nonempty (ro_ProcessPath o)) (on_process_path m (in_list (ro_ProcessPath o)));
  mkCond GItems (nonempty (ro_ProcessPathRegex o))
    (on_process_path m (fun p => existsb (regex_matches p) (ro_ProcessPathRegex o)));
  mkCond GItems (nonempty (ro_PackageName o)) (on_owner m AndroidPackageName (in_list (ro_PackageName o)));
  mkCond GItems (nonempty (ro_User o)) (on_owner m UserName (in_list (ro_User o)));
  mkCond GItems (nonempty (ro_UserID o)) (user_id_cond (ro_UserID o) m);
  mkCond GItems (negb (str_empty (ro_ClashMode o)))
    (se_ClashServer env && EqualFold (ClashServer_Mode w) (ro_ClashMode o));
  mkCond GItems (nonempty (ro_NetworkType o))
    (on_interface w (fun i => in_list (ro_NetworkType o) (ni_Type i)));
  mkCond GItems (ro_NetworkIsExpensive o) (on_interface w ni_Expensive);
  mkCond GItems (ro_NetworkIsConstrained o) (on_interface w ni_Constrained);
  mkCond GItems (nonempty (ro_WIFISSID o)) (in_list (ro_WIFISSID o) (WIFIState_SSID w));
  mkCond GItems (nonempty (ro_WIFIBSSID o)) (in_list (ro_WIFIBSSID o) (WIFIState_BSSID w));
  mkCond GItems (map_present (ro_InterfaceAddress o))
    (InterfaceAddressItem_Match w (NewInterfaceAddressItem (default [] (ro_InterfaceAddress o))));
  mkCond GItems (map_present (ro_NetworkInterfaceAddress o))
    (NetworkInterfaceAddressItem_Match w (NewNetworkInterfaceAddressItem (default [] (ro_NetworkInterfaceAddress o))));
  mkCond GItems (nonempty (ro_DefaultInterfaceAddress o))
    (DefaultInterfaceAddressItem_Match w (NewDefaultInterfaceAddressItem (ro_DefaultInterfaceAddress o)));
  mkCond GItems (nonempty (ro_PreferredBy o))
    (PreferredByItem_Match w (mkPreferredByItem (ro_PreferredBy o) (ro_PreferredBy o)) m)
].

(** A DNS rule without rule-sets, after [Start]. *)
Definition dns_conditions (env : StartEnv) (w : World) (o : opt_RawDefaultDNSRule) (m : InboundContext) : list cond := [
  mkCond GItems (nonempty (dn_Inbound o)) (in_list (dn_Inbound o) (md_Inbound m));
  mkCond GItems (0 <? dn_IPVersion o)%Z (ip_version_cond (dn_IPVersion o =? 6)%Z m);
  mkCond GItems (nonempty (dn_QueryType o))
    (negb (md_QueryType m =? 0)%N && in_list (dn_QueryType o) (md_QueryType m));
  mkCond GItems (nonempty (dn_Network o)) (in_list (dn_Network o) (md_Network m));
  mkCond GItems (nonempty (dn_AuthUser o)) (in_list (dn_AuthUser o) (md_User m));
  mkCond GItems (nonempty (dn_Protocol o)) (in_list (dn_Protocol o) (sn_Protocol (md_sniff m)));
  mkCond GDestinationAddress (nonempty (dn_Domain o) || nonempty (dn_DomainSuffix o))
    (on_host m (Matcher_Match (NewMatcher (dn_Domain o) (dn_DomainSuffix o) false)));
  mkCond GDestinationAddress (nonempty (dn_DomainKeyword o))
    (on_host m (fun h => existsb (str_contains h) (dn_DomainKeyword o)));
  mkCond GDestinationAddress (nonempty (dn_DomainRegex o))
    (on_host m (fun h => existsb (regex_matches h) (dn_DomainRegex o)));
  mkCond GItems (nonempty (dn_Geosite o)) false;
  mkCond GItems (nonempty (dn_SourceGeoIP o)) false;
  mkCond GItems (nonempty (dn_GeoIP o)) false;
  mkCond GSourceAddress (nonempty (dn_SourceIPCIDR o))
    (cidr_contains (dn_SourceIPCIDR o) (sa_Addr (md_Source m)));
  mkCond GDestinationIPCIDR (nonempty (dn_IPCIDR o)) (destination_ip_cond (cidr_contains (dn_IPCIDR o)) m);
  mkCond GSourceAddress (dn_SourceIPIsPrivate o) (private (sa_Addr (md_Source m)));
  mkCond GDestinationIPCIDR (dn_IPIsPrivate o) (private_destination_cond m);
  mkCond GDestinationIPCIDR (dn_IPAcceptAny o) (nonempty (md_DestinationAddresses m));
  mkCond GSourcePort (nonempty (dn_SourcePort o)) (in_list (dn_SourcePort o) (sa_Port (md_Source m)));
  mkCond GSourcePort (nonempty (dn_SourcePortRange o))
    (existsb (range_has (sa_Port (md_Source m))) (dn_SourcePortRange o));
  mkCond GDestinationPort (nonempty (dn_Port o)) (in_list (dn_Port o) (sa_Port (md_Destination m)));
  mkCond GDestinationPort (nonempty (dn_PortRange o))
    (existsb (range_has (sa_Port (md_Destination m))) (dn_PortRange o));
  mkCond GItems (nonempty (dn_TunnelSource o)) (in_list (dn_TunnelSource o) (md_TunnelSource m));
  mkCond GItems (nonempty (dn_TunnelDestination o))
    (in_list (dn_TunnelDestination o) (md_TunnelDestination m));
  mkCond GItems (nonempty (dn_ProcessName o))
    (on_process_path m (fun p => in_list (dn_ProcessName o) (filepath_Base p)));
  mkCond GItems (nonempty (dn_ProcessPath o)) (on_process_path m (in_list (dn_ProcessPath o)));
  mkCond GItems (nonempty (dn_ProcessPathRegex o))
    (on_process_path m (fun p => existsb (regex_matches p) (dn_ProcessPathRegex o)));
  mkCond GItems (nonempty (dn_PackageName o)) (on_owner m AndroidPackageName (in_list (dn_PackageName o)));
  mkCond GItems (nonempty (dn_User o)) (on_owner m UserName (in_list (dn_User o)));
  mkCond GItems (nonempty (dn_UserID o)) (user_id_cond (dn_UserID o) m);
  mkCond GItems (nonempty (dn_Outbound o)) (outbound_cond (dn_Outbound o) m);
  mkCond GItems (negb (str_empty (dn_ClashMode o)))
    (se_ClashServer env && EqualFold (ClashServer_Mode w) (dn_ClashMode o));
  mkCond GItems (nonempty (dn_NetworkType o))
    (on_interface w (fun i => in_list (dn_NetworkType o) (ni_Type i)));
  mkCond GItems (dn_NetworkIsExpensive o) (on_interface w ni_Expensive);
  mkCond GItems (dn_NetworkIsConstrained o) (on_interface w ni_Constrained);
  mkCond GItems (nonempty (dn_WIFISSID o)) (in_list (dn_WIFISSID o) (WIFIState_SSID w));
  mkCond GItems (nonempty (dn_WIFIBSSID o)) (in_list (dn_WIFIBSSID o) (WIFIState_BSSID w));
  mkCond GItems (map_present (dn_InterfaceAddress o))
    (InterfaceAddressItem_Match w (NewInterfaceAddressItem (default [] (dn_InterfaceAddress o))));
  mkCond GItems (map_present (dn_NetworkInterfaceAddress o))
    (NetworkInterfaceAddressItem_Match w (NewNetworkInterfaceAddressItem (default [] (dn_NetworkInterfaceAddress o))));
  mkCond GItems (nonempty (dn_DefaultInterfaceAddress o))
    (DefaultInterfaceAddressItem_Match w (NewDefaultInterfaceAddressItem (dn_DefaultInterfaceAddress o)))
].

(** ** The items implement the fields *)

Lemma NewDomainItem_Match d s i m :
  NewDomainItem d s = Ok i -> DomainItem_Match i m = on_host m (Matcher_Match (NewMatcher d s false)).
Proof.
  unfold NewDomainItem. intros H. do 2 (destruct (existsb _ _); [done|]). simplify_eq.
  unfold DomainItem_Match, on_host, str_empty. by case_bool_decide.
Qed.

Lemma compile_all_match i l xs s :
  compile_all i l = Ok xs -> existsb (fun x => Regexp_MatchString x s) xs = existsb (regex_matches s) l.
Proof.
  revert i xs. induction l as [|e l IH]; intros i xs H; simpl in H; [by simplify_eq|].
  inv_bind. cbn [existsb]. f_equal; [|by eapply IH]. unfold regex_matches. by rewrite_Ok.
Qed.

Lemma NewDomainRegexItem_Match l i m :
  NewDomainRegexItem l = Ok i -> DomainRegexItem_Match i m = on_host m (fun h => existsb (regex_matches h) l).
Proof.
  unfold NewDomainRegexItem. intros H. inv_bind. unfold DomainRegexItem_Match, on_host, str_empty.
  case_bool_decide; [done|]. by eapply compile_all_match.
Qed.

Lemma NewProcessPathRegexItem_Match l i m :
  NewProcessPathRegexItem l = Ok i ->
  ProcessPathRegexItem_Match i m = on_process_path m (fun p => existsb (regex_matches p) l).
Proof.
  unfold NewProcessPathRegexItem. intros H. inv_bind.
  unfold ProcessPathRegexItem_Match, on_process_path, on_owner, opt_cond, str_empty.
  case_match; [|done]. case_bool_decide; [done|]. by eapply compile_all_match.
Qed.

Lemma NewIPCIDRItem_Match src l i m :
  NewIPCIDRItem src l = Ok i ->
  IPCIDRItem_Match i m =
    if src then cidr_contains l (sa_Addr (md_Source m)) else destination_ip_cond (cidr_contains l) m.
Proof.
  unfold NewIPCIDRItem. intros H. inv_bind.
  assert (forall a, IPSet_Contains x0 a = cidr_contains l a) as E.
  { intros a. unfold cidr_contains. by rewrite H, H0. }
  unfold IPCIDRItem_Match, destination_ip_cond. simpl. rewrite !E.
  destruct src; [done|]. simpl. by rewrite (existsb_ext_in _ (cidr_contains l)) by auto.
Qed.

Lemma parse_port_ranges_match l rs p :
  parse_port_ranges l = Ok rs ->
  existsb (fun g => (rg_start g <=? p)%N && (p <=? rg_end g)%N) rs = existsb (range_has p) l.
Proof.
  revert rs. induction l as [|s l IH]; intros rs H; cbn [parse_port_ranges] in H; [by simplify_eq|].
  inv_bind. cbn [existsb]. f_equal; [|by eapply IH]. unfold range_has. by rewrite_Ok.
Qed.

Lemma NewPortRangeItem_Match src l i m :
  NewPortRangeItem src l = Ok i ->
  PortRangeItem_Match i m =
    existsb (range_has (if src then sa_Port (md_Source m) else sa_Port (md_Destination m))) l.
Proof.
  unfold NewPortRangeItem. intros H. inv_bind. unfold PortRangeItem_Match. simpl.
  by apply parse_port_ranges_match.
Qed.

Lemma NewOutboundRule_fold l : forall r0 k,
  let r := foldl (fun r o =>
    if bool_decide (o = "any")
    then mkOutboundItem (ob_outbounds r) (ob_outboundMap r) true
    else mkOutboundItem (ob_outbounds r) (<[o := true]> (ob_outboundMap r)) (ob_matchAny r)) r0 l in
  ob_matchAny r = ob_matchAny r0 || in_list l "any" /\
  map_bool (ob_outboundMap r) k = map_bool (ob_outboundMap r0) k || in_list l k && negb (bool_decide (k = "any")).
Proof.
  unfold in_list. induction l as [|o l IH]; intros r0 k; cbn [foldl]; [by rewrite !orb_false_r|].
  destruct (IH (if bool_decide (o = "any") then mkOutboundItem (ob_outbounds r0) (ob_outboundMap r0) true
    else mkOutboundItem (ob_outbounds r0) (<[o:=true]> (ob_outboundMap r0)) (ob_matchAny r0)) k) as [I1 I2].
  rewrite I1, I2. clear. case_bool_decide as E; subst; simpl.
  - split; [by rewrite orb_true_r|].
    f_equal. destruct (decide (k = "any")) as [->|Hk]; [simpl; by rewrite !andb_false_r|].
    f_equal. apply bool_decide_ext. set_solver.
  - split; [f_equal; apply bool_decide_ext; set_solver|].
    unfold map_bool at 1. rewrite lookup_insert. case_decide as Ek; subst; simpl.
    + rewrite (bool_decide_eq_true_2 (k ∈ k :: l)), (bool_decide_eq_false_2 (k = "any")) by set_solver.
      by rewrite orb_true_r.
    + fold (map_bool (ob_outboundMap r0) k). f_equal. f_equal. apply bool_decide_ext. set_solver.
Qed.

Lemma NewOutboundRule_Match l m : OutboundItem_Match (NewOutboundRule l) m = outbound_cond l m.
Proof.
  unfold OutboundItem_Match, outbound_cond, NewOutboundRule, str_empty.
  destruct (NewOutboundRule_fold l (mkOutboundItem l ∅ false) (md_Outbound m)) as [-> ->].
  simpl. unfold in_list. case_bool_decide as E; [done|]. case_bool_decide; [|done].
  by rewrite bool_decide_eq_false_2 by congruence.
Qed.

(** Items read of the rule cache only the two flags of rule-set items. *)
Lemma BaseItem_Match_cache w i m c :
  keeps_cidr_flags c (md_cache m) -> BaseItem_Match w i (set_cache c m) = BaseItem_Match w i m.
Proof.
  intros [E1 E2]. destruct m, i; try done. simpl in *. unfold IPCIDRItem_Match. simpl. by rewrite E1, E2.
Qed.

(** ** The constructors implement the tables *)

Local Ltac solve_item :=
  repeat match goal with H : match ?o with Some _ => _ | None => _ end = Ok _ |- _ => destruct o; [|done] end;
  inv_bind; simplify_eq; simpl;
  lazymatch goal with
  | H : NewDomainItem _ _ = Ok _ |- _ => by apply NewDomainItem_Match
  | H : NewDomainRegexItem _ = Ok _ |- _ => by apply NewDomainRegexItem_Match
  | H : NewProcessPathRegexItem _ = Ok _ |- _ => by apply NewProcessPathRegexItem_Match
  | H : NewIPCIDRItem _ _ = Ok _ |- _ => by rewrite (NewIPCIDRItem_Match _ _ _ _ H)
  | H : NewPortRangeItem _ _ = Ok _ |- _ => by rewrite (NewPortRangeItem_Match _ _ _ _ H)
  | |- OutboundItem_Match _ _ = _ => apply NewOutboundRule_Match
  | |- IPIsPrivateItem_Match _ _ = _ =>
      unfold IPIsPrivateItem_Match, private, private_destination_cond; simpl; by case_match
  | |- _ = on_host _ _ =>
      unfold DomainItem_Match, DomainKeywordItem_Match, AdGuardDomainItem_Match, on_host, str_empty;
      by case_bool_decide
  | |- _ = in_list _ _ =>
      unfold InboundItem_Match, NetworkItem_Match, AuthUserItem_Match, ProtocolItem_Match,
        ClientItem_Match, TunnelSourceItem_Match, TunnelDestinationItem_Match, PortItem_Match,
        WIFISSIDItem_Match, WIFIBSSIDItem_Match, in_list; simpl; by rewrite make_bool_map_spec
  | _ =>
      unfold ProcessItem_Match, ProcessPathItem_Match, PackageNameItem_Match, UserItem_Match,
        UserIdItem_Match, QueryTypeItem_Match, on_process_path, on_owner, user_id_cond, opt_cond, str_empty, in_list;
      simpl; try done; repeat case_match; rewrite ?make_bool_map_spec; by simplify_eq/=
  end.

Local Ltac solve_blocks :=
  repeat (apply Forall2_cons; split; [constructor; [done|done|intros i Hc Hi; simpl in *; solve_item]|]);
  apply Forall2_nil_2.

Lemma headless_blocks_conditions nm w o m :
  Forall2 (block_cond (BaseItem_Match w) m)
    (headless_blocks_conn o ++ headless_blocks_env nm o) (headless_conditions nm w o m).
Proof.
  unfold headless_blocks_conn, headless_blocks_env, headless_conditions. cbn [app].
  solve_blocks.
Qed.

(** The answer of an item other than a rule-set item, and the answer it gives once started. *)
Definition base_answer (w : World) (i : RuleItem) (m : InboundContext) : bool :=
  match i with ItemBase b => BaseItem_Match w b m | ItemRuleSet _ => false end.
Definition started_answer (env : StartEnv) (w : World) (i : RuleItem) (m : InboundContext) : bool :=
  base_answer w (item_started env i) m.

Lemma started_base env w b m :
  started_answer env w (ItemBase b) m =
  match b with
  | IClashMode r => se_ClashServer env && EqualFold (ClashServer_Mode w) (cm_mode r)
  | IPreferredBy r => PreferredByItem_Match w
      (mkPreferredByItem (pb_outboundTags r) (pb_outbounds r ++ pb_outboundTags r)%list) m
  | _ => BaseItem_Match w b m
  end.
Proof. by destruct b. Qed.

Lemma new_ip_version_Ok v i : new_ip_version v = Ok i -> i = IIPVersion (mkIPVersionItem (v =? 6)%Z).
Proof. unfold new_ip_version. case_match; intros; by simplify_eq. Qed.

Local Ltac solve_started_blocks :=
  repeat (apply Forall2_cons; split;
    [constructor; [done|done|
      intros i Hc Hi; cbn [lift_block blk_item blk_cond] in Hi, Hc; cbn [cd_holds];
      repeat match goal with H : fmap ItemBase _ = Ok _ |- _ => apply fmap_Ok in H as (? & ? & ->) end;
      try match goal with H : new_ip_version _ = Ok _ |- _ => apply new_ip_version_Ok in H; subst end;
      inv_bind; simplify_eq; rewrite started_base; cbv beta match; solve_item]|]);
  apply Forall2_nil_2.

Lemma route_blocks_conditions env w o m :
  Forall2 (block_cond (started_answer env w) m)
    (map lift_block (route_blocks_domain o ++ route_blocks_conn o ++ route_blocks_env o))
    (route_conditions env w o m).
Proof.
  unfold route_blocks_domain, route_blocks_conn, route_blocks_env, route_conditions. cbn [app map].
  solve_started_blocks.
Qed.

Lemma dns_blocks_conditions env w o m :
  Forall2 (block_cond (started_answer env w) m)
    (map lift_block (dns_blocks_domain o ++ dns_blocks_conn o ++ dns_blocks_env o))
    (dns_conditions env w o m).
Proof.
  unfold dns_blocks_domain, dns_blocks_conn, dns_blocks_env, dns_conditions. cbn [app map].
  solve_started_blocks.
Qed.

(** ** Start *)

Section Start.
Context {T : Type} {A : AdapterRuleSet T}.

Lemma start_tags_Ok tags : forall acc (st st' : gmap string T) l,
  start_tags tags acc st = (Ok l, st') -> l = (acc ++ tags)%list.
Proof.
  induction tags as [|t tags IH]; intros acc st st' l H; simpl in H.
  - simplify_eq. by rewrite app_nil_r.
  - case_match; [|done]. apply IH in H. by rewrite H, <- app_assoc.
Qed.

Lemma preferred_outbounds_Ok env tags : forall acc l,
  preferred_outbounds env tags acc = Ok l -> l = (acc ++ tags)%list.
Proof.
  induction tags as [|t tags IH]; intros acc l H; simpl in H.
  - simplify_eq. by rewrite app_nil_r.
  - repeat case_match; try done. apply IH in H. by rewrite H, <- app_assoc.
Qed.

Lemma RuleItem_Start_Ok env i (st st' : gmap string T) i' :
  RuleItem_Start env i st = (Ok i', st') -> i' = item_started env i.
Proof.
  destruct i as [b|r].
  - destruct b; simpl; intros; simplify_eq; try done.
    destruct (PreferredByItem_Start env r) eqn:E; simplify_eq/=.
    unfold PreferredByItem_Start in E. inv_bind.
    by match goal with H : preferred_outbounds _ _ _ = Ok _ |- _ => apply preferred_outbounds_Ok in H as -> end.
  - simpl. unfold RuleSetItem_Start.
    destruct (start_tags (rsi_tagList r) (rsi_setList r) st) as [[l| |] ?] eqn:E; simpl; intros; simplify_eq.
    by apply start_tags_Ok in E as ->.
Qed.

Lemma start_items_Ok env l : forall (st st' : gmap string T) l',
  start_items env l st = (Ok l', st') -> l' = map (item_started env) l.
Proof.
  induction l as [|i l IH]; intros st st' l' H; cbn [start_items] in H; [by simplify_eq|].
  destruct (RuleItem_Start env i st) as [[i'| |] st1] eqn:E; simplify_eq.
  destruct (start_items env l st1) as [[l1| |] st2] eqn:E'; simplify_eq/=.
  apply RuleItem_Start_Ok in E as ->. by apply IH in E' as ->.
Qed.

(** A started rule is the rule with every item started. *)
Lemma abstractDefaultRule_Start_Ok {Act} env (r r' : abstractDefaultRule RuleItem Act) (st st' : gmap string T) :
  abstractDefaultRule_Start env r st = (Ok r', st') -> r' = map_rule (item_started env) r.
Proof.
  unfold abstractDefaultRule_Start. destruct (start_items env (allItems r) st) as [[l| |] ?] eqn:E;
    simpl; intros; simplify_eq. by apply start_items_Ok in E as ->.
Qed.

(** ** Matching *)

Variable w : World.
Variable store : gmap string T.

Definition is_base (i : RuleItem) : Prop := match i with ItemBase _ => True | ItemRuleSet _ => False end.

Lemma base_answer_cache i m c :
  keeps_cidr_flags c (md_cache m) -> base_answer w i (set_cache c m) = base_answer w i m.
Proof. destruct i; [apply BaseItem_Match_cache|done]. Qed.

Lemma default_Match_base r m :
  rule_all is_base r ->
  default_Match w store r m = (rule_answer (base_answer w) r m, set_cache (rule_cache (base_answer w) r m) m).
Proof.
  intros H. rewrite <- abstractDefaultRule_Match_pure by apply base_answer_cache.
  by apply (abstractDefaultRule_Match_ext _ _ _ _ is_base); [intros []|intros []|].
Qed.

Lemma lifted_blocks_base bs :
  Forall (fun b => forall i, blk_item b = Ok i -> is_base (i : RuleItem)) (map lift_block bs).
Proof. apply Forall_map, Forall_true. intros b i. simpl. intros (? & _ & ->)%fmap_Ok. done. Qed.

(** The table may be read before the match flags are set. *)
Lemma started_conds_cache env (bs : list (block RuleItem)) cs m c :
  keeps_cidr_flags c (md_cache m) ->
  Forall2 (block_cond (started_answer env w) m) bs cs ->
  Forall2 (block_cond (started_answer env w) (set_cache c m)) bs cs.
Proof.
  intros Hc H. eapply Forall2_impl; [exact H|]. intros b d [Hg Hp Hh]. constructor; [done|done|].
  intros i Hb Hi. rewrite <- (Hh i) by done. by apply base_answer_cache.
Qed.

Lemma reset_ignore b m :
  ResetRuleCache (upd_cache (set_IgnoreDestinationIPCIDRMatch b) m) =
  set_cache (set_IgnoreDestinationIPCIDRMatch b (RuleCache_reset (md_cache m))) (ResetRuleCache m).
Proof.
  unfold upd_cache, ResetRuleCache at 2. by rewrite reset_set_cache, set_cache_set.
Qed.

Lemma started_rule_base env bs inv (act : option RuleAction) r :
  run_blocks (map lift_block bs) (rule_init inv act) = Ok r -> rule_all is_base (map_rule (item_started env) r).
Proof.
  intros Hr. apply map_rule_all. assert (rule_all is_base r) as Hb.
  { eapply run_blocks_all; [apply lifted_blocks_base| |exact Hr]. repeat split; constructor. }
  destruct Hb as (?&?&?&?&?&?). repeat split; (eapply Forall_impl; [eassumption|]); by intros [[]|].
Qed.

(** The common part of the theorems on route and DNS rules. *)
Lemma started_rule_answer env bs cs inv (act : option RuleAction) r r' (st st' : gmap string T) m :
  Forall2 (block_cond (started_answer env w) (ResetRuleCache m)) (map lift_block bs) cs ->
  run_blocks (map lift_block bs) (rule_init inv act) = Ok r ->
  abstractDefaultRule_Start env r st = (Ok r', st') ->
  rule_all is_base r' /\
  rule_answer (base_answer w) r' (ResetRuleCache m) =
  conditions_answer inv (active (IgnoreDestinationIPCIDRMatch (md_cache m)) cs).
Proof.
  intros Hc Hr Hs. apply abstractDefaultRule_Start_Ok in Hs as ->. split.
  - by eapply started_rule_base.
  - rewrite map_rule_answer. by eapply built_answer.
Qed.

(** C33: A route rule without rule-sets means what its options say.  If the options build a rule
    and the rule starts, its [Match] on a reset context is the documented formula: every
    condition outside the address and port groups holds, and in each group that is present (source
    address, source port, destination address together with destination CIDRs, destination port)
    one condition holds; [invert] negates the answer, and a rule without conditions matches. *)
Theorem DefaultRule_Match_conditions env dialer (o : opt_DefaultRule) r r' (st st' : gmap string T) m :
  ro_RuleSet (dr_Raw o) = [] ->
  NewDefaultRule dialer o = Ok r ->
  abstractDefaultRule_Start env r st = (Ok r', st') ->
  fst (Rule_Match w store (DefaultRule r') (ResetRuleCache m)) =
  conditions_answer (ro_Invert (dr_Raw o))
    (active (IgnoreDestinationIPCIDRMatch (md_cache m)) (route_conditions env w (dr_Raw o) (ResetRuleCache m))).
Proof.
  intros Hs Hr Hst. unfold NewDefaultRule in Hr. inv_bind.
  match goal with H : run_blocks _ _ = Ok _ |- _ => rename H into Hb end.
  unfold route_blocks in Hb. rewrite run_blocks_skip in Hb by (simpl; by rewrite Hs).
  destruct (started_rule_answer env _ _ _ _ _ _ _ _ m (route_blocks_conditions env w _ _) Hb Hst) as [Hi Ha].
  simpl. rewrite default_Match_base by done. by rewrite <- Ha.
Qed.

(** The two matches of a DNS rule without rule-sets.  [MatchAddressLimit] decides the whole
    table; [Match], used before the addresses are known, decides the table without the
    destination-CIDR conditions, and leaves [IgnoreDestinationIPCIDRMatch] cleared. *)
Theorem DefaultDNSRule_Match_conditions env (o : opt_DefaultDNSRule) r r' (st st' : gmap string T) m :
  dn_RuleSet (dd_Raw o) = [] ->
  NewDefaultDNSRule o = Ok r ->
  abstractDefaultRule_Start env r st = (Ok r', st') ->
  let table := dns_conditions env w (dd_Raw o) (ResetRuleCache m) in
  fst (DNSRule_Match w store (DefaultDNSRule r') (ResetRuleCache m)) =
    conditions_answer (dn_Invert (dd_Raw o)) (active true table) /\
  fst (DNSRule_MatchAddressLimit w store (DefaultDNSRule r') (ResetRuleCache m)) =
    conditions_answer (dn_Invert (dd_Raw o)) (active (IgnoreDestinationIPCIDRMatch (md_cache m)) table) /\
  IgnoreDestinationIPCIDRMatch (md_cache (snd (DNSRule_Match w store (DefaultDNSRule r') (ResetRuleCache m)))) = false.
Proof.
  intros Hs Hr Hst table. unfold NewDefaultDNSRule in Hr. inv_bind.
  match goal with H : run_blocks _ _ = Ok _ |- _ => rename H into Hb end.
  unfold dns_blocks in Hb. rewrite run_blocks_skip in Hb by (simpl; by rewrite Hs).
  pose proof (dns_blocks_conditions env w (dd_Raw o) (ResetRuleCache m)) as Ht. fold table in Ht.
  destruct (started_rule_answer env _ _ _ _ _ _ _ _ m Ht Hb Hst) as [Hi Ha].
  set (m' := upd_cache (set_IgnoreDestinationIPCIDRMatch true) m).
  assert (upd_cache (set_IgnoreDestinationIPCIDRMatch true) (ResetRuleCache m) = ResetRuleCache m') as E.
  { unfold m'. rewrite reset_ignore. unfold upd_cache. by rewrite reset_cache. }
  assert (Forall2 (block_cond (started_answer env w) (ResetRuleCache m')) (map lift_block (dns_blocks_domain (dd_Raw o) ++
        dns_blocks_conn (dd_Raw o) ++ dns_blocks_env (dd_Raw o))) table) as Ht'.
  { unfold m'. rewrite reset_ignore. apply started_conds_cache; [|done]. by rewrite reset_cache. }
  destruct (started_rule_answer env _ _ _ _ _ _ _ _ m' Ht' Hb Hst) as [_ Ha'].
  cbn [DNSRule_Match DNSRule_MatchAddressLimit]. unfold DefaultDNSRule_Match.
  rewrite E, !default_Match_base by done. cbn [fst snd]. rewrite Ha, Ha'.
  unfold m', upd_cache. by rewrite !set_cache_cache.
Qed.
End Start.

Lemma HeadlessRule_Match_pure w r m :
  HeadlessRule_Match w (DefaultHeadlessRule r) m =
  (rule_answer (BaseItem_Match w) r m, set_cache (rule_cache (BaseItem_Match w) r m) m).
Proof. exact (abstractDefaultRule_Match_pure _ (BaseItem_Match_cache w) r m). Qed.

(** A default rule of a rule-set, taken by itself, means what its options say. *)
Theorem DefaultHeadlessRule_Match_conditions nm w o r m :
  NewDefaultHeadlessRule nm o = Ok r ->
  fst (HeadlessRule_Match w (DefaultHeadlessRule r) (ResetRuleCache m)) =
  conditions_answer (ho_Invert o)
    (active (IgnoreDestinationIPCIDRMatch (md_cache m)) (headless_conditions nm w o (ResetRuleCache m))).
Proof.
  intros Hr. rewrite HeadlessRule_Match_pure. unfold NewDefaultHeadlessRule in Hr. cbn [fst].
  pose proof (headless_blocks_conditions nm w o (ResetRuleCache m)) as Ht.
  set (bs := (_ ++ _)%list) in Hr, Ht. clearbody bs. by apply (built_answer _ m bs _ _ tt).
Qed.
End Conditions.

(** ** The theorems at work *)

Section Witnesses.
#[local] Existing Instance sample.

Definition sample_env : StartEnv := mkStartEnv (fun _ => None) true.
Definition sample_action (act outbound : string) : RuleActionOptions :=
  mkRuleActionOptions act (mkRouteActionOptions outbound RawRouteOptions_zero) RawRouteOptions_zero
    (mkDirectOptions true []) (mkRouteActionOptions "" RawRouteOptions_zero) (mkRejectOptions "" false)
    (mkSniffOptions [] 0) (mkResolveOptions "" 0 false None None).
Definition sample_dns_action (server : string) : DNSRuleActionOptions :=
  mkDNSRuleActionOptions RuleActionTypeRoute (mkDNSRouteActionOptions server 0 false None None false)
    (mkDNSRouteOptionsActionOptions 0 false None None) (mkRejectOptions "" false)
    (mkPredefinedOptions None [] [] []).

(** [network=tcp domain_suffix=example.com ip_cidr=10.0.0.0/8 port=443 port_range=8000:8999
    clash_mode=Rule]. *)
Definition sample_raw_rule : opt_RawDefaultRule :=
  mkOptRawDefaultRule [] 0 ["tcp"] [] [] [] [] ["example.com"] [] [] [] [] [] [] false ["10.0.0.0/8"] false
    [] [] [443%N] ["8000:8999"] [] [] [] [] [] [] "Rule" [] false false [] [] [] false false false
    [] [] None None [] [].

Definition sample_rule : opt_DefaultRule := mkOptDefaultRule sample_raw_rule (sample_action "route" "proxy").
Definition sample_built : abstractDefaultRule RuleItem (option RuleAction) :=
  from_Ok (rule_init false None) (NewDefaultRule (Ok tt) sample_rule).
Definition sample_started (r : abstractDefaultRule RuleItem (option RuleAction)) :=
  from_Ok (rule_init false None) (fst (abstractDefaultRule_Start sample_env r (∅ : gmap string RuleSet))).

Lemma DefaultRule_Match_conditions_witness :
  let matches port := fst (Rule_Match sample_world (∅ : gmap string RuleSet) (DefaultRule (sample_started sample_built))
        (ResetRuleCache (sample_context "www.example.com" AddrNone port))) in
  matches 8443%N = true /\ matches 80%N = false.
Proof.
  assert (NewDefaultRule (Ok tt) sample_rule = Ok sample_built) as Hn.
  { apply is_Ok_from_Ok. vm_compute. reflexivity. }
  pose proof (is_Ok_from_Ok_fst (rule_init false None)
    (abstractDefaultRule_Start sample_env sample_built (∅ : gmap string RuleSet)) ltac:(vm_compute; reflexivity)) as Hs.
  split; (etransitivity;
    [exact (DefaultRule_Match_conditions sample_world ∅ sample_env (Ok tt) sample_rule _ _ _ _ _ eq_refl Hn Hs)
    |vm_compute; reflexivity]).
Defined.

(** [domain=example.org ip_cidr=10.0.0.0/8]. *)
Definition sample_raw_dns_rule : opt_RawDefaultDNSRule :=
  mkOptRawDefaultDNSRule [] 0 [] [] [] [] ["example.org"] [] [] [] [] [] [] ["10.0.0.0/8"] false false
    [] false [] [] [] [] [] [] [] [] [] [] [] "" [] false false [] [] [] false false false
    [] [] None None [] false.

Definition sample_dns_rule : opt_DefaultDNSRule := mkOptDefaultDNSRule sample_raw_dns_rule (sample_dns_action "local").
Definition sample_dns_built : abstractDefaultRule RuleItem (option RuleAction) :=
  from_Ok (rule_init false None) (NewDefaultDNSRule sample_dns_rule).

Lemma DefaultDNSRule_Match_conditions_witness :
  let r := DefaultDNSRule (sample_started sample_dns_built) in
  let m := ResetRuleCache (sample_context "other.org" (Addr4 (10 * 2 ^ 24 + 1)) 0) in
  fst (DNSRule_Match sample_world (∅ : gmap string RuleSet) r m) = false /\
  fst (DNSRule_MatchAddressLimit sample_world (∅ : gmap string RuleSet) r m) = true.
Proof.
  assert (NewDefaultDNSRule sample_dns_rule = Ok sample_dns_built) as Hn.
  { apply is_Ok_from_Ok. vm_compute. reflexivity. }
  pose proof (is_Ok_from_Ok_fst (rule_init false None)
    (abstractDefaultRule_Start sample_env sample_dns_built (∅ : gmap string RuleSet)) ltac:(vm_compute; reflexivity)) as Hs.
  destruct (DefaultDNSRule_Match_conditions sample_world ∅ sample_env sample_dns_rule _ _ _ _
    (sample_context "other.org" (Addr4 (10 * 2 ^ 24 + 1)) 0) eq_refl Hn Hs) as (H1 & H2 & _).
  split; (etransitivity; [first [exact H1|exact H2]|vm_compute; reflexivity]).
Defined.

(** [source_port=50000 port=53 invert=true]. *)
Definition sample_headless_rule : opt_DefaultHeadlessRule :=
  mkOptDefaultHeadlessRule [] [] [] [] [] [] [] [] [50000%N] [] [53%N] [] [] [] [] [] [] false false [] [] true
    None None None [] None [] [] None [].

Definition sample_headless_built : abstractDefaultRule BaseItem unit :=
  from_Ok (rule_init false tt) (NewDefaultHeadlessRule true sample_headless_rule).

Lemma DefaultHeadlessRule_Match_conditions_witness :
  let matches port := fst (HeadlessRule_Match sample_world (DefaultHeadlessRule sample_headless_built)
        (ResetRuleCache (sample_context "a.org" AddrNone port))) in
  matches 53%N = false /\ matches 80%N = true.
Proof.
  assert (NewDefaultHeadlessRule true sample_headless_rule = Ok sample_headless_built) as Hn.
  { apply is_Ok_from_Ok. vm_compute. reflexivity. }
  split; (etransitivity; [exact (DefaultHeadlessRule_Match_conditions true sample_world _ _ _ Hn)
    |vm_compute; reflexivity]).
Defined.
End Witnesses.
