(* ===== verification/RuleLaws.v ===== *)
(** * RuleLaws: laws of rule-sets and rules

    What a rule-set promises to the rules that refer to it ([RuleSetLaws], discharged for local
    and remote rule-sets), and the theorems on rules proved against that interface: matching
    writes only the rule cache, logical rules combine their sub-rules on reset contexts, and a
    DNS rule without address limit gives the same answer before and after resolution. *)

From S2P Require Import Prelude GoStd NetIP Metadata Sample RuleItems RuleMatch RuleAction RuleOptions RuleBuild.
From S2P Require Import RuleSet Rules RuleSpec RuleConditions.
Open Scope string_scope.

(** ** Induction on nested rules *)

Section Induction.
Context {X : Externals}.

Fixpoint HeadlessRule_nested_ind (P : HeadlessRule -> Prop)
  (Hd : forall r, P (DefaultHeadlessRule r))
  (Hl : forall r, Forall P (lr_rules r) -> P (LogicalHeadlessRule r)) (r : HeadlessRule) : P r :=
  match r with
  | DefaultHeadlessRule r => Hd r
  | LogicalHeadlessRule (mkLogicalRule rs mode inv act) =>
      Hl (mkLogicalRule rs mode inv act)
        ((fix go l : Forall P l := match l with
          | [] => Forall_nil_2 P
          | x :: l => Forall_cons_2 P x l (HeadlessRule_nested_ind P Hd Hl x) (go l) end) rs)
  end.

Fixpoint Rule_nested_ind (P : Rule -> Prop)
  (Hd : forall r, P (DefaultRule r))
  (Hl : forall r, Forall P (lr_rules r) -> P (LogicalRule r)) (r : Rule) : P r :=
  match r with
  | DefaultRule r => Hd r
  | LogicalRule (mkLogicalRule rs mode inv act) =>
      Hl (mkLogicalRule rs mode inv act)
        ((fix go l : Forall P l := match l with
          | [] => Forall_nil_2 P
          | x :: l => Forall_cons_2 P x l (Rule_nested_ind P Hd Hl x) (go l) end) rs)
  end.

Fixpoint DNSRule_nested_ind (P : DNSRule -> Prop)
  (Hd : forall r, P (DefaultDNSRule r))
  (Hl : forall r, Forall P (lr_rules r) -> P (LogicalDNSRule r)) (r : DNSRule) : P r :=
  match r with
  | DefaultDNSRule r => Hd r
  | LogicalDNSRule (mkLogicalRule rs mode inv act) =>
      Hl (mkLogicalRule rs mode inv act)
        ((fix go l : Forall P l := match l with
          | [] => Forall_nil_2 P
          | x :: l => Forall_cons_2 P x l (DNSRule_nested_ind P Hd Hl x) (go l) end) rs)
  end.

Fixpoint opt_HeadlessRule_nested_ind (P : opt_HeadlessRule -> Prop)
  (H : forall ty d l, Forall P (lo_Rules l) -> P (mkOptHeadlessRule ty d l)) (o : opt_HeadlessRule) : P o :=
  match o with
  | mkOptHeadlessRule ty d (mkOptLogical mode rs inv) =>
      H ty d (mkOptLogical mode rs inv)
        ((fix go l : Forall P l := match l with
          | [] => Forall_nil_2 P
          | x :: l => Forall_cons_2 P x l (opt_HeadlessRule_nested_ind P H x) (go l) end) rs)
  end.
End Induction.

(** ** Matchers that do not look at [IgnoreDestinationIPCIDRMatch] *)

Definition set_ignore (b : bool) (m : InboundContext) : InboundContext :=
  upd_cache (set_IgnoreDestinationIPCIDRMatch b) m.

Definition blind (f : matcher) : Prop :=
  forall b m, f (set_ignore b m) = (fst (f m), set_ignore b (snd (f m))).

Lemma set_ignore_upd b g m :
  (forall c, g (set_IgnoreDestinationIPCIDRMatch b c) = set_IgnoreDestinationIPCIDRMatch b (g c)) ->
  upd_cache g (set_ignore b m) = set_ignore b (upd_cache g m).
Proof. intros H. unfold set_ignore, upd_cache. by rewrite !set_cache_cache, !set_cache_set, H. Qed.

Lemma set_ignore_reset b m : ResetRuleCache (set_ignore b m) = set_ignore b (ResetRuleCache m).
Proof.
  unfold ResetRuleCache, set_ignore, upd_cache. by rewrite !set_cache_cache, !set_cache_set.
Qed.

Lemma set_ignore_cache b m :
  md_cache (set_ignore b m) = set_IgnoreDestinationIPCIDRMatch b (md_cache m).
Proof. unfold set_ignore, upd_cache. by rewrite set_cache_cache. Qed.

Lemma set_ignore_id m : set_ignore (IgnoreDestinationIPCIDRMatch (md_cache m)) m = m.
Proof. unfold set_ignore, upd_cache. destruct m as []; simpl. by destruct md_cache. Qed.

Section Blind.
Context {Item Action : Type}.
Variable item_Match : Item -> matcher.
Variable isRuleSet : Item -> bool.
Variable P : Item -> Prop.
Hypothesis item_blind : forall i, P i -> blind (item_Match i).

Lemma match_first_blind l : Forall P l -> blind (match_first item_Match l).
Proof.
  induction 1 as [|i l Hi _ IH]; intros b m; simpl; [done|].
  rewrite (item_blind i Hi). destruct (item_Match i m) as [[] m1]; simpl; [done|]. apply IH.
Qed.

Lemma match_group_blind l get set b m :
  (forall c, get (set_IgnoreDestinationIPCIDRMatch b c) = get c) ->
  (forall c, set true (set_IgnoreDestinationIPCIDRMatch b c) = set_IgnoreDestinationIPCIDRMatch b (set true c)) ->
  Forall P l ->
  match_group item_Match l get set (set_ignore b m) = set_ignore b (match_group item_Match l get set m).
Proof.
  intros Hget Hset Hl. unfold match_group. rewrite set_ignore_cache, Hget.
  destruct (nonempty l && _); [|done]. rewrite set_ignore_upd, match_first_blind by done.
  destruct (match_first _ _ _) as [[] m1]; simpl; [|done]. by apply set_ignore_upd.
Qed.

Lemma match_items_blind l : Forall P l -> blind (match_items item_Match isRuleSet l).
Proof.
  induction 1 as [|i l Hi _ IH]; intros b m; simpl; [done|].
  set (m0 := if isRuleSet i then m else _).
  assert ((if isRuleSet i then set_ignore b m else upd_cache (set_DidMatch true) (set_ignore b m)) =
    set_ignore b m0) as -> by (subst m0; destruct (isRuleSet i); [done|by apply set_ignore_upd]).
  rewrite (item_blind i Hi). destruct (item_Match i m0) as [[] m1]; simpl; [|done]. apply IH.
Qed.

(** A default rule without destination CIDRs whose items do not look at the flag. *)
Lemma abstractDefaultRule_Match_blind (r : abstractDefaultRule Item Action) :
  rule_all P r -> destinationIPCIDRItems r = [] -> blind (abstractDefaultRule_Match item_Match isRuleSet r).
Proof.
  intros (H1 & H2 & H3 & H4 & _ & H6) H5 b m. unfold abstractDefaultRule_Match.
  destruct (negb (nonempty (allItems r))); [done|].
  assert (forall m, match_groups item_Match r (set_ignore b m) = set_ignore b (match_groups item_Match r m)) as E.
  { intros m'. unfold match_groups. rewrite H5.
    assert (forall (c : bool), (if c then [] else []) = @nil Item) as N by (by intros []).
    rewrite !N. do 5 rewrite match_group_blind by done. done. }
  rewrite E, match_items_blind by done. set (k := match_items _ _ _ _). destruct k as [ok m6]; simpl.
  rewrite set_ignore_cache. rewrite H5. simpl. rewrite !andb_false_r. simpl.
  repeat match goal with |- context [if ?x then _ else _] => destruct x end; done.
Qed.
End Blind.

Lemma abstractLogicalRule_Match_blind {R Action} (rule_Match : R -> matcher) (r : abstractLogicalRule R Action) :
  Forall (fun r => blind (rule_Match r)) (lr_rules r) -> blind (abstractLogicalRule_Match rule_Match r).
Proof.
  intros H b m. unfold abstractLogicalRule_Match.
  assert (all_Match rule_Match (lr_rules r) (set_ignore b m) =
    (fst (all_Match rule_Match (lr_rules r) m), set_ignore b (snd (all_Match rule_Match (lr_rules r) m))) /\
    any_Match rule_Match (lr_rules r) (set_ignore b m) =
    (fst (any_Match rule_Match (lr_rules r) m), set_ignore b (snd (any_Match rule_Match (lr_rules r) m)))) as [E1 E2].
  { split; revert m; induction H as [|x l Hx _ IH]; intros m; simpl; try done;
    rewrite set_ignore_reset, (Hx b); destruct (rule_Match x _) as [[] m1]; simpl; try done; apply IH. }
  rewrite E1, E2. case_bool_decide; [by destruct (all_Match _ _ m)|by destruct (any_Match _ _ m)].
Qed.

(** ** The contract of a rule-set *)

Section Contract.
Context {X : Externals}.

(** What a rule-set promises: matching is framed; the reference count and [Cleanup]; the answer
    does not change with the counting; and, in the states the program reaches ([law_ok]), a
    rule-set whose metadata shows no IP-CIDR rule does not look at the flag that suspends
    destination CIDRs. *)
Class RuleSetLaws (T : Type) {A : AdapterRuleSet T} : Type := {
  law_ok : T -> Prop;
  law_refs : T -> Z;
  law_Match_framed : forall w s, framed (Match w s);
  law_Match_blind : forall w s, law_ok s -> ContainsIPCIDRRule (Metadata s) = false -> blind (Match w s);
  law_IncRef : forall s, law_refs (IncRef s) = wrap_int32 (law_refs s + 1) /\
    Metadata (IncRef s) = Metadata s /\ forall w, Match w (IncRef s) = Match w s;
  law_IncRef_ok : forall s, law_ok s -> law_ok (IncRef s);
  law_DecRef : forall s s', DecRef s = Ok s' -> law_refs s' = wrap_int32 (law_refs s - 1) /\ (0 <= law_refs s')%Z /\
    Metadata s' = Metadata s /\ forall w, Match w s' = Match w s;
  law_Cleanup_used : forall s, law_refs s <> 0%Z -> Cleanup s = s;
  law_Cleanup_unused : forall s, law_refs s = 0%Z -> ExtractIPSet (Cleanup s) = [] /\
    forall w m, Match w (Cleanup s) m = (false, m)
}.

(** ** Headless rules *)

Lemma BaseItem_matcher_framed w i : framed (BaseItem_matcher w i).
Proof. by intros m. Qed.

Lemma BaseItem_matcher_blind w i : blind (BaseItem_matcher w i).
Proof.
  intros b m. unfold BaseItem_matcher, set_ignore, upd_cache. simpl.
  by rewrite BaseItem_Match_cache by (by split).
Qed.

Lemma HeadlessRule_Match_framed w r : framed (HeadlessRule_Match w r).
Proof.
  induction r as [r|r IH] using HeadlessRule_nested_ind.
  - apply (abstractDefaultRule_Match_framed _ _ (fun _ => True)).
    + intros i _. apply BaseItem_matcher_framed.
    + repeat split; by apply Forall_true.
  - intros m. by apply abstractLogicalRule_Match_spec.
Qed.

Lemma rules_Match_framed w l : framed (rules_Match w l).
Proof.
  induction l as [|r l IH]; intros m; simpl; [done|].
  pose proof (HeadlessRule_Match_framed w r m) as H.
  destruct (HeadlessRule_Match w r m) as [[] m1]; simpl in *; [done|]. by rewrite (IH m1).
Qed.

(** A rule without destination CIDRs, at any depth. *)
Fixpoint no_ip_cidr (r : HeadlessRule) : bool :=
  match r with
  | DefaultHeadlessRule r => negb (nonempty (destinationIPCIDRItems r))
  | LogicalHeadlessRule r => forallb no_ip_cidr (lr_rules r)
  end.

Lemma HeadlessRule_Match_blind w r : no_ip_cidr r = true -> blind (HeadlessRule_Match w r).
Proof.
  induction r as [r|r IH] using HeadlessRule_nested_ind; simpl; intros H.
  - apply (abstractDefaultRule_Match_blind _ _ (fun _ => True)).
    + intros i _. apply BaseItem_matcher_blind.
    + repeat split; by apply Forall_true.
    + by destruct (destinationIPCIDRItems r).
  - apply abstractLogicalRule_Match_blind. rewrite Forall_forall in *. intros x Hx. apply IH; [done|].
    rewrite forallb_true_iff in H. by apply H.
Qed.

Lemma rules_Match_blind w l : forallb no_ip_cidr l = true -> blind (rules_Match w l).
Proof.
  induction l as [|r l IH]; intros H b m; simpl; [done|]. simpl in H. apply andb_true_iff in H as [Hr Hl].
  rewrite HeadlessRule_Match_blind by done. destruct (HeadlessRule_Match w r m) as [[] m1]; simpl; [done|].
  by apply IH.
Qed.

(** ** Loading: the metadata describes the rules *)

(** The decoder gives every rule its type. *)
Fixpoint typed (o : opt_HeadlessRule) : bool :=
  match o with
  | mkOptHeadlessRule ty _ l =>
      bool_decide (ty = RuleTypeDefault) || bool_decide (ty = RuleTypeLogical) && forallb typed (lo_Rules l)
  end.

Lemma destinationIPCIDR_built nm o r :
  NewDefaultHeadlessRule nm o = Ok r -> isIPCIDRHeadlessRule o = false -> destinationIPCIDRItems r = [].
Proof.
  intros H Ho. apply orb_false_iff in Ho as [H1 H2].
  apply (run_blocks_group GDestinationIPCIDR) in H; [exact H|].
  unfold headless_blocks_conn, headless_blocks_env. cbn [app].
  repeat (apply Forall_cons; split; [cbn [blk_group blk_cond]; intros ?; first [done | by rewrite ?H1, ?H2]|]).
  apply Forall_nil_2.
Qed.

Lemma new_sub_rules_Forall2 {O R : Type} (new : O -> result R) l : forall i rs,
  new_sub_rules new i l = Ok rs -> Forall2 (fun o r => new o = Ok r) l rs.
Proof.
  induction l as [|o l IH]; intros i rs H; cbn [new_sub_rules] in H; [simplify_eq; constructor|].
  inv_bind. constructor; [done|]. by eapply IH.
Qed.

Lemma new_headless_rules_Forall2 nm l : forall i rs,
  new_headless_rules nm i l = Ok rs -> Forall2 (fun o r => NewHeadlessRule nm o = Ok r) l rs.
Proof.
  induction l as [|o l IH]; intros i rs H; cbn [new_headless_rules] in H; [simplify_eq; constructor|].
  inv_bind. constructor; [done|]. by eapply IH.
Qed.

Lemma Forall2_forallb {O R} (Q : O -> R -> Prop) (p : R -> bool) l rs :
  Forall2 Q l rs -> (forall o r, o ∈ l -> Q o r -> p r = true) -> forallb p rs = true.
Proof.
  induction 1 as [|o r l rs Hq _ IH]; intros Hp; [done|]. cbn.
  rewrite (Hp o r) by set_solver. apply IH. set_solver.
Qed.

Lemma new_logical_Ok {O R Act : Type} (new : O -> result R) (act : Act) l r :
  new_logical new act l = Ok r ->
  Forall2 (fun o r => new o = Ok r) (lo_Rules l) (lr_rules r) /\
  lr_mode r = lo_Mode l /\ lr_invert r = lo_Invert l /\ lr_action r = act.
Proof.
  unfold new_logical. intros H. destruct (_ || _); [|done]. inv_bind. simpl.
  split; [|done]. by eapply new_sub_rules_Forall2.
Qed.

(** A rule built from options without [ip_cidr] has no destination CIDRs. *)
Lemma NewHeadlessRule_no_ip_cidr nm o : forall r,
  NewHeadlessRule nm o = Ok r -> typed o = true ->
  has_headless_rule isIPCIDRHeadlessRule o = false -> no_ip_cidr r = true.
Proof.
  induction o as [ty d l IH] using opt_HeadlessRule_nested_ind. intros r Hr Ht Hh.
  cbn [NewHeadlessRule typed has_headless_rule] in *.
  destruct (bool_decide (ty = RuleTypeDefault)) eqn:Hd.
  - rewrite orb_true_r in Hr. destruct (opt_DefaultHeadlessRule_IsValid d); [|done]. inv_bind.
    cbn [no_ip_cidr]. by erewrite destinationIPCIDR_built.
  - apply bool_decide_eq_false in Hd. cbn [orb] in Ht. apply andb_true_iff in Ht as [Hty Htl].
    rewrite Hty in *. apply bool_decide_eq_true in Hty as ->. simpl in Hr.
    apply bind_Ok in Hr as (v & _ & Hr). destruct v; [|done]. inv_bind.
    cbn [no_ip_cidr]. match goal with H : new_logical _ _ _ = Ok _ |- _ => apply new_logical_Ok in H as [Hf _] end.
    apply (Forall2_forallb _ _ _ _ Hf). intros o r Ho Hr.
    rewrite Forall_forall in IH. apply (IH o Ho); [done| |].
    + rewrite forallb_true_iff in Htl. by apply Htl.
    + apply (existsb_false_in _ _ _ Hh Ho).
Qed.

Lemma new_headless_rules_no_ip_cidr nm l rs :
  new_headless_rules nm 0 l = Ok rs -> forallb typed l = true ->
  ContainsIPCIDRRule (metadata_of l) = false -> forallb no_ip_cidr rs = true.
Proof.
  intros H Ht Hm. apply new_headless_rules_Forall2 in H. apply (Forall2_forallb _ _ _ _ H).
  intros o r Ho Hr. apply (NewHeadlessRule_no_ip_cidr nm o); [done| |].
  - rewrite forallb_true_iff in Ht. by apply Ht.
  - apply (existsb_false_in _ _ _ Hm Ho).
Qed.

(** The metadata of a rule-set is an upper bound of what its rules contain. *)
Definition metadata_sound (md : RuleSetMetadata) (rules : list HeadlessRule) : Prop :=
  ContainsIPCIDRRule md = false -> forallb no_ip_cidr rules = true.

(** ** Instances *)

#[export] Instance LocalRuleSet_laws : RuleSetLaws LocalRuleSet.
Proof.
  unshelve econstructor.
  - exact (fun s => metadata_sound (ls_metadata s) (ls_rules s)).
  - exact ls_refs.
  - intros w s. apply rules_Match_framed.
  - intros w s Hs Hm. by apply rules_Match_blind, Hs.
  - by intros s.
  - by intros s.
  - intros s s' H. simpl in H. unfold LocalRuleSet_DecRef in H.
    destruct (_ <? 0)%Z eqn:E; [done|]. apply Z.ltb_ge in E. by simplify_eq/=.
  - intros s H. simpl. unfold LocalRuleSet_Cleanup. by rewrite (proj2 (Z.eqb_neq _ _) H).
  - intros s H. simpl. unfold LocalRuleSet_Cleanup. by rewrite H.
Defined.

#[export] Instance RemoteRuleSet_laws : RuleSetLaws RemoteRuleSet.
Proof.
  unshelve econstructor.
  - exact (fun s => metadata_sound (rr_metadata s) (rr_rules s)).
  - exact rr_refs.
  - intros w s. apply rules_Match_framed.
  - intros w s Hs Hm. by apply rules_Match_blind, Hs.
  - by intros s.
  - by intros s.
  - intros s s' H. simpl in H. unfold RemoteRuleSet_DecRef in H.
    destruct (_ <? 0)%Z eqn:E; [done|]. apply Z.ltb_ge in E. by simplify_eq/=.
  - intros s H. simpl. unfold RemoteRuleSet_Cleanup. by rewrite (proj2 (Z.eqb_neq _ _) H).
  - intros s H. simpl. unfold RemoteRuleSet_Cleanup. by rewrite H.
Defined.

#[export] Instance RuleSet_laws : RuleSetLaws RuleSet.
Proof.
  unshelve econstructor.
  - exact (fun s => match s with ALocal s => law_ok s | ARemote s => law_ok s end).
  - exact (fun s => match s with ALocal s => law_refs s | ARemote s => law_refs s end).
  - intros w [s|s]; exact (law_Match_framed w s).
  - intros w [s|s]; exact (law_Match_blind w s).
  - intros [s|s]; exact (law_IncRef s).
  - intros [s|s]; exact (law_IncRef_ok s).
  - intros [s|s] s' H; apply fmap_Ok in H as (t & H & ->); exact (law_DecRef s t H).
  - intros [s|s] H; simpl; f_equal; exact (law_Cleanup_used s H).
  - intros [s|s]; exact (law_Cleanup_unused s).
Defined.
End Contract.

(** ** Rules, against the contract *)

Section Rules.
Context {X : Externals} {T : Type} {A : AdapterRuleSet T} {L : RuleSetLaws T}.
Variable w : World.
Variable store : gmap string T.

Lemma sets_Match_framed l : framed (sets_Match w store l).
Proof.
  induction l as [|t l IH]; intros m; simpl; [done|].
  destruct (store !! t) as [s|]; [|apply IH].
  pose proof (law_Match_framed w s m) as H. destruct (Match w s m) as [[] m1]; simpl in *; [done|].
  by rewrite (IH m1).
Qed.

Lemma RuleSetItem_Match_framed r : framed (RuleSetItem_Match w store r).
Proof.
  intros m. unfold RuleSetItem_Match. rewrite (sets_Match_framed _ _).
  by rewrite !same_frame_upd.
Qed.

Lemma RuleItem_Match_framed i : framed (RuleItem_Match w store i).
Proof. destruct i; [apply BaseItem_matcher_framed|apply RuleSetItem_Match_framed]. Qed.

Lemma default_Match_framed r : framed (default_Match w store r).
Proof.
  apply (abstractDefaultRule_Match_framed _ _ (fun _ => True)).
  - intros i _. apply RuleItem_Match_framed.
  - repeat split; by apply Forall_true.
Qed.

Lemma Rule_Match_framed_aux r : framed (Rule_Match w store r).
Proof.
  induction r as [r|r IH] using Rule_nested_ind.
  - apply default_Match_framed.
  - intros m. by apply abstractLogicalRule_Match_spec.
Qed.

(** Matching a route rule, whatever its rule-sets and however nested, changes nothing of the
    connection metadata but the rule cache, and there not the flag [ResetRuleCache] keeps. *)
Theorem Rule_Match_framed r m :
  ResetRuleCache (snd (Rule_Match w store r m)) = ResetRuleCache m.
Proof. apply same_frame_eq, Rule_Match_framed_aux. Qed.

(** A logical route rule is the conjunction or the disjunction of its sub-rules, each
    evaluated on the reset context: no sub-rule sees the match flags of another one, or those set
    before. *)
Theorem LogicalRule_Match_spec r m :
  fst (Rule_Match w store (LogicalRule r) m) =
  xorb (lr_invert r)
    (if bool_decide (lr_mode r = LogicalTypeAnd)
     then forallb (fun s => fst (Rule_Match w store s (ResetRuleCache m))) (lr_rules r)
     else existsb (fun s => fst (Rule_Match w store s (ResetRuleCache m))) (lr_rules r)).
Proof.
  apply (abstractLogicalRule_Match_spec (Rule_Match w store) r m).
  apply Forall_true. intros s. apply Rule_Match_framed_aux.
Qed.

(** ** DNS rules and the address limit *)

(** While [Ignore...] is clear, which it is outside [DefaultDNSRule.Match]. *)
Definition not_ignoring (m : InboundContext) : Prop := IgnoreDestinationIPCIDRMatch (md_cache m) = false.

Lemma not_ignoring_frame m m' : same_frame m m' -> not_ignoring m' -> not_ignoring m.
Proof. unfold not_ignoring. intros H <-. by apply same_frame_ignore. Qed.

Lemma set_ignore_clear m : not_ignoring m -> set_ignore false m = m.
Proof. unfold not_ignoring. intros H. rewrite <- H at 1. apply set_ignore_id. Qed.

Lemma set_ignore_twice a b m : set_ignore a (set_ignore b m) = set_ignore a m.
Proof. unfold set_ignore, upd_cache. by rewrite set_cache_cache, set_cache_set. Qed.

Lemma DNSRule_Match_frame_aux r m : not_ignoring m -> same_frame (snd (DNSRule_Match w store r m)) m.
Proof.
  revert m. induction r as [r|r IH] using DNSRule_nested_ind; intros m Hm.
  - simpl. unfold DefaultDNSRule_Match.
    pose proof (default_Match_framed r (set_ignore true m)) as H. fold (set_ignore true m).
    destruct (default_Match _ _ _ _) as [b m1]; simpl in *. fold (set_ignore false m1).
    apply same_frame_set in H. rewrite H. set (c := md_cache m1).
    split. unfold set_ignore, upd_cache. rewrite !set_cache_set, !reset_set_cache, !set_cache_cache.
    unfold ResetRuleCache. f_equal. unfold RuleCache_reset. simpl. by rewrite Hm.
  - simpl. unfold abstractLogicalRule_Match.
    assert (forall l m, Forall (fun r => forall m, not_ignoring m -> same_frame (snd (DNSRule_Match w store r m)) m) l ->
      not_ignoring m -> same_frame (snd (all_Match (DNSRule_Match w store) l m)) m /\
      same_frame (snd (any_Match (DNSRule_Match w store) l m)) m) as H.
    { clear. intros l m Hl. revert m. induction Hl as [|x l Hx _ IHl]; intros m Hm; [done|].
      cbn [all_Match any_Match].
      assert (not_ignoring (ResetRuleCache m)) as Hr by (eapply not_ignoring_frame; [apply same_frame_reset|done]).
      specialize (Hx _ Hr). destruct (DNSRule_Match w store x (ResetRuleCache m)) as [[] m1]; simpl in *;
      rewrite same_frame_reset in Hx; destruct (IHl m1) as [I1 I2];
        try (by eapply not_ignoring_frame); rewrite ?I1, ?I2; done. }
    destruct (H _ m IH Hm). case_bool_decide.
    + by destruct (all_Match _ _ m).
    + by destruct (any_Match _ _ m).
Qed.

Definition item_plain (i : RuleItem) : bool :=
  match i with ItemBase _ => true | ItemRuleSet s => negb (rsi_ipCidrMatchSource s) end.
(** Rule-set items, which only occur in [items], match no source addresses. *)
Fixpoint dns_rule_plain (r : DNSRule) : bool :=
  match r with
  | DefaultDNSRule r =>
      forallb item_plain (items r) &&
      forallb (fun i => negb (isRuleSetItem i)) (sourceAddressItems r ++ sourcePortItems r
        ++ destinationAddressItems r ++ destinationIPCIDRItems r ++ destinationPortItems r)
  | LogicalDNSRule r => forallb dns_rule_plain (lr_rules r)
  end.

Lemma sets_Match_blind l :
  (forall t s, t ∈ l -> store !! t = Some s -> blind (Match w s)) -> blind (sets_Match w store l).
Proof.
  induction l as [|t l IH]; intros H b m; simpl; [done|].
  assert (blind (sets_Match w store l)) as Hl by (apply IH; set_solver).
  destruct (store !! t) as [s|] eqn:E; [|apply Hl].
  rewrite (H t s) by (done || set_solver). destruct (Match w s m) as [[] m1]; simpl; [done|]. apply Hl.
Qed.

Lemma RuleSetItem_Match_blind r :
  map_Forall (fun _ s => law_ok s) store -> rsi_ipCidrMatchSource r = false ->
  RuleSetItem_ContainsDestinationIPCIDRRule store r = false -> blind (RuleSetItem_Match w store r).
Proof.
  intros Hok Hs Hc b m. unfold RuleSetItem_Match, RuleSetItem_ContainsDestinationIPCIDRRule in *.
  rewrite Hs in Hc. rewrite !set_ignore_upd by done. apply sets_Match_blind.
  intros t s Ht E. apply law_Match_blind; [by eapply Hok|].
  pose proof (existsb_false_in _ _ _ Hc Ht) as H. simpl in H. by rewrite E in H.
Qed.

Lemma default_Match_blind r :
  map_Forall (fun _ s => law_ok s) store -> dns_rule_plain (DefaultDNSRule r) = true ->
  DefaultDNSRule_WithAddressLimit store r = false -> blind (default_Match w store r).
Proof.
  intros Hok Hp Hl. unfold DefaultDNSRule_WithAddressLimit in Hl. apply orb_false_iff in Hl as [Hn He].
  cbn [dns_rule_plain] in Hp. apply andb_true_iff in Hp as [Hi Hg].
  apply (abstractDefaultRule_Match_blind _ _ (fun i => blind (RuleItem_Match w store i))); [done| |].
  - assert (forall l, forallb (fun i => negb (isRuleSetItem i)) l = true ->
      Forall (fun i => blind (RuleItem_Match w store i)) l) as Hb.
    { intros l H. apply Forall_forall. intros i Hx. rewrite forallb_true_iff in H.
      specialize (H i Hx). destruct i; [apply BaseItem_matcher_blind|done]. }
    rewrite !forallb_app in Hg. repeat rewrite andb_true_iff in Hg. destruct Hg as (?&?&?&?&?).
    split; [|by repeat split; apply Hb].
    apply Forall_forall. intros i Hx. destruct i as [i|s]; [apply BaseItem_matcher_blind|].
    rewrite forallb_true_iff in Hi. specialize (Hi _ Hx). simpl in Hi.
    apply RuleSetItem_Match_blind; [done|by destruct (rsi_ipCidrMatchSource s)|].
    exact (existsb_false_in _ _ _ He Hx).
  - by apply nonempty_false.
Qed.

(** A DNS rule without address limit (no destination CIDR among its conditions or in its
    rule-sets) gives the same answer, and leaves the same metadata, when it is matched before the
    query is resolved ([Match]) and when it is checked against the resolved addresses
    ([MatchAddressLimit]); this is why the DNS router checks only the rules with one. *)
Theorem DNSRule_Match_without_address_limit r m :
  map_Forall (fun _ s => law_ok s) store -> dns_rule_plain r = true ->
  DNSRule_WithAddressLimit store r = false -> not_ignoring m ->
  DNSRule_Match w store r m = DNSRule_MatchAddressLimit w store r m.
Proof.
  intros Hok. revert m. induction r as [r|r IH] using DNSRule_nested_ind; intros m Hp Hl Hm.
  - cbn [DNSRule_Match DNSRule_MatchAddressLimit]. unfold DefaultDNSRule_Match. fold (set_ignore true m).
    rewrite default_Match_blind by done. fold (set_ignore false (set_ignore true (snd (default_Match w store r m)))).
    rewrite set_ignore_twice, set_ignore_clear; [by destruct (default_Match w store r m)|].
    eapply not_ignoring_frame; [apply default_Match_framed|done].
  - cbn [DNSRule_Match DNSRule_MatchAddressLimit DNSRule_WithAddressLimit dns_rule_plain] in *.
    unfold abstractLogicalRule_Match. rewrite forallb_true_iff in Hp.
    assert (forall l m, not_ignoring m ->
      Forall (fun r => forall m, not_ignoring m -> DNSRule_Match w store r m = DNSRule_MatchAddressLimit w store r m) l ->
      all_Match (DNSRule_Match w store) l m = all_Match (DNSRule_MatchAddressLimit w store) l m /\
      any_Match (DNSRule_Match w store) l m = any_Match (DNSRule_MatchAddressLimit w store) l m) as H.
    { clear -L. intros l m Hm Hl. revert m Hm. induction Hl as [|x l Hx _ IHl]; intros m Hm; [done|].
      cbn [all_Match any_Match].
      assert (not_ignoring (ResetRuleCache m)) as Hr by (eapply not_ignoring_frame; [apply same_frame_reset|done]).
      pose proof (DNSRule_Match_frame_aux x _ Hr) as Hf. rewrite <- (Hx _ Hr).
      destruct (DNSRule_Match w store x (ResetRuleCache m)) as [[] m1]; simpl in Hf;
        destruct (IHl m1) as [I1 I2]; try (by eapply not_ignoring_frame); by rewrite ?I1, ?I2. }
    destruct (H (lr_rules r) m Hm) as [-> ->]; [|done].
    rewrite Forall_forall in *. intros x Hx m' Hm'. apply IH; try done; [by apply Hp|].
    exact (existsb_false_in _ _ _ Hl Hx).
Qed.
End Rules.

(** ** The states of a rule-set *)

Section States.
Context {X : Externals}.
Variable dec : Decoders.
Variable nm : bool.

(** The decoders give every rule its type, as [HeadlessRule.UnmarshalJSON] and [srs.Read] do. *)
Definition decoders_typed : Prop := forall c p,
  dec_json dec c = Ok p \/ dec_srs dec c = Ok p -> forallb typed (prc_Rules p) = true.

(** What can happen to a remote rule-set and its cache, after construction. *)
Inductive remote_step : RemoteRuleSet * SavedSets -> RemoteRuleSet * SavedSets -> Prop :=
| remote_start detour s s' c :
    RemoteRuleSet_StartContext dec nm detour c s = Ok s' -> remote_step (s, c) (s', c)
| remote_update now http saveErr s s' c c' :
    RemoteRuleSet_updateOnce dec nm now http saveErr s c = Ok (s', c') -> remote_step (s, c) (s', c')
| remote_incref s c : remote_step (s, c) (RemoteRuleSet_IncRef s, c)
| remote_decref s s' c : RemoteRuleSet_DecRef s = Ok s' -> remote_step (s, c) (s', c)
| remote_cleanup s c : remote_step (s, c) (RemoteRuleSet_Cleanup s, c)
| remote_register s c : remote_step (s, c) (snd (RemoteRuleSet_RegisterCallback s), c)
| remote_unregister e s c : remote_step (s, c) (RemoteRuleSet_UnregisterCallback e s, c)
| remote_close s c : remote_step (s, c) (RemoteRuleSet_Close s, c).

Lemma loadBytes_sound content s s' cb :
  decoders_typed -> RemoteRuleSet_loadBytes dec nm content s = Ok (s', cb) ->
  metadata_sound (rr_metadata s') (rr_rules s').
Proof.
  intros Hd H. unfold RemoteRuleSet_loadBytes in H. inv_bind.
  match goal with H : PlainRuleSetCompat_Upgrade ?p = Ok _ |- _ =>
    unfold PlainRuleSetCompat_Upgrade in H; destruct (_ && _); [|done]; simplify_eq end.
  intros Hm. eapply new_headless_rules_no_ip_cidr; [eassumption| |exact Hm].
  eapply Hd. repeat case_match; eauto; done.
Qed.

Lemma metadata_sound_nil md : metadata_sound md [].
Proof. by intros _. Qed.

Lemma remote_step_sound p q :
  decoders_typed -> remote_step p q -> metadata_sound (rr_metadata (fst p)) (rr_rules (fst p)) ->
  metadata_sound (rr_metadata (fst q)) (rr_rules (fst q)).
Proof.
  intros Hd Hs Hp. inversion Hs as [? ? ? ? H|? ? ? ? ? ? ? H| |? ? ? H| | | |]; subst; simpl in *.
  - unfold RemoteRuleSet_StartContext in H. destruct (_ && _); [done|].
    destruct (_ ≫= _) as [b|]; [|by simplify_eq]. apply bind_Ok in H as ([s1 cb] & H1 & H2).
    apply with_cause_Ok in H1. simplify_eq. simpl. by eapply loadBytes_sound.
  - unfold RemoteRuleSet_updateOnce in H. apply bind_Ok in H as ([[e s1] c1] & H1 & H2).
    assert (metadata_sound (rr_metadata s1) (rr_rules s1)) as Hs1.
    { unfold RemoteRuleSet_fetch in H1. repeat case_match; simplify_eq; try done; simpl; eauto using loadBytes_sound. }
    repeat case_match; simplify_eq; try done.
  - done.
  - unfold RemoteRuleSet_DecRef in H. case_match; [done|]. by simplify_eq.
  - unfold RemoteRuleSet_Cleanup. by case_match.
  - done.
  - done.
  - done.
Qed.

(** In every state a remote rule-set reaches, its metadata is right about destination CIDRs:
    when it reports none, no rule of the set has one, at any depth.  The address limit of DNS
    rules and the previous theorem rely on it. *)
Theorem remote_reachable_sound o c q :
  decoders_typed -> rtc remote_step (NewRemoteRuleSet o, c) q -> law_ok (fst q).
Proof.
  intros Hd H. change (metadata_sound (rr_metadata (fst q)) (rr_rules (fst q))).
  assert (metadata_sound (rr_metadata (fst (NewRemoteRuleSet o, c))) (rr_rules (fst (NewRemoteRuleSet o, c)))) as H0
    by apply metadata_sound_nil.
  revert H0. induction H as [|x y z Hs _ IH]; intros H0; [done|]. apply IH. by eapply remote_step_sound.
Qed.

(** A failed update changes nothing: when the download or the new content is refused, the
    rule-set keeps its rules, metadata, timestamp and etag, and the cache its entry. *)
Theorem fetch_failed_unchanged now http saveErr s c e s' c' :
  RemoteRuleSet_fetch dec nm now http saveErr s c = Ok (Some e, s', c') -> s' = s /\ c' = c.
Proof. unfold RemoteRuleSet_fetch. intros H. repeat case_match; by simplify_eq. Qed.

(** Cache round trip.  After a successful download that the cache file stored, a new process
    that starts the same rule-set from the cache has the same rules, metadata, timestamp and etag
    as the running one. *)
Theorem fetch_cache_roundtrip now http detour s t s' c' content etag :
  http (rr_lastEtag s) = HttpResponse 200 (Ok content) etag ->
  RemoteRuleSet_fetch dec nm now http None s (Some t) = Ok (None, s', c') ->
  detour (os_DownloadDetour (rr_options s)) = true ->
  exists s1, RemoteRuleSet_StartContext dec nm detour c' (NewRemoteRuleSet (rr_options s)) = Ok s1 /\
    rr_rules s1 = rr_rules s' /\ rr_metadata s1 = rr_metadata s' /\
    rr_lastUpdated s1 = rr_lastUpdated s' /\ rr_lastEtag s1 = rr_lastEtag s'.
Proof.
  intros Hh Hf Hd. unfold RemoteRuleSet_fetch in Hf. rewrite Hh in Hf. simpl in Hf.
  destruct (RemoteRuleSet_loadBytes dec nm content s) as [[s1 cb]| |] eqn:Hl; simplify_eq.
  unfold RemoteRuleSet_loadBytes in Hl. inv_bind. unfold RemoteRuleSet_StartContext. simpl.
  rewrite Hd, andb_false_r, lookup_insert, decide_True by done. simpl.
  unfold RemoteRuleSet_loadBytes. simpl. repeat (rewrite_Ok; simpl). by eexists.
Qed.
End States.

(** ** The theorems at work *)

Section Witnesses.
#[local] Existing Instance sample.

(** A DNS rule [domain=example.org], no address limit. *)
Definition domain_dns_rule : DNSRule :=
  DefaultDNSRule (add_item GDestinationAddress (ItemBase (IDomainKeyword (mkDomainKeywordItem ["example"])))
    (rule_init false None)).

Lemma DNSRule_Match_without_address_limit_witness :
  DNSRule_WithAddressLimit (∅ : gmap string RuleSet) domain_dns_rule = false /\
  DNSRule_Match sample_world (∅ : gmap string RuleSet) domain_dns_rule (sample_context "example.org" AddrNone 0) =
  DNSRule_MatchAddressLimit sample_world (∅ : gmap string RuleSet) domain_dns_rule
    (sample_context "example.org" AddrNone 0).
Proof.
  split; [reflexivity|].
  apply (DNSRule_Match_without_address_limit sample_world (∅ : gmap string RuleSet) domain_dns_rule);
    [apply map_Forall_empty|reflexivity|reflexivity|reflexivity].
Defined.

(** Every document holds the rule [ip_cidr=10.0.0.0/8]. *)
Definition sample_file : PlainRuleSetCompat :=
  mkPlainRuleSetCompat 1 [mkOptHeadlessRule RuleTypeDefault
    (mkOptDefaultHeadlessRule [] [] [] [] [] [] [] ["10.0.0.0/8"] [] [] [] [] [] [] [] [] [] false false [] [] false
      None None None [] None [] [] None []) (mkOptLogical "" [] false)].
Definition sample_decoders : Decoders := mkDecoders (fun _ => Ok sample_file) (fun _ => Err (ELib "srs.Read")).
Definition sample_remote : opt_RuleSet := mkOptRuleSet "remote" "lan" "source" [] "" "https://example.org/lan.json" "" 0.
Definition sample_http (etag : string) : http_outcome := HttpResponse 200 (Ok "document") "v1".

Lemma remote_reachable_sound_witness :
  exists s, RemoteRuleSet_updateOnce sample_decoders true 5 sample_http None
      (RemoteRuleSet_IncRef (NewRemoteRuleSet sample_remote)) (Some ∅) = Ok s /\
    law_ok (fst s) /\ ContainsIPCIDRRule (rr_metadata (fst s)) = true.
Proof.
  eexists. split; [reflexivity|]. split; [|reflexivity].
  eapply (remote_reachable_sound sample_decoders true sample_remote (Some ∅)).
  - intros c p [H|H]; [injection H as <-; reflexivity|discriminate H].
  - eapply rtc_l; [apply remote_incref|]. eapply rtc_l; [|apply rtc_refl].
    apply (remote_update _ _ 5 sample_http None). reflexivity.
Defined.

Lemma fetch_failed_unchanged_witness :
  exists e s' c', RemoteRuleSet_fetch sample_decoders true 5 (fun _ => HttpResponse 404 (Ok "") "") None
      (NewRemoteRuleSet sample_remote) (Some ∅) = Ok (Some e, s', c') /\ s' = NewRemoteRuleSet sample_remote /\ c' = Some ∅.
Proof.
  eexists _, _, _. split; [reflexivity|].
  apply (fetch_failed_unchanged sample_decoders true 5 (fun _ => HttpResponse 404 (Ok "") "") None
    (NewRemoteRuleSet sample_remote) (Some ∅) (ENew "unexpected status")). reflexivity.
Defined.

Lemma fetch_cache_roundtrip_witness :
  exists s' c' s1, RemoteRuleSet_fetch sample_decoders true 5 sample_http None
      (NewRemoteRuleSet sample_remote) (Some ∅) = Ok (None, s', c') /\
    RemoteRuleSet_StartContext sample_decoders true (fun _ => true) c' (NewRemoteRuleSet sample_remote) = Ok s1 /\
    rr_rules s1 = rr_rules s' /\ rr_lastEtag s1 = "v1".
Proof.
  eexists _, _.
  destruct (fetch_cache_roundtrip sample_decoders true 5 sample_http (fun _ => true)
    (NewRemoteRuleSet sample_remote) ∅ _ _ "document" "v1" eq_refl eq_refl eq_refl) as (s1 & H1 & H2 & _ & _ & H3).
  exists s1. split; [reflexivity|]. split; [exact H1|]. split; [exact H2|exact H3].
Defined.
End Witnesses.
