(* ===== verification/RuleMerge.v ===== *)
(** * RuleMerge: a rule that refers to a rule-set

    The documentation says that the rules of a rule-set are merged into the rule that includes it
    rather than being one of its conditions.  The code gets this effect by sharing the match flags
    of the metadata: a group satisfied by the including rule counts as satisfied in the rule-set's
    rule, and the other way round.  The theorem shows that for one rule the two together decide
    exactly the concatenation of the two tables of conditions; the second part shows what
    happens with several rules, between which the flags are not reset. *)

From Stdlib Require Import Btauto.
From S2P Require Import Prelude GoStd NetIP Metadata Sample RuleItems RuleMatch RuleAction RuleOptions RuleBuild.
From S2P Require Import RuleSet Rules RuleSpec RuleConditions RuleLaws.
Open Scope string_scope.

Lemma match_items_app {Item} (f : Item -> matcher) p l k : forall m,
  match_items f p (l ++ k) m =
  let '(b, m1) := match_items f p l m in if b then match_items f p k m1 else (false, m1).
Proof.
  induction l as [|i l IH]; intros m; cbn [app match_items]; [done|].
  destruct (f i _) as [[] m1]; [apply IH|done].
Qed.

Section Merge.
Context {X : Externals} {T : Type} {A : AdapterRuleSet T}.
Variable w : World.
Variable store : gmap string T.

Local Abbreviation f := (base_answer w).
Local Abbreviation g := (BaseItem_Match w).

(** The context in which the rule-set item evaluates the rule. *)
Definition rule_set_context (rs : RuleSetItem) (m : InboundContext) : InboundContext :=
  upd_cache (set_IPCIDRAcceptEmpty (rsi_ipCidrAcceptEmpty rs))
    (upd_cache (set_IPCIDRMatchSource (rsi_ipCidrMatchSource rs)) m).

(** One group of the two rules together. *)
Definition merged_group (l : list RuleItem) (k : list BaseItem) (m m2 : InboundContext) : bool :=
  negb (nonempty l || nonempty k) || (any_item f l m || any_item g k m2).

Definition merged_holds (r : abstractDefaultRule RuleItem (option RuleAction))
  (h : abstractDefaultRule BaseItem unit) (m m2 : InboundContext) (ig : bool) : bool :=
  all_item f (items r) m && all_item g (items h) m2
  && merged_group (sourceAddressItems r) (sourceAddressItems h) m m2
  && merged_group (sourcePortItems r) (sourcePortItems h) m m2
  && merged_group (dest_items r ig) (dest_items h ig) m m2
  && merged_group (destinationPortItems r) (destinationPortItems h) m m2.

Definition merged_did_match (r : abstractDefaultRule RuleItem (option RuleAction))
  (h : abstractDefaultRule BaseItem unit) (ig : bool) : bool :=
  nonempty (items r) || nonempty (items h)
  || (nonempty (sourceAddressItems r) || nonempty (sourceAddressItems h))
  || (nonempty (sourcePortItems r) || nonempty (sourcePortItems h))
  || (nonempty (dest_items r ig) || nonempty (dest_items h ig))
  || (nonempty (destinationPortItems r) || nonempty (destinationPortItems h)).

(** ** The rule of the rule-set, with the flags the including rule has set *)

Section Inner.
Variable h : abstractDefaultRule BaseItem unit.
Hypothesis Hw : rule_wf h.

Lemma wf_empty : nonempty (allItems h) = false ->
  items h = [] /\ sourceAddressItems h = [] /\ sourcePortItems h = [] /\ destinationAddressItems h = []
  /\ destinationIPCIDRItems h = [] /\ destinationPortItems h = [].
Proof.
  intros E. pose proof (nonempty_Permutation _ _ Hw) as H. rewrite E, !nonempty_app in H. symmetry in H.
  by rewrite !orb_false_iff, !nonempty_false in H.
Qed.

(** Without [invert] it answers whether its conditions hold. *)
Lemma rule_answer_plain m : invert h = false -> rule_answer g h m = rule_holds g h m.
Proof.
  intros Hi. unfold rule_answer. rewrite Hi. destruct (nonempty (allItems h)) eqn:E; simpl.
  - destruct (rule_holds g h m); [|done]. by case_match.
  - destruct (wf_empty E) as (H1 & H2 & H3 & H4 & H5 & H6).
    unfold rule_holds, dest_items, group_holds. rewrite H1, H2, H3, H4, H5, H6. by case_match.
Qed.

Lemma rule_cache_wf m :
  rule_cache g h m =
  let c := groups_cache g h m (md_cache m) in set_DidMatch (DidMatch c || nonempty (items h)) c.
Proof.
  unfold rule_cache. destruct (nonempty (allItems h)) eqn:E; simpl; [done|].
  destruct (wf_empty E) as (H1 & H2 & H3 & H4 & H5 & H6).
  unfold groups_cache. rewrite H1, H2, H3, H4, H5, H6. simpl.
  destruct (md_cache m) as [ms ae sa sp da dp did ig]; simpl. unfold set_DidMatch; simpl.
  destruct ig; simpl; by rewrite ?orb_false_r.
Qed.

(** The flags decide, and the items are evaluated in the base context. *)
Lemma rule_holds_flags m c :
  keeps_cidr_flags c (md_cache m) ->
  rule_holds g h (set_cache c m) =
  all_item g (items h) m
  && (negb (nonempty (sourceAddressItems h)) || (SourceAddressMatch c || any_item g (sourceAddressItems h) m))
  && (negb (nonempty (sourcePortItems h)) || (SourcePortMatch c || any_item g (sourcePortItems h) m))
  && (negb (nonempty (dest_items h (IgnoreDestinationIPCIDRMatch c)))
      || (DestinationAddressMatch c || any_item g (dest_items h (IgnoreDestinationIPCIDRMatch c)) m))
  && (negb (nonempty (destinationPortItems h)) || (DestinationPortMatch c || any_item g (destinationPortItems h) m)).
Proof.
  intros Hc. unfold rule_holds, group_holds. rewrite set_cache_cache.
  rewrite !any_item_cache, all_item_cache by (apply BaseItem_Match_cache || done). by rewrite <- !orb_assoc.
Qed.

Lemma groups_cache_flags m c :
  keeps_cidr_flags c (md_cache m) -> groups_cache g h (set_cache c m) c = groups_cache g h m c.
Proof.
  intros Hc. unfold groups_cache. by rewrite !any_item_cache by (apply BaseItem_Match_cache || done).
Qed.
End Inner.

Lemma merged_group_split l k m m2 :
  merged_group l k m m2 =
  (negb (nonempty k) || (any_item f l m || any_item g k m2))
  && (negb (nonempty l) || (any_item f l m || any_item g k m2)).
Proof. unfold merged_group. by destruct (nonempty l), (nonempty k), (any_item f l m), (any_item g k m2). Qed.

Lemma merged_Match (r : abstractDefaultRule RuleItem (option RuleAction)) h rs tag s m :
  rule_all is_base r -> rule_wf h -> invert h = false ->
  rsi_setList rs = [tag] -> store !! tag = Some s ->
  (forall m, Match w s m = rules_Match w [DefaultHeadlessRule h] m) ->
  let m0 := ResetRuleCache m in
  let ig := IgnoreDestinationIPCIDRMatch (md_cache m) in
  fst (default_Match w store (add_item GItems (ItemRuleSet rs) r) m0) =
  if merged_holds r h m0 (rule_set_context rs m0) ig
  then (if merged_did_match r h ig then negb (invert r) else true) else invert r.
Proof.
  intros Hb Hw Hi Hl Hs Hm m0 ig. unfold default_Match, abstractDefaultRule_Match.
  replace (negb (nonempty (allItems (add_item GItems (ItemRuleSet rs) r)))) with false
    by (simpl; by rewrite nonempty_app, orb_true_r).
  change (items (add_item GItems (ItemRuleSet rs) r)) with (items r ++ [ItemRuleSet rs])%list.
  change (match_groups (RuleItem_Match w store) (add_item GItems (ItemRuleSet rs) r) m0)
    with (match_groups (RuleItem_Match w store) r m0).
  rewrite (match_groups_ext _ (pure_Match f) is_base) by (done || by intros []).
  rewrite <- (set_cache_id m0) at 1. rewrite match_groups_pure by (done || apply base_answer_cache).
  rewrite match_items_app, (match_items_ext _ (pure_Match f) _ no_rule_set is_base) by (by intros [] || by intros [] || apply Hb).
  rewrite match_items_pure by (done || apply base_answer_cache). cbv beta match.
  destruct (all_item f (items r) m0) eqn:Ha; [|by unfold merged_holds; rewrite Ha].
  set (c1 := set_DidMatch _ _). set (M := rule_set_context rs m0).
  set (c2 := set_IPCIDRAcceptEmpty (rsi_ipCidrAcceptEmpty rs) (set_IPCIDRMatchSource (rsi_ipCidrMatchSource rs) c1)).
  assert (keeps_cidr_flags c2 (md_cache M)) as Hk.
  { unfold M, rule_set_context, upd_cache. rewrite !set_cache_cache. by split. }
  assert (match_items (RuleItem_Match w store) isRuleSetItem [ItemRuleSet rs] (set_cache c1 m0) =
    let b := rule_holds g h (set_cache c2 M) in
    (b, set_cache (set_DidMatch (DidMatch (groups_cache g h M c2) || nonempty (items h)) (groups_cache g h M c2)) M)) as E.
  { cbn [match_items isRuleSetItem RuleItem_Match]. unfold RuleSetItem_Match. rewrite Hl. cbn [sets_Match].
    rewrite Hs, Hm. cbn [rules_Match].
    replace (upd_cache _ (upd_cache _ (set_cache c1 m0))) with (set_cache c2 M)
      by (unfold M, rule_set_context, upd_cache, c2; by rewrite !set_cache_cache, !set_cache_set).
    rewrite HeadlessRule_Match_pure, rule_answer_plain, rule_cache_wf by done.
    rewrite set_cache_cache, groups_cache_flags, set_cache_set by done.
    by destruct (rule_holds g h (set_cache c2 M)). }
  rewrite E. clear E. cbv beta zeta match. rewrite set_cache_cache, rule_holds_flags by done.
  set (n1 := nonempty (sourceAddressItems r) || nonempty (sourcePortItems r) || nonempty (dest_items r ig)
    || nonempty (destinationPortItems r) || nonempty (items r)).
  assert (c2 = mkRuleCache (rsi_ipCidrMatchSource rs) (rsi_ipCidrAcceptEmpty rs)
    (any_item f (sourceAddressItems r) m0) (any_item f (sourcePortItems r) m0)
    (any_item f (dest_items r ig) m0) (any_item f (destinationPortItems r) m0) n1 ig) as Ec.
  { unfold c2, c1, n1, m0. rewrite reset_cache. unfold groups_cache, set_DidMatch, set_IPCIDRMatchSource,
      set_IPCIDRAcceptEmpty, dest_items. simpl. fold ig. by rewrite !andb_true_r. }
  rewrite Ec. clear Ec Hk. clearbody M. clear c2 c1.
  unfold groups_cache, set_DidMatch. cbn [SourceAddressMatch SourcePortMatch DestinationAddressMatch
    DestinationPortMatch DidMatch IgnoreDestinationIPCIDRMatch].
  fold (dest_items h ig). unfold merged_holds. rewrite Ha, !merged_group_split. simpl.
  replace (negb ig && nonempty (destinationIPCIDRItems r) || nonempty (destinationAddressItems r))
    with (nonempty (dest_items r ig)) by (unfold dest_items; rewrite nonempty_app; destruct ig; simpl;
      rewrite ?orb_false_r; [done|apply orb_comm]).
  match goal with |- context [mkRuleCache _ _ _ _ _ _ ?d _] => assert (d = merged_did_match r h ig) as Hd end.
  { unfold n1, merged_did_match. clear n1 Ha.
    pose proof (any_item_nonempty f (sourceAddressItems r) m0). pose proof (any_item_nonempty f (sourcePortItems r) m0).
    pose proof (any_item_nonempty f (dest_items r ig) m0). pose proof (any_item_nonempty f (destinationPortItems r) m0).
    repeat match goal with |- context [any_item f ?l m0] => destruct (any_item f l m0) end;
    repeat match goal with H : true = true -> _ |- _ => rewrite (H eq_refl) end; simpl;
    rewrite ?andb_true_r, ?andb_false_r, ?orb_true_r, ?orb_false_r; try done; btauto. }
  rewrite Hd. clear Hd.
  assert (forall n v : bool, n && negb v = negb (negb n || v)) as Hn by (by intros [] []). rewrite !Hn.
  repeat match goal with |- context [negb (nonempty ?l) || ?v] =>
    let q := fresh "q" in set (q := negb (nonempty l) || v); clearbody q end.
  destruct (all_item g (items h) M); [|done].
  repeat match goal with q : bool |- _ => destruct q; simpl; [|by rewrite ?andb_false_r] end.
  by destruct (merged_did_match r h ig).
Qed.

(** ** The tables of the two rules together *)

Lemma group_present_app k cs ds : group_present k (cs ++ ds) = group_present k cs || group_present k ds.
Proof. apply existsb_app. Qed.

Section Tables.
Variables (env : StartEnv) (bs : list (block RuleItem)) (cs : list cond).
Variables (hbs : list (block BaseItem)) (ds : list cond).
Variables (inv : bool) (act : option RuleAction).
Variables (r : abstractDefaultRule RuleItem (option RuleAction)) (h : abstractDefaultRule BaseItem unit).
Variables m m2 : InboundContext.
Hypothesis Hbs : Forall2 (block_cond (started_answer env w) m) bs cs.
Hypothesis Hhbs : Forall2 (block_cond g m2) hbs ds.
Hypothesis Hr : run_blocks bs (rule_init inv act) = Ok r.
Hypothesis Hh : run_blocks hbs (rule_init false tt) = Ok h.

Let started := map_rule (item_started env) r.

Definition group_any (k : rule_group) (l : list cond) : bool :=
  existsb (fun c => cd_present c && (bool_decide (cd_group c = k) && cd_holds c)) l.

Lemma outer_group k :
  nonempty (group_of k started) = group_present k cs /\ any_item f (group_of k started) m = group_any k cs.
Proof.
  destruct (run_blocks_Ok _ _ _ Hr) as (its & Hp & Er).
  destruct (group_holds_conds _ _ _ _ _ k Hbs Hp) as [E1 E2].
  assert (group_of k started = map (item_started env) (of_group k its)) as ->.
  { transitivity (map (item_started env) (group_of k (add_items its (rule_init inv act))));
      [rewrite <- Er; unfold started; by destruct k|].
    rewrite group_of_adds. by destruct k. }
  rewrite nonempty_map. unfold any_item at 1. rewrite existsb_map. by split.
Qed.

Lemma inner_group k :
  nonempty (group_of k h) = group_present k ds /\ any_item g (group_of k h) m2 = group_any k ds.
Proof.
  destruct (run_blocks_Ok _ _ _ Hh) as (its & Hp & Er).
  rewrite Er, group_of_adds. destruct (group_holds_conds _ _ _ _ _ k Hhbs Hp) as [E1 E2].
  by destruct k.
Qed.

Lemma merged_items ig :
  all_item f (items started) m && all_item g (items h) m2 = all_hold (active ig (cs ++ ds)).
Proof.
  assert (all_item f (items started) m = all_hold (active ig cs)) as ->.
  { destruct (run_blocks_Ok _ _ _ Hr) as (its & Hp & Er). rewrite <- (all_hold_conds _ _ _ _ _ ig Hbs Hp).
    pose proof (group_of_adds GItems its (rule_init inv act)) as E. rewrite <- Er in E. simpl in E. rewrite <- E.
    unfold all_item, started. simpl. by rewrite forallb_map. }
  assert (all_item g (items h) m2 = all_hold (active ig ds)) as ->.
  { destruct (run_blocks_Ok _ _ _ Hh) as (its & Hp & Er). rewrite <- (all_hold_conds _ _ _ _ _ ig Hhbs Hp).
    pose proof (group_of_adds GItems its (rule_init false tt)) as E. rewrite <- Er in E. simpl in E. by rewrite <- E. }
  unfold all_hold, active. destruct ig; by rewrite ?List.filter_app, forallb_app.
Qed.

Lemma merged_one ig k : k <> GDestinationIPCIDR ->
  merged_group (group_of k started) (group_of k h) m m2 = one_holds [k] (active ig (cs ++ ds)).
Proof.
  intros Hk. unfold merged_group. destruct (outer_group k) as [-> ->], (inner_group k) as [-> ->].
  rewrite one_holds_group by done. rewrite group_present_app. unfold group_any. by rewrite existsb_app.
Qed.

Lemma merged_dest ig :
  merged_group (dest_items started ig) (dest_items h ig) m m2 =
  one_holds [GDestinationAddress; GDestinationIPCIDR] (active ig (cs ++ ds)).
Proof.
  pose proof (outer_group GDestinationAddress) as [N1 A1]. pose proof (inner_group GDestinationAddress) as [N2 A2].
  pose proof (outer_group GDestinationIPCIDR) as [N3 A3]. pose proof (inner_group GDestinationIPCIDR) as [N4 A4].
  cbn [group_of] in *. rewrite one_holds_dest, !group_present_app, !existsb_app.
  fold (group_any GDestinationAddress cs) (group_any GDestinationAddress ds)
    (group_any GDestinationIPCIDR cs) (group_any GDestinationIPCIDR ds).
  unfold merged_group, dest_items. rewrite !nonempty_app. unfold any_item in *.
  rewrite !existsb_app. destruct ig; cbn [nonempty existsb]; rewrite ?orb_false_r, ?N1, ?N2, ?N3, ?N4, ?A1, ?A2, ?A3, ?A4; btauto.
Qed.

Lemma merged_present ig :
  merged_did_match started h ig = existsb cd_present (active ig (cs ++ ds)).
Proof.
  pose proof (fun k => proj1 (outer_group k)) as N. pose proof (fun k => proj1 (inner_group k)) as N'.
  rewrite active_present, !group_present_app, <- !N, <- !N'. unfold merged_did_match, dest_items.
  rewrite !nonempty_app. cbn [group_of]. destruct ig; cbn [nonempty]; btauto.
Qed.

Lemma merged_answer ig :
  (if merged_holds started h m m2 ig
   then (if merged_did_match started h ig then negb (invert started) else true) else invert started) =
  conditions_answer inv (active ig (cs ++ ds)).
Proof.
  assert (merged_holds started h m m2 ig = conditions_hold (active ig (cs ++ ds))) as ->.
  { unfold merged_holds, conditions_hold. rewrite merged_items with (ig := ig), merged_dest.
    change (sourceAddressItems ?x) with (group_of GSourceAddress x).
    change (sourcePortItems ?x) with (group_of GSourcePort x).
    change (destinationPortItems ?x) with (group_of GDestinationPort x).
    by rewrite !(merged_one ig) by done. }
  rewrite merged_present. unfold conditions_answer.
  replace (invert started) with inv by (symmetry; apply (run_blocks_invert _ _ _ Hr)).
  destruct (existsb cd_present _) eqn:E; [by destruct inv, (conditions_hold _)|].
  by rewrite conditions_hold_absent.
Qed.
End Tables.

(** C39: A route rule with one rule-set, which consists of one default rule that is not inverted, is the merger of the two: its [Match] decides
    the table that has the conditions of both, so a group that both use is satisfied by either.
    The conditions of the rule-set see the flags of the rule-set item (whether [ip_cidr] is to
    match the source), and are those that the constructor of headless rules makes of the options: [query_type], which
    docs/configuration/rule-set/headless-rule.md has, is not one of them. *)
Theorem rule_set_merged env dialer nm (o : opt_DefaultRule) r r' (st st' : gmap string T) ho h tag s m :
  ro_RuleSet (dr_Raw o) = [tag] ->
  NewDefaultRule dialer o = Ok r ->
  abstractDefaultRule_Start env r st = (Ok r', st') ->
  NewDefaultHeadlessRule nm ho = Ok h -> ho_Invert ho = false ->
  store !! tag = Some s -> (forall m, Match w s m = rules_Match w [DefaultHeadlessRule h] m) ->
  let m0 := ResetRuleCache m in
  let rs := NewRuleSetItem [tag]
    (ro_RuleSetIPCIDRMatchSource (dr_Raw o) || ro_Deprecated_RulesetIPCIDRMatchSource (dr_Raw o)) false in
  fst (Rule_Match w store (DefaultRule r') m0) =
  conditions_answer (ro_Invert (dr_Raw o))
    (active (IgnoreDestinationIPCIDRMatch (md_cache m))
      (route_conditions env w (dr_Raw o) m0 ++ headless_conditions nm w ho (rule_set_context rs m0))).
Proof.
  intros Ht Hr Hst Hh Hi Hs Hm m0 rs. unfold NewDefaultRule in Hr. inv_bind.
  match goal with H : run_blocks _ _ = Ok _ |- _ => rename H into Hb end. unfold route_blocks in Hb.
  rewrite (run_blocks_snoc _ _ (ItemRuleSet rs)) in Hb by (simpl; by rewrite ?Ht).
  apply fmap_Ok in Hb as (r1 & Hb & ->).
  apply abstractDefaultRule_Start_Ok in Hst as ->. rewrite map_rule_add. cbn [blk_group route_block_rule_set item_started].
  unfold NewDefaultHeadlessRule in Hh. pose proof (headless_blocks_conditions nm w ho (rule_set_context rs m0)) as Hd.
  set (hbs := (headless_blocks_conn ho ++ headless_blocks_env nm ho)%list) in Hh, Hd. clearbody hbs.
  assert (rule_wf h) as Hw by (eapply run_blocks_wf; [apply rule_init_wf|exact Hh]).
  cbn [Rule_Match]. rewrite (merged_Match _ h _ tag s m); [|by eapply started_rule_base|done| |done|done|done].
  - apply (merged_answer env _ _ _ _ _ x r1 h _ _ (route_blocks_conditions env w (dr_Raw o) m0) Hd); [done|].
    by rewrite Hi in Hh.
  - rewrite (run_blocks_invert _ _ _ Hh). done.
Qed.
End Merge.

(** ** The theorem at work *)

Section Witnesses.
#[local] Existing Instance sample.

(** The rule [domain_suffix=example.com rule_set=lan] and the rule [ip_cidr=10.0.0.0/8] of the
    set: a connection to 10.0.0.1 matches by the address alone. *)
Definition merge_raw_rule : opt_RawDefaultRule :=
  mkOptRawDefaultRule [] 0 [] [] [] [] [] ["example.com"] [] [] [] [] [] [] false [] false
    [] [] [] [] [] [] [] [] [] [] "" [] false false [] [] ["lan"] false false false
    [] [] None None [] [].
Definition merge_rule : opt_DefaultRule := mkOptDefaultRule merge_raw_rule (sample_action "route" "proxy").
Definition merge_built : abstractDefaultRule RuleItem (option RuleAction) :=
  from_Ok (rule_init false None) (NewDefaultRule (Ok tt) merge_rule).
Definition merge_headless : opt_DefaultHeadlessRule :=
  mkOptDefaultHeadlessRule [] [] [] [] [] [] [] ["10.0.0.0/8"] [] [] [] [] [] [] [] [] [] false false [] [] false
    None None None [] None [] [] None [].
Definition merge_headless_built : abstractDefaultRule BaseItem unit :=
  from_Ok (rule_init false tt) (NewDefaultHeadlessRule true merge_headless).
Definition merge_set : RuleSet := ALocal (mkLocalRuleSet "lan" [DefaultHeadlessRule merge_headless_built]
  (mkRuleSetMetadata false false true) "" false [] 0 0).
Definition merge_store : gmap string RuleSet := {["lan" := merge_set]}.
Definition merge_started : abstractDefaultRule RuleItem (option RuleAction) :=
  from_Ok (rule_init false None) (fst (abstractDefaultRule_Start sample_env merge_built merge_store)).

Lemma rule_set_merged_witness :
  let matches host addr := fst (Rule_Match sample_world merge_store (DefaultRule merge_started)
        (ResetRuleCache (sample_context host addr 443))) in
  matches "" (Addr4 (10 * 2 ^ 24 + 1)) = true /\ matches "www.example.com" AddrNone = true /\
  matches "a.org" AddrNone = false.
Proof.
  assert (NewDefaultRule (Ok tt) merge_rule = Ok merge_built) as Hn by (apply is_Ok_from_Ok; vm_compute; reflexivity).
  assert (NewDefaultHeadlessRule true merge_headless = Ok merge_headless_built) as Hh
    by (apply is_Ok_from_Ok; vm_compute; reflexivity).
  pose proof (is_Ok_from_Ok_fst (rule_init false None)
    (abstractDefaultRule_Start sample_env merge_built merge_store) ltac:(vm_compute; reflexivity)) as Hs.
  assert (merge_store !! "lan" = Some merge_set) as Hl by apply lookup_singleton_eq.
  pose proof (fun m => rule_set_merged sample_world merge_store sample_env (Ok tt) true merge_rule _ _ _ _
    merge_headless _ "lan" merge_set m eq_refl Hn Hs Hh eq_refl Hl (fun _ => eq_refl)) as E.
  split; [|split]; (etransitivity; [apply E|vm_compute; reflexivity]).
Defined.
End Witnesses.
