(* ===== verification/RuleCaveats.v ===== *)
(** * RuleCaveats: where the matching of rule-sets departs from its description

    The match flags are not reset between the rules of a rule-set.  For rules that use one group
    of alternatives and nothing else (the usual domain and address lists) this makes no
    difference; for others a connection can match a rule-set although it matches none of its
    rules.  Two more cases: a headless rule ignores [query_type], and a DNS rule whose rule-sets
    are to match the source address never looks at their CIDRs. *)

From S2P Require Import Prelude GoStd NetIP Metadata Sample RuleItems RuleMatch RuleAction RuleOptions RuleBuild.
From S2P Require Import RuleSet Rules RuleSpec RuleConditions RuleLaws RuleMerge.
Open Scope string_scope.

Section Caveats.
Context {X : Externals}.
Variable w : World.

Local Abbreviation g := (BaseItem_Match w).

(** ** Rules of one group *)

Definition no_flags (c : RuleCache) : Prop :=
  SourceAddressMatch c = false /\ SourcePortMatch c = false /\
  DestinationAddressMatch c = false /\ DestinationPortMatch c = false.

(** The groups of alternatives of a rule. *)
Definition group_lists (h : abstractDefaultRule BaseItem unit) : list (list BaseItem) :=
  [sourceAddressItems h; sourcePortItems h; (destinationAddressItems h ++ destinationIPCIDRItems h)%list;
   destinationPortItems h].

(** A rule with one group (or none), no other condition and no [invert]. *)
Definition single_group (h : abstractDefaultRule BaseItem unit) : Prop :=
  items h = [] /\ invert h = false /\ rule_wf h /\
  (length (List.filter nonempty (group_lists h)) <= 1)%nat.

Lemma single_group_cases h ig :
  single_group h ->
  (forall l k : list BaseItem, (l, k) ∈ [(sourceAddressItems h, sourcePortItems h);
    (sourceAddressItems h, dest_items h ig); (sourceAddressItems h, destinationPortItems h);
    (sourcePortItems h, dest_items h ig); (sourcePortItems h, destinationPortItems h);
    (dest_items h ig, destinationPortItems h)] -> l = [] \/ k = []).
Proof.
  intros (_ & _ & _ & H) l k. unfold group_lists in H. cbn [List.filter] in H.
  assert (nonempty (destinationAddressItems h ++ destinationIPCIDRItems h)%list = false -> dest_items h ig = []) as Hd.
  { intros E%nonempty_false. apply app_eq_nil in E as [E1 E2]. unfold dest_items. rewrite E1, E2. by destruct ig. }
  assert (forall l : list BaseItem, nonempty l = false -> l = []) as N by (intros; by apply nonempty_false).
  rewrite !elem_of_cons, elem_of_nil.
  destruct (nonempty (sourceAddressItems h)) eqn:E1, (nonempty (sourcePortItems h)) eqn:E2,
    (nonempty (_ ++ _)%list) eqn:E3, (nonempty (destinationPortItems h)) eqn:E4; simpl in H; try lia;
    try specialize (Hd eq_refl); repeat match goal with E : nonempty _ = false |- _ => apply N in E end;
    intros Hx; decompose [or] Hx; simplify_eq; auto; done.
Qed.

(** Such a rule leaves the flags clear when it does not match. *)
Lemma single_group_step h M c :
  single_group h -> keeps_cidr_flags c (md_cache M) ->
  IgnoreDestinationIPCIDRMatch c = IgnoreDestinationIPCIDRMatch (md_cache M) ->
  no_flags c -> no_flags (md_cache M) ->
  exists c', HeadlessRule_Match w (DefaultHeadlessRule h) (set_cache c M) =
    (fst (HeadlessRule_Match w (DefaultHeadlessRule h) M), set_cache c' M) /\
    (fst (HeadlessRule_Match w (DefaultHeadlessRule h) M) = false ->
      no_flags c' /\ keeps_cidr_flags c' (md_cache M) /\
      IgnoreDestinationIPCIDRMatch c' = IgnoreDestinationIPCIDRMatch (md_cache M)).
Proof.
  intros Hs Hk Hig Hc HM. pose proof Hs as (Hi & Hinv & Hw & _).
  pose proof (single_group_cases h (IgnoreDestinationIPCIDRMatch c) Hs) as Hg.
  rewrite !HeadlessRule_Match_pure, !rule_answer_plain by done. cbn [fst].
  rewrite set_cache_set, rule_cache_wf by done. rewrite set_cache_cache, groups_cache_flags by done.
  eexists. split; [f_equal|].
  - rewrite <- (set_cache_id M) at 2. rewrite !rule_holds_flags by done. rewrite <- Hig.
    destruct Hc as (-> & -> & -> & ->), HM as (-> & -> & -> & ->). done.
  - intros Hf. rewrite <- (set_cache_id M) in Hf. rewrite rule_holds_flags in Hf by done. rewrite <- Hig in Hf.
    destruct HM as (E1 & E2 & E3 & E4). rewrite E1, E2, E3, E4, Hi in Hf. simpl in Hf.
    destruct Hc as (C1 & C2 & C3 & C4). unfold no_flags, groups_cache. rewrite C1, C2, C3, C4. simpl.
    fold (dest_items h (IgnoreDestinationIPCIDRMatch c)).
    split; [|split; [by destruct Hk|done]].
    set (la := sourceAddressItems h) in *. set (lp := sourcePortItems h) in *.
    set (ld := dest_items h _) in *. set (lq := destinationPortItems h) in *.
    assert (forall l k, (l, k) ∈ [(la, lp); (la, ld); (la, lq); (lp, ld); (lp, lq); (ld, lq)] -> l = [] \/ k = []) as G
      by exact Hg. clearbody la lp ld lq.
    pose proof (G la lp ltac:(by constructor)) as G1.
    pose proof (G la ld ltac:(by repeat constructor)) as G2.
    pose proof (G la lq ltac:(by repeat constructor)) as G3.
    pose proof (G lp ld ltac:(by repeat constructor)) as G4.
    pose proof (G lp lq ltac:(by repeat constructor)) as G5.
    pose proof (G ld lq ltac:(by repeat constructor)) as G6. clear G Hg.
    repeat rewrite andb_false_iff in Hf. rewrite !orb_false_iff, !negb_false_iff, !nonempty_true in Hf.
    destruct Hf as [[[[HN HA]|[HN HA]]|[HN HA]]|[HN HA]];
    repeat match goal with
    | H : ?l = [] \/ ?k = [], HN : ?l <> [] |- _ => destruct H as [?|H]; [done|]
    | H : ?k = [] \/ ?l = [], HN : ?l <> [] |- _ => destruct H as [H|?]; [|done]
    end; subst; by rewrite ?HA.
Qed.

Lemma single_group_rules_aux hs M : forall c,
  Forall single_group hs -> keeps_cidr_flags c (md_cache M) ->
  IgnoreDestinationIPCIDRMatch c = IgnoreDestinationIPCIDRMatch (md_cache M) ->
  no_flags c -> no_flags (md_cache M) ->
  fst (rules_Match w (map DefaultHeadlessRule hs) (set_cache c M)) =
  existsb (fun h => fst (HeadlessRule_Match w (DefaultHeadlessRule h) M)) hs.
Proof.
  intros c H. revert c. induction H as [|h hs Hh _ IH]; intros c Hk Hig Hc HM; [done|].
  cbn [map rules_Match existsb].
  destruct (single_group_step h M c Hh Hk Hig Hc HM) as (c' & -> & Hf).
  destruct (fst (HeadlessRule_Match w (DefaultHeadlessRule h) M)); [done|].
  destruct Hf as (F1 & F2 & F3); [done|]. by apply IH.
Qed.

(** A rule-set whose rules each use one group of alternatives and nothing else (domain lists,
    address lists, port lists, in any mix) matches a connection exactly when one of its rules
    does. *)
Theorem single_group_rule_set_match hs m :
  Forall single_group hs ->
  fst (rules_Match w (map DefaultHeadlessRule hs) (ResetRuleCache m)) =
  existsb (fun h => fst (HeadlessRule_Match w (DefaultHeadlessRule h) (ResetRuleCache m))) hs.
Proof.
  intros H. rewrite <- (set_cache_id (ResetRuleCache m)) at 1.
  apply single_group_rules_aux; try done; rewrite reset_cache; by repeat split.
Qed.

(** ** Rules of two groups *)

(** [source_port=<a> port=<b>]. *)
Definition ports_rule (a b : N) : opt_DefaultHeadlessRule :=
  mkOptDefaultHeadlessRule [] [] [] [] [] [] [] [] [a] [] [b] [] [] [] [] [] [] false false [] [] false
    None None None [] None [] [] None [].
Definition ports_built (a b : N) : abstractDefaultRule BaseItem unit :=
  add_item GDestinationPort (IPort (NewPortItem false [b]))
    (add_item GSourcePort (IPort (NewPortItem true [a])) (rule_init false tt)).

Lemma ports_rule_built nm a b : NewDefaultHeadlessRule nm (ports_rule a b) = Ok (ports_built a b).
Proof. by destruct nm. Qed.

Lemma port_answer src x m :
  g (IPort (NewPortItem src [x])) m = bool_decide ((if src then sa_Port (md_Source m) else sa_Port (md_Destination m)) = x).
Proof.
  simpl. unfold PortItem_Match. simpl. destruct src; rewrite make_bool_map_spec; apply bool_decide_ext; set_solver.
Qed.

Lemma ports_built_holds a b m c :
  keeps_cidr_flags c (md_cache m) ->
  rule_holds g (ports_built a b) (set_cache c m) =
  (SourcePortMatch c || bool_decide (sa_Port (md_Source m) = a))
  && (DestinationPortMatch c || bool_decide (sa_Port (md_Destination m) = b)).
Proof.
  intros Hk. rewrite rule_holds_flags by done.
  change (sourceAddressItems (ports_built a b)) with (@nil BaseItem).
  change (items (ports_built a b)) with (@nil BaseItem).
  change (dest_items (ports_built a b) (IgnoreDestinationIPCIDRMatch c)) with
    (if IgnoreDestinationIPCIDRMatch c then [] else @nil BaseItem).
  change (sourcePortItems (ports_built a b)) with [IPort (NewPortItem true [a])].
  change (destinationPortItems (ports_built a b)) with [IPort (NewPortItem false [b])].
  unfold any_item. cbn [existsb]. rewrite !port_answer. destruct (IgnoreDestinationIPCIDRMatch c); simpl; by rewrite ?orb_false_r, ?andb_true_r.
Qed.

(** Match flags leak between the rules of a rule-set: with the two rules
    [source_port=a port=p] and [source_port=b port=q], a connection from port [a] to port [q]
    matches the rule-set although neither rule matches it. *)
Theorem rule_set_flags_leak nm a b p q m :
  sa_Port (md_Source m) = a -> sa_Port (md_Destination m) = q -> a <> b -> p <> q ->
  exists r1 r2,
    NewDefaultHeadlessRule nm (ports_rule a p) = Ok r1 /\ NewDefaultHeadlessRule nm (ports_rule b q) = Ok r2 /\
    fst (HeadlessRule_Match w (DefaultHeadlessRule r1) (ResetRuleCache m)) = false /\
    fst (HeadlessRule_Match w (DefaultHeadlessRule r2) (ResetRuleCache m)) = false /\
    fst (rules_Match w [DefaultHeadlessRule r1; DefaultHeadlessRule r2] (ResetRuleCache m)) = true.
Proof.
  intros Ha Hq Hab Hpq. exists (ports_built a p), (ports_built b q).
  assert (forall x y, rule_wf (ports_built x y)) as Hw by (intros; apply add_item_wf, add_item_wf, rule_init_wf).
  split; [apply ports_rule_built|]. split; [apply ports_rule_built|].
  set (M := ResetRuleCache m).
  assert (sa_Port (md_Source M) = a /\ sa_Port (md_Destination M) = q) as [Es Ed] by (by destruct m).
  assert (md_cache M = RuleCache_reset (md_cache m)) as Ec by apply reset_cache. clearbody M.
  assert (forall x y, fst (HeadlessRule_Match w (DefaultHeadlessRule (ports_built x y)) M) =
    bool_decide (a = x) && bool_decide (q = y)) as Hsep.
  { intros x y. rewrite HeadlessRule_Match_pure, rule_answer_plain by done. cbn [fst].
    rewrite <- (set_cache_id M) at 1. rewrite ports_built_holds by done. by rewrite Ec, Es, Ed. }
  rewrite !Hsep, (bool_decide_eq_false_2 (a = b)), (bool_decide_eq_false_2 (q = p)) by congruence.
  rewrite andb_false_r. split; [done|]. split; [done|].
  cbn [rules_Match]. rewrite (HeadlessRule_Match_pure w (ports_built a p)), rule_answer_plain, rule_cache_wf by done.
  rewrite <- (set_cache_id M) at 1. rewrite ports_built_holds by done. rewrite Ec, Es, Ed.
  rewrite (bool_decide_eq_false_2 (q = p)) by congruence. rewrite !andb_false_r. cbv beta zeta match.
  rewrite HeadlessRule_Match_pure, rule_answer_plain by done. rewrite ports_built_holds by (rewrite Ec; by split).
  set (c := groups_cache _ _ _ _).
  assert (SourcePortMatch c = true) as Hc.
  { unfold c. cbn [groups_cache SourcePortMatch].
    change (sourcePortItems (ports_built a p)) with [IPort (NewPortItem true [a])].
    unfold any_item. cbn [existsb]. rewrite port_answer, Es, bool_decide_eq_true_2 by done. by rewrite orb_true_r. }
  unfold set_DidMatch. cbn [SourcePortMatch DestinationPortMatch]. rewrite Hc, Ed, (bool_decide_eq_true_2 (q = q)) by done.
  by rewrite orb_true_r.
Qed.

(** ** Options that are not looked at *)

(** [query_type=<l>] and nothing else. *)
Definition query_type_rule (l : list N) : opt_HeadlessRule :=
  mkOptHeadlessRule RuleTypeDefault
    (mkOptDefaultHeadlessRule l [] [] [] [] [] [] [] [] [] [] [] [] [] [] [] [] false false [] [] false
      None None None [] None [] [] None []) (mkOptLogical "" [] false).

(** A headless rule whose only condition is [query_type] is accepted and matches everything:
    the constructor does not look at the field. *)
Theorem headless_query_type_ignored nm l m :
  l <> [] ->
  exists r, NewHeadlessRule nm (query_type_rule l) = Ok r /\ HeadlessRule_Match w r m = (true, m).
Proof.
  intros Hl. destruct l as [|x l]; [done|]. exists (DefaultHeadlessRule (rule_init false tt)).
  split; [by destruct nm|done].
Qed.
End Caveats.

(** ** Source matching in DNS rules *)

Section MatchSource.
Context {X : Externals} {T : Type} {A : AdapterRuleSet T}.
Variable w : World.
Variable store : gmap string T.

(** [rule_set=<tag> rule_set_ip_cidr_match_source=true]. *)
Definition match_source_rule (tag : string) : opt_RawDefaultDNSRule :=
  mkOptRawDefaultDNSRule [] 0 [] [] [] [] [] [] [] [] [] [] [] [] false false [] false [] [] [] [] [] [] [] []
    [] [] [] "" [] false false [] [] [tag] true false false [] [] None None [] false.

(** A DNS rule that asks a rule-set of CIDRs to match the source address matches every query,
    and reports no address limit, so the CIDRs are never compared with anything. *)
Theorem dns_match_source_unchecked env o r r' (st st' : gmap string T) tag s (h : abstractDefaultRule BaseItem unit) m :
  dd_Raw o = match_source_rule tag ->
  NewDefaultDNSRule o = Ok r ->
  abstractDefaultRule_Start env r st = (Ok r', st') ->
  store !! tag = Some s -> (forall m, Match w s m = rules_Match w [DefaultHeadlessRule h] m) ->
  rule_wf h -> invert h = false -> allItems h = destinationIPCIDRItems h -> allItems h <> [] ->
  fst (DNSRule_Match w store (DefaultDNSRule r') (ResetRuleCache m)) = true /\
  DNSRule_WithAddressLimit store (DefaultDNSRule r') = false.
Proof.
  intros Ho Hr Hst Hs Hm Hw Hi Hall _. unfold NewDefaultDNSRule in Hr. inv_bind.
  match goal with H : run_blocks _ _ = Ok _ |- _ => rename H into Hb end. unfold dns_blocks in Hb. rewrite Ho in Hb.
  rewrite (run_blocks_snoc _ _ (ItemRuleSet (NewRuleSetItem [tag] true false))) in Hb by done.
  apply fmap_Ok in Hb as (r1 & Hb & ->).
  assert (r1 = rule_init false x) as ->.
  { enough (run_blocks (map lift_block (dns_blocks_domain (match_source_rule tag) ++ dns_blocks_conn (match_source_rule tag)
      ++ dns_blocks_env (match_source_rule tag))) (rule_init false x) = Ok (rule_init false x)) as E
      by (change (dn_Invert (match_source_rule tag)) with false in Hb; congruence).
    reflexivity. }
  apply abstractDefaultRule_Start_Ok in Hst as ->. rewrite map_rule_add. split; [|done].
  assert (items h = [] /\ sourceAddressItems h = [] /\ sourcePortItems h = [] /\ destinationAddressItems h = []
    /\ destinationPortItems h = []) as (H1 & H2 & H3 & H4 & H5).
  { pose proof (Permutation_length Hw) as Hlen. rewrite Hall, !length_app in Hlen.
    repeat split; apply length_zero_iff_nil; lia. }
  cbn [DNSRule_Match]. unfold DefaultDNSRule_Match. fold (set_ignore true (ResetRuleCache m)).
  rewrite <- set_ignore_reset. cbn [blk_group dns_block_rule_set item_started].
  pose proof (merged_Match w store (map_rule (item_started env) (rule_init false x)) h
    (mkRuleSetItem [tag] [tag] true false) tag s (set_ignore true m)) as E.
  rewrite set_ignore_cache in E. cbv zeta in E. cbn [IgnoreDestinationIPCIDRMatch set_IgnoreDestinationIPCIDRMatch] in E.
  destruct (default_Match _ _ _ _) as [b m1]. cbn [fst snd] in *.
  etransitivity; [apply E; first [done|repeat split; constructor]|].
  unfold merged_holds, merged_did_match, merged_group, dest_items. rewrite H1, H2, H3, H4, H5. done.
Qed.
End MatchSource.

(** ** The theorems at work *)

Section Witnesses.
#[local] Existing Instance sample.

Definition port_only_rule (p : N) : abstractDefaultRule BaseItem unit :=
  add_item GDestinationPort (IPort (NewPortItem false [p])) (rule_init false tt).

Lemma port_only_single p : single_group (port_only_rule p).
Proof. repeat split; [apply add_item_wf, rule_init_wf|simpl; lia]. Qed.

Lemma single_group_rule_set_match_witness :
  let rules := [port_only_rule 80; port_only_rule 443] in
  Forall single_group rules /\
  fst (rules_Match sample_world (map DefaultHeadlessRule rules) (ResetRuleCache (sample_context "a.org" AddrNone 443))) = true.
Proof.
  assert (Forall single_group [port_only_rule 80; port_only_rule 443]) as H by (repeat constructor; apply port_only_single).
  split; [exact H|]. etransitivity; [exact (single_group_rule_set_match sample_world _ _ H)|vm_compute; reflexivity].
Defined.

Lemma rule_set_flags_leak_witness :
  exists r1 r2, NewDefaultHeadlessRule true (ports_rule 50000 53) = Ok r1 /\
    NewDefaultHeadlessRule true (ports_rule 1 443) = Ok r2 /\
    fst (rules_Match sample_world [DefaultHeadlessRule r1; DefaultHeadlessRule r2]
      (ResetRuleCache (sample_context "a.org" AddrNone 443))) = true.
Proof.
  destruct (rule_set_flags_leak sample_world true 50000 1 53 443 (sample_context "a.org" AddrNone 443))
    as (r1 & r2 & H1 & H2 & _ & _ & H3); [reflexivity|reflexivity|lia|lia|]. eauto.
Defined.

Lemma headless_query_type_ignored_witness :
  exists r, NewHeadlessRule true (query_type_rule [28%N]) = Ok r /\
    HeadlessRule_Match sample_world r (sample_context "a.org" AddrNone 443) =
      (true, sample_context "a.org" AddrNone 443).
Proof.
  apply (headless_query_type_ignored sample_world true [28%N]). discriminate.
Defined.

(** A rule-set of 10.0.0.0/8 asked about a query from 192.168.1.2. *)
Definition cidr_rule : abstractDefaultRule BaseItem unit :=
  add_item GDestinationIPCIDR (IIPCIDR (NewRawIPCIDRItem false [OpAddPrefix (mkPrefix (Addr4 (10 * 2 ^ 24)) 8)]))
    (rule_init false tt).
Definition cidr_set : RuleSet := ALocal (mkLocalRuleSet "lan" [DefaultHeadlessRule cidr_rule]
  (mkRuleSetMetadata false false true) "" false [] 0 1).
Definition source_dns_rule : opt_DefaultDNSRule := mkOptDefaultDNSRule (match_source_rule "lan") (sample_dns_action "local").
Definition source_dns_built : abstractDefaultRule RuleItem (option RuleAction) :=
  from_Ok (rule_init false None) (NewDefaultDNSRule source_dns_rule).
Definition cidr_store : gmap string RuleSet := {["lan" := cidr_set]}.
Definition source_dns_started : abstractDefaultRule RuleItem (option RuleAction) :=
  from_Ok (rule_init false None) (fst (abstractDefaultRule_Start sample_env source_dns_built cidr_store)).

Lemma dns_match_source_unchecked_witness :
  fst (DNSRule_Match sample_world cidr_store (DefaultDNSRule source_dns_started)
    (ResetRuleCache (sample_context "a.org" AddrNone 0))) = true /\
  cidr_contains ["10.0.0.0/8"] (sa_Addr (md_Source (sample_context "a.org" AddrNone 0))) = false.
Proof.
  assert (NewDefaultDNSRule source_dns_rule = Ok source_dns_built) as Hn.
  { apply is_Ok_from_Ok. vm_compute. reflexivity. }
  pose proof (is_Ok_from_Ok_fst (rule_init false None)
    (abstractDefaultRule_Start sample_env source_dns_built cidr_store) ltac:(vm_compute; reflexivity)) as Hs.
  split; [|vm_compute; reflexivity].
  apply (dns_match_source_unchecked sample_world cidr_store sample_env source_dns_rule _ _ _ _ "lan" cidr_set cidr_rule
    _ eq_refl Hn Hs); [apply lookup_singleton_eq|reflexivity|apply add_item_wf, rule_init_wf|reflexivity|reflexivity|discriminate].
Defined.
End Witnesses.
