(* ===== verification/ItemSpec.v ===== *)
(** * ItemSpec: port ranges and address sets

    The text of port ranges and CIDR lists: what is accepted, what the parsed item matches. *)

From S2P Require Import Prelude GoStd NetIP Metadata Sample RuleItems.
Open Scope string_scope.

(** ** Strings of digits *)

Definition all_digits (s : string) : bool := string_forallb is_digit s.

Lemma colon_not_digit c : is_digit c = true -> c <> ":"%char.
Proof. intros H ->. discriminate H. Qed.

Lemma index_colon_digits s t : all_digits s = true ->
  index_byte ":" (s +:+ String ":" t) = Some (String.length s).
Proof.
  unfold all_digits. induction s as [|c s IH]; intros H; [done|]. cbn in H. apply andb_true_iff in H as [Hc Hs].
  change (String c s +:+ String ":" t) with (String c (s +:+ String ":" t)). cbn [index_byte String.length].
  rewrite bool_decide_eq_false_2 by (by apply colon_not_digit). by rewrite IH.
Qed.

Lemma str_drop_nil n : str_drop n "" = "".
Proof. by destruct n. Qed.
Lemma app_str_nil s : s +:+ "" = s.
Proof. induction s as [|c s IH]; [done|]. change (String c s +:+ "") with (String c (s +:+ "")). by rewrite IH. Qed.

Lemma parse_uint_go_bound maxVal s : forall acc n, (acc <= maxVal)%N ->
  parse_uint_go maxVal acc s = Some n -> (n <= maxVal)%N.
Proof.
  induction s as [|c s IH]; intros acc n Ha H; cbn [parse_uint_go] in H; [by simplify_eq|].
  destruct (is_digit c); [|done]. destruct (N.ltb_spec maxVal (acc * 10 + (byte_val c - 48))); [done|].
  by eapply IH.
Qed.

Lemma parse_uint_bound bits s n : parse_uint bits s = Some n -> (n < 2 ^ bits)%N.
Proof.
  unfold parse_uint. case_bool_decide; [done|]. intros H'%parse_uint_go_bound; [|lia].
  assert (0 < 2 ^ bits)%N by (apply N.neq_0_lt_0, N.pow_nonzero; lia). lia.
Qed.

(** ** Port ranges *)

(** Port ranges: the three written forms [a:b], [:b] and [a:] of any two 16-bit ports are
    accepted and mean [a..b], [0..b] and [a..65535]. *)
Theorem port_range_roundtrip a b :
  (a < 65536)%N -> (b < 65536)%N ->
  parse_port_range (format_uint a +:+ ":" +:+ format_uint b) = Ok (mkRangeItem a b) /\
  parse_port_range (":" +:+ format_uint b) = Ok (mkRangeItem 0 b) /\
  parse_port_range (format_uint a +:+ ":") = Ok (mkRangeItem a 65535).
Proof.
  intros Ha Hb. change 65536%N with (2 ^ 16)%N in *.
  assert (forall n, (0 < String.length (format_uint n))%nat) as Hlen.
  { intros n. destruct (format_uint n) eqn:E; [|simpl; lia].
    unfold format_uint in E. by apply dec_go_ne in E. }
  pose proof (Hlen a) as La. pose proof (Hlen b) as Lb.
  pose proof (parse_format_uint 16 a Ha) as Pa. pose proof (parse_format_uint 16 b Hb) as Pb.
  pose proof (format_uint_digits a : all_digits (format_uint a) = true) as Da.
  set (fa := format_uint a) in *. set (fb := format_uint b) in *. clearbody fa fb.
  assert ((0 <? String.length fa)%nat = true) as L0 by (by apply Nat.ltb_lt).
  repeat split; unfold parse_port_range.
  - change (":" +:+ fb) with (String ":" fb). rewrite index_colon_digits by done. rewrite L0.
    rewrite str_take_app, Pa, str_length_app by done. cbn [mbind result_bind String.length].
    replace (String.length fa =? _)%nat with false by (symmetry; apply Nat.eqb_neq; lia).
    by rewrite str_drop_S_app, Pb.
  - change (":" +:+ fb) with (String ":" fb). cbn [index_byte].
    rewrite bool_decide_eq_true_2 by done. cbn [mbind result_bind String.length Nat.ltb Nat.leb].
    replace (0 =? _)%nat with false by (symmetry; apply Nat.eqb_neq; lia).
    cbn [str_drop]. by rewrite Pb.
  - change ":" with (String ":" ""). rewrite index_colon_digits by done. rewrite L0.
    rewrite str_take_app, Pa, str_length_app by done. cbn [mbind result_bind String.length].
    replace (String.length fa =? _)%nat with true by (symmetry; apply Nat.eqb_eq; lia). done.
Qed.

Lemma port_range_roundtrip_witness :
  parse_port_range "8000:8999" = Ok (mkRangeItem 8000 8999) /\
  parse_port_range (":" +:+ format_uint 1023) = Ok (mkRangeItem 0 1023) /\
  parse_port_range (format_uint 1024 +:+ ":") = Ok (mkRangeItem 1024 65535).
Proof.
  destruct (port_range_roundtrip 8000 8999) as [H1 _]; [lia|lia|].
  destruct (port_range_roundtrip 1024 1023) as (_ & H2 & H3); [lia|lia|].
  split; [exact H1|]. split; [exact H2|exact H3].
Defined.

(** Whatever the configuration says, the bounds of an accepted port range are 16-bit ports,
    and a text without colon is refused. *)
Theorem port_range_bounds s :
  (forall g, parse_port_range s = Ok g -> (rg_start g < 65536)%N /\ (rg_end g < 65536)%N) /\
  (index_byte ":" s = None -> parse_port_range s = Err (EExtend ErrBadPortRange s)).
Proof.
  split; [|intros H; unfold parse_port_range; by rewrite H].
  intros g H. unfold parse_port_range in H. destruct (index_byte ":" s) as [i|]; [|done].
  apply bind_Ok in H as (x & Hx & H). apply bind_Ok in H as (y & Hy & H). simplify_eq. simpl.
  change 65536%N with (2 ^ 16)%N. split.
  - destruct (0 <? i)%nat; [|simplify_eq; reflexivity].
    destruct (parse_uint 16 _) eqn:E; simplify_eq. by eapply parse_uint_bound.
  - clear Hx. destruct (i =? _)%nat; [simplify_eq; reflexivity|].
    destruct (parse_uint 16 _) eqn:E; simplify_eq. by eapply parse_uint_bound.
Qed.

(** ** Address sets *)

Section CIDR.
Context {X : Externals}.

Definition op_zone_free (op : ipset_op) : Prop :=
  match op with OpAddPrefix p => True | OpAdd a => Addr_Zone a = "" end.

(** [netipx.IPSet]: without IPv6 zones, a set contains the addresses that were added and those of
    the prefixes that were added. *)
Definition ipset_law : Prop := forall ops s a,
  IPSetBuilder_IPSet ops = Ok s -> Forall op_zone_free ops -> Addr_Zone a = "" ->
  IPSet_Contains s a = existsb (op_contains a) ops.

(** The meaning of one line: a prefix, else an address. *)
Definition cidr_line_has (a : Addr) (s : string) : bool :=
  match ParsePrefix s with
  | Some p => Prefix_Contains p a
  | None => match ParseAddr s with Some b => bool_decide (a = b) | None => false end
  end.
Definition line_zone_free (s : string) : Prop :=
  ParsePrefix s = None -> forall a, ParseAddr s = Some a -> Addr_Zone a = "".

Lemma parse_cidrs_contains a l : forall i ops, parse_cidrs i l = Ok ops ->
  existsb (op_contains a) ops = existsb (cidr_line_has a) l /\
  (Forall line_zone_free l -> Forall op_zone_free ops).
Proof.
  induction l as [|s l IH]; intros i ops H; cbn [parse_cidrs] in H; [simplify_eq; split; [done|constructor]|].
  apply bind_Ok in H as (op & Hop & H). apply bind_Ok in H as (ops' & Hl & H). simplify_eq.
  destruct (IH _ _ Hl) as [I1 I2]. cbn [existsb]. rewrite I1. split.
  - f_equal. unfold cidr_line_has.
    destruct (ParsePrefix s) as [p|]; [by simplify_eq|]. destruct (ParseAddr s) as [b|]; by simplify_eq.
  - intros [Hz Hz']%Forall_cons. constructor; [|by apply I2].
    destruct (ParsePrefix s) as [p|] eqn:E; [by simplify_eq|].
    destruct (ParseAddr s) as [b|] eqn:E'; simplify_eq. by apply Hz.
Qed.

(** An [ip_cidr] condition holds exactly when the destination address, or for a connection to
    a name one of the resolved addresses, lies in one of the prefixes or is one of the addresses
    of the list; a [source_ip_cidr] condition is the same for the source address. *)
Theorem IPCIDRItem_Match_lines isSource l i m :
  ipset_law -> Forall line_zone_free l -> NewIPCIDRItem isSource l = Ok i ->
  Addr_Zone (sa_Addr (md_Source m)) = "" -> Addr_Zone (sa_Addr (md_Destination m)) = "" ->
  Forall (fun a => Addr_Zone a = "") (md_DestinationAddresses m) ->
  IPCIDRMatchSource (md_cache m) = false -> IPCIDRAcceptEmpty (md_cache m) = false ->
  IPCIDRItem_Match i m =
    let inside a := existsb (cidr_line_has a) l in
    if isSource then inside (sa_Addr (md_Source m))
    else if Socksaddr_IsIP (md_Destination m) then inside (sa_Addr (md_Destination m))
    else existsb inside (md_DestinationAddresses m).
Proof.
  intros Hlaw Hz Hi Hs Hd Ha Hms Hae. unfold NewIPCIDRItem in Hi. inv_bind.
  match goal with H : parse_cidrs _ _ = Ok _ |- _ => rename H into Hp end.
  assert (forall a, Addr_Zone a = "" -> IPSet_Contains x0 a = existsb (cidr_line_has a) l) as E.
  { intros a Hza. destruct (parse_cidrs_contains a l _ _ Hp) as [E1 E2]. rewrite <- E1.
    apply Hlaw; [done|by apply E2|done]. }
  unfold IPCIDRItem_Match. simpl. rewrite Hms, Hae. destruct isSource; simpl; [by apply E|].
  destruct (Socksaddr_IsIP _); [by apply E|].
  destruct (md_DestinationAddresses m) as [|a rest]; [done|]. cbn [nonempty].
  apply existsb_ext_in. intros b Hb. rewrite Forall_forall in Ha. by apply E, Ha.
Qed.
End CIDR.

Section Witnesses.
#[local] Existing Instance sample.

Lemma sample_ipset_law : ipset_law.
Proof. intros ops s a H _ _. simpl in *. by simplify_eq. Qed.

Lemma IPCIDRItem_Match_lines_witness :
  exists i, NewIPCIDRItem false ["10.0.0.0/8"; "192.168.1.1"] = Ok i /\
    IPCIDRItem_Match i (sample_context "" (Addr4 (10 * 2 ^ 24 + 7)) 80) = true /\
    IPCIDRItem_Match i (sample_context "" (Addr4 (11 * 2 ^ 24)) 80) = false.
Proof.
  assert (Forall line_zone_free ["10.0.0.0/8"; "192.168.1.1"]) as Hz.
  { repeat constructor; intros Hp a Ha; vm_compute in Hp, Ha; try discriminate Hp. injection Ha as <-. reflexivity. }
  eexists. split; [reflexivity|]. split.
  - etransitivity; [apply (IPCIDRItem_Match_lines false ["10.0.0.0/8"; "192.168.1.1"] _ _ sample_ipset_law Hz eq_refl);
      try reflexivity; constructor|vm_compute; reflexivity].
  - etransitivity; [apply (IPCIDRItem_Match_lines false ["10.0.0.0/8"; "192.168.1.1"] _ _ sample_ipset_law Hz eq_refl);
      try reflexivity; constructor|vm_compute; reflexivity].
Defined.
End Witnesses.
