(* ===== verification/Adapter.v ===== *)
(** * Adapter: what the routers are given

    The interfaces of the package adapter the two routers call: the inbound and the outbound
    manager, the DNS services the connection router uses, the process searcher, and the query
    options (adapter/dns.go, adapter/outbound.go, common/process/searcher.go). *)

From S2P Require Import Prelude GoStd NetIP Metadata.
Open Scope string_scope.

Definition NetworkTCP : string := "tcp".
Definition NetworkUDP : string := "udp".
Definition NetworkICMP : string := "icmp".

(** [adapter.Outbound]: what the router asks of it, and which of the optional interfaces
    ([ConnectionHandlerEx], [PacketConnectionHandlerEx], [DirectRouteOutbound]) it implements.
    [ob_Network] is what [Network] answers at the moment: it does not change, but for a selector, whose networks are
    those of its selection ([Groups.Selector_Network]); what reads the networks at one time and uses
    them at another (the load balancer) takes the answers of that time as an argument of its own. *)
Record Outbound : Type := mkOutbound {
  ob_Tag : string;
  ob_Network : list string;
  ob_ConnectionHandlerEx : bool;
  ob_PacketConnectionHandlerEx : bool;
  ob_DirectRouteOutbound : bool
}.
(** [common.Contains(outbound.Network(), network)]. *)
Definition supports (network : string) (o : Outbound) : bool := bool_decide (network ∈ ob_Network o).

(** The outbound manager: lookup by tag, and the default ([None]: nil). *)
Record OutboundManager : Type := mkOutboundManager {
  om_Outbound : string -> option Outbound;
  om_Default : option Outbound
}.

(** The inbound manager: for a known tag, whether TCP and UDP connections can be injected. *)
Definition InboundManager : Type := string -> option (bool * bool).

(** [adapter.DNSQueryOptions]; the transport is its tag, [None] for nil. *)
Record DNSQueryOptions : Type := mkDNSQueryOptions {
  dq_Transport : option string;
  dq_Strategy : N;
  dq_LookupStrategy : N;
  dq_DisableCache : bool;
  dq_RewriteTTL : option N;
  dq_ClientSubnet : Prefix
}.

Definition DomainStrategyAsIS : N := 0.
Definition DomainStrategyPreferIPv4 : N := 1.
Definition DomainStrategyPreferIPv6 : N := 2.
Definition DomainStrategyIPv4Only : N := 3.
Definition DomainStrategyIPv6Only : N := 4.

(** [process.Searcher]: network, source and destination. *)
Definition Searcher : Type := string -> Addr * N -> Addr * N -> result ConnectionOwner.

(** The services of the connection router.  [DNSState] is the state of the DNS router, which a
    lookup may change; the fake IP store is [None] when there is no fake IP transport.
    [Socksaddr_AddrPort] is sing's, [user_LookupId] is [os/user]'s,
    the last four are the reserved names of sing-mux, sing-vmess and sing's uot. *)
Class RouterServices `{X : Externals} : Type := {
  DNSState : Type;
  dns_Lookup : InboundContext -> string -> DNSQueryOptions -> DNSState -> result (list Addr) * DNSState;
  dns_LookupReverseMapping : DNSState -> Addr -> option string;
  dnsTransport_Transport : string -> bool;
  FakeIP_Store : option ((Addr -> bool) * (Addr -> option string));
  Socksaddr_AddrPort : Socksaddr -> Addr * N;
  user_LookupId : Z -> option string;
  mux_Destination_Fqdn : string;
  vmess_MuxDestination_Fqdn : string;
  uot_MagicAddress : string;
  uot_LegacyMagicAddress : string
}.

(** [process.FindProcessInfo]. *)
Definition FindProcessInfo `{RouterServices} (searcher : Searcher) (network : string)
  (source destination : Addr * N) : result ConnectionOwner :=
  let! info := searcher network source destination in
  if negb (UserId info =? -1)%Z then
    match user_LookupId (UserId info) with
    | Some name => Ok (mkConnectionOwner (ProcessID info) (UserId info) name (ProcessPath info)
                         (AndroidPackageName info))
    | None => Ok info
    end
  else Ok info.
