(* ===== verification/Sniff.v ===== *)
(** * Sniff: protocol detection by the router

    [Skip], [PeekStream] and [PeekPacket] (common/sniff/sniff.go) and the router's [actionSniff]
    and [actionResolve] (route/route.go).  The sniffers themselves (common/sniff/*.go) are behind
    the interface [Sniffers]: a sniffer is given the bytes read so far, writes the sniffer group
    of the metadata and returns an error or [nil].

    What the two connections will deliver is a list of the outcomes of the next reads; an
    exhausted list stands for a peer that sends nothing more, so that the read deadline passes. *)

From S2P Require Import Prelude GoStd NetIP Metadata RuleItems RuleMatch RuleAction.
Open Scope string_scope.

Definition ErrNeedMoreData : error := ELib "sniff.ErrNeedMoreData".
Definition DeadlineExceeded : error := ELib "context.DeadlineExceeded".

(** [errors.Is(err, target)] of a possibly nil error. *)
Definition is_error (e : option error) (target : error) : bool :=
  match e with Some e => errors_Is e target | None => false end.

(** The sniffers.  [SniffState] is what they keep in [metadata.SniffContext]; [E_Errors] is the
    library function of that name ([nil] errors are left out by its callers here). *)
Class Sniffers : Type := {
  SniffState : Type;
  run_stream : StreamSniffer -> string -> SniffInfo -> SniffState -> option error * SniffInfo * SniffState;
  run_packet : PacketSniffer -> string -> SniffInfo -> SniffState -> option error * SniffInfo * SniffState;
  E_Errors : list error -> option error
}.

(** ** The connections *)

(** One turn of [PeekStream]: the deadline cannot be set, or the read returns data and an error,
    or only data. *)
Inductive stream_read : Type :=
| SetDeadlineFailed (e : error)
| ReadFailed (data : string) (e : error)
| ReadOk (data : string).

Record PacketBuffer : Type := mkPacketBuffer { pk_Buffer : string; pk_Destination : Socksaddr }.
(** One turn of the packet loop: a packet, an error, or the context is done. *)
Inductive packet_read : Type :=
| PacketOk (p : PacketBuffer)
| PacketFailed (e : error)
| PacketCancelled (e : error).

(** [Skip]. *)
Definition Skip (m : InboundContext) : bool :=
  bool_decide (sa_Port (md_Destination m) ∈ [25; 465; 587; 143; 993; 110; 995]%N).

(** [slices.Equal(metadata.SnifferNames, action.SnifferNames) && metadata.SniffError != nil &&
    !errors.Is(metadata.SniffError, sniff.ErrNeedMoreData)]. *)
Definition previous_error (a : RuleActionSniff) (s : SniffInfo) : bool :=
  bool_decide (sn_SnifferNames s = SnifferNames a) &&
  match sn_SniffError s with Some e => negb (errors_Is e ErrNeedMoreData) | None => false end.

Definition set_sniff_result (names : list string) (e : option error) (s : SniffInfo) : SniffInfo :=
  mkSniffInfo (sn_Protocol s) (sn_Domain s) (sn_Client s) names e.

Section Sniffing.
Context {X : Externals} {S : Sniffers}.

(** The sniffers in turn, up to the first that succeeds; the errors of those before it. *)
Fixpoint first_sniffer {K : Type}
  (run : K -> string -> SniffInfo -> SniffState -> option error * SniffInfo * SniffState)
  (join : option error -> error -> option error)
  (ks : list K) (data : string) (e : option error) (s : SniffInfo) (c : SniffState)
  : option error * SniffInfo * SniffState :=
  match ks with
  | [] => (e, s, c)
  | k :: ks =>
      match run k data s c with
      | (None, s, c) => (None, s, c)
      | (Some err, s, c) => first_sniffer run join ks data (join e err) s c
      end
  end.

(** [PeekStream]: the error, what was read into [buffer], the reads left, the metadata.
    [first] tells the first turn. *)
Fixpoint PeekStream (sniffers : list StreamSniffer) (buffers buffer : string) (first : bool)
  (sniffError : option error) (conn : list stream_read) (s : SniffInfo) (c : SniffState)
  : option error * string * list stream_read * SniffInfo * SniffState :=
  match conn with
  | [] => (if first then Some (ECause DeadlineExceeded "read payload") else sniffError, buffer, [], s, c)
  | SetDeadlineFailed e :: conn => (Some (ECause e "set read deadline"), buffer, conn, s, c)
  | ReadFailed data e :: conn =>
      (if first then Some (ECause e "read payload") else sniffError, buffer +:+ data, conn, s, c)
  | ReadOk data :: conn =>
      let buffer := buffer +:+ data in
      let '(err, s, c) :=
        first_sniffer run_stream (fun e err => E_Errors (option_list e ++ [err])) sniffers
          (buffers +:+ buffer) None s c in
      if is_error err ErrNeedMoreData then PeekStream sniffers buffers buffer false err conn s c
      else (err, buffer, conn, s, c)
  end.

(** [PeekPacket]: the errors are collected and joined at the end. *)
Fixpoint PeekPacket (sniffers : list PacketSniffer) (packet : string) (errs : list error)
  (s : SniffInfo) (c : SniffState) : option error * SniffInfo * SniffState :=
  match sniffers with
  | [] => (E_Errors errs, s, c)
  | k :: ks =>
      match run_packet k packet s c with
      | (None, s, c) => (None, s, c)
      | (Some err, s, c) => PeekPacket ks packet (errs ++ [err])%list s c
      end
  end.

Definition default_stream_sniffers : list StreamSniffer :=
  [TLSClientHello; HTTPHost; StreamDomainNameQuery; BitTorrent; SSH; RDP].
Definition default_packet_sniffers : list PacketSniffer :=
  [DomainNameQuery; QUICClientHello; STUNMessage; UTP; UDPTracker; DTLSRecord; NTP].
Definition stream_sniffers (a : RuleActionSniff) : list StreamSniffer :=
  if nonempty (StreamSniffers a) then StreamSniffers a else default_stream_sniffers.
Definition packet_sniffers (a : RuleActionSniff) : list PacketSniffer :=
  if nonempty (PacketSniffers a) then PacketSniffers a else default_packet_sniffers.

(** Sniffing one packet: only QUIC once it has asked for more data. *)
Definition sniff_packet (a : RuleActionSniff) (packet : string) (s : SniffInfo) (c : SniffState)
  : option error * SniffInfo * SniffState :=
  let quicMoreData := bool_decide (sn_SnifferNames s = SnifferNames a)
                      && is_error (sn_SniffError s) ErrNeedMoreData in
  let '(err, s, c) :=
    PeekPacket (if quicMoreData then [QUICClientHello] else packet_sniffers a) packet [] s c in
  (err, set_sniff_result (SnifferNames a) err s, c).

(** The loop over the packets read earlier: [Some err] for [goto finally]. *)
Fixpoint sniff_earlier (a : RuleActionSniff) (packets : list PacketBuffer) (s : SniffInfo) (c : SniffState)
  : option (option error) * SniffInfo * SniffState :=
  match packets with
  | [] => (None, s, c)
  | p :: l =>
      let '(err, s, c) := sniff_packet a (pk_Buffer p) s c in
      if is_error err ErrNeedMoreData then sniff_earlier a l s c else (Some err, s, c)
  end.

(** The loop that reads packets: the fatal error, [err] at [finally], the packets, the reads left
    and the metadata. *)
Fixpoint sniff_reads (a : RuleActionSniff) (reads : list packet_read) (packets : list PacketBuffer)
  (s : SniffInfo) (c : SniffState)
  : option error * option error * list PacketBuffer * list packet_read * SniffInfo * SniffState :=
  match reads with
  | [] => (None, Some DeadlineExceeded, packets, [], s, c)
  | PacketCancelled e :: l => (Some e, Some e, packets, l, s, c)
  | PacketFailed e :: l =>
      if errors_Is e DeadlineExceeded then (None, Some e, packets, l, s, c)
      else (Some e, Some e, packets, l, s, c)
  | PacketOk p :: l =>
      let '(err, s, c) := sniff_packet a (pk_Buffer p) s c in
      if is_error err ErrNeedMoreData then sniff_reads a l (packets ++ [p])%list s c
      else (None, err, (packets ++ [p])%list, l, s, c)
  end.

(** ** State of a routed connection *)

(** The metadata, the reads left on both connections, and what was read so far. *)
Record mstate : Type := mkMState {
  ms_md : InboundContext;
  ms_ctx : SniffState;
  ms_conn : list stream_read;
  ms_pconn : list packet_read;
  ms_buffers : list string;
  ms_packets : list PacketBuffer
}.
Definition upd_md (f : InboundContext -> InboundContext) (st : mstate) : mstate :=
  mkMState (f (ms_md st)) (ms_ctx st) (ms_conn st) (ms_pconn st) (ms_buffers st) (ms_packets st).
Definition set_buffers (l : list string) (st : mstate) : mstate :=
  mkMState (ms_md st) (ms_ctx st) (ms_conn st) (ms_pconn st) l (ms_packets st).
Definition set_packets (l : list PacketBuffer) (st : mstate) : mstate :=
  mkMState (ms_md st) (ms_ctx st) (ms_conn st) (ms_pconn st) (ms_buffers st) l.

(** [action.OverrideDestination && M.IsDomainName(metadata.Domain)] after a sniff without error. *)
Definition override_destination (a : RuleActionSniff) (err : option error) (m : InboundContext) : InboundContext :=
  match err with
  | None =>
      if OverrideDestination a && IsDomainName (sn_Domain (md_sniff m))
      then set_Destination (mkSocksaddr AddrNone (sa_Port (md_Destination m)) (sn_Domain (md_sniff m))) m
      else m
  | Some _ => m
  end.

(** What [actionSniff] returns: the stream buffer ([None] for [nil]), the packet buffers and the
    fatal error. *)
Record sniff_result : Type := mkSniffResult {
  sr_buffer : option string; sr_packets : list PacketBuffer; sr_fatal : option error }.
Definition nothing_sniffed : sniff_result := mkSniffResult None [] None.

(** The branch for a stream. *)
Definition sniff_stream (a : RuleActionSniff) (inputBuffers : list string) (st : mstate) : sniff_result * mstate :=
  let m := ms_md st in
  let '(err, buffer, conn, s, c) :=
    PeekStream (stream_sniffers a) (str_concat inputBuffers) "" true None (ms_conn st)
      (md_sniff m) (ms_ctx st) in
  let m := set_sniff (set_sniff_result (SnifferNames a) err s) m in
  let m := override_destination a err m in
  (mkSniffResult (if str_empty buffer then None else Some buffer) [] None,
   mkMState m c conn (ms_pconn st) (ms_buffers st) (ms_packets st)).

(** The branch for packets. *)
Definition sniff_packets (a : RuleActionSniff) (inputPackets : list PacketBuffer) (st : mstate)
  : sniff_result * mstate :=
  let m := ms_md st in
  match sniff_earlier a inputPackets (md_sniff m) (ms_ctx st) with
  | (Some err, s, c) =>
      (nothing_sniffed,
       mkMState (override_destination a err (set_sniff s m)) c (ms_conn st) (ms_pconn st)
         (ms_buffers st) (ms_packets st))
  | (None, s, c) =>
      let '(fatal, err, packets, reads, s, c) := sniff_reads a (ms_pconn st) inputPackets s c in
      let m := set_sniff s m in
      (mkSniffResult None packets fatal,
       mkMState (match fatal with None => override_destination a err m | Some _ => m end) c
         (ms_conn st) reads (ms_buffers st) (ms_packets st))
  end.

(** [actionSniff]; [hasConn] and [hasPacketConn]: [inputConn != nil], [inputPacketConn != nil]. *)
Definition actionSniff (hasConn hasPacketConn : bool) (a : RuleActionSniff) (inputBuffers : list string)
  (inputPackets : list PacketBuffer) (st : mstate) : sniff_result * mstate :=
  let m := ms_md st in
  if Skip m then (nothing_sniffed, st)
  else if negb (str_empty (sn_Protocol (md_sniff m))) then (nothing_sniffed, st)
  else if hasConn then
    if negb (nonempty (StreamSniffers a)) && nonempty (PacketSniffers a) then (nothing_sniffed, st)
    else if previous_error a (md_sniff m) then (nothing_sniffed, st)
    else sniff_stream a inputBuffers st
  else if hasPacketConn then
    if negb (nonempty (PacketSniffers a)) && nonempty (StreamSniffers a) then (nothing_sniffed, st)
    else if previous_error a (md_sniff m) then (nothing_sniffed, st)
    else sniff_packets a inputPackets st
  else (nothing_sniffed, st).

(** ** Nothing read is lost *)

(** The bytes and the packets a connection will deliver. *)
Definition read_data (r : stream_read) : string :=
  match r with SetDeadlineFailed _ => "" | ReadFailed data _ | ReadOk data => data end.
Definition stream_data (l : list stream_read) : string := str_concat (map read_data l).
Definition packet_data (l : list packet_read) : list PacketBuffer :=
  flat_map (fun r => match r with PacketOk p => [p] | _ => [] end) l.

Lemma PeekStream_data sniffers buffers conn : forall buffer first e s c,
  let '(_, buffer', conn', _, _) := PeekStream sniffers buffers buffer first e conn s c in
  buffer' +:+ stream_data conn' = buffer +:+ stream_data conn.
Proof.
  induction conn as [|[err|d err|d] conn IH]; intros buffer first e s c; cbn [PeekStream].
  - done.
  - done.
  - apply str_app_assoc.
  - destruct (first_sniffer _ _ _ _ _ _ _) as [[err s'] c'].
    change (stream_data (ReadOk d :: conn)) with (d +:+ stream_data conn).
    rewrite <- str_app_assoc. destruct (is_error err _); [apply IH|done].
Qed.

(** A sniff of a stream keeps the bytes: those it returns and those left to read are those that
    were to be read; nothing else of the state but the metadata changes. *)
Lemma actionSniff_stream_data hasPacketConn a buffers packets st :
  let '(r, st') := actionSniff true hasPacketConn a buffers packets st in
  default "" (sr_buffer r) +:+ stream_data (ms_conn st') = stream_data (ms_conn st) /\
  sr_packets r = [] /\ sr_fatal r = None /\
  ms_pconn st' = ms_pconn st /\ ms_buffers st' = ms_buffers st /\ ms_packets st' = ms_packets st.
Proof.
  unfold actionSniff. repeat case_match; simplify_eq; try done.
  all: revert H; unfold sniff_stream.
  all: pose proof (PeekStream_data (stream_sniffers a) (str_concat buffers) (ms_conn st) "" true None
    (md_sniff (ms_md st)) (ms_ctx st)) as HD.
  all: destruct (PeekStream _ _ _ _ _ _ _ _) as [[[[? b] ?] ?] ?]; intros ?; simplify_eq; simpl.
  all: unfold str_empty; case_bool_decide; subst; done.
Qed.

Lemma sniff_reads_data a reads : forall packets s c,
  let '(_, _, packets', reads', _, _) := sniff_reads a reads packets s c in
  (packets' ++ packet_data reads' = packets ++ packet_data reads)%list.
Proof.
  induction reads as [|[p|e|e] reads IH]; intros packets s c; cbn [sniff_reads]; try done.
  - destruct (sniff_packet _ _ _ _) as [[err s'] c'].
    change (packet_data (PacketOk p :: reads)) with ([p] ++ packet_data reads)%list.
    rewrite app_assoc. destruct (is_error err _); [apply IH|done].
  - by destruct (errors_Is _ _).
Qed.

(** A sniff of packets returns nothing and reads nothing, or returns the packets it was given
    followed by those it read. *)
Lemma actionSniff_packet_data a buffers packets st :
  let '(r, st') := actionSniff false true a buffers packets st in
  (sr_packets r = [] /\ sr_fatal r = None /\ ms_pconn st' = ms_pconn st \/
   sr_packets r ++ packet_data (ms_pconn st') = packets ++ packet_data (ms_pconn st))%list /\
  sr_buffer r = None /\ ms_conn st' = ms_conn st /\
  ms_buffers st' = ms_buffers st /\ ms_packets st' = ms_packets st.
Proof.
  unfold actionSniff, sniff_packets. repeat case_match; simplify_eq; simpl; try (split; [by left|done]).
  all: match goal with H : sniff_reads ?a ?r ?p ?s ?c = _ |- _ =>
    pose proof (sniff_reads_data a r p s c) as HD; rewrite H in HD end.
  all: split; [by right|done].
Qed.
End Sniffing.
