(* ===== verification/Router.v ===== *)
(** * Router: how a connection finds its rule and its outbound

    The router of route/router.go, route/route.go and route/rule_conds.go: [NewRouter],
    [Initialize], [Start], [Close], [matchRule] in its stages, [routeConnection],
    [routePacketConnection] and [PreMatch].  Logging, conntrack's memory check and the read
    deadline wrapper are left out. *)

From S2P Require Import Prelude GoStd NetIP Metadata RuleItems RuleMatch RuleAction RuleOptions RuleBuild RuleSet.
From S2P Require Import Rules Sniff Adapter.
Open Scope string_scope.

(** Reading through a nil pointer or interface. *)
Definition nil_pointer : string := "invalid memory address or nil pointer dereference".
Definition bad_conversion : string := "interface conversion".

(** ** The options of the action on the metadata *)

Definition di_with_strategy (o : RuleActionRouteOptions) (d : DialInfo) : DialInfo :=
  mkDialInfo
    (if UDPDisableDomainUnmapping o then true else di_UDPDisableDomainUnmapping d)
    (if UDPConnect o then true else di_UDPConnect d)
    (if (0 <? UDPTimeout o)%Z then UDPTimeout o else di_UDPTimeout d)
    (if TLSFragment o then true else di_TLSFragment d)
    (if TLSFragment o then TLSFragmentFallbackDelay o else di_TLSFragmentFallbackDelay d)
    (if TLSRecordFragment o then true else di_TLSRecordFragment d)
    (match NetworkStrategy o with Some s => Some s | None => di_NetworkStrategy d end)
    (if nonempty (NetworkType o) then NetworkType o else di_NetworkType d)
    (if nonempty (FallbackNetworkType o) then FallbackNetworkType o else di_FallbackNetworkType d)
    (if negb (FallbackDelay o =? 0)%Z then FallbackDelay o else di_FallbackDelay d).

Section Router.
Context {X : Externals} {S : Sniffers} {V : RouterServices}.

(** The block [if routeOptions != nil] of [matchRule]. *)
Definition apply_route_options (o : RuleActionRouteOptions) (m : InboundContext) : InboundContext :=
  let m :=
    if (Socksaddr_IsValid (OverrideAddress o) || (0 <? OverridePort o)%N)
       && negb (Socksaddr_IsValid (md_RouteOriginalDestination m))
    then set_RouteOriginalDestination (md_Destination m) m else m in
  let m :=
    if Socksaddr_IsValid (OverrideAddress o)
    then set_DestinationAddresses []
           (set_Destination (mkSocksaddr (sa_Addr (OverrideAddress o)) (sa_Port (md_Destination m))
              (sa_Fqdn (OverrideAddress o))) m)
    else m in
  let m :=
    if (0 <? OverridePort o)%N
    then set_Destination (mkSocksaddr (sa_Addr (md_Destination m)) (OverridePort o)
           (sa_Fqdn (md_Destination m))) m
    else m in
  let m :=
    if negb (str_empty (OverrideTunnelDestination o))
    then set_TunnelDestination (OverrideTunnelDestination o) m else m in
  set_dial (di_with_strategy o (md_dial m)) m.

(** [routeOptions]: set for the [route] and [route-options] actions only. *)
Definition route_options (a : RuleAction) : option RuleActionRouteOptions :=
  match a with ActRoute _ o | ActRouteOptions o => Some o | _ => None end.

(** ** Before the rules *)

(** The process search; a failed search leaves the metadata as it is. *)
Definition find_process (searcher : option Searcher) (m : InboundContext) : result InboundContext :=
  match searcher, md_ProcessInfo m with
  | Some s, None =>
      let originDestination :=
        if Socksaddr_IsValid (md_OriginDestination m) then Socksaddr_AddrPort (md_OriginDestination m)
        else if Socksaddr_IsIP (md_Destination m) then Socksaddr_AddrPort (md_Destination m)
        else (AddrNone, 0%N) in
      match FindProcessInfo s (md_Network m) (Socksaddr_AddrPort (md_Source m)) originDestination with
      | Ok info => Ok (set_ProcessInfo (Some info) m)
      | Err _ => Ok m
      | Panic msg => Panic msg
      end
  | _, _ => Ok m
  end.

Definition set_Domain (domain : string) (m : InboundContext) : InboundContext :=
  let s := md_sniff m in
  set_sniff (mkSniffInfo (sn_Protocol s) domain (sn_Client s) (sn_SnifferNames s) (sn_SniffError s)) m.

Definition err_fakeip : error := ENew "missing fakeip record, try enable `experimental.cache_file`".

(** The fake IP and the reverse mapping. *)
Definition unmap_destination (d : DNSState) (m : InboundContext) : result InboundContext :=
  let addr := sa_Addr (md_Destination m) in
  let reverse :=
    if str_empty (sn_Domain (md_sniff m))
    then match dns_LookupReverseMapping d addr with Some domain => Ok (set_Domain domain m) | None => Ok m end
    else Ok m in
  match FakeIP_Store with
  | Some (Contains, Lookup) =>
      if Addr_IsValid addr && Contains addr then
        match Lookup addr with
        | None => Err err_fakeip
        | Some domain =>
            if negb (str_empty domain)
            then Ok (set_FakeIP true (set_Destination (mkSocksaddr AddrNone (sa_Port (md_Destination m)) domain)
                       (set_OriginDestination (md_Destination m) m)))
            else Ok m
        end
      else reverse
  | None => reverse
  end.

Definition detect_version (m : InboundContext) : InboundContext :=
  if Socksaddr_IsIPv4 (md_Destination m) then set_IPVersion 4 m
  else if Socksaddr_IsIPv6 (md_Destination m) then set_IPVersion 6 m else m.

(** [actionResolve]. *)
Definition actionResolve (a : RuleActionResolve) (m : InboundContext) (d : DNSState)
  : result InboundContext * DNSState :=
  if Socksaddr_IsFqdn (md_Destination m) then
    if negb (str_empty (rs_Server a)) && negb (dnsTransport_Transport (rs_Server a))
    then (Err (ENew ("DNS server not found: " +:+ rs_Server a)), d)
    else
      let '(addresses, d) :=
        dns_Lookup m (sa_Fqdn (md_Destination m))
          (mkDNSQueryOptions (if str_empty (rs_Server a) then None else Some (rs_Server a)) (rs_Strategy a)
             DomainStrategyAsIS (rs_DisableCache a) (rs_RewriteTTL a) (rs_ClientSubnet a)) d in
      ((fun l => set_DestinationAddresses l m) <$> addresses, d)
  else (Ok m, d).

(** The resolve actions the router makes up itself. *)
Definition resolve_with (strategy : N) : RuleActionResolve := mkResolve "" strategy false None Prefix_zero.

(** ** State of [matchRule] *)

(** The connection's state and that of the DNS router. *)
Record rstate : Type := mkRState { rs_m : mstate; rs_dns : DNSState }.
Definition rs_md (st : rstate) : InboundContext := ms_md (rs_m st).
Definition upd_rs (f : InboundContext -> InboundContext) (st : rstate) : rstate :=
  mkRState (upd_md f (rs_m st)) (rs_dns st).

(** A stage that may fail runs on the metadata. *)
Definition on_md (f : InboundContext -> result InboundContext) (st : rstate) : result unit * rstate :=
  match f (rs_md st) with
  | Ok m => (Ok tt, upd_rs (fun _ => m) st)
  | Err e => (Err e, st)
  | Panic msg => (Panic msg, st)
  end.
Definition run_resolve (a : RuleActionResolve) (st : rstate) : result unit * rstate :=
  let '(r, d) := actionResolve a (rs_md st) (rs_dns st) in
  on_md (fun _ => r) (mkRState (rs_m st) d).

(** Sequencing of stages. *)
Definition and_then {A B} (p : result A * rstate) (k : A -> rstate -> result B * rstate) : result B * rstate :=
  match p with
  | (Ok a, st) => k a st
  | (Err e, st) => (Err e, st)
  | (Panic msg, st) => (Panic msg, st)
  end.

Definition fatal_result (e : option error) : result unit :=
  match e with Some e => Err e | None => Ok tt end.

Section Match.
(** [preMatch], [supportBypass], [inputConn != nil] and [inputPacketConn != nil]. *)
Variables (preMatch supportBypass hasConn hasPacketConn : bool).

(** The deprecated options of the inbound.  [C.DomainStrategy] of the options is the strategy. *)
Definition legacy_sniff (o : InboundOptions) : RuleActionSniff :=
  mkSniff [] [] [] (io_SniffTimeout o) (io_SniffOverrideDestination o).
Definition run_legacy_sniff (o : InboundOptions) (st : rstate) : result unit * rstate :=
  if negb preMatch && io_SniffEnabled o then
    let '(r, s) := actionSniff hasConn hasPacketConn (legacy_sniff o) [] [] (rs_m st) in
    let s :=
      match sr_buffer r with
      | Some b => set_buffers [b] s
      | None => if nonempty (sr_packets r) then set_packets (sr_packets r) s else s
      end in
    (fatal_result (sr_fatal r), mkRState s (rs_dns st))
  else (Ok tt, st).
Definition legacy_options (st : rstate) : result unit * rstate :=
  let o := md_InboundOptions (rs_md st) in
  if bool_decide (o = InboundOptions_zero) then (Ok tt, st)
  else
    and_then (run_legacy_sniff o st) (fun _ st =>
    and_then (if negb (io_DomainStrategy o =? DomainStrategyAsIS)%N
              then run_resolve (resolve_with (io_DomainStrategy o)) st else (Ok tt, st)) (fun _ st =>
    let st :=
      if io_UDPDisableDomainUnmapping o
      then upd_rs (fun m => let d := md_dial m in
             set_dial (mkDialInfo true (di_UDPConnect d) (di_UDPTimeout d) (di_TLSFragment d)
               (di_TLSFragmentFallbackDelay d) (di_TLSRecordFragment d) (di_NetworkStrategy d)
               (di_NetworkType d) (di_FallbackNetworkType d) (di_FallbackDelay d)) m) st
      else st in
    (Ok tt, upd_rs (set_InboundOptions InboundOptions_zero) st))).

(** The sniff action of a rule: the buffers are appended to those there are. *)
Definition run_sniff (a : RuleActionSniff) (st : rstate) : result unit * rstate :=
  let '(r, s) := actionSniff hasConn hasPacketConn a (ms_buffers (rs_m st)) (ms_packets (rs_m st)) (rs_m st) in
  let s :=
    match sr_buffer r with
    | Some b => set_buffers (ms_buffers s ++ [b])%list s
    | None => if nonempty (sr_packets r) then set_packets (ms_packets s ++ sr_packets r)%list s else s
    end in
  (fatal_result (sr_fatal r), mkRState s (rs_dns st)).

(** What a matched rule does: [true] when it is selected, [false] when the loop goes on.  A rule
    without action is a nil interface, whose [Type()] is called. *)
Definition run_action (act : option RuleAction) (st : rstate) : result bool * rstate :=
  match act with
  | None => (Panic nil_pointer, st)
  | Some act =>
      let st := match route_options act with
                | Some o => upd_rs (apply_route_options o) st
                | None => st
                end in
      and_then
        (match act with
         | ActSniff a =>
             if negb preMatch then let '(r, st) := run_sniff a st in ((fun _ => false) <$> r, st)
             else (Ok (negb (bool_decide (md_Network (rs_md st) = NetworkICMP))), st)
         | ActResolve a => let '(r, st) := run_resolve a st in ((fun _ => false) <$> r, st)
         | _ => (Ok false, st)
         end)
        (fun selected st =>
           let actionType := RuleAction_Type act in
           if selected : bool then (Ok true, st)
           else if bool_decide (actionType = RuleActionTypeRoute)
                   || bool_decide (actionType = RuleActionTypeReject)
                   || bool_decide (actionType = RuleActionTypeHijackDNS) then (Ok true, st)
           else if bool_decide (actionType = RuleActionTypeBypass) then
             match act with
             | ActBypass outbound _ => (Ok (negb (negb supportBypass && str_empty outbound)), st)
             | _ => (Panic bad_conversion, st)
             end
           else (Ok false, st))
  end.

Context {T : Type} {A : AdapterRuleSet T}.
Variable w : World.
Variable store : gmap string T.

(** The loop over the rules from index [i]: the selected rule and its index. *)
Fixpoint match_loop (i : nat) (rules : list Rule) (st : rstate) : result (option (nat * Rule)) * rstate :=
  match rules with
  | [] => (Ok None, st)
  | r :: rules =>
      let '(matched, m) := Rule_Match w store r (ResetRuleCache (rs_md st)) in
      let st := upd_rs (fun _ => m) st in
      if negb matched then match_loop (i + 1) rules st
      else and_then (run_action (Rule_Action r) st) (fun (selected : bool) st =>
             if selected then (Ok (Some (i, r)), st) else match_loop (i + 1) rules st)
  end.

(** [matchRule]. *)
Definition before_rules (searcher : option Searcher) (st : rstate) : result unit * rstate :=
  and_then (on_md (find_process searcher) st) (fun _ st =>
  and_then (on_md (unmap_destination (rs_dns st)) st) (fun _ st =>
  legacy_options (upd_rs detect_version st))).
Definition matchRule (searcher : option Searcher) (rules : list Rule) (st : rstate)
  : result (option (nat * Rule)) * rstate :=
  and_then (before_rules searcher st) (fun _ st => match_loop 0 rules st).
End Match.

(** ** Routing *)

(** The connection handed on: the input, buffers put in front of it ([bufio.NewCachedConn] and
    [NewCachedPacketConn]), trackers and the address translation around it. *)
Inductive Conn (B : Type) : Type :=
| InputConn
| CachedConn (buffer : B) (inner : Conn B)
| TrackedConn (tracker : N) (inner : Conn B)
| NATConn (origin destination : Socksaddr) (inner : Conn B).
Arguments InputConn {_}.
Arguments CachedConn {_} _ _.
Arguments TrackedConn {_} _ _.
Arguments NATConn {_} _ _ _.

Definition wrap_buffers {B} (buffers : list B) (c : Conn B) : Conn B :=
  foldl (fun c b => CachedConn b c) c buffers.
Definition wrap_trackers {B} (trackers : list N) (c : Conn B) : Conn B :=
  foldl (fun c t => TrackedConn t c) c trackers.

(** What becomes of a connection that is not refused. *)
Inductive routed (B : Type) : Type :=
| Injected (inbound : string) (m : InboundContext)
| HijackedDNS (c : Conn B) (buffers : list B) (m : InboundContext)
| Delivered (outbound : option Outbound) (handler : bool) (c : Conn B) (m : InboundContext)
    (rule : option (nat * Rule)).
Arguments Injected {_} _ _.
Arguments HijackedDNS {_} _ _ _.
Arguments Delivered {_} _ _ _ _ _.

(** [Router]: the rule-sets are in [store], [r_ruleSets] lists them in order. *)
Record Router : Type := mkRouter {
  r_rules : list Rule;
  r_needFindProcess : bool;
  r_ruleSets : list string;
  r_processSearcher : option Searcher;
  r_trackers : list N;
  r_started : bool
}.
Definition set_rules (rules : list Rule) (r : Router) : Router :=
  mkRouter rules (r_needFindProcess r) (r_ruleSets r) (r_processSearcher r) (r_trackers r) (r_started r).

(** The counter of a [reject] action is behind the rule's pointer. *)
Definition set_action (a : RuleAction) (r : Rule) : Rule :=
  match r with
  | DefaultRule d =>
      DefaultRule (mkDefaultRule (items d) (sourceAddressItems d) (sourcePortItems d)
        (destinationAddressItems d) (destinationIPCIDRItems d) (destinationPortItems d) (allItems d)
        (invert d) (Some a))
  | LogicalRule l => LogicalRule (mkLogicalRule (lr_rules l) (lr_mode l) (lr_invert l) (Some a))
  end.
Definition count_reject (i : nat) (a : RuleActionReject) (r : Router) : Router :=
  set_rules (alter (set_action (ActReject a)) i (r_rules r)) r.

(** [return action.Error(ctx)]. *)
Definition reject {B} (now : Z) (i : nat) (a : RuleActionReject) (r : Router) : result (option B) * Router :=
  match RuleActionReject_Error now a with
  | Ok (Some e, a) => (Err e, count_reject i a r)
  | Ok (None, a) => (Ok None, count_reject i a r)
  | Err e => (Err e, r)
  | Panic msg => (Panic msg, r)
  end.

Section Route.
Context {T : Type} {A : AdapterRuleSet T}.
Variable w : World.
Variable store : gmap string T.
Variable inbound : InboundManager.
Variable outbound : OutboundManager.

Definition err_not_supported (network tag : string) : error :=
  ENew (network +:+ " is not supported by outbound: " +:+ tag).
(** [r.outbound.Outbound(tag)] with the two checks. *)
Definition find_outbound (network label tag : string) : result Outbound :=
  match om_Outbound outbound tag with
  | None => Err (ENew ("outbound not found: " +:+ tag))
  | Some o => if supports network o then Ok o else Err (err_not_supported label (ob_Tag o))
  end.

(** The detour of the inbound. *)
Definition inject_detour {B} (injectable : bool * bool -> bool) (label : string) (m : InboundContext)
  : result (routed B) :=
  let detour := md_InboundDetour m in
  if bool_decide (md_LastInbound m = detour) then Err (ENew ("routing loop on detour: " +:+ detour))
  else
    match inbound detour with
    | None => Err (ENew ("inbound detour not found: " +:+ detour))
    | Some i =>
        if negb (injectable i)
        then Err (ENew ("inbound detour is not " +:+ label +:+ " injectable: " +:+ detour))
        else Ok (Injected detour
               (set_InboundDetour "" (set_Inbound detour (set_LastInbound (md_Inbound m) m))))
    end.

(** The [switch metadata.Destination.Fqdn]. *)
Definition deprecated_multiplex (fqdn : string) : option error :=
  if bool_decide (fqdn = mux_Destination_Fqdn)
  then Some (ENew "global multiplex is deprecated since sing-box v1.7.0, enable multiplex in Inbound fields instead.")
  else if bool_decide (fqdn = vmess_MuxDestination_Fqdn)
  then Some (ENew "global multiplex (v2ray legacy) not supported since sing-box v1.7.0.")
  else if bool_decide (fqdn = uot_MagicAddress)
  then Some (ENew "global UoT not supported since sing-box v1.7.0.")
  else if bool_decide (fqdn = uot_LegacyMagicAddress)
  then Some (ENew "global UoT (legacy) not supported since sing-box v1.7.0.")
  else None.

(** The result of the [switch] on the selected rule's action: the selected outbound ([None] for
    nil), or the connection is given to the DNS. *)
Inductive selection : Type := SelOutbound (o : option Outbound) | SelHijack | SelDone.

Definition reply_unsupported (network : string) : error :=
  ENew ("reject method `reply` is not supported for " +:+ network +:+ " connections").

Definition select_outbound (network label : string) (now : Z) (selected : option (nat * Rule)) (r : Router)
  : result selection * Router :=
  match selected with
  | None => (Ok (SelOutbound None), r)
  | Some (i, rule) =>
      match Rule_Action rule with
      | Some (ActRoute tag _) => ((fun o => SelOutbound (Some o)) <$> find_outbound network label tag, r)
      | Some (ActBypass tag _) =>
          if str_empty tag then (Ok (SelOutbound None), r)
          else ((fun o => SelOutbound (Some o)) <$> find_outbound network label tag, r)
      | Some (ActReject a) =>
          if bool_decide (rej_Method a = RuleActionRejectMethodReply) then (Err (reply_unsupported label), r)
          else
            let '(e, r) := reject (B := selection) now i a r in ((fun _ => SelDone) <$> e, r)
      | Some ActHijackDNS => (Ok SelHijack, r)
      | _ => (Ok (SelOutbound None), r)
      end
  end.

(** [if selectedRule == nil]: the default outbound. *)
Definition default_outbound (network : string) (e : string -> error) (selected : option (nat * Rule))
  (o : option Outbound) : result (option Outbound) :=
  match selected with
  | Some _ => Ok o
  | None =>
      match om_Default outbound with
      | None => Panic nil_pointer
      | Some d => if supports network d then Ok (Some d) else Err (e (ob_Tag d))
      end
  end.

(** [routeConnection]; [Ok None]: nothing is left to do. *)
Definition routeConnection (now : Z) (r : Router) (st : rstate)
  : result (option (routed string)) * Router * rstate :=
  let m := rs_md st in
  if negb (str_empty (md_InboundDetour m)) then (Some <$> inject_detour fst "TCP" m, r, st)
  else
    let st := upd_rs (set_Network NetworkTCP) st in
    match deprecated_multiplex (sa_Fqdn (md_Destination (rs_md st))) with
    | Some e => (Err e, r, st)
    | None =>
        match matchRule false false true false w store (r_processSearcher r) (r_rules r) st with
        | (Err e, st) => (Err e, r, st)
        | (Panic msg, st) => (Panic msg, r, st)
        | (Ok selected, st) =>
            let buffers := ms_buffers (rs_m st) in
            match select_outbound NetworkTCP "TCP" now selected r with
            | (Err e, r) => (Err e, r, st)
            | (Panic msg, r) => (Panic msg, r, st)
            | (Ok SelDone, r) => (Ok None, r, st)
            | (Ok SelHijack, r) => (Ok (Some (HijackedDNS (wrap_buffers buffers InputConn) [] (rs_md st))), r, st)
            | (Ok (SelOutbound o), r) =>
                ((fun o => Some (Delivered o (match o with Some o => ob_ConnectionHandlerEx o | None => false end)
                     (wrap_trackers (r_trackers r) (wrap_buffers buffers InputConn)) (rs_md st) selected))
                 <$> default_outbound NetworkTCP
                       (fun tag => ENew ("TCP is not supported by default outbound: " +:+ tag)) selected o, r, st)
            end
        end
    end.

(** [routePacketConnection]. *)
Definition routePacketConnection (now : Z) (r : Router) (st : rstate)
  : result (option (routed PacketBuffer)) * Router * rstate :=
  let m := rs_md st in
  if negb (str_empty (md_InboundDetour m)) then (Some <$> inject_detour snd "UDP" m, r, st)
  else
    let st := upd_rs (set_Network NetworkUDP) st in
    match matchRule false false false true w store (r_processSearcher r) (r_rules r) st with
    | (Err e, st) => (Err e, r, st)
    | (Panic msg, st) => (Panic msg, r, st)
    | (Ok selected, st) =>
        let packets := ms_packets (rs_m st) in
        match select_outbound NetworkUDP "UDP" now selected r with
        | (Err e, r) => (Err e, r, st)
        | (Panic msg, r) => (Panic msg, r, st)
        | (Ok SelDone, r) => (Ok None, r, st)
        | (Ok SelHijack, r) => (Ok (Some (HijackedDNS InputConn packets (rs_md st))), r, st)
        | (Ok (SelOutbound o), r) =>
            let c := wrap_trackers (r_trackers r) (wrap_buffers packets InputConn) in
            let m := rs_md st in
            let c := if md_FakeIP m then NATConn (md_OriginDestination m) (md_Destination m) c else c in
            ((fun o => Some (Delivered o
                 (match o with Some o => ob_PacketConnectionHandlerEx o | None => false end) c m selected))
             <$> default_outbound NetworkUDP (err_not_supported "UDP") selected o, r, st)
        end
    end.

(** What [PreMatch] returns without an error: nothing, or a direct route through [outbound] made
    with the metadata, which translates back from [origin] when the destination was a name. *)
Inductive prematched : Type :=
| NoDirectRoute
| DirectRoute (o : Outbound) (m : InboundContext) (translated : option (Addr * Addr)).

(** The outbound of a [route] or [bypass] action: [outbound.(adapter.DirectRouteOutbound)]. *)
Definition direct_outbound (network tag : string) : result Outbound :=
  match om_Outbound outbound tag with
  | None => Err (ENew ("outbound not found: " +:+ tag))
  | Some o =>
      if negb (supports network o) then Err (err_not_supported network tag)
      else if ob_DirectRouteOutbound o then Ok o else Panic bad_conversion
  end.

(** The choice of the outbound; [Ok (inl _)]: [PreMatch] returns [nil, nil]. *)
Definition prematch_outbound (supportBypass hasRouteContext : bool) (now : Z)
  (selected : option (nat * Rule)) (m : InboundContext) (r : Router)
  : result (unit + option Outbound) * Router :=
  let direct tag :=
    if negb hasRouteContext then Ok (inl tt)
    else (fun o => inr (Some o)) <$> direct_outbound (md_Network m) tag in
  match selected with
  | None => (Ok (inr None), r)
  | Some (i, rule) =>
      match Rule_Action rule with
      | Some (ActReject a) =>
          let reply := bool_decide (rej_Method a = RuleActionRejectMethodReply) in
          if bool_decide (md_Network m = NetworkTCP) && reply then (Err (reply_unsupported "TCP"), r)
          else if bool_decide (md_Network m = NetworkUDP) && reply then (Err (reply_unsupported "UDP"), r)
          else let '(e, r) := reject (B := unit) now i a r in ((fun _ => inl tt) <$> e, r)
      | Some (ActBypass tag _) =>
          if supportBypass then (Err (EBypassed (ELib "tun.ErrBypass")), r) else (direct tag, r)
      | Some (ActRoute tag _) => (direct tag, r)
      | _ => (Ok (inr None), r)
      end
  end.
Definition prematch_default (selected : option (nat * Rule)) (m : InboundContext) (o : option Outbound)
  : result (unit + Outbound) :=
  match o with
  | Some o => Ok (inr o)
  | None =>
      match selected with
      | Some _ => Ok (inl tt)
      | None =>
          if negb (bool_decide (md_Network m = NetworkICMP)) then Ok (inl tt)
          else
            match om_Default outbound with
            | None => Panic nil_pointer
            | Some d =>
                if negb (supports (md_Network m) d)
                then Err (ENew (md_Network m +:+ " is not supported by default outbound: " +:+ ob_Tag d))
                else if ob_DirectRouteOutbound d then Ok (inr d) else Panic bad_conversion
            end
      end
  end.

(** The address of the source's family the name is replaced by. *)
Definition new_destination (m : InboundContext) : option Addr :=
  List.find (if Socksaddr_IsIPv4 (md_Source m) then Addr_Is4 else Addr_Is6) (md_DestinationAddresses m).

Definition prematch_direct (o : Outbound) (st : rstate) : result prematched * rstate :=
  if Socksaddr_IsFqdn (md_Destination (rs_md st)) then
    let v4 := Socksaddr_IsIPv4 (md_Source (rs_md st)) in
    and_then
      (if nonempty (md_DestinationAddresses (rs_md st)) then (Ok tt, st)
       else run_resolve (resolve_with (if v4 then DomainStrategyIPv4Only else DomainStrategyIPv6Only)) st)
      (fun _ st =>
         let m := rs_md st in
         match new_destination m with
         | None =>
             (Err (ENew ((if v4 then "no IPv4 address found for domain: "
                          else "no IPv6 address found for domain: ") +:+ sa_Fqdn (md_Destination m))), st)
         | Some a =>
             let st := upd_rs (set_Destination (mkSocksaddr a 0 "")) st in
             (Ok (DirectRoute o (rs_md st) (Some (sa_Addr (md_OriginDestination m), a))), st)
         end)
  else (Ok (DirectRoute o (rs_md st) None), st).

(** [PreMatch]; [hasRouteContext]: [routeContext != nil]. *)
Definition PreMatch (supportBypass hasRouteContext : bool) (now : Z) (r : Router) (st : rstate)
  : result prematched * Router * rstate :=
  match matchRule true supportBypass false false w store (r_processSearcher r) (r_rules r) st with
  | (Err e, st) => (Err e, r, st)
  | (Panic msg, st) => (Panic msg, r, st)
  | (Ok selected, st) =>
      match prematch_outbound supportBypass hasRouteContext now selected (rs_md st) r with
      | (Err e, r) => (Err e, r, st)
      | (Panic msg, r) => (Panic msg, r, st)
      | (Ok (inl _), r) => (Ok NoDirectRoute, r, st)
      | (Ok (inr o), r) =>
          match prematch_default selected (rs_md st) o with
          | Err e => (Err e, r, st)
          | Panic msg => (Panic msg, r, st)
          | Ok (inl _) => (Ok NoDirectRoute, r, st)
          | Ok (inr o) => let '(res, st) := prematch_direct o st in (res, r, st)
          end
      end
  end.
End Route.

(** ** Construction *)

(** route/rule_conds.go.  [switch rule.Type] has no case for the empty type. *)
Fixpoint hasRule1 (cond : opt_RawDefaultRule -> bool) (o : opt_Rule) : bool :=
  match o with
  | mkOptRule ty d l _ =>
      if bool_decide (ty = RuleTypeDefault) then cond (dr_Raw d)
      else if bool_decide (ty = RuleTypeLogical) then existsb (hasRule1 cond) (lo_Rules l)
      else false
  end.
Definition hasRule (rules : list opt_Rule) (cond : opt_RawDefaultRule -> bool) : bool :=
  existsb (hasRule1 cond) rules.
Fixpoint hasDNSRule1 (cond : opt_RawDefaultDNSRule -> bool) (o : opt_DNSRule) : bool :=
  match o with
  | mkOptDNSRule ty d l _ =>
      if bool_decide (ty = RuleTypeDefault) then cond (dd_Raw d)
      else if bool_decide (ty = RuleTypeLogical) then existsb (hasDNSRule1 cond) (lo_Rules l)
      else false
  end.
Definition hasDNSRule (rules : list opt_DNSRule) (cond : opt_RawDefaultDNSRule -> bool) : bool :=
  existsb (hasDNSRule1 cond) rules.

Definition isProcessRule (o : opt_RawDefaultRule) : bool :=
  nonempty (ro_ProcessName o) || nonempty (ro_ProcessPath o) || nonempty (ro_ProcessPathRegex o)
  || nonempty (ro_PackageName o) || nonempty (ro_User o) || nonempty (ro_UserID o).
Definition isProcessDNSRule (o : opt_RawDefaultDNSRule) : bool :=
  nonempty (dn_ProcessName o) || nonempty (dn_ProcessPath o) || nonempty (dn_ProcessPathRegex o)
  || nonempty (dn_PackageName o) || nonempty (dn_User o) || nonempty (dn_UserID o).
Definition isWIFIRule (o : opt_RawDefaultRule) : bool :=
  nonempty (ro_WIFISSID o) || nonempty (ro_WIFIBSSID o).
Definition isWIFIDNSRule (o : opt_RawDefaultDNSRule) : bool :=
  nonempty (dn_WIFISSID o) || nonempty (dn_WIFIBSSID o).

(** [NewRouter]: of the options it reads the rules and [FindProcess]. *)
Definition NewRouter (rules : list opt_Rule) (findProcess : bool) (dnsRules : list opt_DNSRule) : Router :=
  mkRouter [] (hasRule rules isProcessRule || hasDNSRule dnsRules isProcessDNSRule || findProcess)
    [] None [] false.

(** ** Life cycle *)

(** [Initialize]: the rules, then the rule-sets. *)
Fixpoint parse_rules (dialer : result unit) (i : N) (l : list opt_Rule) (acc : list Rule) : result (list Rule) :=
  match l with
  | [] => Ok acc
  | o :: l =>
      let! r := with_cause ("parse rule[" +:+ format_uint i +:+ "]") (NewRule dialer o false) in
      parse_rules dialer (i + 1) l (acc ++ [r])%list
  end.
Fixpoint parse_rule_sets (new : opt_RuleSet -> result RuleSet) (i : N) (l : list opt_RuleSet)
  (tags : list string) (store : gmap string RuleSet) : result (list string * gmap string RuleSet) :=
  match l with
  | [] => Ok (tags, store)
  | o :: l =>
      match store !! os_Tag o with
      | Some _ => Err (ENew ("duplicate rule-set tag: " +:+ os_Tag o))
      | None =>
          let! s := with_cause ("parse rule-set[" +:+ format_uint i +:+ "]") (new o) in
          parse_rule_sets new (i + 1) l (tags ++ [os_Tag o])%list (<[os_Tag o := s]> store)
      end
  end.
Definition Router_Initialize (dialer : result unit) (new : opt_RuleSet -> result RuleSet)
  (rules : list opt_Rule) (ruleSets : list opt_RuleSet) (r : Router) (store : gmap string RuleSet)
  : result (Router * gmap string RuleSet) :=
  let! rs := parse_rules dialer 0 rules (r_rules r) in
  let! (tags, store) := parse_rule_sets new 0 ruleSets (r_ruleSets r) store in
  Ok (mkRouter rs (r_needFindProcess r) tags (r_processSearcher r) (r_trackers r) (r_started r), store).

(** The start of a rule-set: a local one starts its watcher, whose failure is only logged. *)
Definition RuleSet_StartContext (start : RemoteRuleSet -> result RemoteRuleSet) (s : RuleSet) : result RuleSet :=
  match s with ALocal s => Ok (ALocal s) | ARemote s => ARemote <$> start s end.

(** The start group.  Up to five rule-sets start at a time; [order] lists the rule-sets, each with
    its index, in the order in which their starts take effect.  The first failure ends the
    group. *)
Fixpoint start_rule_sets (start : RuleSet -> result RuleSet) (order : list (nat * string))
  (store : gmap string RuleSet) : result (gmap string RuleSet) :=
  match order with
  | [] => Ok store
  | (i, tag) :: order =>
      match store !! tag with
      | None => Panic nil_pointer
      | Some s =>
          let! s := with_cause ("initialize rule-set[" +:+ format_uint (N.of_nat i) +:+ "]") (start s) in
          start_rule_sets start order (<[tag := s]> store)
      end
  end.

(** What the start of the process search depends on: Android with a platform interface, the
    searcher of the platform if it has one, and what [process.NewSearcher] gives (its error is
    only logged). *)
Record SearchEnv : Type := mkSearchEnv {
  sv_Android : bool;
  sv_Platform : option Searcher;
  sv_New : option Searcher
}.
Definition contains_process_rule (tags : list string) (store : gmap string RuleSet) : bool :=
  existsb (fun tag => match store !! tag with
    | Some s => ContainsProcessRule (Metadata s) | None => false end) tags.
Definition start_searcher (env : SearchEnv) (r : Router) (store : gmap string RuleSet) : Router :=
  let need := r_needFindProcess r || contains_process_rule (r_ruleSets r) store || sv_Android env in
  let searcher :=
    if need then
      match sv_Platform env with
      | Some s => Some s
      | None => match sv_New env with Some s => Some s | None => r_processSearcher r end
      end
    else r_processSearcher r in
  mkRouter (r_rules r) need (r_ruleSets r) searcher (r_trackers r) (r_started r).

(** [case adapter.StartStateStart]. *)
Definition Router_Start_start (env : SearchEnv) (start : RuleSet -> result RuleSet) (order : list (nat * string))
  (r : Router) (store : gmap string RuleSet) : result (Router * gmap string RuleSet) :=
  let! store := start_rule_sets start order store in
  Ok (start_searcher env r store, store).

(** [case adapter.StartStatePostStart]; a rule-set's [PostStart] spawns its update loop. *)
Fixpoint start_router_rules (env : StartEnv) (i : N) (rules : list Rule) (store : gmap string RuleSet)
  : result (list Rule) * gmap string RuleSet :=
  match rules with
  | [] => (Ok [], store)
  | r :: rules =>
      match Rule_Start env r store with
      | (Ok r, store) =>
          let '(rs, store) := start_router_rules env (i + 1) rules store in ((fun rs => r :: rs) <$> rs, store)
      | (Err e, store) => (Err (ECause e ("initialize rule[" +:+ format_uint i +:+ "]")), store)
      | (Panic msg, store) => (Panic msg, store)
      end
  end.
Definition Router_Start_postStart (env : StartEnv) (r : Router) (store : gmap string RuleSet)
  : result Router * gmap string RuleSet :=
  let '(rs, store) := start_router_rules env 0 (r_rules r) store in
  ((fun rs => mkRouter rs (r_needFindProcess r) (r_ruleSets r) (r_processSearcher r) (r_trackers r) true)
     <$> rs, store).

(** [case adapter.StartStateStarted] and the rule-sets' part of [Close]. *)
Definition on_rule_sets (f : RuleSet -> RuleSet) (tags : list string) (store : gmap string RuleSet)
  : gmap string RuleSet := foldl (fun m tag => alter f tag m) store tags.
Definition Router_Start_started (r : Router) (store : gmap string RuleSet) : gmap string RuleSet :=
  on_rule_sets Cleanup (r_ruleSets r) store.
Definition Router_Close (r : Router) (store : gmap string RuleSet) : gmap string RuleSet :=
  on_rule_sets Close (r_ruleSets r) store.

Definition Router_RuleSet (tag : string) (store : gmap string RuleSet) : option RuleSet := store !! tag.
Definition Router_AppendTracker (t : N) (r : Router) : Router :=
  mkRouter (r_rules r) (r_needFindProcess r) (r_ruleSets r) (r_processSearcher r) (r_trackers r ++ [t])%list
    (r_started r).
End Router.
Arguments InputConn {_}.
Arguments CachedConn {_} _ _.
Arguments TrackedConn {_} _ _.
Arguments NATConn {_} _ _ _.
Arguments Injected {_ _} _ _.
Arguments HijackedDNS {_ _} _ _ _.
Arguments Delivered {_ _} _ _ _ _ _.
