(* ===== verification/RouterLaws.v ===== *)
(** * RouterLaws: what the connection router guarantees

    Theorems about [matchRule], [routeConnection], [routePacketConnection] and the router's life
    cycle (Router.v), and at its end concrete services on which the files after it evaluate the routers. *)

From S2P Require Import Prelude GoStd NetIP Metadata Sample RuleItems RuleMatch RuleAction RuleOptions RuleBuild.
From S2P Require Import RuleSet Rules RuleLaws Sniff Adapter Router.
Open Scope string_scope.

Section Laws.
Context {X : Externals} {S : Sniffers} {V : RouterServices} {T : Type} {A : AdapterRuleSet T} {L : RuleSetLaws T}.

(** ** Invariants of the stages *)

Lemma and_then_inv {B C} (P : rstate -> Prop) (p : result B * rstate) (k : B -> rstate -> result C * rstate) :
  P (snd p) -> (forall b st, P st -> P (snd (k b st))) -> P (snd (and_then p k)).
Proof. destruct p as [[b|e|msg] st]; simpl; auto. Qed.

Lemma run_resolve_inv (P : rstate -> Prop) a st :
  P st -> (forall l d, P (upd_rs (set_DestinationAddresses l) (mkRState (rs_m st) d))) ->
  (forall d, P (mkRState (rs_m st) d)) -> P (snd (run_resolve a st)).
Proof.
  intros H H1 H2. unfold run_resolve, actionResolve, on_md. destruct (Socksaddr_IsFqdn _); simpl.
  - destruct (_ && _); simpl; [apply (H2 (rs_dns st))|].
    destruct (dns_Lookup _ _ _ _) as [[l|e|msg] d]; simpl; [apply (H1 l d)|apply H2|apply H2].
  - assert (upd_rs (fun _ => rs_md st) (mkRState (rs_m st) (rs_dns st)) = st) as ->; [|done].
    by destruct st as [[] ?].
Qed.

(** A property of the state that the stages keep when the metadata updates, the sniffs and the
    resolutions keep it; [good] narrows the sniff actions. *)
Section Invariant.
Variable P : rstate -> Prop.
Variable good : RuleActionSniff -> Prop.
Variables (preMatch supportBypass hasConn hasPacketConn : bool).
Variables (w : World) (store : gmap string T).
Hypothesis P_match : forall r st, P st ->
  P (upd_rs (fun _ => snd (Rule_Match w store r (ResetRuleCache (rs_md st)))) st).
Hypothesis P_options : forall o st, P st -> P (upd_rs (apply_route_options o) st).
Hypothesis P_sniff : forall a st, good a -> P st -> P (snd (run_sniff hasConn hasPacketConn a st)).
Hypothesis P_resolve : forall a st, P st -> P (snd (run_resolve a st)).

Definition good_rule (r : Rule) : Prop := forall a, Rule_Action r = Some (ActSniff a) -> good a.

Lemma run_action_inv act st : (forall a, act = Some (ActSniff a) -> good a) -> P st ->
  P (snd (run_action preMatch supportBypass hasConn hasPacketConn act st)).
Proof.
  intros HG H. destruct act as [act|]; [|done]. unfold run_action.
  set (st1 := match route_options act with Some o => upd_rs (apply_route_options o) st | None => st end).
  assert (P st1) as H1 by (subst st1; destruct (route_options act); auto).
  clearbody st1. clear H. apply and_then_inv.
  - destruct act; try done.
    + destruct preMatch; simpl; [done|]. specialize (P_sniff s st1 (HG _ eq_refl) H1).
      by destruct (run_sniff _ _ _ _).
    + specialize (P_resolve r st1 H1). by destruct (run_resolve _ _).
  - intros b st2 H2. repeat case_match; done.
Qed.

Lemma match_loop_inv rules : Forall good_rule rules -> forall i st, P st ->
  P (snd (match_loop preMatch supportBypass hasConn hasPacketConn w store i rules st)).
Proof.
  induction 1 as [|r rules Hr _ IH]; intros i st H; cbn [match_loop]; [done|].
  specialize (P_match r st H). destruct (Rule_Match _ _ _ _) as [b m]. simpl in P_match.
  destruct b; simpl; [|by apply IH].
  apply and_then_inv; [by apply run_action_inv|]. intros [] st2 H2; [done|by apply IH].
Qed.
End Invariant.

(** ** What was read is kept *)

Section Data.
Variables (preMatch supportBypass : bool) (w : World) (store : gmap string T).

(** The bytes in the buffers and those to be read. *)
Definition stream_bytes (st : rstate) : string :=
  str_concat (ms_buffers (rs_m st)) +:+ stream_data (ms_conn (rs_m st)).
Definition packets_of (st : rstate) : list PacketBuffer :=
  (ms_packets (rs_m st) ++ packet_data (ms_pconn (rs_m st)))%list.

Lemma run_sniff_bytes hasPacketConn a st : stream_bytes (snd (run_sniff true hasPacketConn a st)) = stream_bytes st.
Proof.
  unfold run_sniff, stream_bytes.
  pose proof (actionSniff_stream_data hasPacketConn a (ms_buffers (rs_m st)) (ms_packets (rs_m st)) (rs_m st)) as H.
  destruct (actionSniff _ _ _ _ _ _) as [r s]. destruct H as (H1 & H2 & H3 & H4 & H5 & H6).
  rewrite H2. simpl. rewrite <- H1. destruct (sr_buffer r) as [b|]; simpl.
  - rewrite str_concat_app, str_app_assoc, H5. simpl. by rewrite str_app_nil.
  - by rewrite H5.
Qed.

Lemma before_rules_bytes hasPacketConn searcher st : ms_buffers (rs_m st) = [] ->
  stream_bytes (snd (before_rules preMatch true hasPacketConn searcher st)) = stream_bytes st.
Proof.
  intros Hb.
  set (P := fun st' => stream_bytes st' = stream_bytes st /\ ms_buffers (rs_m st') = []).
  assert (forall f st', P st' -> P (snd (on_md f st'))) as HM.
  { intros f st' H. unfold on_md. by destruct (f _). }
  set (Q := fun st' => stream_bytes st' = stream_bytes st).
  change (Q (snd (before_rules preMatch true hasPacketConn searcher st))). unfold before_rules.
  assert (P (snd (on_md (find_process searcher) st))) as H1 by (by apply HM).
  destruct (on_md (find_process searcher) st) as [[?|?|?] st1]; simpl in *; try apply H1.
  apply (HM (unmap_destination (rs_dns st1))) in H1.
  destruct (on_md (unmap_destination _) st1) as [[?|?|?] st2]; simpl in *; try apply H1.
  clear st1. unfold legacy_options. case_bool_decide; [apply H1|].
  set (st3 := upd_rs detect_version st2). assert (P st3) as H3 by apply H1. clearbody st3. clear H1 H st2.
  apply (and_then_inv Q).
  - unfold run_legacy_sniff. destruct (_ && _); [|apply H3].
    destruct H3 as [H3 HB]. set (la := legacy_sniff _).
    pose proof (actionSniff_stream_data hasPacketConn la [] [] (rs_m st3)) as H.
    destruct (actionSniff _ _ _ _ _ _) as [r s]. destruct H as (H1 & H2 & _ & _ & H5 & _).
    rewrite H2. unfold Q. rewrite <- H3. unfold stream_bytes. rewrite HB. simpl. rewrite <- H1.
    destruct (sr_buffer r) as [b|]; simpl; [by rewrite str_app_nil|]. by rewrite H5, HB.
  - intros _ st4 H4. apply (and_then_inv Q).
    + destruct (negb _); [|done]. by apply run_resolve_inv.
    + intros _ st5 H5. by destruct (io_UDPDisableDomainUnmapping _).
Qed.

(** C3: Whatever the rules do (any number of sniff actions, errors included), no byte read from a
    TCP connection is lost, duplicated or reordered by [matchRule]: the buffers it returns, in
    order, followed by what is left to read, are the bytes of the connection. *)
Theorem matchRule_stream_conserved hasPacketConn searcher rules st :
  ms_buffers (rs_m st) = [] ->
  let '(_, st') := matchRule preMatch supportBypass true hasPacketConn w store searcher rules st in
  str_concat (ms_buffers (rs_m st')) +:+ stream_data (ms_conn (rs_m st')) = stream_data (ms_conn (rs_m st)).
Proof.
  intros Hb. set (P := fun st' => stream_bytes st' = stream_bytes st).
  assert (P (snd (matchRule preMatch supportBypass true hasPacketConn w store searcher rules st))) as H.
  { unfold matchRule. apply and_then_inv; [by apply before_rules_bytes|]. intros _ st1 H1.
    apply (match_loop_inv P (fun _ => True)); try done.
    - intros a st2 _ H. unfold P. by rewrite run_sniff_bytes.
    - intros a st2 H. by apply run_resolve_inv.
    - apply Forall_true. by intros r a _. }
  destruct (matchRule _ _ _ _ _ _ _ _ _) as [res st']. simpl in H. unfold P, stream_bytes in H.
  by rewrite H, Hb.
Qed.
End Data.
End Laws.

(** ** Concrete services for the routers, to evaluate them on connections *)

(** HTTP is recognised by its request line; QUIC needs the two packets [quic-1] and [quic-2]. *)
Definition sample_stream (k : StreamSniffer) (data : string) (s : SniffInfo) (c : unit)
  : option error * SniffInfo * unit :=
  match k with
  | HTTPHost =>
      if has_prefix "GET " data
      then (None, mkSniffInfo "http" "example.org" (sn_Client s) (sn_SnifferNames s) (sn_SniffError s), c)
      else if bool_decide (data = "G") then (Some ErrNeedMoreData, s, c)
      else (Some (ELib "not http"), s, c)
  | _ => (Some (ELib "not recognised"), s, c)
  end.
Definition sample_packet (k : PacketSniffer) (data : string) (s : SniffInfo) (c : unit)
  : option error * SniffInfo * unit :=
  match k with
  | QUICClientHello =>
      if bool_decide (data = "quic-1") then (Some ErrNeedMoreData, s, c)
      else if bool_decide (data = "quic-2")
      then (None, mkSniffInfo "quic" "example.org" (sn_Client s) (sn_SnifferNames s) (sn_SniffError s), c)
      else (Some (ELib "not quic"), s, c)
  | _ => (Some (ELib "not recognised"), s, c)
  end.
Definition sample_sniffers : Sniffers := {|
  SniffState := unit;
  run_stream := sample_stream;
  run_packet := sample_packet;
  E_Errors l := match l with [] => None | e :: l => Some (foldl EJoin e l) end
|}.

Definition example_addr : Addr := Addr4 (93 * 2 ^ 24 + 184 * 2 ^ 16 + 216 * 2 ^ 8 + 34).
Definition fake_prefix : Prefix := mkPrefix (Addr4 (198 * 2 ^ 24 + 18 * 2 ^ 16)) 15.
Definition fake_addr : Addr := Addr4 (198 * 2 ^ 24 + 18 * 2 ^ 16 + 1).

(** The DNS knows [example.org]; its state counts the lookups. *)
#[local] Existing Instance sample.
Definition sample_services : RouterServices := {|
  DNSState := nat;
  dns_Lookup _ domain _ d :=
    ((if bool_decide (domain = "example.org") then Ok [example_addr] else Err (ELib "NXDOMAIN")), Datatypes.S d);
  dns_LookupReverseMapping _ a := if bool_decide (a = example_addr) then Some "example.org" else None;
  dnsTransport_Transport tag := bool_decide (tag = "local");
  FakeIP_Store :=
    Some (Prefix_Contains fake_prefix, fun a => if bool_decide (a = fake_addr) then Some "example.org" else None);
  Socksaddr_AddrPort a := (sa_Addr a, sa_Port a);
  user_LookupId u := if (u =? 1000)%Z then Some "user" else None;
  mux_Destination_Fqdn := "sp.mux.sing-box.arpa";
  vmess_MuxDestination_Fqdn := "v1.mux.cool";
  uot_MagicAddress := "sp.v2.udp-over-tcp.arpa";
  uot_LegacyMagicAddress := "sp.udp-over-tcp.arpa"
|}.
#[local] Existing Instance sample_services.
#[local] Existing Instance sample_sniffers.

(** A rule with the given items and action. *)
Definition simple_rule (l : list RuleItem) (a : RuleAction) : Rule :=
  DefaultRule (mkDefaultRule l [] [] [] [] [] l false (Some a)).
Definition no_options : RuleActionRouteOptions :=
  mkRouteOptions Socksaddr_zero 0 "" None [] [] 0 false false 0 false 0 false.
Definition port_item (p : N) : RuleItem := ItemBase (IPort (NewPortItem false [p])).

(** A connection about to be routed. *)
Definition sample_state (m : InboundContext) (conn : list stream_read) (pconn : list packet_read) : rstate :=
  mkRState (mkMState m tt conn pconn [] []) 0%nat.

Definition sample_outbounds : OutboundManager :=
  mkOutboundManager
    (fun tag => if bool_decide (tag = "proxy") then Some (mkOutbound "proxy" ["tcp"; "udp"] false false true)
                else if bool_decide (tag = "tcp-only") then Some (mkOutbound "tcp-only" ["tcp"] true false false)
                else None)
    (Some (mkOutbound "direct" ["tcp"; "udp"; "icmp"] false false true)).
Definition sample_store : gmap string RuleSet := ∅.
