(* ===== verification/RouterSelect.v ===== *)
(** * RouterSelect: which rule and which outbound

    The rule [matchRule] selects, and that the router never hands a connection to an outbound that
    does not exist or does not carry its network (Router.v). *)

From S2P Require Import Prelude GoStd NetIP Metadata Sample RuleItems RuleMatch RuleAction RuleOptions RuleBuild.
From S2P Require Import RuleSet Rules RuleSpec RuleConditions RuleLaws Sniff Adapter Router RouterLaws.
Open Scope string_scope.

Section Select.
Context {X : Externals} {S : Sniffers} {V : RouterServices} {T : Type} {A : AdapterRuleSet T} {L : RuleSetLaws T}.
Variables (preMatch supportBypass hasConn hasPacketConn : bool) (w : World) (store : gmap string T).

(** ** The first rule that matches *)

(** Actions that end the search. *)
Definition is_final (a : option RuleAction) : bool :=
  match a with
  | Some (ActRoute _ _) | Some (ActReject _) | Some ActHijackDNS => true
  | Some (ActBypass tag _) => supportBypass || negb (str_empty tag)
  | _ => false
  end.
(** Actions that do not touch the metadata while the search goes on. *)
Definition is_stable (r : Rule) : Prop :=
  match Rule_Action r with
  | Some (ActRoute _ _ | ActReject _ | ActHijackDNS | ActBypass _ _ | ActDirect _) => True
  | _ => False
  end.

(** The rule matches the connection [m] and its action ends the search. *)
Definition selects (m : InboundContext) (r : Rule) : bool :=
  fst (Rule_Match w store r (ResetRuleCache m)) && is_final (Rule_Action r).

(** The options of the selected rule that take effect: those of a [route] action.  The options of a [bypass] action with an outbound do not, although
    docs/configuration/route/rule_action.md says that it behaves as [route]. *)
Definition with_options (r : Rule) (m : InboundContext) : InboundContext :=
  match Rule_Action r ≫= route_options with Some o => apply_route_options o m | None => m end.

Lemma apply_route_options_cache o c m :
  apply_route_options o (set_cache c m) = set_cache c (apply_route_options o m).
Proof. destruct m. unfold apply_route_options. cbn -[Socksaddr_IsValid]. repeat case_match; done. Qed.
Lemma with_options_frame r m m' : same_frame m m' -> same_frame (with_options r m) (with_options r m').
Proof.
  intros H. unfold with_options. destruct (_ ≫= _) as [o|]; [|done].
  rewrite (same_frame_set m m' H), apply_route_options_cache. split.
  rewrite reset_set_cache. unfold ResetRuleCache at 1. f_equal.
  pose proof (same_frame_ignore _ _ H) as HI. unfold RuleCache_reset. rewrite HI.
  replace (md_cache (apply_route_options o m')) with (md_cache m'); [done|].
  destruct m'. unfold apply_route_options. cbn -[Socksaddr_IsValid]. repeat case_match; done.
Qed.

Lemma run_action_stable r st : is_stable r ->
  run_action preMatch supportBypass hasConn hasPacketConn (Rule_Action r) st =
  (Ok (is_final (Rule_Action r)), upd_rs (with_options r) st).
Proof.
  unfold is_stable, with_options, is_final. destruct (Rule_Action r) as [[]|]; try done; intros _; simpl.
  all: try by destruct st as [[] ?].
  destruct supportBypass, (str_empty outbound); by destruct st as [[] ?].
Qed.

Lemma match_loop_stable rules : Forall is_stable rules -> forall i st m, same_frame (rs_md st) m ->
  exists st',
    match_loop preMatch supportBypass hasConn hasPacketConn w store i rules st =
      (Ok (prod_map (Nat.add i) id <$> list_find (selects m) rules), st') /\
    same_frame (rs_md st') (match list_find (selects m) rules with Some (_, r) => with_options r m | None => m end).
Proof.
  induction 1 as [|r rules Hr _ IH]; intros i st m H; cbn [match_loop list_find]; [by exists st|].
  replace (Rule_Match w store r (ResetRuleCache (rs_md st)))
    with (Rule_Match w store r (ResetRuleCache m)) by (by rewrite H).
  pose proof (Rule_Match_framed_aux w store r (ResetRuleCache m)) as HF.
  destruct (Rule_Match w store r (ResetRuleCache m)) as [b m1] eqn:E. simpl in HF.
  rewrite same_frame_reset in HF.
  assert (selects m r = b && is_final (Rule_Action r)) as Hs by (unfold selects; by rewrite E).
  assert (forall st1, same_frame (rs_md st1) m -> b && is_final (Rule_Action r) = false ->
    exists st', match_loop preMatch supportBypass hasConn hasPacketConn w store (i + 1) rules st1 =
      (Ok (prod_map (Nat.add i) id <$> (prod_map Datatypes.S id <$> list_find (selects m) rules)), st') /\
    same_frame (rs_md st') (match prod_map Datatypes.S id <$> list_find (selects m) rules with
                            | Some (_, r) => with_options r m | None => m end)) as Hnext.
  { intros st1 H1 _. destruct (IH (i + 1) st1 m H1) as (st' & -> & H2). exists st'.
    destruct (list_find _ rules) as [[k x]|]; simpl in *; split; try done.
    unfold prod_map. simpl. by rewrite Nat.add_1_r, Nat.add_succ_r. }
  destruct b; simpl in *.
  - rewrite run_action_stable by done. simpl. destruct (is_final (Rule_Action r)) eqn:F.
    + rewrite decide_True by (by rewrite Hs). eexists. split.
      * simpl. unfold prod_map. simpl. by rewrite Nat.add_0_r.
      * simpl. by apply with_options_frame.
    + rewrite decide_False by (rewrite Hs; intros []). apply Hnext; [|done]. simpl.
      assert (with_options r m1 = m1) as HW; [|unfold rs_md in *; simpl; by rewrite HW].
      revert Hr F. unfold with_options, is_stable, is_final. by destruct (Rule_Action r) as [[]|].
  - rewrite decide_False by (rewrite Hs; intros []). by apply Hnext.
Qed.

(** C2: When no rule sniffs, resolves or only sets options, [matchRule] selects the first rule that
    matches the connection as it is after the stages before the rules and whose action ends the
    search: rules that match with a [direct] action, or with a [bypass] action that cannot be
    taken, are passed over, and no earlier rule influences a later one.  The metadata ends up with
    exactly the options of the selected rule when its action is [route], and unchanged when it is another: the options of a
    [bypass] with an outbound are dropped, against the documentation, which says that it behaves as [route]. *)
Theorem matchRule_first_match searcher rules st st1 :
  Forall is_stable rules ->
  before_rules preMatch hasConn hasPacketConn searcher st = (Ok tt, st1) ->
  exists st',
    matchRule preMatch supportBypass hasConn hasPacketConn w store searcher rules st =
      (Ok (list_find (selects (rs_md st1)) rules), st') /\
    ResetRuleCache (rs_md st') =
      ResetRuleCache (match list_find (selects (rs_md st1)) rules with
                      | Some (_, r) => with_options r (rs_md st1) | None => rs_md st1 end) /\
    (forall i r tag opts, list_find (selects (rs_md st1)) rules = Some (i, r) -> Rule_Action r = Some (ActBypass tag opts) ->
      ResetRuleCache (rs_md st') = ResetRuleCache (rs_md st1)).
Proof.
  intros Hr Hb. unfold matchRule. rewrite Hb. simpl.
  destruct (match_loop_stable rules Hr 0 st1 (rs_md st1)) as (st' & -> & H); [done|].
  exists st'. split_and!; [f_equal; f_equal; by destruct (list_find _ _) as [[? ?]|]|apply H|].
  intros i r tag opts E Ha. rewrite E in H. rewrite H. unfold with_options. by rewrite Ha.
Qed.
End Select.

Lemma Destination_reset m : md_Destination (ResetRuleCache m) = md_Destination m.
Proof. by destruct m. Qed.

Section FirstMatchWitness.
#[local] Existing Instance sample.
#[local] Existing Instance sample_services.
#[local] Existing Instance sample_sniffers.

(** Port 443 with a direct action, port 80, port 443 to the outbound [proxy]. *)
Definition direct_then_route : list Rule :=
  [simple_rule [port_item 443] (ActDirect ""); simple_rule [port_item 80] ActHijackDNS;
   simple_rule [port_item 443] (ActRoute "proxy" no_options)].
Definition fake_connection : rstate := sample_state (sample_context "" fake_addr 443) [] [].

Lemma matchRule_first_match_witness :
  exists st', matchRule false false true false sample_world sample_store None direct_then_route fake_connection =
    (Ok (Some (2, simple_rule [port_item 443] (ActRoute "proxy" no_options))), st') /\
    sa_Fqdn (md_Destination (rs_md st')) = "example.org".
Proof.
  destruct (matchRule_first_match false false true false sample_world sample_store None direct_then_route
    fake_connection (snd (before_rules false true false None fake_connection)))
    as (st' & H1 & H2 & _); [by repeat constructor|reflexivity|].
  exists st'. split; [exact H1|]. rewrite <- Destination_reset, H2. reflexivity.
Defined.
End FirstMatchWitness.

(** ** The router's states *)

(** Actions only DNS rules have. *)
Definition is_dns_action (a : RuleAction) : bool :=
  match a with ActDNSRoute _ _ | ActDNSRouteOptions _ | ActPredefined _ => true | _ => false end.

Section Outbounds.
Context {X : Externals} {S : Sniffers} {V : RouterServices}.

Definition rule_ok (r : Rule) : Prop :=
  match Rule_Action r with Some a => is_dns_action a = false | None => True end.
Definition router_ok (r : Router) : Prop := Forall rule_ok (r_rules r).

Lemma NewRuleAction_ok dialer a act : NewRuleAction dialer a = Ok (Some act) -> is_dns_action act = false.
Proof.
  unfold NewRuleAction. intros H.
  repeat (case_bool_decide; [|idtac]); inv_bind; simplify_eq; try done.
Qed.

Lemma NewRuleAction_Action_ok dialer a act :
  NewRuleAction dialer a = Ok act -> match act with Some a => is_dns_action a = false | None => True end.
Proof. destruct act; [apply NewRuleAction_ok|done]. Qed.

(** Rules of the configuration never carry an action of DNS rules. *)
Lemma NewRule_ok dialer o co r : NewRule dialer o co = Ok r -> rule_ok r.
Proof.
  destruct o as [ty d l act]. cbn [NewRule]. unfold rule_ok. intros H. destruct (_ || _).
  - destruct (negb _); [done|]. destruct (_ && _); [done|].
    apply fmap_Ok in H as (r' & H & ->). apply bind_Ok in H as (act' & Ha & H).
    apply run_blocks_action in H. apply with_cause_Ok in Ha. cbn [Rule_Action]. rewrite H.
    by eapply NewRuleAction_Action_ok.
  - case_bool_decide; [|done]. apply bind_Ok in H as (valid & _ & H).
    destruct (negb _); [done|]. destruct (_ && _); [done|].
    apply bind_Ok in H as (act' & Ha & H). apply fmap_Ok in H as (r' & H & ->).
    apply new_logical_Ok in H as (_ & _ & _ & H). apply with_cause_Ok in Ha. cbn [Rule_Action]. rewrite H.
    by eapply NewRuleAction_Action_ok.
Qed.

Lemma parse_rules_ok dialer l : forall i acc rs,
  parse_rules dialer i l acc = Ok rs -> Forall rule_ok acc -> Forall rule_ok rs.
Proof.
  induction l as [|o l IH]; intros i acc rs H Hacc; cbn [parse_rules] in H; [by simplify_eq|].
  apply bind_Ok in H as (r & Hr & H). apply with_cause_Ok in Hr. eapply IH; [exact H|].
  apply Forall_app. split; [done|]. constructor; [by eapply NewRule_ok|constructor].
Qed.

Lemma Rule_Start_action {T : Type} {A : AdapterRuleSet T} env r (store : gmap string T) r' store' :
  Rule_Start env r store = (Ok r', store') -> Rule_Action r' = Rule_Action r.
Proof.
  destruct r as [r|r]; cbn [Rule_Start].
  - unfold abstractDefaultRule_Start. destruct (start_items _ _ _) as [[l|e|msg] st]; simpl; intros; by simplify_eq.
  - unfold abstractLogicalRule_Start. destruct (start_rules _ _ _) as [[l|e|msg] st]; simpl; intros; by simplify_eq.
Qed.

Lemma start_router_rules_ok env l : forall i store rs store',
  start_router_rules env i l store = (Ok rs, store') -> Forall rule_ok l -> Forall rule_ok rs.
Proof.
  induction l as [|r l IH]; intros i store rs store' H Hl; cbn [start_router_rules] in H; [by simplify_eq|].
  inversion Hl as [|? ? Hr Hl']; subst.
  destruct (Rule_Start env r store) as [[r'|e|msg] st] eqn:E; try done.
  destruct (start_router_rules _ _ _ st) as [[rs'|e|msg] st'] eqn:E2; simpl in H; simplify_eq.
  constructor; [|by eapply IH]. unfold rule_ok. by rewrite (Rule_Start_action _ _ _ _ _ E).
Qed.

Lemma count_reject_ok i a r : router_ok r -> router_ok (count_reject i a r).
Proof.
  unfold router_ok, count_reject, set_rules. simpl. intros H. apply Forall_alter; [done|].
  intros rule _ _. destruct rule; done.
Qed.
End Outbounds.

(** ** The selected rule *)

Section Selected.
Context {X : Externals} {S : Sniffers} {V : RouterServices} {T : Type} {A : AdapterRuleSet T}.
Variables (w : World) (store : gmap string T).

Lemma match_loop_selected pm sb hc hp rules : forall i st j r st',
  match_loop pm sb hc hp w store i rules st = (Ok (Some (j, r)), st') ->
  exists k st1, j = (i + k)%nat /\ rules !! k = Some r /\ run_action pm sb hc hp (Rule_Action r) st1 = (Ok true, st').
Proof.
  induction rules as [|x rules IH]; intros i st j r st' H; cbn [match_loop] in H; [done|].
  assert (forall st, match_loop pm sb hc hp w store (i + 1) rules st = (Ok (Some (j, r)), st') ->
    exists k st1, j = (i + k)%nat /\ (x :: rules) !! k = Some r /\
      run_action pm sb hc hp (Rule_Action r) st1 = (Ok true, st')) as Hnext.
  { intros st1 H1. apply IH in H1 as (k & st2 & -> & Hk & H2). exists (Datatypes.S k), st2.
    by rewrite <- Nat.add_assoc. }
  destruct (Rule_Match _ _ _ _) as [[] m]; simpl in H; [|by apply Hnext in H].
  destruct (run_action _ _ _ _ (Rule_Action x) _) as [[[]|e|msg] st1] eqn:E; simpl in H; simplify_eq; [|by apply Hnext in H].
  exists 0%nat. eexists. rewrite Nat.add_0_r. split; [done|]. by split.
Qed.

(** The actions a rule can be selected with when a connection is routed. *)
Definition routes (a : RuleAction) : Prop :=
  match a with
  | ActRoute _ _ | ActReject _ | ActHijackDNS => True
  | ActBypass tag _ => tag <> ""
  | _ => is_dns_action a = true
  end.

Lemma run_action_selected hc hp act st st' :
  run_action false false hc hp act st = (Ok true, st') -> exists a, act = Some a /\ routes a.
Proof.
  destruct act as [a|]; [|done]. unfold run_action. intros H. exists a. split; [done|].
  destruct a; try done; simpl in H.
  - destruct (str_empty outbound) eqn:E; [done|]. simpl. intros ->. done.
  - destruct (run_sniff _ _ _ _) as [[?|?|?] ?]; simpl in H; simplify_eq.
  - destruct (run_resolve _ _) as [[?|?|?] ?]; simpl in H; simplify_eq.
Qed.

Lemma matchRule_selected hc hp searcher rules st i r st' :
  matchRule false false hc hp w store searcher rules st = (Ok (Some (i, r)), st') ->
  rules !! i = Some r /\ exists a, Rule_Action r = Some a /\ routes a.
Proof.
  unfold matchRule. destruct (before_rules _ _ _ _ _) as [[[]|?|?] st1]; simpl; try done.
  intros H. apply match_loop_selected in H as (k & st2 & -> & Hk & H). split; [done|].
  by eapply run_action_selected.
Qed.
End Selected.

Section Reachable.
Context {X : Externals} {S : Sniffers} {V : RouterServices}.

(** The states of the router: created, initialised, started, and after connections. *)
Inductive reachable : Router -> Prop :=
| reach_new rules findProcess dnsRules : reachable (NewRouter rules findProcess dnsRules)
| reach_initialize dialer new rules sets r store r' store' :
    reachable r -> Router_Initialize dialer new rules sets r store = Ok (r', store') -> reachable r'
| reach_start env start order r store r' store' :
    reachable r -> Router_Start_start env start order r store = Ok (r', store') -> reachable r'
| reach_post_start env r store r' store' :
    reachable r -> Router_Start_postStart env r store = (Ok r', store') -> reachable r'
| reach_tracker t r : reachable r -> reachable (Router_AppendTracker t r)
| reach_connection w (store : gmap string RuleSet) inb out now r st res r' st' :
    reachable r -> routeConnection w store inb out now r st = (res, r', st') -> reachable r'
| reach_packets w (store : gmap string RuleSet) inb out now r st res r' st' :
    reachable r -> routePacketConnection w store inb out now r st = (res, r', st') -> reachable r'
| reach_prematch w (store : gmap string RuleSet) out sb ctx now r st res r' st' :
    reachable r -> PreMatch w store out sb ctx now r st = (res, r', st') -> reachable r'.

Lemma reject_ok {B} now i a r (res : result (option B)) r' :
  reject now i a r = (res, r') -> router_ok r -> router_ok r'.
Proof.
  unfold reject. destruct (RuleActionReject_Error now a) as [[[e|] a']|e|msg]; intros; simplify_eq;
    by try apply count_reject_ok.
Qed.
Lemma select_outbound_ok out network label now sel r res r' :
  select_outbound out network label now sel r = (res, r') -> router_ok r -> router_ok r'.
Proof.
  unfold select_outbound. intros H Hr. destruct sel as [[i rule]|]; [|by simplify_eq].
  repeat case_match; simplify_eq; try done. by eapply reject_ok.
Qed.
Lemma prematch_outbound_ok out sb ctx now sel m r res r' :
  prematch_outbound out sb ctx now sel m r = (res, r') -> router_ok r -> router_ok r'.
Proof.
  unfold prematch_outbound. intros H Hr. destruct sel as [[i rule]|]; [|by simplify_eq].
  repeat case_match; simplify_eq; try done; by eapply reject_ok.
Qed.

Lemma reachable_ok r : reachable r -> router_ok r.
Proof.
  induction 1 as [|dialer new rules sets r store r' store' _ IH H|env start order r store r' store' _ IH H
    |env r store r' store' _ IH H|t r _ IH|w store inb out now r st res r' st' _ IH H
    |w store inb out now r st res r' st' _ IH H|w store out sb ctx now r st res r' st' _ IH H].
  - constructor.
  - unfold Router_Initialize in H. apply bind_Ok in H as (rs & H1 & H).
    apply bind_Ok in H as ([tags store1] & _ & H). simplify_eq. by eapply parse_rules_ok.
  - unfold Router_Start_start in H. apply bind_Ok in H as (s & _ & H). by simplify_eq.
  - unfold Router_Start_postStart in H. destruct (start_router_rules _ _ _ _) as [[rs|e|msg] s] eqn:E;
      simpl in H; simplify_eq. by eapply start_router_rules_ok.
  - done.
  - unfold routeConnection in H. repeat case_match; simplify_eq; try done; by eapply select_outbound_ok.
  - unfold routePacketConnection in H. repeat case_match; simplify_eq; try done; by eapply select_outbound_ok.
  - unfold PreMatch in H. repeat case_match; simplify_eq; try done; by eapply prematch_outbound_ok.
Qed.
End Reachable.

(** ** The outbound *)

Section Delivery.
Context {X : Externals} {S : Sniffers} {V : RouterServices}.
Variables (w : World) (store : gmap string RuleSet) (inb : InboundManager) (out : OutboundManager).

(** The outbound a connection is handed to: it exists, carries the network, and is the one the
    selected rule names, or the default one when no rule was selected. *)
Definition chosen (network : string) (r : Router) (sel : option (nat * Rule)) (o : option Outbound) : Prop :=
  exists ob, o = Some ob /\ supports network ob = true /\
    match sel with
    | None => om_Default out = Some ob
    | Some (i, rule) =>
        r_rules r !! i = Some rule /\
        exists tag opts, (Rule_Action rule = Some (ActRoute tag opts) \/ Rule_Action rule = Some (ActBypass tag opts)) /\
          om_Outbound out tag = Some ob
    end.

Lemma find_outbound_Ok network label tag ob :
  find_outbound out network label tag = Ok ob -> om_Outbound out tag = Some ob /\ supports network ob = true.
Proof. unfold find_outbound. intros H. repeat case_match; by simplify_eq. Qed.

Lemma select_chosen network label e now r sel r' o o' :
  router_ok r ->
  (forall i rule, sel = Some (i, rule) ->
     r_rules r !! i = Some rule /\ exists a, Rule_Action rule = Some a /\ routes a) ->
  select_outbound out network label now sel r = (Ok (SelOutbound o), r') ->
  default_outbound out network e sel o = Ok o' -> chosen network r sel o'.
Proof.
  intros Hr Hsel H1 H2. destruct sel as [[i rule]|].
  - destruct (Hsel i rule eq_refl) as (Hi & a & Ha & Hroutes).
    assert (is_dns_action a = false) as Hd.
    { pose proof (proj1 (Forall_lookup rule_ok (r_rules r)) Hr i rule Hi) as H. unfold rule_ok in H. by rewrite Ha in H. }
    simpl in H2. simplify_eq. unfold select_outbound in H1. rewrite Ha in H1.
    assert (forall tag opts, a = ActRoute tag opts \/ a = ActBypass tag opts ->
      (fun o => SelOutbound (Some o)) <$> find_outbound out network label tag = Ok (SelOutbound o') ->
      chosen network r (Some (i, rule)) o') as Hfind.
    { intros tag opts Htag H. apply fmap_Ok in H as (ob & H & ?). simplify_eq.
      apply find_outbound_Ok in H as [H3 H4]. exists ob. split_and!; [done|done|done|].
      exists tag, opts. rewrite Ha. split; [|done]. destruct Htag as [->| ->]; auto. }
    destruct a; simpl in *; try done.
    + injection H1 as H1 _. eapply Hfind; [by left|done].
    + unfold str_empty in H1. case_bool_decide; [done|]. injection H1 as H1 _. eapply Hfind; [by right|done].
    + destruct (bool_decide _); [done|]. by destruct (reject _ _ _ _) as [[?|?|?] ?].
  - simpl in *. simplify_eq. destruct (om_Default out) as [d|] eqn:Hd; [|done].
    destruct (supports network d) eqn:Hs; [|done]. simplify_eq. by exists d.
Qed.

(** C1: In every state the router can be in, a TCP connection that is handed to an outbound is
    handed to one that exists and supports TCP, and it is the outbound named by the selected
    rule, which is at its index in the router's rules, or the default outbound if no rule was
    selected; in particular the nil outbound an untaken [bypass] leaves behind is never used. *)
Theorem routeConnection_outbound now r st o h c m sel r' st' :
  reachable r ->
  routeConnection w store inb out now r st = (Ok (Some (Delivered o h c m sel)), r', st') ->
  chosen NetworkTCP r sel o.
Proof.
  intros Hr%reachable_ok H. unfold routeConnection in H. case_match.
  { destruct (inject_detour _ _ _ _) as [d|?|?] eqn:E; simpl in H; simplify_eq.
    unfold inject_detour in E. repeat case_match; simplify_eq. }
  case_match; [done|].
  destruct (matchRule _ _ _ _ _ _ _ _ _) as [[sel'|e|msg] st1] eqn:E; simplify_eq.
  assert (forall i rule, sel' = Some (i, rule) -> r_rules r !! i = Some rule /\
    exists a, Rule_Action rule = Some a /\ routes a) as Hsel.
  { intros i rule ->. by eapply matchRule_selected. }
  destruct (select_outbound _ _ _ _ _ _) as [[[o'| |]|e|msg] r1] eqn:E2; simplify_eq.
  destruct (default_outbound _ _ _ _ _) as [o''|e|msg] eqn:E3; simpl in H; simplify_eq.
  by eapply select_chosen.
Qed.

(** The same for UDP; moreover a connection to a fake IP is handed on behind an address
    translation between the fake address and the domain. *)
Theorem routePacketConnection_outbound now r st o h c m sel r' st' :
  reachable r ->
  routePacketConnection w store inb out now r st = (Ok (Some (Delivered o h c m sel)), r', st') ->
  chosen NetworkUDP r sel o /\
  (md_FakeIP m = true -> exists c', c = NATConn (md_OriginDestination m) (md_Destination m) c').
Proof.
  intros Hr%reachable_ok H. unfold routePacketConnection in H. case_match.
  { destruct (inject_detour _ _ _ _) as [d|?|?] eqn:E; simpl in H; simplify_eq.
    unfold inject_detour in E. repeat case_match; simplify_eq. }
  destruct (matchRule _ _ _ _ _ _ _ _ _) as [[sel'|e|msg] st1] eqn:E; simplify_eq.
  assert (forall i rule, sel' = Some (i, rule) -> r_rules r !! i = Some rule /\
    exists a, Rule_Action rule = Some a /\ routes a) as Hsel.
  { intros i rule ->. by eapply matchRule_selected. }
  destruct (select_outbound _ _ _ _ _ _) as [[[o'| |]|e|msg] r1] eqn:E2; simplify_eq.
  destruct (default_outbound _ _ _ _ _) as [o''|e|msg] eqn:E3; simpl in H; simplify_eq.
  split; [by eapply select_chosen|]. intros ->. eauto.
Qed.
End Delivery.

Section DeliveryWitness.
#[local] Existing Instance sample.
#[local] Existing Instance sample_services.
#[local] Existing Instance sample_sniffers.

(** [port=443 => route(proxy)]. *)
Definition port_rule_options : opt_Rule :=
  mkOptRule "default"
    (mkOptDefaultRule
       (mkOptRawDefaultRule [] 0 [] [] [] [] [] [] [] [] [] [] [] [] false [] false
          [] [] [443%N] [] [] [] [] [] [] [] "" [] false false [] [] [] false false false
          [] [] None None [] [])
       (sample_action "route" "proxy"))
    (mkOptLogical "" [] false) (sample_action "" "").
Definition port_init : result (Router * gmap string RuleSet) :=
  Router_Initialize (Ok tt) (fun _ => Err (ELib "unused")) [port_rule_options] []
    (NewRouter [port_rule_options] false []) sample_store.
Definition port_router : Router := fst (from_Ok (NewRouter [] false [], sample_store) port_init).

Lemma port_router_reachable : reachable port_router.
Proof.
  apply (reach_initialize (Ok tt) (fun _ => Err (ELib "unused")) [port_rule_options] []
    (NewRouter [port_rule_options] false []) sample_store _
    (snd (from_Ok (NewRouter [] false [], sample_store) port_init))); [apply reach_new|].
  unfold port_router. rewrite <- surjective_pairing. apply is_Ok_from_Ok. vm_compute. reflexivity.
Qed.

Definition example_state (port : N) (conn : list stream_read) (packets : list packet_read) : rstate :=
  sample_state (sample_context "" fake_addr port) conn packets.

Lemma routeConnection_outbound_witness :
  let '(res, _, _) := routeConnection sample_world sample_store (fun _ => None) sample_outbounds 0 port_router
                        (example_state 443 [] []) in
  match res with
  | Ok (Some (Delivered o _ _ _ sel)) => chosen sample_outbounds NetworkTCP port_router sel o /\ o <> None
  | _ => False
  end.
Proof.
  pose proof (routeConnection_outbound sample_world sample_store (fun _ => None) sample_outbounds 0 port_router
    (example_state 443 [] [])) as H.
  destruct (routeConnection _ _ _ _ _ _ _) as [[res r'] st'] eqn:E.
  assert (match res with Ok (Some (Delivered o _ _ _ _)) => bool_decide (o = None) = false | _ => False end) as HO.
  { apply (f_equal (fun p => match fst (fst p) with
      | Ok (Some (Delivered o _ _ _ _)) => bool_decide (ob_Tag <$> o = None) | _ => true end)) in E.
    revert E. vm_compute (match fst (fst (routeConnection _ _ _ _ _ _ _)) with _ => _ end).
    destruct res as [[[| |o]|]| |]; simpl; try done. by destruct o. }
  destruct res as [[[| |o h c m sel]|]| |]; try done. split.
  - eapply H; [apply port_router_reachable|reflexivity].
  - by case_bool_decide.
Defined.

Lemma routePacketConnection_outbound_witness :
  let '(res, _, _) := routePacketConnection sample_world sample_store (fun _ => None) sample_outbounds 0 port_router
                        (example_state 443 [] []) in
  match res with
  | Ok (Some (Delivered o _ (NATConn origin _ _) m sel)) =>
      chosen sample_outbounds NetworkUDP port_router sel o /\ md_FakeIP m = true /\ sa_Addr origin = fake_addr
  | _ => False
  end.
Proof.
  pose proof (routePacketConnection_outbound sample_world sample_store (fun _ => None) sample_outbounds 0 port_router
    (example_state 443 [] [])) as H.
  destruct (routePacketConnection _ _ _ _ _ _ _) as [[res r'] st'] eqn:E.
  assert (match res with
    | Ok (Some (Delivered o _ c m _)) =>
        md_FakeIP m = true /\ sa_Addr (md_OriginDestination m) = fake_addr
    | _ => False end) as HO.
  { apply (f_equal (fun p => match fst (fst p) with
      | Ok (Some (Delivered o _ _ m _)) =>
          md_FakeIP m && bool_decide (sa_Addr (md_OriginDestination m) = fake_addr) | _ => false end)) in E.
    revert E. vm_compute (match fst (fst (routePacketConnection _ _ _ _ _ _ _)) with _ => _ end).
    destruct res as [[[| |o]|]| |]; simpl; try done. intros E%eq_sym%andb_true_iff.
    destruct E as [E1 E2%bool_decide_eq_true]. done. }
  destruct res as [[[| |o h c m sel]|]| |]; try done. destruct HO as [H1 H2].
  destruct (H o h c m sel r' st' port_router_reachable eq_refl) as [H3 H4].
  destruct (H4 H1) as [c' ->]. done.
Defined.
End DeliveryWitness.

(** ** Pre-matching *)

Section PreMatching.
Context {X : Externals} {S : Sniffers} {V : RouterServices} {T : Type} {A : AdapterRuleSet T}.
Variables (supportBypass hasConn hasPacketConn : bool) (w : World) (store : gmap string T).

Definition is_sniff (a : option RuleAction) : bool := match a with Some (ActSniff _) => true | _ => false end.
Definition not_icmp (st : rstate) : Prop := md_Network (rs_md st) <> NetworkICMP.

(** A rule that pre-matching passes over or selects does the same when the connection is routed,
    a sniff apart. *)
Lemma run_action_prematch act st : is_sniff act = false ->
  run_action true supportBypass false false act st = run_action false supportBypass hasConn hasPacketConn act st.
Proof. destruct act as [[]|]; done. Qed.

Lemma run_action_not_icmp act st : not_icmp st -> is_sniff act = true ->
  run_action true supportBypass false false act st = (Ok true, st).
Proof.
  unfold not_icmp. destruct act as [[]|]; try done. intros H _. simpl.
  by rewrite bool_decide_eq_false_2.
Qed.

Lemma Rule_Match_Network `{L : !RuleSetLaws T} r m :
  md_Network (snd (Rule_Match w store r (ResetRuleCache m))) = md_Network m.
Proof.
  pose proof (Rule_Match_framed_aux w store r (ResetRuleCache m)) as H.
  assert (same_frame (snd (Rule_Match w store r (ResetRuleCache m))) m) as H1 by (etransitivity; [exact H|apply same_frame_reset]).
  rewrite (same_frame_set _ _ H1). by destruct m.
Qed.

Lemma apply_route_options_Network o m : md_Network (apply_route_options o m) = md_Network m.
Proof. destruct m. unfold apply_route_options. cbn -[Socksaddr_IsValid]. repeat case_match; done. Qed.

Lemma run_action_not_icmp_kept act st : is_sniff act = false -> not_icmp st ->
  not_icmp (snd (run_action false supportBypass hasConn hasPacketConn act st)).
Proof.
  intros Hs. apply (run_action_inv not_icmp (fun _ => False)); try done.
  - intros o st1 H. unfold not_icmp, rs_md in *. simpl. by rewrite apply_route_options_Network.
  - intros a st1 H. apply run_resolve_inv; try done. intros l d. unfold not_icmp, rs_md in *. simpl. by destruct (ms_md (rs_m st1)).
  - intros a ->. done.
Qed.

Lemma match_loop_prematch `{L : !RuleSetLaws T} rules : forall i st j r st', not_icmp st ->
  match_loop true supportBypass false false w store i rules st = (Ok (Some (j, r)), st') ->
  is_sniff (Rule_Action r) = false ->
  match_loop false supportBypass hasConn hasPacketConn w store i rules st = (Ok (Some (j, r)), st').
Proof.
  induction rules as [|x rules IH]; intros i st j r st' Hn H Hs; cbn [match_loop] in *; [done|].
  pose proof (Rule_Match_Network x (rs_md st)) as HN.
  destruct (Rule_Match _ _ _ _) as [b m]. simpl in HN.
  assert (not_icmp (upd_rs (fun _ => m) st)) as Hn1 by (unfold not_icmp, rs_md in *; simpl; by rewrite HN).
  destruct b; simpl in *; [|by apply IH].
  destruct (is_sniff (Rule_Action x)) eqn:E.
  - rewrite run_action_not_icmp in H by done. simpl in H. simplify_eq. by rewrite E in Hs.
  - rewrite run_action_prematch in H by done.
    pose proof (run_action_not_icmp_kept (Rule_Action x) _ E Hn1) as H1.
    destruct (run_action _ _ _ _ _ _) as [[[]|e|msg] st1] eqn:E1; simpl in *; try done.
    by apply IH.
Qed.

(** The stages before the rules keep the network and the options of the inbound. *)
Definition plain_stage (f : InboundContext -> result InboundContext) : Prop := forall m m',
  f m = Ok m' -> md_Network m' = md_Network m /\ md_InboundOptions m' = md_InboundOptions m.
Lemma find_process_plain searcher : plain_stage (find_process searcher).
Proof. intros m m' H. unfold find_process in H. repeat case_match; simplify_eq; try done; by destruct m. Qed.
Lemma unmap_destination_plain d : plain_stage (unmap_destination d).
Proof. intros m m' H. unfold unmap_destination in H. repeat case_match; simplify_eq; try done; by destruct m. Qed.
Lemma detect_version_plain m :
  md_Network (detect_version m) = md_Network m /\ md_InboundOptions (detect_version m) = md_InboundOptions m.
Proof. unfold detect_version. repeat case_match; by destruct m. Qed.
Lemma on_md_plain f st : plain_stage f -> not_icmp st -> md_InboundOptions (rs_md st) = InboundOptions_zero ->
  not_icmp (snd (on_md f st)) /\ md_InboundOptions (rs_md (snd (on_md f st))) = InboundOptions_zero.
Proof.
  intros Hf Hn Ho. unfold on_md. destruct (f (rs_md st)) as [m|e|msg] eqn:E; simpl; [|done|done].
  apply Hf in E as [E1 E2]. unfold not_icmp, rs_md in *. simpl. by rewrite E1, E2.
Qed.

(** Pre-matching decides as the later routing of the same connection does: when it selects a
    rule whose action is not a sniff (and the network is not ICMP, and there are no deprecated
    inbound options), matching with sniffing enabled selects the same rule, at the same index, and
    leaves the same metadata. *)
Theorem prematch_agrees `{L : !RuleSetLaws T} searcher rules st i r st' :
  md_Network (rs_md st) <> NetworkICMP ->
  md_InboundOptions (rs_md st) = InboundOptions_zero ->
  is_sniff (Rule_Action r) = false ->
  matchRule true supportBypass false false w store searcher rules st = (Ok (Some (i, r)), st') ->
  matchRule false supportBypass hasConn hasPacketConn w store searcher rules st = (Ok (Some (i, r)), st').
Proof.
  intros Hn Ho Hs H. unfold matchRule in *.
  assert (forall pm hc hp, before_rules pm hc hp searcher st = before_rules true false false searcher st /\
    forall st1, snd (before_rules pm hc hp searcher st) = st1 -> not_icmp st1) as HB.
  { intros pm hc hp. unfold before_rules.
    destruct (on_md_plain (find_process searcher) st) as [Hn1 Ho1]; [apply find_process_plain|done..|].
    destruct (on_md (find_process searcher) st) as [[[]|e|msg] st1]; simpl in *; try (split; [done|by intros ? <-]).
    destruct (on_md_plain (unmap_destination (rs_dns st1)) st1) as [Hn2 Ho2]; [apply unmap_destination_plain|done..|].
    destruct (on_md (unmap_destination _) st1) as [[[]|e|msg] st2]; simpl in *; try (split; [done|by intros ? <-]).
    unfold legacy_options. unfold rs_md, upd_rs, upd_md in *. simpl in *.
    destruct (detect_version_plain (ms_md (rs_m st2))) as [H1 H2].
    rewrite !bool_decide_eq_true_2 by congruence.
    split; [done|]. intros ? <-. unfold not_icmp, rs_md in *. simpl. by rewrite H1. }
  destruct (HB false hasConn hasPacketConn) as [HB1 _]. rewrite HB1.
  destruct (HB true false false) as [_ HB2]. specialize (HB2 _ eq_refl).
  destruct (before_rules true _ _ _ _) as [[[]|e|msg] st1]; simpl in *; try done.
  by apply match_loop_prematch.
Qed.
End PreMatching.

Section PreMatchingWitness.
#[local] Existing Instance sample.
#[local] Existing Instance sample_services.
#[local] Existing Instance sample_sniffers.

Lemma prematch_agrees_witness :
  exists st', matchRule false false true false sample_world sample_store None direct_then_route fake_connection =
    (Ok (Some (2, simple_rule [port_item 443] (ActRoute "proxy" no_options))), st') /\
    md_FakeIP (rs_md st') = true.
Proof.
  eexists. split; [|shelve].
  apply (prematch_agrees false true false sample_world sample_store None direct_then_route fake_connection);
    [done|reflexivity|reflexivity|]. reflexivity.
  Unshelve. reflexivity.
Defined.
End PreMatchingWitness.

(** ** What routing leaves alone *)

Section Identity.
Context {X : Externals} {S : Sniffers} {V : RouterServices} {T : Type} {A : AdapterRuleSet T} {L : RuleSetLaws T}.
Variables (preMatch supportBypass hasConn hasPacketConn : bool) (w : World) (store : gmap string T).

(** Where a connection comes from and who it belongs to. *)
Definition origin_of (m : InboundContext) :=
  (md_Inbound m, md_Network m, md_Source m, md_TunnelSource m, md_User m, md_Outbound m,
   (md_InboundDetour m, md_LastInbound m, md_QueryType m)).

Lemma origin_frame m m' : same_frame m m' -> origin_of m = origin_of m'.
Proof. intros H. rewrite (same_frame_set _ _ H). by destruct m'. Qed.
Lemma origin_route_options o m : origin_of (apply_route_options o m) = origin_of m.
Proof. destruct m. unfold apply_route_options. cbn -[Socksaddr_IsValid]. repeat case_match; done. Qed.
Lemma origin_override a e m : origin_of (override_destination a e m) = origin_of m.
Proof. destruct m. unfold override_destination. repeat case_match; done. Qed.
Lemma origin_sniff s m : origin_of (set_sniff s m) = origin_of m.
Proof. by destruct m. Qed.

Lemma actionSniff_origin a buffers packets st :
  origin_of (ms_md (snd (actionSniff hasConn hasPacketConn a buffers packets st))) = origin_of (ms_md st).
Proof.
  unfold actionSniff, sniff_stream, sniff_packets.
  repeat (case_match; simplify_eq; simpl; rewrite ?origin_override, ?origin_sniff; try done).
Qed.

(** The options are valid once they are; the first destination is kept. *)
Definition original_kept (m m' : InboundContext) : Prop :=
  Socksaddr_IsValid (md_RouteOriginalDestination m) = true ->
  md_RouteOriginalDestination m' = md_RouteOriginalDestination m.

Definition kept (m m' : InboundContext) : Prop :=
  origin_of m' = origin_of m /\ original_kept m m'.
Lemma kept_refl m : kept m m.
Proof. by split. Qed.
Lemma kept_trans m1 m2 m3 : kept m1 m2 -> kept m2 m3 -> kept m1 m3.
Proof.
  intros [H1 H2] [H3 H4]. split; [congruence|]. intros H. rewrite <- (H2 H). apply H4. by rewrite (H2 H).
Qed.
Lemma kept_frame m m' : same_frame m' m -> kept m m'.
Proof. intros H. rewrite (same_frame_set _ _ H). split; [by destruct m|intros _; by destruct m]. Qed.
Lemma kept_route_options o m : kept m (apply_route_options o m).
Proof.
  split; [apply origin_route_options|]. intros H. destruct m. unfold apply_route_options. cbn -[Socksaddr_IsValid] in *.
  rewrite H, andb_false_r. repeat case_match; done.
Qed.

Lemma actionSniff_kept a buffers packets st :
  kept (ms_md st) (ms_md (snd (actionSniff hasConn hasPacketConn a buffers packets st))).
Proof.
  assert (forall a' e s, kept (ms_md st) (override_destination a' e (set_sniff s (ms_md st)))) as H.
  { intros a' e s. split; [by rewrite origin_override, origin_sniff|]. intros _.
    unfold override_destination. destruct (ms_md st). repeat case_match; done. }
  assert (forall s, kept (ms_md st) (set_sniff s (ms_md st))) as H1.
  { intros s. split; [apply origin_sniff|]. intros _. by destruct (ms_md st). }
  pose proof (kept_refl (ms_md st)).
  unfold actionSniff, sniff_stream, sniff_packets. repeat (case_match; simplify_eq; simpl; try done; auto).
Qed.

Lemma on_md_kept f st : (forall m m', f m = Ok m' -> kept m m') -> kept (rs_md st) (rs_md (snd (on_md f st))).
Proof.
  intros Hf. unfold on_md. destruct (f (rs_md st)) as [m|e|msg] eqn:E; simpl; [by apply Hf|apply kept_refl..].
Qed.
Lemma run_resolve_kept a st m : kept m (rs_md st) -> kept m (rs_md (snd (run_resolve a st))).
Proof.
  intros H. apply (run_resolve_inv (fun st' => kept m (rs_md st'))); [done| |done].
  intros l d. eapply kept_trans; [exact H|]. unfold rs_md. simpl. split; [|intros _]; by destruct (ms_md (rs_m st)).
Qed.
Lemma run_sniff_kept a st m : kept m (rs_md st) -> kept m (rs_md (snd (run_sniff hasConn hasPacketConn a st))).
Proof.
  intros H. eapply kept_trans; [exact H|]. unfold run_sniff, rs_md.
  pose proof (actionSniff_kept a (ms_buffers (rs_m st)) (ms_packets (rs_m st)) (rs_m st)) as HK.
  destruct (actionSniff _ _ _ _ _ _) as [r s]. simpl in *. by repeat case_match.
Qed.

Lemma legacy_options_kept st m : kept m (rs_md st) ->
  kept m (rs_md (snd (legacy_options preMatch hasConn hasPacketConn st))).
Proof.
  intros H. unfold legacy_options. case_bool_decide; [done|].
  assert (forall g st', kept m (rs_md st') -> (forall x, kept x (g x)) -> kept m (rs_md (upd_rs g st'))) as HU.
  { intros g st' H1 H2. eapply kept_trans; [exact H1|]. apply H2. }
  apply (and_then_inv (fun st' => kept m (rs_md st'))).
  - unfold run_legacy_sniff. destruct (_ && _); [|done]. eapply kept_trans; [exact H|].
    set (la := legacy_sniff _). pose proof (actionSniff_kept la [] [] (rs_m st)) as HK. unfold rs_md.
    destruct (actionSniff _ _ _ _ _ _) as [r s]. simpl in *. by repeat case_match.
  - intros _ st1 H1. apply (and_then_inv (fun st' => kept m (rs_md st'))).
    + destruct (negb _); [by apply run_resolve_kept|done].
    + intros _ st2 H2. simpl. apply HU; [|intros x; split; [|intros _]; by destruct x].
      destruct (io_UDPDisableDomainUnmapping _); [|done].
      apply HU; [done|]. intros x; split; [|intros _]; by destruct x.
Qed.

(** Routing decides about a connection and does not change whose it is: whatever the rules,
    sniffers, process search, fake IP store and DNS do, and on every error, inbound, network, source, tunnel
    source, user, outbound, detours and query type are as before; and the original destination, once
    recorded, is the one recorded first. *)
Theorem matchRule_keeps_origin searcher rules st :
  let '(_, st') := matchRule preMatch supportBypass hasConn hasPacketConn w store searcher rules st in
  origin_of (rs_md st') = origin_of (rs_md st) /\
  (Socksaddr_IsValid (md_RouteOriginalDestination (rs_md st)) = true ->
   md_RouteOriginalDestination (rs_md st') = md_RouteOriginalDestination (rs_md st)).
Proof.
  set (P := fun st' => kept (rs_md st) (rs_md st')).
  assert (P (snd (matchRule preMatch supportBypass hasConn hasPacketConn w store searcher rules st))) as H;
    [|by destruct (matchRule _ _ _ _ _ _ _ _ _)].
  unfold matchRule. apply and_then_inv.
  - unfold before_rules. apply and_then_inv.
    + apply on_md_kept. intros m m' H. unfold find_process in H.
      repeat case_match; simplify_eq; try apply kept_refl; (split; [|intros _]; by destruct m).
    + intros _ st1 H1. apply and_then_inv.
      * eapply kept_trans; [exact H1|]. apply on_md_kept. intros m m' H. unfold unmap_destination in H.
        repeat case_match; simplify_eq; try apply kept_refl; (split; [|intros _]; by destruct m).
      * intros _ st2 H2. apply legacy_options_kept. eapply kept_trans; [exact H2|].
        unfold rs_md. simpl. generalize (ms_md (rs_m st2)). intros m.
        unfold detect_version. repeat case_match; try apply kept_refl; (split; [|intros _]; by destruct m).
  - intros _ st1 H1. apply (match_loop_inv P (fun _ => True)); try done.
    + intros r st2 H2. eapply kept_trans; [exact H2|]. apply kept_frame. unfold rs_md. simpl.
      etransitivity; [apply (Rule_Match_framed_aux w store r)|apply same_frame_reset].
    + intros o st2 H2. eapply kept_trans; [exact H2|]. apply kept_route_options.
    + intros a st2 _ H2. by apply run_sniff_kept.
    + intros a st2 H2. by apply run_resolve_kept.
    + apply Forall_true. by intros r a _.
Qed.
End Identity.
