(* ===== verification/RouterLife.v ===== *)
(** * RouterLife: initialisation and start of the router

    [Initialize] accepts exactly the configurations whose rules and rule-sets can be built and
    whose tags are distinct; the concurrent start of the rule-sets does not depend on the order. *)

From S2P Require Import Prelude GoStd NetIP Metadata Sample RuleItems RuleMatch RuleAction RuleOptions RuleBuild.
From S2P Require Import RuleSet Rules Sniff Adapter Router RouterLaws.
Open Scope string_scope.

Section Life.
Context {X : Externals} {S : Sniffers} {V : RouterServices}.

Lemma parse_rules_iff dialer l : forall i acc rs,
  parse_rules dialer i l acc = Ok rs <->
  exists rs', rs = (acc ++ rs')%list /\ Forall2 (fun o r => NewRule dialer o false = Ok r) l rs'.
Proof.
  induction l as [|o l IH]; intros i acc rs; cbn [parse_rules].
  - split; [intros [= <-]; exists []; by rewrite app_nil_r|].
    intros (rs' & -> & H). inversion H; subst. by rewrite app_nil_r.
  - rewrite bind_Ok. setoid_rewrite with_cause_Ok. setoid_rewrite IH. split.
    + intros (r & Hr & rs' & -> & H). exists (r :: rs'). split; [by rewrite <- app_assoc|by constructor].
    + intros (rs' & -> & H). inversion H as [|? r ? rs'' Hr Hl]; subst. exists r. split; [done|].
      exists rs''. split; [by rewrite <- app_assoc|done].
Qed.

(** The rule-sets of [sets] added to [store]. *)
Definition adds_rule_sets (new : opt_RuleSet -> result RuleSet) (sets : list opt_RuleSet)
  (store store' : gmap string RuleSet) : Prop :=
  (forall o, o ∈ sets -> exists s, new o = Ok s /\ store' !! os_Tag o = Some s) /\
  (forall tag, tag ∉ map os_Tag sets -> store' !! tag = store !! tag).

Lemma parse_rule_sets_sound new l : forall i tags store tags' store',
  parse_rule_sets new i l tags store = Ok (tags', store') ->
  tags' = (tags ++ map os_Tag l)%list /\ NoDup (map os_Tag l) /\
  (forall o, o ∈ l -> store !! os_Tag o = None) /\ adds_rule_sets new l store store'.
Proof.
  induction l as [|o l IH]; intros i tags store tags' store' H; cbn [parse_rule_sets] in H.
  - simplify_eq. split_and!; [by rewrite app_nil_r|constructor|set_solver|split; set_solver].
  - destruct (store !! os_Tag o) as [s|] eqn:E; [done|].
    apply bind_Ok in H as (s & Hs & H). apply with_cause_Ok in Hs.
    apply IH in H as (-> & Hnd & Hfresh & Hadd & Hrest).
    assert (os_Tag o ∉ map os_Tag l) as Hn.
    { intros (o' & Ho & Ho')%list_elem_of_fmap. apply Hfresh in Ho'. rewrite <- Ho, lookup_insert_eq in Ho'. done. }
    split_and!; [by rewrite <- app_assoc|by constructor| |split].
    + intros o' [->|Ho]%elem_of_cons; [done|]. specialize (Hfresh o' Ho).
      rewrite lookup_insert_ne in Hfresh; [done|]. intros Heq. apply Hn. rewrite Heq. apply list_elem_of_fmap. eauto.
    + intros o' [->|Ho]%elem_of_cons; [|by apply Hadd]. exists s. split; [done|].
      rewrite Hrest by done. apply lookup_insert_eq.
    + intros tag Ht. cbn in Ht. rewrite Hrest by set_solver. apply lookup_insert_ne. set_solver.
Qed.

Lemma parse_rule_sets_complete new l : forall i tags store,
  NoDup (map os_Tag l) -> (forall o, o ∈ l -> store !! os_Tag o = None) ->
  (forall o, o ∈ l -> is_Ok (new o) = true) ->
  exists store', parse_rule_sets new i l tags store = Ok ((tags ++ map os_Tag l)%list, store').
Proof.
  induction l as [|o l IH]; intros i tags store Hnd Hfresh Hnew; cbn [parse_rule_sets].
  - exists store. by rewrite app_nil_r.
  - cbn in Hnd. apply NoDup_cons in Hnd as [Hn Hnd]. rewrite Hfresh by set_solver.
    specialize (Hnew o ltac:(set_solver)) as Ho. destruct (new o) as [s|e|msg]; try done. simpl.
    destruct (IH (i + 1)%N (tags ++ [os_Tag o])%list (<[os_Tag o := s]> store)) as (store' & H);
      [done| |set_solver|].
    { intros o' Ho'. rewrite lookup_insert_ne; [set_solver|]. intros Heq. apply Hn. rewrite Heq.
      apply list_elem_of_fmap. eauto. }
    exists store'. by rewrite H, <- app_assoc.
Qed.

(** [Initialize] of a new router succeeds exactly when every rule and every rule-set of the
    configuration can be built and no two rule-sets have the same tag.  It then has the built
    rules in order, and each rule-set under its tag and nothing else. *)
Theorem Router_Initialize_spec dialer new rules sets findProcess dnsRules :
  let r0 := NewRouter rules findProcess dnsRules in
  (is_Ok (Router_Initialize dialer new rules sets r0 ∅) = true <->
   Forall (fun o => is_Ok (NewRule dialer o false) = true) rules /\
   Forall (fun o => is_Ok (new o) = true) sets /\ NoDup (map os_Tag sets)) /\
  (forall r store, Router_Initialize dialer new rules sets r0 ∅ = Ok (r, store) ->
     Forall2 (fun o x => NewRule dialer o false = Ok x) rules (r_rules r) /\
     r_ruleSets r = map os_Tag sets /\ r_needFindProcess r = r_needFindProcess r0 /\
     adds_rule_sets new sets ∅ store).
Proof.
  intros r0. assert (forall r store, Router_Initialize dialer new rules sets r0 ∅ = Ok (r, store) ->
     (Forall2 (fun o x => NewRule dialer o false = Ok x) rules (r_rules r) /\
     r_ruleSets r = map os_Tag sets /\ r_needFindProcess r = r_needFindProcess r0 /\
     adds_rule_sets new sets ∅ store) /\ NoDup (map os_Tag sets)) as Hsound.
  { intros r store H. unfold Router_Initialize in H. apply bind_Ok in H as (rs & H1 & H).
    apply bind_Ok in H as ([tags store1] & H2 & H). simplify_eq.
    apply parse_rules_iff in H1 as (rs' & -> & H1).
    apply parse_rule_sets_sound in H2 as (-> & Hnd & _ & Hadd). done. }
  split; [split|intros r store H; by apply Hsound in H as [H _]].
  - destruct (Router_Initialize _ _ _ _ _ _) as [[r store]|e|msg] eqn:E; try done. intros _.
    destruct (Hsound r store eq_refl) as ((H1 & _ & _ & Hadd & _) & Hnd). split_and!; [| |done].
    + clear -H1. induction H1 as [|o x l k Hx _ IH]; constructor; [by rewrite Hx|done].
    + apply Forall_forall. intros o Ho. destruct (Hadd o Ho) as (s & -> & _). done.
  - intros (H1 & H2 & Hnd). unfold Router_Initialize.
    assert (exists rs, Forall2 (fun o x => NewRule dialer o false = Ok x) rules rs) as [rs Hrs].
    { clear -H1. induction H1 as [|o l Ho _ [rs IH]]; [by exists []|].
      destruct (NewRule dialer o false) as [x| |] eqn:E; try done. exists (x :: rs). by constructor. }
    assert (parse_rules dialer 0 rules (r_rules r0) = Ok rs) as ->.
    { apply parse_rules_iff. by exists rs. }
    simpl. destruct (parse_rule_sets_complete new sets 0 [] ∅) as (store' & ->); [done|done| |done].
    by apply Forall_forall.
Qed.

(** ** The start group *)

Lemma start_rule_sets_swap start a b order store s :
  snd a <> snd b -> start_rule_sets start (a :: b :: order) store = Ok s ->
  start_rule_sets start (b :: a :: order) store = Ok s.
Proof.
  destruct a as [i t], b as [j u]. simpl. intros Hne H.
  destruct (store !! t) as [x|] eqn:Et; [|done]. apply bind_Ok in H as (x' & Hx & H). rewrite lookup_insert_ne in H by done.
  destruct (store !! u) as [y|] eqn:Eu; [|done]. apply bind_Ok in H as (y' & Hy & H).
  rewrite Hy. simpl. rewrite lookup_insert_ne, Et by done. rewrite Hx. simpl.
  by rewrite insert_insert_ne.
Qed.

Lemma start_rule_sets_Permutation start order1 order2 : order1 ≡ₚ order2 ->
  NoDup (map snd order1) -> forall store s,
  start_rule_sets start order1 store = Ok s -> start_rule_sets start order2 store = Ok s.
Proof.
  induction 1 as [|[i t] l k _ IH|a b l|l k m Hlk IH1 _ IH2]; intros Hnd store s H.
  - done.
  - simpl in *. apply NoDup_cons in Hnd as [_ Hnd]. destruct (store !! t) as [x|]; [|done].
    apply bind_Ok in H as (x' & Hx & H). rewrite Hx. simpl. by apply IH.
  - apply start_rule_sets_swap; [|done]. cbn in Hnd. apply NoDup_cons in Hnd as [Hn _]. set_solver.
  - apply IH2; [by rewrite <- (Permutation_map snd Hlk)|by apply IH1].
Qed.

(** The rule-sets are started by a group of five workers; in whatever order their starts take
    effect, when one order succeeds every other does, with the same rule-sets, the same decision
    to search for processes and the same searcher. *)
Theorem Router_Start_order_irrelevant env start r store order1 order2 r' store' :
  NoDup (r_ruleSets r) ->
  order1 ≡ₚ imap (fun i t => (i, t)) (r_ruleSets r) ->
  order2 ≡ₚ imap (fun i t => (i, t)) (r_ruleSets r) ->
  Router_Start_start env start order1 r store = Ok (r', store') ->
  Router_Start_start env start order2 r store = Ok (r', store').
Proof.
  intros Hnd H1 H2 H. unfold Router_Start_start in *. apply bind_Ok in H as (s & Hs & H).
  rewrite (start_rule_sets_Permutation start order1 order2) with (s := s); [done| | |done].
  - by rewrite H1, H2.
  - rewrite (Permutation_map snd H1).
    assert (map snd (imap (fun i t => (i, t)) (r_ruleSets r)) = r_ruleSets r) as ->; [|done].
    clear. generalize (r_ruleSets r). intros l.
    assert (forall f : nat -> string -> nat * string, (forall i t, snd (f i t) = t) -> map snd (imap f l) = l) as H.
    { induction l as [|t l IH]; intros f Hf; [done|]. cbn. rewrite Hf. f_equal. apply IH. intros. apply Hf. }
    by apply H.
Qed.
End Life.

Section Witness.
#[local] Existing Instance sample.
#[local] Existing Instance sample_services.
#[local] Existing Instance sample_sniffers.

(** Two remote rule-sets, of which the second is in the cache file. *)
Definition remote_options (tag : string) : opt_RuleSet :=
  mkOptRuleSet "remote" tag "binary" [] "" "https://example.org" "" 0.
Definition two_sets : gmap string RuleSet :=
  <["a" := ARemote (NewRemoteRuleSet (remote_options "a"))]>
  (<["b" := ARemote (NewRemoteRuleSet (remote_options "b"))]> ∅).
Definition two_router : Router := mkRouter [] false ["a"; "b"] None [] false.
Definition empty_decoders : Decoders :=
  mkDecoders (fun _ => Ok (mkPlainRuleSetCompat 1 [])) (fun _ => Ok (mkPlainRuleSetCompat 1 [])).
Definition start_cached : RuleSet -> result RuleSet :=
  RuleSet_StartContext (RemoteRuleSet_StartContext empty_decoders true (fun _ => true)
    (Some {["b" := mkSavedBinary "" (Some 5%Z) "etag"]})).

Lemma Router_Start_order_irrelevant_witness :
  let env := mkSearchEnv false None None in
  let run order := Router_Start_start env start_cached order two_router two_sets in
  is_Ok (run [(0%nat, "a"); (1%nat, "b")]) = true /\
  run [(1%nat, "b"); (0%nat, "a")] = run [(0%nat, "a"); (1%nat, "b")].
Proof.
  intros env run. assert (is_Ok (run [(0%nat, "a"); (1%nat, "b")]) = true) as H by (vm_compute; reflexivity).
  split; [exact H|]. destruct (run [(0%nat, "a"); (1%nat, "b")]) as [[r' s']| |] eqn:E; [|done|done].
  apply (Router_Start_order_irrelevant env start_cached two_router two_sets [(0%nat, "a"); (1%nat, "b")]).
  - apply (bool_decide_unpack _). reflexivity.
  - reflexivity.
  - apply perm_swap.
  - exact E.
Defined.
End Witness.
