(* ===== verification/RouterPayload.v ===== *)
(** * RouterPayload: the payload handed on

    What the outbound reads of a sniffed connection: complete and in order for the packets of at
    most one sniff action; and two cases in which it is not: several stream buffers reach the
    outbound in reverse order, and packets sniffed again are handed on twice. *)

From S2P Require Import Prelude GoStd NetIP Metadata Sample RuleItems RuleMatch RuleAction RuleOptions RuleBuild.
From S2P Require Import RuleSet Rules RuleLaws Sniff Adapter Router RouterLaws RouterSelect.
Open Scope string_scope.

Section Payload.
Context {X : Externals} {S : Sniffers} {V : RouterServices} {T : Type} {A : AdapterRuleSet T} {L : RuleSetLaws T}.
Variables (preMatch supportBypass : bool) (w : World) (store : gmap string T).

(** ** Packets *)

Definition is_sniff_rule (r : Rule) : bool := is_sniff (Rule_Action r).
Definition no_sniffs (rules : list Rule) : Prop := Forall (fun r => is_sniff_rule r = false) rules.

Definition packets_are (l : list PacketBuffer) (st : rstate) : Prop := packets_of st = l.

Lemma packets_are_match l r st : packets_are l st ->
  packets_are l (upd_rs (fun _ => snd (Rule_Match w store r (ResetRuleCache (rs_md st)))) st).
Proof. done. Qed.

Lemma match_loop_no_sniffs l rules i st : no_sniffs rules -> packets_are l st ->
  packets_are l (snd (match_loop preMatch supportBypass false true w store i rules st)).
Proof.
  intros Hr. apply (match_loop_inv (packets_are l) (fun _ => False)); try done.
  - intros a st1 H. by apply run_resolve_inv.
  - eapply Forall_impl; [exact Hr|]. intros r Hs a Ha. unfold is_sniff_rule in Hs. by rewrite Ha in Hs.
Qed.

(** The first sniff, with no packets read before it. *)
Lemma run_sniff_first l a st : ms_packets (rs_m st) = [] -> packets_are l st ->
  packets_are l (snd (run_sniff false true a st)).
Proof.
  intros Hp H. unfold packets_are in *. rewrite <- H. clear H. unfold run_sniff, packets_of.
  pose proof (actionSniff_packet_data a (ms_buffers (rs_m st)) (ms_packets (rs_m st)) (rs_m st)) as HS.
  destruct (actionSniff _ _ _ _ _ _) as [r s]. rewrite Hp in HS |- *.
  destruct HS as (HS & H2 & H3 & H4 & H5). rewrite H2. cbn [app] in *.
  destruct HS as [(H6 & H7 & H8)|H6].
  - rewrite H6. simpl. by rewrite H5, H8.
  - rewrite <- H6. destruct (sr_packets r); simpl; by rewrite H5.
Qed.

Lemma match_loop_one_sniff rules : forall l i st,
  (length (List.filter is_sniff_rule rules) <= 1)%nat -> ms_packets (rs_m st) = [] -> packets_are l st ->
  packets_are l (snd (match_loop preMatch supportBypass false true w store i rules st)).
Proof.
  induction rules as [|r rules IH]; intros l i st Hlen Hp H; cbn [match_loop]; [done|].
  destruct (Rule_Match _ _ _ _) as [b m]. set (st1 := upd_rs (fun _ => m) st).
  assert (packets_are l st1 /\ ms_packets (rs_m st1) = []) as [H1 Hp1] by done. clearbody st1.
  cbn [List.filter] in Hlen.
  destruct b; simpl; [|apply IH; [|done|done]; case_match; simpl in *; lia].
  destruct (is_sniff_rule r) eqn:E.
  - assert (no_sniffs rules) as Hn.
    { simpl in Hlen. apply Forall_forall. intros x Hx. destruct (is_sniff_rule x) eqn:Ex; [|done].
      assert (x ∈ List.filter is_sniff_rule rules) as Hin by (apply list_elem_of_In, List.filter_In; by rewrite <- list_elem_of_In).
      destruct (List.filter is_sniff_rule rules); simpl in *; [set_solver|lia]. }
    apply and_then_inv; [|intros [] st2 H2; [done|by apply match_loop_no_sniffs]].
    unfold is_sniff_rule in E. destruct (Rule_Action r) as [[]|]; try done. simpl.
    destruct preMatch; simpl; [by destruct (negb _)|].
    pose proof (run_sniff_first l s st1 Hp1 H1) as H2. destruct (run_sniff _ _ _ _) as [[[]|?|?] st2]; done.
  - set (P := fun st => packets_are l st /\ ms_packets (rs_m st) = []).
    assert (P (snd (run_action preMatch supportBypass false true (Rule_Action r) st1))) as H2.
    { apply (run_action_inv P (fun _ => False)); try done.
      - intros a st2 H2. by apply run_resolve_inv.
      - intros a Ha. unfold is_sniff_rule in E. by rewrite Ha in E. }
    destruct (run_action _ _ _ _ _ _) as [[[]|?|?] st2]; simpl in *; try apply H2.
    apply IH; [done|apply H2|apply H2].
Qed.

(** With at most one sniff action among the rules (and no deprecated inbound options), the
    packets [matchRule] returns, followed by those left to read, are the packets of the
    connection: none is lost, duplicated or reordered, errors included. *)
Theorem matchRule_packets_conserved searcher rules st :
  (length (List.filter is_sniff_rule rules) <= 1)%nat ->
  md_InboundOptions (rs_md st) = InboundOptions_zero ->
  ms_packets (rs_m st) = [] ->
  let '(_, st') := matchRule preMatch supportBypass false true w store searcher rules st in
  (ms_packets (rs_m st') ++ packet_data (ms_pconn (rs_m st')) = packet_data (ms_pconn (rs_m st)))%list.
Proof.
  intros Hr Ho Hp. set (l := packet_data (ms_pconn (rs_m st))).
  assert (packets_are l (snd (matchRule preMatch supportBypass false true w store searcher rules st))) as H;
    [|by destruct (matchRule _ _ _ _ _ _ _ _ _)].
  set (P := fun st => packets_are l st /\ ms_packets (rs_m st) = []).
  assert (P st) as H by (split; [by unfold packets_are, packets_of; rewrite Hp|done]).
  assert (P (snd (before_rules preMatch false true searcher st))) as HB.
  { unfold before_rules. set (Q := fun st => P st /\ md_InboundOptions (rs_md st) = InboundOptions_zero).
    assert (forall f st, plain_stage f -> Q st -> Q (snd (on_md f st))) as HQ.
    { intros f st1 Hf [H1 H2]. unfold on_md. destruct (f (rs_md st1)) as [m|?|?] eqn:E; [|done|done].
      apply Hf in E as [_ E]. split; [done|]. unfold rs_md in *. simpl. by rewrite E. }
    assert (Q (snd (on_md (find_process searcher) st))) as H1 by (apply HQ; [apply find_process_plain|done]).
    destruct (on_md _ st) as [[[]|?|?] st1]; simpl in *; try apply H1.
    apply (HQ (unmap_destination (rs_dns st1))) in H1; [|apply unmap_destination_plain].
    destruct (on_md _ st1) as [[[]|?|?] st2]; simpl in *; try apply H1.
    unfold legacy_options. destruct (detect_version_plain (rs_md st2)) as [_ Hd].
    rewrite bool_decide_eq_true_2; [apply H1|]. destruct H1 as [_ H1]. unfold rs_md in *. simpl. congruence. }
  unfold matchRule. destruct (before_rules _ _ _ _ _) as [[[]|?|?] st1]; simpl in *; try apply HB.
  apply match_loop_one_sniff; [done|apply HB|apply HB].
Qed.

(** A second sniff action that has to look at the packets of a first one again, because they
    are an incomplete QUIC handshake, hands them on twice: [actionSniff] returns them in front of
    those it reads, and [matchRule] appends all of that to the packets it already has. *)
Theorem run_sniff_duplicates_packets a st s c :
  Skip (rs_md st) = false -> sn_Protocol (md_sniff (rs_md st)) = "" ->
  nonempty (PacketSniffers a) = true -> previous_error a (md_sniff (rs_md st)) = false ->
  ms_packets (rs_m st) <> [] ->
  sniff_earlier a (ms_packets (rs_m st)) (md_sniff (rs_md st)) (ms_ctx (rs_m st)) = (None, s, c) ->
  exists new, ms_packets (rs_m (snd (run_sniff false true a st))) =
      (ms_packets (rs_m st) ++ ms_packets (rs_m st) ++ new)%list /\
    (new ++ packet_data (ms_pconn (rs_m (snd (run_sniff false true a st)))) = packet_data (ms_pconn (rs_m st)))%list.
Proof.
  intros Hskip Hproto Hps Hprev Hne Hear. unfold run_sniff, actionSniff, rs_md in *. rewrite Hskip, Hproto, Hps, Hprev.
  simpl. unfold sniff_packets. rewrite Hear.
  assert (forall reads packets s c, let '(_, _, packets', reads', _, _) := sniff_reads a reads packets s c in
    exists new, packets' = (packets ++ new)%list /\ (new ++ packet_data reads' = packet_data reads)%list) as HR.
  { clear. induction reads as [|[p|e|e] reads IH]; intros packets s c; cbn [sniff_reads].
    - exists []. by rewrite app_nil_r.
    - destruct (sniff_packet _ _ _ _) as [[err s'] c']. destruct (is_error err _).
      + specialize (IH (packets ++ [p])%list s' c'). destruct (sniff_reads _ _ _ _ _) as [[[[[? ?] ?] ?] ?] ?].
        destruct IH as (new & -> & H). exists (p :: new). rewrite <- app_assoc. split; [done|].
        cbn. by f_equal.
      + by exists [p].
    - destruct (errors_Is _ _); exists []; by rewrite app_nil_r.
    - exists []. by rewrite app_nil_r. }
  specialize (HR (ms_pconn (rs_m st)) (ms_packets (rs_m st)) s c).
  destruct (sniff_reads _ _ _ _ _) as [[[[[fatal err] packets] reads] s'] c'].
  destruct HR as (new & -> & HR). simpl. destruct (ms_packets (rs_m st)) as [|p l] eqn:E; [done|].
  exists new. split; [by simpl|done].
Qed.
End Payload.

(** ** Streams *)

Section Streams.
Context {X : Externals} {S : Sniffers} {V : RouterServices}.
Variables (w : World) (store : gmap string RuleSet) (inb : InboundManager) (out : OutboundManager).

(** What reading a connection to its end gives.  The law of [bufio.NewCachedConn]: the cached
    buffer is read before the connection it is put in front of; trackers pass the data on. *)
Class StreamReader : Type := {
  reads : Conn string -> string;
  reads_cached : forall b c, reads (CachedConn b c) = b +:+ reads c;
  reads_tracked : forall t c, reads (TrackedConn t c) = reads c
}.
Context {R : StreamReader}.

Lemma reads_trackers trackers : forall c, reads (wrap_trackers trackers c) = reads c.
Proof.
  unfold wrap_trackers. induction trackers as [|t l IH]; intros c; [done|]. cbn [foldl].
  by rewrite IH, reads_tracked.
Qed.
Lemma reads_buffers buffers : forall c, reads (wrap_buffers buffers c) = str_concat (rev buffers) +:+ reads c.
Proof.
  unfold wrap_buffers. induction buffers as [|b l IH]; intros c; [done|]. cbn [foldl rev].
  rewrite IH, reads_cached, str_concat_app, str_app_assoc. f_equal. cbn. by rewrite str_app_nil.
Qed.

(** A TCP connection reaches its outbound with the sniffed buffers in front of it in reverse
    order.  With at most one buffer the outbound reads exactly the bytes the client sent; after
    two sniff actions that each read something, it reads them in another order. *)
Theorem delivered_buffers_reversed now r st o h c m sel r' st' :
  ms_buffers (rs_m st) = [] ->
  reads InputConn = stream_data (ms_conn (rs_m st')) ->
  routeConnection w store inb out now r st = (Ok (Some (Delivered o h c m sel)), r', st') ->
  reads c = str_concat (rev (ms_buffers (rs_m st'))) +:+ stream_data (ms_conn (rs_m st')) /\
  ((length (ms_buffers (rs_m st')) <= 1)%nat -> reads c = stream_data (ms_conn (rs_m st))).
Proof.
  intros Hb Hin H. unfold routeConnection in H. case_match.
  { destruct (inject_detour _ _ _ _) as [d|?|?] eqn:E; simpl in H; simplify_eq.
    unfold inject_detour in E. repeat case_match; simplify_eq. }
  case_match; [done|]. set (st0 := upd_rs (set_Network NetworkTCP) st) in *.
  assert (P : stream_bytes (snd (matchRule false false true false w store (r_processSearcher r) (r_rules r) st0))
    = stream_bytes st0).
  { unfold matchRule.
    apply (and_then_inv (fun st' => stream_bytes st' = stream_bytes st0)); [by apply before_rules_bytes|].
    intros _ st1 HP1. apply (match_loop_inv (fun st' => stream_bytes st' = stream_bytes st0) (fun _ => True)); try done.
    - intros a st2 _ H2. by rewrite run_sniff_bytes.
    - intros a st2 H2. by apply run_resolve_inv.
    - apply Forall_true. by intros x a _. }
  destruct (matchRule _ _ _ _ _ _ _ _ _) as [[sel'|e|msg] st1]; simplify_eq. simpl in P.
  destruct (select_outbound _ _ _ _ _ _) as [[[o'| |]|e|msg] r1]; simplify_eq.
  destruct (default_outbound _ _ _ _ _) as [o''|e|msg]; simpl in H; simplify_eq.
  rewrite reads_trackers, reads_buffers, Hin. split; [done|]. intros Hlen.
  unfold stream_bytes in P. subst st0. simpl in P. rewrite Hb in P. etransitivity; [|exact P].
  by destruct (ms_buffers (rs_m st')) as [|b [|b2 l]]; simpl in *; [| |lia].
Qed.
End Streams.

(** ** Concrete connections *)

Section Witnesses.
#[local] Existing Instance sample.
#[local] Existing Instance sample_services.
#[local] Existing Instance sample_sniffers.

Definition sniff_action (ss : list StreamSniffer) (ps : list PacketSniffer) (name : string) : RuleActionSniff :=
  mkSniff [name] ss ps 0 false.
Definition sniff_rule (a : RuleActionSniff) : Rule := simple_rule [port_item 443] (ActSniff a).
Definition to_proxy : Rule := simple_rule [port_item 443] (ActRoute "proxy" no_options).
Definition packet (data : string) : PacketBuffer := mkPacketBuffer data Socksaddr_zero.

Lemma matchRule_packets_conserved_witness :
  let st := sample_state (sample_context "" example_addr 443) [] (map PacketOk [packet "quic-1"; packet "quic-2"; packet "x"]) in
  let '(_, st') := matchRule false false false true sample_world sample_store None
    [sniff_rule (sniff_action [] [QUICClientHello] "quic"); to_proxy] st in
  (ms_packets (rs_m st') ++ packet_data (ms_pconn (rs_m st')) = [packet "quic-1"; packet "quic-2"; packet "x"])%list.
Proof.
  apply (matchRule_packets_conserved false false sample_world sample_store None
    [sniff_rule (sniff_action [] [QUICClientHello] "quic"); to_proxy]
    (sample_state (sample_context "" example_addr 443) [] (map PacketOk [packet "quic-1"; packet "quic-2"; packet "x"])));
    [simpl; lia|reflexivity|reflexivity].
Defined.

(** The state after a [dns] sniff of the first packet failed. *)
Definition after_first_sniff : rstate :=
  snd (run_sniff false true (sniff_action [] [DomainNameQuery] "dns")
    (sample_state (sample_context "" example_addr 443) [] (map PacketOk [packet "quic-1"; packet "quic-2"]))).

Lemma run_sniff_duplicates_packets_witness :
  ms_packets (rs_m (snd (run_sniff false true (sniff_action [] [QUICClientHello] "quic") after_first_sniff))) =
  [packet "quic-1"; packet "quic-1"; packet "quic-2"].
Proof.
  set (a := sniff_action [] [QUICClientHello] "quic").
  destruct (run_sniff_duplicates_packets a after_first_sniff
    (snd (fst (sniff_earlier a (ms_packets (rs_m after_first_sniff)) (md_sniff (rs_md after_first_sniff))
      (ms_ctx (rs_m after_first_sniff))))) (ms_ctx (rs_m after_first_sniff)))
    as (new & -> & H); try reflexivity; [done|].
  replace (packet_data (ms_pconn (rs_m after_first_sniff))) with [packet "quic-2"] in H by reflexivity.
  replace (packet_data (ms_pconn (rs_m (snd (run_sniff false true a after_first_sniff))))) with (@nil PacketBuffer) in H
    by reflexivity.
  rewrite app_nil_r in H. by rewrite H.
Defined.

(** A connection whose input is read to [rest]. *)
Definition sample_reads (rest : string) : Conn string -> string :=
  fix go c := match c with
    | InputConn => rest | CachedConn b c => b +:+ go c | TrackedConn _ c => go c | NATConn _ _ c => go c end.
Definition sample_reader (rest : string) : StreamReader.
Proof. by refine {| reads := sample_reads rest |}. Defined.

Definition two_sniffs_router : Router :=
  mkRouter [sniff_rule (sniff_action [StreamDomainNameQuery] [] "dns");
            sniff_rule (sniff_action [TLSClientHello] [] "tls"); to_proxy] false [] None [] true.

Lemma matchRule_stream_conserved_witness :
  let '(_, st') := matchRule false false true false sample_world sample_store None (r_rules two_sniffs_router)
    (sample_state (sample_context "" example_addr 443) [ReadOk "first "; ReadOk "second "; ReadOk "third"] []) in
  str_concat (ms_buffers (rs_m st')) +:+ stream_data (ms_conn (rs_m st')) = "first second third".
Proof.
  exact (matchRule_stream_conserved false false sample_world sample_store false None (r_rules two_sniffs_router)
    (sample_state (sample_context "" example_addr 443) [ReadOk "first "; ReadOk "second "; ReadOk "third"] []) eq_refl).
Defined.

Lemma delivered_buffers_reversed_witness :
  let st := sample_state (sample_context "" example_addr 443) [ReadOk "first "; ReadOk "second "; ReadOk "third"] [] in
  exists o h c m sel r' st',
    routeConnection sample_world sample_store (fun _ => None) sample_outbounds 0 two_sniffs_router st =
      (Ok (Some (Delivered o h c m sel)), r', st') /\
    reads (StreamReader := sample_reader "third") c = "second first third".
Proof.
  intros st.
  destruct (routeConnection sample_world sample_store (fun _ => None) sample_outbounds 0 two_sniffs_router st)
    as [[res r'] st'] eqn:E.
  assert (stream_data (ms_conn (rs_m st')) = "third" /\ ms_buffers (rs_m st') = ["first "; "second "]) as [H1 H2].
  { apply (f_equal (fun p => (stream_data (ms_conn (rs_m (snd p))), ms_buffers (rs_m (snd p))))) in E.
    vm_compute (stream_data (ms_conn (rs_m (snd (routeConnection _ _ _ _ _ _ _))))) in E.
    vm_compute (ms_buffers (rs_m (snd (routeConnection _ _ _ _ _ _ _)))) in E. simpl in E. by simplify_eq. }
  assert (match res with Ok (Some (Delivered _ _ _ _ _)) => true | _ => false end = true) as H3.
  { apply (f_equal (fun p => match fst (fst p) with Ok (Some (Delivered _ _ _ _ _)) => true | _ => false end)) in E.
    vm_compute (match fst (fst (routeConnection _ _ _ _ _ _ _)) with _ => _ end) in E. simpl in E. by rewrite <- E. }
  destruct res as [[[| |o h c m sel]|]| |]; try discriminate H3.
  exists o, h, c, m, sel, r', st'. split; [reflexivity|].
  assert (reads (StreamReader := sample_reader "third") InputConn = stream_data (ms_conn (rs_m st'))) as H4
    by (rewrite H1; reflexivity).
  pose proof (delivered_buffers_reversed (R := sample_reader "third") sample_world sample_store (fun _ => None)
    sample_outbounds 0 two_sniffs_router st o h c m sel r' st' eq_refl H4 E) as [H5 _].
  rewrite H5, H1, H2. reflexivity.
Defined.
End Witnesses.
