(* ===== verification/DNSRouter.v ===== *)
(** * DNSRouter: how a query finds its rule and its server

    The DNS router of dns/router.go ([matchDNS], [Exchange], [Lookup], [isAddressQuery],
    [Initialize], [Start], the reverse mapping) and dns/blocked_checker.go.  The DNS client is
    behind an interface: a call of the client is a run that may ask for the check of a response
    before it ends. *)

From S2P Require Import Prelude GoStd NetIP DNSMessage Metadata RuleItems RuleMatch RuleAction RuleOptions RuleBuild RuleSet.
From S2P Require Import Rules Adapter Router.
Open Scope string_scope.

(** ** Messages *)

Definition ErrResponseRejected : error := ELib "dns.ErrResponseRejected".
Definition ErrResponseRejectedCached : error := EExtend ErrResponseRejected "cached".

(** [RuleActionPredefined.Response]. *)
Definition RuleActionPredefined_Response (p : RuleActionPredefined) (request : Msg) : Msg :=
  let name := match msg_Question request with q :: _ => q_Name q | [] => "" end in
  mkMsg (msg_Id request) true true true true (pd_Rcode p) (msg_Question request)
    (rewriteRecords (pd_Answer p) name) (rewriteRecords (pd_Ns p) name) (rewriteRecords (pd_Extra p) name).

(** The addresses of the A and AAAA records. *)
Definition answer_addresses (l : list RR) : list Addr :=
  flat_map (fun r => match rr_Data r with RR_A a | RR_AAAA a => [a] | _ => [] end) l.

(** [isAddressQuery]. *)
Definition isAddressQuery (m : Msg) : bool :=
  existsb (fun q => (q_Qtype q =? TypeA)%N || (q_Qtype q =? TypeAAAA)%N || (q_Qtype q =? TypeHTTPS)%N)
    (msg_Question m).

(** [blockedPrefixes], [IsBlockedIP] and [FilterBlocked]. *)
Definition blockedPrefixes : list Prefix :=
  [mkPrefix (Addr4 (10 * 2 ^ 24)) 8;
   mkPrefix (Addr6 (8193 * 2 ^ 112 + 16776 * 2 ^ 96 + 2 * 2 ^ 80 + 1536 * 2 ^ 64) "") 64].
Definition IsBlockedIP (a : Addr) : bool :=
  negb (Addr_IsValid a) || existsb (fun p => Prefix_Contains p a) blockedPrefixes.
Definition FilterBlocked (l : list Addr) : list Addr := List.filter (fun a => negb (IsBlockedIP a)) l.

(** ** The interfaces *)

(** [adapter.DNSTransport]: its tag, whether it is the fake IP transport, and strategy and client
    subnet of a [LegacyDNSTransport]. *)
Record Transport : Type := mkTransport {
  tp_Tag : string;
  tp_FakeIP : bool;
  tp_Legacy : option (N * Prefix)
}.

(** A run of the client on its state: it ends, or asks [responseChecker] about addresses. *)
Inductive client_run (D R : Type) : Type :=
| ClientDone (r : R) (d : D)
| ClientCheck (addresses : list Addr) (k : bool -> client_run D R).
Arguments ClientDone {_ _} _ _.
Arguments ClientCheck {_ _} _ _.

(** The services of the DNS router.  The client is given the metadata of its context, the
    transport ([None]: nil), the query, the options and whether there is a checker; [Lookup]
    returns addresses and an error, which may be nil, or panics.  [ctx_Done]: the context is done. *)
Class DNSServices : Type := {
  ClientState : Type;
  client_Exchange : InboundContext -> option Transport -> Msg -> DNSQueryOptions -> bool -> ClientState ->
    client_run ClientState (result Msg);
  client_Lookup : InboundContext -> option Transport -> string -> DNSQueryOptions -> bool -> ClientState ->
    client_run ClientState (list Addr * option error + string);
  ctx_Done : ClientState -> bool;
  transport_Transport : string -> option Transport;
  transport_Default : option Transport
}.

(** The checker of a run: given the addresses it answers and changes the metadata. *)
Fixpoint run_client {D R} (check : list Addr -> InboundContext -> bool * InboundContext) (c : client_run D R)
  (m : InboundContext) : R * D * InboundContext :=
  match c with
  | ClientDone r d => (r, d, m)
  | ClientCheck addresses k => let '(b, m) := check addresses m in run_client check (k b) m
  end.

(** ** Options *)

Definition set_Strategy (s : N) (o : DNSQueryOptions) : DNSQueryOptions :=
  mkDNSQueryOptions (dq_Transport o) s (dq_LookupStrategy o) (dq_DisableCache o) (dq_RewriteTTL o) (dq_ClientSubnet o).
Definition set_ClientSubnet (p : Prefix) (o : DNSQueryOptions) : DNSQueryOptions :=
  mkDNSQueryOptions (dq_Transport o) (dq_Strategy o) (dq_LookupStrategy o) (dq_DisableCache o) (dq_RewriteTTL o) p.

(** The options of a [route] or [route-options] action; [disable]: the cache is disabled anyway. *)
Definition apply_dns_options (a : RuleActionDNSRouteOptions) (disable : bool) (o : DNSQueryOptions) : DNSQueryOptions :=
  mkDNSQueryOptions (dq_Transport o)
    (if negb (dro_Strategy a =? DomainStrategyAsIS)%N then dro_Strategy a else dq_Strategy o)
    (dq_LookupStrategy o)
    (if disable || dro_DisableCache a then true else dq_DisableCache o)
    (match dro_RewriteTTL a with Some t => Some t | None => dq_RewriteTTL o end)
    (if Prefix_IsValid (dro_ClientSubnet a) then dro_ClientSubnet a else dq_ClientSubnet o).

(** [if options.Strategy == C.DomainStrategyAsIS { options.Strategy = s }]. *)
Definition default_strategy (s : N) (o : DNSQueryOptions) : DNSQueryOptions :=
  if (dq_Strategy o =? DomainStrategyAsIS)%N then set_Strategy s o else o.
Definition default_subnet (p : Prefix) (o : DNSQueryOptions) : DNSQueryOptions :=
  if negb (Prefix_IsValid (dq_ClientSubnet o)) then set_ClientSubnet p o else o.
(** Strategy and subnet of a legacy transport. *)
Definition legacy_transport (t : Transport) (o : DNSQueryOptions) : DNSQueryOptions :=
  match tp_Legacy t with
  | Some (strategy, subnet) => default_subnet subnet (default_strategy strategy o)
  | None => o
  end.

Section DNSRouter.
Context {X : Externals} {DL : DNSLibrary} {V : DNSServices} {T : Type} {A : AdapterRuleSet T}.
Variable w : World.
Variable store : gmap string T.

(** ** [matchDNS] *)

(** What the action of a matching rule decides. *)
Inductive dns_decision : Type :=
| DecideTransport (t : Transport) (o : DNSQueryOptions)
| DecideNone (o : DNSQueryOptions)
| DecideSkip (o : DNSQueryOptions).
Definition decide_action (allowFakeIP : bool) (act : option RuleAction) (o : DNSQueryOptions) : dns_decision :=
  match act with
  | Some (ActDNSRoute server a) =>
      match transport_Transport server with
      | None => DecideSkip o
      | Some t =>
          if tp_FakeIP t && negb allowFakeIP then DecideSkip o
          else DecideTransport t (legacy_transport t (apply_dns_options a (tp_FakeIP t) o))
      end
  | Some (ActDNSRouteOptions a) => DecideSkip (apply_dns_options a false o)
  | Some (ActReject _) | Some (ActPredefined _) => DecideNone o
  | _ => DecideSkip o
  end.

(** What [matchDNS] returns; it also changes the options and the metadata it is given. *)
Record dns_match : Type := mkDNSMatch {
  dm_transport : option Transport;
  dm_rule : option (nat * DNSRule);
  dm_options : DNSQueryOptions;
  dm_md : InboundContext
}.
Section MatchDNS.
Variables (allowFakeIP addressQuery : bool).
Fixpoint match_dns_loop (i : nat) (rules : list DNSRule) (o : DNSQueryOptions) (m : InboundContext) : dns_match :=
  match rules with
  | [] => mkDNSMatch transport_Default None o m
  | r :: rules =>
      if DNSRule_WithAddressLimit store r && negb addressQuery then match_dns_loop (i + 1) rules o m
      else
        let '(b, m) := DNSRule_Match w store r (ResetRuleCache m) in
        if negb b then match_dns_loop (i + 1) rules o m
        else
          match decide_action allowFakeIP (DNSRule_Action r) o with
          | DecideTransport t o => mkDNSMatch (Some t) (Some (i, r)) o m
          | DecideNone o => mkDNSMatch None (Some (i, r)) o m
          | DecideSkip o => match_dns_loop (i + 1) rules o m
          end
  end.
(** [ruleIndex] is [None] for -1. *)
Definition first_index (ruleIndex : option nat) : nat :=
  match ruleIndex with Some i => (i + 1)%nat | None => 0%nat end.
Definition matchDNS (rules : list DNSRule) (ruleIndex : option nat) (o : DNSQueryOptions) (m : InboundContext)
  : dns_match := match_dns_loop (first_index ruleIndex) (drop (first_index ruleIndex) rules) o m.
End MatchDNS.

(** ** State *)

(** [Router] and the state of the client.  [dr_mapping]: what was added to the reverse mapping
    ([None]: it is not enabled): address, domain and lifetime in seconds. *)
Record DNSRouter : Type := mkDNSRouter {
  dr_rules : list DNSRule;
  dr_defaultDomainStrategy : N;
  dr_mapping : option (list (Addr * string * N))
}.
Definition set_dns_rules (rules : list DNSRule) (r : DNSRouter) : DNSRouter :=
  mkDNSRouter rules (dr_defaultDomainStrategy r) (dr_mapping r).

(** [NewRouter] (its state), [Initialize] and [Start]. *)
Definition NewDNSRouter (strategy : N) (reverseMapping : bool) : DNSRouter :=
  mkDNSRouter [] strategy (if reverseMapping then Some [] else None).
Fixpoint parse_dns_rules (i : N) (l : list opt_DNSRule) (acc : list DNSRule) : result (list DNSRule) :=
  match l with
  | [] => Ok acc
  | o :: l =>
      let! r := with_cause ("parse dns rule[" +:+ format_uint i +:+ "]") (NewDNSRule o true) in
      parse_dns_rules (i + 1) l (acc ++ [r])%list
  end.
Definition DNSRouter_Initialize (rules : list opt_DNSRule) (r : DNSRouter) : result DNSRouter :=
  let! rs := parse_dns_rules 0 rules (dr_rules r) in Ok (set_dns_rules rs r).
Fixpoint start_dns_rules (env : StartEnv) (i : N) (rules : list DNSRule) (store : gmap string T)
  : result (list DNSRule) * gmap string T :=
  match rules with
  | [] => (Ok [], store)
  | r :: rules =>
      match DNSRule_Start env r store with
      | (Ok r, store) =>
          let '(rs, store) := start_dns_rules env (i + 1) rules store in ((fun rs => r :: rs) <$> rs, store)
      | (Err e, store) => (Err (ECause e ("initialize DNS rule[" +:+ format_uint i +:+ "]")), store)
      | (Panic msg, store) => (Panic msg, store)
      end
  end.
Definition DNSRouter_Start (env : StartEnv) (r : DNSRouter) (store : gmap string T)
  : result DNSRouter * gmap string T :=
  let '(rs, store) := start_dns_rules env 0 (dr_rules r) store in ((fun rs => set_dns_rules rs r) <$> rs, store).

(** [responseCheck]: the closure over the outer metadata, if the rule has an address limit. *)
Definition response_check (sel : option (nat * DNSRule)) : option (list Addr -> InboundContext -> bool * InboundContext) :=
  match sel with
  | Some (_, r) =>
      if DNSRule_WithAddressLimit store r
      then Some (fun addresses m => DNSRule_MatchAddressLimit w store r (set_DestinationAddresses addresses m))
      else None
  | None => None
  end.
Definition has_check {Y} (c : option Y) : bool := match c with Some _ => true | None => false end.
Definition run_checked {D R} (c : option (list Addr -> InboundContext -> bool * InboundContext))
  (run : client_run D R) (m : InboundContext) : R * D * InboundContext :=
  run_client (default (fun _ m => (true, m)) c) run m.

Definition sel_index (sel : option (nat * DNSRule)) : option nat := fst <$> sel.
Definition sel_action (sel : option (nat * DNSRule)) : option RuleAction := sel ≫= fun p => DNSRule_Action (snd p).
Definition sel_bypass (sel : option (nat * DNSRule)) : bool :=
  match sel with Some (_, r) => DNSRule_BypassIfFailed r | None => false end.

(** ** [Exchange] *)

Section Exchange.
Variables (rules : list DNSRule) (defaultStrategy : N).
Variables (message : Msg) (options : DNSQueryOptions).

Definition refused : Msg :=
  mkMsg (msg_Id message) true false false false RcodeRefused (take 1 (msg_Question message)) [] [] [].

(** How the loop ends: by [return], or by [break] with the transport of the last turn. *)
Inductive exchange_end : Type :=
| ExReturn (r : result Msg)
| ExBreak (r : result Msg) (transport : option Transport).

(** The loop; [None] when the fuel is used up.  The client gets a copy of the metadata made before [matchDNS] ([OverrideContext]); [matchDNS], the check of
    a response and the next turn share the other. *)
Fixpoint exchange_loop (fuel : nat) (ruleIndex : option nat) (m : InboundContext) (d : ClientState)
  : option (exchange_end * InboundContext * ClientState) :=
  match fuel with
  | O => None
  | S fuel =>
      let dm := matchDNS true (isAddressQuery message) rules ruleIndex options m in
      let sel := dm_rule dm in
      let exchange :=
        let check := response_check sel in
        let o := default_strategy defaultStrategy (dm_options dm) in
        let '(res, d, m) :=
          run_checked check (client_Exchange m (dm_transport dm) message o (has_check check) d) (dm_md dm) in
        match res with
        | Ok response => Some (ExBreak (Ok response) (dm_transport dm), m, d)
        | Panic msg => Some (ExReturn (Panic msg), m, d)
        | Err e =>
            match dm_transport dm with
            | None => Some (ExReturn (Panic nil_pointer), m, d)
            | Some t =>
                let rejected := errors_Is e ErrResponseRejectedCached || errors_Is e ErrResponseRejected in
                let bypass := sel_bypass sel && negb (ctx_Done d) in
                if has_check check && rejected then exchange_loop fuel (sel_index sel) m d
                else if bypass then exchange_loop fuel (sel_index sel) m d
                else Some (ExBreak (Err e) (Some t), m, d)
            end
        end in
      match sel_action sel with
      | Some (ActReject a) =>
          if bool_decide (rej_Method a = RuleActionRejectMethodDefault) then Some (ExReturn (Ok refused), dm_md dm, d)
          else if bool_decide (rej_Method a = RuleActionRejectMethodDrop) then Some (ExReturn (Err ErrDrop), dm_md dm, d)
          else exchange
      | Some (ActPredefined p) => Some (ExReturn (Ok (RuleActionPredefined_Response p message)), dm_md dm, d)
      | _ => exchange
      end
  end.

(** The fuel [Exchange] and [Lookup] need: a turn per rule and the last one. *)
Definition dns_fuel : nat := S (length rules).
End Exchange.

(** The metadata of a query. *)
Definition query_metadata (q : Question) (m : InboundContext) : InboundContext :=
  let m := set_QueryType (q_Qtype q) (set_Destination Socksaddr_zero m) in
  let m := if (q_Qtype q =? TypeA)%N then set_IPVersion 4 m
           else if (q_Qtype q =? TypeAAAA)%N then set_IPVersion 6 m else m in
  set_Domain (FqdnToDomain (q_Name q)) m.

(** The records added to the reverse mapping. *)
Definition mapping_entries (response : Msg) : list (Addr * string * N) :=
  flat_map (fun r => match rr_Data r with
    | RR_A a | RR_AAAA a => [(a, FqdnToDomain (rr_Name r), rr_Ttl r)]
    | _ => [] end) (msg_Answer response).
Definition record_mapping (response : Msg) (transport : option Transport) (r : DNSRouter) : DNSRouter :=
  if match transport with Some t => tp_FakeIP t | None => false end then r
  else mkDNSRouter (dr_rules r) (dr_defaultDomainStrategy r)
         ((fun l => l ++ mapping_entries response)%list <$> dr_mapping r).

(** [Exchange] of a query in the context [m]; the transport of [options] is the one with that
    tag.  [None]: out of fuel. *)
Definition Exchange (message : Msg) (options : DNSQueryOptions) (m : InboundContext) (r : DNSRouter)
  (d : ClientState) : option (result Msg * DNSRouter * ClientState) :=
  match msg_Question message with
  | [q] =>
      let m := query_metadata q m in
      let finish res transport d :=
        match res with
        | Ok response => Some (Ok response, record_mapping response transport r, d)
        | Err e => Some (Err e, r, d)
        | Panic msg => Some (Panic msg, r, d)
        end in
      match dq_Transport options ≫= transport_Transport with
      | Some t =>
          let o := default_strategy (dr_defaultDomainStrategy r) (legacy_transport t options) in
          let '(res, d, _) := run_checked None (client_Exchange m (Some t) message o false d) m in
          finish res (Some t) d
      | None =>
          match exchange_loop (dr_rules r) (dr_defaultDomainStrategy r) message options (dns_fuel (dr_rules r)) None m d with
          | None => None
          | Some (ExReturn res, _, d) => Some (res, r, d)
          | Some (ExBreak res transport, _, d) => finish res transport d
          end
      end
  | questions =>
      Some (Ok (mkMsg (msg_Id message) true false false false RcodeFormatError questions [] [] []), r, d)
  end.

(** ** [Lookup] *)

(** [printResult] without its logging: the error it leaves. *)
Definition printResult (domain : string) (addresses : list Addr) (err : option error) : option error :=
  let err :=
    match err with
    | None => if nonempty addresses then None else Some (ENew "empty result")
    | Some e => Some e
    end in
  (fun e => ECause e ("lookup " +:+ domain)) <$> err.

(** How the loop ends: by [return nil, err], or at the label [response] with [responseAddrs] and
    [err]. *)
Inductive lookup_end : Type :=
| LkReturn (e : error)
| LkPanic (msg : string)
| LkResponse (addresses : list Addr) (err : option error).

(** The counter of a [reject] action. *)
Definition set_dns_action (a : RuleAction) (r : DNSRule) : DNSRule :=
  match r with
  | DefaultDNSRule d =>
      DefaultDNSRule (mkDefaultRule (items d) (sourceAddressItems d) (sourcePortItems d)
        (destinationAddressItems d) (destinationIPCIDRItems d) (destinationPortItems d) (allItems d)
        (invert d) (Some a))
  | LogicalDNSRule l => LogicalDNSRule (mkLogicalRule (lr_rules l) (lr_mode l) (lr_invert l) (Some a))
  end.

Section Lookup.
Variables (now : Z) (rules : list DNSRule) (defaultStrategy : N) (domain : string) (options : DNSQueryOptions).

(** [&R.RejectedError{Cause: action.Error(ctx)}]. *)
Definition reject_lookup (i : nat) (a : RuleActionReject) : lookup_end * list DNSRule :=
  match RuleActionReject_Error now a with
  | Ok (e, a) =>
      (LkReturn (ERejected (default (ELib "nil") e)), alter (set_dns_action (ActReject a)) i rules)
  | Err e => (LkReturn (ERejected e), rules)
  | Panic msg => (LkPanic msg, rules)
  end.

(** The loop; [addresses] and [err] are the variables of the enclosing function.  [None] when the
    fuel is used up.  The two copies of the metadata are those of [exchange_loop]. *)
Fixpoint lookup_loop (fuel : nat) (ruleIndex : option nat) (addresses : list Addr) (err : option error)
  (m : InboundContext) (d : ClientState) : option (lookup_end * list DNSRule * ClientState) :=
  match fuel with
  | O => None
  | S fuel =>
      let dm := matchDNS false true rules ruleIndex options m in
      let sel := dm_rule dm in
      match sel_action sel with
      | Some (ActReject a) =>
          Some (reject_lookup (default 0%nat (sel_index sel)) a, d)
      | Some (ActPredefined p) =>
          if negb (pd_Rcode p =? RcodeSuccess)%Z
          then Some (LkResponse addresses (Some (RcodeError (pd_Rcode p))), rules, d)
          else Some (LkResponse (FilterBlocked (addresses ++ answer_addresses (pd_Answer p))%list) err, rules, d)
      | _ =>
          let check := response_check sel in
          let o := default_strategy defaultStrategy (dm_options dm) in
          let '(res, d, m) :=
            run_checked check (client_Lookup m (dm_transport dm) domain o (has_check check) d) (dm_md dm) in
          match res with
          | inr msg => Some (LkPanic msg, rules, d)
          | inl (addresses, err) =>
          if negb (is_none sel) && negb (nonempty addresses) && sel_bypass sel
          then lookup_loop fuel (sel_index sel) addresses err m d
          else if negb (has_check check) || is_none err then Some (LkResponse addresses err, rules, d)
          else lookup_loop fuel (sel_index sel) addresses (printResult domain addresses err) m d
          end
      end
  end.
End Lookup.

Definition lookup_metadata (domain : string) (m : InboundContext) : InboundContext :=
  set_Domain (FqdnToDomain domain) (set_Destination Socksaddr_zero m).

(** [Lookup]: the addresses and the error; [None]: out of fuel. *)
Definition Lookup (now : Z) (domain : string) (options : DNSQueryOptions) (m : InboundContext) (r : DNSRouter)
  (d : ClientState) : option (result (list Addr * option error) * DNSRouter * ClientState) :=
  let m := lookup_metadata domain m in
  let response addresses err := (addresses, printResult domain addresses err) in
  match dq_Transport options ≫= transport_Transport with
  | Some t =>
      let o := match tp_Legacy t with
               | Some (_, subnet) => default_subnet subnet (default_strategy (dr_defaultDomainStrategy r) options)
               | None => options
               end in
      let o := default_strategy (dr_defaultDomainStrategy r) o in
      let '(res, d, _) := run_checked None (client_Lookup m (Some t) domain o false d) m in
      match res with
      | inl (addresses, err) => Some (Ok (response addresses err), r, d)
      | inr msg => Some (Panic msg, r, d)
      end
  | None =>
      match lookup_loop now (dr_rules r) (dr_defaultDomainStrategy r) domain options
              (dns_fuel (dr_rules r)) None [] None m d with
      | None => None
      | Some (LkReturn e, rules, d) => Some (Ok ([], Some e), set_dns_rules rules r, d)
      | Some (LkPanic msg, rules, d) => Some (Panic msg, set_dns_rules rules r, d)
      | Some (LkResponse addresses err, rules, d) =>
          Some (Ok (response addresses err), set_dns_rules rules r, d)
      end
  end.

End DNSRouter.
