(* ===== verification/DNSRouterLaws.v ===== *)
(** * DNSRouterLaws: what the DNS router guarantees

    The rule [matchDNS] picks, termination of [Exchange] and [Lookup], and two behaviours of the
    retries (DNSRouter.v): an error that outlives a predefined answer, and match flags that
    outlive the check of a response. *)

From S2P Require Import Prelude GoStd NetIP DNSMessage Metadata Sample RuleItems RuleMatch RuleAction RuleOptions RuleBuild.
From S2P Require Import RuleSet Rules RuleLaws Adapter Router DNSRouter.
Open Scope string_scope.

Section Laws.
Context {X : Externals} {DL : DNSLibrary} {V : DNSServices} {T : Type} {A : AdapterRuleSet T} {L : RuleSetLaws T}.
Variable w : World.
Variable store : gmap string T.

(** ** The rule [matchDNS] picks *)

Section Pick.
Variables (allowFakeIP addressQuery : bool).

(** The action of the rule ends the search. *)
Definition decides (act : option RuleAction) : bool :=
  match act with
  | Some (ActDNSRoute server _) =>
      match transport_Transport server with
      | Some t => negb (tp_FakeIP t) || allowFakeIP
      | None => false
      end
  | Some (ActReject _) | Some (ActPredefined _) => true
  | _ => false
  end.
(** The rule applies to the kind of query, matches the context and its action ends the search. *)
Definition dns_selects (m : InboundContext) (r : DNSRule) : bool :=
  (negb (DNSRule_WithAddressLimit store r) || addressQuery) &&
  fst (DNSRule_Match w store r (ResetRuleCache m)) && decides (DNSRule_Action r).

(** The transport of the picked rule. *)
Definition picked_transport (sel : option (nat * DNSRule)) : option Transport :=
  match sel with
  | None => transport_Default
  | Some (_, r) =>
      match DNSRule_Action r with
      | Some (ActDNSRoute server _) => transport_Transport server
      | _ => None
      end
  end.

Lemma decide_action_decides act o :
  match decide_action allowFakeIP act o with
  | DecideTransport t _ => decides act = true /\
      exists server a, act = Some (ActDNSRoute server a) /\ transport_Transport server = Some t /\
        (tp_FakeIP t = true -> allowFakeIP = true)
  | DecideNone _ => decides act = true /\ forall server a, act <> Some (ActDNSRoute server a)
  | DecideSkip _ => decides act = false
  end.
Proof.
  unfold decide_action, decides. destruct act as [[]|]; try done.
  destruct (transport_Transport server) as [t|] eqn:E; [|done].
  destruct (tp_FakeIP t) eqn:F, allowFakeIP; simpl; try done; split; try done;
    exists server, o0; rewrite ?F; done.
Qed.

Lemma match_dns_loop_picks rules : forall i o m m0, same_frame m m0 -> not_ignoring m0 ->
  let dm := match_dns_loop w store allowFakeIP addressQuery i rules o m in
  dm_rule dm = (prod_map (Nat.add i) id <$> list_find (dns_selects m0) rules) /\
  dm_transport dm = picked_transport (dm_rule dm) /\ same_frame (dm_md dm) m0.
Proof.
  induction rules as [|r rules IH]; intros i o m m0 Hf Hn; cbn [match_dns_loop list_find]; [done|].
  assert (forall o m1, same_frame m1 m0 -> dns_selects m0 r = false ->
    let dm := match_dns_loop w store allowFakeIP addressQuery (i + 1) rules o m1 in
    dm_rule dm = (prod_map (Nat.add i) id <$>
      (if decide (dns_selects m0 r) then Some (0%nat, r) else prod_map S id <$> list_find (dns_selects m0) rules)) /\
    dm_transport dm = picked_transport (dm_rule dm) /\ same_frame (dm_md dm) m0) as Hnext.
  { intros o1 m1 H1 Hs. rewrite decide_False by (rewrite Hs; intros []).
    destruct (IH (i + 1)%nat o1 m1 m0 H1 Hn) as (H2 & H3 & H4). split_and!; [|done|done].
    rewrite H2. destruct (list_find _ rules) as [[k x]|]; [|done].
    unfold prod_map. simpl. by rewrite Nat.add_1_r, Nat.add_succ_r. }
  assert (ResetRuleCache m = ResetRuleCache m0) as HR by (by rewrite Hf).
  assert (not_ignoring (ResetRuleCache m0)) as Hr by (eapply not_ignoring_frame; [apply same_frame_reset|done]).
  pose proof (DNSRule_Match_frame_aux w store r _ Hr) as HF.
  destruct (DNSRule_WithAddressLimit store r && negb addressQuery) eqn:EL.
  { apply Hnext; [done|]. unfold dns_selects. apply andb_true_iff in EL as [-> EL%negb_true_iff]. by rewrite EL. }
  assert (dns_selects m0 r = fst (DNSRule_Match w store r (ResetRuleCache m0)) && decides (DNSRule_Action r)) as Hs.
  { unfold dns_selects. destruct (DNSRule_WithAddressLimit store r), addressQuery; done. }
  rewrite HR. destruct (DNSRule_Match w store r (ResetRuleCache m0)) as [b m1]. simpl in HF, Hs.
  assert (same_frame m1 m0) as H1 by (etransitivity; [exact HF|apply same_frame_reset]).
  destruct b; simpl; [|by apply Hnext]. simpl in Hs.
  pose proof (decide_action_decides (DNSRule_Action r) o) as HD.
  destruct (decide_action allowFakeIP (DNSRule_Action r) o) as [t o1|o1|o1];
    [| |by apply Hnext; [|by rewrite Hs]].
  all: destruct HD as [HD1 HD]; rewrite decide_True by (by rewrite Hs, HD1).
  all: cbn [dm_rule dm_transport dm_md]; split_and!;
    [unfold prod_map; simpl; by rewrite Nat.add_0_r| |done]; unfold picked_transport.
  - by destruct HD as (server & a & -> & -> & _).
  - destruct (DNSRule_Action r) as [[]|]; try done. by edestruct HD.
Qed.

(** C4: The rule [matchDNS] returns is the first one after the given index that applies to the
    kind of query (rules with an address limit are for address queries), matches the context, and
    whose action ends the search: a reject, a predefined answer, or a server that exists and may
    be used.  The transport returned is that server, or the default one when no rule is left;
    and a rule's fake IP server is only returned when fake addresses are allowed, as they are not
    for [Lookup].  The context changes in its rule cache only. *)
Theorem matchDNS_first_match rules ruleIndex o m :
  not_ignoring m ->
  let dm := matchDNS w store allowFakeIP addressQuery rules ruleIndex o m in
  let first := first_index ruleIndex in
  dm_rule dm = (prod_map (Nat.add first) id <$> list_find (dns_selects m) (drop first rules)) /\
  dm_transport dm = picked_transport (dm_rule dm) /\
  (dm_rule dm <> None -> forall t, dm_transport dm = Some t -> tp_FakeIP t = true -> allowFakeIP = true) /\
  ResetRuleCache (dm_md dm) = ResetRuleCache m.
Proof.
  intros Hn dm first.
  destruct (match_dns_loop_picks (drop first rules) first o m m ltac:(done) Hn) as (H1 & H2 & H3).
  fold dm in H1, H2, H3. change (match_dns_loop w store allowFakeIP addressQuery first (drop first rules) o m) with dm in *.
  split_and!; [done|done| |apply H3]. rewrite H2, H1. intros Hs t.
  destruct (list_find _ _) as [[k r]|] eqn:E; [|done]. simpl.
  apply list_find_Some in E as (_ & Hr & _). unfold dns_selects in Hr.
  apply Is_true_true, andb_true_iff in Hr as [_ Hr]. unfold decides in Hr.
  destruct (DNSRule_Action r) as [[]|]; try done. intros Ht. rewrite Ht in Hr. intros Hf. by rewrite Hf in Hr.
Qed.

Lemma match_dns_loop_index rules : forall i o m j r,
  dm_rule (match_dns_loop w store allowFakeIP addressQuery i rules o m) = Some (j, r) ->
  (i <= j < i + length rules)%nat.
Proof.
  induction rules as [|x rules IH]; intros i o m j r H; cbn [match_dns_loop] in H; [done|].
  assert (forall o m, dm_rule (match_dns_loop w store allowFakeIP addressQuery (i + 1) rules o m) = Some (j, r) ->
    (i <= j < i + length (x :: rules))%nat) as Hnext.
  { intros o1 m1 H1. apply IH in H1. simpl. lia. }
  repeat case_match; simpl in *; simplify_eq; try (by eapply Hnext); lia.
Qed.

(** The search after an index finds a larger one. *)
Lemma matchDNS_index rules ruleIndex o m j r :
  dm_rule (matchDNS w store allowFakeIP addressQuery rules ruleIndex o m) = Some (j, r) ->
  (first_index ruleIndex <= j < length rules)%nat.
Proof.
  unfold matchDNS. intros H%match_dns_loop_index. rewrite length_drop in H. lia.
Qed.
End Pick.

(** ** Termination *)

(** What a retry continues from. *)
Lemma retry_index allowFakeIP addressQuery rules ruleIndex o m sel :
  sel = dm_rule (matchDNS w store allowFakeIP addressQuery rules ruleIndex o m) -> sel <> None ->
  (first_index ruleIndex < first_index (sel_index sel) <= length rules)%nat.
Proof.
  intros -> H. destruct (dm_rule _) as [[j r]|] eqn:E; [|done]. apply matchDNS_index in E. simpl. lia.
Qed.

Lemma exchange_loop_total rules strategy message o fuel : forall ruleIndex m d,
  (first_index ruleIndex <= length rules < first_index ruleIndex + fuel)%nat ->
  exchange_loop w store rules strategy message o fuel ruleIndex m d <> None.
Proof.
  induction fuel as [|fuel IH]; intros ruleIndex m d H; cbn [exchange_loop]; [lia|].
  set (dm := matchDNS _ _ _ _ _ _ _ _). set (sel := dm_rule dm).
  assert (forall m d, sel <> None -> exchange_loop w store rules strategy message o fuel (sel_index sel) m d <> None) as Hnext.
  { intros m1 d1 Hs. apply IH. pose proof (retry_index _ _ _ _ _ _ sel eq_refl Hs). lia. }
  assert (has_check (response_check w store sel) = true -> sel <> None) as Hc.
  { intros H1 H2. by rewrite H2 in H1. }
  assert (sel_bypass sel = true -> sel <> None) as Hb by (intros H1 H2; by rewrite H2 in H1).
  clearbody sel. destruct (run_checked _ _ _) as [[[response|e|msg] d1] m1]; repeat case_match; try done;
    apply Hnext; repeat match goal with H : _ && _ = true |- _ => apply andb_true_iff in H as [? ?] end; auto.
Qed.

Lemma lookup_loop_total now rules strategy domain o fuel : forall ruleIndex addresses err m d,
  (first_index ruleIndex <= length rules < first_index ruleIndex + fuel)%nat ->
  lookup_loop w store now rules strategy domain o fuel ruleIndex addresses err m d <> None.
Proof.
  induction fuel as [|fuel IH]; intros ruleIndex addresses err m d H; cbn [lookup_loop]; [lia|].
  set (dm := matchDNS _ _ _ _ _ _ _ _). set (sel := dm_rule dm).
  assert (forall addresses err m d, sel <> None ->
    lookup_loop w store now rules strategy domain o fuel (sel_index sel) addresses err m d <> None) as Hnext.
  { intros a1 e1 m1 d1 Hs. apply IH. pose proof (retry_index _ _ _ _ _ _ sel eq_refl Hs). lia. }
  assert (has_check (response_check w store sel) = true -> sel <> None) as Hc.
  { intros H1 H2. by rewrite H2 in H1. }
  clearbody sel. destruct (run_checked _ _ _) as [[[[a1 e1]|msg] d1] m1]; repeat case_match; try done; apply Hnext;
    try (by destruct sel); apply Hc; by destruct (has_check _).
Qed.

(** C40: [Exchange] and [Lookup] always end: every retry continues after the rule that was tried, so
    one turn per rule and one for the default server are enough, whatever the client answers and
    whatever the rules are. *)
Theorem dns_router_terminates now message domain o m r d :
  Exchange w store message o m r d <> None /\ Lookup w store now domain o m r d <> None.
Proof.
  split.
  - unfold Exchange. destruct (msg_Question message) as [|q [|? ?]]; try done.
    destruct (_ ≫= _) as [t|].
    + by destruct (run_checked _ _ _) as [[[]] ?].
    + pose proof (exchange_loop_total (dr_rules r) (dr_defaultDomainStrategy r) message o
        (dns_fuel (dr_rules r)) None (query_metadata q m) d) as H.
      destruct (exchange_loop _ _ _ _ _ _ _ _ _ _) as [[[[|[]] ?] ?]|]; try done.
      exfalso. apply H; [|done]. unfold dns_fuel. simpl. lia.
  - unfold Lookup. destruct (_ ≫= _) as [t|].
    + by destruct (run_checked _ _ _) as [[[[]|] ?] ?].
    + pose proof (lookup_loop_total now (dr_rules r) (dr_defaultDomainStrategy r) domain o
        (dns_fuel (dr_rules r)) None [] None (lookup_metadata domain m) d) as H.
      destruct (lookup_loop _ _ _ _ _ _ _ _ _ _ _ _ _) as [[[[] ?] ?]|]; try done.
      exfalso. apply H; [|done]. unfold dns_fuel. simpl. lia.
Qed.
End Laws.

(** ** Retries *)

Section Retries.
Context {X : Externals} {DL : DNSLibrary} {V : DNSServices} {T : Type} {A : AdapterRuleSet T}.
Variable w : World.
Variable store : gmap string T.

(** A turn whose server fails and may be bypassed, and one that ends with a predefined answer. *)
Lemma lookup_turn_bypass now rules strategy domain o fuel ruleIndex addresses err m d j r e d1 m1 :
  let dm := matchDNS w store false true rules ruleIndex o m in
  let check := response_check w store (Some (j, r)) in
  dm_rule dm = Some (j, r) -> DNSRule_BypassIfFailed r = true ->
  run_checked check (client_Lookup m (dm_transport dm) domain
    (default_strategy strategy (dm_options dm)) (has_check check) d) (dm_md dm) = (inl ([], e), d1, m1) ->
  lookup_loop w store now rules strategy domain o (S fuel) ruleIndex addresses err m d =
  lookup_loop w store now rules strategy domain o fuel (Some j) [] e m1 d1.
Proof.
  intros dm check H1 Hb Hc. cbn [lookup_loop]. fold dm. rewrite H1. fold check. rewrite Hc.
  assert (exists server a, DNSRule_Action r = Some (ActDNSRoute server a)) as (server & a & Ha).
  { unfold DNSRule_BypassIfFailed in Hb. destruct (DNSRule_Action r) as [[]|]; try done. eauto. }
  unfold sel_action. cbn [mbind option_bind snd]. rewrite Ha. simpl. by rewrite Hb.
Qed.
Lemma lookup_turn_predefined now rules strategy domain o fuel ruleIndex addresses err m d j r p :
  dm_rule (matchDNS w store false true rules ruleIndex o m) = Some (j, r) ->
  DNSRule_Action r = Some (ActPredefined p) -> pd_Rcode p = RcodeSuccess ->
  lookup_loop w store now rules strategy domain o (S fuel) ruleIndex addresses err m d =
  Some (LkResponse (FilterBlocked (addresses ++ answer_addresses (pd_Answer p))%list) err, rules, d).
Proof.
  intros H1 Ha Hrc. cbn [lookup_loop]. rewrite H1. unfold sel_action. cbn [mbind option_bind snd]. by rewrite Ha, Hrc.
Qed.

(** An error outlives the answer that follows it: when the server of a rule with
    [bypass_if_failed] gives no address and an error, and the next rule that matches is a
    predefined answer with addresses, [Lookup] returns these addresses together with the error of
    the failed server, as a failed lookup. *)
Theorem lookup_predefined_keeps_error now domain o m r d r1 r2 p e d1 m1 :
  dr_rules r = [r1; r2] -> dq_Transport o = None ->
  let dm1 := matchDNS w store false true [r1; r2] None o (lookup_metadata domain m) in
  dm_rule dm1 = Some (0%nat, r1) -> DNSRule_BypassIfFailed r1 = true ->
  run_checked (response_check w store (Some (0%nat, r1)))
    (client_Lookup (lookup_metadata domain m) (dm_transport dm1) domain
       (default_strategy (dr_defaultDomainStrategy r) (dm_options dm1))
       (has_check (response_check w store (Some (0%nat, r1)))) d) (dm_md dm1)
    = (inl ([], Some e), d1, m1) ->
  dm_rule (matchDNS w store false true [r1; r2] (Some 0%nat) o m1) = Some (1%nat, r2) ->
  DNSRule_Action r2 = Some (ActPredefined p) -> pd_Rcode p = RcodeSuccess ->
  Lookup w store now domain o m r d =
    Some (Ok (FilterBlocked (answer_addresses (pd_Answer p)), Some (ECause e ("lookup " +:+ domain))), r, d1).
Proof.
  intros Hr Ho dm1 H1 Hb Hc H2 Ha Hrc. unfold Lookup. rewrite Ho, Hr. simpl mbind.
  unfold dns_fuel. cbn [length]. cbn iota.
  rewrite (lookup_turn_bypass now [r1; r2] _ domain o 2 None [] None _ d 0%nat r1 (Some e) d1 m1 H1 Hb Hc).
  rewrite (lookup_turn_predefined now [r1; r2] _ domain o 1 (Some 0%nat) [] (Some e) m1 d1 1%nat r2 p H2 Ha Hrc).
  by destruct r; simpl in *; subst.
Qed.
End Retries.

(** ** Concrete queries *)

Section Concrete.
#[local] Existing Instance sample.

Definition ip4 (a b c d : N) : Addr := Addr4 (a * 2 ^ 24 + b * 2 ^ 16 + c * 2 ^ 8 + d).

(** Two servers: [a] answers 10.0.0.1 and [b] 8.8.8.8; [down] fails.  The client asks the checker
    once.  Its state counts the queries. *)
Definition sample_answer (tag : string) : option Addr :=
  if bool_decide (tag = "a") then Some (ip4 10 0 0 1)
  else if bool_decide (tag = "b" \/ tag = "both") then Some (ip4 8 8 8 8)
  else None.
Definition sample_response (message : Msg) (a : Addr) : Msg :=
  mkMsg (msg_Id message) true false true true 0 (msg_Question message) [mkRR "example.org." TypeA ClassINET 60 (RR_A a)] [] [].
Definition sample_dns_services : DNSServices := {|
  ClientState := nat;
  client_Exchange _ t message _ check d :=
    match t ≫= fun t => sample_answer (tp_Tag t) with
    | None => ClientDone (Err (ELib "timeout")) (S d)
    | Some a =>
        if check then ClientCheck [a] (fun ok : bool =>
          if ok then ClientDone (Ok (sample_response message a)) (S d)
          else ClientDone (Err ErrResponseRejected) (S d))
        else ClientDone (Ok (sample_response message a)) (S d)
    end;
  client_Lookup _ t _ _ check d :=
    match t ≫= fun t => sample_answer (tp_Tag t) with
    | None => ClientDone (inl ([], Some (ELib "timeout"))) (S d)
    | Some a =>
        if bool_decide ((tp_Tag <$> t) = Some "both") && check then
          ClientCheck [ip4 192 168 0 1] (fun ok4 : bool => ClientCheck [a] (fun ok6 : bool =>
            ClientDone (inl ((if ok4 then [ip4 192 168 0 1] else []) ++ (if ok6 then [a] else []), None)%list) (S d)))
        else if check then ClientCheck [a] (fun ok : bool =>
          if ok then ClientDone (inl ([a], None)) (S d) else ClientDone (inl ([], Some ErrResponseRejected)) (S d))
        else ClientDone (inl ([a], None)) (S d)
    end;
  ctx_Done _ := false;
  transport_Transport tag :=
    if bool_decide (tag = "fake") then Some (mkTransport "fake" true None) else Some (mkTransport tag false None);
  transport_Default := Some (mkTransport "default" false None)
|}.
#[local] Existing Instance sample_dns_services.
#[local] Existing Instance sample_dns_library.

Definition simple_dns_rule (cidr : list RuleItem) (inv : bool) (a : RuleAction) : DNSRule :=
  DefaultDNSRule (mkDefaultRule [] [] [] [] cidr [] cidr inv (Some a)).
Definition to_server (server : string) (bypass : bool) : RuleAction :=
  ActDNSRoute server (mkDNSRouteOptions 0 false None Prefix_zero bypass).
Definition cidr_item (cidr : string) : list RuleItem :=
  match NewIPCIDRItem false [cidr] with Ok i => [ItemBase (IIPCIDR i)] | _ => [] end.
Definition no_dns_options : DNSQueryOptions := mkDNSQueryOptions None 0 0 false None Prefix_zero.
Definition query_context : InboundContext := sample_context "" AddrNone 0.

(** The client after [n] queries. *)
Definition client_at (n : nat) : ClientState := n.

(** A fake address is not given to [Lookup] by a rule; a rule that may not be used is passed
    over and the default server answers (a run of [matchDNS_first_match]). *)
Lemma matchDNS_first_match_witness :
  let rules := [simple_dns_rule (cidr_item "10.0.0.0/8") false (to_server "a" false);
                DefaultDNSRule (mkDefaultRule [ItemBase (IPort (NewPortItem false [0%N]))] [] [] [] [] []
                  [ItemBase (IPort (NewPortItem false [0%N]))] false (Some (to_server "fake" false)));
                DefaultDNSRule (mkDefaultRule [ItemBase (IPort (NewPortItem false [0%N]))] [] [] [] [] []
                  [ItemBase (IPort (NewPortItem false [0%N]))] false (Some (to_server "b" false)))] in
  let pick allow query := fst <$> dm_rule (matchDNS sample_world (∅ : gmap string RuleSet) allow query rules None no_dns_options query_context) in
  pick false false = Some 2%nat /\ pick true false = Some 1%nat.
Proof.
  intros rules pick. unfold pick.
  split; [destruct (matchDNS_first_match sample_world ∅ false false rules None no_dns_options query_context eq_refl) as [-> _]
         |destruct (matchDNS_first_match sample_world ∅ true false rules None no_dns_options query_context eq_refl) as [-> _]];
    vm_compute; reflexivity.
Defined.

Definition down_rule : DNSRule :=
  DefaultDNSRule (mkDefaultRule [ItemBase (IPort (NewPortItem false [0%N]))] [] [] [] [] []
    [ItemBase (IPort (NewPortItem false [0%N]))] false (Some (to_server "down" true))).
Definition predefined_rule : DNSRule :=
  DefaultDNSRule (mkDefaultRule [ItemBase (IPort (NewPortItem false [0%N]))] [] [] [] [] []
    [ItemBase (IPort (NewPortItem false [0%N]))] false
    (Some (ActPredefined (mkPredefined 0 [mkRR "example.org." TypeA ClassINET 60 (RR_A (ip4 1 2 3 4))] [] [])))).

Lemma lookup_predefined_keeps_error_witness :
  Lookup sample_world (∅ : gmap string RuleSet) 0 "example.org" no_dns_options query_context
    (mkDNSRouter [down_rule; predefined_rule] 0 None) (client_at 0) =
  Some (Ok ([ip4 1 2 3 4], Some (ECause (ELib "timeout") "lookup example.org")),
        mkDNSRouter [down_rule; predefined_rule] 0 None, client_at 1).
Proof.
  rewrite (lookup_predefined_keeps_error sample_world ∅ 0 "example.org" no_dns_options query_context
    (mkDNSRouter [down_rule; predefined_rule] 0 None) (client_at 0) down_rule predefined_rule
    (mkPredefined 0 [mkRR "example.org." TypeA ClassINET 60 (RR_A (ip4 1 2 3 4))] [] []) (ELib "timeout") (client_at 1)
    (dm_md (matchDNS sample_world ∅ false true [down_rule; predefined_rule] None no_dns_options (lookup_metadata "example.org" query_context)))); reflexivity.
Defined.

(** The match flags of one response decide the check of the next.  [Lookup] of both families asks the check for each of them, on one metadata: after
    192.168.0.1 has passed the filter of the rule, 8.8.8.8 passes too, although alone it is rejected. *)
Definition limited_to (server : string) : DNSRule := simple_dns_rule (cidr_item "192.168.0.0/16") false (to_server server false).
Definition looked_up (r : option (result (list Addr * option error) * DNSRouter * ClientState)) : option (list Addr) :=
  match r with Some (Ok (l, None), _, _) => Some l | _ => None end.
Theorem address_limit_leaks :
  looked_up (Lookup sample_world (∅ : gmap string RuleSet) 0 "example.org" no_dns_options query_context
    (mkDNSRouter [limited_to "both"] 0 None) (client_at 0)) = Some [ip4 192 168 0 1; ip4 8 8 8 8] /\
  (exists e, fst (fst (default (Panic "", mkDNSRouter [] 0 None, client_at 0) (Lookup sample_world (∅ : gmap string RuleSet) 0 "example.org" no_dns_options query_context
    (mkDNSRouter [limited_to "b"; down_rule] 0 None) (client_at 0)))) = Ok ([], Some e)).
Proof. split; [vm_compute; reflexivity|eexists; vm_compute; reflexivity]. Qed.
End Concrete.
