(* ===== verification/DNSClient.v ===== *)
(** * DNSClient: the DNS client and its cache

    dns/client.go: [Exchange], [Lookup], the cache of answers, and rejected answers (RDRC).  The
    cache itself (freelru), the transports, the clock and the RDRC store are interfaces.  A call of
    the client is a run ([client_run]) that asks the checker of the caller before it ends.

    A call is atomic here: the channels in [cacheLock] only make a second query for a name wait for
    the first.  A response is stored in the cache by reference and changed afterwards (its id and
    its OPT record); the cache therefore holds what is returned. *)

From S2P Require Import Prelude GoStd NetIP DNSMessage Metadata Adapter Router DNSRouter.
Open Scope string_scope.
Open Scope list_scope.

(** ** Interfaces *)

(** The key of the cache: the question, with the tag of the transport in an independent cache. *)
Record cache_key : Type := mkCacheKey { ck_Question : Question; ck_transportTag : option string }.
#[export] Instance cache_key_eq_dec : EqDecision cache_key.
Proof. solve_decision. Defined.

(** Times are in nanoseconds.  [GetWithLifetime] answers the value and the time it expires. *)
Class DNSCache : Type := {
  CacheState : Type;
  cache_Get : Z -> cache_key -> CacheState -> option Msg * CacheState;
  cache_GetWithLifetime : Z -> cache_key -> CacheState -> option (Msg * Z) * CacheState;
  cache_Add : cache_key -> Msg -> CacheState -> CacheState;
  cache_AddWithLifetime : Z -> cache_key -> Msg -> Z -> CacheState -> CacheState;
  cache_Remove : cache_key -> CacheState -> CacheState;
  cache_Purge : CacheState -> CacheState
}.

(** What surrounds the client: transports, clock and RDRC store, on a state of their own.  A
    transport is given the tag in the context of the query. *)
Class DNSEnvironment : Type := {
  EnvState : Type;
  transport_Exchange : Transport -> option string -> Msg -> EnvState -> result Msg * EnvState;
  time_Now : EnvState -> Z;
  LoadRDRC : string -> string -> N -> EnvState -> bool;
  SaveRDRCAsync : string -> string -> N -> EnvState -> EnvState;
  (* the error of a [task.Group] of two tasks, from theirs *)
  group_error : option error -> option error -> option error
}.

Record ClientOptions : Type := mkClientOptions {
  DisableCache : bool;
  DisableExpire : bool;
  IndependentCache : bool;
  ClientSubnet : Prefix
}.

(** The client without its cache, which is part of the state. *)
Record Client : Type := mkClient {
  c_disableCache : bool;
  c_disableExpire : bool;
  c_independentCache : bool;
  c_clientSubnet : Prefix;
  c_rdrc : bool            (* [c.rdrc] is not nil *)
}.
Definition NewClient (options : ClientOptions) : Client :=
  mkClient (DisableCache options) (DisableExpire options) (IndependentCache options) (ClientSubnet options) false.
(** [initRDRC]: what [initRDRCFunc] finds, if there is such a function. *)
Definition Client_Start (initRDRC : option bool) (c : Client) : Client :=
  match initRDRC with
  | Some found =>
      mkClient (c_disableCache c) (c_disableExpire c) (c_independentCache c) (c_clientSubnet c) found
  | None => c
  end.

Definition ErrNotCached : error := ELib "dns.ErrNotCached".
Definition nanoseconds : Z := 1000000000.

(** ** Runs *)

Fixpoint client_bind {D R R'} (c : client_run D R) (f : R -> D -> client_run D R') : client_run D R' :=
  match c with
  | ClientDone r d => f r d
  | ClientCheck addresses k => ClientCheck addresses (fun b => client_bind (k b) f)
  end.

Section Client.
Context {DL : DNSLibrary} {DC : DNSCache} {DE : DNSEnvironment}.
Variable c : Client.

(** The cache and the surroundings. *)
Record DNSState : Type := mkDNSState { ds_cache : CacheState; ds_env : EnvState }.
Definition set_env (e : EnvState) (d : DNSState) : DNSState := mkDNSState (ds_cache d) e.
Definition set_cache (s : CacheState) (d : DNSState) : DNSState := mkDNSState s (ds_env d).
Abbreviation run := (client_run DNSState).

(** ** TTLs *)

Definition extractNegativeTTL (response : Msg) : option N :=
  head (omap (fun r => match rr_Data r with RR_SOA minttl => Some (N.min (rr_Ttl r) minttl) | _ => None end)
         (msg_Ns response)).

(** [if ttl == 0 || record.Header().Ttl > 0 && record.Header().Ttl < ttl { ttl = ... }]. *)
Definition lower_ttl (ttl : N) (r : RR) : N :=
  if (ttl =? 0)%N || (0 <? rr_Ttl r)%N && (rr_Ttl r <? ttl)%N then rr_Ttl r else ttl.
Definition records_ttl (ttl : N) (m : Msg) : N := foldl lower_ttl ttl (msg_records m).

Definition response_ttl (rewrite : option N) (response : Msg) : N :=
  let ttl :=
    match msg_Answer response with [] => default 0%N (extractNegativeTTL response) | _ => 0%N end in
  let ttl := if (ttl =? 0)%N then records_ttl ttl response else ttl in
  default ttl rewrite.

(** ** The cache *)

Definition key_of (question : Question) (transport : option Transport) : result cache_key :=
  if negb (c_independentCache c) then Ok (mkCacheKey question None)
  else match transport with
       | Some t => Ok (mkCacheKey question (Some (tp_Tag t)))
       | None => Panic nil_pointer
       end.

Definition storeCache (question : Question) (transport : option Transport) (message : Msg) (timeToLive : N)
  (d : DNSState) : result DNSState :=
  if (timeToLive =? 0)%N then Ok d
  else
    let! key := key_of question transport in
    Ok (set_cache
          (if c_disableExpire c then cache_Add key message (ds_cache d)
           else cache_AddWithLifetime (time_Now (ds_env d)) key message (nanoseconds * Z.of_N timeToLive) (ds_cache d)) d).

(** The remaining seconds ([Duration.Seconds] cut to an integer), and the copy of a cached message
    with the TTLs that remain: each one less the seconds that have passed, modulo [2^32]. *)
Definition remaining (expireAt now : Z) : Z := Z.max 0 (Z.quot (expireAt - now) nanoseconds).
Definition age_message (nowTTL : Z) (response : Msg) : Msg :=
  let originTTL := records_ttl 0 response in
  if (0 <? originTTL)%N then
    let duration := ((Z.of_N originTTL - nowTTL) mod 2 ^ 32)%Z in
    map_records (fun r => set_rr_Ttl (Z.to_N ((Z.of_N (rr_Ttl r) - duration) mod 2 ^ 32)) r) response
  else map_records (set_rr_Ttl (Z.to_N (nowTTL mod 2 ^ 32))) response.

Definition loadResponse (question : Question) (transport : option Transport) (d : DNSState)
  : result (option Msg) * DNSState :=
  match key_of question transport with
  | Ok key =>
      if c_disableExpire c then
        let '(r, s) := cache_Get (time_Now (ds_env d)) key (ds_cache d) in (Ok r, set_cache s d)
      else
        let now := time_Now (ds_env d) in
        let '(r, s) := cache_GetWithLifetime now key (ds_cache d) in
        match r with
        | None => (Ok None, set_cache s d)
        | Some (response, expireAt) =>
            if (expireAt <? now)%Z then (Ok None, set_cache (cache_Remove key s) d)
            else (Ok (Some (age_message (remaining expireAt now) response)), set_cache s d)
        end
  | Err e => (Err e, d)
  | Panic msg => (Panic msg, d)
  end.

(** ** [Exchange] *)

(** [isSimpleRequest]: one question, no records but an empty OPT record, no subnet of its own. *)
Definition empty_opt (r : RR) : bool :=
  match rr_Data r with
  | RR_OPT options =>
      (rr_Rrtype r =? TypeOPT)%N && (0 <? rr_Class r)%N && (rr_Ttl r =? 0)%N && negb (nonempty options)
  | _ => false
  end.
Definition isSimpleRequest (message : Msg) (options : DNSQueryOptions) : bool :=
  (length (msg_Question message) =? 1)%nat && negb (nonempty (msg_Ns message)) &&
  match msg_Extra message with [] => true | [r] => empty_opt r | _ => false end &&
  negb (Prefix_IsValid (dq_ClientSubnet options)).

Definition strategy_rejected (question : Question) (options : DNSQueryOptions) : bool :=
  (q_Qtype question =? TypeA)%N && (dq_Strategy options =? DomainStrategyIPv6Only)%N ||
  (q_Qtype question =? TypeAAAA)%N && (dq_Strategy options =? DomainStrategyIPv4Only)%N.

(** Hints of the family that is not wanted are taken out of the HTTPS records. *)
Definition filter_hints (options : DNSQueryOptions) (r : RR) : RR :=
  match rr_Data r with
  | RR_HTTPS values =>
      set_rr_Data (RR_HTTPS (List.filter (fun v : N * string =>
        if (dq_Strategy options =? DomainStrategyIPv4Only)%N then negb (fst v =? SVCB_IPV6HINT)%N
        else negb (fst v =? SVCB_IPV4HINT)%N) values)) r
  | _ => r
  end.
Definition filter_https (question : Question) (options : DNSQueryOptions) (response : Msg) : Msg :=
  if (q_Qtype question =? TypeHTTPS)%N &&
     ((dq_Strategy options =? DomainStrategyIPv4Only)%N || (dq_Strategy options =? DomainStrategyIPv6Only)%N)
  then set_msg_Answer (map (filter_hints options) (msg_Answer response)) response
  else response.

(** The OPT record of the response is dropped when the request has none or an older one, and in
    that case written anew. *)
Definition restore_edns (message response : Msg) : Msg :=
  match IsEdns0 response with
  | None => response
  | Some o =>
      let drop_opt := set_msg_Extra (List.filter (fun r => negb (rr_Rrtype r =? TypeOPT)%N) (msg_Extra response)) response in
      match IsEdns0 message with
      | None => drop_opt
      | Some q =>
          if (opt_Version q <? opt_Version o)%N
          then set_msg_Extra (msg_Extra drop_opt ++ [NewEdns0 (opt_UDPSize o) (opt_Do o)]) drop_opt
          else response
      end
  end.

(** From the response accepted to the one returned. *)
Definition finish_response (question : Question) (options : DNSQueryOptions) (message response : Msg) : Msg * N :=
  let response := filter_https question options response in
  let timeToLive := response_ttl (dq_RewriteTTL options) response in
  let response := map_records (set_rr_Ttl timeToLive) response in
  (restore_edns message (set_msg_Id (msg_Id message) response), timeToLive).

Definition loopback_error (tag : string) : error := ENew ("DNS query loopback in transport[" +:+ tag +:+ "]").

(** The end of [Exchange]: the response is accepted. *)
Definition accept (question : Question) (transport : Transport) (options : DNSQueryOptions) (disableCache : bool)
  (message response : Msg) (d : DNSState) : run (result Msg) :=
  let '(response, timeToLive) := finish_response question options message response in
  if disableCache then ClientDone (Ok response) d
  else
    match storeCache question (Some transport) response timeToLive d with
    | Ok d => ClientDone (Ok response) d
    | Err e => ClientDone (Err e) d
    | Panic msg => ClientDone (Panic msg) d
    end.

(** Its middle: the transport is asked and the response checked. *)
Definition ask (question : Question) (transport : Transport) (options : DNSQueryOptions) (checker disableCache : bool)
  (message : Msg) (d : DNSState) : run (result Msg) :=
  let '(r, env) := transport_Exchange transport (Some (tp_Tag transport)) message (ds_env d) in
  let d := set_env env d in
  let r :=
    match r with
    | Err e =>
        match As_RcodeError e with Some rcode => Ok (FixedResponseStatus message rcode) | None => Err e end
    | r => r
    end in
  match r with
  | Err e => ClientDone (Err e) d
  | Panic msg => ClientDone (Panic msg) d
  | Ok response =>
      let disableCache :=
        disableCache || negb (msg_Rcode response =? RcodeSuccess)%Z && negb (msg_Rcode response =? RcodeNameError)%Z in
      let accepted := accept question transport options disableCache message response d in
      let rejected :=
        ClientDone (Err ErrResponseRejected)
          (if negb disableCache && c_rdrc c
           then set_env (SaveRDRCAsync (tp_Tag transport) (q_Name question) (q_Qtype question) (ds_env d)) d else d) in
      if negb checker then accepted
      else if negb (msg_Rcode response =? RcodeSuccess)%Z || negb (nonempty (msg_Answer response)) then rejected
      else ClientCheck (MessageToAddresses response) (fun ok : bool => if ok then accepted else rejected)
  end.

Definition Client_Exchange (contextTag : option string) (transport : option Transport) (message : Msg)
  (options : DNSQueryOptions) (checker : bool) (d : DNSState) : run (result Msg) :=
  match msg_Question message with
  | [] => ClientDone (Ok (FixedResponseStatus message RcodeFormatError)) d
  | question :: _ =>
      if strategy_rejected question options then ClientDone (Ok (FixedResponseStatus message RcodeSuccess)) d
      else
        let clientSubnet := if Prefix_IsValid (dq_ClientSubnet options) then dq_ClientSubnet options else c_clientSubnet c in
        let message := if Prefix_IsValid clientSubnet then SetClientSubnet message clientSubnet else message in
        let disableCache := negb (isSimpleRequest message options) || c_disableCache c || dq_DisableCache options in
        let '(cached, d) := if disableCache then (Ok None, d) else loadResponse question transport d in
        match cached with
        | Err e => ClientDone (Err e) d
        | Panic msg => ClientDone (Panic msg) d
        | Ok (Some response) => ClientDone (Ok (set_msg_Id (msg_Id message) response)) d
        | Ok None =>
            match transport with
            | None => ClientDone (Panic nil_pointer) d
            | Some t =>
                if bool_decide (contextTag = Some (tp_Tag t)) then ClientDone (Err (loopback_error (tp_Tag t))) d
                else if negb disableCache && checker && c_rdrc c && LoadRDRC (tp_Tag t) (q_Name question) (q_Qtype question) (ds_env d)
                then ClientDone (Err ErrResponseRejectedCached) d
                else ask question t options checker disableCache message d
            end
        end
  end.

(** ** [Lookup] *)

Definition questionCache (question : Question) (transport : option Transport) (d : DNSState)
  : result (list Addr) * DNSState :=
  let '(r, d) := loadResponse question transport d in
  (let! response := r in
   match response with
   | None => Err ErrNotCached
   | Some response =>
       if negb (msg_Rcode response =? RcodeSuccess)%Z then Err (RcodeError (msg_Rcode response))
       else Ok (MessageToAddresses response)
   end, d).

Definition lookup_message (question : Question) : Msg :=
  mkMsg 0 false false true false 0 [question] [] [] [].

(** The query itself and what is made of its response. *)
Definition exchange_addresses (contextTag : option string) (transport : option Transport) (question : Question)
  (options : DNSQueryOptions) (checker : bool) (d : DNSState) : run (result (list Addr)) :=
  client_bind (Client_Exchange contextTag transport (lookup_message question) options checker d) (fun r d =>
    ClientDone (let! response := r in
                if negb (msg_Rcode response =? RcodeSuccess)%Z then Err (RcodeError (msg_Rcode response))
                else Ok (MessageToAddresses response)) d).

Definition lookupToExchange (contextTag : option string) (transport : option Transport) (name : string) (qType : N)
  (options : DNSQueryOptions) (checker : bool) (d : DNSState) : run (result (list Addr)) :=
  let question := mkQuestion name qType ClassINET in
  let exchange := exchange_addresses contextTag transport question options checker in
  if c_disableCache c || dq_DisableCache options then exchange d
  else
    let '(r, d) := questionCache question transport d in
    if bool_decide (r = Err ErrNotCached) then exchange d else ClientDone r d.

Definition sortAddresses (response4 response6 : list Addr) (strategy : N) : list Addr :=
  if (strategy =? DomainStrategyPreferIPv6)%N then response6 ++ response4 else response4 ++ response6.

(** What a task leaves: its addresses and its error; a panic ends the program. *)
Definition task_result (r : result (list Addr)) : list Addr * option error + string :=
  match r with Ok l => inl (l, None) | Err e => inl ([], Some e) | Panic msg => inr msg end.

(** Both families are asked at once; here the queries for A are before those for AAAA, or after
    them ([sixFirst]). *)
Definition lookup_both (sixFirst : bool) (contextTag : option string) (transport : option Transport) (name : string)
  (options : DNSQueryOptions) (checker : bool) (d : DNSState)
  : run (result (list Addr) * result (list Addr)) :=
  let one t := lookupToExchange contextTag transport name t options checker in
  if sixFirst then
    client_bind (one TypeAAAA d) (fun r6 d => client_bind (one TypeA d) (fun r4 d => ClientDone (r4, r6) d))
  else
    client_bind (one TypeA d) (fun r4 d => client_bind (one TypeAAAA d) (fun r6 d => ClientDone (r4, r6) d)).

Definition Client_Lookup (sixFirst : bool) (contextTag : option string) (transport : option Transport) (domain : string)
  (options : DNSQueryOptions) (checker : bool) (d : DNSState)
  : run (list Addr * option error + string) :=
  let dnsName := mDNS_Fqdn (FqdnToDomain domain) in
  let strategy := if negb (dq_LookupStrategy options =? DomainStrategyAsIS)%N then dq_LookupStrategy options else dq_Strategy options in
  let one t :=
    client_bind (lookupToExchange contextTag transport dnsName t options checker d)
      (fun r d => ClientDone (task_result r) d) in
  if (strategy =? DomainStrategyIPv4Only)%N then one TypeA
  else if (strategy =? DomainStrategyIPv6Only)%N then one TypeAAAA
  else
    client_bind (lookup_both sixFirst contextTag transport dnsName options checker d) (fun r d =>
      ClientDone
        match task_result (fst r), task_result (snd r) with
        | inr msg, _ | _, inr msg => inr msg
        | inl (response4, err4), inl (response6, err6) =>
            inl (if negb (nonempty response4) && negb (nonempty response6) then ([], group_error err4 err6)
                 else (sortAddresses response4 response6 strategy, None))
        end d).

Definition ClearCache (d : DNSState) : DNSState := set_cache (cache_Purge (ds_cache d)) d.
End Client.

(** The client as the services of the DNS router; the manager of the transports and the context
    are what is left. *)
Definition client_services {DL : DNSLibrary} {DC : DNSCache} {DE : DNSEnvironment} (c : Client) (sixFirst : bool)
  (contextTag : option string) (done : EnvState -> bool) (transports : string -> option Transport)
  (defaultTransport : option Transport) : DNSServices := {|
  ClientState := DNSState;
  client_Exchange _ t message options checker d := Client_Exchange c contextTag t message options checker d;
  client_Lookup _ t domain options checker d := Client_Lookup c sixFirst contextTag t domain options checker d;
  ctx_Done d := done (ds_env d);
  transport_Transport := transports;
  transport_Default := defaultTransport
|}.
