(* ===== verification/Lifecycle.v ===== *)
(** * Lifecycle: start stages and the objects the managers keep

    [adapter.StartStage], [adapter.LegacyStart] (adapter/lifecycle.go, lifecycle_legacy.go), and
    what the five managers of the engine share: the stage loop, closing, and the start in
    dependency order (adapter/outbound/manager.go [startOutbounds] and dns/transport_manager.go
    [startTransports], the same code twice).

    A managed object (an outbound, an endpoint, a DNS transport, ...) is a value of a type [O] whose
    equality is the pointer equality of the Go interface values.  What its methods do is a
    parameter: a call may fail and changes a state [LState]. *)

From S2P Require Import Prelude GoStd.
From stdpp Require Import sets gmap.
Open Scope string_scope.

(** ** Stages *)

Inductive StartStage : Type :=
| StartStateInitialize
| StartStateStart
| StartStatePostStart
| StartStateStarted.

#[export] Instance StartStage_eq_dec : EqDecision StartStage.
Proof. solve_decision. Defined.

(** The number of a stage ([iota]). *)
Definition stage_number (s : StartStage) : N :=
  match s with
  | StartStateInitialize => 0 | StartStateStart => 1 | StartStatePostStart => 2 | StartStateStarted => 3
  end.
Definition ListStartStages : list StartStage :=
  [StartStateInitialize; StartStateStart; StartStatePostStart; StartStateStarted].
Definition StartStage_String (s : StartStage) : string :=
  match s with
  | StartStateInitialize => "initialize" | StartStateStart => "start"
  | StartStatePostStart => "post-start" | StartStateStarted => "finish-start"
  end.

(** ** Objects *)

(** The methods an object may have and that the managers call. *)
Inductive method : Type :=
| MStart (stage : StartStage)
| MPreStart
| MLegacyStart
| MPostStart
| MClose.

#[export] Instance method_eq_dec : EqDecision method.
Proof. solve_decision. Defined.

(** What is known of an object without calling it: its type and tag, the tags it depends on, and
    the interfaces it implements: [adapter.Lifecycle] or one of the legacy methods. *)
Class Component (O : Type) : Type := {
  comp_eq_dec :: EqDecision O;
  Type_ : O -> string;
  Tag : O -> string;
  Dependencies : O -> list string;
  isLifecycle : O -> bool;
  isPreStarter : O -> bool;
  isStarter : O -> bool;
  isPostStarter : O -> bool
}.

(** What the methods do; [common_Close] is sing's [common.Close], [Error] renders an error. *)
Class Lifecycle (O : Type) : Type := {
  LState : Type;
  call : method -> O -> LState -> option error * LState;
  common_Close : O -> LState -> option error * LState;
  Error : error -> string
}.

Section Lifecycle.
Context {O : Type} {C : Component O} {L : Lifecycle O}.

Definition call_if (b : bool) (c : method) (o : O) (s : LState) : option error * LState :=
  if b then call c o s else (None, s).

Definition LegacyStart (o : O) (stage : StartStage) (s : LState) : option error * LState :=
  if isLifecycle o then call (MStart stage) o s
  else match stage with
       | StartStateInitialize => call_if (isPreStarter o) MPreStart o s
       | StartStateStart => call_if (isStarter o) MLegacyStart o s
       | StartStateStarted => call_if (isPostStarter o) MPostStart o s
       | StartStatePostStart => (None, s)
       end.

(** [kind/type[tag]]: how the managers call an object in messages. *)
Definition object_name (kind : string) (o : O) : string := kind +:+ Type_ o +:+ "[" +:+ Tag o +:+ "]".

(** The loop of [Manager.Start] over its objects for one stage; it stops at the first error. *)
Fixpoint start_stage (kind : string) (stage : StartStage) (l : list O) (s : LState) : option error * LState :=
  match l with
  | [] => (None, s)
  | o :: l =>
      let '(err, s) := LegacyStart o stage s in
      match err with
      | Some e => (Some (ECause e (StartStage_String stage +:+ " " +:+ object_name kind o)), s)
      | None => start_stage kind stage l s
      end
  end.

(** The loop of [Create] over the stages for one new object of a started manager. *)
Fixpoint start_stages (kind : string) (o : O) (stages : list StartStage) (s : LState) : option error * LState :=
  match stages with
  | [] => (None, s)
  | stage :: stages =>
      let '(err, s) := LegacyStart o stage s in
      match err with
      | Some e => (Some (ECause e (StartStage_String stage +:+ " " +:+ object_name kind o)), s)
      | None => start_stages kind o stages s
      end
  end.

(** The loop of [Manager.Close]: every object is closed, whatever the others answer; the errors
    are collected ([E.Append]) in a variable. *)
Fixpoint close_all (kind : string) (closable : O -> bool) (l : list O) (errs : list error) (s : LState)
  : list error * LState :=
  match l with
  | [] => (errs, s)
  | o :: l =>
      let '(err, s) := call_if (closable o) MClose o s in
      close_all kind closable l
        (errs ++ match err with Some e => [ECause e ("close " +:+ object_name kind o)] | None => [] end)%list s
  end.

(** [common.Index(l, func(it) { return it == o })], [-1] as [None], and the deletion at an index
    by [append(l[:i], l[i+1:]...)]. *)
Definition Index (o : O) (l : list O) : option nat := fst <$> list_find (fun x => x = o) l.
Definition delete_at (i : nat) (l : list O) : list O := (take i l ++ drop (S i) l)%list.

(** ** Start in dependency order *)

(** The words that differ between the two copies of the code. *)
Record wording : Type := mkWording {
  w_kind : string;          (* "outbound/", "dns/" *)
  w_noun : string;          (* "outbound", "server" *)
  w_legacy : bool           (* objects with a Start() method are started too *)
}.

(** The call that starts an object, if it has a method for that. *)
Definition start_call (w : wording) (o : O) : option method :=
  if isLifecycle o then Some (MStart StartStateStart)
  else if w_legacy w && isStarter o then Some MLegacyStart
  else None.
Definition start_one (w : wording) (o : O) (s : LState) : option error * LState :=
  match start_call w o with Some c => call c o s | None => (None, s) end.

(** [started[tag]] is false and every dependency is started. *)
Definition can_start (started : gset string) (o : O) : bool :=
  negb (bool_decide (Tag o ∈ started)) && forallb (fun d => bool_decide (d ∈ started)) (Dependencies o).

(** One pass over the objects (the labelled loop [startOne]): starts what can be started, and says
    whether it has started something. *)
Fixpoint start_pass (w : wording) (l : list O) (started : gset string) (canContinue : bool) (s : LState)
  : result (gset string * bool) * LState :=
  match l with
  | [] => (Ok (started, canContinue), s)
  | o :: l =>
      if can_start started o then
        let '(err, s) := start_one w o s in
        match err with
        | Some e => (Err (ECause e ("start " +:+ object_name (w_kind w) o)), s)
        | None => start_pass w l ({[Tag o]} ∪ started) true s
        end
      else start_pass w l started canContinue s
  end.

(** [common.Find(o.Dependencies(), not started)], "" if there is none. *)
Definition problem_of (started : gset string) (o : O) : string :=
  default "" (snd <$> list_find (fun d => d ∉ started) (Dependencies o)).

Definition circular_error (w : wording) (tree : list string) (problem : string) : error :=
  ENew ("circular " +:+ w_noun w +:+ " dependency: " +:+ str_join tree " -> " +:+ " -> " +:+ problem).
Definition missing_error (w : wording) (problem : string) (o : O) : error :=
  ENew ("dependency[" +:+ problem +:+ "] not found for " +:+ w_noun w +:+ "[" +:+ Tag o +:+ "]").

(** [lintOutbound]: follows unstarted dependencies until a tag repeats or is unknown.  Every step
    adds a tag of the map that is not in the tree yet, which bounds the fuel. *)
Fixpoint lint (fuel : nat) (w : wording) (byTag : gmap string O) (started : gset string)
  (tree : list string) (o : O) : option error :=
  match fuel with
  | 0 => None
  | S fuel =>
      let problem := problem_of started o in
      if bool_decide (problem ∈ tree) then Some (circular_error w tree problem)
      else match byTag !! problem with
           | None => Some (missing_error w problem o)
           | Some p => lint fuel w byTag started (tree ++ [problem]) p
           end
  end.

Definition lint_fuel (byTag : gmap string O) : nat := S (S (size byTag)).

(** The loop: passes until everything is started, or nothing can be.  [None]: out of fuel. *)
Fixpoint start_loop (fuel : nat) (w : wording) (byTag : gmap string O) (l : list O) (started : gset string)
  (s : LState) : option (result unit * LState) :=
  match fuel with
  | 0 => None
  | S fuel =>
      let '(r, s) := start_pass w l started false s in
      match r with
      | Err e => Some (Err e, s)
      | Panic m => Some (Panic m, s)
      | Ok (started, canContinue) =>
          if (size started =? length l)%nat then Some (Ok tt, s)
          else if canContinue : bool then start_loop fuel w byTag l started s
          else match list_find (fun o => Tag o ∉ started) l with
               | None => Some (Panic "runtime error: invalid memory address or nil pointer dereference", s)
               | Some (_, o) =>
                   (fun e => (Err e, s)) <$> lint (lint_fuel byTag) w byTag started [Tag o] o
               end
      end
  end.

Definition start_in_order (w : wording) (byTag : gmap string O) (l : list O) (s : LState)
  : option (result unit * LState) :=
  start_loop (S (length l)) w byTag l ∅ s.
End Lifecycle.

(** ** Observing the calls *)

(** The same objects with a record of the calls made. *)
Definition traced {O} (L : Lifecycle O) : Lifecycle O := {|
  LState := LState (Lifecycle := L) * list (method * O);
  call c o s := let '(e, t) := call (Lifecycle := L) c o (fst s) in (e, (t, (snd s ++ [(c, o)])%list));
  common_Close o s := let '(e, t) := common_Close (Lifecycle := L) o (fst s) in (e, (t, (snd s ++ [(MClose, o)])%list));
  Error := Error (Lifecycle := L)
|}.
