(* ===== verification/Managers.v ===== *)
(** * Managers: the registries of inbounds, outbounds, endpoints, services and DNS transports

    adapter/endpoint/manager.go, adapter/inbound/manager.go and adapter/service/manager.go are the
    same code but for names: [Manager] here, with what differs as a [manager_kind].
    adapter/outbound/manager.go adds a default outbound and the dependencies between outbounds
    ([OutManager]), dns/transport_manager.go the same for DNS transports and the fake IP transport
    ([TransportManager]).

    An operation takes and returns the manager and the state of the objects; the mutex makes each
    one atomic.  The registry that creates objects is a parameter. *)

From S2P Require Import Prelude GoStd Lifecycle.
From stdpp Require Import sets gmap.
Open Scope string_scope.

Definition ErrInvalid : error := ELib "invalid argument".
Definition already_started : string := "already started".
Definition invalid_index : string := "invalid inbound index".

(** [m[k] = append(m[k], v)] and reads of a [map[string][]string]. *)
Definition map_list (m : gmap string (list string)) (k : string) : list string := default [] (m !! k).
Definition map_append (m : gmap string (list string)) (k v : string) : gmap string (list string) :=
  <[k := (map_list m k ++ [v])%list]> m.

Section Managers.
Context {O : Type} {C : Component O} {L : Lifecycle O} {Opt : Type}.

(** ** Endpoints, inbounds and services *)

Record manager_kind : Type := mkManagerKind {
  mk_name : string;              (* "endpoint/", "inbound/", "service/" *)
  mk_skip_start : bool;          (* endpoints are started with the outbounds *)
  mk_invalid_index : string      (* the message of the panic *)
}.
Definition endpoint_kind : manager_kind := mkManagerKind "endpoint/" true "invalid endpoint index".
Definition inbound_kind : manager_kind := mkManagerKind "inbound/" false "invalid inbound index".
Definition service_kind : manager_kind := mkManagerKind "service/" false "invalid service index".

Record Manager : Type := mkManager {
  m_started : bool;
  m_stage : StartStage;
  m_items : list O;
  m_byTag : gmap string O
}.
Definition NewManager : Manager := mkManager false StartStateInitialize [] ∅.

Definition Manager_Get (m : Manager) (tag : string) : option O := m_byTag m !! tag.
(** The inbound manager falls back on the endpoints. *)
Definition inbound_Get (endpoint m : Manager) (tag : string) : option O :=
  match Manager_Get m tag with Some o => Some o | None => Manager_Get endpoint tag end.

Definition err_result (e : option error) : result unit :=
  match e with Some e => Err e | None => Ok tt end.

Definition stage_passed (started : bool) (now stage : StartStage) : bool :=
  started && (stage_number stage <=? stage_number now)%N.

Definition Manager_Start (k : manager_kind) (stage : StartStage) (m : Manager) (s : LState)
  : result unit * Manager * LState :=
  if stage_passed (m_started m) (m_stage m) stage then (Panic already_started, m, s)
  else
    let m := mkManager true stage (m_items m) (m_byTag m) in
    if mk_skip_start k && bool_decide (stage = StartStateStart) then (Ok tt, m, s)
    else let '(e, s) := start_stage (mk_name k) stage (m_items m) s in (err_result e, m, s).

(** The errors of the objects are collected and dropped: [Close] returns nil. *)
Definition Manager_Close (k : manager_kind) (m : Manager) (s : LState) : result unit * Manager * LState :=
  if negb (m_started m) then (Ok tt, m, s)
  else
    let '(_, s) := close_all (mk_name k) (fun _ => true) (m_items m) [] s in
    (Ok tt, mkManager false (m_stage m) [] (m_byTag m), s).

Definition Manager_Remove (k : manager_kind) (tag : string) (m : Manager) (s : LState) : result unit * Manager * LState :=
  match m_byTag m !! tag with
  | None => (Err ErrInvalid, m, s)
  | Some o =>
      let byTag := delete tag (m_byTag m) in
      match Index o (m_items m) with
      | None => (Panic (mk_invalid_index k), mkManager (m_started m) (m_stage m) (m_items m) byTag, s)
      | Some i =>
          let m := mkManager (m_started m) (m_stage m) (delete_at i (m_items m)) byTag in
          if m_started m then let '(e, s) := call MClose o s in (err_result e, m, s) else (Ok tt, m, s)
      end
  end.

(** The registry: tag, type and options make an object. *)
Definition creator : Type := string -> string -> Opt -> LState -> result O * LState.

(** Closing the object a new one replaces. *)
Definition close_replaced (started : bool) (close : O -> LState -> option error * LState) (kind : string)
  (o : O) (s : LState) : option error * LState :=
  if started then
    let '(e, s) := close o s in
    ((fun e => ECause e ("close " +:+ object_name kind o)) <$> e, s)
  else (None, s).

Definition Manager_Create (create : creator) (k : manager_kind) (tag typ : string) (options : Opt)
  (m : Manager) (s : LState) : result unit * Manager * LState :=
  let '(r, s) := create tag typ options s in
  match r with
  | Err e => (Err e, m, s)
  | Panic msg => (Panic msg, m, s)
  | Ok o =>
      let '(err, s) := if m_started m then start_stages (mk_name k) o ListStartStages s else (None, s) in
      match err with
      | Some e => (Err e, m, s)
      | None =>
          match m_byTag m !! tag with
          | None => (Ok tt, mkManager (m_started m) (m_stage m) (m_items m ++ [o]) (<[tag := o]> (m_byTag m)), s)
          | Some exists_ =>
              let '(err, s) := close_replaced (m_started m) (call MClose) (mk_name k) exists_ s in
              match err with
              | Some e => (Err e, m, s)
              | None =>
                  match Index exists_ (m_items m) with
                  | None => (Panic (mk_invalid_index k), m, s)
                  | Some i =>
                      (Ok tt, mkManager (m_started m) (m_stage m) (delete_at i (m_items m) ++ [o])
                                (<[tag := o]> (m_byTag m)), s)
                  end
              end
          end
      end
  end.

(** The three managers. *)
Definition endpoint_Start := Manager_Start endpoint_kind.
Definition endpoint_Close := Manager_Close endpoint_kind.
Definition endpoint_Remove := Manager_Remove endpoint_kind.
Definition endpoint_Create (create : creator) := Manager_Create create endpoint_kind.
Definition inbound_Start := Manager_Start inbound_kind.
Definition inbound_Close := Manager_Close inbound_kind.
Definition inbound_Remove := Manager_Remove inbound_kind.
Definition inbound_Create (create : creator) := Manager_Create create inbound_kind.
Definition service_Start := Manager_Start service_kind.
Definition service_Close := Manager_Close service_kind.
Definition service_Remove := Manager_Remove service_kind.
Definition service_Create (create : creator) := Manager_Create create service_kind.

(** ** Outbounds *)

Record OutManager : Type := mkOutManager {
  o_defaultTag : string;
  o_started : bool;
  o_stage : StartStage;
  o_outbounds : list O;
  o_outboundByTag : gmap string O;
  o_dependByTag : gmap string (list string);
  o_defaultOutbound : option O
}.
Definition NewOutManager (defaultTag : string) : OutManager :=
  mkOutManager defaultTag false StartStateInitialize [] ∅ ∅ None.

Definition set_o_default (d : option O) (m : OutManager) : OutManager :=
  mkOutManager (o_defaultTag m) (o_started m) (o_stage m) (o_outbounds m) (o_outboundByTag m)
    (o_dependByTag m) d.
Definition set_o_items (l : list O) (byTag : gmap string O) (m : OutManager) : OutManager :=
  mkOutManager (o_defaultTag m) (o_started m) (o_stage m) l byTag (o_dependByTag m) (o_defaultOutbound m).
Definition set_o_depend (d : gmap string (list string)) (m : OutManager) : OutManager :=
  mkOutManager (o_defaultTag m) (o_started m) (o_stage m) (o_outbounds m) (o_outboundByTag m) d
    (o_defaultOutbound m).
Definition set_o_stage (started : bool) (stage : StartStage) (m : OutManager) : OutManager :=
  mkOutManager (o_defaultTag m) started stage (o_outbounds m) (o_outboundByTag m) (o_dependByTag m)
    (o_defaultOutbound m).

Definition OutManager_Outbound (endpoint : Manager) (m : OutManager) (tag : string) : option O :=
  match o_outboundByTag m !! tag with Some o => Some o | None => Manager_Get endpoint tag end.
Definition OutManager_Default (m : OutManager) : option O := o_defaultOutbound m.

(** The default outbound when the outbounds are started: an endpoint with the default tag, or the
    outbound the fallback makes. *)
Definition choose_default (fallback : LState -> result O * LState) (endpoint : Manager) (m : OutManager)
  (s : LState) : result unit * OutManager * LState :=
  match o_defaultOutbound m with
  | Some _ => (Ok tt, m, s)
  | None =>
      if negb (str_empty (o_defaultTag m)) then
        match Manager_Get endpoint (o_defaultTag m) with
        | None => (Err (ENew ("default outbound not found: " +:+ o_defaultTag m)), m, s)
        | Some o => (Ok tt, set_o_default (Some o) m, s)
        end
      else
        let '(r, s) := fallback s in
        match r with
        | Err e => (Err (ECause e "create direct outbound for fallback"), m, s)
        | Panic msg => (Panic msg, m, s)
        | Ok o =>
            (Ok tt, set_o_default (Some o)
               (set_o_items (o_outbounds m ++ [o]) (<[Tag o := o]> (o_outboundByTag m)) m), s)
        end
  end.

Definition outbound_wording : wording := mkWording "outbound/" "outbound" true.

(** [startOutbounds]: the outbounds, then the endpoints. *)
Definition startOutbounds (endpoint : Manager) (m : OutManager) (s : LState) : option (result unit * LState) :=
  start_in_order outbound_wording (o_outboundByTag m) (o_outbounds m ++ m_items endpoint) s.

Definition OutManager_Start (fallback : LState -> result O * LState) (endpoint : Manager) (stage : StartStage)
  (m : OutManager) (s : LState) : option (result unit * OutManager * LState) :=
  if stage_passed (o_started m) (o_stage m) stage then Some (Panic already_started, m, s)
  else
    let m := set_o_stage true stage m in
    if bool_decide (stage = StartStateStart) then
      let '(r, m, s) := choose_default fallback endpoint m s in
      match r with
      | Ok _ => (fun p => (fst p, m, snd p)) <$> startOutbounds endpoint m s
      | _ => Some (r, m, s)
      end
    else
      let '(e, s) := start_stage "outbound/" stage (o_outbounds m) s in Some (err_result e, m, s).

Definition OutManager_Close (closable : O -> bool) (m : OutManager) (s : LState) : result unit * OutManager * LState :=
  if negb (o_started m) then (Ok tt, m, s)
  else
    let '(_, s) := close_all "outbound/" closable (o_outbounds m) [] s in
    (Ok tt, set_o_items [] (o_outboundByTag m) (set_o_stage false (o_stage m) m), s).

(** The loop of [Remove] over the dependencies of the outbound removed. *)
Definition undepend (tag : string) (d : gmap string (list string)) (dependency : string) : gmap string (list string) :=
  if (length (map_list d dependency) =? 1)%nat then delete dependency d
  else <[dependency := List.filter (fun it => negb (bool_decide (it = tag))) (map_list d dependency)]> d.

Definition depended_error (noun tag : string) (dependBy : list string) : error :=
  ENew (noun +:+ "[" +:+ tag +:+ "] is depended by " +:+ str_join dependBy ", ").

Definition OutManager_Remove (tag : string) (m : OutManager) (s : LState) : result unit * OutManager * LState :=
  match o_outboundByTag m !! tag with
  | None => (Err ErrInvalid, m, s)
  | Some o =>
      let byTag := delete tag (o_outboundByTag m) in
      match Index o (o_outbounds m) with
      | None => (Panic invalid_index, set_o_items (o_outbounds m) byTag m, s)
      | Some i =>
          let m := set_o_items (delete_at i (o_outbounds m)) byTag m in
          let m := if bool_decide (o_defaultOutbound m = Some o) then set_o_default (head (o_outbounds m)) m else m in
          let dependBy := map_list (o_dependByTag m) tag in
          if nonempty dependBy then (Err (depended_error "outbound" tag dependBy), m, s)
          else
            let m := set_o_depend (foldl (undepend tag) (o_dependByTag m) (Dependencies o)) m in
            if o_started m then let '(e, s) := common_Close o s in (err_result e, m, s) else (Ok tt, m, s)
      end
  end.

(** Recording a new outbound, the end of [Create]. *)
Definition register (tag : string) (o : O) (items : list O) (m : OutManager) : OutManager :=
  let m := set_o_items (items ++ [o]) (<[tag := o]> (o_outboundByTag m)) m in
  let m := set_o_depend (foldl (fun d dependency => map_append d dependency tag) (o_dependByTag m) (Dependencies o)) m in
  if bool_decide (tag = o_defaultTag m) || (str_empty (o_defaultTag m) && bool_decide (o_defaultOutbound m = None))
  then set_o_default (Some o) m else m.

(** Options of the outbound that replaces one whose configuration is refused: the options and the
    error. *)
Definition creator_or_invalid : Type := string -> string -> Opt + Opt * error -> LState -> result O * LState.

Definition TypeHInvalidConfig : string := "hinvalid".

Definition create_outbound (create : creator_or_invalid) (tag typ : string) (options : Opt) (s : LState)
  : result O * LState :=
  let '(r, s) := create tag typ (inl options) s in
  match r with
  | Err e =>
      create tag TypeHInvalidConfig (inr (options, ENew ("parse outbound[" +:+ tag +:+ "] error: " +:+ Error e))) s
  | _ => (r, s)
  end.

Definition OutManager_Create (create : creator_or_invalid) (tag typ : string) (options : Opt)
  (m : OutManager) (s : LState) : result unit * OutManager * LState :=
  if str_empty tag then (Err ErrInvalid, m, s)
  else
    let '(r, s) := create_outbound create tag typ options s in
    match r with
    | Err e => (Err e, m, s)
    | Panic msg => (Panic msg, m, s)
    | Ok o =>
        let '(err, s) := if o_started m then start_stages "outbound/" o ListStartStages s else (None, s) in
        match err with
        | Some e => (Err e, m, s)
        | None =>
            match o_outboundByTag m !! tag with
            | None => (Ok tt, register tag o (o_outbounds m) m, s)
            | Some exists_ =>
                let '(err, s) := close_replaced (o_started m) common_Close "outbound/" exists_ s in
                match err with
                | Some e => (Err e, m, s)
                | None =>
                    match Index exists_ (o_outbounds m) with
                    | None => (Panic invalid_index, m, s)
                    | Some i => (Ok tt, register tag o (delete_at i (o_outbounds m)) m, s)
                    end
                end
            end
        end
    end.

(** ** DNS transports *)

Record TransportManager : Type := mkTransportManager {
  t_defaultTag : string;
  t_started : bool;
  t_stage : StartStage;
  t_transports : list O;
  t_transportByTag : gmap string O;
  t_dependByTag : gmap string (list string);
  t_defaultTransport : option O;
  t_fakeIPTransport : option O
}.
Definition NewTransportManager (defaultTag : string) : TransportManager :=
  mkTransportManager defaultTag false StartStateInitialize [] ∅ ∅ None None.

Definition set_t_default (d : option O) (m : TransportManager) : TransportManager :=
  mkTransportManager (t_defaultTag m) (t_started m) (t_stage m) (t_transports m) (t_transportByTag m)
    (t_dependByTag m) d (t_fakeIPTransport m).
Definition set_t_items (l : list O) (byTag : gmap string O) (m : TransportManager) : TransportManager :=
  mkTransportManager (t_defaultTag m) (t_started m) (t_stage m) l byTag (t_dependByTag m)
    (t_defaultTransport m) (t_fakeIPTransport m).
Definition set_t_depend (d : gmap string (list string)) (m : TransportManager) : TransportManager :=
  mkTransportManager (t_defaultTag m) (t_started m) (t_stage m) (t_transports m) (t_transportByTag m) d
    (t_defaultTransport m) (t_fakeIPTransport m).
Definition set_t_stage (started : bool) (stage : StartStage) (m : TransportManager) : TransportManager :=
  mkTransportManager (t_defaultTag m) started stage (t_transports m) (t_transportByTag m)
    (t_dependByTag m) (t_defaultTransport m) (t_fakeIPTransport m).
Definition set_t_fakeip (f : option O) (m : TransportManager) : TransportManager :=
  mkTransportManager (t_defaultTag m) (t_started m) (t_stage m) (t_transports m) (t_transportByTag m)
    (t_dependByTag m) (t_defaultTransport m) f.

Definition DNSTypeFakeIP : string := "fakeip".
Definition default_fakeip_error : error := ENew "default server cannot be fakeip".
Definition multiple_fakeip_error : error := ENew "multiple fakeip server are not supported".

Definition choose_default_transport (fallback : LState -> result O * LState) (m : TransportManager) (s : LState)
  : result unit * TransportManager * LState :=
  match t_defaultTransport m with
  | Some _ => (Ok tt, m, s)
  | None =>
      if negb (str_empty (t_defaultTag m))
      then (Err (ENew ("default DNS server not found: " +:+ t_defaultTag m)), m, s)
      else
        let '(r, s) := fallback s in
        match r with
        | Err e => (Err (ECause e "default DNS server fallback"), m, s)
        | Panic msg => (Panic msg, m, s)
        | Ok o =>
            (Ok tt, set_t_default (Some o)
               (set_t_items (t_transports m ++ [o]) (<[Tag o := o]> (t_transportByTag m)) m), s)
        end
  end.

Definition transport_wording : wording := mkWording "dns/" "server" false.

Definition startTransports (m : TransportManager) (s : LState) : option (result unit * LState) :=
  start_in_order transport_wording (t_transportByTag m) (t_transports m) s.

Definition TransportManager_Start (fallback : LState -> result O * LState) (stage : StartStage)
  (m : TransportManager) (s : LState) : option (result unit * TransportManager * LState) :=
  if stage_passed (t_started m) (t_stage m) stage then Some (Panic already_started, m, s)
  else
    let m := set_t_stage true stage m in
    if bool_decide (stage = StartStateStart) then
      let '(r, m, s) := choose_default_transport fallback m s in
      match r with
      | Ok _ => (fun p => (fst p, m, snd p)) <$> startTransports m s
      | _ => Some (r, m, s)
      end
    else
      let '(e, s) := start_stage "dns/" stage (t_transports m) s in Some (err_result e, m, s).

Definition TransportManager_Close (m : TransportManager) (s : LState) : result unit * TransportManager * LState :=
  if negb (t_started m) then (Ok tt, m, s)
  else
    let '(_, s) := close_all "server/" (fun _ => true) (t_transports m) [] s in
    (Ok tt, set_t_items [] (t_transportByTag m) (set_t_stage false (t_stage m) m), s).

Definition TransportManager_Remove (tag : string) (m : TransportManager) (s : LState)
  : result unit * TransportManager * LState :=
  match t_transportByTag m !! tag with
  | None => (Err ErrInvalid, m, s)
  | Some o =>
      let byTag := delete tag (t_transportByTag m) in
      match Index o (t_transports m) with
      | None => (Panic invalid_index, set_t_items (t_transports m) byTag m, s)
      | Some i =>
          let m := set_t_items (delete_at i (t_transports m)) byTag m in
          let '(r, m) :=
            if bool_decide (t_defaultTransport m = Some o) then
              match t_transports m with
              | next :: _ =>
                  if negb (bool_decide (Type_ next = DNSTypeFakeIP)) then (Err default_fakeip_error, m)
                  else (Ok tt, set_t_default (Some next) m)
              | [] => (Ok tt, set_t_default None m)
              end
            else (Ok tt, m) in
          match r with
          | Ok _ =>
              let dependBy := map_list (t_dependByTag m) tag in
              if nonempty dependBy then (Err (depended_error "server" tag dependBy), m, s)
              else
                let m := set_t_depend (foldl (undepend tag) (t_dependByTag m) (Dependencies o)) m in
                if t_started m then let '(_, s) := call MClose o s in (Ok tt, m, s) else (Ok tt, m, s)
          | _ => (r, m, s)
          end
      end
  end.

(** The end of [Create]: the transport is recorded, and then the checks on fake IP servers. *)
Definition register_transport (tag : string) (o : O) (items : list O) (m : TransportManager)
  : result unit * TransportManager :=
  let fakeip := bool_decide (Type_ o = DNSTypeFakeIP) in
  let m := set_t_items (items ++ [o]) (<[tag := o]> (t_transportByTag m)) m in
  let m := set_t_depend (foldl (fun d dependency => map_append d dependency tag) (t_dependByTag m) (Dependencies o)) m in
  let becomes_default :=
    bool_decide (tag = t_defaultTag m) || (str_empty (t_defaultTag m) && bool_decide (t_defaultTransport m = None)) in
  if becomes_default && fakeip then (Err default_fakeip_error, m)
  else
    let m := if becomes_default then set_t_default (Some o) m else m in
    if fakeip then
      match t_fakeIPTransport m with
      | Some _ => (Err multiple_fakeip_error, m)
      | None => (Ok tt, set_t_fakeip (Some o) m)
      end
    else (Ok tt, m).

Definition TransportManager_Create (create : creator) (tag typ : string) (options : Opt)
  (m : TransportManager) (s : LState) : result unit * TransportManager * LState :=
  if str_empty tag then (Err ErrInvalid, m, s)
  else
    let '(r, s) := create tag typ options s in
    match r with
    | Err e => (Err e, m, s)
    | Panic msg => (Panic msg, m, s)
    | Ok o =>
        let '(err, s) := if t_started m then start_stages "dns/" o ListStartStages s else (None, s) in
        match err with
        | Some e => (Err e, m, s)
        | None =>
            match t_transportByTag m !! tag with
            | None => let '(r, m) := register_transport tag o (t_transports m) m in (r, m, s)
            | Some exists_ =>
                let '(err, s) := close_replaced (t_started m) common_Close "dns/" exists_ s in
                match err with
                | Some e => (Err e, m, s)
                | None =>
                    match Index exists_ (t_transports m) with
                    | None => (Panic invalid_index, m, s)
                    | Some i => let '(r, m) := register_transport tag o (delete_at i (t_transports m)) m in (r, m, s)
                    end
                end
            end
        end
    end.
End Managers.
Arguments Manager O : clear implicits.
Arguments OutManager O : clear implicits.
Arguments TransportManager O : clear implicits.
