(* ===== verification/StartOrder.v ===== *)
(** * StartOrder: the start in dependency order

    What the loop shared by the outbound and the DNS transport manager guarantees: it ends, it
    starts each object once and after its dependencies, it starts everything whenever that is
    possible, and when it is not its error names a real obstacle. *)

From S2P Require Import Prelude GoStd Lifecycle.
From stdpp Require Import sets gmap fin_sets.
Open Scope string_scope.
Open Scope list_scope.

Section Order.
Context {O : Type} {C : Component O} {L : Lifecycle O}.
Variable w : wording.

Implicit Types (o : O) (l order new : list O) (started before : gset string) (s : LState).

(** ** Specification *)

Definition tags l : gset string := list_to_set (map Tag l).

(** A list of objects in which each one comes after its dependencies, [before] being given. *)
Fixpoint ordered before l : Prop :=
  match l with
  | [] => True
  | o :: l => (Tag o ∉ before) /\ Forall (fun d => d ∈ before) (Dependencies o) /\ ordered ({[Tag o]} ∪ before) l
  end.

(** Starting the objects of a list one after the other, as long as none fails. *)
Fixpoint run_starts l s : option error * LState :=
  match l with
  | [] => (None, s)
  | o :: l => match start_one w o s with (None, s) => run_starts l s | r => r end
  end.

(** ** Lemmas *)

Lemma tags_nil_l before : tags [] ∪ before = before.
Proof. apply (left_id_L ∅ (∪)). Qed.
Lemma tags_cons o l : tags (o :: l) = {[Tag o]} ∪ tags l.
Proof. done. Qed.
Lemma tags_app l k : tags (l ++ k) = tags l ∪ tags k.
Proof. unfold tags. by rewrite map_app, list_to_set_app_L. Qed.
Lemma elem_of_tags t l : t ∈ tags l <-> exists o, o ∈ l /\ t = Tag o.
Proof.
  unfold tags. rewrite elem_of_list_to_set, list_elem_of_fmap. split; intros (o & H1 & H2); eauto.
Qed.

Lemma can_start_true started o :
  can_start started o = true <-> (Tag o ∉ started) /\ Forall (fun d => d ∈ started) (Dependencies o).
Proof.
  unfold can_start. rewrite andb_true_iff, negb_true_iff, bool_decide_eq_false, Forall_forall.
  by setoid_rewrite forallb_true_iff; setoid_rewrite bool_decide_eq_true.
Qed.

Lemma ordered_app before l k : ordered before (l ++ k) <-> ordered before l /\ ordered (tags l ∪ before) k.
Proof.
  revert before. induction l as [|o l IH]; intros before; cbn [ordered app].
  - rewrite tags_nil_l. tauto.
  - rewrite IH. replace (tags l ∪ ({[Tag o]} ∪ before)) with (tags (o :: l) ∪ before)
      by (rewrite tags_cons; set_solver). tauto.
Qed.

Lemma run_starts_app l k s :
  run_starts (l ++ k) s = match run_starts l s with (None, s) => run_starts k s | r => r end.
Proof.
  revert s. induction l as [|o l IH]; intros s; simpl; [done|].
  destruct (start_one w o s) as [[e|] s1]; [done|apply IH].
Qed.

(** The tags of an ordered list are distinct, and not among those given. *)
Lemma ordered_size l : forall before, ordered before l -> size (tags l ∪ before) = (length l + size before)%nat.
Proof.
  induction l as [|o l IH]; intros before; cbn [ordered length].
  - intros _. by rewrite tags_nil_l.
  - intros (Hn & _ & Ho). apply IH in Ho. rewrite tags_cons.
    replace ({[Tag o]} ∪ tags l ∪ before) with (tags l ∪ ({[Tag o]} ∪ before)) by set_solver.
    rewrite Ho, size_union by set_solver. rewrite size_singleton. lia.
Qed.

Lemma ordered_NoDup l : forall before, ordered before l -> NoDup l.
Proof.
  assert (forall before l, ordered before l -> forall o, o ∈ l -> Tag o ∉ before) as Hb.
  { intros before l0. revert before. induction l0 as [|x l0 IH]; intros before; [set_solver|].
    intros (Hn & _ & Ho) o [->|H]%elem_of_cons; [done|]. apply (IH _ Ho) in H. set_solver. }
  induction l as [|o l IH]; intros before; simpl; [constructor|].
  intros (Hn & _ & Ho). constructor; [|eauto]. intros H. apply (Hb _ _ Ho) in H. set_solver.
Qed.

(** ** One pass *)

Lemma start_pass_spec l : forall started canContinue s r s',
  start_pass w l started canContinue s = (r, s') ->
  exists new, (forall o, o ∈ new -> o ∈ l) /\ ordered started new /\
    match r with
    | Ok (started', can') =>
        run_starts new s = (None, s') /\ started' = tags new ∪ started /\
        can' = canContinue || nonempty new /\ (new = [] -> Forall (fun o => can_start started o = false) l)
    | Err e => exists pre o e0 s1, new = (pre ++ [o])%list /\ run_starts pre s = (None, s1) /\
        start_one w o s1 = (Some e0, s') /\ e = ECause e0 ("start " +:+ object_name (w_kind w) o)
    | Panic _ => False
    end.
Proof.
  induction l as [|o l IH]; intros started can s r s' E; simpl in E.
  - injection E as <- <-. exists []. rewrite orb_false_r, tags_nil_l. set_solver.
  - destruct (can_start started o) eqn:Ec.
    + pose proof Ec as [Hn Hd]%can_start_true. destruct (start_one w o s) as [[e|] s1] eqn:Es.
      * injection E as <- <-. exists [o]. split; [set_solver|]. split; [done|].
        by exists [], o, e, s.
      * apply IH in E as (new & Hin & Ho & Hr). exists (o :: new).
        split; [set_solver|]. split; [done|].
        destruct r as [[started' can']|e|m]; [|destruct Hr as (pre & o' & e0 & s2 & -> & Hr & Hs & ->)|done].
        -- destruct Hr as (Hr & -> & -> & _). simpl. rewrite Es, orb_true_r. split_and!; try done.
           rewrite tags_cons. set_solver.
        -- exists (o :: pre), o', e0, s2. split_and!; [done| |done|done]. simpl. by rewrite Es.
    + apply IH in E as (new & Hin & Ho & Hr). exists new. split; [set_solver|]. split; [done|].
      destruct r as [[started' can']|e|m]; [|done|done].
      destruct Hr as (? & ? & ? & Hf). split_and!; try done. intros Hnew. constructor; auto.
Qed.

(** ** The loop *)

(** What is found when nothing can be started and something is missing. *)
Definition stuck (byTag : gmap string O) l started s : result unit * LState :=
  match list_find (fun o => Tag o ∉ started) l with
  | None => (Panic "runtime error: invalid memory address or nil pointer dereference", s)
  | Some (_, o) => match lint (lint_fuel byTag) w byTag started [Tag o] o with
                   | Some e => (Err e, s)
                   | None => (Ok tt, s)
                   end
  end.

Lemma lint_total fuel byTag started : forall tree o,
  (size (dom byTag ∖ list_to_set tree) < fuel)%nat -> exists e, lint fuel w byTag started tree o = Some e.
Proof.
  induction fuel as [|fuel IH]; intros tree o Hf; [lia|]. simpl.
  case_bool_decide as Ht; [eauto|]. destruct (byTag !! _) as [p|] eqn:Ep; [|eauto].
  apply IH. apply elem_of_dom_2 in Ep.
  assert (dom byTag ∖ list_to_set (tree ++ [problem_of started o]) ⊂ dom byTag ∖ list_to_set tree) as H.
  { apply strict_spec_alt. rewrite list_to_set_app_L. split; [set_solver|]. intros H.
    assert (problem_of started o ∈ dom byTag ∖ list_to_set tree) as H1.
    { apply elem_of_difference. by rewrite elem_of_list_to_set. }
    rewrite <- H in H1. set_solver. }
  apply subset_size in H. lia.
Qed.

Lemma lint_fuel_enough byTag started o :
  exists e, lint (lint_fuel byTag) w byTag started [Tag o] o = Some e.
Proof.
  apply lint_total. unfold lint_fuel. rewrite <- size_dom.
  pose proof (subseteq_size (dom byTag ∖ list_to_set [Tag o]) (dom byTag) ltac:(set_solver)). lia.
Qed.

(** The run of the loop: the objects [order] were started, in that order, then it stopped. *)
Inductive loop_end (byTag : gmap string O) l s : list O -> result unit * LState -> Prop :=
| EndAll order s' :
    run_starts order s = (None, s') -> length order = length l ->
    loop_end byTag l s order (Ok tt, s')
| EndFailed pre o e s1 s' :
    run_starts pre s = (None, s1) -> start_one w o s1 = (Some e, s') ->
    loop_end byTag l s (pre ++ [o]) (Err (ECause e ("start " +:+ object_name (w_kind w) o)), s')
| EndStuck order s' :
    run_starts order s = (None, s') -> length order <> length l ->
    Forall (fun o => can_start (tags order) o = false) l ->
    loop_end byTag l s order (stuck byTag l (tags order) s').

Lemma start_loop_spec fuel byTag l s0 : forall order s,
  (length l < fuel + length order)%nat -> ordered ∅ order -> (forall o, o ∈ order -> o ∈ l) ->
  run_starts order s0 = (None, s) ->
  exists order' r, start_loop fuel w byTag l (tags order) s = Some r /\
    ordered ∅ order' /\ (forall o, o ∈ order' -> o ∈ l) /\ loop_end byTag l s0 order' r.
Proof.
  induction fuel as [|fuel IH]; intros order s Hf Ho Hl Hr; cbn [start_loop].
  - exfalso. pose proof (submseteq_length order l
      (NoDup_submseteq _ _ (ordered_NoDup _ _ Ho) Hl)). lia.
  - destruct (start_pass w l (tags order) false s) as [r s1] eqn:E.
    apply start_pass_spec in E as (new & Hin & Hn & Hres).
    assert (ordered ∅ (order ++ new)) as Ho1.
    { apply ordered_app. by rewrite (right_id_L ∅ (∪)). }
    assert (forall o, o ∈ order ++ new -> o ∈ l) as Hl1 by set_solver.
    destruct r as [[started' can']|e|m]; [|destruct Hres as (pre & o & e0 & s2 & -> & Hrun & Hs & ->)|done].
    + destruct Hres as (Hrun & -> & -> & Hcan).
      assert (run_starts (order ++ new) s0 = (None, s1)) as Hr1 by (by rewrite run_starts_app, Hr).
      replace (tags new ∪ tags order) with (tags (order ++ new)) by (rewrite tags_app; set_solver).
      assert (size (tags (order ++ new)) = length (order ++ new)) as Hs.
      { pose proof (ordered_size _ _ Ho1) as H. rewrite (right_id_L ∅ (∪)), size_empty in H. lia. }
      destruct (Nat.eqb_spec (size (tags (order ++ new))) (length l)) as [Heq|Hne].
      * eexists (order ++ new)%list, _. split_and!; try done. constructor; [done|lia].
      * destruct new as [|x new]; cbn [nonempty orb].
        -- rewrite app_nil_r in *. exists order, (stuck byTag l (tags order) s1).
           split_and!; try done.
           ++ unfold stuck. destruct (list_find _ l) as [[i o]|]; [|done].
              destruct (lint_fuel_enough byTag (tags order) o) as [e ->]. done.
           ++ constructor; [done|lia|auto].
        -- apply IH; try done. rewrite length_app in *. simpl in *. lia.
    + eexists (order ++ pre ++ [o])%list, _. split_and!; try done.
      rewrite app_assoc. apply (EndFailed _ _ _ _ _ _ s2); [|done]. by rewrite run_starts_app, Hr.
Qed.

Lemma start_in_order_spec byTag l s :
  exists order r, start_in_order w byTag l s = Some r /\
    ordered ∅ order /\ (forall o, o ∈ order -> o ∈ l) /\ loop_end byTag l s order r.
Proof. apply (start_loop_spec _ byTag l s []); simpl; [lia|done|set_solver|done]. Qed.

(** ** Completeness *)

Lemma tags_size l : NoDup (map Tag l) -> size (tags l) = length l.
Proof. intros H. unfold tags. by rewrite size_list_to_set, length_map. Qed.

(** What was started is all there is, or something is left. *)
Lemma ordered_left order l :
  ordered ∅ order -> (forall o, o ∈ order -> o ∈ l) -> NoDup (map Tag l) -> length order <> length l ->
  exists i o, list_find (fun o => Tag o ∉ tags order) l = Some (i, o).
Proof.
  intros Ho Hl Hn Hlen. destruct (list_find _ l) as [[i o]|] eqn:E; [eauto|exfalso].
  apply list_find_None in E. apply Hlen.
  pose proof (ordered_size _ _ Ho) as H. rewrite (right_id_L ∅ (∪)), size_empty in H.
  rewrite <- (tags_size l), <- (Nat.add_0_r (length order)), <- H by done. f_equal.
  apply set_eq. intros t. rewrite !elem_of_tags. split; [naive_solver|].
  intros (o & Hin & ->). rewrite Forall_forall in E. apply E, dec_stable in Hin.
  by apply elem_of_tags in Hin.
Qed.

(** An ordering of everything shows an object that can be started. *)
Lemma ordered_next before order started :
  ordered before order -> before ⊆ started -> (exists o, o ∈ order /\ Tag o ∉ started) ->
  exists o, o ∈ order /\ can_start started o = true.
Proof.
  revert before. induction order as [|o order IH]; intros before; [set_solver|].
  intros (_ & Hd & Ho) Hs (x & Hx & Hnx). destruct (decide (Tag o ∈ started)) as [Hin|Hn].
  - destruct (IH _ Ho) as (y & Hy & Hc); [set_solver| |].
    + exists x. split; [|done]. apply elem_of_cons in Hx as [->|]; done.
    + exists y. split; [set_solver|done].
  - exists o. split; [set_solver|]. apply can_start_true. split; [done|].
    eapply Forall_impl; [apply Hd|]. set_solver.
Qed.

Lemma loop_end_order byTag l s order s' :
  ordered ∅ order -> (forall o, o ∈ order -> o ∈ l) ->
  loop_end byTag l s order (Ok tt, s') -> order ≡ₚ l.
Proof.
  intros Ho Hl H.
  assert (length order = length l) as Hlen.
  { inversion H; subst; [done|]. unfold stuck in *. destruct (list_find _ l) as [[i o]|]; [|congruence].
    destruct (lint_fuel_enough byTag (tags order) o) as [e He]. rewrite He in *. simplify_eq. }
  apply submseteq_length_Permutation; [|lia]. apply NoDup_submseteq; [by eapply ordered_NoDup|done].
Qed.

(** ** Obstacles *)

(** [o] depends on the first of [l], each on the next, and the last on [target]. *)
Fixpoint chain o l (target : string) : Prop :=
  match l with [] => target ∈ Dependencies o | p :: l => Tag p ∈ Dependencies o /\ chain p l target end.
Definition linked l (target : string) : Prop :=
  match l with [] => True | o :: l => chain o l target end.
(** The objects depend on each other in a circle. *)
Definition cyclic l : Prop := match l with [] => False | o :: l => chain o l (Tag o) end.

Lemma chain_snoc l p target : forall o,
  chain o (l ++ [p]) target <-> chain o l (Tag p) /\ target ∈ Dependencies p.
Proof. induction l as [|q l IH]; intros o; simpl; [tauto|]. rewrite IH. tauto. Qed.
Lemma linked_snoc l o target : linked (l ++ [o]) target <-> linked l (Tag o) /\ target ∈ Dependencies o.
Proof. destruct l as [|p l]; simpl; [tauto|]. apply chain_snoc. Qed.
Lemma linked_suffix l c target : linked (l ++ c) target -> linked c target.
Proof.
  induction l as [|o l IH]; [done|]. intros H. apply IH. destruct l as [|p l]; simpl in *; [|tauto].
  destruct c; [done|]. simpl in *. tauto.
Qed.

Definition blocked started o : Prop := (Tag o ∉ started) /\ exists d, d ∈ Dependencies o /\ d ∉ started.

Lemma not_can_start started o : can_start started o = false -> Tag o ∉ started -> blocked started o.
Proof.
  intros H Hn. split; [done|]. destruct (decide (Forall (fun d => d ∈ started) (Dependencies o))) as [Hd|Hd].
  - rewrite (proj2 (can_start_true started o)) in H; done.
  - by apply not_Forall_Exists, Exists_exists in Hd; [|apply _].
Qed.

Lemma problem_of_blocked started o :
  blocked started o -> problem_of started o ∈ Dependencies o /\ (problem_of started o ∉ started).
Proof.
  intros (_ & d & Hd & Hn). unfold problem_of.
  destruct (list_find _ _) as [[i x]|] eqn:E; simpl.
  - apply list_find_Some in E as (Hi & Hx & _). split; [by eapply list_elem_of_lookup_2|done].
  - apply list_find_None in E. rewrite Forall_forall in E. by apply E in Hd.
Qed.

(** What the error of [lintOutbound] says is true. *)
Inductive obstacle (byTag : gmap string O) l : error -> Prop :=
| Circular tree c :
    c <> [] -> (forall o, o ∈ c -> o ∈ l) -> cyclic c ->
    obstacle byTag l (circular_error w (tree ++ map Tag c) (default "" (Tag <$> head c)))
| Missing o d :
    o ∈ l -> d ∈ Dependencies o -> byTag !! d = None -> obstacle byTag l (missing_error w d o).

Lemma lint_obstacle byTag l started fuel :
  (forall t p, byTag !! t = Some p -> p ∈ l /\ Tag p = t) ->
  (forall o, o ∈ l -> Tag o ∉ started -> blocked started o) ->
  forall path o e, linked path (Tag o) -> (forall p, p ∈ path ++ [o] -> p ∈ l) -> Tag o ∉ started ->
    lint fuel w byTag started (map Tag (path ++ [o])) o = Some e -> obstacle byTag l e.
Proof.
  intros Hmap Hblocked. induction fuel as [|fuel IH]; intros path o e Hp Hl Ho E; simpl in E; [done|].
  assert (o ∈ l) as Hol by (apply Hl; set_solver).
  destruct (problem_of_blocked started o (Hblocked o Hol Ho)) as [Hd Hn].
  assert (linked (path ++ [o]) (problem_of started o)) as Hlk by (by apply linked_snoc).
  case_bool_decide as Ht.
  - simplify_eq. apply list_elem_of_fmap in Ht as (q & Hq & Hqin).
    apply list_elem_of_split in Hqin as (pre & post & Heq).
    rewrite Heq in Hlk, Hl |- *. apply linked_suffix in Hlk. rewrite map_app, Hq.
    apply (Circular byTag l (map Tag pre) (q :: post)); [done|set_solver|]. simpl in *. by rewrite Hq in Hlk.
  - destruct (byTag !! _) as [p|] eqn:Ep; [|by simplify_eq; constructor].
    destruct (Hmap _ _ Ep) as [Hpl Hpt].
    apply (IH (path ++ [o]) p e); [by rewrite Hpt| |by rewrite Hpt|].
    + intros x [H|H]%elem_of_app; [auto|set_solver].
    + rewrite (map_app _ (path ++ [o])). simpl. by rewrite Hpt.
Qed.

Lemma stuck_obstacle byTag l order s :
  NoDup (map Tag l) -> (forall t p, byTag !! t = Some p -> p ∈ l /\ Tag p = t) ->
  ordered ∅ order -> (forall o, o ∈ order -> o ∈ l) -> length order <> length l ->
  Forall (fun o => can_start (tags order) o = false) l ->
  exists e, stuck byTag l (tags order) s = (Err e, s) /\ obstacle byTag l e.
Proof.
  intros Hn Hmap Ho Hl Hlen Hc. destruct (ordered_left order l) as (i & o & E); try done.
  unfold stuck. rewrite E. destruct (lint_fuel_enough byTag (tags order) o) as [e He]. rewrite He.
  exists e. split; [done|]. apply list_find_Some in E as (Hi & Hno & _). apply list_elem_of_lookup_2 in Hi.
  apply (lint_obstacle byTag l (tags order) _ Hmap) with (path := []) (o := o) in He; try done.
  - intros x Hx Hnx. apply not_can_start; [|done]. by apply (proj1 (Forall_forall _ _) Hc).
  - set_solver.
Qed.
End Order.

(** ** The calls made *)

Section Calls.
Context {O : Type} {C : Component O} (L : Lifecycle O) (w : wording).

(** The calls that start the objects of a list. *)
Definition start_calls (order : list O) : list (method * O) :=
  omap (fun o => (fun c => (c, o)) <$> start_call w o) order.

Lemma start_one_traced (o : O) s t e s' :
  start_one (L := traced L) w o (s, t) = (e, s') -> snd s' = (t ++ start_calls [o])%list.
Proof.
  unfold start_one, start_calls. simpl. destruct (start_call w o) as [c|]; simpl.
  - destruct (call c o s) as [e0 s0]. intros [= _ <-]. done.
  - intros [= _ <-]. by rewrite app_nil_r.
Qed.
Lemma start_calls_app l k : start_calls (l ++ k) = start_calls l ++ start_calls k.
Proof. apply omap_app. Qed.

Lemma run_starts_traced (l : list O) : forall s t e s',
  run_starts (L := traced L) w l (s, t) = (e, s') -> e = None -> snd s' = (t ++ start_calls l)%list.
Proof.
  induction l as [|o l IH]; intros s t e s' H He; simpl in H.
  - injection H as _ <-. by rewrite app_nil_r.
  - destruct (start_one (L := traced L) w o (s, t)) as [[e0|] [s1 t1]] eqn:E; [congruence|].
    apply start_one_traced in E. simpl in E. subst t1. apply IH in H; [|done].
    change (o :: l) with ([o] ++ l). by rewrite start_calls_app, app_assoc.
Qed.

Lemma loop_end_traced byTag l s order r :
  loop_end (L := traced L) w byTag l (s, []) order r -> snd (snd r) = start_calls order.
Proof.
  intros H. inversion H as [? [s1 t1] Hr Hlen|pre o e [s1 t1] s2 Hr Ho|? [s1 t1] Hr Hlen Hf]; subst; simpl.
  - by apply run_starts_traced in Hr.
  - apply run_starts_traced in Hr; [|done]. simpl in Hr. subst t1. apply start_one_traced in Ho.
    by rewrite Ho, start_calls_app.
  - apply run_starts_traced in Hr; [|done]. simpl in Hr. unfold stuck.
    destruct (list_find _ l) as [[i o]|]; [|done]. by destruct (lint _ _ _ _ _ _).
Qed.
End Calls.

Section Theorems.
Context {O : Type} {C : Component O}.

(** C6: The start of the outbounds (or of the DNS transports) always ends.  Whatever the objects do, the calls
    made are the start calls of distinct objects of the list, each one after those of all its
    dependencies; and when it succeeds, each object has been started exactly once. *)
Theorem start_in_order_sound (L : Lifecycle O) w byTag (l : list O) s :
  exists order r s',
    start_in_order (L := traced L) w byTag l (s, []) = Some (r, (s', start_calls w order)) /\
    ordered ∅ order /\ (forall o, o ∈ order -> o ∈ l) /\ (r = Ok tt -> order ≡ₚ l).
Proof.
  destruct (start_in_order_spec (L := traced L) w byTag l (s, [])) as (order & [r [s' t]] & E & Ho & Hl & Hend).
  pose proof (loop_end_traced L w _ _ _ _ _ Hend) as Ht. simpl in Ht. subst t.
  exists order, r, s'. split_and!; try done. intros ->. by apply (loop_end_order (L := traced L) w) in Hend.
Qed.

(** C7: As long as no object fails to start, the start succeeds exactly when the objects can be
    put in an order in which each one comes after its dependencies, that is when every
    dependency is there and none is circular.  Nothing is left waiting in that case. *)
Theorem start_in_order_complete (L : Lifecycle O) w byTag (l : list O) s :
  NoDup (map Tag l) ->
  (forall o t, o ∈ l -> fst (start_one w o t) = None) ->
  (exists s', start_in_order w byTag l s = Some (Ok tt, s')) <-> (exists order, order ≡ₚ l /\ ordered ∅ order).
Proof.
  intros Hn Hf. destruct (start_in_order_spec w byTag l s) as (order & r & E & Ho & Hl & Hend). split.
  - intros (s' & E'). rewrite E in E'. injection E' as ->. exists order. split; [by eapply loop_end_order|done].
  - intros (full & Hp & Hfull). rewrite E. inversion Hend as [|? o ? s1 s2 Hr Hs|? ? Hr Hlen Hc]; subst; [eauto| |].
    + specialize (Hf o s1 ltac:(apply Hl; set_solver)). by rewrite Hs in Hf.
    + exfalso. destruct (ordered_left order l) as (i & o & Ei); try done.
      apply list_find_Some in Ei as (Hi & Hno & _). apply list_elem_of_lookup_2 in Hi.
      destruct (ordered_next ∅ full (tags order)) as (x & Hx & Hcx); [done|set_solver| |].
      * exists o. split; [by rewrite Hp|done].
      * rewrite Forall_forall in Hc. rewrite Hp in Hx. apply Hc in Hx. congruence.
Qed.

(** When the start fails, its error names a real obstacle: a call that failed, a circle of
    dependencies, written out in the message, or an object with a dependency that is not
    known. *)
Theorem start_in_order_obstacle (L : Lifecycle O) w byTag (l : list O) s r s' :
  NoDup (map Tag l) -> (forall t p, byTag !! t = Some p -> p ∈ l /\ Tag p = t) ->
  start_in_order w byTag l s = Some (r, s') -> r <> Ok tt ->
  exists e, r = Err e /\
    (obstacle w byTag l e \/
     exists o e0 s1, o ∈ l /\ start_one w o s1 = (Some e0, s') /\
       e = ECause e0 ("start " +:+ object_name (w_kind w) o)).
Proof.
  intros Hn Hmap E Hr. destruct (start_in_order_spec w byTag l s) as (order & r0 & E0 & Ho & Hl & Hend).
  rewrite E0 in E. injection E as ->. inversion Hend as [|pre o e s1 s2 Hpre Hs|? s2 Hrun Hlen Hc]; subst; [done| |].
  - eexists. split; [done|]. right. exists o, e, s1. split_and!; [apply Hl; set_solver|done|done].
  - destruct (stuck_obstacle w byTag l order s2) as (e & Hst & Hob); try done.
    match goal with H : stuck _ _ _ _ _ = _ |- _ => rewrite Hst in H; injection H as <- <- end. eauto.
Qed.
End Theorems.
