(* ===== verification/ManagerLaws.v ===== *)
(** * ManagerLaws: what the managers promise

    The list and the map of a manager are one ordered registry keyed by tag; every operation
    implements the registry's, and no operation panics for a missing index.  The default outbound
    and the dependency index are as good as that only as long as no outbound is replaced.  The theorems
    are applied to concrete objects at the end. *)

From S2P Require Import Prelude GoStd Lifecycle Managers StartOrder.
From stdpp Require Import sets gmap.
Open Scope string_scope.
Open Scope list_scope.

(** ** The registry *)

Section Registry.
Context {O : Type} {C : Component O}.
Implicit Types (o x : O) (l items : list O) (byTag : gmap string O) (t : string).

(** Abstract operations on an ordered registry. *)
Definition spec_get t items : option O := snd <$> list_find (fun x => Tag x = t) items.
Definition spec_remove t items : list O := filter (fun x => Tag x <> t) items.
Definition spec_put o items : list O := spec_remove (Tag o) items ++ [o].

Record registry_ok items byTag : Prop := {
  rg_tags : NoDup (map Tag items);
  rg_map t : byTag !! t = spec_get t items
}.

Lemma tags_inj l x y : NoDup (map Tag l) -> x ∈ l -> y ∈ l -> Tag x = Tag y -> x = y.
Proof.
  induction l as [|a l IH]; simpl; [set_solver|]. intros [Hn Hl]%NoDup_cons Hx Hy E.
  apply elem_of_cons in Hx as [->|Hx], Hy as [->|Hy]; auto; exfalso; apply Hn, list_elem_of_fmap; eauto.
Qed.

Lemma spec_get_Some t items o :
  NoDup (map Tag items) -> spec_get t items = Some o <-> o ∈ items /\ Tag o = t.
Proof.
  intros Hn. unfold spec_get. split.
  - intros H. apply fmap_Some in H as ([i x] & H & ->). apply list_find_Some in H as (Hi & Hx & _).
    split; [by eapply list_elem_of_lookup_2|done].
  - intros (Hin & <-). destruct (list_find _ items) as [[i x]|] eqn:E; simpl.
    + apply list_find_Some in E as (Hi & Hx & _). apply list_elem_of_lookup_2 in Hi. f_equal.
      by apply (tags_inj items).
    + apply list_find_None in E. rewrite Forall_forall in E. by apply E in Hin.
Qed.

Lemma Index_elem o l : o ∈ l -> exists i, Index o l = Some i /\ l !! i = Some o.
Proof.
  intros H. unfold Index. destruct (list_find_elem_of (fun x => x = o) l o H eq_refl) as [[i x] E].
  rewrite E. apply list_find_Some in E as (? & -> & ?). by exists i.
Qed.

Lemma filter_all {A} (P : A -> Prop) `{!forall y, Decision (P y)} (l : list A) : Forall P l -> filter P l = l.
Proof. induction 1 as [|y l Hy _ IH]; [done|]. by rewrite filter_cons_True, IH. Qed.

(** Deleting at the index of an object is removing its tag. *)
Lemma delete_at_spec i o l :
  NoDup (map Tag l) -> l !! i = Some o -> delete_at i l = spec_remove (Tag o) l.
Proof.
  intros Hn Hi. unfold delete_at, spec_remove. rewrite <- (take_drop_middle l i o Hi) in Hn |- * at 3.
  rewrite map_app in Hn. cbn [map] in Hn. apply NoDup_app in Hn as (_ & Hb & Ha).
  apply NoDup_cons in Ha as [Ha _].
  rewrite filter_app, filter_cons_False by (intros H; by apply H).
  f_equal; symmetry; apply filter_all, Forall_forall; intros x Hx E.
  - apply (Hb (Tag x)); [by apply list_elem_of_fmap_2|]. rewrite E. set_solver.
  - apply Ha. rewrite <- E. by apply list_elem_of_fmap_2.
Qed.

Lemma spec_remove_tags t items : NoDup (map Tag items) -> NoDup (map Tag (spec_remove t items)) /\
  t ∉ map Tag (spec_remove t items).
Proof.
  unfold spec_remove. induction items as [|x l IH]; simpl; [split; [constructor|set_solver]|].
  intros [Hx Hl]%NoDup_cons. destruct (IH Hl) as [H1 H2].
  destruct (decide (Tag x = t)) as [E|E].
  - rewrite filter_cons_False by (intros H; by apply H). done.
  - rewrite filter_cons_True by done. simpl. split; [|set_solver].
    constructor; [|done]. intros H. apply Hx. apply list_elem_of_fmap in H as (y & -> & Hy).
    apply list_elem_of_filter in Hy as [_ Hy]. by apply list_elem_of_fmap_2.
Qed.

Lemma spec_get_remove t u items :
  spec_get u (spec_remove t items) = if decide (u = t) then None else spec_get u items.
Proof.
  unfold spec_get, spec_remove. induction items as [|x l IH]; simpl; [by case_decide|].
  destruct (decide (Tag x = t)) as [E|E].
  - rewrite filter_cons_False by (intros H; by apply H). rewrite IH. case_decide; [done|].
    rewrite decide_False by congruence. by destruct (list_find _ l) as [[]|].
  - rewrite filter_cons_True by done. simpl. destruct (decide (Tag x = u)) as [E2|E2]; simpl.
    + rewrite decide_False by congruence. done.
    + destruct (list_find _ (filter _ l)) as [[]|], (list_find (fun x => Tag x = u) l) as [[]|];
        simpl in *; case_decide; congruence.
Qed.

Lemma spec_get_put o u items :
  spec_get u (spec_put o items) = if decide (u = Tag o) then Some o else spec_get u items.
Proof.
  unfold spec_put. assert (forall l, spec_get u (l ++ [o]) = match spec_get u l with
    | Some x => Some x | None => if decide (u = Tag o) then Some o else None end) as ->.
  { intros l. unfold spec_get. induction l as [|x l IH]; simpl.
    - destruct (decide (Tag o = u)), (decide (u = Tag o)); simpl; congruence.
    - destruct (decide (Tag x = u)); simpl; [done|].
      destruct (list_find _ (l ++ [o])) as [[]|], (list_find _ l) as [[]|]; simpl in *; congruence. }
  rewrite spec_get_remove. case_decide; [done|]. by destruct (spec_get u items).
Qed.

Lemma registry_remove items byTag t :
  registry_ok items byTag -> registry_ok (spec_remove t items) (delete t byTag).
Proof.
  intros [Hn Hm]. split; [by apply spec_remove_tags|]. intros u.
  rewrite spec_get_remove, lookup_delete, Hm. by destruct (decide (t = u)), (decide (u = t)); subst.
Qed.

Lemma registry_put items byTag o :
  registry_ok items byTag -> registry_ok (spec_put o items) (<[Tag o := o]> byTag).
Proof.
  intros [Hn Hm]. split.
  - destruct (spec_remove_tags (Tag o) items Hn) as [H1 H2]. unfold spec_put. rewrite map_app.
    apply NoDup_app. split_and!; [done| |apply NoDup_singleton]. simpl. set_solver.
  - intros u. rewrite spec_get_put, lookup_insert, Hm. by destruct (decide (Tag o = u)), (decide (u = Tag o)); subst.
Qed.

(** The object a tag is mapped to is found by its index, and deleting there removes the tag. *)
Lemma registry_index items byTag t o :
  registry_ok items byTag -> byTag !! t = Some o ->
  exists i, Index o items = Some i /\ delete_at i items = spec_remove t items /\ o ∈ items /\ Tag o = t.
Proof.
  intros [Hn Hm] E. rewrite Hm in E. apply spec_get_Some in E as [Hin <-]; [|done].
  destruct (Index_elem o items Hin) as (i & Hi & Hl). exists i. split_and!; try done. by apply delete_at_spec.
Qed.

Lemma registry_fresh items byTag t : registry_ok items byTag -> byTag !! t = None -> spec_remove t items = items.
Proof.
  intros [Hn Hm] E. rewrite Hm in E. apply filter_all, Forall_forall. intros x Hx Ht.
  assert (spec_get t items = Some x) by (by apply spec_get_Some). congruence.
Qed.
End Registry.

(** ** The outbound manager *)

Section Outbounds.
Context {O : Type} {C : Component O} {L : Lifecycle O} {Opt : Type}.
Implicit Types (m : OutManager O) (s : LState) (o : O) (endpoint : Manager O).

(** The registry of outbound types gives an object the tag it is asked for. *)
Definition honest (create : creator_or_invalid (Opt := Opt)) : Prop :=
  forall tag typ options s o s', create tag typ options s = (Ok o, s') -> Tag o = tag.

(** The operations of a manager that is not closed. *)
Inductive out_step : OutManager O * LState -> OutManager O * LState -> Prop :=
| StepCreate create tag typ options m s r m' s' :
    honest create -> OutManager_Create create tag typ options m s = (r, m', s') -> out_step (m, s) (m', s')
| StepRemove tag m s r m' s' : OutManager_Remove tag m s = (r, m', s') -> out_step (m, s) (m', s')
| StepStart fallback endpoint stage m s r m' s' :
    OutManager_Start fallback endpoint stage m s = Some (r, m', s') -> out_step (m, s) (m', s').

Definition out_reachable (p : OutManager O * LState) : Prop :=
  exists defaultTag s, rtc out_step (NewOutManager defaultTag, s) p.

Record out_ok m : Prop := {
  ok_registry : registry_ok (o_outbounds m) (o_outboundByTag m);
  ok_empty : o_defaultTag m = "" -> o_defaultOutbound m = None -> o_outbounds m = []
}.

Lemma create_outbound_tag create tag typ options s o s' :
  honest create -> create_outbound create tag typ options s = (Ok o, s') -> Tag o = tag.
Proof.
  intros H. unfold create_outbound. destruct (create tag typ (inl options) s) as [[x|e|msg] s1] eqn:E;
    intros E'; simplify_eq; eauto.
Qed.

Lemma register_items tag o items m :
  o_outbounds (register tag o items m) = items ++ [o] /\
  o_outboundByTag (register tag o items m) = <[tag := o]> (o_outboundByTag m) /\
  o_defaultTag (register tag o items m) = o_defaultTag m /\
  o_started (register tag o items m) = o_started m /\
  o_defaultOutbound (register tag o items m) =
    if bool_decide (tag = o_defaultTag m) || (str_empty (o_defaultTag m) && bool_decide (o_defaultOutbound m = None))
    then Some o else o_defaultOutbound m.
Proof. unfold register. cbv zeta. simpl. by destruct (_ || _). Qed.

(** What [Create] does, on every branch. *)
Lemma OutManager_Create_cases create tag typ options m s r m' s' :
  honest create -> registry_ok (o_outbounds m) (o_outboundByTag m) ->
  OutManager_Create create tag typ options m s = (r, m', s') ->
  match r with
  | Ok _ => exists o s1, Tag o = tag /\ tag <> "" /\ m' = register tag o (spec_remove tag (o_outbounds m)) m /\
      create_outbound create tag typ options s = (Ok o, s1) /\
      (o_started m = true -> forall x, o_outboundByTag m !! tag = Some x -> exists s2, common_Close x s2 = (None, s'))
  | Err _ => m' = m
  | Panic msg => m' = m /\ fst (create_outbound create tag typ options s) = Panic msg
  end.
Proof.
  intros Hc Hreg. unfold OutManager_Create, str_empty. case_bool_decide as Htag; [intros; by simplify_eq|].
  destruct (create_outbound create tag typ options s) as [[o|e|msg] s1] eqn:Ec; [|intros; by simplify_eq..].
  pose proof (create_outbound_tag _ _ _ _ _ _ _ Hc Ec) as Et.
  destruct (if o_started m then _ else _) as [[e|] s2]; [intros; by simplify_eq|].
  destruct (o_outboundByTag m !! tag) as [x|] eqn:Ex.
  - unfold close_replaced. destruct (registry_index _ _ _ _ Hreg Ex) as (i & -> & -> & _ & _).
    destruct (o_started m); [|intros; simplify_eq; by exists o, s1].
    destruct (common_Close x s2) as [[e|] s3] eqn:Ecl; simpl; [intros; by simplify_eq|].
    intros; simplify_eq. exists o, s1. split_and!; try done. intros _ y ?; simplify_eq. by exists s2.
  - intros; simplify_eq. exists o, s1. split_and!; try done. by rewrite (registry_fresh _ _ _ Hreg).
Qed.

(** What [Remove] does, on every branch. *)
Lemma OutManager_Remove_cases tag m s r m' s' :
  registry_ok (o_outbounds m) (o_outboundByTag m) ->
  OutManager_Remove tag m s = (r, m', s') ->
  match spec_get tag (o_outbounds m) with
  | None => r = Err ErrInvalid /\ m' = m /\ s' = s
  | Some o =>
      o_outbounds m' = spec_remove tag (o_outbounds m) /\ o_outboundByTag m' = delete tag (o_outboundByTag m) /\
      o_defaultTag m' = o_defaultTag m /\ o_started m' = o_started m /\
      o_defaultOutbound m' = (if bool_decide (o_defaultOutbound m = Some o) then head (o_outbounds m') else o_defaultOutbound m) /\
      (map_list (o_dependByTag m) tag = [] ->
         o_dependByTag m' = foldl (undepend tag) (o_dependByTag m) (Dependencies o)) /\
      (if nonempty (map_list (o_dependByTag m) tag)
       then r = Err (depended_error "outbound" tag (map_list (o_dependByTag m) tag)) /\ s' = s
       else if o_started m then r = err_result (fst (common_Close o s)) /\ s' = snd (common_Close o s)
       else r = Ok tt /\ s' = s)
  end.
Proof.
  intros Hreg. unfold OutManager_Remove. destruct (o_outboundByTag m !! tag) as [o|] eqn:E.
  - pose proof (rg_map _ _ Hreg tag) as Hg. rewrite E in Hg. rewrite <- Hg.
    destruct (registry_index _ _ _ _ Hreg E) as (i & -> & -> & _ & _). cbv zeta. simpl.
    case_bool_decide; simpl; destruct (map_list (o_dependByTag m) tag) eqn:En; simpl;
      try (destruct (o_started m) eqn:Es; [destruct (common_Close o s) as [e s1]|]); intros; simplify_eq;
      simpl; split_and!; done || by destruct (o_started m).
  - pose proof (rg_map _ _ Hreg tag) as Hg. rewrite E in Hg. rewrite <- Hg. intros; by simplify_eq.
Qed.

(** What [Start] does to the registry. *)
Lemma OutManager_Start_cases fallback endpoint stage m s r m' s' :
  OutManager_Start fallback endpoint stage m s = Some (r, m', s') ->
  o_defaultTag m' = o_defaultTag m /\ o_dependByTag m' = o_dependByTag m /\
  (o_outbounds m' = o_outbounds m /\ o_outboundByTag m' = o_outboundByTag m /\
     (o_defaultOutbound m' = None -> o_defaultOutbound m = None) \/
   exists o, o_outbounds m' = o_outbounds m ++ [o] /\ o_outboundByTag m' = <[Tag o := o]> (o_outboundByTag m) /\
     o_defaultTag m = "" /\ o_defaultOutbound m = None /\ o_defaultOutbound m' = Some o /\
     exists s1, fallback s = (Ok o, s1)).
Proof.
  unfold OutManager_Start. destruct (stage_passed _ _ _); [by intros; simplify_eq; split_and!; [done..|left]|].
  case_bool_decide.
  - unfold choose_default, str_empty. simpl. destruct (o_defaultOutbound m) as [d|] eqn:Ed; simpl.
    + intros (p & _ & ?)%fmap_Some; simplify_eq; simpl. split_and!; [done..|left; split_and!; congruence].
    + case_bool_decide as Ht; simpl.
      * destruct (fallback s) as [[o|e|msg] s1] eqn:Ef; simpl; [|intros; simplify_eq; simpl; by split_and!; [done..|left]..].
        intros (p & _ & ?)%fmap_Some; simplify_eq; simpl. split_and!; [done..|]. right. exists o. split_and!; eauto.
      * destruct (Manager_Get endpoint (o_defaultTag m)) as [o|]; simpl.
        -- intros (p & _ & ?)%fmap_Some; simplify_eq; simpl. split_and!; [done..|left; split_and!; congruence].
        -- intros; simplify_eq; simpl; by split_and!; [done..|left].
  - destruct (start_stage _ _ _ _) as [e s1]. intros; simplify_eq; simpl. by split_and!; [done..|left].
Qed.

Lemma spec_put_nil o : spec_put o [] = [o].
Proof. done. Qed.

Lemma out_step_ok m s m' s' : out_step (m, s) (m', s') -> out_ok m -> out_ok m'.
Proof.
  intros Hstep Hok. pose proof Hok as [Hreg Hempty]. inversion Hstep; subst.
  - match goal with H : OutManager_Create _ _ _ _ _ _ = _ |- _ => apply OutManager_Create_cases in H; [rename H into Hc|done..] end.
    destruct r as [[]| |msg]; [|by subst|by destruct Hc as [-> _]].
    destruct Hc as (o & s1 & <- & Htag & -> & _).
    destruct (register_items (Tag o) o (spec_remove (Tag o) (o_outbounds m)) m) as (Hi & Hb & Hd & _ & Hdef).
    split.
    + rewrite Hi, Hb. by apply registry_put.
    + rewrite Hd, Hdef. intros Ht Hn. unfold str_empty in Hn. rewrite Ht in Hn.
      rewrite bool_decide_eq_false_2 in Hn by done. rewrite bool_decide_eq_true_2 in Hn by done. simpl in Hn.
      case_bool_decide; simplify_eq.
  - match goal with H : OutManager_Remove _ _ _ = _ |- _ => apply OutManager_Remove_cases in H; [rename H into Hc|done] end.
    destruct (spec_get tag (o_outbounds m)) as [o|] eqn:Eg; [|by destruct Hc as (_ & -> & _)].
    destruct Hc as (Hi & Hb & Hd & _ & Hdef & _). split.
    + rewrite Hi, Hb. by apply registry_remove.
    + rewrite Hd, Hdef. intros Ht Hn. case_bool_decide.
      * by destruct (o_outbounds m').
      * rewrite (Hempty Ht Hn) in Eg. done.
  - match goal with H : OutManager_Start _ _ _ _ _ = _ |- _ => apply OutManager_Start_cases in H; rename H into Hc end.
    destruct Hc as (Hd & _ & [(Hi & Hb & Hdef)|(o & Hi & Hb & Ht & Hn & Hdef & _)]).
    + split; [by rewrite Hi, Hb|]. rewrite Hi, Hd. auto.
    + split; [|by rewrite Hdef]. rewrite Hi, Hb. pose proof (registry_put _ _ o Hreg) as H.
      by rewrite (Hempty Ht Hn) in H |- *.
Qed.

Lemma out_steps_ok p q : rtc out_step p q -> out_ok (fst p) -> out_ok (fst q).
Proof.
  induction 1 as [|[m1 s1] [m2 s2] q Hstep _ IH]; [done|]. intros H. apply IH. by eapply out_step_ok.
Qed.
Lemma out_reachable_ok m s : out_reachable (m, s) -> out_ok m.
Proof.
  intros (d & s0 & H). apply (out_steps_ok _ _ H). split; [by split; [constructor|]|done].
Qed.

(** C5: The outbound manager implements an ordered registry until it is closed.  In every state it reaches by [Create], [Remove] and [Start], its list
    has no two outbounds of the same tag and [Outbound] finds what the list holds, or else an
    endpoint; a successful [Create] moves the tag to the end of the list with the new outbound, a
    failed one changes nothing; [Remove] deletes the tag, and only a known one; and neither
    panics with a missing index.  Once [Close] has closed a started manager this is lost: every tag it had is still found, and [Remove] of it panics. *)
Theorem out_manager_refines m s :
  out_reachable (m, s) ->
  NoDup (map Tag (o_outbounds m)) /\
  (forall endpoint tag, OutManager_Outbound endpoint m tag =
     match spec_get tag (o_outbounds m) with Some o => Some o | None => Manager_Get endpoint tag end) /\
  (forall create tag typ options r m' s',
     honest create -> OutManager_Create create tag typ options m s = (r, m', s') ->
     match r with
     | Ok _ => exists o, Tag o = tag /\ o_outbounds m' = spec_put o (o_outbounds m)
     | Err _ => m' = m
     | Panic msg => fst (create_outbound create tag typ options s) = Panic msg
     end) /\
  (forall tag r m' s', OutManager_Remove tag m s = (r, m', s') ->
     match spec_get tag (o_outbounds m) with
     | Some o => o_outbounds m' = spec_remove tag (o_outbounds m) /\ forall msg, r <> Panic msg
     | None => r = Err ErrInvalid /\ m' = m
     end) /\
  (forall closable r m' s' endpoint tag o, OutManager_Close closable m s = (r, m', s') -> o_started m = true -> spec_get tag (o_outbounds m) = Some o ->
     o_outbounds m' = [] /\ OutManager_Outbound endpoint m' tag = Some o /\ fst (fst (OutManager_Remove tag m' s')) = Panic invalid_index).
Proof.
  intros Hr. apply out_reachable_ok in Hr as [Hreg _]. split_and!.
  - apply Hreg.
  - intros endpoint tag. unfold OutManager_Outbound. by rewrite (rg_map _ _ Hreg).
  - intros create tag typ options r m' s' Hc H. apply OutManager_Create_cases in H; [|done..].
    destruct r; [|done|tauto]. destruct H as (o & s1 & <- & _ & -> & _). exists o. split; [done|].
    apply register_items.
  - intros tag r m' s' H. apply OutManager_Remove_cases in H; [|done].
    destruct (spec_get tag (o_outbounds m)) as [o|]; [|tauto]. destruct H as (-> & _ & _ & _ & _ & _ & H).
    split; [done|]. intros msg ->. destruct (nonempty _); [naive_solver|].
    destruct (o_started m); [|naive_solver]. destruct H as [H _]. by destruct (fst (common_Close o s)).
  - intros closable r m' s' endpoint tag o H Hst Ho. unfold OutManager_Close in H. rewrite Hst in H. cbn [negb] in H.
    destruct (close_all _ _ _ _ _) as [errs s1]. injection H as <- <- <-. rewrite <- (rg_map _ _ Hreg) in Ho.
    unfold OutManager_Outbound, OutManager_Remove. cbn. by rewrite Ho.
Qed.

(** An outbound that is the default because it was the first (no default tag is set) stays the
    default when [Create] replaces it: it is no longer in the list or found by its tag, it has
    been closed if the manager is started, and connections without a rule still go to it. *)
Theorem replaced_default_stays create tag typ options m s m' s' old endpoint :
  out_reachable (m, s) -> honest create ->
  (forall o s2, create_outbound create tag typ options s = (Ok o, s2) -> o <> old) ->
  o_defaultTag m = "" -> o_defaultOutbound m = Some old -> o_outboundByTag m !! tag = Some old ->
  OutManager_Create create tag typ options m s = (Ok tt, m', s') ->
  OutManager_Default m' = Some old /\ (old ∉ o_outbounds m') /\
  OutManager_Outbound endpoint m' tag <> Some old /\
  (o_started m = true -> exists s2, common_Close old s2 = (None, s')).
Proof.
  intros Hr Hc Hnew Hd Hdef Hold H. apply out_reachable_ok in Hr as [Hreg _].
  destruct (registry_index _ _ _ _ Hreg Hold) as (_ & _ & _ & _ & Ht).
  apply OutManager_Create_cases in H as (o & s1 & <- & Htag & -> & Hcr & Hclosed); [|done..].
  destruct (register_items (Tag o) o (spec_remove (Tag o) (o_outbounds m)) m) as (Hi & Hb & _ & _ & Hdef').
  apply Hnew in Hcr. split_and!.
  - unfold OutManager_Default. rewrite Hdef', Hd, Hdef. rewrite bool_decide_eq_false_2 by done. done.
  - rewrite Hi. unfold spec_remove. intros [Hin|Hin]%elem_of_app; [|set_solver].
    apply list_elem_of_filter in Hin as [Hin _]. done.
  - unfold OutManager_Outbound. rewrite Hb, lookup_insert_eq. congruence.
  - intros Hs. by apply Hclosed.
Qed.

(** [Remove] of an outbound others depend on answers an error, but it has removed the outbound
    all the same, without closing it; the second attempt says that it does not exist. *)
Theorem remove_depended_removes tag m s o :
  out_reachable (m, s) -> o_outboundByTag m !! tag = Some o -> map_list (o_dependByTag m) tag <> [] ->
  exists m', OutManager_Remove tag m s =
      (Err (depended_error "outbound" tag (map_list (o_dependByTag m) tag)), m', s) /\
    o_outbounds m' = spec_remove tag (o_outbounds m) /\ (o ∉ o_outbounds m') /\
    OutManager_Remove tag m' s = (Err ErrInvalid, m', s).
Proof.
  intros Hr Hin Hdep. apply out_reachable_ok in Hr as [Hreg _].
  destruct (OutManager_Remove tag m s) as [[r m'] s'] eqn:E. exists m'.
  pose proof (OutManager_Remove_cases _ _ _ _ _ _ Hreg E) as H.
  pose proof Hin as Hget. rewrite (rg_map _ _ Hreg) in Hget. rewrite Hget in H.
  destruct H as (Hi & Hb & _ & _ & _ & _ & H). apply nonempty_true in Hdep. rewrite Hdep in H.
  destruct H as [-> ->]. apply spec_get_Some in Hget as [_ Ht]; [|apply Hreg]. split_and!; try done.
  - rewrite Hi. intros H. by apply list_elem_of_filter in H as [H _].
  - unfold OutManager_Remove. by rewrite Hb, lookup_delete_eq.
Qed.
End Outbounds.

(** ** The DNS transport manager *)

Section Transports.
Context {O : Type} {C : Component O} {L : Lifecycle O}.
Implicit Types (m : TransportManager O) (s : LState) (o : O).

(** When the default DNS server is removed and others are left, the check on the server that
    is to take its place is the wrong way round: a fake IP server becomes the default, and any other
    one is refused with the error that the default cannot be fakeip, the removed server being
    left as the default, unclosed. *)
Theorem remove_default_transport tag m s o next rest :
  registry_ok (t_transports m) (t_transportByTag m) ->
  t_transportByTag m !! tag = Some o -> t_defaultTransport m = Some o ->
  spec_remove tag (t_transports m) = next :: rest ->
  exists r m' s', TransportManager_Remove tag m s = (r, m', s') /\ t_transports m' = next :: rest /\
    (Type_ next = DNSTypeFakeIP -> t_defaultTransport m' = Some next) /\
    (Type_ next <> DNSTypeFakeIP ->
       r = Err default_fakeip_error /\ t_defaultTransport m' = Some o /\ (o ∉ t_transports m') /\ s' = s).
Proof.
  intros Hreg Ho Hdef Hrest. unfold TransportManager_Remove. rewrite Ho.
  destruct (registry_index _ _ _ _ Hreg Ho) as (i & -> & -> & Hin & Ht). rewrite Hrest. simpl.
  rewrite bool_decide_eq_true_2 by done. case_bool_decide as Hf; simpl.
  - destruct (nonempty _); [by eexists _, _, _|].
    destruct (t_started m); [destruct (call MClose o s)|]; by eexists _, _, _.
  - eexists _, _, _. split_and!; try done. intros _. split_and!; try done. simpl.
    rewrite <- Hrest. intros H. by apply list_elem_of_filter in H as [H _].
Qed.
End Transports.

(** ** Endpoints, inbounds and services *)

Section Simple.
Context {O : Type} {C : Component O} {L : Lifecycle O} {Opt : Type}.
Implicit Types (m : Manager O) (s : LState) (o : O).

Definition manager_ok m : Prop := registry_ok (m_items m) (m_byTag m).

Theorem manager_refines (create : creator (Opt := Opt)) k tag typ options m s r m' s' :
  (forall tag typ options s o s', create tag typ options s = (Ok o, s') -> Tag o = tag) ->
  manager_ok m -> Manager_Create create k tag typ options m s = (r, m', s') ->
  manager_ok m' /\
  match r with
  | Ok _ => exists o, Tag o = tag /\ m_items m' = spec_put o (m_items m)
  | Err _ => m' = m
  | Panic msg => m' = m /\ fst (create tag typ options s) = Panic msg
  end.
Proof.
  intros Hc Hreg. unfold Manager_Create.
  destruct (create tag typ options s) as [[o|e|msg] s1] eqn:Ec; [|intros; by simplify_eq..].
  apply Hc in Ec as <-. destruct (if m_started m then _ else _) as [[e|] s2]; [intros; by simplify_eq|].
  pose proof (registry_put _ _ o Hreg) as Hput.
  destruct (m_byTag m !! Tag o) as [x|] eqn:Ex.
  - destruct (close_replaced _ _ _ x s2) as [[e|] s3]; [intros; by simplify_eq|].
    destruct (registry_index _ _ _ _ Hreg Ex) as (i & -> & -> & _ & _). intros; simplify_eq. split; [done|by exists o].
  - unfold spec_put in Hput. rewrite (registry_fresh _ _ _ Hreg Ex) in Hput.
    intros; simplify_eq. split; [done|]. exists o. split; [done|]. unfold spec_put.
    by rewrite (registry_fresh _ _ _ Hreg Ex).
Qed.

Theorem manager_remove k tag m s r m' s' :
  manager_ok m -> Manager_Remove k tag m s = (r, m', s') ->
  manager_ok m' /\
  match spec_get tag (m_items m) with
  | Some o => m_items m' = spec_remove tag (m_items m) /\
      (if m_started m then r = err_result (fst (call MClose o s)) /\ s' = snd (call MClose o s) else r = Ok tt /\ s' = s)
  | None => r = Err ErrInvalid /\ m' = m
  end.
Proof.
  intros Hreg. unfold Manager_Remove. pose proof (rg_map _ _ Hreg tag) as Hg.
  destruct (m_byTag m !! tag) as [o|] eqn:E; rewrite <- Hg; [|intros; by simplify_eq].
  destruct (registry_index _ _ _ _ Hreg E) as (i & -> & -> & _ & _).
  pose proof (registry_remove _ _ tag Hreg) as Hrem. simpl.
  destruct (m_started m); [destruct (call MClose o s) as [e s1]|]; intros; by simplify_eq.
Qed.

(** A closed manager still finds its objects by tag, and panics when one is removed. *)
Theorem closed_manager_panics k tag m s o :
  m_started m = true -> m_byTag m !! tag = Some o ->
  exists m' s', Manager_Close k m s = (Ok tt, m', s') /\ Manager_Get m' tag = Some o /\
    exists m2, Manager_Remove k tag m' s' = (Panic (mk_invalid_index k), m2, s').
Proof.
  intros Hs Ho. unfold Manager_Close. rewrite Hs. destruct (close_all _ _ _ _ _) as [errs s1]. simpl.
  eexists _, _. split_and!; [done|done|]. unfold Manager_Remove. simpl. rewrite Ho. by eexists.
Qed.
End Simple.

(** ** The dependency index *)

Section Dependents.
Context {O : Type} {C : Component O} {L : Lifecycle O} {Opt : Type}.
Implicit Types (m : OutManager O) (s : LState) (o : O) (d : gmap string (list string)).

(** The tags of the outbounds that depend on a tag, in the order of the list. *)
Definition dependents (tag : string) (items : list O) : list string :=
  map Tag (filter (fun x => tag ∈ Dependencies x) items).

Definition index_ok m : Prop :=
  (forall tag, map_list (o_dependByTag m) tag = dependents tag (o_outbounds m)) /\
  Forall (fun o => NoDup (Dependencies o)) (o_outbounds m).

(** A registry whose objects list each dependency once. *)
Definition no_repeats (create : creator_or_invalid (Opt := Opt)) : Prop :=
  forall tag typ options s o s', create tag typ options s = (Ok o, s') -> NoDup (Dependencies o).

Lemma map_list_insert d k l u : map_list (<[k := l]> d) u = if decide (k = u) then l else map_list d u.
Proof. unfold map_list. rewrite lookup_insert. by case_decide. Qed.
Lemma map_list_delete d k u : map_list (delete k d) u = if decide (k = u) then [] else map_list d u.
Proof. unfold map_list. rewrite lookup_delete. by case_decide. Qed.

Lemma depend_all tag deps : forall d u, NoDup deps ->
  map_list (foldl (fun d dependency => map_append d dependency tag) d deps) u =
  map_list d u ++ (if decide (u ∈ deps) then [tag] else []).
Proof.
  induction deps as [|a deps IH]; intros d u Hn; simpl; [by rewrite app_nil_r|].
  apply NoDup_cons in Hn as [Ha Hn]. rewrite IH by done. unfold map_append. rewrite map_list_insert.
  destruct (decide (a = u)) as [<-|Hau].
  - rewrite (decide_True (P := a ∈ a :: deps)) by set_solver. by rewrite decide_False, app_nil_r.
  - f_equal. by apply decide_ext; set_solver.
Qed.

Lemma undepend_all tag deps : forall d u, NoDup deps ->
  (forall k, k ∈ deps -> length (map_list d k) = 1%nat -> map_list d k = [tag]) ->
  map_list (foldl (undepend tag) d deps) u =
  if decide (u ∈ deps) then List.filter (fun it => negb (bool_decide (it = tag))) (map_list d u) else map_list d u.
Proof.
  induction deps as [|a deps IH]; intros d u Hn H1; simpl; [done|].
  apply NoDup_cons in Hn as [Ha Hn].
  assert (forall k, map_list (undepend tag d a) k = if decide (a = k)
    then List.filter (fun it => negb (bool_decide (it = tag))) (map_list d a) else map_list d k) as Hu.
  { intros k. unfold undepend. destruct (Nat.eqb_spec (length (map_list d a)) 1) as [E|E].
    - rewrite map_list_delete. case_decide; [|done]. rewrite (H1 a) by (done || set_solver). simpl.
      by rewrite bool_decide_eq_true_2.
    - by rewrite map_list_insert. }
  rewrite IH; [|done|].
  - rewrite Hu. destruct (decide (a = u)) as [<-|Hau].
    + rewrite decide_False by done. by rewrite decide_True by set_solver.
    + destruct (decide (u ∈ deps)); [rewrite decide_True by set_solver|rewrite decide_False by set_solver]; done.
  - intros k Hk. rewrite Hu, decide_False by (intros ->; done). apply H1. set_solver.
Qed.

Lemma dependents_snoc tag items o :
  dependents tag (items ++ [o]) = dependents tag items ++ (if decide (tag ∈ Dependencies o) then [Tag o] else []).
Proof.
  unfold dependents. rewrite filter_app, map_app. f_equal. destruct (decide _).
  - by rewrite filter_cons_True.
  - by rewrite filter_cons_False.
Qed.

Lemma dependents_remove tag u items :
  dependents u (spec_remove tag items) =
  List.filter (fun it => negb (bool_decide (it = tag))) (dependents u items).
Proof.
  unfold dependents, spec_remove. induction items as [|x l IH]; [done|].
  destruct (decide (Tag x = tag)) as [Ht|Ht], (decide (u ∈ Dependencies x)) as [Hu|Hu];
    repeat ((rewrite filter_cons_True by done) || (rewrite filter_cons_False by (first [done | intros Hc; by apply Hc])));
    simpl; rewrite ?IH; try done.
  - by rewrite bool_decide_eq_true_2.
  - by rewrite bool_decide_eq_false_2.
Qed.

Lemma elem_of_dependents t tag items :
  t ∈ dependents tag items <-> exists x, x ∈ items /\ tag ∈ Dependencies x /\ t = Tag x.
Proof.
  unfold dependents. rewrite list_elem_of_fmap. setoid_rewrite list_elem_of_filter. naive_solver.
Qed.

(** Operations without surprises: [Create] with a new tag, [Remove] of an outbound none depends on, and a
    fallback that depends on nothing. *)
Inductive careful_step : OutManager O * LState -> OutManager O * LState -> Prop :=
| CarefulCreate create tag typ options m s r m' s' :
    honest (Opt := Opt) create -> no_repeats create -> o_outboundByTag m !! tag = None ->
    OutManager_Create create tag typ options m s = (r, m', s') -> careful_step (m, s) (m', s')
| CarefulRemove tag m s r m' s' :
    map_list (o_dependByTag m) tag = [] -> OutManager_Remove tag m s = (r, m', s') -> careful_step (m, s) (m', s')
| CarefulStart fallback endpoint stage m s r m' s' :
    (forall s o s', fallback s = (Ok o, s') -> Dependencies o = []) ->
    OutManager_Start fallback endpoint stage m s = Some (r, m', s') -> careful_step (m, s) (m', s').

Lemma careful_out m s m' s' : careful_step (m, s) (m', s') -> out_step (Opt := Opt) (m, s) (m', s').
Proof. inversion 1; subst; [by eapply StepCreate|by eapply StepRemove|by eapply StepStart]. Qed.

Lemma create_outbound_no_repeats create tag typ options s o s' :
  no_repeats create -> create_outbound create tag typ options s = (Ok o, s') -> NoDup (Dependencies o).
Proof.
  intros H. unfold create_outbound. destruct (create tag typ (inl options) s) as [[x|e|msg] s1] eqn:E;
    intros E'; simplify_eq; eauto.
Qed.

Lemma register_index tag o items m :
  Tag o = tag -> NoDup (Dependencies o) -> index_ok m -> items = o_outbounds m -> index_ok (register tag o items m).
Proof.
  intros <- Hn [Hi Hall] ->. destruct (register_items (Tag o) o (o_outbounds m) m) as [Hit _].
  split; [|rewrite Hit; by apply Forall_app_2; [|constructor]]. intros u.
  replace (o_dependByTag (register (Tag o) o (o_outbounds m) m)) with
    (foldl (fun d dependency => map_append d dependency (Tag o)) (o_dependByTag m) (Dependencies o)).
  - by rewrite Hit, depend_all, Hi, dependents_snoc.
  - unfold register. cbv zeta. simpl. by destruct (_ || _).
Qed.

Lemma careful_step_index m s m' s' :
  careful_step (m, s) (m', s') -> out_ok m -> index_ok m -> index_ok m'.
Proof.
  intros Hstep [Hreg Hempty] Hix. pose proof Hix as [Hi Hall]. inversion Hstep; subst.
  - match goal with H : OutManager_Create _ _ _ _ _ _ = _ |- _ => apply OutManager_Create_cases in H; [rename H into Hc|done..] end.
    destruct r as [[]| |msg]; [|by subst|by destruct Hc as [-> _]]. destruct Hc as (o & s1 & Ht & _ & -> & Hcr & _).
    apply register_index; [done|by eapply create_outbound_no_repeats|done|]. by apply (registry_fresh _ _ _ Hreg).
  - match goal with H : OutManager_Remove _ _ _ = _ |- _ => apply OutManager_Remove_cases in H; [rename H into Hc|done] end.
    destruct (spec_get tag (o_outbounds m)) as [o|] eqn:Eg; [|by destruct Hc as (_ & -> & _)].
    apply spec_get_Some in Eg as [Hin Ht]; [|apply Hreg]. destruct Hc as (Hit & _ & _ & _ & _ & Hdep & _).
    split; [|rewrite Hit; apply Forall_forall; intros x [_ Hx]%list_elem_of_filter; by apply (proj1 (Forall_forall _ _) Hall)]. intros u.
    rewrite Hit, Hdep, dependents_remove, <- Hi by done.
    assert (forall k, k ∈ Dependencies o -> tag ∈ map_list (o_dependByTag m) k) as Hmem.
    { intros k Hk. rewrite Hi. apply elem_of_dependents. eauto. }
    rewrite undepend_all; [|by apply (proj1 (Forall_forall _ _) Hall)|].
    + destruct (decide (u ∈ Dependencies o)) as [Hu|Hu]; [done|]. symmetry. rewrite (Hi u). apply forallb_filter_id.
      apply forallb_true_iff. intros t Hx. apply elem_of_dependents in Hx as (x & Hx & Hux & ->).
      rewrite bool_decide_eq_false_2; [done|]. intros Hxt.
      assert (x = o) as -> by (apply (tags_inj (o_outbounds m)); [apply Hreg|done|done|congruence]). done.
    + intros k Hk Hlen. specialize (Hmem k Hk). destruct (map_list (o_dependByTag m) k) as [|a [|b l]]; try done.
      apply list_elem_of_singleton in Hmem. by subst.
  - match goal with H : OutManager_Start _ _ _ _ _ = _ |- _ => apply OutManager_Start_cases in H; rename H into Hc end.
    destruct Hc as (_ & Hd & [(Hit & _)|(o & Hit & _ & Ht & Hn & _ & s1 & Hf)]);
      (split; [intros u; rewrite Hd, Hi|]; rewrite Hit); try done.
    + rewrite dependents_snoc, decide_False, app_nil_r; [done|].
      match goal with H : forall _ _ _, fallback _ = _ -> _ |- _ => rewrite (H _ _ _ Hf) end. set_solver.
    + apply Forall_app_2; [done|]. constructor; [|done].
      match goal with H : forall _ _ _, fallback _ = _ -> _ |- _ => rewrite (H _ _ _ Hf) end. constructor.
Qed.

(** The dependency index is exact, as long as no outbound is replaced, no removal is refused, and the
    fallback depends on nothing: under each tag it has the tags of the outbounds that depend on
    it, in the order of the list. *)
Theorem depend_index_exact defaultTag s0 m s tag :
  rtc careful_step (NewOutManager defaultTag, s0) (m, s) ->
  map_list (o_dependByTag m) tag = dependents tag (o_outbounds m).
Proof.
  intros H. assert (forall p q, rtc careful_step p q -> out_ok (fst p) /\ index_ok (fst p) -> index_ok (fst q)) as Hind.
  { induction 1 as [|[m1 s1] [m2 s2] q Hstep _ IH]; [tauto|]. intros [H1 H2]. apply IH. split.
    - apply careful_out in Hstep. by eapply out_step_ok.
    - by eapply careful_step_index. }
  apply (Hind _ _ H). split; [split; [by split; [constructor|]|done]|]. by split; [|constructor].
Qed.
End Dependents.

(** ** A concrete system of objects *)

(** An object: identity, type, tag, dependencies. *)
Record thing : Type := mkThing { th_id : nat; th_Type : string; th_Tag : string; th_Dependencies : list string }.
#[export] Instance thing_eq_dec : EqDecision thing.
Proof. solve_decision. Defined.

#[export] Instance thing_component : Component thing := {|
  Type_ := th_Type; Tag := th_Tag; Dependencies := th_Dependencies;
  isLifecycle _ := true; isPreStarter _ := false; isStarter _ := false; isPostStarter _ := false
|}.

(** Calls never fail but those on an object of type "broken". *)
Definition sample_call (o : thing) : option error :=
  if bool_decide (th_Type o = "broken") then Some (ELib "broken") else None.
#[export] Instance thing_lifecycle : Lifecycle thing := {|
  LState := nat;
  call c o n := (sample_call o, S n);
  common_Close o n := (sample_call o, S n);
  Error _ := "error"
|}.

Definition th (n : nat) (tag : string) (deps : list string) : thing := mkThing n "vless" tag deps.
(** The registry: the number of calls made so far is the identity of the new object. *)
Definition sample_create (deps : list string) : creator_or_invalid (Opt := unit) :=
  fun tag typ _ n => (Ok (mkThing n typ tag deps), S n).

Lemma sample_create_honest deps : honest (sample_create deps).
Proof. intros tag typ options s o s' [= <- _]. done. Qed.

(** "a" goes through "b", which goes through "c". *)
Definition three : list thing := [th 0 "a" ["b"]; th 1 "b" ["c"]; th 2 "c" []].
Definition circle : list thing := [th 0 "a" ["b"]; th 1 "b" ["a"]].
Definition by_tag (l : list thing) : gmap string thing := foldl (fun m o => <[Tag o := o]> m) ∅ l.

Lemma start_in_order_complete_witness :
  exists s', start_in_order outbound_wording (by_tag three) three 0%nat = Some (Ok tt, s').
Proof.
  apply (start_in_order_complete thing_lifecycle outbound_wording (by_tag three) three 0%nat).
  - by apply (bool_decide_unpack _), I.
  - intros o t [->|[->|[->|[]%elem_of_nil]%elem_of_cons]%elem_of_cons]%elem_of_cons; reflexivity.
  - exists [th 2 "c" []; th 1 "b" ["c"]; th 0 "a" ["b"]]. split.
    + symmetry. apply (Permutation_rev three).
    + repeat split; repeat constructor; set_solver.
Defined.

Lemma start_in_order_obstacle_witness :
  exists e, start_in_order outbound_wording (by_tag circle) circle 0%nat = Some (Err e, 0%nat) /\
    obstacle outbound_wording (by_tag circle) circle e /\
    e = ENew "circular outbound dependency: a -> b -> a".
Proof.
  exists (ENew "circular outbound dependency: a -> b -> a"). split; [vm_compute; reflexivity|]. split; [|reflexivity].
  assert (forall t p, by_tag circle !! t = Some p -> p ∈ circle /\ Tag p = t) as Hmap.
  { intros t p H. change (by_tag circle) with (<["b" := th 1 "b" ["a"]]> (<["a" := th 0 "a" ["b"]]> (∅ : gmap string thing))) in H.
    rewrite !lookup_insert in H. destruct (decide ("b" = t)) as [<-|]; [injection H as <-; split; [set_solver|done]|].
    destruct (decide ("a" = t)) as [<-|]; [injection H as <-; split; [set_solver|done]|]. by rewrite lookup_empty in H. }
  destruct (start_in_order_obstacle thing_lifecycle outbound_wording (by_tag circle) circle 0%nat
    (Err (ENew "circular outbound dependency: a -> b -> a")) 0%nat) as (e & [= <-] & [H|(o & e0 & s1 & _ & _ & H)]);
    [by apply (bool_decide_unpack _), I|exact Hmap|vm_compute; reflexivity|discriminate|exact H|discriminate H].
Defined.

(** ** The outbound manager *)

(** The result of a call on the manager, and the manager after two outbounds were created, "a" and then "b" that
    depends on "a". *)
Definition after_create (deps : list string) (tag : string) (p : OutManager thing * nat) : OutManager thing * nat :=
  let '(_, m, s) := OutManager_Create (sample_create deps) tag "vless" tt (fst p) (snd p) in (m, s).
Definition two_created : OutManager thing * nat :=
  after_create ["a"] "b" (after_create [] "a" (NewOutManager "", 0%nat)).

Lemma sample_create_no_repeats deps : NoDup deps -> no_repeats (sample_create deps).
Proof. intros H tag typ options s o s' [= <- _]. exact H. Qed.

Lemma after_create_step deps tag p : out_step (Opt := unit) p (after_create deps tag p).
Proof.
  destruct p as [m s]. unfold after_create. destruct (OutManager_Create _ _ _ _ _ _) as [[r m'] s'] eqn:E.
  eapply StepCreate; [apply sample_create_honest|exact E].
Qed.
Lemma two_created_reachable : out_reachable (Opt := unit) two_created.
Proof.
  exists "", 0%nat. unfold two_created.
  eapply rtc_l; [apply after_create_step|]. eapply rtc_l; [apply after_create_step|]. done.
Qed.

Lemma out_manager_refines_witness :
  map Tag (o_outbounds (fst two_created)) = ["a"; "b"] /\
  OutManager_Outbound NewManager (fst two_created) "b" = spec_get "b" (o_outbounds (fst two_created)).
Proof.
  split; [reflexivity|]. destruct two_created as [m s] eqn:E.
  assert (out_reachable (Opt := unit) (m, s)) as Hr by (rewrite <- E; apply two_created_reachable).
  destruct (out_manager_refines (L := thing_lifecycle) (Opt := unit) m s Hr) as (_ & H & _). simpl. rewrite H.
  by destruct (spec_get "b" (o_outbounds m)).
Defined.

Lemma replaced_default_stays_witness :
  OutManager_Default (fst (after_create [] "a" two_created)) = Some (mkThing 0 "vless" "a" []) /\
  map th_id (o_outbounds (fst (after_create [] "a" two_created))) = [1; 2]%nat.
Proof.
  split; [|reflexivity].
  destruct (replaced_default_stays (L := thing_lifecycle) (sample_create []) "a" "vless" tt (fst two_created) (snd two_created)
    (fst (after_create [] "a" two_created)) (snd (after_create [] "a" two_created))
    (mkThing 0 "vless" "a" []) NewManager) as [H _];
    [apply two_created_reachable|apply sample_create_honest|intros o s2 [= <- _]; discriminate
    |vm_compute; reflexivity..|exact H].
Defined.

Lemma remove_depended_removes_witness :
  exists m', OutManager_Remove "a" (fst two_created) (snd two_created) =
    (Err (ENew "outbound[a] is depended by b"), m', 2%nat) /\ map Tag (o_outbounds m') = ["b"].
Proof.
  destruct (remove_depended_removes (L := thing_lifecycle) (Opt := unit) "a" (fst two_created) (snd two_created)
    (mkThing 0 "vless" "a" [])) as (m' & H & Hi & _);
    [apply two_created_reachable|vm_compute; reflexivity|vm_compute; discriminate|].
  exists m'. split; [exact H|]. rewrite Hi. reflexivity.
Defined.

Lemma depend_index_exact_witness :
  map_list (o_dependByTag (fst two_created)) "a" = ["b"].
Proof.
  assert (forall deps tag p, NoDup deps -> o_outboundByTag (fst p) !! tag = None -> careful_step (Opt := unit) p (after_create deps tag p)) as Hs.
  { intros deps tag [m s] Hd Hn. unfold after_create.
    destruct (OutManager_Create _ _ _ _ _ _) as [[r m'] s'] eqn:E.
    eapply CarefulCreate; [apply sample_create_honest|by apply sample_create_no_repeats|exact Hn|exact E]. }
  rewrite (depend_index_exact (L := thing_lifecycle) (Opt := unit) "" 0%nat (fst two_created) (snd two_created));
    [reflexivity|].
  rewrite <- surjective_pairing.
  eapply rtc_l; [apply (Hs [] "a"); [constructor|reflexivity]|].
  eapply rtc_l; [apply (Hs ["a"] "b"); [apply NoDup_singleton|reflexivity]|]. apply rtc_refl.
Defined.

(** ** The DNS transport manager *)

(** Two servers, "a" the default. *)
Definition two_servers (next_type : string) : TransportManager thing :=
  mkTransportManager "" false StartStateInitialize [th 0 "a" []; mkThing 1 next_type "b" []]
    (by_tag [th 0 "a" []; mkThing 1 next_type "b" []]) ∅ (Some (th 0 "a" [])) None.

Lemma two_servers_ok next_type :
  registry_ok (t_transports (two_servers next_type)) (t_transportByTag (two_servers next_type)).
Proof.
  split; [by apply (bool_decide_unpack _)|]. intros t.
  change (t_transportByTag (two_servers next_type)) with
    (<["b" := mkThing 1 next_type "b" []]> (<["a" := th 0 "a" []]> (∅ : gmap string thing))).
  rewrite !lookup_insert. unfold spec_get. simpl.
  destruct (decide ("b" = t)) as [Hb|Hb], (decide ("a" = t)) as [Ha|Ha]; simpl; try reflexivity; congruence.
Qed.

Lemma remove_default_transport_witness :
  exists m', TransportManager_Remove "a" (two_servers "udp") 0%nat = (Err default_fakeip_error, m', 0%nat) /\
    t_defaultTransport m' = Some (th 0 "a" []).
Proof.
  destruct (remove_default_transport (L := thing_lifecycle) "a" (two_servers "udp") 0%nat (th 0 "a" [])
    (mkThing 1 "udp" "b" []) []) as (r & m' & s' & H & _ & _ & Hf);
    [apply two_servers_ok|reflexivity..|].
  destruct Hf as (-> & Hd & _ & ->); [discriminate|]. by exists m'.
Defined.
