(* ===== verification/FakeIP.v ===== *)
(** * FakeIP: the fake IP store

    dns/transport/fakeip/store.go ([Store]) over a storage (adapter/fakeip.go [FakeIPStorage], an
    interface here too), the storage in memory (dns/transport/fakeip/memory.go), and the metadata
    that is saved (adapter/fakeip_metadata.go).

    The mutexes make every operation atomic; the other storage, the cache file
    (experimental/cachefile/fakeip.go), keeps its maps in a bbolt database. *)

From S2P Require Import Prelude GoStd NetIP.
Open Scope string_scope.

(** [Addr.Next]: the invalid address after the last one. *)
Definition Addr_Next (a : Addr) : Addr :=
  match a with
  | AddrNone => AddrNone
  | Addr4 v => if (v + 1 =? 2 ^ 32)%N then AddrNone else Addr4 (v + 1)
  | Addr6 v zone => if (v + 1 =? 2 ^ 128)%N then AddrNone else Addr6 (v + 1) zone
  end.

Record FakeIPMetadata : Type := mkFakeIPMetadata {
  fm_Inet4Range : Prefix;
  fm_Inet6Range : Prefix;
  fm_Inet4Current : Addr;
  fm_Inet6Current : Addr
}.

(** ** The storage *)

Class FakeIPStorage (ST : Type) : Type := {
  LoadMetadata : ST -> option FakeIPMetadata * ST;                 (* FakeIPMetadata() *)
  SaveMetadata : FakeIPMetadata -> ST -> option error * ST;        (* FakeIPSaveMetadata *)
  SaveMetadataAsync : FakeIPMetadata -> ST -> ST;                  (* FakeIPSaveMetadataAsync *)
  FakeIPStore : Addr -> string -> ST -> option error * ST;
  FakeIPLoad : Addr -> ST -> option string;
  FakeIPLoadDomain : string -> bool -> ST -> option Addr;
  FakeIPReset : ST -> option error * ST
}.

(** What the store relies on.  A storage maps addresses to domains, and domains to addresses for
    each family; storing an address first forgets the domain it had.  Storing and resetting
    succeed. *)
Class FakeIPStorageLaws (ST : Type) `{!FakeIPStorage ST} : Prop := {
  store_ok a d st : fst (FakeIPStore a d st) = None;
  store_load a d st b : FakeIPLoad b (snd (FakeIPStore a d st)) = if decide (a = b) then Some d else FakeIPLoad b st;
  store_domain a d st e v6 : FakeIPLoadDomain e v6 (snd (FakeIPStore a d st)) =
    if bool_decide (v6 = negb (Addr_Is4 a)) then
      if decide (d = e) then Some a
      else if decide (FakeIPLoad a st = Some e) then None else FakeIPLoadDomain e v6 st
    else FakeIPLoadDomain e v6 st;
  async_load m st b : FakeIPLoad b (SaveMetadataAsync m st) = FakeIPLoad b st;
  async_domain m st e v6 : FakeIPLoadDomain e v6 (SaveMetadataAsync m st) = FakeIPLoadDomain e v6 st;
  reset_load st b : FakeIPLoad b (snd (FakeIPReset st)) = None;
  reset_domain st e v6 : FakeIPLoadDomain e v6 (snd (FakeIPReset st)) = None
}.

(** ** The storage in memory *)

#[export] Instance Addr_countable : Countable Addr.
Proof.
  refine (inj_countable' (fun a => match a with AddrNone => None | Addr4 v => Some (inl v) | Addr6 v z => Some (inr (v, z)) end)
    (fun o : option (N + N * string) =>
       match o with None => AddrNone | Some (inl v) => Addr4 v | Some (inr (v, z)) => Addr6 v z end) _).
  by intros [].
Defined.

Record MemoryStorage : Type := mkMemoryStorage {
  ms_addressCache : gmap Addr string;
  ms_domainCache4 : gmap string Addr;
  ms_domainCache6 : gmap string Addr
}.
Definition NewMemoryStorage : MemoryStorage := mkMemoryStorage ∅ ∅ ∅.

Definition Memory_FakeIPStore (address : Addr) (domain : string) (s : MemoryStorage) : option error * MemoryStorage :=
  let s :=
    match ms_addressCache s !! address with
    | Some oldDomain =>
        if Addr_Is4 address
        then mkMemoryStorage (ms_addressCache s) (delete oldDomain (ms_domainCache4 s)) (ms_domainCache6 s)
        else mkMemoryStorage (ms_addressCache s) (ms_domainCache4 s) (delete oldDomain (ms_domainCache6 s))
    | None => s
    end in
  let addresses := <[address := domain]> (ms_addressCache s) in
  (None,
   if Addr_Is4 address
   then mkMemoryStorage addresses (<[domain := address]> (ms_domainCache4 s)) (ms_domainCache6 s)
   else mkMemoryStorage addresses (ms_domainCache4 s) (<[domain := address]> (ms_domainCache6 s))).
Definition Memory_FakeIPLoad (address : Addr) (s : MemoryStorage) : option string := ms_addressCache s !! address.
Definition Memory_FakeIPLoadDomain (domain : string) (isIPv6 : bool) (s : MemoryStorage) : option Addr :=
  if negb isIPv6 then ms_domainCache4 s !! domain else ms_domainCache6 s !! domain.
Definition Memory_FakeIPReset (s : MemoryStorage) : option error * MemoryStorage := (None, NewMemoryStorage).

#[export] Instance Memory : FakeIPStorage MemoryStorage := {|
  LoadMetadata s := (None, s);
  SaveMetadata _ s := (None, s);
  SaveMetadataAsync _ s := s;
  FakeIPStore := Memory_FakeIPStore;
  FakeIPLoad := Memory_FakeIPLoad;
  FakeIPLoadDomain := Memory_FakeIPLoadDomain;
  FakeIPReset := Memory_FakeIPReset
|}.

#[export] Instance Memory_laws : FakeIPStorageLaws MemoryStorage.
Proof.
  split; try done.
  - intros a d st b. simpl. unfold Memory_FakeIPLoad, Memory_FakeIPStore. simpl.
    destruct (ms_addressCache st !! a), (Addr_Is4 a); simpl; by rewrite lookup_insert.
  - intros a d st e v6. simpl. unfold Memory_FakeIPLoadDomain, Memory_FakeIPLoad, Memory_FakeIPStore. simpl.
    destruct (ms_addressCache st !! a) as [old|] eqn:E, (Addr_Is4 a), v6; simpl;
      rewrite ?lookup_insert, ?lookup_delete; repeat case_decide; try congruence.
  - by intros st e [].
Qed.

(** ** The store *)

Section Store.
Context {ST : Type} {FS : FakeIPStorage ST}.

Record Store : Type := mkStore {
  s_inet4Range : Prefix;
  s_inet6Range : Prefix;
  s_inet4Current : Addr;
  s_inet6Current : Addr;
  s_storage : option ST
}.
Definition NewStore (inet4Range inet6Range : Prefix) : Store :=
  mkStore inet4Range inet6Range AddrNone AddrNone None.

(** Where the addresses handed out begin and begin again: [range.Addr().Next().Next()]. *)
Definition first_address (range : Prefix) : Addr := Addr_Next (Addr_Next (pfx_ip range)).

Definition metadata (s : Store) : FakeIPMetadata :=
  mkFakeIPMetadata (s_inet4Range s) (s_inet6Range s) (s_inet4Current s) (s_inet6Current s).

(** [Start], given the storage (the cache file if it stores fake IPs, memory otherwise). *)
Definition Store_Start (storage : ST) (s : Store) : Store :=
  let '(saved, st) := LoadMetadata storage in
  match saved with
  | Some md =>
      if bool_decide (fm_Inet4Range md = s_inet4Range s) && bool_decide (fm_Inet6Range md = s_inet6Range s)
      then mkStore (s_inet4Range s) (s_inet6Range s) (fm_Inet4Current md) (fm_Inet6Current md) (Some st)
      else
        mkStore (s_inet4Range s) (s_inet6Range s)
          (if Prefix_IsValid (s_inet4Range s) then first_address (s_inet4Range s) else s_inet4Current s)
          (if Prefix_IsValid (s_inet6Range s) then first_address (s_inet6Range s) else s_inet6Current s)
          (Some (snd (FakeIPReset st)))
  | None =>
      mkStore (s_inet4Range s) (s_inet6Range s)
        (if Prefix_IsValid (s_inet4Range s) then first_address (s_inet4Range s) else s_inet4Current s)
        (if Prefix_IsValid (s_inet6Range s) then first_address (s_inet6Range s) else s_inet6Current s)
        (Some (snd (FakeIPReset st)))
  end.

Definition Store_Contains (address : Addr) (s : Store) : bool :=
  Prefix_Contains (s_inet4Range s) address || Prefix_Contains (s_inet6Range s) address.

Definition nil_storage : string := "runtime error: invalid memory address or nil pointer dereference".

Definition Store_Close (s : Store) : option error * Store :=
  match s_storage s with
  | None => (None, s)
  | Some st =>
      let '(e, st) := SaveMetadata (metadata s) st in
      (e, mkStore (s_inet4Range s) (s_inet6Range s) (s_inet4Current s) (s_inet6Current s) (Some st))
  end.

(** The next address of a range: after the current one, or the first again. *)
Definition next_address (range : Prefix) (current : Addr) : Addr :=
  if Prefix_Contains range (Addr_Next current) then Addr_Next current else first_address range.

(** [Create]; the second look at the storage, under the lock, sees what the first one saw. *)
Definition Store_Create (domain : string) (isIPv6 : bool) (s : Store) : result Addr * Store :=
  match s_storage s with
  | None => (Panic nil_storage, s)
  | Some st =>
      match FakeIPLoadDomain domain isIPv6 st with
      | Some address => (Ok address, s)
      | None =>
          let current := if isIPv6 then s_inet6Current s else s_inet4Current s in
          if negb (Addr_IsValid current)
          then (Err (ENew ("missing IPv" +:+ (if isIPv6 then "6" else "4") +:+ " fakeip address range")), s)
          else
            let address := next_address (if isIPv6 then s_inet6Range s else s_inet4Range s) current in
            let s := if isIPv6
              then mkStore (s_inet4Range s) (s_inet6Range s) (s_inet4Current s) address (s_storage s)
              else mkStore (s_inet4Range s) (s_inet6Range s) address (s_inet6Current s) (s_storage s) in
            let '(_, st) := FakeIPStore address domain st in
            let st := SaveMetadataAsync (metadata s) st in
            (Ok address, mkStore (s_inet4Range s) (s_inet6Range s) (s_inet4Current s) (s_inet6Current s) (Some st))
      end
  end.

Definition Store_Lookup (address : Addr) (s : Store) : result (option string) :=
  match s_storage s with None => Panic nil_storage | Some st => Ok (FakeIPLoad address st) end.

Definition Store_Reset (s : Store) : result (option error) * Store :=
  match s_storage s with
  | None => (Panic nil_storage, s)
  | Some st =>
      let '(e, st) := FakeIPReset st in
      (Ok e, mkStore (s_inet4Range s) (s_inet6Range s) (s_inet4Current s) (s_inet6Current s) (Some st))
  end.
End Store.
Arguments Store ST : clear implicits.
