(* ===== verification/FakeIPCodec.v ===== *)
(** * FakeIPCodec: the saved metadata of the fake IP store

    [FakeIPMetadata.MarshalBinary] and [UnmarshalBinary] (adapter/fakeip_metadata.go) on top of the
    binary forms of [netip.Addr] and [netip.Prefix] of the standard library. *)

From S2P Require Import Prelude GoStd NetIP FakeIP.
Open Scope string_scope.

(** ** Big-endian numbers *)

Definition byte_of (v : N) : ascii := ascii_of_N (v mod 256).
Fixpoint be_bytes (n : nat) (v : N) : string :=
  match n with
  | 0 => ""
  | S n => be_bytes n (v / 256) +:+ String (byte_of v) ""
  end.
Fixpoint be_val_go (acc : N) (s : string) : N :=
  match s with "" => acc | String c s => be_val_go (acc * 256 + byte_val c) s end.
Definition be_val (s : string) : N := be_val_go 0 s.

(** ** Package netip *)

Definition Addr_MarshalBinary (a : Addr) : string :=
  match a with
  | AddrNone => ""
  | Addr4 v => be_bytes 4 v
  | Addr6 v zone => be_bytes 16 v +:+ zone
  end.
Definition Addr_UnmarshalBinary (b : string) : result Addr :=
  match String.length b with
  | 0 => Ok AddrNone
  | 4 => Ok (Addr4 (be_val b))
  | n => if (16 <=? n)%nat then Ok (Addr6 (be_val (str_take 16 b)) (str_drop 16 b))
         else Err (ENew "unexpected slice size")
  end.

(** The bits of an invalid prefix, -1, are written as the byte 255. *)
Definition Prefix_MarshalBinary (p : Prefix) : string :=
  Addr_MarshalBinary (Addr_withoutZone (pfx_ip p)) +:+ String (byte_of (Z.to_N (pfx_bits p mod 256))) "".
Definition Prefix_UnmarshalBinary (b : string) : result Prefix :=
  let n := String.length b in
  if (n <? 1)%nat then Err (ENew "unexpected slice size")
  else
    let! addr := Addr_UnmarshalBinary (str_take (n - 1) b) in
    Ok (PrefixFrom addr (Z.of_N (be_val (str_drop (n - 1) b)))).

(** ** The metadata *)

(** An element: its length in two bytes, and its bytes. *)
Definition write_element (data : string) : string :=
  be_bytes 2 (N.of_nat (String.length data) mod 65536) +:+ data.

Definition Metadata_MarshalBinary (m : FakeIPMetadata) : string :=
  write_element (Prefix_MarshalBinary (fm_Inet4Range m)) +:+
  (write_element (Prefix_MarshalBinary (fm_Inet6Range m)) +:+
  (write_element (Addr_MarshalBinary (fm_Inet4Current m)) +:+
   write_element (Addr_MarshalBinary (fm_Inet6Current m)))).

(** [io.ReadFull] of a reader that has only [data] left: nothing, or not enough. *)
Definition EOF_error (data : string) : string := if str_empty data then "EOF" else "unexpected EOF".

(** A missing length panics ([common.Must]); missing bytes are an error ([io.ReadFull]). *)
Definition read_element {A} (unmarshal : string -> result A) (data : string) : result (A * string) :=
  if (String.length data <? 2)%nat then Panic (EOF_error data)
  else
    let length := N.to_nat (be_val (str_take 2 data)) in
    let data := str_drop 2 data in
    if (String.length data <? length)%nat then Err (ELib (EOF_error data))
    else
      let! v := unmarshal (str_take length data) in
      Ok (v, str_drop length data).

Definition Metadata_UnmarshalBinary (data : string) : result FakeIPMetadata :=
  let! (inet4Range, data) := read_element Prefix_UnmarshalBinary data in
  let! (inet6Range, data) := read_element Prefix_UnmarshalBinary data in
  let! (inet4Current, data) := read_element Addr_UnmarshalBinary data in
  let! (inet6Current, data) := read_element Addr_UnmarshalBinary data in
  Ok (mkFakeIPMetadata inet4Range inet6Range inet4Current inet6Current).

(** ** Round trips *)

Lemma be_bytes_length n : forall v, String.length (be_bytes n v) = n.
Proof. induction n as [|n IH]; intros v; [done|]. cbn [be_bytes]. rewrite str_length_app, IH. simpl. lia. Qed.

Lemma byte_val_of v : byte_val (byte_of v) = (v mod 256)%N.
Proof. unfold byte_val, byte_of. rewrite N_ascii_embedding; [done|]. apply N.mod_upper_bound. lia. Qed.

Lemma be_val_go_app a : forall acc b, be_val_go acc (a +:+ b) = be_val_go (be_val_go acc a) b.
Proof. induction a as [|c a IH]; intros acc b; [done|]. cbn [String.append be_val_go]. apply IH. Qed.

(** A number that fits is read back. *)
Lemma be_roundtrip n : forall v, (v < 256 ^ N.of_nat n)%N -> be_val (be_bytes n v) = v.
Proof.
  unfold be_val. induction n as [|n IH]; intros v H; [cbn in *; lia|].
  rewrite Nat2N.inj_succ, N.pow_succ_r' in H. cbn [be_bytes].
  rewrite be_val_go_app, IH by (apply N.Div0.div_lt_upper_bound; lia).
  cbn [be_val_go]. rewrite byte_val_of. rewrite (N.div_mod v 256) at 3 by lia. lia.
Qed.

Definition Addr_wf (a : Addr) : Prop :=
  match a with
  | AddrNone => True
  | Addr4 v => (v < 2 ^ 32)%N
  | Addr6 v zone => (v < 2 ^ 128)%N /\ (N.of_nat (String.length zone) < 65000)%N
  end.

Lemma Addr_roundtrip a : Addr_wf a -> Addr_UnmarshalBinary (Addr_MarshalBinary a) = Ok a.
Proof.
  unfold Addr_UnmarshalBinary, Addr_MarshalBinary. destruct a as [|v|v zone]; [done| |].
  - intros H. rewrite be_bytes_length. by rewrite be_roundtrip.
  - intros [H _]. rewrite str_length_app, be_bytes_length. cbn [Nat.add Nat.leb].
    rewrite str_take_app, str_drop_app, be_roundtrip by (done || apply be_bytes_length). done.
Qed.

(** The prefixes that [netip] makes: without zone, and with as many bits as the address has, or
    the invalid one. *)
Definition Prefix_wf (p : Prefix) : Prop :=
  p = Prefix_zero \/
  Addr_wf (pfx_ip p) /\ Addr_IsValid (pfx_ip p) = true /\ Addr_Zone (pfx_ip p) = "" /\
    (0 <= pfx_bits p <= Addr_BitLen (pfx_ip p))%Z.

Lemma withoutZone_id a : Addr_Zone a = "" -> Addr_withoutZone a = a.
Proof. destruct a as [| |v z]; simpl; intros; by subst. Qed.

Lemma Prefix_roundtrip p : Prefix_wf p -> Prefix_UnmarshalBinary (Prefix_MarshalBinary p) = Ok p.
Proof.
  intros [->|(Ha & Hv & Hz & Hb)]; [reflexivity|].
  unfold Prefix_UnmarshalBinary, Prefix_MarshalBinary. rewrite withoutZone_id by done.
  rewrite str_length_app. cbn [String.length]. destruct (Nat.ltb_spec (String.length (Addr_MarshalBinary (pfx_ip p)) + 1) 1); [lia|].
  replace (String.length (Addr_MarshalBinary (pfx_ip p)) + 1 - 1)%nat with (String.length (Addr_MarshalBinary (pfx_ip p))) by lia.
  rewrite str_take_app, str_drop_app, Addr_roundtrip by done. simpl. unfold be_val. cbn [be_val_go].
  rewrite byte_val_of. assert (pfx_bits p < 256)%Z by (destruct (pfx_ip p); simpl in *; lia).
  rewrite Z.mod_small by lia. rewrite N.mod_small by lia. unfold PrefixFrom.
  rewrite Hv, withoutZone_id by done. rewrite N.add_0_l, Z2N.id by lia.
  rewrite (proj2 (Z.leb_le _ _)), (proj2 (Z.leb_le _ _)) by lia. by destruct p.
Qed.

Lemma marshal_length a : Addr_wf a -> (N.of_nat (String.length (Addr_MarshalBinary a)) < 65100)%N.
Proof.
  destruct a as [|v|v zone]; cbn [Addr_MarshalBinary Addr_wf]; [cbn; lia| |].
  - by rewrite be_bytes_length.
  - intros [_ H]. rewrite str_length_app, be_bytes_length. lia.
Qed.

Lemma addr_marshal_length a : Addr_wf a -> (N.of_nat (String.length (Addr_MarshalBinary a)) < 65536)%N.
Proof. intros H. pose proof (marshal_length _ H). lia. Qed.

Lemma read_write_element {A} (unmarshal : string -> result A) data rest v :
  (N.of_nat (String.length data) < 65536)%N -> unmarshal data = Ok v ->
  read_element unmarshal (write_element data +:+ rest) = Ok (v, rest).
Proof.
  intros Hl Hu. unfold read_element, write_element. rewrite N.mod_small by done.
  rewrite str_app_assoc, !str_length_app, be_bytes_length.
  destruct (Nat.ltb_spec (2 + (String.length data + String.length rest)) 2); [lia|].
  rewrite str_take_app, str_drop_app by apply be_bytes_length.
  rewrite be_roundtrip by done. rewrite Nat2N.id, str_length_app.
  destruct (Nat.ltb_spec (String.length data + String.length rest) (String.length data)); [lia|].
  rewrite str_take_app, str_drop_app by done. rewrite Hu. done.
Qed.

Record Metadata_wf (m : FakeIPMetadata) : Prop := {
  wf_range4 : Prefix_wf (fm_Inet4Range m);
  wf_range6 : Prefix_wf (fm_Inet6Range m);
  wf_current4 : Addr_wf (fm_Inet4Current m);
  wf_current6 : Addr_wf (fm_Inet6Current m)
}.

Lemma prefix_marshal_length p : Prefix_wf p -> (N.of_nat (String.length (Prefix_MarshalBinary p)) < 65536)%N.
Proof.
  intros H. unfold Prefix_MarshalBinary. rewrite str_length_app. cbn [String.length].
  destruct H as [->|(Ha & _ & Hz & _)]; [done|]. rewrite withoutZone_id by done.
  pose proof (marshal_length _ Ha). lia.
Qed.

(** What the store saves is what it loads: the binary form of the metadata, and any bytes after it,
    are read back as the same ranges and addresses, whatever of them is unset. *)
Theorem metadata_roundtrip m rest :
  Metadata_wf m -> Metadata_UnmarshalBinary (Metadata_MarshalBinary m +:+ rest) = Ok m.
Proof.
  intros [H4 H6 Hc4 Hc6]. unfold Metadata_UnmarshalBinary, Metadata_MarshalBinary.
  rewrite !str_app_assoc.
  rewrite (read_write_element _ _ _ _ (prefix_marshal_length _ H4) (Prefix_roundtrip _ H4)). simpl.
  rewrite (read_write_element _ _ _ _ (prefix_marshal_length _ H6) (Prefix_roundtrip _ H6)). simpl.
  rewrite (read_write_element _ _ _ _ (addr_marshal_length _ Hc4) (Addr_roundtrip _ Hc4)). simpl.
  rewrite (read_write_element _ _ _ _ (addr_marshal_length _ Hc6) (Addr_roundtrip _ Hc6)).
  simpl. by destruct m.
Qed.

Lemma metadata_roundtrip_witness :
  let m := mkFakeIPMetadata (mkPrefix (Addr4 3323068416) 15) Prefix_zero (Addr4 3323068420) AddrNone in
  Metadata_UnmarshalBinary (Metadata_MarshalBinary m +:+ "") = Ok m.
Proof.
  intros m. apply metadata_roundtrip. split; simpl.
  - right. simpl. split_and!; done.
  - by left.
  - done.
  - done.
Defined.
