(* ===== verification/GoIO.v ===== *)
(** * GoIO: reading from streams

    Of Go's packages io and encoding/binary: [ReadFull], [ReadByte], the fixed-size values of
    [binary.Read], and varints. *)

From S2P Require Import Prelude GoStd NetIP FakeIP FakeIPCodec.
Open Scope string_scope.

(** ** Readers *)

(** A stream: the bytes to come, and the error it ends with. *)
Record Reader : Type := mkReader { rd_data : string; rd_end : error }.
Definition io_EOF : error := ELib "EOF".
Definition io_ErrUnexpectedEOF : error := ELib "unexpected EOF".
Definition set_data (s : string) (r : Reader) : Reader := mkReader s (rd_end r).

(** The error when a stream ends inside a value. *)
Definition unexpected (e : error) : error := if bool_decide (e = io_EOF) then io_ErrUnexpectedEOF else e.

(** [io.ReadFull] of [n] bytes. *)
Definition ReadFull (n : nat) (r : Reader) : result (string * Reader) :=
  if (String.length (rd_data r) <? n)%nat
  then Err (if str_empty (rd_data r) then rd_end r else unexpected (rd_end r))
  else Ok (str_take n (rd_data r), set_data (str_drop n (rd_data r)) r).
(** [ReadByte], and [binary.Read] of a [uint8]. *)
Definition ReadByte (r : Reader) : result (N * Reader) :=
  match rd_data r with "" => Err (rd_end r) | String c s => Ok (byte_val c, set_data s r) end.
(** [binary.Read] of a [bool] and of a [uint64]. *)
Definition ReadBool (r : Reader) : result (bool * Reader) :=
  let! (b, r) := ReadByte r in Ok (negb (b =? 0)%N, r).
Definition ReadUint64 (r : Reader) : result (N * Reader) :=
  let! (s, r) := ReadFull 8 r in Ok (be_val s, r).

(** [binary.PutUvarint], at most ten bytes, and [binary.ReadUvarint] of a [uint64]. *)
Fixpoint PutUvarint_go (fuel : nat) (x : N) : string :=
  match fuel with
  | O => ""
  | S f => if (x <? 128)%N then String (byte_of x) ""
           else String (byte_of (x mod 128 + 128)) (PutUvarint_go f (x / 128))
  end.
Definition PutUvarint (x : N) : string := PutUvarint_go 10 x.
Definition errOverflow : error := ELib "binary: varint overflows a 64-bit integer".
(** [n] bytes may follow, [x] is what [s] bits gave. *)
Fixpoint ReadUvarint_go (n : nat) (first : bool) (x s : N) (r : Reader) : result (N * Reader) :=
  match n with
  | O => Err errOverflow
  | S n =>
      match ReadByte r with
      | Err e => Err (if first then e else unexpected e)
      | Panic m => Panic m
      | Ok (b, r) =>
          if (b <? 128)%N then
            if bool_decide (n = 0%nat) && (1 <? b)%N then Err errOverflow
            else Ok (N.lor x (N.shiftl b s mod 2 ^ 64), r)
          else ReadUvarint_go n false (N.lor x (N.shiftl (N.land b 127) s mod 2 ^ 64)) (s + 7) r
      end
  end.
Definition ReadUvarint : Reader -> result (N * Reader) := ReadUvarint_go 10 true 0 0.

Definition byte (v : N) : string := String (byte_of v) "".

(** ** Prefixes of strings *)

Lemma str_length_drop n s : String.length (str_drop n s) = (String.length s - n)%nat.
Proof. revert s. induction n as [|n IH]; intros [|c s]; try done. apply IH. Qed.
Lemma drop_prefix n s t : (n <= String.length s)%nat -> str_drop n (s +:+ t) = str_drop n s +:+ t.
Proof.
  revert s. induction n as [|n IH]; intros [|c s] Hn; simpl in Hn; try lia; [done|done|].
  change (String c s +:+ t) with (String c (s +:+ t)). cbn [str_drop]. by rewrite IH by lia.
Qed.
Lemma take_prefix n s t : (n <= String.length s)%nat -> str_take n (s +:+ t) = str_take n s.
Proof.
  revert s. induction n as [|n IH]; intros [|c s] Hn; simpl in Hn; try lia; [done|done|].
  change (String c s +:+ t) with (String c (s +:+ t)). cbn [str_take]. by rewrite IH by lia.
Qed.
Lemma take_all n s : (String.length s <= n)%nat -> str_take n s = s.
Proof. revert s. induction n as [|n IH]; intros [|c s] H; simpl in *; try done; [lia|]. by rewrite IH by lia. Qed.
Lemma take_length n s : String.length (str_take n s) = Nat.min n (String.length s).
Proof. revert s. induction n as [|n IH]; intros [|c s]; simpl; try lia. by rewrite IH. Qed.
Lemma take_take m n s : (m <= n)%nat -> str_take m (str_take n s) = str_take m s.
Proof.
  revert n s. induction m as [|m IH]; intros [|n] [|c s] H; try done; [lia|]. cbn [str_take]. by rewrite IH by lia.
Qed.
