(* ===== verification/FakeIPLaws.v ===== *)
(** * FakeIPLaws: the fake IP store is a bounded queue

    The addresses of a range are handed out in a circle.  Seen from outside, each family is a
    queue of domains whose capacity is the length of the circle: a new domain enters at the
    front, and pushes out the oldest one when the circle is full.  Every domain of the queue has
    an address of its own, in the range, that is looked up as that domain.

    The DNS transport of dns/transport/fakeip/fakeip.go, [Start], [Close] and [Exchange] over the store,
    ends the file: an answer leads back to the name it was asked for. *)

From S2P Require Import Prelude GoStd NetIP DNSMessage Lifecycle FakeIP.
Open Scope string_scope.
Open Scope list_scope.

(** ** The circle of a range *)

Definition width (v6 : bool) : N := if v6 then 128 else 32.
Definition mk (v6 : bool) (v : N) : Addr := if v6 then Addr6 v "" else Addr4 v.

Lemma contains_mk v6 b bits v :
  (0 <= bits <= Z.of_N (width v6))%Z ->
  Prefix_Contains (mkPrefix (mk v6 b) bits) (mk v6 v) =
  bool_decide (N.shiftr b (width v6 - Z.to_N bits) = N.shiftr v (width v6 - Z.to_N bits)).
Proof.
  intros Hb. unfold Prefix_Contains, Prefix_IsValid, mk, width in *.
  destruct v6; simpl in *; rewrite (proj2 (Z.leb_le _ _)) by lia; simpl; unfold Addr_top; simpl.
  - by replace (Z.to_N (128 - bits)) with (128 - Z.to_N bits)%N by lia.
  - by replace (Z.to_N (32 - bits)) with (32 - Z.to_N bits)%N by lia.
Qed.

Section Ring.
Variables (v6 : bool) (range : Prefix).

Definition base : N := Addr_bits (pfx_ip range).
(** The bits of an address that vary in the range, and the last address. *)
Definition host_bits : N := width v6 - Z.to_N (pfx_bits range).
Definition last_value : N := (base / 2 ^ host_bits + 1) * 2 ^ host_bits - 1.
(** How many addresses are handed out: all but the first two, from the address of the prefix on. *)
Definition capacity : N := last_value - (base + 1).

Record range_ok : Prop := {
  rk_ip : pfx_ip range = mk v6 base;
  rk_base : (base < 2 ^ width v6)%N;
  rk_bits : (0 <= pfx_bits range <= Z.of_N (width v6))%Z;
  rk_room : (0 < capacity)%N
}.

(** The place in the circle, and the address, of the [k]-th allocation. *)
Definition slot (k : N) : N := k mod capacity.
Definition ring (k : N) : Addr := mk v6 (base + 2 + slot k).

Lemma mk_inj v v' : mk v6 v = mk v6 v' -> v = v'.
Proof. unfold mk. destruct v6; congruence. Qed.
Lemma mk_family v : Addr_Is4 (mk v6 v) = negb v6.
Proof. unfold mk. by destruct v6. Qed.
Lemma mk_valid v : Addr_IsValid (mk v6 v) = true.
Proof. unfold mk. by destruct v6. Qed.

Lemma mk_Next v : Addr_Next (mk v6 v) = if (v + 1 =? 2 ^ width v6)%N then AddrNone else mk v6 (v + 1).
Proof. unfold mk, width. by destruct v6. Qed.

Hypothesis Hok : range_ok.

Lemma last_value_bound : (last_value < 2 ^ width v6)%N.
Proof.
  destruct Hok as [_ Hb Hbits _]. unfold last_value, host_bits.
  set (h := (width v6 - Z.to_N (pfx_bits range))%N).
  assert (2 ^ width v6 = 2 ^ (width v6 - h) * 2 ^ h)%N as E.
  { rewrite <- N.pow_add_r. f_equal. unfold h. lia. }
  assert (0 < 2 ^ h)%N by (apply N.neq_0_lt_0, N.pow_nonzero; lia).
  assert (base / 2 ^ h < 2 ^ (width v6 - h))%N by (apply N.Div0.div_lt_upper_bound; lia).
  rewrite E. nia.
Qed.

(** What the prefix contains above its address: everything up to the last value. *)
Lemma contains_above v : (base <= v)%N -> (v < 2 ^ width v6)%N ->
  Prefix_Contains range (mk v6 v) = bool_decide (v <= last_value)%N.
Proof.
  intros Hv Hw. destruct Hok as [Hip Hb Hbits _].
  replace range with (mkPrefix (mk v6 base) (pfx_bits range)) at 1
    by (clear - Hip; destruct range; simpl in *; by subst).
  rewrite contains_mk by done. fold host_bits. apply bool_decide_ext.
  rewrite !N.shiftr_div_pow2. unfold last_value.
  assert (0 < 2 ^ host_bits)%N by (apply N.neq_0_lt_0, N.pow_nonzero; lia).
  pose proof (N.div_mod base (2 ^ host_bits) ltac:(lia)). pose proof (N.mod_upper_bound base (2 ^ host_bits) ltac:(lia)).
  pose proof (N.div_mod v (2 ^ host_bits) ltac:(lia)). pose proof (N.mod_upper_bound v (2 ^ host_bits) ltac:(lia)).
  pose proof (N.Div0.div_le_mono base v (2 ^ host_bits) Hv).
  generalize dependent (base / 2 ^ host_bits)%N. generalize dependent (v / 2 ^ host_bits)%N.
  generalize dependent (2 ^ host_bits)%N. intros P HP Hr1 Hr2 q' Hq' q Hq Hle.
  split; [intros <-; nia|]. intros H. apply N.le_antisymm; [done|].
  destruct (N.le_gt_cases q' q) as [|Hgt]; [done|exfalso].
  assert (q + 1 <= q')%N as Hq1 by (clear - Hgt; lia).
  apply (N.mul_le_mono_l _ _ P) in Hq1. generalize dependent (v mod P)%N. intros. clear Hb Hw. nia.
Qed.

Lemma slot_bound k : (slot k < capacity)%N.
Proof. apply N.mod_upper_bound. destruct Hok. lia. Qed.
Lemma slot_0 : slot 0 = 0%N.
Proof. apply N.Div0.mod_0_l. Qed.
Lemma slot_next k : slot (k + 1) = if (slot k + 1 =? capacity)%N then 0%N else (slot k + 1)%N.
Proof.
  pose proof (slot_bound k). unfold slot at 1. rewrite <- N.Div0.add_mod_idemp_l. fold (slot k).
  destruct (N.eqb_spec (slot k + 1) capacity) as [->|E]; [by apply N.Div0.mod_same|].
  apply N.mod_small. lia.
Qed.

Lemma ring_bound k : (base + 2 + slot k <= last_value)%N.
Proof. pose proof (slot_bound k) as H. unfold capacity in H. lia. Qed.

Lemma ring_contained k : Prefix_Contains range (ring k) = true.
Proof.
  pose proof last_value_bound. pose proof (ring_bound k). unfold ring.
  rewrite contains_above by lia. by apply bool_decide_eq_true_2.
Qed.

Lemma first_address_ring : first_address range = ring 0.
Proof.
  pose proof Hok as [Hip _ _ Hr]. pose proof last_value_bound. unfold capacity in Hr.
  unfold first_address, ring. rewrite Hip, mk_Next. destruct (N.eqb_spec (base + 1) (2 ^ width v6)); [lia|].
  rewrite mk_Next. destruct (N.eqb_spec (base + 1 + 1) (2 ^ width v6)); [lia|].
  f_equal. rewrite slot_0. lia.
Qed.

Lemma next_address_ring k : next_address range (ring k) = ring (k + 1).
Proof.
  pose proof last_value_bound as Hl. pose proof (ring_bound k) as Hb. pose proof (ring_bound (k + 1)) as Hb1.
  pose proof (slot_bound k) as Hs. unfold next_address. rewrite first_address_ring. unfold ring. rewrite slot_0.
  rewrite slot_next in Hb1 |- *. rewrite mk_Next.
  destruct (N.eqb_spec (slot k + 1) capacity) as [E|E].
  - assert (base + 2 + slot k = last_value)%N as -> by (unfold capacity in E; lia).
    destruct (N.eqb_spec (last_value + 1) (2 ^ width v6)).
    + unfold Prefix_Contains. simpl. by rewrite !andb_false_r.
    + rewrite contains_above by lia. rewrite bool_decide_eq_false_2 by lia. done.
  - destruct (N.eqb_spec (base + 2 + slot k + 1) (2 ^ width v6)); [lia|].
    rewrite contains_above by lia. rewrite bool_decide_eq_true_2 by lia. f_equal. lia.
Qed.

(** Less than a turn apart, the addresses differ; a full turn apart, they are the same. *)
Lemma ring_window x y : (y <= x)%N -> (x - y < capacity)%N -> ring x = ring y -> x = y.
Proof.
  intros Hle Hlt E. apply mk_inj in E. pose proof (slot_bound x). pose proof (slot_bound y).
  assert (capacity <> 0)%N as Hc by lia.
  pose proof (N.div_mod x capacity Hc) as Hx. pose proof (N.div_mod y capacity Hc) as Hy.
  fold (slot x) in Hx. fold (slot y) in Hy.
  generalize dependent (x / capacity)%N. generalize dependent (y / capacity)%N. intros q Hq q' Hq'.
  destruct (N.lt_trichotomy q q') as [H1|[->|H1]]; [exfalso|lia|exfalso];
    apply N.le_succ_l in H1; apply (N.mul_le_mono_l _ _ capacity) in H1; rewrite N.mul_succ_r in H1; lia.
Qed.
Lemma ring_turn k : ring (k + capacity) = ring k.
Proof.
  unfold ring, slot. f_equal. f_equal. rewrite <- N.Div0.add_mod_idemp_r, N.Div0.mod_same.
  by rewrite N.add_0_r.
Qed.
End Ring.

(** ** The queue *)

(** A request for the address of a domain: known domains stay where they are. *)
Definition spec_create (cap : N) (d : string) (q : list string) : list string :=
  if decide (d ∈ q) then q
  else d :: (if (N.of_nat (length q) <? cap)%N then q else removelast q).

Lemma lookup_removelast {A} (l : list A) i : removelast l !! i = if decide (S i < length l)%nat then l !! i else None.
Proof.
  rewrite removelast_firstn_len. case_decide.
  - apply lookup_take_lt. lia.
  - apply lookup_take_ge. lia.
Qed.

Section Queue.
Context {ST : Type} {FS : FakeIPStorage ST} {FL : FakeIPStorageLaws ST}.
Implicit Types (s : Store ST) (st : ST) (q : list string) (d e : string).

Definition range_of (v6 : bool) s : Prefix := if v6 then s_inet6Range s else s_inet4Range s.
Definition current_of (v6 : bool) s : Addr := if v6 then s_inet6Current s else s_inet4Current s.

(** The domain at place [i] of the queue has the address of allocation [k - i]. *)
Definition placed (v6 : bool) (range : Prefix) (k : N) q d (a : Addr) : Prop :=
  exists i, q !! i = Some d /\ a = ring v6 range (k - N.of_nat i).

Record family (v6 : bool) s st q k : Prop := {
  fa_range : range_ok v6 (range_of v6 s) /\ current_of v6 s = ring v6 (range_of v6 s) k /\
               N.of_nat (length q) = N.min k (capacity v6 (range_of v6 s)) \/
             current_of v6 s = AddrNone /\ q = [];
  fa_NoDup : NoDup q;
  fa_load a d : Addr_Is4 a = negb v6 -> FakeIPLoad a st = Some d <-> placed v6 (range_of v6 s) k q d a;
  fa_domain d a : FakeIPLoadDomain d v6 st = Some a <-> placed v6 (range_of v6 s) k q d a
}.

(** The store is the two queues. *)
Definition related s q4 q6 : Prop :=
  exists st k4 k6, s_storage s = Some st /\ family false s st q4 k4 /\ family true s st q6 k6.

(** Storing under the next address. *)
Section Store.
Variables (v6 : bool) (s : Store ST) (st st' : ST) (q : list string) (k : N) (d : string).
Abbreviation range := (range_of v6 s).
Abbreviation a := (ring v6 range (k + 1)).
Hypothesis Hok : range_ok v6 range.
Hypothesis Hlen : N.of_nat (length q) = N.min k (capacity v6 range).
Hypothesis Hnew : d ∉ q.
Hypothesis Hnodup : NoDup q.
Hypothesis Hload : forall b, FakeIPLoad b st' = if decide (a = b) then Some d else FakeIPLoad b st.
Hypothesis Hdom : forall e, FakeIPLoadDomain e v6 st' =
  if decide (d = e) then Some a else if decide (FakeIPLoad a st = Some e) then None else FakeIPLoadDomain e v6 st.
Hypothesis Hfload : forall b e, Addr_Is4 b = negb v6 -> FakeIPLoad b st = Some e <-> placed v6 range k q e b.
Hypothesis Hfdom : forall e b, FakeIPLoadDomain e v6 st = Some b <-> placed v6 range k q e b.

(** What is left of the queue behind the new domain. *)
Lemma rest_lookup i e :
  (if (N.of_nat (length q) <? capacity v6 range)%N then q else removelast q) !! i = Some e <->
  q !! i = Some e /\ (N.of_nat (S i) < capacity v6 range)%N.
Proof.
  clear - Hlen. destruct (N.ltb_spec (N.of_nat (length q)) (capacity v6 range)).
  - split; [intros Hi|tauto]. split; [done|]. apply lookup_lt_Some in Hi. lia.
  - rewrite lookup_removelast. case_decide; split; intros; try done.
    + split; [done|]. lia.
    + naive_solver.
    + destruct_and?. lia.
Qed.

(** The next address is that of the domain pushed out, and of no other. *)
Lemma next_is_oldest i e : q !! i = Some e ->
  ring v6 range (k - N.of_nat i) = a <-> N.of_nat (S i) = capacity v6 range.
Proof.
  clear - Hok Hlen. intros Hi. apply lookup_lt_Some in Hi. split.
  - intros E. destruct (N.lt_trichotomy (N.of_nat (S i)) (capacity v6 range)) as [H|[H|H]]; [exfalso|done|lia].
    symmetry in E. apply ring_window in E; [lia|done|lia|lia].
  - intros E. rewrite <- (ring_turn v6 range (k - N.of_nat i)). f_equal. lia.
Qed.

Lemma placed_next e b :
  placed v6 range (k + 1) (d :: (if (N.of_nat (length q) <? capacity v6 range)%N then q else removelast q)) e b <->
  (e = d /\ b = a) \/ (e <> d /\ b <> a /\ placed v6 range k q e b).
Proof.
  clear - Hok Hlen Hnew. split.
  - intros ([|i] & Hi & ->); simpl in Hi; [injection Hi as <-; left; split; [done|f_equal; lia]|right].
    apply rest_lookup in Hi as [Hi Hlt]. assert (ring v6 range (k + 1 - N.of_nat (S i)) = ring v6 range (k - N.of_nat i)) as ->
      by (f_equal; lia).
    split_and!; [intros ->; by apply Hnew, (list_elem_of_lookup_2 _ i)| |by exists i].
    intros E. apply (next_is_oldest i e Hi) in E. lia.
  - intros [[-> ->]|(Hed & Hba & i & Hi & ->)]; [exists 0%nat; split; [done|f_equal; lia]|].
    exists (S i). split; [|f_equal; lia]. simpl. apply rest_lookup. split; [done|].
    pose proof (lookup_lt_Some _ _ _ Hi). destruct (N.eq_dec (N.of_nat (S i)) (capacity v6 range)) as [E|E]; [|lia].
    exfalso. apply Hba. by apply (next_is_oldest i e).
Qed.

Lemma rest_NoDup : NoDup (d :: (if (N.of_nat (length q) <? capacity v6 range)%N then q else removelast q)).
Proof.
  clear - Hlen Hnew Hnodup. assert (forall e, e ∈ (if (N.of_nat (length q) <? capacity v6 range)%N then q else removelast q) -> e ∈ q) as Hin.
  { intros e (i & Hi)%list_elem_of_lookup. apply rest_lookup in Hi as [Hi _]. by apply list_elem_of_lookup_2 in Hi. }
  constructor; [by intros ?%Hin|]. destruct (_ <? _)%N; [done|]. rewrite removelast_firstn_len.
  pose proof Hnodup as H. rewrite <- (take_drop (pred (length q)) q) in H. by apply NoDup_app in H as [H _].
Qed.

Lemma rest_length :
  N.of_nat (length (d :: (if (N.of_nat (length q) <? capacity v6 range)%N then q else removelast q))) =
  N.min (k + 1) (capacity v6 range).
Proof.
  clear - Hok Hlen. pose proof (rk_room _ _ Hok). simpl. destruct (N.ltb_spec (N.of_nat (length q)) (capacity v6 range)); [lia|].
  rewrite removelast_firstn_len, length_take. lia.
Qed.

Lemma store_load_next b e : Addr_Is4 b = negb v6 ->
  FakeIPLoad b st' = Some e <->
  placed v6 range (k + 1) (d :: (if (N.of_nat (length q) <? capacity v6 range)%N then q else removelast q)) e b.
Proof.
  clear - Hok Hlen Hnew Hload Hfload. intros Hb. rewrite placed_next, Hload by done. case_decide as E.
  - subst b. split; [intros [= ->]; by left|]. naive_solver.
  - rewrite Hfload by done. split; [|naive_solver]. intros H. right. split_and!; [|congruence|done].
    intros ->. destruct H as (i & Hi & _). by apply Hnew, (list_elem_of_lookup_2 _ i).
Qed.

Lemma store_domain_next e b :
  FakeIPLoadDomain e v6 st' = Some b <->
  placed v6 range (k + 1) (d :: (if (N.of_nat (length q) <? capacity v6 range)%N then q else removelast q)) e b.
Proof.
  clear - Hok Hlen Hnew Hnodup Hdom Hfload Hfdom. rewrite placed_next, Hdom by done. destruct (decide (d = e)) as [->|Hde]; [naive_solver|].
  assert (Addr_Is4 a = negb v6) as Ha by apply mk_family.
  destruct (decide (FakeIPLoad a st = Some e)) as [E|E].
  - split; [done|]. intros [[? _]|(_ & Hb & i & Hi & ->)]; [congruence|]. exfalso.
    apply (Hfload _ _ Ha) in E as (j & Hj & E). rewrite (NoDup_lookup _ _ _ _ Hnodup Hi Hj) in Hb. congruence.
  - rewrite Hfdom. split; [|naive_solver]. intros H. right. split_and!; [congruence| |done].
    intros ->. apply E. by apply Hfload.
Qed.
End Store.

(** ** The operations *)

(** The store after handing out [a] for [d] in a family. *)
Definition with_current (v6 : bool) (a : Addr) s : Store ST :=
  if v6 then mkStore (s_inet4Range s) (s_inet6Range s) (s_inet4Current s) a (s_storage s)
  else mkStore (s_inet4Range s) (s_inet6Range s) a (s_inet6Current s) (s_storage s).
Definition with_storage st s : Store ST :=
  mkStore (s_inet4Range s) (s_inet6Range s) (s_inet4Current s) (s_inet6Current s) (Some st).
Definition stored (a : Addr) d st s : ST := SaveMetadataAsync (metadata s) (snd (FakeIPStore a d st)).

Lemma Store_Create_new v6 s st d :
  s_storage s = Some st -> FakeIPLoadDomain d v6 st = None -> Addr_IsValid (current_of v6 s) = true ->
  let a := next_address (range_of v6 s) (current_of v6 s) in
  let s1 := with_current v6 a s in
  Store_Create d v6 s = (Ok a, with_storage (stored a d st s1) s1).
Proof.
  intros Hst Hd Hc. unfold Store_Create, stored, current_of, range_of in *. rewrite Hst, Hd.
  destruct v6; rewrite Hc; simpl; rewrite (surjective_pairing (FakeIPStore _ _ _)); done.
Qed.

Lemma family_other v6 s st st' q k a :
  family (negb v6) s st q k -> Addr_Is4 a = negb v6 ->
  (forall b, Addr_Is4 b = negb (negb v6) -> FakeIPLoad b st' = FakeIPLoad b st) ->
  (forall e, FakeIPLoadDomain e (negb v6) st' = FakeIPLoadDomain e (negb v6) st) ->
  family (negb v6) (with_storage st' (with_current v6 a s)) st' q k.
Proof.
  intros [H1 H2 H3 H4] Ha Hl Hd.
  assert (range_of (negb v6) (with_storage st' (with_current v6 a s)) = range_of (negb v6) s) as ER by by destruct v6.
  assert (current_of (negb v6) (with_storage st' (with_current v6 a s)) = current_of (negb v6) s) as EC by by destruct v6.
  split; rewrite ?ER, ?EC; auto.
  - intros b e Hb. rewrite Hl by done. auto.
  - intros e b. rewrite Hd. auto.
Qed.

Lemma family_create v6 s st q k d :
  s_storage s = Some st -> family v6 s st q k ->
  match Store_Create d v6 s with
  | (Ok a, s') =>
      Addr_Is4 a = negb v6 /\ Prefix_Contains (range_of v6 s) a = true /\
      exists st' k', s_storage s' = Some st' /\ FakeIPLoad a st' = Some d /\
        k' = (if decide (d ∈ q) then k else k + 1)%N /\
        range_of v6 s' = range_of v6 s /\ range_of (negb v6) s' = range_of (negb v6) s /\
        family v6 s' st' (spec_create (capacity v6 (range_of v6 s)) d q) k' /\
        forall q2 k2, family (negb v6) s st q2 k2 -> family (negb v6) s' st' q2 k2
  | (Err _, s') => s' = s /\ current_of v6 s = AddrNone
  | (Panic _, _) => False
  end.
Proof.
  intros Hst Hfam. pose proof Hfam as [Hr Hnd Hl Hd]. unfold spec_create.
  destruct (FakeIPLoadDomain d v6 st) as [a|] eqn:E.
  - unfold Store_Create. rewrite Hst, E. apply Hd in E as Hp. pose proof Hp as (i & Hi & ->).
    destruct Hr as [(Hok & _ & _)|[_ ->]]; [|done]. split; [apply mk_family|]. split; [by apply ring_contained|].
    exists st, k. rewrite !decide_True by (by eapply list_elem_of_lookup_2). split_and!; try done.
    apply Hl; [apply mk_family|done].
  - destruct Hr as [(Hok & Hc & Hlen)|[Hc ->]].
    + assert (d ∉ q) as Hnew.
      { intros (i & Hi)%list_elem_of_lookup.
        assert (FakeIPLoadDomain d v6 st = Some (ring v6 (range_of v6 s) (k - N.of_nat i))) by (apply Hd; by exists i).
        congruence. }
      rewrite (Store_Create_new v6 s st d Hst E) by (rewrite Hc; apply mk_valid).
      rewrite Hc, next_address_ring, !decide_False by done.
      set (a := ring v6 (range_of v6 s) (k + 1)). set (s1 := with_current v6 a s).
      assert (Addr_Is4 a = negb v6) as Ha by apply mk_family.
      split; [done|]. split; [by apply ring_contained|]. exists (stored a d st s1), (k + 1)%N.
      assert (forall b, FakeIPLoad b (stored a d st s1) = if decide (a = b) then Some d else FakeIPLoad b st) as HL
        by (intros b; unfold stored; by rewrite async_load, store_load).
      assert (forall e w, FakeIPLoadDomain e w (stored a d st s1) = if bool_decide (w = v6) then
        (if decide (d = e) then Some a else if decide (FakeIPLoad a st = Some e) then None else FakeIPLoadDomain e w st)
        else FakeIPLoadDomain e w st) as HD.
      { intros e w. unfold stored. rewrite async_domain, store_domain, Ha. by destruct v6. }
      split_and!; [done|by rewrite HL, decide_True|done|by destruct v6|by destruct v6| |].
      * assert (range_of v6 (with_storage (stored a d st s1) s1) = range_of v6 s) as ER by by destruct v6.
        assert (current_of v6 (with_storage (stored a d st s1) s1) = a) as EC by by destruct v6.
        split; rewrite ?ER, ?EC.
        -- left. split_and!; [done|done|]. by apply rest_length.
        -- by eapply rest_NoDup.
        -- intros b e Hb. by eapply store_load_next.
        -- intros e b. eapply store_domain_next; try done.
           intros e'. rewrite HD. by rewrite bool_decide_eq_true_2.
      * intros q2 k2 Hf. apply (family_other v6 s st); [done|done| |].
        -- intros b Hb. rewrite HL, decide_False; [done|]. intros <-. rewrite Ha in Hb. by destruct v6.
        -- intros e. rewrite HD, bool_decide_eq_false_2; [done|]. by destruct v6.
    + unfold Store_Create. rewrite Hst, E. unfold current_of in Hc. rewrite Hc. done.
Qed.

(** Starting on a storage without saved metadata empties the queues. *)
Lemma start_related range4 range6 (storage : ST) :
  fst (LoadMetadata storage) = None ->
  range_ok false range4 \/ Prefix_IsValid range4 = false -> range_ok true range6 \/ Prefix_IsValid range6 = false ->
  related (Store_Start storage (NewStore range4 range6)) [] [].
Proof.
  intros Hm H4 H6. unfold Store_Start. destruct (LoadMetadata storage) as [md st]. simpl in Hm. subst md.
  exists (snd (FakeIPReset st)), 0%N, 0%N. split; [done|].
  assert (forall v6 range k d a, placed v6 range k [] d a <-> False) as Hp
    by (intros; split; [intros (i & Hi & _); by rewrite lookup_nil in Hi|done]).
  assert (forall v6 range, range_ok v6 range -> Prefix_IsValid range = true) as Hv
    by (intros v6 range [_ _ Hb _]; unfold Prefix_IsValid; apply Z.leb_le; lia).
  split; (split; [|constructor|intros; by rewrite Hp, reset_load|intros; by rewrite Hp, reset_domain]); simpl.
  - destruct H4 as [H4|H4]; [left|right; by rewrite H4]. rewrite (Hv _ _ H4), (first_address_ring false _ H4).
    split_and!; [done|done|]. simpl. lia.
  - destruct H6 as [H6|H6]; [left|right; by rewrite H6]. rewrite (Hv _ _ H6), (first_address_ring true _ H6).
    split_and!; [done|done|]. simpl. lia.
Qed.


(** A sequence of requests. *)
Definition requests (l : list (string * bool)) s : Store ST :=
  foldl (fun s r => snd (Store_Create (fst r) (snd r) s)) s l.

Lemma requests_placed l : forall s st q k v6 d i,
  s_storage s = Some st -> family v6 s st q k -> (exists q2 k2, family (negb v6) s st q2 k2) ->
  q !! i = Some d ->
  (N.of_nat (i + length (List.filter (fun r => Bool.eqb (snd r) v6) l)) < capacity v6 (range_of v6 s))%N ->
  exists st' q' k' j, s_storage (requests l s) = Some st' /\ family v6 (requests l s) st' q' k' /\
    range_of v6 (requests l s) = range_of v6 s /\
    q' !! j = Some d /\ (k' - N.of_nat j = k - N.of_nat i)%N.
Proof.
  induction l as [|[e w] l IH]; intros s st q k v6 d i Hst Hf (q2 & k2 & H2) Hi Hlt; [by exists st, q, k, i|].
  cbn [requests foldl fst snd]. fold (requests l (snd (Store_Create e w s))).
  cbn [List.filter length snd] in Hlt. destruct (Bool.eqb w v6) eqn:Ew.
  - apply eqb_prop in Ew as ->. pose proof (family_create v6 s st q k e Hst Hf) as H.
    destruct (Store_Create e v6 s) as [[a|er|m] s'] eqn:E; simpl.
    + destruct H as (_ & _ & st' & k' & Hst' & _ & -> & Hr1 & _ & Hf' & Ho).
      rewrite <- Hr1. unfold spec_create in Hf'. cbn [length] in Hlt.
      pose proof (lookup_lt_Some _ _ _ Hi) as Hil.
      destruct (decide (e ∈ q)) as [Hin|Hin].
      * apply (IH s' st' q k v6 d i); try done; [by eauto|]. rewrite Hr1. lia.
      * destruct (fa_range _ _ _ _ _ Hf) as [(_ & _ & Hlen)|[_ ->]]; [|done].
        destruct (IH s' st' _ (k + 1)%N v6 d (S i) Hst' Hf') as (st'' & q'' & k'' & j & ? & ? & ? & ? & Hk); try by eauto.
        -- simpl. eapply rest_lookup; try done. split; [done|]. lia.
        -- rewrite Hr1. lia.
        -- exists st'', q'', k'', j. split_and!; try done. rewrite Hk. lia.
    + destruct H as [-> _]. apply (IH s st q k v6 d i); try done; [by eauto|]. cbn [length] in Hlt. lia.
    + done.
  - assert (w = negb v6) as -> by (by destruct w, v6).
    pose proof (family_create (negb v6) s st q2 k2 e Hst H2) as H. rewrite negb_involutive in H.
    destruct (Store_Create e (negb v6) s) as [[a|er|m] s'] eqn:E; simpl.
    + destruct H as (_ & _ & st' & k' & Hst' & _ & _ & _ & Hr2 & Hf' & Ho).
      rewrite <- Hr2. apply (IH s' st' q k v6 d i); try done; [by apply Ho|by eauto|by rewrite Hr2].
    + destruct H as [-> _]. apply (IH s st q k v6 d i); try done. by eauto.
    + done.
Qed.

(** A fake address lasts: from the moment it is given for a domain, and for as many
    further requests of its family as there are addresses to hand out, less one, it is looked up as that
    domain, and a new request for the domain is answered with it. *)
Theorem fakeip_address_lasts s q4 q6 d v6 a s1 l :
  related s q4 q6 -> Store_Create d v6 s = (Ok a, s1) ->
  (N.of_nat (length (List.filter (fun r => Bool.eqb (snd r) v6) l)) < capacity v6 (range_of v6 s) -
     N.of_nat (default 0%nat (fst <$> list_find (fun e => e = d) (if v6 then q6 else q4))))%N ->
  Store_Lookup a (requests l s1) = Ok (Some d) /\ Store_Create d v6 (requests l s1) = (Ok a, requests l s1).
Proof.
  intros (st & k4 & k6 & Hst & H4 & H6) E Hlt.
  pose proof (family_create v6 s st (if v6 then q6 else q4) (if v6 then k6 else k4) d Hst) as H.
  rewrite E in H. destruct H as (Ha & _ & st1 & k1 & Hst1 & Hl & _ & Hr1 & Hr2 & Hf & Ho); [by destruct v6|].
  assert (exists q2 k2, family (negb v6) s1 st1 q2 k2) as Hother.
  { destruct v6; [exists q4, k4|exists q6, k6]; by apply Ho. }
  set (q := if v6 then q6 else q4) in *. set (q1 := spec_create _ d q) in Hf.
  assert (exists i, q1 !! i = Some d /\ i = default 0%nat (fst <$> list_find (fun e => e = d) q)) as (i & Hi & Ei).
  { unfold q1, spec_create. destruct (decide (d ∈ q)) as [Hin|Hin].
    - destruct (list_find_elem_of (fun e => e = d) q d Hin eq_refl) as [[i e] Ef]. rewrite Ef.
      apply list_find_Some in Ef as (Hi & -> & _). by exists i.
    - exists 0%nat. split; [done|]. destruct (list_find _ q) as [[i e]|] eqn:Ef; [|done].
      apply list_find_Some in Ef as (Hi & -> & _). by apply list_elem_of_lookup_2 in Hi. }
  rewrite <- Ei in Hlt.
  destruct (requests_placed l s1 st1 q1 k1 v6 d i Hst1 Hf Hother Hi) as (st' & q' & k' & j & Hst' & Hf' & Hr & Hj & Hk);
    [rewrite Hr1; lia|].
  assert (a = ring v6 (range_of v6 s1) (k1 - N.of_nat i)) as Ea.
  { apply (fa_load _ _ _ _ _ Hf) in Hl as (i' & Hi' & ->); [|done].
    by rewrite (NoDup_lookup _ _ _ _ (fa_NoDup _ _ _ _ _ Hf) Hi Hi'). }
  assert (placed v6 (range_of v6 (requests l s1)) k' q' d a) as Hp by (exists j; by rewrite Hr, Hk).
  split.
  - unfold Store_Lookup. rewrite Hst'. f_equal. by apply (fa_load _ _ _ _ _ Hf').
  - unfold Store_Create. rewrite Hst'. apply (fa_domain _ _ _ _ _ Hf') in Hp. by rewrite Hp.
Qed.
End Queue.

(** ** Examples *)

(** 198.18.0.0/29: six addresses are handed out, from 198.18.0.3 on. *)
Definition range29 : Prefix := mkPrefix (Addr4 3323068416) 29.
Definition store29 : Store MemoryStorage := Store_Start NewMemoryStorage (NewStore range29 Prefix_zero).

Lemma range29_ok : range_ok false range29.
Proof. split; vm_compute; repeat split; discriminate || done. Qed.

Lemma store29_related : related store29 [] [].
Proof. apply start_related; [done|left; apply range29_ok|by right]. Qed.


Lemma fakeip_address_lasts_witness :
  let l := [("a", false); ("b", false); ("c", true); ("c", false); ("d", false); ("e", false)] in
  Store_Lookup (Addr4 3323068419) (requests l (snd (Store_Create "example.org" false store29))) =
    Ok (Some "example.org").
Proof.
  intros l. destruct (Store_Create "example.org" false store29) as [r s1] eqn:E.
  assert (r = Ok (Addr4 3323068419)) as -> by (vm_compute in E; congruence).
  exact (proj1 (fakeip_address_lasts store29 [] [] "example.org" false (Addr4 3323068419) s1 l store29_related E eq_refl)).
Defined.

(** One more request, and the address is that of another domain. *)
Example fakeip_address_reused :
  let l := [("a", false); ("b", false); ("c", false); ("d", false); ("e", false); ("f", false)] in
  Store_Lookup (Addr4 3323068419) (requests l (snd (Store_Create "example.org" false store29))) = Ok (Some "f").
Proof. vm_compute. reflexivity. Qed.

(** A range of two addresses has none to hand out, but [Create] answers with one outside it. *)
Example small_range_escapes :
  let s := Store_Start NewMemoryStorage (NewStore (mkPrefix (Addr4 3323068416) 31) Prefix_zero) in
  let '(r, s') := Store_Create "example.org" false s in
  r = Ok (Addr4 3323068418) /\ Store_Contains (Addr4 3323068418) s' = false.
Proof. vm_compute. split; reflexivity. Qed.

(** ** The DNS transport that answers with fake addresses *)

Section Transport.
Context {ST : Type} {FS : FakeIPStorage ST} {FL : FakeIPStorageLaws ST} {DL : DNSLibrary}.
Implicit Types s : Store ST.

(** The store of a new transport, from the two ranges of the options. *)
Definition NewFakeIPTransport (inet4Range inet6Range : option Prefix) : Store ST :=
  NewStore (default Prefix_zero inet4Range) (default Prefix_zero inet6Range).
Definition FakeIPTransport_Start (storage : ST) (stage : StartStage) s : Store ST :=
  if bool_decide (stage = StartStateStart) then Store_Start storage s else s.
Definition FakeIPTransport_Close s : option error * Store ST := Store_Close s.

Definition only_IP_queries : error := ENew "only IP queries are supported by fakeip".
Definition FakeIPTransport_Exchange (message : Msg) s : result Msg * Store ST :=
  match msg_Question message with
  | [] => (Panic "index out of range [0] with length 0", s)
  | question :: _ =>
      if negb (q_Qtype question =? TypeA)%N && negb (q_Qtype question =? TypeAAAA)%N then (Err only_IP_queries, s)
      else
        let '(r, s) := Store_Create (FqdnToDomain (q_Name question)) (q_Qtype question =? TypeAAAA)%N s in
        ((fun address => FixedResponse (msg_Id message) question [address] DefaultDNSTTL) <$> r, s)
  end.

Lemma contains_no_zone p a : Prefix_Contains p a = true -> Addr_withoutZone a = a.
Proof.
  unfold Prefix_Contains. destruct a as [|v|v z]; try done. simpl. rewrite !andb_true_iff, !bool_decide_eq_true.
  by intros (((((_ & ->) & _) & _) & _) & _).
Qed.

Lemma create_answer s q4 q6 d v6 :
  related s q4 q6 ->
  match Store_Create d v6 s with
  | (Ok a, s') => Addr_Is4 a = negb v6 /\ Prefix_Contains (range_of v6 s') a = true /\ Store_Lookup a s' = Ok (Some d)
  | (Err _, s') => s' = s /\ current_of v6 s = AddrNone
  | (Panic _, _) => False
  end.
Proof.
  intros (st & k4 & k6 & Hst & H4 & H6).
  pose proof (family_create v6 s st (if v6 then q6 else q4) (if v6 then k6 else k4) d Hst) as H.
  destruct (Store_Create d v6 s) as [[a|e|m] s']; [|apply H; by destruct v6..].
  destruct H as (Ha & Hc & st' & k' & Hst' & Hl & _ & Hr & _); [by destruct v6|].
  rewrite Hr. unfold Store_Lookup. by rewrite Hst', Hl.
Qed.

End Transport.
