(* ===== verification/DNSClientLaws.v ===== *)
(** * DNSClientLaws: what the cache of the DNS client answers

    The laws of the cache and of the DNS library the client relies on, the TTL of a response, the
    life of a cached answer, and the queries that are not cached. *)

From S2P Require Import Prelude GoStd NetIP DNSMessage Metadata Adapter Router DNSRouter DNSClient.
Open Scope string_scope.
Open Scope list_scope.

(** ** TTLs *)

(** The TTL of a list of records: the least one that is not zero, or zero. *)
Definition least_ttl (l : list RR) (ttl : N) : Prop :=
  (ttl = 0%N /\ Forall (fun r => rr_Ttl r = 0%N) l) \/
  ((0 < ttl)%N /\ (exists r, r ∈ l /\ rr_Ttl r = ttl) /\ Forall (fun r => rr_Ttl r = 0%N \/ (ttl <= rr_Ttl r)%N) l).

Lemma lower_ttl_snoc l r ttl : least_ttl l ttl -> least_ttl (l ++ [r]) (lower_ttl ttl r).
Proof.
  unfold least_ttl, lower_ttl. setoid_rewrite Forall_app. setoid_rewrite Forall_singleton.
  intros [[-> H]|(Hp & (x & Hx & Hxt) & H)].
  - simpl. destruct (decide (rr_Ttl r = 0%N)) as [E|E]; [by left|right].
    split_and!; [lia|exists r; split; [set_solver|done]| |right; lia].
    eapply Forall_impl; [exact H|]. by left.
  - destruct (N.eqb_spec ttl 0); [lia|]. right. simpl.
    destruct (N.ltb_spec 0 (rr_Ttl r)), (N.ltb_spec (rr_Ttl r) ttl); simpl.
    1: { split_and!; [lia|exists r; split; [set_solver|done]| |right; lia].
         eapply Forall_impl; [exact H|]. intros y [Hy|Hy]; [by left|right; lia]. }
    all: split_and!; [lia|exists x; split; [set_solver|done]|done|lia].
Qed.
Lemma lower_ttl_least l : forall pre ttl, least_ttl pre ttl -> least_ttl (pre ++ l) (foldl lower_ttl ttl l).
Proof.
  induction l as [|r l IH]; intros pre ttl H; [by rewrite app_nil_r|].
  cbn [foldl]. replace (pre ++ r :: l) with ((pre ++ [r]) ++ l) by by rewrite <- app_assoc.
  by apply IH, lower_ttl_snoc.
Qed.
Lemma records_ttl_least m : least_ttl (msg_records m) (records_ttl 0 m).
Proof. apply (lower_ttl_least _ [] 0%N). by left. Qed.

(** A response whose records all have the same TTL. *)
Definition uniform (ttl : N) (m : Msg) : Prop := Forall (fun r => rr_Ttl r = ttl) (msg_records m).

Lemma uniform_map f ttl m : (forall r, r ∈ msg_records m -> rr_Ttl (f r) = ttl) -> uniform ttl (map_records f m).
Proof. intros H. unfold uniform. rewrite msg_records_map. apply Forall_map, Forall_forall. apply H. Qed.

Lemma uniform_records_ttl ttl m : uniform ttl m -> msg_records m <> [] -> records_ttl 0 m = ttl.
Proof.
  intros Hu Hne. unfold uniform in Hu. rewrite Forall_forall in Hu.
  destruct (records_ttl_least m) as [[-> H]|(Hp & (r & Hr & <-) & H)].
  - destruct (msg_records m) as [|r l]; [done|]. inversion H; subst.
    rewrite <- (Hu r); [done|set_solver].
  - by apply Hu.
Qed.

Lemma age_uniform n ttl m :
  uniform ttl m -> (0 < ttl < 2 ^ 32)%N -> (0 <= n <= Z.of_N ttl)%Z -> uniform (Z.to_N n) (age_message n m).
Proof.
  intros Hu Ht Hn. unfold age_message.
  destruct (decide (msg_records m = [])) as [E|E].
  { unfold uniform. destruct (0 <? _)%N; rewrite msg_records_map, E; constructor. }
  rewrite (uniform_records_ttl ttl) by done. destruct (N.ltb_spec 0 ttl); [|lia].
  apply uniform_map. intros r Hr. unfold uniform in Hu. rewrite Forall_forall in Hu. rewrite (Hu r) by done.
  simpl. f_equal. rewrite (Z.mod_small (Z.of_N ttl - n)) by lia.
  replace (Z.of_N ttl - (Z.of_N ttl - n))%Z with n by lia. apply Z.mod_small. lia.
Qed.

(** ** Runs *)

(** A property of the end of a run, whatever the checker answers. *)
Fixpoint run_all {D R} (P : R -> D -> Prop) (c : client_run D R) : Prop :=
  match c with
  | ClientDone r d => P r d
  | ClientCheck _ k => forall b, run_all P (k b)
  end.

Lemma run_all_bind {D R R'} (Q : R' -> D -> Prop) (c : client_run D R) f :
  run_all (fun r d => run_all Q (f r d)) c -> run_all Q (client_bind c f).
Proof. induction c as [r d|a k IH]; [done|]. intros H b. apply IH, H. Qed.

Lemma run_all_mono {D R} (P Q : R -> D -> Prop) (c : client_run D R) :
  (forall r d, P r d -> Q r d) -> run_all P c -> run_all Q c.
Proof. intros HPQ. induction c as [r d|a k IH]; [apply HPQ|]. intros H b. apply IH, H. Qed.

Lemma run_all_client {D R} (P : R -> D -> Prop) check (c : client_run D R) m r d m' :
  run_all P c -> run_client check c m = (r, d, m') -> P r d.
Proof.
  revert m. induction c as [r0 d0|a k IH]; intros m H E; simpl in E; [by simplify_eq|].
  destruct (check a m) as [b m1]. eapply IH; [apply H|done].
Qed.

(** ** Laws *)

Definition no_opt (m : Msg) : Prop := Forall (fun r => rr_Rrtype r <> TypeOPT) (msg_Extra m).

Class DNSLibraryLaws `{DL : DNSLibrary} : Prop := {
  edns_none m : IsEdns0 m = None <-> no_opt m;
  edns_some m r : IsEdns0 m = Some r -> r ∈ msg_Extra m /\ rr_Rrtype r = TypeOPT;
  edns_new size do : rr_Rrtype (NewEdns0 size do) = TypeOPT /\ rr_Ttl (NewEdns0 size do) = if do then 32768%N else 0%N
}.

(** What a cache may hold: only what was added, until it expires.  It may forget at any time, but
    not what was just added. *)
Class DNSCacheLaws `{DC : DNSCache} : Type := {
  holds : CacheState -> cache_key -> Msg -> option Z -> Prop;
  holds_get now k s r s' : cache_Get now k s = (r, s') ->
    (forall m, r = Some m -> exists e, holds s k m e) /\
    (forall k' m e, holds s' k' m e -> holds s k' m e);
  holds_get_lifetime now k s r s' : cache_GetWithLifetime now k s = (r, s') ->
    (forall m e, r = Some (m, e) -> holds s k m (Some e)) /\
    (forall k' m e, holds s' k' m e -> holds s k' m e);
  holds_add k m s k' m' e' : holds (cache_Add k m s) k' m' e' ->
    k' = k /\ m' = m /\ e' = None \/ k' <> k /\ holds s k' m' e';
  holds_add_lifetime now k m life s k' m' e' : holds (cache_AddWithLifetime now k m life s) k' m' e' ->
    k' = k /\ m' = m /\ e' = Some (now + life)%Z \/ k' <> k /\ holds s k' m' e';
  holds_remove k s k' m e : holds (cache_Remove k s) k' m e -> k' <> k /\ holds s k' m e;
  holds_purge s k m e : ~ holds (cache_Purge s) k m e;
  get_added now now' k m life s : (now' <= now + life)%Z ->
    fst (cache_GetWithLifetime now' k (cache_AddWithLifetime now k m life s)) = Some (m, (now + life)%Z)
}.

(** TTLs are numbers of 32 bits. *)
Definition ttl_typed (r : RR) : Prop :=
  (rr_Ttl r < 2 ^ 32)%N /\ match rr_Data r with RR_SOA minttl => (minttl < 2 ^ 32)%N | _ => True end.
Definition msg_typed (m : Msg) : Prop := Forall ttl_typed (msg_records m).

(** Time does not go back. *)
Class DNSEnvironmentLaws `{DE : DNSEnvironment} : Prop := {
  exchange_typed t tag m e r e' : transport_Exchange t tag m e = (Ok r, e') -> msg_typed r;
  exchange_time t tag m e : (time_Now e <= time_Now (snd (transport_Exchange t tag m e)))%Z;
  rdrc_time tag name qtype e : (time_Now e <= time_Now (SaveRDRCAsync tag name qtype e))%Z
}.

Section Cache.
Context {DL : DNSLibrary} {DC : DNSCache} {DE : DNSEnvironment} {LL : DNSLibraryLaws} {CL : DNSCacheLaws}.
Context {EL : DNSEnvironmentLaws}.
Variable c : Client.
Implicit Types (d : DNSState) (m : Msg) (o : DNSQueryOptions) (q : Question) (t : option Transport).

(** ** The response *)

Definition options_typed o : Prop := match dq_RewriteTTL o with Some t => (t < 2 ^ 32)%N | None => True end.

Lemma filter_https_keeps q o m :
  msg_Rcode (filter_https q o m) = msg_Rcode m /\ (msg_typed m -> msg_typed (filter_https q o m)).
Proof.
  unfold filter_https. destruct (_ && _); [|done]. split; [done|]. unfold msg_typed, msg_records. simpl.
  rewrite !Forall_app, Forall_map. intros (H & ? & ?). split_and!; [|done..].
  eapply Forall_impl; [exact H|]. intros [n ty cl ttl data] Hr. unfold filter_hints. by destruct data.
Qed.

Lemma response_ttl_typed o m : options_typed o -> msg_typed m -> (response_ttl (dq_RewriteTTL o) m < 2 ^ 32)%N.
Proof.
  intros Ho Hm. unfold response_ttl. destruct (dq_RewriteTTL o) eqn:E; [by unfold options_typed in Ho; rewrite E in Ho|].
  simpl. unfold msg_typed in Hm. rewrite Forall_forall in Hm.
  assert (records_ttl 0 m < 2 ^ 32)%N as Hr.
  { destruct (records_ttl_least m) as [[-> _]|(_ & (r & Hr & <-) & _)]; [lia|by apply Hm]. }
  destruct (msg_Answer m) eqn:Ea; [|done].
  destruct (N.eqb_spec (default 0%N (extractNegativeTTL m)) 0) as [->|Hne]; [done|].
  unfold extractNegativeTTL in *. destruct (omap _ _) as [|x l] eqn:Eo; simpl; [lia|].
  assert (x ∈ x :: l) as Hx by set_solver. rewrite <- Eo in Hx. apply list_elem_of_omap in Hx as (r & Hin & Hr').
  destruct (Hm r) as [Ht Hd]; [unfold msg_records; set_solver|]. destruct (rr_Data r); simplify_eq. lia.
Qed.

(** Every record but the OPT record has this TTL. *)
Definition plain (r : RR) : Prop := rr_Rrtype r <> TypeOPT.
Definition plain_ttl (ttl : N) m : Prop := Forall (fun r => plain r -> rr_Ttl r = ttl) (msg_records m).

Lemma finish_response_ttl q o message m r ttl :
  finish_response q o message m = (r, ttl) ->
  plain_ttl ttl r /\ ttl = response_ttl (dq_RewriteTTL o) (filter_https q o m) /\
  (no_opt message -> no_opt r) /\ msg_Rcode r = msg_Rcode m /\ msg_Id r = msg_Id message.
Proof.
  unfold finish_response. set (m1 := filter_https q o m). set (t := response_ttl _ m1).
  set (m2 := set_msg_Id _ _). intros E. injection E as <- ->.
  assert (uniform ttl m2) as Hu by (by apply (uniform_map (set_rr_Ttl ttl) ttl m1)).
  assert (msg_Rcode m2 = msg_Rcode m) as Hrc by apply filter_https_keeps.
  set (dropped := set_msg_Extra (List.filter (fun r => negb (rr_Rrtype r =? TypeOPT)%N) (msg_Extra m2)) m2).
  assert (uniform ttl dropped /\ no_opt dropped) as [Hd Hno].
  { unfold uniform, msg_records, no_opt in *. simpl. rewrite !Forall_app in *. destruct Hu as (? & ? & H3).
    split_and!; [done..| |]; rewrite ?Forall_forall in *; intros x [Hx Hn]%list_elem_of_In%filter_In.
    - apply list_elem_of_In in Hx. by apply H3.
    - by apply N.eqb_neq, negb_true_iff. }
  assert (forall m, uniform ttl m -> plain_ttl ttl m) as Hplain by (intros x Hx; eapply Forall_impl; [exact Hx|done]).
  unfold restore_edns. destruct (IsEdns0 m2) eqn:E1; [fold dropped; destruct (IsEdns0 message) eqn:E2|].
  - destruct (_ <? _)%N; split_and!; try done; [|..|by apply Hplain|].
    + unfold plain_ttl, msg_records in *. simpl. unfold uniform, msg_records in Hd. simpl in Hd.
      rewrite !Forall_app in *. destruct Hd as (Ha & Hb & Hc). rewrite Forall_singleton.
      split_and!; [eapply Forall_impl; [exact Ha|done]|eapply Forall_impl; [exact Hb|done]|
        eapply Forall_impl; [exact Hc|done]|].
      intros Hp. by destruct (edns_new (opt_UDPSize r) (opt_Do r)) as [? _].
    + intros H. apply edns_none in H. congruence.
    + intros H. apply edns_none in H. congruence.
  - split_and!; try done. by apply Hplain.
  - split_and!; try done; [by apply Hplain|]. intros _. by apply edns_none.
Qed.

(** ** The invariant of the cache *)

(** An entry: an answer with code 0 or 3, stored at some time, the TTL of its records being the
    time it is kept for. *)
Definition cacheable m : Prop := msg_Rcode m = RcodeSuccess \/ msg_Rcode m = RcodeNameError.
Definition entry_ok (now : Z) m (expireAt : option Z) : Prop :=
  cacheable m /\ exists ttl stored, (0 < ttl < 2 ^ 32)%N /\ (stored <= now)%Z /\ plain_ttl ttl m /\
    expireAt = if c_disableExpire c then None else Some (stored + nanoseconds * Z.of_N ttl)%Z.
Definition now_of d : Z := time_Now (ds_env d).
Definition cache_ok d : Prop := forall k m e, holds (ds_cache d) k m e -> entry_ok (now_of d) m e.

Lemma set_env_ok env d : cache_ok d -> (now_of d <= time_Now env)%Z -> cache_ok (set_env env d).
Proof.
  intros Hok Ht k m e H. apply Hok in H as (Hc & ttl & stored & Httl & Hs & Hr). split; [done|].
  exists ttl, stored. split; [done|]. split; [|done]. unfold now_of, set_env in *. simpl. lia.
Qed.

(** A look into the cache only takes entries out. *)
Definition shrinks d d' : Prop := forall k m e, holds (ds_cache d') k m e -> holds (ds_cache d) k m e.

Lemma shrinks_refl d : shrinks d d.
Proof. by intros k m e. Qed.

Lemma loadResponse_shrinks q t d r d' :
  loadResponse c q t d = (r, d') -> shrinks d d' /\ ds_env d' = ds_env d.
Proof.
  unfold loadResponse. destruct (key_of c q t) as [k| |]; [|by intros [= <- <-]; split; [intros ???|]..].
  destruct (c_disableExpire c) eqn:Ed.
  - destruct (cache_Get _ _ _) as [x s] eqn:E. apply holds_get in E as [_ E]. intros [= <- <-]. split; [intros ??? H; by apply E|done].
  - destruct (cache_GetWithLifetime _ _ _) as [[[m e]|] s] eqn:E; apply holds_get_lifetime in E as [_ E].
    + destruct (e <? _)%Z; intros [= <- <-]; (split; [|done]); intros k' m' e' H; [|by apply E].
      apply holds_remove in H as [_ H]. by apply E.
    + intros [= <- <-]. split; [intros ??? H; by apply E|done].
Qed.

Lemma loadResponse_ok q t d r d' :
  cache_ok d -> loadResponse c q t d = (r, d') -> cache_ok d' /\ ds_env d' = ds_env d.
Proof.
  intros Hok H. apply loadResponse_shrinks in H as [Hs He]. split; [|done]. intros k m e H.
  unfold now_of. rewrite He. by eapply Hok, Hs.
Qed.

Lemma storeCache_ok q t m ttl d d' :
  cache_ok d -> cacheable m -> plain_ttl ttl m -> (ttl < 2 ^ 32)%N -> storeCache c q t m ttl d = Ok d' -> cache_ok d'.
Proof.
  intros Hok Hm Hp Ht. unfold storeCache. destruct (N.eqb_spec ttl 0); [intros; by simplify_eq|].
  destruct (key_of c q t) as [k| |]; simpl; [|done..]. intros E. injection E as <-. intros k' m' e'. simpl.
  assert (forall e, e = (if c_disableExpire c then None else Some (now_of d + nanoseconds * Z.of_N ttl)%Z) ->
    entry_ok (now_of d) m e) as Hnew.
  { intros e ->. split; [done|]. exists ttl, (now_of d). split_and!; try done; lia. }
  destruct (c_disableExpire c) eqn:Ed; intros H.
  - apply holds_add in H as [(-> & -> & ->)|[_ H]]; [by apply Hnew|by apply Hok in H].
  - apply holds_add_lifetime in H as [(-> & -> & ->)|[_ H]]; [by apply Hnew|by apply Hok in H].
Qed.

(** *** Every call keeps it *)

Lemma accept_ok q tr o disableCache message m d :
  options_typed o -> msg_typed m -> (disableCache = false -> cacheable m) -> cache_ok d ->
  run_all (fun _ => cache_ok) (accept c q tr o disableCache message m d).
Proof.
  intros Ho Hm Hc Hok. unfold accept. destruct (finish_response q o message m) as [r ttl] eqn:E.
  apply finish_response_ttl in E as (Hp & -> & _ & Hrc & _). destruct disableCache; [done|].
  destruct (storeCache _ _ _ _ _ _) as [d'| |] eqn:Es; [|done..]. simpl.
  eapply storeCache_ok in Es; [done..| |exact Hp|].
  - unfold cacheable in *. rewrite Hrc. by apply Hc.
  - apply response_ttl_typed; [done|]. by apply filter_https_keeps.
Qed.

Lemma ask_ok q tr o checker disableCache message d :
  options_typed o -> cache_ok d -> run_all (fun _ => cache_ok) (ask c q tr o checker disableCache message d).
Proof.
  intros Ho Hok. unfold ask. pose proof (exchange_time tr (Some (tp_Tag tr)) message (ds_env d)) as Ht.
  destruct (transport_Exchange _ _ _ _) as [r env] eqn:E. simpl in Ht.
  assert (cache_ok (set_env env d)) as Hok' by by apply set_env_ok.
  match goal with |- context [match ?x with Ok _ => _ | Err _ => _ | Panic _ => _ end] => set (r' := x) end.
  assert (forall m, r' = Ok m -> msg_typed m) as Hm.
  { unfold r'. destruct r as [m|e|]; [|destruct (As_RcodeError e)|]; intros m' H; simplify_eq; [|constructor].
    by eapply exchange_typed. }
  destruct r' as [m| |]; [|done..]. specialize (Hm m eq_refl). cbv zeta.
  set (disable := disableCache || _).
  assert (run_all (fun _ => cache_ok) (accept c q tr o disable message m (set_env env d))) as Ha.
  { apply accept_ok; try done. unfold disable. intros H. apply orb_false_iff in H as [_ H].
    unfold cacheable. destruct (Z.eqb_spec (msg_Rcode m) RcodeSuccess), (Z.eqb_spec (msg_Rcode m) RcodeNameError); try done; auto. }
  clearbody disable. match goal with |- context [ClientDone (Err ErrResponseRejected) ?x] => assert (cache_ok x) as Hr end.
  { destruct (negb disable && c_rdrc c); [|done]. apply set_env_ok; [done|]. apply rdrc_time. }
  destruct (negb checker); [done|]. destruct (_ || _); [done|]. intros b. by destruct b.
Qed.

(** *** What every call keeps

    A property of the state that a look into the cache keeps, and asking a transport too when the
    cache is used as [Exchange] decides, is kept by every call. *)
Section Keeps.
Variable I : DNSState -> Prop.
Hypothesis load_keeps : forall q t d r d', I d -> loadResponse c q t d = (r, d') -> I d'.

(** The message and the decision that [Exchange] makes. *)
Definition with_subnet m o : Msg :=
  let subnet := if Prefix_IsValid (dq_ClientSubnet o) then dq_ClientSubnet o else c_clientSubnet c in
  if Prefix_IsValid subnet then SetClientSubnet m subnet else m.
Definition uncached m o : bool := negb (isSimpleRequest m o) || c_disableCache c || dq_DisableCache o.

Hypothesis ask_keeps : forall q tr o checker m d, options_typed o -> I d ->
  run_all (fun _ => I) (ask c q tr o checker (uncached (with_subnet m o) o) (with_subnet m o) d).

Lemma Client_Exchange_keeps tag t m o checker d :
  options_typed o -> I d -> run_all (fun _ => I) (Client_Exchange c tag t m o checker d).
Proof.
  clear - load_keeps ask_keeps.
  intros Ho Hi. unfold Client_Exchange. destruct (msg_Question m) as [|q qs]; [done|].
  destruct (strategy_rejected q o); [done|]. cbv zeta. fold (with_subnet m o). fold (uncached (with_subnet m o) o).
  assert (forall cached d1,
    (if uncached (with_subnet m o) o then (Ok None, d) else loadResponse c q t d) = (cached, d1) -> I d1) as Hl.
  { intros cached d1. destruct (uncached _ _); intros E; [by simplify_eq|]. by eapply load_keeps. }
  destruct (if uncached _ _ then _ else _) as [cached d1]. specialize (Hl _ _ eq_refl).
  destruct cached as [[r|]| |]; [done| |done..]. destruct t as [t|]; [|done].
  destruct (bool_decide _); [done|]. destruct (negb (uncached _ _) && _ && _ && _); [done|]. by apply ask_keeps.
Qed.

Lemma exchange_addresses_keeps tag t q o checker d :
  options_typed o -> I d -> run_all (fun _ => I) (exchange_addresses c tag t q o checker d).
Proof.
  clear - load_keeps ask_keeps.
  intros Ho Hi. apply run_all_bind. eapply run_all_mono; [|by apply Client_Exchange_keeps]. done.
Qed.

Lemma lookupToExchange_keeps tag t name qType o checker d :
  options_typed o -> I d -> run_all (fun _ => I) (lookupToExchange c tag t name qType o checker d).
Proof.
  clear - load_keeps ask_keeps.
  intros Ho Hi. unfold lookupToExchange. destruct (_ || _); [by apply exchange_addresses_keeps|]. unfold questionCache.
  destruct (loadResponse c _ t d) as [r d1] eqn:E. apply load_keeps in E; [|done].
  destruct (bool_decide _); [by apply exchange_addresses_keeps|done].
Qed.

Lemma Client_Lookup_keeps sixFirst tag t domain o checker d :
  options_typed o -> I d -> run_all (fun _ => I) (Client_Lookup c sixFirst tag t domain o checker d).
Proof.
  clear - load_keeps ask_keeps. intros Ho Hi. unfold Client_Lookup.
  assert (forall ty R (f : result (list Addr) -> DNSState -> client_run DNSState R) d, I d ->
    (forall r d, I d -> run_all (fun _ => I) (f r d)) ->
    run_all (fun _ => I) (client_bind (lookupToExchange c tag t (mDNS_Fqdn (FqdnToDomain domain)) ty o checker d) f)) as Hone.
  { intros ty R f d1 H1 Hf. apply run_all_bind. eapply run_all_mono; [|by apply lookupToExchange_keeps]. auto. }
  cbv zeta. repeat case_match; try (by apply Hone).
  all: apply run_all_bind; unfold lookup_both; destruct sixFirst; apply Hone; try done; intros; by apply Hone.
Qed.
End Keeps.

(** ** What the cache answers *)

(** A history of the client: its calls, with any checker, and time that passes. *)
Inductive client_step : DNSState -> DNSState -> Prop :=
| step_exchange tag t m o checker check md r d d' md' :
    options_typed o -> run_client check (Client_Exchange c tag t m o checker d) md = (r, d', md') -> client_step d d'
| step_lookup sixFirst tag t domain o checker check md r d d' md' :
    options_typed o -> run_client check (Client_Lookup c sixFirst tag t domain o checker d) md = (r, d', md') ->
    client_step d d'
| step_clear d : client_step d (ClearCache d)
| step_wait d env : (now_of d <= time_Now env)%Z -> client_step d (set_env env d).

Lemma client_step_keeps (I : DNSState -> Prop) d d' :
  (forall q t d r d', I d -> loadResponse c q t d = (r, d') -> I d') ->
  (forall q tr o checker m d, options_typed o -> I d ->
     run_all (fun _ => I) (ask c q tr o checker (uncached (with_subnet m o) o) (with_subnet m o) d)) ->
  (forall d, I d -> I (ClearCache d)) -> (forall d env, I d -> (now_of d <= time_Now env)%Z -> I (set_env env d)) ->
  client_step d d' -> I d -> I d'.
Proof.
  intros Hl Ha Hc Hw [] Hi; [| |by apply Hc|by apply Hw].
  - eapply (run_all_client (fun _ => I)); [by apply Client_Exchange_keeps|eassumption].
  - eapply (run_all_client (fun _ => I)); [by apply Client_Lookup_keeps|eassumption].
Qed.

Lemma client_step_ok d d' : client_step d d' -> cache_ok d -> cache_ok d'.
Proof.
  apply client_step_keeps.
  - intros q t d1 r d2 Hok E. by eapply loadResponse_ok.
  - intros. by apply ask_ok.
  - intros d1 _ k m e H. by apply holds_purge in H.
  - intros. by apply set_env_ok.
Qed.

Definition fresh d : Prop := forall k m e, ~ holds (ds_cache d) k m e.

Lemma reachable_cache_ok d0 d : fresh d0 -> rtc client_step d0 d -> cache_ok d.
Proof.
  intros Hf H. assert (cache_ok d0) as Hok by (intros k m e He; by apply Hf in He).
  clear Hf. induction H as [|x y z Hs _ IH]; [done|]. by eapply IH, client_step_ok.
Qed.

(** Aging touches nothing but TTLs. *)
Lemma age_shape n m : exists f, age_message n m = map_records (fun r => set_rr_Ttl (f r) r) m.
Proof. unfold age_message. destruct (0 <? _)%N; by eexists. Qed.

Lemma plain_uniform ttl m : plain_ttl ttl m -> Forall plain (msg_records m) -> uniform ttl m.
Proof. unfold plain_ttl, uniform. rewrite !Forall_forall. auto. Qed.

Lemma remaining_bounds stored ttl now :
  (stored <= now <= stored + nanoseconds * Z.of_N ttl)%Z ->
  remaining (stored + nanoseconds * Z.of_N ttl) now = ((stored + nanoseconds * Z.of_N ttl - now) / nanoseconds)%Z /\
  (0 <= (stored + nanoseconds * Z.of_N ttl - now) / nanoseconds <= Z.of_N ttl)%Z.
Proof.
  clear. intros H.
  assert (0 <= (stored + nanoseconds * Z.of_N ttl - now) / nanoseconds <= Z.of_N ttl)%Z as Hb.
  { split; [apply Z.div_pos; unfold nanoseconds in *; lia|].
    apply Z.div_le_upper_bound; unfold nanoseconds in *; lia. }
  split; [|done]. unfold remaining. rewrite Z.quot_div_nonneg by (unfold nanoseconds in *; lia). lia.
Qed.

(** C31: A cached answer is never stale, unless the client is configured to keep answers for ever ([disable_expire]).  In every state the client reaches without that option, an answer taken from the cache
    was stored at some time with some TTL that has not run out, its code is success or name error,
    and, unless it has an OPT record, each of its records says exactly the seconds that remain, which
    is never more than it said when it was stored. *)
Theorem cached_answer_fresh d0 d q t r d' :
  fresh d0 -> rtc client_step d0 d -> c_disableExpire c = false ->
  loadResponse c q t d = (Ok (Some r), d') ->
  cacheable r /\ exists stored ttl, (stored <= now_of d <= stored + nanoseconds * Z.of_N ttl)%Z /\
    (Forall plain (msg_records r) ->
       uniform (Z.to_N ((stored + nanoseconds * Z.of_N ttl - now_of d) / nanoseconds)) r /\
       (Z.to_N ((stored + nanoseconds * Z.of_N ttl - now_of d) / nanoseconds) <= ttl)%N).
Proof.
  intros Hf Hr He. pose proof (reachable_cache_ok _ _ Hf Hr) as Hok. unfold loadResponse.
  destruct (key_of c q t) as [k| |]; [|done..]. rewrite He.
  destruct (cache_GetWithLifetime _ _ _) as [[[m e]|] s] eqn:Eg; [|done].
  apply holds_get_lifetime in Eg as [Eg _]. specialize (Eg m e eq_refl).
  apply Hok in Eg as (Hc & ttl & stored & Ht & Hs & Hp & Hx). rewrite He in Hx. injection Hx as ->.
  fold (now_of d). destruct (Z.ltb_spec (stored + nanoseconds * Z.of_N ttl) (now_of d)); [done|].
  intros E. injection E as <- <-.
  destruct (age_shape (remaining (stored + nanoseconds * Z.of_N ttl) (now_of d)) m) as [f Ef].
  split; [by rewrite Ef|]. exists stored, ttl. split; [lia|]. intros Hpl.
  destruct (remaining_bounds stored ttl (now_of d)) as [Hrem Hb]; [lia|].
  split; [|lia]. rewrite Hrem. apply (age_uniform _ ttl); [|lia|done].
  apply plain_uniform; [done|]. rewrite Ef in Hpl. rewrite msg_records_map, Forall_map in Hpl. exact Hpl.
Qed.
End Cache.
