(* ===== verification/DNSClientCache.v ===== *)
(** * DNSClientCache: what is cached and what is not

    The TTL of a response, the second query for a name, rejected answers, and the queries a client
    subnet keeps out of the cache. *)

From S2P Require Import Prelude GoStd NetIP DNSMessage Metadata Adapter Router DNSRouter DNSClient DNSClientLaws.
Open Scope string_scope.
Open Scope list_scope.

Section Cached.
Context {DL : DNSLibrary} {DC : DNSCache} {DE : DNSEnvironment} {LL : DNSLibraryLaws} {CL : DNSCacheLaws}.
Context {EL : DNSEnvironmentLaws}.
Variable c : Client.
Implicit Types (d : DNSState) (m : Msg) (o : DNSQueryOptions) (q : Question) (t : option Transport).

#[local] Hint Resolve shrinks_refl : core.

(** Every record of a response but its OPT record has one TTL: the one the rules ask for; or else, for an
    answer without records, that of its SOA record; or else the least TTL of its records, those
    that are zero aside. *)
Theorem response_ttl_least q o message m :
  let '(r, ttl) := finish_response q o message m in
  let response := filter_https q o m in
  plain_ttl ttl r /\
  match dq_RewriteTTL o with
  | Some rewrite => ttl = rewrite
  | None =>
      match msg_Answer response, extractNegativeTTL response with
      | [], Some (Npos negative) => ttl = Npos negative
      | _, _ => least_ttl (msg_records response) ttl
      end
  end.
Proof.
  destruct (finish_response q o message m) as [r ttl] eqn:E. apply finish_response_ttl in E as (Hp & Ht & _).
  split; [done|]. unfold response_ttl in Ht. destruct (dq_RewriteTTL o); simpl in Ht; [done|].
  pose proof (records_ttl_least (filter_https q o m)) as Hl.
  destruct (msg_Answer _); [destruct (extractNegativeTTL _) as [[]|]|]; simpl in Ht; by subst.
Qed.

(** ** The second query *)

(** A query that the cache may answer. *)
Definition cacheable_query q m o : Prop :=
  c_disableCache c = false /\ dq_DisableCache o = false /\ Prefix_IsValid (c_clientSubnet c) = false /\
  msg_Question m = [q] /\ isSimpleRequest m o = true /\ strategy_rejected q o = false.

Lemma simple_no_subnet m o : isSimpleRequest m o = true -> Prefix_IsValid (dq_ClientSubnet o) = false.
Proof. intros [_ H]%andb_true_iff. by apply negb_true_iff. Qed.

(** [Exchange] of such a query. *)
Lemma cacheable_exchange q tag t m o checker d :
  cacheable_query q m o ->
  Client_Exchange c tag t m o checker d =
  let '(cached, d1) := loadResponse c q t d in
  match cached with
  | Err e => ClientDone (Err e) d1
  | Panic msg => ClientDone (Panic msg) d1
  | Ok (Some response) => ClientDone (Ok (set_msg_Id (msg_Id m) response)) d1
  | Ok None =>
      match t with
      | None => ClientDone (Panic nil_pointer) d1
      | Some t =>
          if bool_decide (tag = Some (tp_Tag t)) then ClientDone (Err (loopback_error (tp_Tag t))) d1
          else if checker && c_rdrc c && LoadRDRC (tp_Tag t) (q_Name q) (q_Qtype q) (ds_env d1)
          then ClientDone (Err ErrResponseRejectedCached) d1
          else ask c q t o checker false m d1
      end
  end.
Proof.
  intros (Hc & Ho & Hs & Hq & Hm & Hst). unfold Client_Exchange. rewrite Hq, Hst. cbv zeta.
  rewrite (simple_no_subnet _ _ Hm), Hs. rewrite Hm, Hc, Ho. simpl. by destruct (loadResponse c q t d) as [[[]| |] ?].
Qed.

(** What an accepted answer leaves: the answer returned, in the cache, under the key of the query. *)
Lemma accept_stores q tr o m response d r d' :
  c_disableExpire c = false -> no_opt m -> Forall plain (msg_records r) -> (0 < records_ttl 0 r)%N ->
  accept c q tr o false m response d = ClientDone (Ok r) d' ->
  ds_env d' = ds_env d /\ uniform (records_ttl 0 r) r /\
  exists k, key_of c q (Some tr) = Ok k /\
    ds_cache d' = cache_AddWithLifetime (now_of d) k r (nanoseconds * Z.of_N (records_ttl 0 r)) (ds_cache d).
Proof.
  intros He Hno Hpl Hpos. unfold accept. destruct (finish_response q o m response) as [r1 ttl] eqn:E.
  unfold storeCache. destruct (N.eqb_spec ttl 0) as [->|Hne].
  - intros H. injection H as -> ->. apply finish_response_ttl in E as (Hp & _). exfalso.
    destruct (records_ttl_least r) as [[Hz _]|(_ & (x & Hx & Hxt) & _)]; [lia|].
    unfold plain_ttl in Hp. rewrite Forall_forall in *. specialize (Hp x Hx (Hpl x Hx)). lia.
  - destruct (key_of c q (Some tr)) as [k| |] eqn:Ek; simpl; [|done..]. rewrite He.
    intros H. injection H as -> <-. apply finish_response_ttl in E as (Hp & _).
    assert (uniform ttl r) as Hu by by apply plain_uniform.
    assert (records_ttl 0 r = ttl) as ->.
    { apply uniform_records_ttl; [done|]. intros Hn. unfold records_ttl in Hpos. rewrite Hn in Hpos. simpl in Hpos. lia. }
    split_and!; [done|done|]. by exists k.
Qed.

(** Without a checker an answer can only come from [accept]. *)
Lemma ask_accepts q tr o m d r d' :
  ask c q tr o false false m d = ClientDone (Ok r) d' -> cacheable r ->
  exists response d1, ds_cache d1 = ds_cache d /\ accept c q tr o false m response d1 = ClientDone (Ok r) d'.
Proof.
  unfold ask. destruct (transport_Exchange _ _ _ _) as [x env].
  match goal with |- context [match ?x with Ok _ => _ | Err _ => _ | Panic _ => _ end] => set (x' := x) end.
  destruct x' as [response| |]; [|done..]. cbv zeta. simpl. intros H Hr.
  destruct (negb (msg_Rcode response =? RcodeSuccess)%Z && negb (msg_Rcode response =? RcodeNameError)%Z) eqn:Ec.
  - unfold accept in H. destruct (finish_response q o m response) as [r1 ttl] eqn:E. injection H as -> _.
    apply finish_response_ttl in E as (_ & _ & _ & Hrc & _). unfold cacheable in Hr. rewrite Hrc in Hr.
    destruct Hr as [Hr|Hr]; rewrite Hr in Ec; done.
  - exists response, (set_env env d). by split.
Qed.

(** The second query for a name is answered from the cache.  After an answer with code success or name error and
    a TTL that is not zero, and until that TTL has run out, a query for the same question (from whatever
    context, with a checker or without) gets that answer with its own id and the TTLs that remain:
    the transport is not asked, and the checker is not either. *)
Theorem exchange_then_cached q tag t m o d r d1 tag' m' o' checker env :
  cacheable_query q m o -> c_disableExpire c = false -> no_opt m ->
  fst (loadResponse c q t d) = Ok None -> Client_Exchange c tag t m o false d = ClientDone (Ok r) d1 ->
  cacheable r -> Forall plain (msg_records r) -> (0 < records_ttl 0 r < 2 ^ 32)%N ->
  cacheable_query q m' o' ->
  let expire := (now_of d1 + nanoseconds * Z.of_N (records_ttl 0 r))%Z in
  (now_of d1 <= time_Now env <= expire)%Z ->
  exists d2, ds_env d2 = env /\
    Client_Exchange c tag' t m' o' checker (set_env env d1) =
      ClientDone (Ok (set_msg_Id (msg_Id m') (age_message (remaining expire (time_Now env)) r))) d2 /\
    uniform (Z.to_N (remaining expire (time_Now env))) (age_message (remaining expire (time_Now env)) r).
Proof.
  intros Hq He Hno Hmiss H Hc Hpl Hpos Hq' expire Hnow. rewrite (cacheable_exchange q) in H by done.
  destruct (loadResponse c q t d) as [cached d0]. simpl in Hmiss. subst cached.
  destruct t as [tr|]; [|done]. destruct (bool_decide _); [done|]. simpl in H.
  apply ask_accepts in H as (response & da & _ & H); [|done].
  apply accept_stores in H as (Hd & Hu & k & Hk & Hs); [|done..|lia].
  assert (now_of d1 = now_of da) as Hda by (unfold now_of; by rewrite Hd).
  rewrite (cacheable_exchange q) by done. unfold loadResponse. simpl. rewrite Hk, He, Hs, <- Hda.
  destruct (cache_GetWithLifetime _ _ _) as [x s] eqn:Eg.
  pose proof (get_added (now_of d1) (time_Now env) k r (nanoseconds * Z.of_N (records_ttl 0 r)) (ds_cache da)) as Hg.
  rewrite Eg in Hg. simpl in Hg. rewrite Hg by lia. fold expire.
  destruct (Z.ltb_spec expire (time_Now env)); [lia|]. eexists. split_and!; [|done|].
  - done.
  - destruct (remaining_bounds (now_of d1) (records_ttl 0 r) (time_Now env)) as [Hrem Hb]; [done|].
    unfold expire. rewrite Hrem. by apply (age_uniform _ (records_ttl 0 r)).
Qed.

(** ** Rejected answers *)

(** A run whose checker refuses everything. *)
Fixpoint run_refused {D R} (P : R -> D -> Prop) (c : client_run D R) : Prop :=
  match c with
  | ClientDone r d => P r d
  | ClientCheck _ k => run_refused P (k false)
  end.
Lemma run_refused_client {D R} (P : R -> D -> Prop) check (r0 : client_run D R) md r (d : D) md' :
  (forall l md, fst (check l md) = false) -> run_refused P r0 -> run_client check r0 md = (r, d, md') -> P r d.
Proof.
  clear. intros Hc. revert md. induction r0 as [r1 d1|a k IH]; intros md H E; simpl in E; [by simplify_eq|].
  pose proof (Hc a md) as Hb. destruct (check a md) as [b m1]. simpl in Hb. subst b. by eapply IH.
Qed.

Lemma ask_refused q tr o disableCache m d :
  run_refused (fun r d' => is_Ok r = false /\ ds_cache d' = ds_cache d) (ask c q tr o true disableCache m d).
Proof.
  unfold ask. destruct (transport_Exchange _ _ _ _) as [x env].
  match goal with |- context [match ?x with Ok _ => _ | Err _ => _ | Panic _ => _ end] => set (x' := x) end.
  destruct x' as [response| |]; [|done..]. cbv zeta. simpl.
  match goal with |- context [ClientDone (Err ErrResponseRejected) ?x] => assert (ds_cache x = ds_cache d) as Hr end.
  { by destruct (negb _ && c_rdrc c). }
  destruct (negb (msg_Rcode response =? RcodeSuccess)%Z || _); by split.
Qed.

(** A result without records, or from the cache. *)
Definition no_new_answer t m d (r : result Msg) : Prop :=
  forall response, r = Ok response ->
    msg_records response = [] \/
    exists q cached, head (msg_Question m) = Some q /\ fst (loadResponse c q t d) = Ok (Some cached) /\
      response = set_msg_Id (msg_Id m) cached.

(** A rejected answer is not cached.  When the checker refuses what it is asked about, [Exchange] puts
    nothing into the cache, and unless the cache already has an answer (which the checker is not
    asked about) it returns no record. *)
Theorem rejected_not_cached tag t m o check md d r d' md' :
  (forall l md, fst (check l md) = false) ->
  run_client check (Client_Exchange c tag t m o true d) md = (r, d', md') ->
  shrinks d d' /\ no_new_answer t m d r.
Proof.
  intros Hc. set (P := fun (r : result Msg) d' => shrinks d d' /\ no_new_answer t m d r).
  apply (run_refused_client P); [done|]. unfold Client_Exchange. clear Hc.
  assert (forall x d', msg_records x = [] -> P (Ok x) d) as Hnil by (intros x d1 Hx; split; [done|intros ? [= <-]; by left]).
  assert (forall r d', shrinks d d' -> is_Ok r = false -> P r d') as Hno by (intros z d1 H1 Hz; split; [done|by intros ? ->]).
  destruct (msg_Question m) as [|q qs] eqn:Hq; [by apply Hnil|].
  destruct (strategy_rejected q o); [by apply Hnil|]. cbv zeta.
  set (disable := negb _ || _ || _). set (m1 := if Prefix_IsValid _ then _ else m).
  assert (msg_Id m1 = msg_Id m) as Hid by (unfold m1, SetClientSubnet; repeat case_match; done).
  clearbody disable m1.
  destruct (loadResponse c q t d) as [l d0] eqn:El. pose proof (loadResponse_shrinks _ _ _ _ _ _ El) as [Hs _].
  assert (forall tr dm d1, shrinks d d1 -> run_refused P (ask c q tr o true dm m1 d1)) as Hask.
  { intros tr dm d1 H1. pose proof (ask_refused q tr o dm m1 d1) as H.
    induction (ask c q tr o true dm m1 d1) as [x y|a k IH]; [|by apply IH]. destruct H as [Hx Hy].
    apply Hno; [|done]. intros k z e. rewrite Hy. apply H1. }
  destruct disable; simpl.
  - destruct t as [tr|]; [|by apply Hno]. destruct (bool_decide _); [by apply Hno|]. by apply Hask.
  - destruct l as [[cached|]| |]; [|destruct t as [tr|]; [|by apply Hno]|by apply Hno..].
    + split; [done|]. intros response [= <-]. right. exists q, cached. by rewrite Hq, Hid, El.
    + destruct (bool_decide _); [by apply Hno|]. destruct (_ && _); [by apply Hno|]. by apply Hask.
Qed.

(** ** Client subnets *)

Lemma find_subnet_bounds l : forall i last n b, find_subnet i last l = (Some n, b) ->
  last = Some n \/ (i <= n)%nat /\ exists r, l !! (n - i)%nat = Some r /\ is_OPT r = true.
Proof.
  induction l as [|r l IH]; intros i last n b H; simpl in H; [left; congruence|].
  assert (forall last' , find_subnet (S i) last' l = (Some n, b) -> last' = Some n \/
    (i <= n)%nat /\ exists r', (r :: l) !! (n - i)%nat = Some r' /\ is_OPT r' = true) as Hnext.
  { intros last' E. apply IH in E as [E|(Hn & x & Hx & Ho)]; [by left|right]. split; [lia|]. exists x.
    replace (n - i)%nat with (S (n - S i)) by lia. done. }
  assert (is_OPT r = true -> last = Some n \/ (i <= i)%nat /\ exists r', (r :: l) !! (i - i)%nat = Some r' /\ is_OPT r' = true) as Hr.
  { intros Ho. right. split; [lia|]. exists r. by rewrite Nat.sub_diag. }
  unfold is_OPT in *. destruct (rr_Data r) eqn:Ed; try (by apply Hnext in H as [?|?]; [|right]).
  destruct (existsb _ _).
  - injection H as <- _. by apply Hr.
  - apply Hnext in H as [[= <-]|?]; [by apply Hr|by right].
Qed.

Lemma SetClientSubnet_not_simple m p o : isSimpleRequest (SetClientSubnet m p) o = false.
Proof.
  unfold isSimpleRequest, SetClientSubnet. apply andb_false_iff. left. apply andb_false_iff. right.
  destruct (find_subnet 0 None (msg_Extra m)) as [[n|] b] eqn:E; simpl.
  - apply find_subnet_bounds in E as [?|(_ & r & Hr & Ho)]; [done|]. rewrite Nat.sub_0_r in Hr.
    destruct (msg_Extra m) as [|x [|y l]]; [done| |by destruct n as [|[|n]]].
    destruct n as [|n]; [|done]. simpl in Hr. injection Hr as ->. unfold is_OPT in Ho. simpl.
    unfold empty_opt, put_opt. destruct (rr_Data r) eqn:Ed; try done. simpl. rewrite !andb_false_iff. right.
    apply negb_false_iff. unfold put_subnet. by destruct option as [|[] ?].
  - destruct (msg_Extra m) as [|x [|y l]]; done.
Qed.

Lemma ask_uncached q tr o checker m d :
  run_all (fun _ d' => ds_cache d' = ds_cache d) (ask c q tr o checker true m d).
Proof.
  unfold ask. destruct (transport_Exchange _ _ _ _) as [x env].
  match goal with |- context [match ?x with Ok _ => _ | Err _ => _ | Panic _ => _ end] => set (x' := x) end.
  destruct x' as [response| |]; [|done..]. cbv zeta. simpl.
  assert (run_all (fun _ d' => ds_cache d' = ds_cache d) (accept c q tr o true m response (set_env env d))) as Ha.
  { unfold accept. by destruct (finish_response _ _ _ _). }
  destruct (negb checker); [done|]. destruct (_ || _); [done|]. by intros [].
Qed.

(** A client subnet in the options of the client keeps every query out of the cache: nothing is ever stored,
    so each query is sent again. *)
Theorem client_subnet_uncached d0 d :
  Prefix_IsValid (c_clientSubnet c) = true -> fresh d0 -> rtc (client_step c) d0 d -> fresh d.
Proof.
  intros Hs Hf H. induction H as [|x y z Hstep _ IH]; [done|]. apply IH. clear IH. revert Hstep Hf.
  apply client_step_keeps.
  - intros q t d1 r d2 Hf El k m e H. apply loadResponse_shrinks in El as [Hsh _]. by eapply Hf, Hsh.
  - intros q tr o checker m d1 _ Hf.
    assert (uncached c (with_subnet c m o) o = true) as ->.
    { unfold uncached, with_subnet.
      replace (Prefix_IsValid (if Prefix_IsValid _ then _ else _)) with true
        by (destruct (Prefix_IsValid (dq_ClientSubnet o)) eqn:E; by rewrite ?E, ?Hs).
      by rewrite SetClientSubnet_not_simple. }
    eapply run_all_mono; [|apply ask_uncached]. intros r d2 Hd k v e. rewrite Hd. apply Hf.
  - intros d1 _ k m e H. by apply holds_purge in H.
  - done.
Qed.
End Cached.
