(* ===== verification/DNSClientSample.v ===== *)
(** * DNSClientSample: a concrete client

    A cache kept as a list, and an environment of two servers: [fakeip], which is the fake IP
    transport, and [up], which answers 8.8.8.8 for 300 seconds.  The theorems on the client at
    concrete queries, and a query that goes through the DNS router, the client, its cache and the
    fake IP store. *)

From S2P Require Import Prelude GoStd NetIP DNSMessage Metadata Sample RuleItems RuleMatch RuleAction RuleOptions.
From S2P Require Import RuleBuild RuleSet Rules Adapter Router DNSRouter DNSClient DNSClientLaws DNSClientCache.
From S2P Require Import Lifecycle FakeIP FakeIPLaws.
Open Scope string_scope.
Open Scope list_scope.

(** ** The cache *)

Definition list_cache : Type := list (cache_key * (Msg * option Z)).
Definition cache_find (k : cache_key) (s : list_cache) : option (Msg * option Z) :=
  snd <$> head (List.filter (fun e => bool_decide (fst e = k)) s).
Definition cache_drop (k : cache_key) (s : list_cache) : list_cache :=
  List.filter (fun e => negb (bool_decide (fst e = k))) s.

#[local] Instance sample_cache_ops : DNSCache := {|
  CacheState := list_cache;
  cache_Get _ k s := (fst <$> cache_find k s, s);
  cache_GetWithLifetime _ k s :=
    (match cache_find k s with Some (m, Some e) => Some (m, e) | _ => None end, s);
  cache_Add k m s := (k, (m, None)) :: cache_drop k s;
  cache_AddWithLifetime now k m life s := (k, (m, Some (now + life)%Z)) :: cache_drop k s;
  cache_Remove := cache_drop;
  cache_Purge _ := []
|}.

Lemma cache_find_in k s p : cache_find k s = Some p -> (k, p) ∈ s.
Proof.
  unfold cache_find. destruct (List.filter _ s) as [|[k' p'] l] eqn:E; [done|]. simpl. intros [= <-].
  assert (In (k', p') (List.filter (fun e => bool_decide (fst e = k)) s)) as H by (rewrite E; by left).
  apply filter_In in H as [H Hk]. apply bool_decide_eq_true in Hk. simpl in Hk. subst. by apply list_elem_of_In.
Qed.
Lemma cache_drop_in k s k' p : (k', p) ∈ cache_drop k s -> k' <> k /\ (k', p) ∈ s.
Proof.
  unfold cache_drop. intros [H Hk]%list_elem_of_In%filter_In. apply list_elem_of_In in H.
  by apply negb_true_iff, bool_decide_eq_false in Hk.
Qed.

#[local] Instance sample_cache_laws : DNSCacheLaws.
Proof.
  refine {| holds := fun (s : CacheState) k m e => (k, (m, e)) ∈ (s : list_cache) |}; simpl.
  - intros now k s r s' [= <- <-]. split; [|done]. intros m Hm.
    destruct (cache_find k s) as [[m' e]|] eqn:E; simplify_eq/=. exists e. by apply cache_find_in.
  - intros now k s r s' [= <- <-]. split; [|done]. intros m e Hm.
    destruct (cache_find k s) as [[m' [e'|]]|] eqn:E; simplify_eq. by apply cache_find_in.
  - intros k m s k' m' e' [H|H]%elem_of_cons; [left; by simplify_eq|right; by apply cache_drop_in].
  - intros now k m life s k' m' e' [H|H]%elem_of_cons; [left; by simplify_eq|right; by apply cache_drop_in].
  - intros k s k' m e. apply cache_drop_in.
  - intros s k m e. by intros H%elem_of_nil.
  - intros now now' k m life s _. unfold cache_find. simpl. by rewrite bool_decide_eq_true_2.
Defined.

(** ** The environment *)

#[local] Existing Instance sample_dns_library.

#[local] Instance sample_library_laws : DNSLibraryLaws.
Proof.
  split; simpl.
  - intros m. unfold no_opt. rewrite Forall_forall, last_None. split.
    + intros H r Hr E. assert (In r (List.filter (fun r => (rr_Rrtype r =? TypeOPT)%N) (msg_Extra m))) as Hin.
      { apply filter_In. split; [by apply list_elem_of_In|by apply N.eqb_eq]. }
      by rewrite H in Hin.
    + intros H. destruct (List.filter _ _) as [|r l] eqn:E; [done|]. exfalso.
      assert (In r (List.filter (fun r => (rr_Rrtype r =? TypeOPT)%N) (msg_Extra m))) as Hin by (rewrite E; by left).
      apply filter_In in Hin as [Hin Ht]. apply list_elem_of_In in Hin. by apply (H r Hin), N.eqb_eq.
  - intros m r H. apply last_Some_elem_of, list_elem_of_In, filter_In in H as [H Ht].
    split; [by apply list_elem_of_In|by apply N.eqb_eq].
  - intros size []; by split.
Qed.

Record sample_env : Type := mkSampleEnv { se_time : Z; se_store : Store MemoryStorage; se_asked : nat }.
Definition fakeip_server : Transport := mkTransport "fakeip" true None.
Definition up_server : Transport := mkTransport "up" false None.
Definition up_answer (message : Msg) : Msg :=
  let q := default (mkQuestion "" 0 0) (head (msg_Question message)) in
  set_msg_Extra (match IsEdns0 message with Some _ => [NewEdns0 1232 false] | None => [] end)
    (FixedResponse (msg_Id message) q [Addr4 134744072] 300).

#[local] Instance sample_environment : DNSEnvironment := {|
  EnvState := sample_env;
  transport_Exchange t _ message e :=
    if bool_decide (tp_Tag t = "fakeip") then
      let '(r, s) := FakeIPTransport_Exchange message (se_store e) in
      (r, mkSampleEnv (se_time e) s (S (se_asked e)))
    else (Ok (up_answer message), mkSampleEnv (se_time e + 1000000) (se_store e) (S (se_asked e)));
  time_Now := se_time;
  LoadRDRC _ _ _ _ := false;
  SaveRDRCAsync _ _ _ e := e;
  group_error a b := match a with Some e => Some e | None => b end
|}.

Lemma FixedResponse_typed id q l ttl : (ttl < 2 ^ 32)%N -> msg_typed (FixedResponse id q l ttl).
Proof.
  intros Ht. unfold msg_typed, msg_records, FixedResponse, fixed_response. simpl. rewrite app_nil_r.
  apply Forall_forall. intros r Hr. apply list_elem_of_In, in_flat_map in Hr as (a & _ & Hr). unfold fixed_record in Hr.
  destruct (_ && _); [|destruct (_ && _); [|done]]; destruct Hr as [<-|[]]; by split.
Qed.

#[local] Instance sample_environment_laws : DNSEnvironmentLaws.
Proof.
  split; simpl.
  - intros t tag m e r e'. destruct (bool_decide _).
    + unfold FakeIPTransport_Exchange. destruct (msg_Question m) as [|q l]; [done|].
      destruct (_ && _); [done|]. destruct (Store_Create _ _ _) as [[a|x|x] s]; [|done..].
      intros [= <- <-]. by apply FixedResponse_typed.
    + intros [= <- <-]. unfold up_answer. set (q := default _ _).
      pose proof (FixedResponse_typed (msg_Id m) q [Addr4 134744072] 300) as H.
      unfold msg_typed, msg_records in *. simpl in *. rewrite app_nil_r in H. rewrite Forall_app. split; [by apply H|].
      destruct (last _); repeat constructor.
  - intros t tag m e. destruct (bool_decide _); [by destruct (FakeIPTransport_Exchange _ _)|]. simpl. lia.
  - intros. lia.
Qed.

(** ** Queries *)

Definition sample_client : Client := mkClient false false false Prefix_zero false.
Definition subnet_client : Client := mkClient false false false (mkPrefix (Addr4 167772160) 8) false.
Definition example_question : Question := mkQuestion "example.org." TypeA ClassINET.
Definition a_query (id : N) : Msg := mkMsg id false false true false 0 [example_question] [] [] [].
Definition no_options : DNSQueryOptions := mkDNSQueryOptions None 0 0 false None Prefix_zero.
Definition first_state : DNSState := mkDNSState ([] : CacheState) (mkSampleEnv 0 store29 0 : EnvState).
Definition up_response (id ttl : N) : Msg := FixedResponse id example_question [Addr4 134744072] ttl.
(** After the first query, and [n] seconds later. *)
Definition after_query (n : Z) : DNSState :=
  mkDNSState ([(mkCacheKey example_question None, (up_response 7 300, Some 300001000000%Z))] : CacheState)
    (mkSampleEnv (1000000 + n * nanoseconds) store29 1 : EnvState).
Definition anyone (b : bool) : list Addr -> InboundContext -> bool * InboundContext := fun _ m => (b, m).
Definition no_context : InboundContext := sample_context "" AddrNone 0.

Lemma first_query :
  Client_Exchange sample_client None (Some up_server) (a_query 7) no_options false first_state =
  ClientDone (Ok (up_response 7 300)) (after_query 0).
Proof. reflexivity. Qed.

Lemma first_fresh : fresh first_state.
Proof. intros k m e. simpl. by intros ?%elem_of_nil. Qed.

Lemma sample_reachable n : (0 <= n)%Z -> rtc (client_step sample_client) first_state (after_query n).
Proof.
  intros Hn. eapply rtc_l.
  - apply (step_exchange _ None (Some up_server) (a_query 7) no_options false (anyone true) no_context
      (Ok (up_response 7 300)) first_state (after_query 0) no_context); [done|]. by rewrite first_query.
  - eapply rtc_l; [|apply rtc_refl]. apply (step_wait sample_client (after_query 0) (ds_env (after_query n))).
    change (1000000 + 0 * nanoseconds <= 1000000 + n * nanoseconds)%Z. unfold nanoseconds. lia.
Qed.

Lemma cached_answer_fresh_witness :
  loadResponse sample_client example_question (Some up_server) (after_query 60) =
    (Ok (Some (up_response 7 240)), after_query 60) /\
  cacheable (up_response 7 240) /\
  exists stored ttl, (stored <= 60001000000 <= stored + nanoseconds * Z.of_N ttl)%Z.
Proof.
  assert (loadResponse sample_client example_question (Some up_server) (after_query 60) =
    (Ok (Some (up_response 7 240)), after_query 60)) as E by reflexivity.
  destruct (cached_answer_fresh sample_client first_state (after_query 60) example_question (Some up_server)
    (up_response 7 240) (after_query 60) first_fresh (sample_reachable 60 ltac:(lia)) eq_refl E)
    as [Hc (stored & ttl & H & _)].
  split; [exact E|]. split; [exact Hc|]. exists stored, ttl. exact H.
Defined.

Lemma response_ttl_least_witness :
  plain_ttl 300 (fst (finish_response example_question no_options (a_query 7) (up_response 9 300))).
Proof.
  pose proof (response_ttl_least example_question no_options (a_query 7) (up_response 9 300)) as H.
  assert (snd (finish_response example_question no_options (a_query 7) (up_response 9 300)) = 300%N) as E
    by (vm_compute; reflexivity).
  destruct (finish_response example_question no_options (a_query 7) (up_response 9 300)) as [r ttl].
  simpl in E. subst ttl. exact (proj1 H).
Defined.

Lemma example_cacheable id : cacheable_query sample_client example_question (a_query id) no_options.
Proof. by repeat split. Qed.

(** The second query comes a minute later, with a checker that refuses everything. *)
Lemma exchange_then_cached_witness :
  exists d2, Client_Exchange sample_client None (Some up_server) (a_query 9) no_options true (after_query 60) =
    ClientDone (Ok (up_response 9 240)) d2 /\ se_asked (ds_env d2) = 1%nat.
Proof.
  destruct (exchange_then_cached sample_client example_question None (Some up_server) (a_query 7) no_options first_state
    (up_response 7 300) (after_query 0) None (a_query 9) no_options true (ds_env (after_query 60))
    (example_cacheable 7) eq_refl ltac:(constructor) eq_refl first_query ltac:(by left)
    ltac:(repeat constructor; discriminate) ltac:(vm_compute; split; reflexivity) (example_cacheable 9)
    ltac:(vm_compute; split; discriminate)) as (d2 & Hd & H & _).
  exists d2. split; [exact H|]. rewrite Hd. reflexivity.
Defined.

Lemma rejected_not_cached_witness :
  let '(r, d', _) := run_client (anyone false)
    (Client_Exchange sample_client None (Some up_server) (a_query 7) no_options true first_state) no_context in
  r = Err ErrResponseRejected /\ shrinks first_state d'.
Proof.
  destruct (run_client (anyone false)
    (Client_Exchange sample_client None (Some up_server) (a_query 7) no_options true first_state) no_context)
    as [[r d'] md'] eqn:E.
  split; [by injection E as <- _ _|].
  exact (proj1 (rejected_not_cached sample_client None (Some up_server) (a_query 7) no_options (anyone false) no_context
    first_state r d' md' (fun _ _ => eq_refl) E)).
Defined.

Lemma client_subnet_uncached_witness :
  exists r d, run_client (anyone true)
    (Client_Exchange subnet_client None (Some up_server) (a_query 7) no_options false first_state) no_context =
    (Ok r, d, no_context) /\ MessageToAddresses r = [Addr4 134744072] /\ fresh d.
Proof.
  destruct (run_client (anyone true)
    (Client_Exchange subnet_client None (Some up_server) (a_query 7) no_options false first_state) no_context)
    as [[r d] md] eqn:E.
  assert (fresh d) as Hf.
  { apply (client_subnet_uncached subnet_client first_state d eq_refl first_fresh).
    eapply rtc_l; [|apply rtc_refl].
    exact (step_exchange _ None (Some up_server) (a_query 7) no_options false (anyone true) no_context r first_state d md I E). }
  injection E as <- <- <-. eexists _, _. split; [reflexivity|]. split; [reflexivity|exact Hf].
Defined.


(** ** The OPT record

    The TTL of an OPT record is no time: it holds the extended code, the version and the flags.
    [Exchange] writes the TTL of the answer into it, and the cache counts it down. *)

Definition edns_query (id : N) : Msg := set_msg_Extra [NewEdns0 1232 false] (a_query id).
Definition extra_ttls (r : result Msg) : list N := match r with Ok m => map rr_Ttl (msg_Extra m) | _ => [] end.
Definition day_options : DNSQueryOptions := mkDNSQueryOptions None 0 0 false (Some 86400%N) Prefix_zero.
Definition ended {D R} (c : client_run D R) : option (R * D) :=
  match c with ClientDone r d => Some (r, d) | ClientCheck _ _ => None end.
Definition ask_sample (o : DNSQueryOptions) (m : Msg) (d : DNSState) : option (result Msg * DNSState) :=
  ended (Client_Exchange sample_client None (Some up_server) m o false d).
Definition wait (n : Z) (d : DNSState) : DNSState :=
  set_env (mkSampleEnv (se_time (ds_env d) + n * nanoseconds) (se_store (ds_env d)) (se_asked (ds_env d)) : EnvState) d.

(** A TTL of 300 seconds becomes flags of the OPT record. *)
Example opt_record_overwritten :
  (fun p => extra_ttls (fst p)) <$> ask_sample no_options (edns_query 7) first_state = Some [300%N].
Proof. reflexivity. Qed.

(** With a TTL of a day the record is made anew, as it should be; ten seconds later the cache
    returns it with a TTL that has run below zero. *)
Example opt_record_underflow :
  (fun p => extra_ttls (fst p)) <$> ask_sample day_options (edns_query 7) first_state = Some [0%N] /\
  (ask_sample day_options (edns_query 7) first_state ≫= fun p =>
   (fun p => extra_ttls (fst p)) <$> ask_sample day_options (edns_query 8) (wait 10 (snd p))) = Some [4294967286%N].
Proof. split; reflexivity. Qed.

(** ** All together

    The router sends the query to the fake IP server by a rule; the client asks it and does not
    keep the answer ([fakeip] disables the cache); the store knows the address. *)

#[local] Existing Instance sample.
#[local] Instance sample_services : DNSServices :=
  client_services sample_client false None (fun _ => false)
    (fun tag => if bool_decide (tag = "fakeip") then Some fakeip_server else Some up_server) (Some up_server).

Definition fakeip_rule : DNSRule :=
  DefaultDNSRule (mkDefaultRule [] [] [] [] [] [] [] false
    (Some (ActDNSRoute "fakeip" (mkDNSRouteOptions 0 false None Prefix_zero false)))).

Example fakeip_through_the_router :
  exists r d, Exchange sample_world (∅ : gmap string LocalRuleSet) (a_query 7) no_options no_context
    (mkDNSRouter [fakeip_rule] 0 (Some [])) first_state =
      Some (Ok (FixedResponse 7 example_question [Addr4 3323068419] 600), r, d) /\
    ds_cache d = ([] : CacheState) /\ dr_mapping r = Some [] /\
    Store_Lookup (Addr4 3323068419) (se_store (ds_env d)) = Ok (Some "example.org").
Proof. eexists _, _. split; [reflexivity|]. split; [reflexivity|]. split; reflexivity. Qed.
