(* ===== verification/Float64.v ===== *)
(** * Float64: the floating-point operations of the balancer

    Numbers of the Go type [float64] as a mantissa and an exponent, with the multiplication,
    division and truncation of IEEE 754 (round to nearest, ties to even, 53 bits).  The values
    here are far from the ends of the range: neither infinities nor subnormal numbers appear. *)

From S2P Require Import Prelude.
From Stdlib Require SpecFloat.
Open Scope Z_scope.

(** [f_mant * 2 ^ f_exp]. *)
Record f64 : Type := mkF64 { f_mant : Z; f_exp : Z }.

(** [float64(n)], exact up to [2 ^ 53]. *)
Definition f_of_Z (n : Z) : f64 := mkF64 n 0.

(** The integer nearest to [n / d], the even one of two. *)
Definition round_half_even (n d : Z) : Z :=
  let q := n / d in
  match 2 * (n mod d) ?= d with
  | Lt => q
  | Gt => q + 1
  | Eq => if Z.even q then q else q + 1
  end.

(** [n / (d * 2 ^ e)] as a fraction. *)
Definition scale_num (n e : Z) : Z := n * 2 ^ Z.max 0 (- e).
Definition scale_den (d e : Z) : Z := d * 2 ^ Z.max 0 e.

(** [n / d] rounded to 53 bits: the exponent is the one that leaves 53 bits before the point. *)
Definition ratio_exp (n d : Z) : Z :=
  let e := Z.log2 n - Z.log2 d - 52 in
  if scale_num n e / scale_den d e <? 2 ^ 52 then e - 1 else e.
Definition round_ratio (n d : Z) : f64 :=
  if n =? 0 then mkF64 0 0
  else let e := ratio_exp n d in mkF64 (round_half_even (scale_num n e) (scale_den d e)) e.

Definition f_scale (s : Z) (a : f64) : f64 := mkF64 (f_mant a) (f_exp a + s).
Definition f_div (a b : f64) : f64 := f_scale (f_exp a - f_exp b) (round_ratio (f_mant a) (f_mant b)).
Definition f_mul (a b : f64) : f64 :=
  let m := f_mant a * f_mant b in
  let r := f_scale (f_exp a + f_exp b) (round_ratio (Z.abs m) 1) in
  if m <? 0 then mkF64 (- f_mant r) (f_exp r) else r.

(** The conversion to an integer cuts toward zero. *)
Definition f_trunc (a : f64) : Z :=
  if 0 <=? f_exp a then f_mant a * 2 ^ f_exp a else Z.quot (f_mant a) (2 ^ (- f_exp a)).

(** ** Bounds *)

(** The value of [a] is at least [k * 2 ^ s]. *)
Definition f_ge (a : f64) (k s : Z) : Prop :=
  k * 2 ^ Z.max 0 (s - f_exp a) <= f_mant a * 2 ^ Z.max 0 (f_exp a - s).

Lemma pow2_pos x : 0 <= x -> 0 < 2 ^ x.
Proof. intros. by apply Z.pow_pos_nonneg. Qed.

Lemma round_half_even_ge n d k : 0 < d -> k * d <= n -> k <= round_half_even n d.
Proof.
  intros Hd H. unfold round_half_even. assert (k <= n / d) by (apply Z.div_le_lower_bound; lia).
  destruct (_ ?= _); [destruct (Z.even _)| |]; lia.
Qed.

(** The exponent leaves at least 53 bits. *)
Lemma ratio_exp_bits n d : 0 < n -> 0 < d -> 2 ^ 52 * scale_den d (ratio_exp n d) <= scale_num n (ratio_exp n d).
Proof.
  intros Hn Hd. unfold ratio_exp. set (e := Z.log2 n - Z.log2 d - 52).
  assert (forall x, 0 < scale_den d x) as Hden.
  { intros x. unfold scale_den. pose proof (pow2_pos (Z.max 0 x)). nia. }
  destruct (Z.ltb_spec (scale_num n e / scale_den d e) (2 ^ 52)) as [H|H].
  - pose proof (Z.log2_spec n Hn) as [Hn1 _]. pose proof (Z.log2_spec d Hd) as [_ Hd2]. clear H.
    pose proof (Z.log2_nonneg n). pose proof (Z.log2_nonneg d).
    unfold scale_num, scale_den. set (p := Z.max 0 (- (e - 1))). set (m := Z.max 0 (e - 1)).
    assert (2 ^ 52 * (d * 2 ^ m) <= 2 ^ (Z.log2 d + 1 + 52 + m)) as Hl.
    { rewrite (Z.add_comm _ m), !Z.pow_add_r by lia. unfold Z.succ in Hd2. rewrite Z.pow_add_r in Hd2 by lia.
      pose proof (pow2_pos m). nia. }
    assert (2 ^ (Z.log2 n + p) <= n * 2 ^ p) as Hr.
    { rewrite Z.pow_add_r by lia. pose proof (pow2_pos p). nia. }
    assert (Z.log2 d + 1 + 52 + m = Z.log2 n + p) as E by lia. rewrite E in Hl. lia.
  - specialize (Hden e). pose proof (Z.mul_div_le (scale_num n e) (scale_den d e) Hden). nia.
Qed.

(** Rounding does not go below a number of 53 bits. *)
Lemma round_ratio_ge n d k s :
  0 <= n -> 0 < d -> 0 <= k <= 2 ^ 52 -> 0 <= s -> k * 2 ^ s * d <= n -> f_ge (round_ratio n d) k s.
Proof.
  intros Hn Hd Hk Hs H. unfold f_ge, round_ratio. destruct (Z.eqb_spec n 0) as [->|Hne].
  { assert (k = 0) as -> by (pose proof (pow2_pos s Hs); nia). cbn [f_mant f_exp]. by rewrite !Z.mul_0_l. }
  cbv zeta. set (e := ratio_exp n d). cbn [f_mant f_exp].
  pose proof (ratio_exp_bits n d ltac:(lia) Hd) as Hb. fold e in Hb.
  assert (0 < scale_den d e) as Hden by (unfold scale_den; pose proof (pow2_pos (Z.max 0 e)); nia).
  destruct (Z.le_gt_cases e s) as [He|He].
  - rewrite (Z.max_l 0 (e - s)), (Z.max_r 0 (s - e)) by lia. rewrite Z.mul_1_r.
    apply round_half_even_ge; [done|]. unfold scale_den, scale_num.
    assert (2 ^ s * 2 ^ Z.max 0 (- e) = 2 ^ (s - e) * 2 ^ Z.max 0 e) as E by (rewrite <- !Z.pow_add_r by lia; f_equal; lia).
    pose proof (pow2_pos (Z.max 0 (- e))). nia.
  - rewrite (Z.max_r 0 (e - s)), (Z.max_l 0 (s - e)) by lia. rewrite Z.mul_1_r.
    assert (2 ^ 52 <= round_half_even (scale_num n e) (scale_den d e)) as Hq by by apply round_half_even_ge.
    pose proof (pow2_pos (e - s)). nia.
Qed.

Lemma f_scale_ge a k s t : f_ge a k s -> f_ge (f_scale t a) k (s + t).
Proof.
  unfold f_ge, f_scale. cbn [f_mant f_exp].
  replace (s + t - (f_exp a + t)) with (s - f_exp a) by lia. by replace (f_exp a + t - (s + t)) with (f_exp a - s) by lia.
Qed.

(** A number that is at least an integer is cut to at least that integer. *)
Lemma f_trunc_ge a k : 0 <= k -> f_ge a k 0 -> k <= f_trunc a.
Proof.
  intros Hk. unfold f_ge, f_trunc. destruct (Z.leb_spec 0 (f_exp a)).
  - rewrite (Z.max_l 0 (0 - f_exp a)), (Z.max_r 0 (f_exp a - 0)) by lia. rewrite Z.sub_0_r. lia.
  - rewrite (Z.max_r 0 (0 - f_exp a)), (Z.max_l 0 (f_exp a - 0)) by lia. intros H1.
    replace (- f_exp a) with (0 - f_exp a) by lia. pose proof (pow2_pos (0 - f_exp a) ltac:(lia)).
    rewrite Z.quot_div_nonneg by nia. apply Z.div_le_lower_bound; lia.
Qed.

#[local] Instance spec_float_eq_dec : EqDecision SpecFloat.spec_float.
Proof. solve_decision. Defined.

(** The same numbers as the specification of floating-point arithmetic in the Standard Library. *)
Definition to_spec (a : f64) : SpecFloat.spec_float := SpecFloat.binary_normalize 53 1024 (f_mant a) (f_exp a) false.
Example f_div_spec :
  forallb (fun x => bool_decide (to_spec (f_div (f_of_Z (2 ^ 31)) (f_of_Z x)) =
    SpecFloat.SFdiv 53 1024 (to_spec (f_of_Z (2 ^ 31))) (to_spec (f_of_Z x))))
    [1; 3; 7; 1234567891; 2147483647; 2147483648] = true.
Proof. vm_compute. reflexivity. Qed.
Example f_mul_spec :
  forallb (fun x => let r := f_div (f_of_Z (2 ^ 31)) (f_of_Z 1234567891) in
    bool_decide (to_spec (f_mul (f_of_Z x) r) = SpecFloat.SFmul 53 1024 (to_spec (f_of_Z x)) (to_spec r)))
    [1; -5; 12345; 65535; 2147483647] = true.
Proof. vm_compute. reflexivity. Qed.
