(* ===== verification/Balancer.v ===== *)
(** * Balancer: the load balancing group and its strategies

    protocol/group/balancer: the helpers of common.go, the strategies of roundrobin.go,
    consistent_hashing.go, sticky_session.go and lowest_delay.go, and the group of balancer.go.
    The mutexes make every operation atomic. *)

From S2P Require Import Prelude GoStd NetIP Metadata Adapter Float64.
From stdpp Require Import gmap.
Open Scope string_scope.
Open Scope list_scope.

(** ** Interrupt groups: the connections a group closes when its choice changes (common/interrupt/group.go, conn.go).  A connection is a number; closing it is recorded. *)

(** [groupConnItem]. *)
Record groupConnItem : Type := mkItem { gc_conn : nat; gc_isExternal : bool }.

(** [Group]: its list of connections, and those that it has closed, in order. *)
Record Group : Type := mkGroup { g_connections : list groupConnItem; g_closed : list nat }.
Definition NewGroup : Group := mkGroup [] [].

(** [NewConn], [NewPacketConn], [NewSingPacketConn]. *)
Definition Group_NewConn (conn : nat) (isExternal : bool) (g : Group) : Group :=
  mkGroup (g_connections g ++ [mkItem conn isExternal]) (g_closed g).

(** [Conn.Close]: the connection leaves the group, and is closed. *)
Definition Conn_Close (conn : nat) (g : Group) : Group :=
  mkGroup (List.filter (fun i => negb (gc_conn i =? conn)%nat) (g_connections g)) (g_closed g ++ [conn]).

Definition to_interrupt (external : bool) (i : groupConnItem) : bool := negb (gc_isExternal i) || external.
Definition Group_Interrupt (interruptExternalConnections : bool) (g : Group) : Group :=
  mkGroup (List.filter (fun i => negb (to_interrupt interruptExternalConnections i)) (g_connections g))
    (g_closed g ++ map gc_conn (List.filter (to_interrupt interruptExternalConnections) (g_connections g))).

Definition index_out_of_range : string := "runtime error: index out of range".

(** ** Delays *)

(** [adapter.URLTestHistory]. *)
Record URLTestHistory : Type := mkHistory { h_Delay : N; h_IsFromCache : bool }.
(** A map of tags to histories, which may be nil. *)
Abbreviation histories := (gmap string (option URLTestHistory)).

Definition TimeoutDelay : N := 65535.
Definition getModifiedDelay (his : option URLTestHistory) : N :=
  match his with
  | None => TimeoutDelay
  | Some his =>
      let delay := if (h_Delay his =? 0)%N then TimeoutDelay else h_Delay his in
      if h_IsFromCache his && (delay <? 20000)%N then (delay + 20000)%N else delay
  end.
Definition getTagDelay (tag : string) (history : histories) : N :=
  match history !! tag with Some (Some his) => getModifiedDelay (Some his) | _ => TimeoutDelay end.
Definition getDelayMap (history : histories) : gmap string N :=
  (fun his : option URLTestHistory => match his with Some h => h_Delay h | None => TimeoutDelay end) <$> history.

(** ** Outbounds by network

    A map with the keys "tcp" and "udp"; another network is read as "tcp", as [Select] does. *)
Record per_net (A : Type) : Type := mkPerNet { on_tcp : A; on_udp : A }.
Arguments mkPerNet {_} _ _.
Arguments on_tcp {_} _.
Arguments on_udp {_} _.
Definition get_net {A} (net : string) (p : per_net A) : A :=
  if bool_decide (net = NetworkUDP) then on_udp p else on_tcp p.
Definition set_net {A} (net : string) (x : A) (p : per_net A) : per_net A :=
  if bool_decide (net = NetworkUDP) then mkPerNet (on_tcp p) x else mkPerNet x (on_udp p).
Definition map_net {A B} (f : A -> B) (p : per_net A) : per_net B := mkPerNet (f (on_tcp p)) (f (on_udp p)).
Definition result_net {A} (p : per_net (result A)) : result (per_net A) :=
  let! t := on_tcp p in let! u := on_udp p in Ok (mkPerNet t u).

(** [networks o] is what [o.Network()] answers while the balancer starts.  It is read only then, and may
    be something else later: a selector answers the networks of its selection of the moment. *)
Definition filterOutbounds (networks : Outbound -> list string) (outbounds : list Outbound) (network : string) : list Outbound :=
  match List.filter (fun out => bool_decide (network ∈ networks out)) outbounds with [] => outbounds | res => res end.
Definition convertOutbounds (networks : Outbound -> list string) (outbounds : list Outbound) : per_net (list Outbound) :=
  mkPerNet (filterOutbounds networks outbounds NetworkTCP) (filterOutbounds networks outbounds NetworkUDP).

(** [sort.SliceStable] by delay: the insertion of an outbound before those that are not less. *)
Definition delay_of (history : histories) (o : Outbound) : N := getTagDelay (ob_Tag o) history.
Fixpoint insert_by_delay (history : histories) (o : Outbound) (l : list Outbound) : list Outbound :=
  match l with
  | [] => [o]
  | x :: l' => if (delay_of history o <=? delay_of history x)%N then o :: l else x :: insert_by_delay history o l'
  end.
Definition sort_by_delay (history : histories) (l : list Outbound) : list Outbound :=
  foldr (insert_by_delay history) [] l.
Definition sortOutboundsByDelay (outbounds : per_net (list Outbound)) (history : histories) : per_net (list Outbound) :=
  map_net (sort_by_delay history) outbounds.

(** [uint16(x)] of a number that does not fit is up to the processor. *)
Class FloatConversion : Type := { uint16_overflow : Z -> N }.

Section Balancer.
Context {X : Externals} {FC : FloatConversion}.

Definition to_uint16 (a : f64) : N :=
  let z := f_trunc a in if (0 <=? z)%Z && (z <? 65536)%Z then Z.to_N z else uint16_overflow z.
(** [uint16(math.Max(100, float64(d)) * ratio)]. *)
Definition acceptable_delay (ratio : f64) (d : N) : N :=
  to_uint16 (f_mul (f_of_Z (Z.max 100 (Z.of_N d))) ratio).

(** The last index whose delay is acceptable, 0 if there is none. *)
Definition last_acceptable (history : histories) (max : N) (outs : list Outbound) : nat :=
  foldl (fun (acc : nat) (p : nat * Outbound) => if (delay_of history (snd p) <=? max)%N then fst p else acc) 0%nat
    (imap pair outs).
Definition getAcceptableIndex_net (history : histories) (ratio : f64) (outs : list Outbound) : result nat :=
  match outs with
  | [] => Panic index_out_of_range
  | o :: _ => Ok (last_acceptable history (acceptable_delay ratio (delay_of history o)) outs)
  end.
Definition getAcceptableIndex (sortedOutbounds : per_net (list Outbound)) (history : histories) (ratio : f64)
  : result (per_net nat) := result_net (map_net (getAcceptableIndex_net history ratio) sortedOutbounds).

(** The outbound of the least delay, the last one of several, and the delay. *)
Definition min_step (history : histories) (acc : option Outbound * N) (out : Outbound) : option Outbound * N :=
  let d := delay_of history out in if (d <=? snd acc)%N then (Some out, d) else acc.
Definition min_delay (history : histories) (outs : list Outbound) : option Outbound * N :=
  foldl (min_step history) (None, TimeoutDelay) outs.
Definition getMinDelay (outbounds : per_net (list Outbound)) (history : histories)
  : per_net (option Outbound) * per_net N :=
  let p := map_net (min_delay history) outbounds in (map_net fst p, map_net snd p).

(** ** Keys *)

(** [net.ParseIP], and the public suffix list. *)
Definition ParseIP_ok (s : string) : bool :=
  match ParseAddr s with Some a => bool_decide (Addr_Zone a = "") | None => false end.
Variable EffectiveTLDPlusOne : string -> option string.

Definition getKey (metadata : InboundContext) : string :=
  let metadataHost :=
    if Socksaddr_IsFqdn (md_Destination metadata) then sa_Fqdn (md_Destination metadata) else sn_Domain (md_sniff metadata) in
  let by_address :=
    let destinationAddr :=
      match md_DestinationAddresses metadata with a :: _ => a | [] => sa_Addr (md_Destination metadata) end in
    if negb (Addr_IsValid destinationAddr) then "" else Addr_String destinationAddr in
  if negb (str_empty metadataHost) then
    if ParseIP_ok metadataHost then metadataHost
    else match EffectiveTLDPlusOne metadataHost with Some etld => etld | None => by_address end
  else by_address.
Definition getKeyWithSrcAndDst (metadata : InboundContext) : string :=
  Addr_String (sa_Addr (md_Source metadata)) +:+ getKey metadata.

(** [jumpHash]: a step of the loop, and the loop.  A number [j] is at most [2 ^ 62]: the factors are
    at most [2 ^ 31]. *)
Definition jump_key (key : N) : N := ((key * 2862933555777941757 + 1) mod 2 ^ 64)%N.
Definition jump_next (key : N) (b : Z) : Z :=
  f_trunc (f_mul (f_of_Z (b + 1)) (f_div (f_of_Z (2 ^ 31)) (f_of_Z (Z.of_N (N.shiftr key 33) + 1)))).
Fixpoint jump_loop (fuel : nat) (buckets : Z) (key : N) (b j : Z) : option Z :=
  match fuel with
  | 0%nat => None
  | S fuel =>
      if (j <? buckets)%Z then
        let key := jump_key key in jump_loop fuel buckets key j (jump_next key j)
      else Some b
  end.
(** Each turn raises [j], which starts at 0. *)
Definition jumpHash (key : N) (buckets : nat) : nat :=
  Z.to_nat (default 0%Z (jump_loop (S buckets) (Z.of_nat buckets) key 0 0)).

(** [outs[idx]]. *)
Definition at_index (outs : list Outbound) (idx : nat) : result Outbound :=
  match outs !! idx with Some o => Ok o | None => Panic index_out_of_range end.

(** ** Round robin *)

Record RoundRobin : Type := mkRoundRobin {
  rr_outbounds : per_net (list Outbound);
  rr_sortedOutbounds : per_net (list Outbound);
  rr_maxAcceptableIndex : per_net Z;
  rr_idx : per_net Z;
  rr_delayAcceptableRatio : f64
}.
Definition NewRoundRobin (networks : Outbound -> list string) (outbounds : list Outbound) (ratio : f64) : RoundRobin :=
  let cOutbounds := convertOutbounds networks outbounds in
  mkRoundRobin cOutbounds cOutbounds (map_net (fun outs => (Z.of_nat (length outs) - 1)%Z) cOutbounds)
    (mkPerNet 0%Z 0%Z) ratio.

Definition RoundRobin_Update (history : histories) (s : RoundRobin) : result (bool * RoundRobin) :=
  let sortedOutbounds := sortOutboundsByDelay (rr_outbounds s) history in
  let! acceptableIndex := getAcceptableIndex sortedOutbounds history (rr_delayAcceptableRatio s) in
  let index := map_net Z.of_nat acceptableIndex in
  let changed :=
    negb (on_tcp index =? on_tcp (rr_maxAcceptableIndex s))%Z || negb (on_udp index =? on_udp (rr_maxAcceptableIndex s))%Z in
  Ok (changed, mkRoundRobin (rr_outbounds s) sortedOutbounds index (rr_idx s) (rr_delayAcceptableRatio s)).

(** [None]: nil. *)
Definition RoundRobin_Select (net : string) (touch : bool) (s : RoundRobin) : result (option Outbound) * RoundRobin :=
  let length := (get_net net (rr_maxAcceptableIndex s) + 1)%Z in
  if (length =? 0)%Z then (Ok None, s)
  else
    let id := Z.rem (get_net net (rr_idx s) + 1) length in
    match at_index (get_net net (rr_sortedOutbounds s)) (Z.to_nat id) with
    | Ok proxy =>
        (Ok (Some proxy),
         if touch
         then mkRoundRobin (rr_outbounds s) (rr_sortedOutbounds s) (rr_maxAcceptableIndex s)
                (set_net net id (rr_idx s)) (rr_delayAcceptableRatio s)
         else s)
    | Err e => (Err e, s)
    | Panic msg => (Panic msg, s)
    end.

(** ** Consistent hashing *)

(** [delays] and [maxAcceptableDelay] are nil until the first update, and then read as empty. *)
Record ConsistentHashing : Type := mkConsistentHashing {
  ch_outbounds : per_net (list Outbound);
  ch_delays : gmap string N;
  ch_maxRetry : nat;
  ch_maxAcceptableDelay : per_net N;
  ch_delayAcceptableRatio : f64
}.
Definition NewConsistentHashing (networks : Outbound -> list string) (outbounds : list Outbound) (maxRetry : nat) (ratio : f64) : ConsistentHashing :=
  mkConsistentHashing (convertOutbounds networks outbounds) ∅ maxRetry (mkPerNet 0%N 0%N) ratio.

(** What [UpdateOutboundsInfo] of the two hashing strategies computes. *)
Definition acceptable_delays (outbounds : per_net (list Outbound)) (history : histories) (ratio : f64) : per_net N :=
  map_net (acceptable_delay ratio) (snd (getMinDelay outbounds history)).
Definition ConsistentHashing_Update (history : histories) (s : ConsistentHashing) : bool * ConsistentHashing :=
  (true, mkConsistentHashing (ch_outbounds s) (getDelayMap history) (ch_maxRetry s)
           (acceptable_delays (ch_outbounds s) history (ch_delayAcceptableRatio s)) (ch_delayAcceptableRatio s)).

Definition alive (delays : gmap string N) (maxAcceptableDelay : N) (proxy : Outbound) : bool :=
  match delays !! ob_Tag proxy with Some delay => (delay <=? maxAcceptableDelay)%N | None => false end.
Definition ConsistentHashing_Alive (s : ConsistentHashing) (net : string) (proxy : Outbound) : bool :=
  alive (ch_delays s) (get_net net (ch_maxAcceptableDelay s)) proxy.

(** The first loop: [Some] if it returns; the key it ends with otherwise. *)
Fixpoint hash_retry (s : ConsistentHashing) (net : string) (outs : list Outbound) (n : nat) (key : N)
  : result (Outbound + N) :=
  match n with
  | 0%nat => Ok (inr key)
  | S n =>
      let! proxy := at_index outs (jumpHash key (length outs)) in
      if ConsistentHashing_Alive s net proxy then Ok (inl proxy)
      else hash_retry s net outs n ((key + 1) mod 2 ^ 64)%N
  end.

Variable hash : string -> N.   (* [hash.Hash] *)

Definition ConsistentHashing_Select (metadata : InboundContext) (net : string) (s : ConsistentHashing) : result Outbound :=
  let outs := get_net net (ch_outbounds s) in
  let! r := hash_retry s net outs (ch_maxRetry s) (hash (getKey metadata)) in
  match r with
  | inl proxy => Ok proxy
  | inr key =>
      match List.find (ConsistentHashing_Alive s net) outs with
      | Some proxy => Ok proxy
      | None => at_index outs (jumpHash key (length outs))
      end
  end.

(** ** Sticky sessions *)

(** The cache of sessions: the index of an outbound by key. *)
Class SessionCache : Type := {
  Sessions : Type;
  sessions_Get : N -> Sessions -> option nat * Sessions;
  sessions_Add : N -> nat -> Sessions -> Sessions
}.
Context {SC : SessionCache}.

Record StickySession : Type := mkStickySession {
  ss_outbounds : per_net (list Outbound);
  ss_maxRetry : nat;
  ss_delays : gmap string N;
  ss_maxAcceptableDelay : per_net N;
  ss_delayAcceptableRatio : f64;
  ss_lruCache : Sessions
}.
Definition NewStickySession (networks : Outbound -> list string) (outbounds : list Outbound) (maxRetry : nat) (ratio : f64) (lruCache : Sessions) : StickySession :=
  mkStickySession (convertOutbounds networks outbounds) maxRetry ∅ (mkPerNet 0%N 0%N) ratio lruCache.
Definition StickySession_Update (history : histories) (s : StickySession) : bool * StickySession :=
  (true, mkStickySession (ss_outbounds s) (ss_maxRetry s) (getDelayMap history)
           (acceptable_delays (ss_outbounds s) history (ss_delayAcceptableRatio s)) (ss_delayAcceptableRatio s)
           (ss_lruCache s)).
Definition set_sessions (c : Sessions) (s : StickySession) : StickySession :=
  mkStickySession (ss_outbounds s) (ss_maxRetry s) (ss_delays s) (ss_maxAcceptableDelay s) (ss_delayAcceptableRatio s) c.
Definition StickySession_Alive (s : StickySession) (net : string) (proxy : Outbound) : bool :=
  alive (ss_delays s) (get_net net (ss_maxAcceptableDelay s)) proxy.

(** A new place: the key plus the clock; [nanos i] is the [i]-th reading. *)
Definition random_index (key : N) (nanos : N) (outs : list Outbound) : nat :=
  jumpHash ((key + nanos) mod 2 ^ 64)%N (length outs).

(** The loop: the index it ends with, and whether that outbound is alive. *)
Fixpoint sticky_loop (s : StickySession) (net : string) (outs : list Outbound) (key : N) (nanos : nat -> N) (n i : nat)
  (nowIdx : nat) : result (nat * bool) :=
  match n with
  | 0%nat => Ok (nowIdx, false)
  | S n =>
      let! proxy := at_index outs nowIdx in
      if StickySession_Alive s net proxy then Ok (nowIdx, true)
      else sticky_loop s net outs key nanos n (S i) (random_index key (nanos i) outs)
  end.

Definition StickySession_Select (metadata : InboundContext) (net : string) (nanos : nat -> N) (s : StickySession)
  : result Outbound * StickySession :=
  let key := hash (getKeyWithSrcAndDst metadata) in
  let outs := get_net net (ss_outbounds s) in
  let '(found, cache) := sessions_Get key (ss_lruCache s) in
  let s := set_sessions cache s in
  let known := match found with Some idx => (idx <? length outs)%nat | None => false end in
  let idx := if known then default 0%nat found else random_index key (nanos 0%nat) outs in
  match sticky_loop s net outs key nanos (ss_maxRetry s - 1) 1 idx with
  | Ok (nowIdx, true) =>
      let s := if match found with None => true | Some _ => negb (nowIdx =? idx)%nat end then set_sessions (sessions_Add key nowIdx (ss_lruCache s)) s else s in
      (at_index outs nowIdx, s)
  | Ok (nowIdx, false) => (at_index outs nowIdx, set_sessions (sessions_Add key nowIdx (ss_lruCache s)) s)
  | Err e => (Err e, s)
  | Panic msg => (Panic msg, s)
  end.

(** ** Lowest delay *)

Record LowestDelay : Type := mkLowestDelay {
  ld_outbounds : per_net (list Outbound);
  ld_selectedOutbound : per_net Outbound
}.
Definition NewLowestDelay (networks : Outbound -> list string) (outbounds : list Outbound) : result LowestDelay :=
  let couts := convertOutbounds networks outbounds in
  let! selected := result_net (map_net (fun outs => at_index outs 0) couts) in
  Ok (mkLowestDelay couts selected).
Definition LowestDelay_Update (history : histories) (s : LowestDelay) : result (bool * LowestDelay) :=
  let best := fst (getMinDelay (ld_outbounds s) history) in
  match on_tcp best, on_udp best with
  | Some t, Some u =>
      let changed :=
        negb (bool_decide (ob_Tag t = ob_Tag (on_tcp (ld_selectedOutbound s)))) ||
        negb (bool_decide (ob_Tag u = ob_Tag (on_udp (ld_selectedOutbound s)))) in
      Ok (changed, mkLowestDelay (ld_outbounds s) (mkPerNet t u))
  | _, _ => Panic "runtime error: invalid memory address or nil pointer dereference"
  end.
Definition LowestDelay_Select (net : string) (s : LowestDelay) : Outbound := get_net net (ld_selectedOutbound s).
End Balancer.
