(* ===== verification/BalancerLaws.v ===== *)
(** * BalancerLaws: what the strategies of the balancer choose *)

From S2P Require Import Prelude GoStd NetIP Metadata Adapter Float64 Balancer.
From stdpp Require Import gmap sorting.
Open Scope string_scope.
Open Scope list_scope.

(** ** Jump hash *)

Lemma f_ge_weaken a k s : (0 <= k)%Z -> (0 <= s)%Z -> (0 <= f_mant a)%Z -> f_ge a k s -> f_ge a k 0.
Proof.
  unfold f_ge. set (e := f_exp a). intros Hk Hs Hm H.
  destruct (Z.le_gt_cases e 0); [|destruct (Z.le_gt_cases e s)].
  - rewrite (Z.max_r 0 (s - e)), (Z.max_l 0 (e - s)) in H by lia.
    rewrite (Z.max_r 0 (0 - e)), (Z.max_l 0 (e - 0)) by lia.
    replace (s - e)%Z with (s + (0 - e))%Z in H by lia. rewrite Z.pow_add_r in H by lia.
    pose proof (pow2_pos s Hs). pose proof (pow2_pos (0 - e) ltac:(lia)). nia.
  - rewrite (Z.max_r 0 (s - e)), (Z.max_l 0 (e - s)) in H by lia.
    rewrite (Z.max_l 0 (0 - e)), (Z.max_r 0 (e - 0)) by lia.
    pose proof (pow2_pos (s - e) ltac:(lia)). pose proof (pow2_pos (e - 0) ltac:(lia)). nia.
  - rewrite (Z.max_l 0 (s - e)), (Z.max_r 0 (e - s)) in H by lia.
    rewrite (Z.max_l 0 (0 - e)), (Z.max_r 0 (e - 0)) by lia.
    replace (e - 0)%Z with (s + (e - s))%Z by lia. rewrite Z.pow_add_r by lia.
    pose proof (pow2_pos s Hs). pose proof (pow2_pos (e - s) ltac:(lia)). nia.
Qed.

Lemma round_ratio_nonneg n d : (0 <= n)%Z -> (0 < d)%Z -> (0 <= f_mant (round_ratio n d))%Z.
Proof.
  intros Hn Hd. unfold round_ratio. destruct (n =? 0)%Z; [done|]. apply round_half_even_ge.
  - unfold scale_den. pose proof (pow2_pos (Z.max 0 (ratio_exp n d))). nia.
  - unfold scale_num. pose proof (pow2_pos (Z.max 0 (- ratio_exp n d))). nia.
Qed.

(** A turn of the loop moves forward. *)
Lemma jump_next_ge key b : (key < 2 ^ 64)%N -> (0 <= b < 2 ^ 31)%Z -> (b + 1 <= jump_next key b)%Z.
Proof.
  intros Hk Hb. unfold jump_next. set (x := (Z.of_N (N.shiftr key 33) + 1)%Z).
  assert (0 < x <= 2 ^ 31)%Z as Hx.
  { assert (N.shiftr key 33 < 2 ^ 31)%N as H.
    { rewrite N.shiftr_div_pow2. apply N.Div0.div_lt_upper_bound. exact Hk. }
    unfold x. generalize (N.shiftr key 33), H. intros q Hq. change (2 ^ 31)%N with 2147483648%N in Hq. lia. }
  apply f_trunc_ge; [lia|]. set (r := f_div _ _).
  assert (f_ge r 1 0) as Hr.
  { apply (f_scale_ge _ 1 0 0), round_ratio_ge; cbn [f_of_Z f_mant]; lia. }
  assert (0 <= f_mant r)%Z as Hm by (apply round_ratio_nonneg; simpl; lia).
  clearbody r. unfold f_mul. cbn [f_of_Z f_mant f_exp]. rewrite Z.add_0_l.
  destruct (Z.ltb_spec ((b + 1) * f_mant r) 0) as [?|_]; [nia|]. rewrite Z.abs_eq by nia.
  unfold f_ge in Hr. destruct (Z.le_gt_cases (f_exp r) 0) as [He|He].
  - rewrite (Z.max_r 0 (0 - f_exp r)), (Z.max_l 0 (f_exp r - 0)) in Hr by lia.
    assert (f_ge (f_scale (f_exp r) (round_ratio ((b + 1) * f_mant r) 1)) (b + 1) (0 - f_exp r + f_exp r)) as H.
    { apply f_scale_ge, round_ratio_ge; nia. }
    by replace (0 - f_exp r + f_exp r)%Z with 0%Z in H by lia.
  - apply (f_ge_weaken _ _ (0 + f_exp r)); [lia|lia| |apply f_scale_ge, round_ratio_ge].
    + apply round_ratio_nonneg; nia.
    + nia.
    + lia.
    + lia.
    + lia.
    + assert (f_mant r <> 0)%Z as Hne; [|nia]. intros E. rewrite E, (Z.max_l 0 (0 - f_exp r)) in Hr by lia.
      by rewrite Z.mul_0_l in Hr.
Qed.

Lemma jump_key_bound key : (jump_key key < 2 ^ 64)%N.
Proof. unfold jump_key. by apply N.mod_upper_bound. Qed.

(** The loop ends within its fuel, with a bucket. *)
Lemma jump_loop_bound fuel : forall buckets key b j,
  (0 <= b < buckets)%Z -> (0 <= j)%Z -> (buckets <= 2 ^ 31)%Z -> (buckets - j < Z.of_nat fuel)%Z -> (0 < fuel)%nat ->
  exists r, jump_loop fuel buckets key b j = Some r /\ (0 <= r < buckets)%Z.
Proof.
  induction fuel as [|fuel IH]; intros buckets key b j Hb Hj Hn Hf H0; [lia|]. cbn [jump_loop].
  destruct (Z.ltb_spec j buckets) as [H|H]; [|by exists b].
  pose proof (jump_next_ge (jump_key key) j (jump_key_bound key) ltac:(lia)). apply IH; lia.
Qed.

(** One bucket more: the loop ends where it did, or in the new bucket. *)
Lemma jump_loop_grow fuel : forall fuel' n key b j r,
  (0 <= j)%Z -> (n < 2 ^ 31)%Z -> (n + 1 - j < Z.of_nat fuel')%Z -> (0 < fuel')%nat ->
  jump_loop fuel n key b j = Some r ->
  jump_loop fuel' (n + 1) key b j = Some r \/ jump_loop fuel' (n + 1) key b j = Some n.
Proof.
  induction fuel as [|fuel IH]; intros fuel' n key b j r Hj Hn Hf H0 H; [done|].
  destruct fuel' as [|fuel']; [lia|]. cbn [jump_loop] in *.
  pose proof (fun H1 => jump_next_ge (jump_key key) j (jump_key_bound key) H1) as Hnext.
  destruct (Z.ltb_spec j n) as [H1|H1]; destruct (Z.ltb_spec j (n + 1)) as [H2|H2]; try lia.
  - specialize (Hnext ltac:(lia)). apply (IH fuel'); try lia. done.
  - assert (j = n) as -> by lia. specialize (Hnext ltac:(lia)). right.
    destruct fuel' as [|fuel']; [lia|]. cbn [jump_loop]. destruct (Z.ltb_spec (jump_next (jump_key key) n) (n + 1)); [lia|done].
  - by left.
Qed.

Lemma jumpHash_lt key n : (0 < n)%nat -> (Z.of_nat n <= 2 ^ 31)%Z -> (jumpHash key n < n)%nat.
Proof.
  intros H0 Hn. unfold jumpHash.
  destruct (jump_loop_bound (S n) (Z.of_nat n) key 0 0) as (r & -> & Hr); try lia. simpl. lia.
Qed.

(** C29: [jumpHash] is a consistent hash: for every key it ends, in one of the buckets, and when a bucket is
    added a key stays where it was or moves to the new bucket. *)
Theorem jumpHash_consistent key n :
  (0 < n)%nat -> (Z.of_nat n < 2 ^ 31)%Z ->
  (exists b, jump_loop (S n) (Z.of_nat n) key 0 0 = Some b) /\ (jumpHash key n < n)%nat /\
  (jumpHash key (S n) = jumpHash key n \/ jumpHash key (S n) = n).
Proof.
  intros H0 Hn. pose proof (jumpHash_lt key n H0 ltac:(lia)) as Hlt. unfold jumpHash in *.
  destruct (jump_loop_bound (S n) (Z.of_nat n) key 0 0) as (r & E & Hr); try lia. rewrite E in *. split; [by exists r|].
  split; [done|]. destruct (jump_loop_grow (S n) (S (S n)) (Z.of_nat n) key 0 0 r) as [E'|E']; [lia..|done| |].
  - left. replace (Z.of_nat (S n)) with (Z.of_nat n + 1)%Z by lia. by rewrite E'.
  - right. replace (Z.of_nat (S n)) with (Z.of_nat n + 1)%Z by lia. rewrite E'. simpl. lia.
Qed.

(** ** Sorting by delay *)

Section Sort.
Variable history : histories.
Abbreviation delay := (delay_of history).
Definition not_slower (a b : Outbound) : Prop := (delay a <= delay b)%N.

Lemma insert_Permutation o l : insert_by_delay history o l ≡ₚ o :: l.
Proof.
  induction l as [|x l IH]; [done|]. simpl. destruct (_ <=? _)%N; [done|]. rewrite IH. apply Permutation_swap.
Qed.
Lemma insert_sorted o l : StronglySorted not_slower l -> StronglySorted not_slower (insert_by_delay history o l).
Proof.
  induction 1 as [|x l Hl IH Hx]; simpl; [by repeat constructor|].
  destruct (N.leb_spec (delay o) (delay x)) as [H|H].
  - constructor; [by constructor|]. constructor; [done|]. eapply Forall_impl; [exact Hx|].
    intros y Hy. unfold not_slower in *. lia.
  - constructor; [done|]. rewrite insert_Permutation. constructor; [unfold not_slower; lia|done].
Qed.

Lemma sort_Permutation l : sort_by_delay history l ≡ₚ l.
Proof. induction l as [|o l IH]; [done|]. simpl. by rewrite insert_Permutation, IH. Qed.
Lemma sort_sorted l : StronglySorted not_slower (sort_by_delay history l).
Proof. induction l as [|o l IH]; [constructor|]. by apply insert_sorted. Qed.

(** Outbounds of the same delay stay in their order. *)
Lemma insert_filter d o l :
  List.filter (fun x => delay x =? d)%N (insert_by_delay history o l) = List.filter (fun x => delay x =? d)%N (o :: l).
Proof.
  induction l as [|x l IH]; [done|]. cbn [insert_by_delay]. destruct (N.leb_spec (delay o) (delay x)) as [H|H]; [done|].
  cbn [List.filter] in *. rewrite IH.
  destruct (N.eqb_spec (delay x) d), (N.eqb_spec (delay o) d); try done. lia.
Qed.
Lemma sort_stable d l :
  List.filter (fun x => delay x =? d)%N (sort_by_delay history l) = List.filter (fun x => delay x =? d)%N l.
Proof. induction l as [|o l IH]; [done|]. simpl. rewrite insert_filter. simpl. by rewrite IH. Qed.

(** ** The acceptable ones *)

Lemma last_acceptable_snoc max l o :
  last_acceptable history max (l ++ [o]) =
  if (delay o <=? max)%N then length l else last_acceptable history max l.
Proof. unfold last_acceptable. rewrite imap_app, foldl_app. simpl. by rewrite Nat.add_0_r. Qed.

(** In a sorted list they are the first ones. *)
Lemma last_acceptable_sorted max l :
  StronglySorted not_slower l ->
  (forall o, head l = Some o -> (delay o <= max)%N) ->
  (last_acceptable history max l < length l \/ l = [])%nat /\
  take (S (last_acceptable history max l)) l = List.filter (fun o => delay o <=? max)%N l.
Proof.
  intros Hs Hh. induction l as [|o l IH] using rev_ind; [split; [by right|done]|].
  assert (StronglySorted not_slower l /\ Forall (fun x => not_slower x o) l) as [Hl Ho].
  { clear IH Hh. induction l as [|x l IH]; [by split; constructor|]. simpl in Hs.
    inversion Hs as [|? ? Hs' Hx]; subst. destruct (IH Hs') as [H1 H2]. rewrite Forall_app, Forall_singleton in Hx.
    destruct Hx as [Hx1 Hx2]. by split; constructor. }
  rewrite last_acceptable_snoc, List.filter_app, length_app. cbn [List.filter].
  destruct (N.leb_spec (delay o) max) as [H|H].
  - split; [left; simpl; lia|]. rewrite take_ge by (rewrite length_app; simpl; lia).
    f_equal. symmetry. apply forallb_filter_id, forallb_forall. intros x Hx%list_elem_of_In.
    rewrite Forall_forall in Ho. apply N.leb_le. specialize (Ho x Hx). unfold not_slower in Ho. lia.
  - destruct l as [|x l].
    + specialize (Hh o eq_refl). lia.
    + destruct IH as [[Hlt|?] Ht]; [done|by apply Hh| |done]. split; [left; lia|].
      rewrite app_nil_r, <- Ht. apply take_app_le. simpl in *. lia.
Qed.
Lemma last_acceptable_lt max l : (last_acceptable history max l < length l)%nat \/ last_acceptable history max l = 0%nat.
Proof.
  induction l as [|o l IH] using rev_ind; [by right|]. rewrite last_acceptable_snoc, length_app. simpl.
  destruct (_ <=? _)%N; [left; lia|]. destruct IH; [left; lia|by right].
Qed.

Lemma last_acceptable_none max l : Forall (fun o => (max < delay o)%N) l -> last_acceptable history max l = 0%nat.
Proof.
  induction l as [|o l IH] using rev_ind; [done|]. rewrite Forall_app, Forall_singleton, last_acceptable_snoc.
  intros [Hl Ho]. destruct (N.leb_spec (delay o) max); [lia|auto].
Qed.
Lemma sorted_head best rest : StronglySorted not_slower (best :: rest) -> forall o, o ∈ rest -> (delay best <= delay o)%N.
Proof. inversion 1 as [|? ? _ H1]; subst. intros o Ho. rewrite Forall_forall in H1. by apply H1. Qed.
Lemma filter_Permutation {A} (p : A -> bool) l l' : l ≡ₚ l' -> List.filter p l ≡ₚ List.filter p l'.
Proof.
  induction 1; simpl; [done|by destruct (p x); [f_equiv|]| |by etrans].
  destruct (p x), (p y); try done. apply Permutation_swap.
Qed.
End Sort.

(** ** Round robin *)

Lemma get_map_net {A B} net (f : A -> B) p : get_net net (map_net f p) = f (get_net net p).
Proof. unfold get_net. by case_bool_decide. Qed.
Lemma get_set_net {A} net net' (x : A) p :
  get_net net' (set_net net x p) =
  if bool_decide (bool_decide (net = NetworkUDP) = bool_decide (net' = NetworkUDP)) then x else get_net net' p.
Proof. unfold get_net, set_net. destruct (bool_decide (net = _)), (bool_decide (net' = _)); done. Qed.

Lemma convert_nonempty networks outbounds net : outbounds <> [] -> get_net net (convertOutbounds networks outbounds) <> [].
Proof.
  intros H. unfold get_net, convertOutbounds, filterOutbounds. simpl.
  case_bool_decide; by destruct (List.filter _ outbounds).
Qed.

Section RoundRobin.
Context {FC : FloatConversion}.
Implicit Types s : RoundRobin.

(** The outbounds that take turns. *)
Definition turns net s : list Outbound :=
  take (Z.to_nat (get_net net (rr_maxAcceptableIndex s) + 1)) (get_net net (rr_sortedOutbounds s)).
Record rr_ok s : Prop := {
  ok_sorted net : get_net net (rr_sortedOutbounds s) ≡ₚ get_net net (rr_outbounds s);
  ok_outbounds net : get_net net (rr_outbounds s) <> [];
  ok_max net : (0 <= get_net net (rr_maxAcceptableIndex s) < Z.of_nat (length (get_net net (rr_outbounds s))))%Z;
  ok_idx net : (0 <= get_net net (rr_idx s))%Z
}.

Lemma NewRoundRobin_ok networks outbounds ratio : outbounds <> [] -> rr_ok (NewRoundRobin networks outbounds ratio).
Proof.
  intros H. pose proof (fun net => convert_nonempty networks outbounds net H) as Hne.
  split; simpl; intros net; [done|done| |].
  - rewrite get_map_net. specialize (Hne net). destruct (get_net net _); [done|]. simpl. lia.
  - unfold get_net. by case_bool_decide.
Qed.

Lemma turns_length net s :
  rr_ok s -> length (turns net s) = Z.to_nat (get_net net (rr_maxAcceptableIndex s) + 1).
Proof.
  intros [Hs _ Hm _]. unfold turns. specialize (Hm net). rewrite length_take, (Hs net). lia.
Qed.

(** A choice: the next one in turn. *)
Definition next_turn net s : Z := ((get_net net (rr_idx s) + 1) mod Z.of_nat (length (turns net s)))%Z.
Lemma RoundRobin_Select_turn net s :
  rr_ok s ->
  exists o, turns net s !! Z.to_nat (next_turn net s) = Some o /\
    forall touch, RoundRobin_Select net touch s =
      (Ok (Some o),
       if touch then mkRoundRobin (rr_outbounds s) (rr_sortedOutbounds s) (rr_maxAcceptableIndex s)
                       (set_net net (next_turn net s) (rr_idx s)) (rr_delayAcceptableRatio s) else s).
Proof.
  intros Hok. pose proof (turns_length net s Hok) as Hl. destruct Hok as [Hs Hne Hm Hi].
  specialize (Hm net). specialize (Hi net). unfold next_turn. rewrite Hl.
  set (len := (get_net net (rr_maxAcceptableIndex s) + 1)%Z) in *. rewrite Z2Nat.id by lia.
  pose proof (Z.mod_pos_bound (get_net net (rr_idx s) + 1) len ltac:(lia)) as Hb.
  set (id := ((get_net net (rr_idx s) + 1) mod len)%Z) in *.
  destruct (lookup_lt_is_Some_2 (turns net s) (Z.to_nat id)) as [o Ho]; [lia|].
  exists o. split; [done|]. intros touch. unfold RoundRobin_Select. fold len.
  destruct (Z.eqb_spec len 0); [lia|]. rewrite Z.rem_mod_nonneg by lia. fold id.
  unfold at_index. unfold turns in Ho. apply lookup_take_Some in Ho as [-> _]. done.
Qed.

Lemma RoundRobin_Select_ok net touch s : rr_ok s -> rr_ok (snd (RoundRobin_Select net touch s)).
Proof.
  intros Hok. destruct (RoundRobin_Select_turn net s Hok) as (o & _ & H). rewrite H. destruct touch; [|done].
  pose proof (turns_length net s Hok) as Hl. destruct Hok as [Hs Hne Hm Hi].
  split; simpl; [done..|]. intros net'. rewrite get_set_net. case_bool_decide; [|done].
  unfold next_turn. specialize (Hm net). apply Z.mod_pos_bound. lia.
Qed.

(** A number of choices in a row. *)
Fixpoint choices (n : nat) (net : string) s : list (result (option Outbound)) :=
  match n with
  | 0%nat => []
  | S n => let '(r, s) := RoundRobin_Select net true s in r :: choices n net s
  end.

Lemma choices_turns net n : forall s, rr_ok s ->
  choices n net s = map (fun k => Ok (turns net s !!
    Z.to_nat ((get_net net (rr_idx s) + 1 + Z.of_nat k) mod Z.of_nat (length (turns net s))))) (seq 0 n).
Proof.
  induction n as [|n IH]; intros s Hok; [done|].
  destruct (RoundRobin_Select_turn net s Hok) as (o & Ho & H).
  pose proof (RoundRobin_Select_ok net true s Hok) as Hok'. specialize (H true). cbn [choices].
  destruct (RoundRobin_Select net true s) as [r s']. injection H as -> E. simpl in Hok'.
  assert (turns net s' = turns net s) as Ht by by rewrite E.
  assert (get_net net (rr_idx s') = next_turn net s) as Hi.
  { rewrite E. simpl. rewrite get_set_net. by rewrite bool_decide_eq_true_2. }
  cbn [seq map]. rewrite Z.add_0_r. unfold next_turn in Ho. rewrite Ho. f_equal.
  rewrite (IH s' Hok'), Ht, Hi, <- seq_shift, map_map. apply map_ext. intros k. do 3 f_equal.
  unfold next_turn. rewrite <- Z.add_assoc, Z.add_mod_idemp_l.
  - f_equal. lia.
  - intros Hz. assert (turns net s = []) as Hn by (apply length_zero_iff_nil; lia). by rewrite Hn in Ho.
Qed.

(** Going once around a list from any place. *)
Lemma rotation {A} (l : list A) (r : nat) :
  (r < length l)%nat ->
  map (fun k => l !! Z.to_nat ((Z.of_nat r + Z.of_nat k) mod Z.of_nat (length l))) (seq 0 (length l)) =
  map Some (drop r l ++ take r l).
Proof.
  intros Hr. apply list_eq. intros k. rewrite !list_lookup_fmap.
  destruct (decide (k < length l)%nat) as [Hk|Hk].
  - rewrite lookup_seq_lt by done. simpl.
    destruct (decide (r + k < length l)%nat) as [H|H].
    + rewrite Z.mod_small by lia. rewrite lookup_app_l by (rewrite length_drop; lia). rewrite lookup_drop.
      replace (Z.to_nat (Z.of_nat r + Z.of_nat k)) with (r + k)%nat by lia.
      destruct (lookup_lt_is_Some_2 l (r + k)) as [x Hx]; [done|]. by rewrite Hx.
    + replace ((Z.of_nat r + Z.of_nat k) mod Z.of_nat (length l))%Z with (Z.of_nat (r + k - length l)).
      2: { apply Z.mod_unique_pos with 1%Z; lia. }
      rewrite Nat2Z.id, lookup_app_r by (rewrite length_drop; lia). rewrite length_drop.
      replace (k - (length l - r))%nat with (r + k - length l)%nat by lia. rewrite lookup_take_lt by lia.
      destruct (lookup_lt_is_Some_2 l (r + k - length l)) as [x Hx]; [lia|]. by rewrite Hx.
  - rewrite !lookup_ge_None_2; [done|rewrite length_app, length_drop, length_take; lia|rewrite length_seq; lia].
Qed.

(** One round: each of the outbounds that take turns, once. *)
Lemma round_permutation net s :
  rr_ok s -> exists l, l ≡ₚ turns net s /\ choices (length (turns net s)) net s = map (fun o => Ok (Some o)) l.
Proof.
  intros Hok. pose proof (turns_length net s Hok) as Hl. rewrite choices_turns by done.
  pose proof (ok_max _ Hok net) as Hm. pose proof (ok_idx _ Hok net) as Hi.
  set (len := length (turns net s)) in *.
  pose proof (Z.mod_pos_bound (get_net net (rr_idx s) + 1) (Z.of_nat len) ltac:(lia)) as Hb.
  set (r := Z.to_nat ((get_net net (rr_idx s) + 1) mod Z.of_nat len)).
  exists (drop r (turns net s) ++ take r (turns net s)). split.
  { rewrite Permutation_app_comm. by rewrite take_drop. }
  pose proof (rotation (turns net s) r) as H. fold len in H. specialize (H ltac:(lia)).
  rewrite <- (map_map Some Ok), <- H, map_map. apply map_ext. intros k. do 3 f_equal.
  unfold r. rewrite Z2Nat.id by lia. by rewrite Z.add_mod_idemp_l by lia.
Qed.

(** The index [getAcceptableIndex] computes for a network that has outbounds. *)
Definition acceptable_index history ratio (outs : list Outbound) : nat :=
  match outs with
  | [] => 0%nat
  | o :: _ => last_acceptable history (acceptable_delay ratio (delay_of history o)) outs
  end.
Lemma getAcceptableIndex_ok history ratio p :
  (forall net, get_net net p <> []) ->
  getAcceptableIndex p history ratio = Ok (map_net (acceptable_index history ratio) p).
Proof.
  intros H. pose proof (H NetworkTCP) as Ht. pose proof (H NetworkUDP) as Hu. unfold get_net in Ht, Hu. simpl in Ht, Hu.
  unfold getAcceptableIndex, result_net, map_net. simpl. destruct (on_tcp p), (on_udp p); done.
Qed.

Lemma RoundRobin_Update_Ok history s :
  rr_ok s ->
  exists changed, RoundRobin_Update history s = Ok (changed, mkRoundRobin (rr_outbounds s)
    (map_net (sort_by_delay history) (rr_outbounds s))
    (map_net (fun l => Z.of_nat (acceptable_index history (rr_delayAcceptableRatio s) (sort_by_delay history l))) (rr_outbounds s))
    (rr_idx s) (rr_delayAcceptableRatio s)).
Proof.
  intros Hok. unfold RoundRobin_Update, sortOutboundsByDelay. rewrite getAcceptableIndex_ok.
  - eexists. reflexivity.
  - intros net Hn. apply (ok_outbounds s Hok net). rewrite get_map_net in Hn.
    apply Permutation_nil_r. rewrite <- Hn. symmetry. apply sort_Permutation.
Qed.

Lemma acceptable_index_lt history ratio l : l <> [] -> (acceptable_index history ratio (sort_by_delay history l) < length l)%nat.
Proof.
  intros Hl. pose proof (Permutation_length (sort_Permutation history l)) as Hlen.
  unfold acceptable_index. destruct (sort_by_delay history l) as [|o r]; [by destruct l|]. rewrite <- Hlen.
  destruct (last_acceptable_lt history (acceptable_delay ratio (delay_of history o)) (o :: r)) as [H|H]; [done|].
  rewrite H. simpl. lia.
Qed.

Lemma RoundRobin_Update_ok history s changed s' : rr_ok s -> RoundRobin_Update history s = Ok (changed, s') -> rr_ok s'.
Proof.
  intros Hok H. destruct (RoundRobin_Update_Ok history s Hok) as [c E]. rewrite E in H. injection H as _ <-.
  destruct Hok as [Hs Hne Hm Hi]. split; simpl; intros net; [..|by apply Hi].
  - rewrite get_map_net. apply sort_Permutation.
  - apply Hne.
  - rewrite get_map_net. pose proof (acceptable_index_lt history (rr_delayAcceptableRatio s) _ (Hne net)). lia.
Qed.

(** The states of a strategy that has outbounds. *)
Inductive rr_reachable : RoundRobin -> Prop :=
  | rr_new networks outbounds ratio : outbounds <> [] -> rr_reachable (NewRoundRobin networks outbounds ratio)
  | rr_update history s changed s' :
      rr_reachable s -> RoundRobin_Update history s = Ok (changed, s') -> rr_reachable s'
  | rr_select net touch s : rr_reachable s -> rr_reachable (snd (RoundRobin_Select net touch s)).
Lemma reachable_rr_ok s : rr_reachable s -> rr_ok s.
Proof. induction 1; eauto using NewRoundRobin_ok, RoundRobin_Update_ok, RoundRobin_Select_ok. Qed.

(** after every update of a round robin that has outbounds, which never panics, a round of choices is
    exactly the outbounds of the network whose delay is acceptable, given the least delay, each once; when
    not even the fastest one is acceptable (the ratio is below 1, or the limit does not fit 16 bits) every
    choice is the fastest. *)
Theorem RoundRobin_round history s :
  rr_reachable s ->
  exists changed s', RoundRobin_Update history s = Ok (changed, s') /\
  forall net, exists best l,
    let outs := get_net net (rr_outbounds s) in
    let max := acceptable_delay (rr_delayAcceptableRatio s) (delay_of history best) in
    best ∈ outs /\ (forall o, o ∈ outs -> (delay_of history best <= delay_of history o)%N) /\
    ((delay_of history best <= max)%N -> l ≡ₚ List.filter (fun o => delay_of history o <=? max)%N outs) /\
    ((max < delay_of history best)%N -> l = [best]) /\
    choices (length l) net s' = map (fun o => Ok (Some o)) l.
Proof.
  intros Hok%reachable_rr_ok. destruct (RoundRobin_Update_Ok history s Hok) as [changed E].
  eexists changed, _. split; [exact E|]. intros net. pose proof (RoundRobin_Update_ok _ _ _ _ Hok E) as Hok'.
  set (s' := mkRoundRobin _ _ _ _ _) in *. destruct (round_permutation net s' Hok') as (l & Hl & Hc).
  pose proof (ok_outbounds s Hok net) as Hne. assert (turns net s' = take (S (acceptable_index history (rr_delayAcceptableRatio s)
    (sort_by_delay history (get_net net (rr_outbounds s))))) (sort_by_delay history (get_net net (rr_outbounds s)))) as Ht.
  { unfold turns. unfold s' at 1 2. simpl. rewrite !get_map_net. f_equal. lia. }
  pose proof (sort_Permutation history (get_net net (rr_outbounds s))) as Hp.
  pose proof (sort_sorted history (get_net net (rr_outbounds s))) as Hs.
  rewrite Ht in Hl, Hc. clear - Hne Hp Hs Hl Hc. set (outs := get_net net (rr_outbounds s)) in *.
  destruct (sort_by_delay history outs) as [|best rest]; [by apply Permutation_nil_l in Hp|].
  exists best, l. assert (length l = length (take (S (acceptable_index history (rr_delayAcceptableRatio s) (best :: rest))) (best :: rest)))
    as Hlen by by rewrite Hl.
  rewrite <- Hlen in Hc. split; [rewrite <- Hp; apply list_elem_of_here|].
  split; [|split; [|split; [|exact Hc]]].
  - intros o Ho. rewrite <- Hp in Ho. apply elem_of_cons in Ho as [->|Ho]; [lia|]. by apply (sorted_head _ _ _ Hs).
  - intros Hmax. rewrite Hl. unfold acceptable_index. rewrite <- (filter_Permutation _ _ _ Hp).
    destruct (last_acceptable_sorted history (acceptable_delay (rr_delayAcceptableRatio s) (delay_of history best)) (best :: rest) Hs)
      as [_ ->]; [|done]. by intros o [= <-].
  - intros Hmax. unfold acceptable_index in Hl. rewrite last_acceptable_none in Hl.
    + simpl in Hl. by apply Permutation_singleton_r in Hl.
    + constructor; [done|]. apply Forall_forall. intros o Ho. pose proof (sorted_head _ _ _ Hs o Ho). lia.
Qed.
End RoundRobin.

(** ** Lowest delay *)

(** Delays are of 16 bits. *)
Definition delays16 (history : histories) : Prop :=
  forall tag h, history !! tag = Some (Some h) -> (h_Delay h <= TimeoutDelay)%N.
Lemma delay16 history o : delays16 history -> (delay_of history o <= TimeoutDelay)%N.
Proof.
  intros H. unfold delay_of, getTagDelay. destruct (history !! ob_Tag o) as [[h|]|] eqn:E; [|apply N.le_refl..].
  specialize (H _ _ E). unfold getModifiedDelay, TimeoutDelay in *.
  destruct (N.eqb_spec (h_Delay h) 0); [by destruct (h_IsFromCache h)|].
  destruct (h_IsFromCache h); simpl; [|lia]. destruct (N.ltb_spec (h_Delay h) 20000); lia.
Qed.

(** The outbound found is the last one of the least delay. *)
Lemma min_delay_spec history l :
  delays16 history -> l <> [] ->
  exists l1 o l2, l = l1 ++ o :: l2 /\ min_delay history l = (Some o, delay_of history o) /\
    (forall x, x ∈ l1 -> (delay_of history o <= delay_of history x)%N) /\
    (forall x, x ∈ l2 -> (delay_of history o < delay_of history x)%N).
Proof.
  intros H16. induction l as [|x l IH] using rev_ind; [done|]. intros _.
  unfold min_delay in *. rewrite foldl_app. cbn [foldl].
  destruct l as [|y l].
  - exists [], x, []. simpl. unfold min_step. simpl. pose proof (delay16 history x H16).
    destruct (N.leb_spec (delay_of history x) TimeoutDelay); [|lia].
    by split; [|split; [|split; intros ? ?%elem_of_nil]].
  - destruct IH as (l1 & o & l2 & E & Hm & H1 & H2); [done|]. rewrite Hm. unfold min_step. simpl.
    destruct (N.leb_spec (delay_of history x) (delay_of history o)) as [H|H].
    + exists (y :: l), x, []. split; [done|split; [done|split]]; [|intros ? ?%elem_of_nil; done].
      intros z Hz. rewrite E in Hz. apply elem_of_app in Hz as [Hz|[->|Hz]%elem_of_cons].
      * specialize (H1 z Hz). lia.
      * done.
      * specialize (H2 z Hz). lia.
    + exists l1, o, (l2 ++ [x]). split; [by rewrite app_comm_cons, E, <- app_assoc|split; [done|split; [done|]]].
      intros z [Hz| ->%list_elem_of_singleton]%elem_of_app; [by apply H2|done].
Qed.

(** The states of a strategy that has outbounds. *)
Inductive ld_reachable : LowestDelay -> Prop :=
  | ld_new networks outbounds s : outbounds <> [] -> NewLowestDelay networks outbounds = Ok s -> ld_reachable s
  | ld_update history s changed s' : ld_reachable s -> LowestDelay_Update history s = Ok (changed, s') -> ld_reachable s'.
Lemma ld_outbounds_nonempty s net : ld_reachable s -> get_net net (ld_outbounds s) <> [].
Proof.
  induction 1 as [networks outbounds s Hne H|history s changed s' _ IH H].
  - unfold NewLowestDelay in H. destruct (result_net _) in H; [|done..]. injection H as <-. by apply convert_nonempty.
  - unfold LowestDelay_Update in H. destruct (on_tcp _) in H; [|done]. destruct (on_udp _) in H; [|done]. by injection H as _ <-.
Qed.

(** an update of the lowest-delay strategy never panics, and then it chooses, for each network, the last
    one of the outbounds whose delay is the least; it reports a change exactly when the tag of the choice
    for one of the networks is another one than before. *)
Theorem LowestDelay_least history s :
  ld_reachable s -> delays16 history ->
  exists changed s', LowestDelay_Update history s = Ok (changed, s') /\
    (forall net, exists l1 l2, get_net net (ld_outbounds s) = l1 ++ LowestDelay_Select net s' :: l2 /\
      (forall o, o ∈ l1 -> (delay_of history (LowestDelay_Select net s') <= delay_of history o)%N) /\
      (forall o, o ∈ l2 -> (delay_of history (LowestDelay_Select net s') < delay_of history o)%N)) /\
    (changed = false <-> forall net, ob_Tag (LowestDelay_Select net s') = ob_Tag (LowestDelay_Select net s)).
Proof.
  intros Hr H16. pose proof (fun net => min_delay_spec history _ H16 (ld_outbounds_nonempty s net Hr)) as H.
  destruct (H NetworkTCP) as (t1 & t & t2 & Et & Mt & Ht), (H NetworkUDP) as (u1 & u & u2 & Eu & Mu & Hu).
  unfold get_net in Et, Eu, Mt, Mu. simpl in Et, Eu, Mt, Mu.
  unfold LowestDelay_Update, getMinDelay, map_net. simpl. rewrite Mt, Mu. simpl. eexists _, _. split; [reflexivity|].
  unfold LowestDelay_Select. simpl. split.
  - intros net. unfold get_net. simpl. case_bool_decide; eauto.
  - rewrite orb_false_iff, !negb_false_iff, !bool_decide_eq_true. split.
    + intros [E1 E2] net. unfold get_net. simpl. by case_bool_decide.
    + intros E. split; [apply (E NetworkTCP)|apply (E NetworkUDP)].
Qed.

(** ** The hashing strategies *)

Section Hash.
Context {X : Externals} {FC : FloatConversion}.
Variable EffectiveTLDPlusOne : string -> option string.
Variable hash : string -> N.

(** The outbounds of a network are counted by a 32-bit number, and there are some. *)
Definition countable (outs : list Outbound) : Prop := outs <> [] /\ (Z.of_nat (length outs) < 2 ^ 31)%Z.

Lemma at_jump key outs : countable outs -> exists o, at_index outs (jumpHash key (length outs)) = Ok o /\ o ∈ outs.
Proof.
  intros [Hne H]. assert (jumpHash key (length outs) < length outs)%nat as Hlt.
  { apply jumpHash_lt; [|lia]. destruct outs; [done|]. simpl. lia. }
  apply lookup_lt_is_Some_2 in Hlt as [o Ho]. exists o. unfold at_index. rewrite Ho.
  split; [done|]. by eapply list_elem_of_lookup_2.
Qed.

(** ** Consistent hashing *)

Lemma hash_retry_ok s net outs n : countable outs -> forall key,
  (exists o, hash_retry s net outs n key = Ok (inl o) /\ o ∈ outs /\ ConsistentHashing_Alive s net o = true /\ n <> 0%nat) \/
  exists key', hash_retry s net outs n key = Ok (inr key').
Proof.
  intros Hc. induction n as [|n IH]; intros key; [by right; eexists|]. cbn [hash_retry].
  destruct (at_jump key outs Hc) as (o & -> & Ho). cbn [mbind result_bind].
  destruct (ConsistentHashing_Alive s net o) eqn:E; [left; by exists o|].
  destruct (IH ((key + 1) mod 2 ^ 64)%N) as [(x & ? & ? & ? & _)|H]; [left; by exists x|by right].
Qed.

(** What an outbound chosen by consistent hashing is. *)
Definition consistent_choice s net (outs : list Outbound) (o : Outbound) : Prop :=
  o ∈ outs /\
  ((exists x, x ∈ outs /\ ConsistentHashing_Alive s net x = true) -> ConsistentHashing_Alive s net o = true) /\
  (ch_maxRetry s = 0%nat -> forall x, List.find (ConsistentHashing_Alive s net) outs = Some x -> o = x).

Lemma find_alive_choice s net outs key :
  countable outs ->
  exists o, match List.find (ConsistentHashing_Alive s net) outs with
    | Some proxy => Ok proxy | None => at_index outs (jumpHash key (length outs)) end = Ok o /\ consistent_choice s net outs o.
Proof.
  intros Hc. destruct (List.find _ outs) as [x|] eqn:E.
  - exists x. split; [done|]. pose proof (find_some _ _ E) as [Hx Ha]. rewrite <- list_elem_of_In in Hx.
    split; [done|split; [done|]]. intros _ x'. rewrite E. by intros [= ->].
  - destruct (at_jump key outs Hc) as (o & -> & Ho). exists o. split; [done|]. split; [done|split].
    + intros (x & Hx & Ha). apply list_elem_of_In in Hx. by rewrite (find_none _ _ E x Hx) in Ha.
    + intros _ x. by rewrite E.
Qed.

Lemma ConsistentHashing_choice metadata net s :
  countable (get_net net (ch_outbounds s)) ->
  exists o, consistent_choice s net (get_net net (ch_outbounds s)) o /\
    forall metadata', getKey EffectiveTLDPlusOne metadata' = getKey EffectiveTLDPlusOne metadata ->
      ConsistentHashing_Select EffectiveTLDPlusOne hash metadata' net s = Ok o.
Proof.
  intros Hc. unfold ConsistentHashing_Select.
  destruct (hash_retry_ok s net _ (ch_maxRetry s) Hc (hash (getKey EffectiveTLDPlusOne metadata)))
    as [(o & E & Ho & Ha & Hn)|(key & E)].
  - exists o. split; [by split|]. intros metadata' Hk. by rewrite Hk, E.
  - destruct (find_alive_choice s net _ key Hc) as (o & Eo & Hch). exists o. split; [done|].
    intros metadata' Hk. rewrite Hk, E. exact Eo.
Qed.

(** consistent hashing never panics, and chooses one of the outbounds of the network; the outbound it
    chooses is alive when one of them is; without retries it is the first alive one; and it depends only
    on the key of the metadata. *)
Theorem ConsistentHashing_Select_alive metadata net s :
  countable (get_net net (ch_outbounds s)) ->
  exists o, consistent_choice s net (get_net net (ch_outbounds s)) o /\
    forall metadata', getKey EffectiveTLDPlusOne metadata' = getKey EffectiveTLDPlusOne metadata ->
      ConsistentHashing_Select EffectiveTLDPlusOne hash metadata' net s = Ok o.
Proof. exact (ConsistentHashing_choice metadata net s). Qed.

(** ** Sticky sessions *)

Context {SC : SessionCache}.

Lemma random_index_lt key nanos outs : countable outs -> (random_index key nanos outs < length outs)%nat.
Proof.
  intros [Hne H]. apply jumpHash_lt; [|lia]. destruct outs; [done|]. simpl. lia.
Qed.
Lemma at_index_lt (outs : list Outbound) i : (i < length outs)%nat -> exists o, at_index outs i = Ok o /\ outs !! i = Some o.
Proof. intros [o Ho]%lookup_lt_is_Some_2. exists o. unfold at_index. by rewrite Ho. Qed.

(** The loop ends at an outbound, which is alive if it says so; at the first one if that is alive or if
    there are no retries. *)
Lemma sticky_loop_ok s net outs key nanos n : countable outs -> forall i idx, (idx < length outs)%nat ->
  exists j a o, sticky_loop s net outs key nanos n i idx = Ok (j, a) /\ outs !! j = Some o /\
    (a = true -> StickySession_Alive s net o = true) /\
    (forall x, outs !! idx = Some x -> n = 0%nat \/ StickySession_Alive s net x = true -> j = idx).
Proof.
  intros Hc. induction n as [|n IH]; intros i idx Hi; destruct (at_index_lt outs idx Hi) as (o & Eo & Ho); cbn [sticky_loop].
  - by exists idx, false, o.
  - rewrite Eo. cbn [mbind result_bind]. destruct (StickySession_Alive s net o) eqn:Ea; [by exists idx, true, o|].
    destruct (IH (S i) _ (random_index_lt key (nanos i) outs Hc)) as (j & a & x & E & Hx & Ha & _).
    exists j, a, x. split; [done|split; [done|split; [done|]]]. intros y. rewrite Ho. intros [= ->] [?|?]; congruence.
Qed.
(** The cache while no entry expires: what is added is found, and a hit leaves the entry. *)
Class SessionLaws : Prop := {
  get_add key i c : fst (sessions_Get key (sessions_Add key i c)) = Some i;
  get_hit key i c : fst (sessions_Get key c) = Some i -> fst (sessions_Get key (snd (sessions_Get key c))) = Some i
}.
Context {SL : SessionLaws}.

Abbreviation session_key metadata := (hash (getKeyWithSrcAndDst EffectiveTLDPlusOne metadata)).
Abbreviation select := (StickySession_Select EffectiveTLDPlusOne hash).
(** The index that a session has in the cache. *)
Abbreviation cached metadata s := (fst (sessions_Get (session_key metadata) (ss_lruCache s))).
(** Whether the strategy keeps to an outbound it has chosen. *)
Definition keeps s net o : Prop := (ss_maxRetry s <= 1)%nat \/ StickySession_Alive s net o = true.

(** A session in the cache whose outbound is kept stays with it, and stays in the cache. *)
Lemma select_cached metadata net nanos s i o :
  countable (get_net net (ss_outbounds s)) -> cached metadata s = Some i -> get_net net (ss_outbounds s) !! i = Some o ->
  keeps s net o ->
  exists s', select metadata net nanos s = (Ok o, s') /\ cached metadata s' = Some i /\
    ss_outbounds s' = ss_outbounds s /\ (forall x, keeps s' net x <-> keeps s net x).
Proof.
  intros Hc Hi Ho Hk. unfold StickySession_Select. pose proof (get_hit (session_key metadata) i (ss_lruCache s) Hi) as Hhit.
  destruct (sessions_Get (session_key metadata) (ss_lruCache s)) as [found cache] eqn:Eg. simpl in Hi, Hhit. subst found.
  assert (i < length (get_net net (ss_outbounds s)))%nat as Hlt by by eapply lookup_lt_Some.
  destruct (Nat.ltb_spec i (length (get_net net (ss_outbounds s)))) as [_|?]; [|lia]. cbn [default].
  destruct (sticky_loop_ok (set_sessions cache s) net _ (session_key metadata) nanos (ss_maxRetry s - 1) Hc 1 i Hlt)
    as (j & a & x & E & Hx & _ & Hj).
  assert (j = i) as ->.
  { apply (Hj o Ho). destruct Hk as [Hk|Hk]; [left; lia|right; exact Hk]. }
  simpl. rewrite E. rewrite Ho in Hx. injection Hx as <-. unfold at_index. rewrite Ho. rewrite Nat.eqb_refl. simpl.
  destruct a; eexists; (split; [reflexivity|]); simpl; (split; [|done]); [done|apply get_add].
Qed.

(** A choice is one of the outbounds, and in the cache afterwards. *)
Lemma select_caches metadata net nanos s :
  countable (get_net net (ss_outbounds s)) ->
  (forall i, cached metadata s = Some i -> (i < length (get_net net (ss_outbounds s)))%nat) ->
  exists o i s', select metadata net nanos s = (Ok o, s') /\ get_net net (ss_outbounds s) !! i = Some o /\
    cached metadata s' = Some i /\
    ss_outbounds s' = ss_outbounds s /\ (forall x, keeps s' net x <-> keeps s net x).
Proof.
  intros Hc Hr. unfold StickySession_Select.
  pose proof (fun i => get_hit (session_key metadata) i (ss_lruCache s)) as Hhit.
  destruct (sessions_Get (session_key metadata) (ss_lruCache s)) as [found cache] eqn:Eg. simpl in Hr, Hhit.
  set (idx := if match found with Some i => (i <? length (get_net net (ss_outbounds s)))%nat | None => false end
    then default 0%nat found else random_index (session_key metadata) (nanos 0%nat) (get_net net (ss_outbounds s))).
  assert (idx < length (get_net net (ss_outbounds s)))%nat as Hlt.
  { unfold idx. destruct found as [i|]; [|by apply random_index_lt].
    destruct (Nat.ltb_spec i (length (get_net net (ss_outbounds s)))); [done|by apply random_index_lt]. }
  destruct (sticky_loop_ok (set_sessions cache s) net _ (session_key metadata) nanos (ss_maxRetry s - 1) Hc 1 idx Hlt)
    as (j & a & x & E & Hx & _ & _).
  exists x, j. cbn [ss_outbounds ss_maxRetry set_sessions]. rewrite E. unfold at_index. rewrite Hx.
  destruct a; eexists; (split; [reflexivity|]); (split; [done|]).
  - destruct found as [i|]; [|split; [apply get_add|done]].
    destruct (Nat.eqb_spec j idx) as [->|Hne]; [|split; [apply get_add|done]].
    split; [|done]. unfold idx. specialize (Hr i eq_refl).
    destruct (Nat.ltb_spec i (length (get_net net (ss_outbounds s)))); [|lia]. simpl. by apply Hhit.
  - split; [apply get_add|done].
Qed.

(** Connections in a row. *)
Fixpoint selects net (l : list (InboundContext * (nat -> N))) s : list (result Outbound) :=
  match l with
  | [] => []
  | (metadata, nanos) :: l => let '(r, s) := select metadata net nanos s in r :: selects net l s
  end.
Abbreviation same_session metadata metadata' :=
  (getKeyWithSrcAndDst EffectiveTLDPlusOne metadata' = getKeyWithSrcAndDst EffectiveTLDPlusOne metadata).

Lemma selects_cached metadata net i o l : forall s,
  countable (get_net net (ss_outbounds s)) -> cached metadata s = Some i -> get_net net (ss_outbounds s) !! i = Some o ->
  keeps s net o -> Forall (fun p => same_session metadata (fst p)) l ->
  Forall (fun r => r = Ok o) (selects net l s).
Proof.
  induction l as [|[metadata' nanos] l IH]; intros s Hc Hi Ho Hk Hl; [constructor|].
  apply Forall_cons in Hl as [Hkey Hl]. simpl in Hkey. cbn [selects].
  destruct (select_cached metadata' net nanos s i o) as (s' & -> & Hi' & Hout & Hk'); [done|by rewrite Hkey|done|done|].
  constructor; [done|]. rewrite Hkey in Hi'. apply IH; rewrite ?Hout; try done. by apply Hk'.
Qed.

(** Whatever the cache had, a choice is one of the outbounds. *)
Lemma select_member metadata net nanos s :
  countable (get_net net (ss_outbounds s)) ->
  exists o s', select metadata net nanos s = (Ok o, s') /\ o ∈ get_net net (ss_outbounds s) /\ ss_outbounds s' = ss_outbounds s.
Proof.
  intros Hc. unfold StickySession_Select.
  destruct (sessions_Get (session_key metadata) (ss_lruCache s)) as [found cache].
  set (idx := if match found with Some i => (i <? length (get_net net (ss_outbounds s)))%nat | None => false end
    then default 0%nat found else random_index (session_key metadata) (nanos 0%nat) (get_net net (ss_outbounds s))).
  assert (idx < length (get_net net (ss_outbounds s)))%nat as Hlt.
  { unfold idx. destruct found as [i|]; [|by apply random_index_lt].
    destruct (Nat.ltb_spec i (length (get_net net (ss_outbounds s)))); [done|by apply random_index_lt]. }
  destruct (sticky_loop_ok (set_sessions cache s) net _ (session_key metadata) nanos (ss_maxRetry s - 1) Hc 1 idx Hlt)
    as (j & a & x & E & Hx & _ & _).
  exists x. cbn [ss_outbounds ss_maxRetry set_sessions]. rewrite E. unfold at_index. rewrite Hx.
  apply list_elem_of_lookup_2 in Hx. destruct a; eexists; (split; [reflexivity|]); (split; [done|]); [|done].
  by destruct found; [destruct (negb _)|].
Qed.

(** a sticky session sticks: a choice never panics and is one of the outbounds of the network, and, as
    long as that outbound is alive (or always, when retries are not configured), all the later connections
    with the same source and destination get it too, until the cache drops the session.  The index the
    cache had for the session must be one of the network's. *)
Theorem StickySession_sticks metadata net nanos s :
  countable (get_net net (ss_outbounds s)) ->
  (forall i, cached metadata s = Some i -> (i < length (get_net net (ss_outbounds s)))%nat) ->
  exists o s', select metadata net nanos s = (Ok o, s') /\ o ∈ get_net net (ss_outbounds s) /\
    (keeps s net o -> forall later, Forall (fun p => same_session metadata (fst p)) later ->
      Forall (fun r => r = Ok o) (selects net later s')).
Proof.
  intros Hc Hr. destruct (select_caches metadata net nanos s Hc Hr) as (o & i & s' & E & Ho & Hi & Hout & Hk).
  exists o, s'. split; [done|split; [by eapply list_elem_of_lookup_2|]]. intros Hkeep later Hl.
  apply (selects_cached metadata net i o); rewrite ?Hout; try done. by apply Hk.
Qed.
End Hash.
