(* ===== verification/Groups.v ===== *)
(** * Groups: the outbound groups, selector and load balancer

    protocol/group/selector.go ([Selector]) and protocol/group/balancer/balancer.go ([Balancer])
    over the strategies of Balancer.v and the connections of interrupt groups.

    An operation returns its result, the new state, and what it asks of the monitor and of the
    metadata, in order.  Logging is left out; the worker of the balancer is one step per signal. *)

From S2P Require Import Prelude GoStd NetIP Metadata Adapter Float64 Balancer.
From stdpp Require Import gmap.
Open Scope string_scope.
Open Scope list_scope.

#[export] Instance Outbound_eq_dec : EqDecision Outbound.
Proof. solve_decision. Defined.

(** What a group asks: [monitor.TestNow], [monitor.SignalChange], [monitor.InvalidateTest],
    [metadata.SetRealOutbound], each with a tag. *)
Inductive Effect : Type :=
  | TestNow (tag : string)
  | SignalChange (tag : string)
  | InvalidateTest (tag : string)
  | SetRealOutbound (tag : string).

Definition nil_dereference : string := "runtime error: invalid memory address or nil pointer dereference".

(** The outbounds of a list of tags; [i] counts the tags. *)
Fixpoint lookup_outbounds (om : OutboundManager) (tags : list string) (i : nat) : result (list Outbound) :=
  match tags with
  | [] => Ok []
  | tag :: tags =>
      match om_Outbound om tag with
      | None => Err (ENew ("outbound " +:+ format_uint (N.of_nat i) +:+ " not found: " +:+ tag))
      | Some detour => let! rest := lookup_outbounds om tags (S i) in Ok (detour :: rest)
      end
  end.

(** The chosen outbounds that are kept in the cache file, by group. *)
Class SelectedStore (SS : Type) : Type := {
  LoadSelected : string -> SS -> string;
  StoreSelected : string -> string -> SS -> option error * SS
}.

(** Who handles a connection: the outbound itself, or the connection manager. *)
Inductive Handler : Type :=
  | ByOutbound (o : Outbound)
  | ByConnectionManager (o : option Outbound).

(** ** Selector *)

Record SelectorOutboundOptions : Type := mkSelectorOptions {
  so_Outbounds : list string;
  so_Default : string;
  so_InterruptExistConnections : bool
}.

Record Selector : Type := mkSelector {
  sl_Tag : string;
  sl_tags : list string;
  sl_defaultTag : string;
  sl_outbounds : gmap string Outbound;
  sl_selected : option Outbound;
  sl_interruptGroup : Group;
  sl_interruptExternalConnections : bool
}.

Definition NewSelector (tag : string) (options : SelectorOutboundOptions) : result Selector :=
  let outbound := mkSelector tag (so_Outbounds options) (so_Default options) ∅ None NewGroup
    (so_InterruptExistConnections options) in
  if bool_decide (sl_tags outbound = []) then Err (ENew "missing tags") else Ok outbound.

Definition Selector_Network (s : Selector) : list string :=
  match sl_selected s with None => [NetworkTCP; NetworkUDP] | Some selected => ob_Network selected end.

Definition set_outbounds (m : gmap string Outbound) (s : Selector) : Selector :=
  mkSelector (sl_Tag s) (sl_tags s) (sl_defaultTag s) m (sl_selected s) (sl_interruptGroup s)
    (sl_interruptExternalConnections s).
Definition set_selected (o : option Outbound) (s : Selector) : Selector :=
  mkSelector (sl_Tag s) (sl_tags s) (sl_defaultTag s) (sl_outbounds s) o (sl_interruptGroup s)
    (sl_interruptExternalConnections s).
Definition set_group (g : Group) (s : Selector) : Selector :=
  mkSelector (sl_Tag s) (sl_tags s) (sl_defaultTag s) (sl_outbounds s) (sl_selected s) g
    (sl_interruptExternalConnections s).

(** The first loop of [Start], with the outbounds found before an error. *)
Fixpoint load_outbounds (om : OutboundManager) (tags : list string) (i : nat) (m : gmap string Outbound)
  : option error * gmap string Outbound :=
  match tags with
  | [] => (None, m)
  | tag :: tags =>
      match om_Outbound om tag with
      | None => (Some (ENew ("outbound " +:+ format_uint (N.of_nat i) +:+ " not found: " +:+ tag)), m)
      | Some detour => load_outbounds om tags (S i) (<[tag := detour]> m)
      end
  end.

Section Selector.
Context {SS : Type} {ST : SelectedStore SS}.
(** [detour.(adapter.OutboundGroup)]: what [Now] of a group says. *)
Variable group_Now : Outbound -> option string.

(** [cacheFile]: [None] when there is none in the context. *)
Definition Selector_Start (om : OutboundManager) (cacheFile : option SS) (s : Selector) : result unit * Selector :=
  let '(err, m) := load_outbounds om (sl_tags s) 0 (sl_outbounds s) in
  let s := set_outbounds m s in
  match err with
  | Some e => (Err e, s)
  | None =>
      let selected :=
        match cacheFile with
        | Some c => if str_empty (sl_Tag s) then "" else LoadSelected (sl_Tag s) c
        | None => ""
        end in
      match (if str_empty selected then None else sl_outbounds s !! selected) with
      | Some detour => (Ok tt, set_selected (Some detour) s)
      | None =>
          if negb (str_empty (sl_defaultTag s)) then
            match sl_outbounds s !! sl_defaultTag s with
            | Some detour => (Ok tt, set_selected (Some detour) s)
            | None => (Err (ENew ("default outbound not found: " +:+ sl_defaultTag s)), s)
            end
          else
            match sl_tags s with
            | [] => (Panic index_out_of_range, s)
            | tag :: _ => (Ok tt, set_selected (sl_outbounds s !! tag) s)
            end
      end
  end.

Definition Selector_Now (s : Selector) : result string :=
  match sl_selected s with
  | Some selected => Ok (ob_Tag selected)
  | None => match sl_tags s with [] => Panic index_out_of_range | tag :: _ => Ok tag end
  end.
Definition Selector_All (s : Selector) : list string := sl_tags s.

Definition RealTag (detour : Outbound) : string :=
  match group_Now detour with Some now => now | None => ob_Tag detour end.

Definition pingSelected (om : OutboundManager) (s : Selector) : list Effect :=
  match sl_selected s with
  | None => []
  | Some selected =>
      let realTag := RealTag selected in
      match om_Outbound om realTag with
      | Some r => match group_Now r with None => [TestNow realTag] | Some _ => [SignalChange (sl_Tag s)] end
      | None => []
      end
  end.
Definition Selector_PostStart (om : OutboundManager) (s : Selector) : list Effect := pingSelected om s.

(** [SelectOutbound]: the answer, the selector, the cache file; [pingSelected] is deferred. *)
Definition SelectOutbound (om : OutboundManager) (tag : string) (cacheFile : option SS) (s : Selector)
  : bool * Selector * option SS * list Effect :=
  let '(r, s, cacheFile) :=
    match sl_outbounds s !! tag with
    | None => (false, s, cacheFile)
    | Some detour =>
        let old := sl_selected s in
        let s := set_selected (Some detour) s in
        if bool_decide (old = Some detour) then (true, s, cacheFile)
        else
          let cacheFile :=
            match cacheFile with
            | Some c => if str_empty (sl_Tag s) then Some c else Some (snd (StoreSelected (sl_Tag s) tag c))
            | None => None
            end in
          (true, set_group (Group_Interrupt (sl_interruptExternalConnections s) (sl_interruptGroup s)) s, cacheFile)
    end in
  (r, s, cacheFile, pingSelected om s).

(** [DialContext] and [ListenPacket]: [dial] is what the outbound answers, a connection or an error;
    [external] is [IsExternalConnectionFromContext]. *)
Definition Selector_Dial (dial : Outbound -> result nat) (external : bool) (s : Selector) : result nat * Selector :=
  match sl_selected s with
  | None => (Panic nil_dereference, s)
  | Some selected =>
      match dial selected with
      | Ok conn => (Ok conn, set_group (Group_NewConn conn external (sl_interruptGroup s)) s)
      | r => (r, s)
      end
  end.

Definition Selector_NewConnectionEx (conn : nat) (s : Selector) : Handler * Selector :=
  let s := set_group (Group_NewConn conn true (sl_interruptGroup s)) s in
  match sl_selected s with
  | Some o => (if ob_ConnectionHandlerEx o then ByOutbound o else ByConnectionManager (Some o), s)
  | None => (ByConnectionManager None, s)
  end.
Definition Selector_NewPacketConnectionEx (conn : nat) (s : Selector) : Handler * Selector :=
  let s := set_group (Group_NewConn conn true (sl_interruptGroup s)) s in
  match sl_selected s with
  | Some o => (if ob_PacketConnectionHandlerEx o then ByOutbound o else ByConnectionManager (Some o), s)
  | None => (ByConnectionManager None, s)
  end.

(** The outbound that is asked for the direct route. *)
Definition Selector_NewDirectRouteConnection (network : string) (s : Selector) : result Outbound :=
  match sl_selected s with
  | None => Panic nil_dereference
  | Some selected =>
      if negb (supports network selected)
      then Err (ENew (network +:+ " is not supported by outbound: " +:+ ob_Tag selected))
      else if ob_DirectRouteOutbound selected then Ok selected
      else Panic "interface conversion: adapter.Outbound is not adapter.DirectRouteOutbound"
  end.
End Selector.

(** ** Load balancer *)

Record BalancerOutboundOptions : Type := mkBalancerOptions {
  bo_Outbounds : list string;
  bo_Strategy : string;
  bo_InterruptExistConnections : bool;
  bo_MaxRetry : nat;
  bo_DelayAcceptableRatio : f64
}.
Definition StrategyRoundRobin : string := "round-robin".
Definition StrategyConsistentHashing : string := "consistent-hashing".
Definition StrategyStickySessions : string := "sticky-sessions".
Definition StrategyLowestDelay : string := "lowest-delay".

Section Balancer.
Context {X : Externals} {FC : FloatConversion} {SC : SessionCache}.
Variable EffectiveTLDPlusOne : string -> option string.
Variable hash : string -> N.

(** The interface [Strategy]: one of the four. *)
Inductive Strategy : Type :=
  | ByRoundRobin (s : RoundRobin)
  | ByConsistentHashing (s : ConsistentHashing)
  | ByStickySession (s : StickySession)
  | ByLowestDelay (s : LowestDelay).

Definition UpdateOutboundsInfo (history : histories) (s : Strategy) : result (bool * Strategy) :=
  match s with
  | ByRoundRobin s => let! p := RoundRobin_Update history s in Ok (fst p, ByRoundRobin (snd p))
  | ByConsistentHashing s => let '(changed, s) := ConsistentHashing_Update history s in Ok (changed, ByConsistentHashing s)
  | ByStickySession s => let '(changed, s) := StickySession_Update history s in Ok (changed, ByStickySession s)
  | ByLowestDelay s => let! p := LowestDelay_Update history s in Ok (fst p, ByLowestDelay (snd p))
  end.
(** [Select(metadata, network, true)]; [nanos] are the clock readings. *)
Definition Select (metadata : InboundContext) (net : string) (nanos : nat -> N) (s : Strategy)
  : result (option Outbound) * Strategy :=
  match s with
  | ByRoundRobin s => let '(r, s) := RoundRobin_Select net true s in (r, ByRoundRobin s)
  | ByConsistentHashing s =>
      (let! o := ConsistentHashing_Select EffectiveTLDPlusOne hash metadata net s in Ok (Some o), ByConsistentHashing s)
  | ByStickySession s =>
      let '(r, s) := StickySession_Select EffectiveTLDPlusOne hash metadata net nanos s in
      (let! o := r in Ok (Some o), ByStickySession s)
  | ByLowestDelay s => (Ok (Some (LowestDelay_Select net s)), ByLowestDelay s)
  end.
Definition Strategy_Now (s : Strategy) : string :=
  match s with ByLowestDelay s => ob_Tag (on_tcp (ld_selectedOutbound s)) | _ => "" end.

Record Balancer : Type := mkBalancer {
  bl_Tag : string;
  bl_tags : list string;
  bl_options : BalancerOutboundOptions;
  bl_strategyFn : option Strategy;
  bl_interruptExternalConnections : bool;
  bl_interruptGroup : Group
}.
Definition NewLoadBalance (tag : string) (options : BalancerOutboundOptions) : result Balancer :=
  let outbound := mkBalancer tag (bo_Outbounds options) options None (bo_InterruptExistConnections options) NewGroup in
  if bool_decide (bl_tags outbound = []) then Err (ENew "missing tags") else Ok outbound.

Definition set_strategy (f : Strategy) (s : Balancer) : Balancer :=
  mkBalancer (bl_Tag s) (bl_tags s) (bl_options s) (Some f) (bl_interruptExternalConnections s) (bl_interruptGroup s).
Definition set_balancer_group (g : Group) (s : Balancer) : Balancer :=
  mkBalancer (bl_Tag s) (bl_tags s) (bl_options s) (bl_strategyFn s) (bl_interruptExternalConnections s) g.

(** [Start]; [networks] is what [Network] of the outbounds answers at that time, [sessions] is the new cache of sessions, with its lifetime. *)
Definition NewStrategy (networks : Outbound -> list string) (sessions : Sessions) (options : BalancerOutboundOptions) (outbounds : list Outbound) : result Strategy :=
  let strategy := bo_Strategy options in
  if bool_decide (strategy = StrategyRoundRobin)
  then Ok (ByRoundRobin (NewRoundRobin networks outbounds (bo_DelayAcceptableRatio options)))
  else if bool_decide (strategy = StrategyConsistentHashing)
  then Ok (ByConsistentHashing (NewConsistentHashing networks outbounds (bo_MaxRetry options) (bo_DelayAcceptableRatio options)))
  else if bool_decide (strategy = StrategyStickySessions)
  then Ok (ByStickySession (NewStickySession networks outbounds (bo_MaxRetry options) (bo_DelayAcceptableRatio options) sessions))
  else if bool_decide (strategy = StrategyLowestDelay)
  then let! s := NewLowestDelay networks outbounds in Ok (ByLowestDelay s)
  else Err (ENew ("unknown load balance strategy: " +:+ strategy)).
Definition Balancer_Start (networks : Outbound -> list string) (om : OutboundManager) (sessions : Sessions) (s : Balancer) : result unit * Balancer :=
  match (let! outbounds := lookup_outbounds om (bl_tags s) 0 in NewStrategy networks sessions (bl_options s) outbounds) with
  | Ok f => (Ok tt, set_strategy f s)
  | Err e => (Err e, s)
  | Panic msg => (Panic msg, s)
  end.

(** A turn of [worker]: a signal of the monitor, with the histories of the group. *)
Definition worker_step (history : histories) (s : Balancer) : result Balancer :=
  match bl_strategyFn s with
  | None => Panic nil_dereference
  | Some f =>
      let! p := UpdateOutboundsInfo history f in
      let s := set_strategy (snd p) s in
      Ok (if (fst p : bool) then set_balancer_group (Group_Interrupt (bl_interruptExternalConnections s) (bl_interruptGroup s)) s else s)
  end.

Definition Balancer_Now (s : Balancer) : string :=
  match bl_strategyFn s with None => "" | Some f => Strategy_Now f end.
Definition Balancer_All (s : Balancer) : list string := bl_tags s.

(** A choice of the balancer. *)
Definition Balancer_Select (metadata : InboundContext) (net : string) (nanos : nat -> N) (s : Balancer)
  : result (option Outbound) * Balancer :=
  match bl_strategyFn s with
  | None => (Panic nil_dereference, s)
  | Some f => let '(r, f) := Select metadata net nanos f in (r, set_strategy f s)
  end.

(** [DialContext], and [ListenPacket] with the network "udp"; the metadata of the context, or an empty one. *)
Definition Balancer_Dial (metadata : InboundContext) (net : string) (nanos : nat -> N) (dial : Outbound -> result nat)
  (external : bool) (s : Balancer) : result nat * Balancer * list Effect :=
  let '(r, s) := Balancer_Select metadata net nanos s in
  match r with
  | Ok None => (Err (ENew "missing supported outbound"), s, [])
  | Ok (Some outbound) =>
      match dial outbound with
      | Ok conn =>
          (Ok conn, set_balancer_group (Group_NewConn conn external (bl_interruptGroup s)) s, [SetRealOutbound (ob_Tag outbound)])
      | Err e => (Err e, s, [SetRealOutbound (ob_Tag outbound); InvalidateTest (ob_Tag outbound)])
      | Panic msg => (Panic msg, s, [SetRealOutbound (ob_Tag outbound)])
      end
  | Err e => (Err e, s, [])
  | Panic msg => (Panic msg, s, [])
  end.

Definition Balancer_NewConnectionEx (metadata : InboundContext) (nanos : nat -> N) (conn : nat) (s : Balancer)
  : result Handler * Balancer :=
  let '(r, s) := Balancer_Select metadata (md_Network metadata) nanos s in
  match r with
  | Ok selected =>
      let s := set_balancer_group (Group_NewConn conn true (bl_interruptGroup s)) s in
      match selected with
      | Some o => (Ok (if ob_ConnectionHandlerEx o then ByOutbound o else ByConnectionManager (Some o)), s)
      | None => (Ok (ByConnectionManager None), s)
      end
  | Err e => (Err e, s)
  | Panic msg => (Panic msg, s)
  end.
(** [None]: it returns without a handler. *)
Definition Balancer_NewPacketConnectionEx (metadata : InboundContext) (nanos : nat -> N) (conn : nat) (s : Balancer)
  : result (option Handler) * Balancer * list Effect :=
  let '(r, s) := Balancer_Select metadata (md_Network metadata) nanos s in
  match r with
  | Ok None => (Ok None, s, [])
  | Ok (Some o) =>
      (Ok (Some (if ob_PacketConnectionHandlerEx o then ByOutbound o else ByConnectionManager (Some o))),
       set_balancer_group (Group_NewConn conn true (bl_interruptGroup s)) s, [SetRealOutbound (ob_Tag o)])
  | Err e => (Err e, s, [])
  | Panic msg => (Panic msg, s, [])
  end.
Definition Balancer_NewDirectRouteConnection (metadata : InboundContext) (nanos : nat -> N) (s : Balancer)
  : result Outbound * Balancer * list Effect :=
  let '(r, s) := Balancer_Select metadata (md_Network metadata) nanos s in
  match r with
  | Ok None => (Err (ENew (md_Network metadata +:+ " is not supported by outbound: ")), s, [])
  | Ok (Some o) =>
      (if ob_DirectRouteOutbound o then Ok o
       else Panic "interface conversion: adapter.Outbound is not adapter.DirectRouteOutbound",
       s, [SetRealOutbound (ob_Tag o)])
  | Err e => (Err e, s, [])
  | Panic msg => (Panic msg, s, [])
  end.
End Balancer.
