(* ===== verification/GroupLaws.v ===== *)
(** * GroupLaws: the selector and the load balancer keep to their outbounds *)

From S2P Require Import Prelude GoStd NetIP Metadata Adapter Float64 Balancer BalancerLaws Groups.
From stdpp Require Import gmap.
Open Scope string_scope.
Open Scope list_scope.

(** The outbound manager knows outbounds by their tags, which are not empty. *)
Definition honest_manager (om : OutboundManager) : Prop :=
  forall tag o, om_Outbound om tag = Some o -> ob_Tag o = tag /\ tag <> "".

(** ** Selector *)

Section Selector.
Context {SS : Type} {ST : SelectedStore SS}.
Variable group_Now : Outbound -> option string.
Variable om : OutboundManager.
Implicit Types (s : Selector) (c : option SS).

Lemma load_outbounds_ok tags : forall i m m',
  load_outbounds om tags i m = (None, m') ->
  (forall t, t ∈ tags -> om_Outbound om t <> None) /\
  (forall t, m' !! t = if bool_decide (t ∈ tags) then om_Outbound om t else m !! t).
Proof.
  induction tags as [|t tags IH]; intros i m m' H; simpl in H.
  - injection H as <-. split; [intros t ?%elem_of_nil; done|]. intros t.
    rewrite bool_decide_eq_false_2 by (by intros ?%elem_of_nil). done.
  - destruct (om_Outbound om t) as [o|] eqn:Eo; [|done]. apply IH in H as [Hall Hm]. split.
    + intros u [->|Hu]%elem_of_cons; [by rewrite Eo|by apply Hall].
    + intros u. rewrite Hm. destruct (decide (u = t)) as [->|Hne].
      * rewrite (bool_decide_eq_true_2 (t ∈ t :: tags)) by apply list_elem_of_here.
        case_bool_decide; [done|]. by rewrite lookup_insert_eq, Eo.
      * rewrite lookup_insert_ne by done.
        by rewrite (bool_decide_ext (u ∈ t :: tags) (u ∈ tags)) by (rewrite elem_of_cons; naive_solver).
Qed.

(** The outbounds of a selector are those of its tags. *)
Definition loaded s : Prop :=
  (forall t, t ∈ sl_tags s -> om_Outbound om t <> None) /\
  (forall t, sl_outbounds s !! t = if bool_decide (t ∈ sl_tags s) then om_Outbound om t else None).
(** What [Start] selects, given the cache file. *)
Definition start_tag c s : string :=
  match c with
  | Some c => if str_empty (sl_Tag s) then "" else LoadSelected (sl_Tag s) c
  | None => ""
  end.
Definition start_choice c s : option Outbound :=
  if str_empty (start_tag c s) then None else sl_outbounds s !! start_tag c s.
Definition default_choice s : option Outbound :=
  sl_outbounds s !! (if str_empty (sl_defaultTag s) then hd "" (sl_tags s) else sl_defaultTag s).
Definition starts_with c s : option Outbound :=
  match start_choice c s with Some o => Some o | None => default_choice s end.

Definition started s : Prop :=
  loaded s /\ sl_tags s <> [] /\ exists o, sl_selected s = Some o /\ exists t, t ∈ sl_tags s /\ om_Outbound om t = Some o.

Lemma loaded_find s t o : loaded s -> sl_outbounds s !! t = Some o -> t ∈ sl_tags s /\ om_Outbound om t = Some o.
Proof. intros [_ H] E. rewrite H in E. by case_bool_decide. Qed.

(** [Start] in terms of the choice. *)
Lemma Start_eq c s0 m :
  sl_tags s0 <> [] -> load_outbounds om (sl_tags s0) 0 (sl_outbounds s0) = (None, m) ->
  Selector_Start om c s0 =
    match starts_with c (set_outbounds m s0) with
    | Some o => (Ok tt, set_selected (Some o) (set_outbounds m s0))
    | None => (Err (ENew ("default outbound not found: " +:+ sl_defaultTag s0)), set_outbounds m s0)
    end.
Proof.
  intros Hne El. unfold Selector_Start, starts_with, start_choice, start_tag, default_choice. rewrite El. simpl.
  destruct (if str_empty (match c with Some _ => _ | None => _ end) then None else _) as [o|]; [done|].
  destruct (str_empty (sl_defaultTag s0)); simpl.
  - destruct (sl_tags s0) as [|t tags] eqn:Et; [done|]. apply load_outbounds_ok in El as [Hall Hm]. simpl.
    specialize (Hall t (list_elem_of_here _ _)). rewrite Hm, bool_decide_eq_true_2 by apply list_elem_of_here.
    by destruct (om_Outbound om t).
  - by destruct (m !! sl_defaultTag s0).
Qed.

Lemma starts_with_member c s o : loaded s -> starts_with c s = Some o -> exists t, t ∈ sl_tags s /\ om_Outbound om t = Some o.
Proof.
  intros Hl. unfold starts_with, start_choice, default_choice.
  destruct (str_empty (start_tag c s)).
  - intros H. by eexists; apply (loaded_find _ _ _ Hl H).
  - destruct (sl_outbounds s !! start_tag c s) eqn:E; intros H; [injection H as ->|]; eexists; by apply (loaded_find _ _ _ Hl).
Qed.
Lemma starts_with_ext c s s' :
  sl_Tag s = sl_Tag s' -> sl_tags s = sl_tags s' -> sl_defaultTag s = sl_defaultTag s' -> sl_outbounds s = sl_outbounds s' ->
  starts_with c s = starts_with c s'.
Proof. intros H1 H2 H3 H4. unfold starts_with, start_choice, start_tag, default_choice. by rewrite H1, H2, H3, H4. Qed.

(** The selector that [NewSelector] and [Start] give. *)
Definition started_selector tag options m o : Selector :=
  mkSelector tag (so_Outbounds options) (so_Default options) m o NewGroup (so_InterruptExistConnections options).
Lemma Start_gives c tag options s0 r s :
  NewSelector tag options = Ok s0 -> Selector_Start om c s0 = (r, s) ->
  (exists e m, load_outbounds om (so_Outbounds options) 0 ∅ = (Some e, m) /\ r = Err e) \/
  exists m, load_outbounds om (so_Outbounds options) 0 ∅ = (None, m) /\
    s = started_selector tag options m (starts_with c (started_selector tag options m None)) /\
    ((exists e, r = Err e) /\ sl_selected s = None \/ r = Ok tt /\ started s).
Proof.
  unfold NewSelector. cbn [sl_tags]. case_bool_decide as Hne; [done|]. intros [= <-] H.
  destruct (load_outbounds om (so_Outbounds options) 0 ∅) as [[e|] m] eqn:El.
  - left. exists e, m. split; [done|]. unfold Selector_Start in H. cbn [sl_tags sl_outbounds] in H. rewrite El in H.
    by injection H as <- _.
  - right. exists m. split; [done|]. match type of H with Selector_Start _ _ ?s0 = _ => rewrite (Start_eq c s0 m Hne El) in H end.
    change (set_outbounds m _) with (started_selector tag options m None) in H. apply load_outbounds_ok in El as Hl.
    destruct (starts_with c (started_selector tag options m None)) as [o|] eqn:Eo; injection H as <- <-; split; try done.
    + right. split; [done|]. split; [by destruct Hl|split; [done|]]. exists o. split; [done|].
      by apply (starts_with_member c (started_selector tag options m None)).
    + left. by split; [eexists|].
Qed.
Lemma Start_Ok c tag options s0 s :
  NewSelector tag options = Ok s0 -> Selector_Start om c s0 = (Ok tt, s) ->
  started s /\ exists m, load_outbounds om (so_Outbounds options) 0 ∅ = (None, m) /\
    s = started_selector tag options m (starts_with c (started_selector tag options m None)).
Proof.
  intros HN HS. destruct (Start_gives _ _ _ _ _ _ HN HS) as [(e & m & _ & ?)|(m & El & E & [[[e ?] _]|[_ ?]])]; [done..|].
  split; [done|]. by exists m.
Qed.

(** What [SelectOutbound] does: whether it answers true, the selection, the cache file and the group. *)
Lemma SelectOutbound_cases tag c s :
  started s ->
  ((tag ∉ sl_tags s) /\ fst (SelectOutbound group_Now om tag c s) = (false, s, c)) \/
  exists o, tag ∈ sl_tags s /\ om_Outbound om tag = Some o /\
    fst (SelectOutbound group_Now om tag c s) =
      if bool_decide (sl_selected s = Some o) then (true, set_selected (Some o) s, c)
      else (true, set_group (Group_Interrupt (sl_interruptExternalConnections s) (sl_interruptGroup s)) (set_selected (Some o) s),
            match c with
            | Some c => if str_empty (sl_Tag s) then Some c else Some (snd (StoreSelected (sl_Tag s) tag c))
            | None => None
            end).
Proof.
  intros [[Hall Hl] _]. unfold SelectOutbound. specialize (Hl tag). specialize (Hall tag).
  case_bool_decide as Hin; rewrite Hl; [|by left].
  destruct (om_Outbound om tag) as [o|]; [|by destruct Hall]. right. exists o. split; [done|split; [done|]].
  by case_bool_decide.
Qed.

Lemma SelectOutbound_frame tag c s r s' c' :
  started s -> fst (SelectOutbound group_Now om tag c s) = (r, s', c') ->
  started s' /\ sl_Tag s' = sl_Tag s /\ sl_tags s' = sl_tags s /\ sl_defaultTag s' = sl_defaultTag s /\
  sl_outbounds s' = sl_outbounds s /\ sl_interruptExternalConnections s' = sl_interruptExternalConnections s.
Proof.
  intros Hs H. destruct (SelectOutbound_cases tag c s Hs) as [[_ E]|(o & Hin & Ho & E)]; rewrite E in H.
  - by injection H as _ <- _.
  - destruct Hs as (Hl & Hne & _).
    assert (forall g, started (set_group g (set_selected (Some o) s))) as Hst by (intros g; split; [done|split; [done|by eauto]]).
    case_bool_decide; injection H as _ <- _; (split; [|done]); [apply (Hst (sl_interruptGroup s))|apply Hst].
Qed.

(** A number of choices by the user. *)
Fixpoint select_all (tags : list string) s c : Selector * option SS :=
  match tags with
  | [] => (s, c)
  | tag :: tags => let '(_, s, c, _) := SelectOutbound group_Now om tag c s in select_all tags s c
  end.

Lemma select_all_frame tags : forall s c,
  started s ->
  let '(s', _) := select_all tags s c in
  started s' /\ sl_Tag s' = sl_Tag s /\ sl_tags s' = sl_tags s /\ sl_defaultTag s' = sl_defaultTag s /\
  sl_outbounds s' = sl_outbounds s /\ sl_interruptExternalConnections s' = sl_interruptExternalConnections s.
Proof.
  induction tags as [|tag tags IH]; intros s c Hs; [done|]. cbn [select_all].
  destruct (SelectOutbound group_Now om tag c s) as [[[r s1] c1] e] eqn:E.
  destruct (SelectOutbound_frame tag c s r s1 c1 Hs) as (Hs1 & H1); [by rewrite E|]. specialize (IH s1 c1 Hs1).
  destruct (select_all tags s1 c1) as [s' c']. naive_solver congruence.
Qed.

(** what selecting by a tag does, at any moment after a successful start: the answer is whether the tag is
    one of the selector's; an unknown tag changes nothing; after a known one [Now] is that tag; and exactly
    when the choice is another one than before, the connections of the group are interrupted: the internal
    ones, and the external ones if so configured, are closed and leave the group, the others stay. *)
Theorem SelectOutbound_spec tag options c0 s0 s1 c1 before pick :
  honest_manager om -> NewSelector tag options = Ok s0 -> Selector_Start om c0 s0 = (Ok tt, s1) ->
  let '(s, c) := select_all before s1 c1 in
  let '(r, s', _, _) := SelectOutbound group_Now om pick c s in
  (r = true <-> pick ∈ so_Outbounds options) /\
  (r = false -> s' = s) /\ (r = true -> Selector_Now s' = Ok pick) /\
  let closed := fun i => negb (gc_isExternal i) || so_InterruptExistConnections options in
  let g := sl_interruptGroup s in
  sl_interruptGroup s' =
    if bool_decide (r = false \/ Selector_Now s = Ok pick) then g
    else mkGroup (List.filter (fun i => negb (closed i)) (g_connections g))
           (g_closed g ++ map gc_conn (List.filter closed (g_connections g))).
Proof.
  intros Hom HN HS. destruct (Start_Ok _ _ _ _ _ HN HS) as (Hst & m & _ & Es1).
  assert (sl_tags s1 = so_Outbounds options) as Ht by by rewrite Es1.
  assert (sl_interruptExternalConnections s1 = so_InterruptExistConnections options) as Hext by by rewrite Es1.
  pose proof (select_all_frame before s1 c1 Hst) as Hf. destruct (select_all before s1 c1) as [s c].
  destruct Hf as (Hs & _ & Ht' & _ & _ & Hext'). rewrite <- Ht, <- Ht', <- Hext, <- Hext'.
  destruct (SelectOutbound group_Now om pick c s) as [[[r s'] c'] e] eqn:E.
  assert (exists old, sl_selected s = Some old /\ om_Outbound om (ob_Tag old) = Some old) as (old & Eold & Hold).
  { destruct Hs as (_ & _ & old & Eo & t & _ & Ho). exists old. split; [done|]. by destruct (Hom _ _ Ho) as [-> _]. }
  destruct (SelectOutbound_cases pick c s Hs) as [[Hin E']|(o & Hin & Ho & E')]; rewrite E in E'.
  - injection E' as -> -> _. rewrite bool_decide_eq_true_2 by by left. naive_solver.
  - destruct (Hom _ _ Ho) as [Htag _]. rewrite Eold in E'.
    assert (Some old = Some o <-> Selector_Now s = Ok pick) as Hiff.
    { unfold Selector_Now. rewrite Eold. split; [intros [= ->]; by rewrite Htag|]. intros [= Hp]. rewrite Hp in Hold. congruence. }
    case_bool_decide as Hd; injection E' as -> -> _.
    + rewrite bool_decide_eq_true_2 by (right; by apply Hiff). split; [done|split; [done|split; [|done]]].
      unfold Selector_Now. simpl. by rewrite Htag.
    + rewrite bool_decide_eq_false_2 by (intros [?|?]; [done|by apply Hd, Hiff]).
      split; [done|split; [done|split; [|done]]]. unfold Selector_Now. simpl. by rewrite Htag.
Qed.

(** ** Restarts *)

(** What is stored is loaded, while storing succeeds. *)
Class SelectedStoreLaws : Prop := {
  load_stored group selected (x : SS) : fst (StoreSelected group selected x) = None ->
    LoadSelected group (snd (StoreSelected group selected x)) = selected
}.
Context {SL : SelectedStoreLaws}.

Lemma SelectOutbound_restart tag (x : SS) s r s' c' :
  honest_manager om -> started s -> sl_Tag s <> "" ->
  (forall t (x : SS), fst (StoreSelected (sl_Tag s) t x) = None) ->
  fst (SelectOutbound group_Now om tag (Some x) s) = (r, s', c') ->
  sl_selected s = starts_with (Some x) s ->
  exists y : SS, c' = Some y /\ sl_selected s' = starts_with (Some y) s'.
Proof.
  intros Hom Hs Ht Hst H Hr. assert (str_empty (sl_Tag s) = false) as Htag by (destruct (sl_Tag s); done).
  destruct (SelectOutbound_cases tag (Some x) s Hs) as [[_ E]|(o & Hin & Ho & E)]; rewrite E in H.
  - injection H as _ <- <-. by exists x.
  - case_bool_decide as Hd; injection H as _ <- <-.
    + exists x. split; [done|]. rewrite <- Hd. exact Hr.
    + rewrite Htag. eexists. split; [reflexivity|]. unfold starts_with, start_choice, start_tag. simpl.
      rewrite Htag, load_stored by apply Hst. destruct (Hom _ _ Ho) as [_ Hne].
      assert (str_empty tag = false) as -> by by destruct tag.
      destruct Hs as [[_ Hl] _]. rewrite Hl, bool_decide_eq_true_2, Ho by done. done.
Qed.

Lemma select_all_restart tags : forall s (x : SS),
  honest_manager om -> started s -> sl_Tag s <> "" ->
  (forall t (x : SS), fst (StoreSelected (sl_Tag s) t x) = None) ->
  sl_selected s = starts_with (Some x) s ->
  exists s' (y : SS), select_all tags s (Some x) = (s', Some y) /\ sl_selected s' = starts_with (Some y) s'.
Proof.
  induction tags as [|tag tags IH]; intros s x Hom Hs Ht Hst Hr; [by exists s, x|]. cbn [select_all].
  destruct (SelectOutbound group_Now om tag (Some x) s) as [[[r s1] c1] e] eqn:E.
  destruct (SelectOutbound_frame tag (Some x) s r s1 c1 Hs) as (Hs1 & Ht1 & _); [by rewrite E|].
  destruct (SelectOutbound_restart tag x s r s1 c1 Hom Hs Ht Hst) as (c2 & -> & Hr1); [by rewrite E|done|].
  apply IH; rewrite ?Ht1; done.
Qed.

(** C28: the choice of the user survives a restart: after a start and any number of selections, a new selector
    of the same configuration, started with the cache file as it is then, selects the same outbound (for a
    selector that has a tag, while storing succeeds). *)
Theorem selector_restart tag options (c0 : SS) s0 s1 picks :
  honest_manager om -> tag <> "" -> (forall t (x : SS), fst (StoreSelected tag t x) = None) ->
  NewSelector tag options = Ok s0 -> Selector_Start om (Some c0) s0 = (Ok tt, s1) ->
  let '(s, c) := select_all picks s1 (Some c0) in
  exists s', Selector_Start om c s0 = (Ok tt, s') /\ sl_selected s' = sl_selected s /\
    exists o, sl_selected s' = Some o /\ ob_Tag o ∈ so_Outbounds options.
Proof.
  intros Hom Hne Hst HN HS. destruct (Start_Ok _ _ _ _ _ HN HS) as (H1 & m & El & Es1).
  assert (sl_Tag s1 = tag) as Htag by by rewrite Es1.
  destruct (select_all_restart picks s1 c0) as (s & c & E & Hr); [done|done|by rewrite Htag|by rewrite Htag|by rewrite Es1|].
  pose proof (select_all_frame picks s1 (Some c0) H1) as Hf. rewrite E in Hf |- *.
  destruct Hf as ((Hl & _ & o & Ho & t & Hin & Ht) & Htag' & Ht' & Hdef' & Hout & _).
  destruct (Selector_Start om (Some c) s0) as [r s'] eqn:ES.
  assert (starts_with (Some c) (started_selector tag options m None) = Some o) as Eo.
  { rewrite <- Ho, Hr. symmetry. apply starts_with_ext; by rewrite ?Htag', ?Ht', ?Hdef', ?Hout, Es1. }
  destruct (Start_gives _ _ _ _ _ _ HN ES) as [(e & m' & El' & _)|(m' & El' & Es' & Hcase)]; [congruence|].
  assert (m' = m) as -> by congruence. rewrite Eo in Es'.
  destruct Hcase as [[_ Hnone]|[-> _]]; [by rewrite Es' in Hnone|]. exists s'. split; [done|].
  rewrite Es', Ho. split; [done|]. exists o. split; [done|]. destruct (Hom _ _ Ht) as [-> _].
  by rewrite Ht', Es1 in Hin.
Qed.
End Selector.

(** ** Load balancer *)

Section Balancer.
Context {X : Externals} {FC : FloatConversion} {SC : SessionCache}.
Variable EffectiveTLDPlusOne : string -> option string.
Variable hash : string -> N.
Variable networks : Outbound -> list string.   (* what [Network] answers at the start *)
Abbreviation Dial := (Balancer_Dial EffectiveTLDPlusOne hash).

(** A strategy over a list of outbounds. *)
Definition strategy_ok (outbounds : list Outbound) (f : Strategy) : Prop :=
  match f with
  | ByRoundRobin s => rr_ok s /\ rr_outbounds s = convertOutbounds networks outbounds
  | ByConsistentHashing s => ch_outbounds s = convertOutbounds networks outbounds
  | ByStickySession s => ss_outbounds s = convertOutbounds networks outbounds
  | ByLowestDelay s => ld_outbounds s = convertOutbounds networks outbounds /\
      forall net, LowestDelay_Select net s ∈ get_net net (convertOutbounds networks outbounds)
  end.

Lemma NewStrategy_ok sessions options outbounds f :
  outbounds <> [] -> NewStrategy networks sessions options outbounds = Ok f -> strategy_ok outbounds f.
Proof.
  intros Hne. unfold NewStrategy. repeat case_bool_decide; try (by intros [= <-]; [..]).
  - intros [= <-]. split; [by apply NewRoundRobin_ok|done].
  - intros HN. unfold NewLowestDelay, result_net, map_net, at_index in HN. simpl in HN.
    pose proof (fun net => convert_nonempty networks outbounds net Hne) as Hc.
    pose proof (Hc NetworkTCP) as Ht. pose proof (Hc NetworkUDP) as Hu. unfold get_net in Ht, Hu. simpl in Ht, Hu.
    destruct (filterOutbounds networks outbounds NetworkTCP) as [|t lt] eqn:Et; [done|].
    destruct (filterOutbounds networks outbounds NetworkUDP) as [|u lu] eqn:Eu; [done|]. injection HN as <-. split; [done|].
    intros net. unfold LowestDelay_Select, get_net. simpl. rewrite Et, Eu. case_bool_decide; apply list_elem_of_here.
Qed.

Lemma Update_ok history outbounds f :
  outbounds <> [] -> delays16 history -> strategy_ok outbounds f ->
  exists changed f', UpdateOutboundsInfo history f = Ok (changed, f') /\ strategy_ok outbounds f'.
Proof.
  intros Hne H16 Hf. pose proof (fun net => convert_nonempty networks outbounds net Hne) as Hc. destruct f as [s|s|s|s]; simpl.
  - destruct Hf as [Hok Hout]. destruct (RoundRobin_Update_Ok history s Hok) as [changed E]. rewrite E. simpl.
    eexists _, _. split; [reflexivity|]. split; [|done]. by apply (RoundRobin_Update_ok _ _ _ _ Hok E).
  - by eexists _, _.
  - by eexists _, _.
  - destruct Hf as [Hout _]. unfold LowestDelay_Update, getMinDelay, map_net. simpl. rewrite Hout.
    destruct (min_delay_spec history _ H16 (Hc NetworkTCP)) as (t1 & t & t2 & Et & Mt & _).
    destruct (min_delay_spec history _ H16 (Hc NetworkUDP)) as (u1 & u & u2 & Eu & Mu & _).
    unfold get_net in Et, Eu, Mt, Mu. simpl in Et, Eu, Mt, Mu. simpl. rewrite Mt, Mu. simpl.
    eexists _, _. split; [reflexivity|]. split; [done|]. intros net. unfold LowestDelay_Select, get_net. simpl.
    case_bool_decide; [rewrite Eu|rewrite Et]; set_solver.
Qed.

Lemma Select_ok metadata net nanos outbounds f :
  outbounds <> [] -> (Z.of_nat (length outbounds) < 2 ^ 31)%Z -> strategy_ok outbounds f ->
  exists o f', Select EffectiveTLDPlusOne hash metadata net nanos f = (Ok (Some o), f') /\ strategy_ok outbounds f' /\
    o ∈ get_net net (convertOutbounds networks outbounds).
Proof.
  intros Hne Hlen Hf. assert (countable (get_net net (convertOutbounds networks outbounds))) as Hc.
  { split; [by apply convert_nonempty|]. unfold get_net, convertOutbounds, filterOutbounds. simpl.
    pose proof (List.filter_length_le (fun out => bool_decide (NetworkTCP ∈ networks out)) outbounds).
    pose proof (List.filter_length_le (fun out => bool_decide (NetworkUDP ∈ networks out)) outbounds).
    destruct (List.filter (fun out => bool_decide (NetworkUDP ∈ networks out)) outbounds), (List.filter (fun out => bool_decide (NetworkTCP ∈ networks out)) outbounds); case_bool_decide; lia. }
  destruct f as [s|s|s|s]; simpl in *.
  - destruct Hf as [Hok Hout]. destruct (RoundRobin_Select_turn net s Hok) as (o & Ho & E).
    pose proof (RoundRobin_Select_ok net true s Hok) as Hok'. rewrite E in Hok' |- *. simpl in Hok'.
    eexists _, _. split; [reflexivity|]. split; [done|]. apply list_elem_of_lookup_2 in Ho. unfold turns in Ho.
    rewrite <- Hout, <- (ok_sorted _ Hok net). by eapply subseteq_take.
  - rewrite <- Hf in Hc |- *. destruct (ConsistentHashing_choice EffectiveTLDPlusOne hash metadata net s Hc) as (o & [Ho _] & E).
    rewrite (E metadata eq_refl). by eexists _, _.
  - rewrite <- Hf in Hc |- *.
    destruct (select_member EffectiveTLDPlusOne hash metadata net nanos s Hc) as (o & s' & E & Ho & Hout). rewrite E.
    eexists _, _. split; [reflexivity|]. split; [unfold strategy_ok; congruence|done].
  - destruct Hf as [Hout Hsel]. by eexists _, _.
Qed.

(** The outbounds of a balancer: those of its tags. *)
Lemma lookup_outbounds_ok om tags : forall i l,
  lookup_outbounds om tags i = Ok l -> length l = length tags /\ forall o, o ∈ l -> exists t, t ∈ tags /\ om_Outbound om t = Some o.
Proof.
  induction tags as [|t tags IH]; intros i l H; simpl in H.
  - injection H as <-. split; [done|]. intros o ?%elem_of_nil. done.
  - destruct (om_Outbound om t) as [o|] eqn:Eo; [|done].
    destruct (lookup_outbounds om tags (S i)) as [l'| |] eqn:El; [|done..]. injection H as <-.
    destruct (IH _ _ El) as [Hlen Hin]. split; [simpl; by f_equal|]. intros x [->|Hx]%elem_of_cons.
    + exists t. split; [apply list_elem_of_here|done].
    + destruct (Hin x Hx) as (u & ? & ?). exists u. split; [by apply list_elem_of_further|done].
Qed.

Lemma lookup_outbounds_all om tags : forall i l t o,
  lookup_outbounds om tags i = Ok l -> t ∈ tags -> om_Outbound om t = Some o -> o ∈ l.
Proof.
  induction tags as [|u tags IH]; intros i l t o H Ht Ho; simpl in H; [by apply elem_of_nil in Ht|].
  destruct (om_Outbound om u) as [x|] eqn:Ex; [|done].
  destruct (lookup_outbounds om tags (S i)) as [l'| |] eqn:El; [|done..]. injection H as <-.
  apply elem_of_cons in Ht as [->|Ht]; [|by apply list_elem_of_further, (IH (S i) l' t o)].
  assert (x = o) as -> by congruence. apply list_elem_of_here.
Qed.

(** What happens to a started balancer: signals of the monitor, and connections. *)
Inductive balancer_step : Balancer -> Balancer -> Prop :=
  | step_signal history s s' : delays16 history -> worker_step history s = Ok s' -> balancer_step s s'
  | step_dial metadata net nanos dial external s : balancer_step s (snd (fst (Dial metadata net nanos dial external s)))
  | step_connection metadata nanos conn s :
      balancer_step s (snd (Balancer_NewConnectionEx EffectiveTLDPlusOne hash metadata nanos conn s))
  | step_packets metadata nanos conn s :
      balancer_step s (snd (fst (Balancer_NewPacketConnectionEx EffectiveTLDPlusOne hash metadata nanos conn s)))
  | step_direct metadata nanos s :
      balancer_step s (snd (fst (Balancer_NewDirectRouteConnection EffectiveTLDPlusOne hash metadata nanos s))).

(** A balancer over a list of outbounds. *)
Definition balancer_ok (outbounds : list Outbound) (s : Balancer) : Prop :=
  exists f, bl_strategyFn s = Some f /\ strategy_ok outbounds f.

Section Running.
Variable outbounds : list Outbound.
Hypotheses (Hne : outbounds <> []) (Hlen : (Z.of_nat (length outbounds) < 2 ^ 31)%Z).

Lemma Balancer_Select_ok metadata net nanos s :
  balancer_ok outbounds s ->
  exists o s', Balancer_Select EffectiveTLDPlusOne hash metadata net nanos s = (Ok (Some o), s') /\ balancer_ok outbounds s' /\
    o ∈ get_net net (convertOutbounds networks outbounds).
Proof.
  intros (f & Ef & Hf). unfold Balancer_Select. rewrite Ef.
  destruct (Select_ok metadata net nanos outbounds f Hne Hlen Hf) as (o & f' & E & Hf' & Ho). rewrite E.
  eexists _, _. split; [reflexivity|]. split; [|done]. by exists f'.
Qed.
Lemma balancer_ok_group g s : balancer_ok outbounds s -> balancer_ok outbounds (set_balancer_group g s).
Proof. done. Qed.

Lemma worker_step_ok history s :
  delays16 history -> balancer_ok outbounds s -> exists s', worker_step history s = Ok s' /\ balancer_ok outbounds s'.
Proof.
  intros H16 (f & Ef & Hf). unfold worker_step. rewrite Ef.
  destruct (Update_ok history outbounds f Hne H16 Hf) as (changed & f' & E & Hf'). rewrite E. simpl.
  eexists. split; [reflexivity|]. destruct changed; by exists f'.
Qed.

Lemma balancer_step_ok s s' : balancer_step s s' -> balancer_ok outbounds s -> balancer_ok outbounds s'.
Proof.
  intros [history s1 s1' H16 E|metadata net nanos dial external s1|metadata nanos conn s1|metadata nanos conn s1|metadata nanos s1] Hs.
  - destruct (worker_step_ok history s1 H16 Hs) as (s2 & E2 & H2). congruence.
  - destruct (Balancer_Select_ok metadata net nanos s1 Hs) as (o & s2 & E & H2 & _). unfold Balancer_Dial. rewrite E.
    by destruct (dial o).
  - destruct (Balancer_Select_ok metadata (md_Network metadata) nanos s1 Hs) as (o & s2 & E & H2 & _).
    unfold Balancer_NewConnectionEx. by rewrite E.
  - destruct (Balancer_Select_ok metadata (md_Network metadata) nanos s1 Hs) as (o & s2 & E & H2 & _).
    unfold Balancer_NewPacketConnectionEx. by rewrite E.
  - destruct (Balancer_Select_ok metadata (md_Network metadata) nanos s1 Hs) as (o & s2 & E & H2 & _).
    unfold Balancer_NewDirectRouteConnection. by rewrite E.
Qed.
End Running.

(** The network by which the outbounds are kept. *)
Definition net_of (net : string) : string := if bool_decide (net = NetworkUDP) then NetworkUDP else NetworkTCP.
Lemma converted outbounds net o :
  o ∈ get_net net (convertOutbounds networks outbounds) ->
  o ∈ outbounds /\ ((exists x, x ∈ outbounds /\ net_of net ∈ networks x) -> net_of net ∈ networks o).
Proof.
  unfold get_net, convertOutbounds, net_of. simpl.
  assert (forall n, o ∈ filterOutbounds networks outbounds n ->
    o ∈ outbounds /\ ((exists x, x ∈ outbounds /\ n ∈ networks x) -> n ∈ networks o)) as H; [|case_bool_decide; apply H].
  intros n. unfold filterOutbounds. destruct (List.filter _ outbounds) as [|y l] eqn:E; intros Ho.
  - split; [done|]. intros (x & Hx & Hs). apply list_elem_of_In in Hx.
    assert (In x (List.filter (fun out => bool_decide (n ∈ networks out)) outbounds)) as Hf by (apply filter_In; split; [done|by apply bool_decide_eq_true]). by rewrite E in Hf.
  - rewrite <- E, list_elem_of_In, filter_In, <- list_elem_of_In in Ho. destruct Ho as [Ho ?%bool_decide_eq_true]. done.
Qed.

(** C27: a load balancer that has started, with any strategy, works at every later moment: a signal of the
    monitor never makes it panic; and a dial asks an outbound of one of its tags, one that had the network
    when the balancer started if any of them had it then.  (The networks are read at the start only: a
    selector below it may have switched to an outbound without the network since then.)  If that outbound gives a
    connection, the connection is given and enters the interrupt group; if it fails, the error is given,
    nothing enters the group, and the test of that outbound is made invalid. *)
Theorem balancer_dials_member om sessions s0 s1 s :
  Balancer_Start networks om sessions s0 = (Ok tt, s1) -> bl_tags s0 <> [] -> (Z.of_nat (length (bl_tags s0)) < 2 ^ 31)%Z ->
  rtc balancer_step s1 s ->
  (forall history, delays16 history -> is_Ok (worker_step history s) = true) /\
  forall metadata net nanos, exists o tag,
    tag ∈ bl_tags s0 /\ om_Outbound om tag = Some o /\
    ((exists t x, t ∈ bl_tags s0 /\ om_Outbound om t = Some x /\ net_of net ∈ networks x) ->
      net_of net ∈ networks o) /\
    forall dial external, exists s',
      match dial o with
      | Ok conn => Dial metadata net nanos dial external s = (Ok conn, s', [SetRealOutbound (ob_Tag o)]) /\
          bl_interruptGroup s' = Group_NewConn conn external (bl_interruptGroup s)
      | Err e => Dial metadata net nanos dial external s = (Err e, s', [SetRealOutbound (ob_Tag o); InvalidateTest (ob_Tag o)]) /\
          bl_interruptGroup s' = bl_interruptGroup s
      | Panic msg => Dial metadata net nanos dial external s = (Panic msg, s', [SetRealOutbound (ob_Tag o)])
      end.
Proof.
  intros HS Hne Hlen Hrun. unfold Balancer_Start in HS.
  destruct (lookup_outbounds om (bl_tags s0) 0) as [outbounds| |] eqn:El; [|done..]. cbn [mbind result_bind] in HS.
  destruct (NewStrategy networks sessions (bl_options s0) outbounds) as [f| |] eqn:Ef; [|done..]. injection HS as <-.
  destruct (lookup_outbounds_ok om _ _ _ El) as [Hl Hin].
  assert (outbounds <> []) as Hne' by (intros ->; by destruct (bl_tags s0)). rewrite <- Hl in Hlen.
  assert (balancer_ok outbounds s) as Hs.
  { assert (balancer_ok outbounds (set_strategy f s0)) as H0 by (exists f; split; [done|by eapply NewStrategy_ok]).
    clear - Hrun H0 Hne' Hlen. induction Hrun as [|x y z Hstep _ IH]; [done|]. by apply IH, (balancer_step_ok _ Hne' Hlen x y). }
  split.
  { intros history H16. by destruct (worker_step_ok outbounds Hne' history s H16 Hs) as (s' & -> & _). }
  intros metadata net nanos. destruct (Balancer_Select_ok outbounds Hne' Hlen metadata net nanos s Hs) as (o & s' & E & _ & Ho).
  apply converted in Ho as [Ho Hsup]. destruct (Hin o Ho) as (tag & Htag & Hom). exists o, tag.
  split; [done|split; [done|split]].
  - intros (t & x & Ht & Hx & Hs'). apply Hsup. exists x. split; [|done]. by eapply lookup_outbounds_all.
  - intros dial external. unfold Balancer_Dial. rewrite E.
    assert (bl_interruptGroup s' = bl_interruptGroup s) as Hg.
    { unfold Balancer_Select in E. destruct (bl_strategyFn s); [|done]. destruct (Select _ _ _ _ _ _). by injection E as _ <-. }
    destruct (dial o); eexists; [split; [reflexivity|]|split; [reflexivity|]|reflexivity]; simpl; by rewrite ?Hg.
Qed.
End Balancer.
