(* ===== verification/GroupSample.v ===== *)
(** * GroupSample: a load balancer and a selector over concrete outbounds *)

From S2P Require Import Prelude GoStd NetIP Metadata Adapter Sample Float64 Balancer BalancerLaws.
From S2P Require Import Groups GroupLaws.
From stdpp Require Import gmap.
Open Scope string_scope.
Open Scope list_scope.

#[local] Existing Instance sample.
(** A number that does not fit 16 bits is cut to its last 16 bits. *)
#[local] Instance low_bits : FloatConversion := {| uint16_overflow z := Z.to_N (z mod 2 ^ 16) |}.
(** Sessions that never expire. *)
#[local] Instance all_sessions : SessionCache := {|
  Sessions := gmap N nat;
  sessions_Get key c := (c !! key, c);
  sessions_Add key i c := <[key := i]> c
|}.
#[local] Instance all_sessions_laws : SessionLaws.
Proof.
  split; [|done]. intros key i c. exact (lookup_insert_eq c key i).
Qed.

(** The values known from other implementations of the jump hash. *)
Example jumpHash_values :
  map (fun p => jumpHash (fst p) (snd p)) [(1%N, 1); (42%N, 57); (3735883980%N, 1); (3735883980%N, 666); (256%N, 1024)] =
  [0; 43; 0; 361; 520].
Proof. vm_compute. reflexivity. Qed.

Definition no_suffixes : string -> option string := fun _ => None.
(** The hash of a string: its length. *)
Definition sample_hash (s : string) : N := N.of_nat (String.length s).

Definition out_a : Outbound := mkOutbound "a" ["tcp"; "udp"] false false false.
Definition out_b : Outbound := mkOutbound "b" ["tcp"] false false false.
Definition out_c : Outbound := mkOutbound "c" ["tcp"; "udp"] true false false.
Definition measured (l : list (string * N)) : histories :=
  list_to_map (map (fun p => (fst p, Some (mkHistory (snd p) false))) l).
Definition sample_history : histories := measured [("a", 150%N); ("b", 100%N); ("c", 400%N)].

Lemma sample_delays16 : delays16 sample_history.
Proof.
  intros tag h H. assert (In (tag, Some h) (map_to_list sample_history)) as Hin by by apply list_elem_of_In, elem_of_map_to_list.
  assert (forallb (fun p => match snd p with Some h => (h_Delay h <=? TimeoutDelay)%N | None => true end)
    (map_to_list sample_history) = true) as Hall by (vm_compute; reflexivity).
  rewrite forallb_forall in Hall. specialize (Hall _ Hin). simpl in Hall. by apply N.leb_le.
Qed.

Lemma jumpHash_consistent_witness :
  jumpHash 42 57 = 43%nat /\ (jumpHash 42 58 = 43%nat \/ jumpHash 42 58 = 57%nat).
Proof.
  assert (jumpHash 42 57 = 43%nat) as E by (vm_compute; reflexivity). split; [exact E|].
  destruct (jumpHash_consistent 42 57) as (_ & _ & H); [lia..|]. rewrite E in H. exact H.
Defined.

(** With the ratio 2, "a" and "b" take turns for TCP. *)
Definition ratio2 : f64 := f_of_Z 2.
Lemma RoundRobin_round_witness :
  exists changed s', RoundRobin_Update sample_history (NewRoundRobin ob_Network [out_a; out_b; out_c] ratio2) = Ok (changed, s') /\
    choices 4 "tcp" s' = map (fun o => Ok (Some o)) [out_a; out_b; out_a; out_b] /\
    exists best l, choices (length l) "tcp" s' = map (fun o => Ok (Some o)) l /\ best ∈ [out_a; out_b; out_c].
Proof.
  destruct (RoundRobin_round sample_history (NewRoundRobin ob_Network [out_a; out_b; out_c] ratio2)) as (changed & s' & E & H).
  { by apply rr_new. }
  exists changed, s'. split; [exact E|]. split.
  - assert (from_Ok (changed, s') (RoundRobin_Update sample_history (NewRoundRobin ob_Network [out_a; out_b; out_c] ratio2)) = (changed, s'))
      as E' by (rewrite E; reflexivity).
    apply (f_equal (fun p => choices 4 "tcp" (snd p))) in E'. simpl snd in E'. rewrite <- E'. vm_compute. reflexivity.
  - destruct (H "tcp") as (best & l & Hin & _ & _ & _ & Hc). exists best, l. split; [exact Hc|exact Hin].
Defined.

Lemma LowestDelay_least_witness :
  exists s changed s', NewLowestDelay ob_Network [out_a; out_b; out_c] = Ok s /\ LowestDelay_Update sample_history s = Ok (changed, s') /\
    ob_Tag (LowestDelay_Select "tcp" s') = "b" /\ ob_Tag (LowestDelay_Select "udp" s') = "a" /\
    (changed = false <-> forall net, ob_Tag (LowestDelay_Select net s') = ob_Tag (LowestDelay_Select net s)).
Proof.
  exists (mkLowestDelay (convertOutbounds ob_Network [out_a; out_b; out_c]) (mkPerNet out_a out_a)).
  destruct (LowestDelay_least sample_history (mkLowestDelay (convertOutbounds ob_Network [out_a; out_b; out_c]) (mkPerNet out_a out_a)))
    as (changed & s' & E & _ & H).
  - by apply (ld_new ob_Network [out_a; out_b; out_c]).
  - exact sample_delays16.
  - exists changed, s'. split; [reflexivity|split; [exact E|]].
    assert (LowestDelay_Update sample_history (mkLowestDelay (convertOutbounds ob_Network [out_a; out_b; out_c]) (mkPerNet out_a out_a)) =
      Ok (true, mkLowestDelay (convertOutbounds ob_Network [out_a; out_b; out_c]) (mkPerNet out_b out_a))) as E' by (vm_compute; reflexivity).
    rewrite E' in E. injection E as <- <-. split; [reflexivity|split; [reflexivity|exact H]].
Defined.

Definition sample_metadata : InboundContext := sample_context "example.org" AddrNone 443.
Definition hashing : ConsistentHashing := snd (ConsistentHashing_Update sample_history (NewConsistentHashing ob_Network [out_a; out_b; out_c] 0 ratio2)).
Lemma sample_countable {A} (s : A) (f : A -> per_net (list Outbound)) net :
  f s = convertOutbounds ob_Network [out_a; out_b; out_c] -> countable (get_net net (f s)).
Proof. intros ->. unfold countable, get_net. case_bool_decide; (split; [done|vm_compute; reflexivity]). Qed.

Lemma ConsistentHashing_Select_alive_witness :
  exists o, consistent_choice hashing "tcp" [out_a; out_b; out_c] o /\
    ConsistentHashing_Select no_suffixes sample_hash sample_metadata "tcp" hashing = Ok o.
Proof.
  destruct (ConsistentHashing_Select_alive no_suffixes sample_hash sample_metadata "tcp" hashing) as (o & H & E).
  - by apply sample_countable.
  - exists o. split; [exact H|exact (E _ eq_refl)].
Defined.

Definition sticky : StickySession := snd (StickySession_Update sample_history (NewStickySession ob_Network [out_a; out_b; out_c] 3 ratio2 ∅)).
Lemma StickySession_sticks_witness :
  exists o s', StickySession_Select no_suffixes sample_hash sample_metadata "tcp" (fun i => N.of_nat i) sticky = (Ok o, s') /\
    keeps sticky "tcp" o /\
    Forall (fun r => r = Ok o) (selects no_suffixes sample_hash "tcp" [(sample_metadata, fun _ => 7%N); (sample_metadata, fun _ => 9%N)] s').
Proof.
  destruct (StickySession_sticks no_suffixes sample_hash sample_metadata "tcp" (fun i => N.of_nat i) sticky)
    as (o & s' & E & _ & H).
  - by apply sample_countable.
  - intros i Hi. done.
  - exists o, s'. split; [exact E|]. assert (keeps sticky "tcp" o) as Hk.
    { right. assert (fst (StickySession_Select no_suffixes sample_hash sample_metadata "tcp" (fun i => N.of_nat i) sticky) = Ok o)
        as E1 by (rewrite E; reflexivity).
      assert (fst (StickySession_Select no_suffixes sample_hash sample_metadata "tcp" (fun i => N.of_nat i) sticky) = Ok out_b)
        as E2 by (vm_compute; reflexivity).
      rewrite E2 in E1. injection E1 as <-. vm_compute. reflexivity. }
    split; [exact Hk|]. apply (H Hk). by repeat constructor.
Defined.

Definition sample_om : OutboundManager :=
  mkOutboundManager (fun t => if bool_decide (t = "a") then Some out_a else if bool_decide (t = "b") then Some out_b
    else if bool_decide (t = "c") then Some out_c else None) None.
Lemma sample_om_honest : honest_manager sample_om.
Proof. intros tag o H. unfold sample_om in H. simpl in H. repeat case_bool_decide; by simplify_eq. Qed.

Definition no_sessions : @Sessions all_sessions := (∅ : gmap N nat).
Definition balancer : Balancer :=
  mkBalancer "auto" ["a"; "b"; "c"] (mkBalancerOptions ["a"; "b"; "c"] "round-robin" false 0 ratio2) None false NewGroup.
Lemma balancer_dials_member_witness :
  exists s1 o, Balancer_Start ob_Network sample_om no_sessions balancer = (Ok tt, s1) /\
    o ∈ [out_a; out_b; out_c] /\ supports "udp" o = true /\
    forall dial, exists s',
      dial o = Ok 7%nat ->
      Balancer_Dial no_suffixes sample_hash sample_metadata "udp" (fun _ => 0%N) dial true s1 = (Ok 7%nat, s', [SetRealOutbound (ob_Tag o)]).
Proof.
  exists (snd (Balancer_Start ob_Network sample_om no_sessions balancer)).
  destruct (balancer_dials_member no_suffixes sample_hash ob_Network sample_om no_sessions balancer
    (snd (Balancer_Start ob_Network sample_om no_sessions balancer)) (snd (Balancer_Start ob_Network sample_om no_sessions balancer)))
    as (_ & H); [reflexivity|done|done|reflexivity|].
  destruct (H sample_metadata "udp" (fun _ => 0%N)) as (o & tag & _ & Ho & Hs & Hd). exists o. split; [reflexivity|].
  split; [|split].
  - unfold sample_om in Ho. simpl in Ho. repeat case_bool_decide; simplify_eq; set_solver.
  - apply bool_decide_eq_true, Hs. exists "a", out_a. split; [apply list_elem_of_here|]. split; [reflexivity|]. apply (bool_decide_eq_true_1 _). reflexivity.
  - intros dial. destruct (Hd dial true) as (s' & Hs'). exists s'. intros E. rewrite E in Hs'. by destruct Hs'.
Defined.

(** ** Selectors *)

#[local] Instance kept : SelectedStore (gmap string string) := {|
  LoadSelected group c := default "" (c !! group);
  StoreSelected group tag c := (None, <[group := tag]> c)
|}.
#[local] Instance kept_laws : SelectedStoreLaws (SS := gmap string string).
Proof. split. intros group selected c _. simpl. by rewrite lookup_insert_eq. Qed.

Definition no_groups : Outbound -> option string := fun _ => None.
Definition selector_options : SelectorOutboundOptions := mkSelectorOptions ["a"; "b"; "c"] "b" false.
Definition new_selector : Selector := mkSelector "select" ["a"; "b"; "c"] "b" ∅ None NewGroup false.
Definition started_sample : Selector := snd (Selector_Start sample_om (Some (∅ : gmap string string)) new_selector).
Definition with_connections : Selector :=
  set_group (Group_NewConn 2 true (Group_NewConn 1 false NewGroup)) started_sample.

Lemma SelectOutbound_spec_witness :
  let '(s, c) := select_all no_groups sample_om ["c"; "a"] started_sample (Some (∅ : gmap string string)) in
  let '(r, s', _, _) := SelectOutbound no_groups sample_om "b" c s in
  (r = true <-> "b" ∈ ["a"; "b"; "c"]) /\ (r = true -> Selector_Now s' = Ok "b") /\ Selector_Now s = Ok "a".
Proof.
  pose proof (SelectOutbound_spec no_groups sample_om "select" selector_options (Some (∅ : gmap string string)) new_selector started_sample
    (Some ∅) ["c"; "a"] "b" sample_om_honest eq_refl eq_refl) as H.
  assert (Selector_Now (fst (select_all no_groups sample_om ["c"; "a"] started_sample (Some (∅ : gmap string string)))) = Ok "a") as E
    by (vm_compute; reflexivity).
  destruct (select_all no_groups sample_om ["c"; "a"] started_sample (Some ∅)) as [s c]. simpl in E.
  destruct (SelectOutbound no_groups sample_om "b" c s) as [[[r s'] c'] e].
  destruct H as (H1 & _ & H2 & _). split; [exact H1|split; [exact H2|exact E]].
Defined.

(** The internal connection is closed, the external one stays. *)
Example selecting_interrupts :
  let '(r, s', _, effects) := SelectOutbound no_groups sample_om "c" (Some (∅ : gmap string string)) with_connections in
  (r, g_connections (sl_interruptGroup s'), g_closed (sl_interruptGroup s'), effects) =
  (true, [mkItem 2 true], [1%nat], [TestNow "c"]).
Proof. vm_compute. reflexivity. Qed.

Lemma selector_restart_witness :
  let '(s, c) := select_all no_groups sample_om ["c"; "nope"; "a"] started_sample (Some (∅ : gmap string string)) in
  exists s', Selector_Start sample_om c new_selector = (Ok tt, s') /\ sl_selected s' = sl_selected s /\
    exists o, sl_selected s' = Some o /\ ob_Tag o ∈ ["a"; "b"; "c"].
Proof.
  apply (selector_restart no_groups sample_om "select" selector_options ∅ new_selector started_sample ["c"; "nope"; "a"]
    sample_om_honest); [done|done|reflexivity|reflexivity].
Defined.

(** The networks of a balancer's outbounds are read when it starts.  "select" has chosen "a" then, and answers TCP and UDP; it
    switches to "b", which has TCP only; UDP connections are still given to it, although "c" has UDP. *)
Definition out_select : Outbound := mkOutbound "select" [NetworkTCP; NetworkUDP] false false false.
Definition networks_with (s : Selector) (o : Outbound) : list string :=
  if bool_decide (ob_Tag o = sl_Tag s) then Selector_Network s else ob_Network o.
Definition nested_om : OutboundManager :=
  mkOutboundManager (fun t => if bool_decide (t = "select") then Some out_select else om_Outbound sample_om t) None.
Definition nested_balancer : Balancer :=
  mkBalancer "auto" ["select"; "c"] (mkBalancerOptions ["select"; "c"] "lowest-delay" false 0 ratio2) None false NewGroup.
Example networks_read_once :
  let '(_, sel, _, _) := SelectOutbound no_groups sample_om "a" (Some (∅ : gmap string string)) started_sample in
  let '(_, sel', _, _) := SelectOutbound no_groups sample_om "b" (Some (∅ : gmap string string)) sel in
  let started := snd (Balancer_Start (networks_with sel) nested_om no_sessions nested_balancer) in
  networks_with sel out_select = ["tcp"; "udp"] /\ networks_with sel' out_select = ["tcp"] /\ networks_with sel' out_c = ["tcp"; "udp"] /\
  Balancer_Dial no_suffixes sample_hash sample_metadata "udp" (fun _ => 0%N) (fun _ => Ok 7%nat) true started =
    (Ok 7%nat, set_balancer_group (Group_NewConn 7 true NewGroup) started, [SetRealOutbound "select"]).
Proof. vm_compute. split_and!; reflexivity. Qed.
