(* ===== verification/CacheFile.v ===== *)
(** * CacheFile: what is kept in a database on disk

    experimental/cachefile: [CacheFile] (cache.go), the fake IP storage (fakeip.go) and the store of
    rejected DNS answers (rdrc.go), and the binary form of [adapter.SavedBinary]
    (adapter/experimental.go), over the database bbolt, which is an interface.

    A state is a cache file that has started; before that every call panics.  The mutexes make
    operations atomic; what a goroutine or a timer does later is an operation of its own. *)

From S2P Require Import Prelude GoStd NetIP FakeIP FakeIPCodec RuleSet Groups.
From stdpp Require Import gmap.
Open Scope string_scope.

(** ** The database *)

(** bbolt: buckets, named by their path from the root, with keys and values.  Inside a transaction
    the operations act on the database that it sees; [bolt_Commit] is what the commit of a
    read-write transaction says. *)
Class Bolt : Type := {
  DB : Type;
  bolt_Bucket : list string -> DB -> bool;
  bolt_CreateBucketIfNotExists : list string -> DB -> result DB;
  bolt_DeleteBucket : list string -> DB -> result DB;
  bolt_Get : list string -> string -> DB -> option string;
  bolt_Put : list string -> string -> string -> DB -> result DB;
  bolt_Delete : list string -> string -> DB -> result DB;
  bolt_Commit : DB -> option error
}.

(** Other libraries: sing's varbin for byte strings, and [M.AddrFromIP]. *)
Class CacheLibrary : Type := {
  varbin_Write : string -> string;
  varbin_Read : string -> result (string * string);
  M_AddrFromIP : string -> Addr
}.

(** The buckets. *)
Definition bucketSelected : string := "selected".
Definition bucketExpand : string := "group_expand".
Definition bucketMode : string := "clash_mode".
Definition bucketRuleSet : string := "rule_set".
Definition bucketRDRC : string := "rdrc2".
Definition bucketFakeIP : string := "fakeip_address".
Definition bucketFakeIPDomain4 : string := "fakeip_domain4".
Definition bucketFakeIPDomain6 : string := "fakeip_domain6".
Definition keyMetadata : string := "fakeip_metadata".
Definition cacheIDDefault : string := "default".

(** [os.ErrNotExist] and [os.ErrInvalid]. *)
Definition ErrNotExist : error := ELib "file does not exist".
Definition ErrInvalid : error := ELib "invalid argument".

Section CacheFile.
Context {B : Bolt} {CL : CacheLibrary}.

Record CacheFileOptions : Type := mkCacheFileOptions {
  co_CacheID : string;
  co_StoreFakeIP : bool;
  co_StoreRDRC : bool;
  co_RDRCTimeout : Z
}.

(** [saveRDRC] holds only [true]. *)
Record CacheFile : Type := mkCacheFile {
  cf_cacheID : option string;
  cf_storeFakeIP : bool;
  cf_storeRDRC : bool;
  cf_rdrcTimeout : Z;
  cf_DB : DB;
  cf_saveMetadataTimer : option FakeIPMetadata;
  cf_saveDomain : gmap Addr string;
  cf_saveAddress4 : gmap string Addr;
  cf_saveAddress6 : gmap string Addr;
  cf_saveRDRC : gset (string * string * N)
}.
(** [New], with the database [Start] opens. *)
Definition New (options : CacheFileOptions) (db : DB) : CacheFile :=
  mkCacheFile
    (if str_empty (co_CacheID options) then None else Some (String (ascii_of_N 0) (co_CacheID options)))
    (co_StoreFakeIP options) (co_StoreRDRC options)
    (if co_StoreRDRC options
     then (if (0 <? co_RDRCTimeout options)%Z then co_RDRCTimeout options else 7 * 24 * 3600 * 1000000000)%Z
     else 0%Z)
    db None ∅ ∅ ∅ ∅.

Definition set_DB (db : DB) (c : CacheFile) : CacheFile :=
  mkCacheFile (cf_cacheID c) (cf_storeFakeIP c) (cf_storeRDRC c) (cf_rdrcTimeout c) db (cf_saveMetadataTimer c)
    (cf_saveDomain c) (cf_saveAddress4 c) (cf_saveAddress6 c) (cf_saveRDRC c).
Definition set_timer (t : option FakeIPMetadata) (c : CacheFile) : CacheFile :=
  mkCacheFile (cf_cacheID c) (cf_storeFakeIP c) (cf_storeRDRC c) (cf_rdrcTimeout c) (cf_DB c) t
    (cf_saveDomain c) (cf_saveAddress4 c) (cf_saveAddress6 c) (cf_saveRDRC c).
Definition set_saving (d : gmap Addr string) (a4 a6 : gmap string Addr) (c : CacheFile) : CacheFile :=
  mkCacheFile (cf_cacheID c) (cf_storeFakeIP c) (cf_storeRDRC c) (cf_rdrcTimeout c) (cf_DB c) (cf_saveMetadataTimer c)
    d a4 a6 (cf_saveRDRC c).
Definition set_saveRDRC (s : gset (string * string * N)) (c : CacheFile) : CacheFile :=
  mkCacheFile (cf_cacheID c) (cf_storeFakeIP c) (cf_storeRDRC c) (cf_rdrcTimeout c) (cf_DB c) (cf_saveMetadataTimer c)
    (cf_saveDomain c) (cf_saveAddress4 c) (cf_saveAddress6 c) s.

(** [DB.Batch] and [DB.Update]: an error of the function or of the commit undoes everything. *)
Definition Batch {A} (f : DB -> result (A * DB)) (c : CacheFile) : result A * CacheFile :=
  match f (cf_DB c) with
  | Ok (a, db) => match bolt_Commit db with None => (Ok a, set_DB db c) | Some e => (Err e, c) end
  | Err e => (Err e, c)
  | Panic msg => (Panic msg, c)
  end.
(** The same for a function that answers only an error. *)
Definition Batch_ (f : DB -> result DB) (c : CacheFile) : option error * CacheFile :=
  match Batch (fun db => let! db := f db in Ok (tt, db)) c with
  | (Ok _, c) => (None, c)
  | (Err e, c) => (Some e, c)
  | (Panic msg, c) => (Some (ELib msg), c)
  end.

(** [bucket] and [createBucket]: the bucket of a key, inside the bucket of the cache ID if there is one. *)
Definition bucket_path (c : CacheFile) (key : string) : list string :=
  match cf_cacheID c with None => [key] | Some id => [id; key] end.
Definition bucket (c : CacheFile) (key : string) (db : DB) : option (list string) :=
  match cf_cacheID c with
  | None => if bolt_Bucket [key] db then Some [key] else None
  | Some id => if bolt_Bucket [id] db then (if bolt_Bucket [id; key] db then Some [id; key] else None) else None
  end.
Definition createBucket (c : CacheFile) (key : string) (db : DB) : result (list string * DB) :=
  match cf_cacheID c with
  | None => let! db := bolt_CreateBucketIfNotExists [key] db in Ok ([key], db)
  | Some id =>
      let! db := bolt_CreateBucketIfNotExists [id] db in
      let! db := bolt_CreateBucketIfNotExists [id; key] db in Ok ([id; key], db)
  end.

(** A value of a key of such a bucket; an absent one and an empty one are the same here. *)
Definition get_string (p : option (list string)) (key : string) (db : DB) : string :=
  match p with None => "" | Some p => default "" (bolt_Get p key db) end.

(** ** Choices and modes (cache.go) *)

Definition mode_key (c : CacheFile) : string :=
  match cf_cacheID c with Some id => id | None => cacheIDDefault end.
Definition LoadMode (c : CacheFile) : string :=
  if bolt_Bucket [bucketMode] (cf_DB c) then get_string (Some [bucketMode]) (mode_key c) (cf_DB c) else "".
Definition StoreMode (mode : string) (c : CacheFile) : option error * CacheFile :=
  Batch_ (fun db =>
    let! db := bolt_CreateBucketIfNotExists [bucketMode] db in
    bolt_Put [bucketMode] (mode_key c) mode db) c.

Definition CacheFile_LoadSelected (group : string) (c : CacheFile) : string :=
  get_string (bucket c bucketSelected (cf_DB c)) group (cf_DB c).
Definition CacheFile_StoreSelected (group selected : string) (c : CacheFile) : option error * CacheFile :=
  Batch_ (fun db => let! (p, db) := createBucket c bucketSelected db in bolt_Put p group selected db) c.
#[export] Instance CacheFile_selected : SelectedStore CacheFile := {|
  LoadSelected := CacheFile_LoadSelected;
  StoreSelected := CacheFile_StoreSelected
|}.

(** [None]: not loaded. *)
Definition LoadGroupExpand (group : string) (c : CacheFile) : option bool :=
  match get_string (bucket c bucketExpand (cf_DB c)) group (cf_DB c) with
  | String b "" => Some (byte_val b =? 1)%N
  | _ => None
  end.
Definition StoreGroupExpand (group : string) (isExpand : bool) (c : CacheFile) : option error * CacheFile :=
  Batch_ (fun db =>
    let! (p, db) := createBucket c bucketExpand db in
    bolt_Put p group (String (byte_of (if isExpand then 1 else 0)) "") db) c.

(** ** Binaries *)

(** [MarshalBinary]: a version, the content, the time in seconds, the etag. *)
Definition wrap_int64 (z : Z) : Z := ((z + 2 ^ 63) mod 2 ^ 64 - 2 ^ 63)%Z.
Definition be_int64 (z : Z) : string := be_bytes 8 (Z.to_N (z mod 2 ^ 64)).
(** A time is in nanoseconds; [None] is the zero time, which lies before 1970. *)
Definition zero_time_Unix : Z := (-62135596800)%Z.
Definition Unix (t : option Z) : Z := match t with Some ns => (ns / 1000000000)%Z | None => zero_time_Unix end.
Definition time_Unix (s : Z) : option Z := if (s =? zero_time_Unix)%Z then None else Some (s * 1000000000)%Z.
Definition SavedBinary_MarshalBinary (s : SavedBinary) : string :=
  String (byte_of 1) "" +:+ (varbin_Write (sb_Content s) +:+ (be_int64 (Unix (sb_LastUpdated s)) +:+ varbin_Write (sb_LastEtag s))).

(** [io.ReadFull] of [n] bytes, by [binary.Read]. *)
Definition read_bytes (n : nat) (data : string) : result (string * string) :=
  if (String.length data <? n)%nat then Err (ELib (EOF_error data)) else Ok (str_take n data, str_drop n data).
Definition SavedBinary_UnmarshalBinary (data : string) : result SavedBinary :=
  let! (_, data) := read_bytes 1 data in
  let! (content, data) := varbin_Read data in
  let! (seconds, data) := read_bytes 8 data in
  let! (etag, _) := varbin_Read data in
  Ok (mkSavedBinary content (time_Unix (wrap_int64 (Z.of_N (be_val seconds)))) etag).

(** [LoadRuleSet] and [LoadBinary] are one code, on one bucket; a malformed value is absent. *)
Definition LoadBinary (tag : string) (c : CacheFile) : option SavedBinary :=
  match bucket c bucketRuleSet (cf_DB c) with
  | None => None
  | Some p =>
      let setBinary := get_string (Some p) tag (cf_DB c) in
      if str_empty setBinary then None
      else match SavedBinary_UnmarshalBinary setBinary with Ok s => Some s | _ => None end
  end.
Definition SaveBinary (tag : string) (set : SavedBinary) (c : CacheFile) : option error * CacheFile :=
  Batch_ (fun db =>
    let! (p, db) := createBucket c bucketRuleSet db in
    bolt_Put p tag (SavedBinary_MarshalBinary set) db) c.
Definition LoadRuleSet : string -> CacheFile -> option SavedBinary := LoadBinary.
Definition SaveRuleSet : string -> SavedBinary -> CacheFile -> option error * CacheFile := SaveBinary.

(** ** Rejected DNS answers (rdrc.go) *)

Definition rdrc_key (qName : string) (qType : N) : string := be_bytes 2 (qType mod 2 ^ 16) +:+ qName.
Definition rdrc_bucket (c : CacheFile) (transportName : string) (db : DB) : option (list string) :=
  match bucket c bucketRDRC db with
  | None => None
  | Some p => if bolt_Bucket (p ++ [transportName])%list db then Some (p ++ [transportName])%list else None
  end.

(** [LoadRDRC] at the time [now]; an expired entry is deleted. *)
Definition LoadRDRC (now : Z) (transportName qName : string) (qType : N) (c : CacheFile) : result bool * CacheFile :=
  if bool_decide ((transportName, qName, qType) ∈ cf_saveRDRC c) then (Ok true, c)
  else
    let key := rdrc_key qName qType in
    match rdrc_bucket c transportName (cf_DB c) with
    | None => (Ok false, c)
    | Some p =>
        match bolt_Get p key (cf_DB c) with
        | None => (Ok false, c)
        | Some content =>
            if (String.length content <? 8)%nat then (Panic "runtime error: index out of range", c)
            else
              let expiresAt := wrap_int64 (Z.of_N (be_val (str_take 8 content))) in
              if (expiresAt * 1000000000 <? now)%Z then
                (Ok false, snd (Batch_ (fun db =>
                   match rdrc_bucket c transportName db with None => Ok db | Some p => bolt_Delete p key db end) c))
              else (Ok true, c)
        end
    end.

Definition SaveRDRC (now : Z) (transportName qName : string) (qType : N) (c : CacheFile) : option error * CacheFile :=
  Batch_ (fun db =>
    let! (p, db) := createBucket c bucketRDRC db in
    let! db := bolt_CreateBucketIfNotExists (p ++ [transportName])%list db in
    bolt_Put (p ++ [transportName])%list (rdrc_key qName qType) (be_int64 ((now + cf_rdrcTimeout c) / 1000000000)%Z) db) c.

(** [SaveRDRCAsync]: before, and in the goroutine. *)
Definition SaveRDRCAsync_begin (transportName qName : string) (qType : N) (c : CacheFile) : CacheFile :=
  set_saveRDRC ({[ (transportName, qName, qType) ]} ∪ cf_saveRDRC c) c.
Definition SaveRDRCAsync_end (now : Z) (transportName qName : string) (qType : N) (c : CacheFile) : CacheFile :=
  let c := snd (SaveRDRC now transportName qName qType c) in
  set_saveRDRC (cf_saveRDRC c ∖ {[ (transportName, qName, qType) ]}) c.

(** ** Fake IPs (fakeip.go) *)

(** [address.AsSlice()]. *)
Definition Addr_AsSlice (a : Addr) : string := Addr_MarshalBinary (Addr_withoutZone a).

(** [FakeIPMetadata]: read once, and deleted. *)
Definition CacheFile_FakeIPMetadata (c : CacheFile) : result (option FakeIPMetadata) * CacheFile :=
  let '(r, c) := Batch (fun db =>
    if negb (bolt_Bucket [bucketFakeIP] db) then Err ErrNotExist
    else
      let metadataBinary := get_string (Some [bucketFakeIP]) keyMetadata db in
      if str_empty metadataBinary then Err ErrInvalid
      else
        let! db := bolt_Delete [bucketFakeIP] keyMetadata db in
        let! metadata := Metadata_UnmarshalBinary metadataBinary in
        Ok (metadata, db)) c in
  match r with
  | Ok metadata => (Ok (Some metadata), c)
  | Err _ => (Ok None, c)
  | Panic msg => (Panic msg, c)
  end.

Definition CacheFile_FakeIPSaveMetadata (metadata : FakeIPMetadata) (c : CacheFile) : option error * CacheFile :=
  Batch_ (fun db =>
    let! db := bolt_CreateBucketIfNotExists [bucketFakeIP] db in
    bolt_Put [bucketFakeIP] keyMetadata (Metadata_MarshalBinary metadata) db) c.

(** [FakeIPSaveMetadataAsync]: the timer keeps the metadata it was made with; and what happens when it fires. *)
Definition CacheFile_FakeIPSaveMetadataAsync (metadata : FakeIPMetadata) (c : CacheFile) : CacheFile :=
  match cf_saveMetadataTimer c with
  | None => set_timer (Some metadata) c
  | Some _ => c
  end.
Definition saveMetadataTimer_fires (c : CacheFile) : CacheFile :=
  match cf_saveMetadataTimer c with
  | None => c
  | Some metadata => snd (CacheFile_FakeIPSaveMetadata metadata c)
  end.

Definition domain_bucket (v4 : bool) : string := if v4 then bucketFakeIPDomain4 else bucketFakeIPDomain6.
Definition CacheFile_FakeIPStore (address : Addr) (domain : string) (c : CacheFile) : option error * CacheFile :=
  Batch_ (fun db =>
    let! db := bolt_CreateBucketIfNotExists [bucketFakeIP] db in
    let oldDomain := bolt_Get [bucketFakeIP] (Addr_AsSlice address) db in
    let! db := bolt_Put [bucketFakeIP] (Addr_AsSlice address) domain db in
    let p := [domain_bucket (Addr_Is4 address)] in
    let! db := bolt_CreateBucketIfNotExists p db in
    let! db := match oldDomain with Some old => bolt_Delete p old db | None => Ok db end in
    bolt_Put p domain (Addr_AsSlice address) db) c.

(** [FakeIPStoreAsync]: before, and in the goroutine. *)
Definition FakeIPStoreAsync_begin (address : Addr) (domain : string) (c : CacheFile) : CacheFile :=
  let c :=
    match cf_saveDomain c !! address with
    | Some oldDomain =>
        if Addr_Is4 address
        then set_saving (cf_saveDomain c) (delete oldDomain (cf_saveAddress4 c)) (cf_saveAddress6 c) c
        else set_saving (cf_saveDomain c) (cf_saveAddress4 c) (delete oldDomain (cf_saveAddress6 c)) c
    | None => c
    end in
  let d := <[address := domain]> (cf_saveDomain c) in
  if Addr_Is4 address
  then set_saving d (<[domain := address]> (cf_saveAddress4 c)) (cf_saveAddress6 c) c
  else set_saving d (cf_saveAddress4 c) (<[domain := address]> (cf_saveAddress6 c)) c.
Definition FakeIPStoreAsync_end (address : Addr) (domain : string) (c : CacheFile) : CacheFile :=
  let c := snd (CacheFile_FakeIPStore address domain c) in
  let d := delete address (cf_saveDomain c) in
  if Addr_Is4 address
  then set_saving d (delete domain (cf_saveAddress4 c)) (cf_saveAddress6 c) c
  else set_saving d (cf_saveAddress4 c) (delete domain (cf_saveAddress6 c)) c.

Definition CacheFile_FakeIPLoad (address : Addr) (c : CacheFile) : option string :=
  match cf_saveDomain c !! address with
  | Some cachedDomain => Some cachedDomain
  | None =>
      let domain :=
        if bolt_Bucket [bucketFakeIP] (cf_DB c) then get_string (Some [bucketFakeIP]) (Addr_AsSlice address) (cf_DB c) else "" in
      if str_empty domain then None else Some domain
  end.
Definition CacheFile_FakeIPLoadDomain (domain : string) (isIPv6 : bool) (c : CacheFile) : option Addr :=
  match (if negb isIPv6 then cf_saveAddress4 c !! domain else cf_saveAddress6 c !! domain) with
  | Some cachedAddress => Some cachedAddress
  | None =>
      let p := domain_bucket (negb isIPv6) in
      let address :=
        if bolt_Bucket [p] (cf_DB c) then M_AddrFromIP (get_string (Some [p]) domain (cf_DB c)) else AddrNone in
      if Addr_IsValid address then Some address else None
  end.
Definition CacheFile_FakeIPReset (c : CacheFile) : option error * CacheFile :=
  Batch_ (fun db =>
    let! db := bolt_DeleteBucket [bucketFakeIP] db in
    let! db := bolt_DeleteBucket [bucketFakeIPDomain4] db in
    bolt_DeleteBucket [bucketFakeIPDomain6] db) c.

(** The storage the fake IP store is given.  Reading malformed metadata panics; here it is absent. *)
#[export] Instance CacheFile_storage : FakeIPStorage CacheFile := {|
  LoadMetadata c := let '(r, c) := CacheFile_FakeIPMetadata c in (from_Ok None r, c);
  SaveMetadata := CacheFile_FakeIPSaveMetadata;
  SaveMetadataAsync := CacheFile_FakeIPSaveMetadataAsync;
  FakeIPStore := CacheFile_FakeIPStore;
  FakeIPLoad := CacheFile_FakeIPLoad;
  FakeIPLoadDomain := CacheFile_FakeIPLoadDomain;
  FakeIPReset := CacheFile_FakeIPReset
|}.
End CacheFile.
