(* ===== verification/CacheFileLaws.v ===== *)
(** * CacheFileLaws: what is stored in the cache file is loaded *)

From S2P Require Import Prelude GoStd NetIP FakeIP FakeIPCodec RuleSet Groups GroupLaws CacheFile.
From stdpp Require Import gmap.
Open Scope string_scope.
Open Scope list_scope.

Definition ErrBucketNotFound : error := ELib "bucket not found".

(** What bbolt documents, for operations that succeed: a bucket lies in its parent, a key in its
    bucket; a value that is put is got, and nothing else changes; deleting a bucket deletes what is
    in it, and fails when there is no such bucket. *)
Class BoltLaws `{B : Bolt} : Prop := {
  bucket_parent p k db : p <> [] -> bolt_Bucket (p ++ [k]) db = true -> bolt_Bucket p db = true;
  get_bucket p k v db : bolt_Get p k db = Some v -> bolt_Bucket p db = true;
  create_bucket p q db db' : bolt_CreateBucketIfNotExists p db = Ok db' ->
    bolt_Bucket q db' = bool_decide (p = q) || bolt_Bucket q db;
  create_get p q k db db' : bolt_CreateBucketIfNotExists p db = Ok db' -> bolt_Get q k db' = bolt_Get q k db;
  put_bucket p k v q db db' : bolt_Put p k v db = Ok db' -> bolt_Bucket q db' = bolt_Bucket q db;
  put_get p k v q x db db' : bolt_Put p k v db = Ok db' ->
    bolt_Get q x db' = if decide (p = q /\ k = x) then Some v else bolt_Get q x db;
  delete_bucket p k q db db' : bolt_Delete p k db = Ok db' -> bolt_Bucket q db' = bolt_Bucket q db;
  delete_get p k q x db db' : bolt_Delete p k db = Ok db' ->
    bolt_Get q x db' = if decide (p = q /\ k = x) then None else bolt_Get q x db;
  drop_bucket p q db db' : bolt_DeleteBucket p db = Ok db' ->
    bolt_Bucket q db' = bolt_Bucket q db && negb (bool_decide (p `prefix_of` q));
  drop_get p q k db db' : bolt_DeleteBucket p db = Ok db' ->
    bolt_Get q k db' = if decide (p `prefix_of` q) then None else bolt_Get q k db;
  drop_missing p db : bolt_Bucket p db = false -> bolt_DeleteBucket p db = Err ErrBucketNotFound
}.
(** What is written is read, and what follows is left. *)
Class CacheLibraryLaws `{CL : CacheLibrary} : Prop := {
  varbin_roundtrip s rest : varbin_Read (varbin_Write s +:+ rest) = Ok (s, rest);
  AddrFromIP_nil : M_AddrFromIP "" = AddrNone
}.

Section Laws.
Context {B : Bolt} {BL : BoltLaws} {CL : CacheLibrary} {CLL : CacheLibraryLaws}.
Implicit Types c : CacheFile.

(** ** Values *)

(** Whether buckets are missing does not matter for a value: a key is in its bucket. *)
Lemma get_string_bucket c key g db :
  get_string (bucket c key db) g db = default "" (bolt_Get (bucket_path c key) g db).
Proof.
  unfold bucket, bucket_path, get_string. destruct (cf_cacheID c) as [id|].
  - destruct (bolt_Bucket [id; key] db) eqn:E.
    + by rewrite (bucket_parent [id] key db) by done.
    + destruct (bolt_Get [id; key] g db) eqn:Eg; [|by destruct (bolt_Bucket [id] db)].
      apply get_bucket in Eg. congruence.
  - destruct (bolt_Bucket [key] db) eqn:E; [done|].
    destruct (bolt_Get [key] g db) eqn:Eg; [|done]. apply get_bucket in Eg. congruence.
Qed.
Lemma get_string_top p g db : (if bolt_Bucket p db then get_string (Some p) g db else "") = default "" (bolt_Get p g db).
Proof.
  unfold get_string. destruct (bolt_Bucket p db) eqn:E; [done|].
  destruct (bolt_Get p g db) eqn:Eg; [|done]. apply get_bucket in Eg. congruence.
Qed.

Lemma Batch_None f c : fst (Batch_ f c) = None -> exists db, f (cf_DB c) = Ok db /\ Batch_ f c = (None, set_DB db c).
Proof.
  unfold Batch_, Batch. destruct (f (cf_DB c)) as [db| |]; [|done..]. simpl.
  destruct (bolt_Commit db); [done|]. intros _. by exists db.
Qed.
(** An error leaves the file as it was. *)
Lemma Batch_Some f c e : fst (Batch_ f c) = Some e -> snd (Batch_ f c) = c.
Proof.
  unfold Batch_, Batch. destruct (f (cf_DB c)) as [db| |]; [|done..]. simpl. by destruct (bolt_Commit db).
Qed.

Lemma unless_failed f c (P : CacheFile -> Prop) :
  (fst (Batch_ f c) = None -> P (snd (Batch_ f c))) ->
  let '(err, c') := Batch_ f c in match err with Some _ => c' = c | None => P c' end.
Proof.
  intros H. pose proof (Batch_Some f c) as Hs. destruct (Batch_ f c) as [[e|] c']; [by apply (Hs e)|by apply H].
Qed.

Lemma createBucket_spec c key db p db' :
  createBucket c key db = Ok (p, db') -> p = bucket_path c key /\ forall q k, bolt_Get q k db' = bolt_Get q k db.
Proof.
  unfold createBucket, bucket_path. destruct (cf_cacheID c) as [id|].
  - destruct (bolt_CreateBucketIfNotExists [id] db) as [db1| |] eqn:E1; [|done..]. cbn [mbind result_bind].
    destruct (bolt_CreateBucketIfNotExists [id; key] db1) as [db2| |] eqn:E2; [|done..]. intros [= <- <-].
    split; [done|]. intros q k. by rewrite (create_get _ _ _ _ _ E2), (create_get _ _ _ _ _ E1).
  - destruct (bolt_CreateBucketIfNotExists [key] db) as [db1| |] eqn:E1; [|done..]. intros [= <- <-].
    split; [done|]. intros q k. by rewrite (create_get _ _ _ _ _ E1).
Qed.

(** Putting a value in a bucket of the file. *)
Lemma put_value c key g v :
  let f := fun db => let! (p, db) := createBucket c key db in bolt_Put p g v db in
  fst (Batch_ f c) = None ->
  exists db, Batch_ f c = (None, set_DB db c) /\
    forall q x, bolt_Get q x db = if decide (bucket_path c key = q /\ g = x) then Some v else bolt_Get q x (cf_DB c).
Proof.
  intros f (db & E & ->)%Batch_None. unfold f in E. exists db. split; [done|]. intros q x.
  destruct (createBucket c key (cf_DB c)) as [[p db1]| |] eqn:E1; [|done..]. cbn [mbind result_bind] in E.
  apply createBucket_spec in E1 as [-> Hget]. by rewrite (put_get _ _ _ _ _ _ _ E), Hget.
Qed.

Lemma bucket_path_eq c key key' : bucket_path c key = bucket_path c key' <-> key = key'.
Proof. unfold bucket_path. destruct (cf_cacheID c); naive_solver. Qed.
Lemma bucket_path_set_DB db c key : bucket_path (set_DB db c) key = bucket_path c key.
Proof. done. Qed.
(** what is stored is loaded, and nothing else changes: the choice of a group, whether a group is
    expanded, and the mode; a call that fails changes nothing. *)
Theorem cachefile_values c group :
  (forall selected, let '(err, c') := CacheFile_StoreSelected group selected c in
    match err with
    | Some _ => c' = c
    | None =>
        (forall g, CacheFile_LoadSelected g c' = if decide (group = g) then selected else CacheFile_LoadSelected g c) /\
        (forall g, LoadGroupExpand g c' = LoadGroupExpand g c)
    end) /\
  (forall isExpand, let '(err, c') := StoreGroupExpand group isExpand c in
    match err with
    | Some _ => c' = c
    | None =>
        (forall g, LoadGroupExpand g c' = if decide (group = g) then Some isExpand else LoadGroupExpand g c) /\
        (forall g, CacheFile_LoadSelected g c' = CacheFile_LoadSelected g c)
    end) /\
  (forall mode, let '(err, c') := StoreMode mode c in
    match err with Some _ => c' = c | None => LoadMode c' = mode end).
Proof.
  split_and!.
  - intros selected. apply unless_failed. intros H. destruct (put_value c bucketSelected group selected H) as (db & E & Hget).
    rewrite E. cbn [snd]. unfold CacheFile_LoadSelected, LoadGroupExpand.
    split; intros g; rewrite !get_string_bucket, bucket_path_set_DB, Hget.
    + destruct (decide (group = g)) as [->|Hne]; [by rewrite decide_True|]. by rewrite decide_False by tauto.
    + by rewrite decide_False by (intros [?%bucket_path_eq _]; done).
  - intros isExpand. apply unless_failed. intros H.
    destruct (put_value c bucketExpand group (String (byte_of (if isExpand then 1 else 0)) "") H) as (db & E & Hget).
    rewrite E. cbn [snd]. unfold CacheFile_LoadSelected, LoadGroupExpand.
    split; intros g; rewrite !get_string_bucket, bucket_path_set_DB, Hget.
    + destruct (decide (group = g)) as [->|Hne]; [|by rewrite decide_False by tauto].
      rewrite decide_True by done. by destruct isExpand.
    + by rewrite decide_False by (intros [?%bucket_path_eq _]; done).
  - intros mode. apply unless_failed. intros (db & Ef & E)%Batch_None. rewrite E. cbn [snd].
    destruct (bolt_CreateBucketIfNotExists [bucketMode] (cf_DB c)) as [db1| |] eqn:E1; [|done..]. cbn [mbind result_bind] in Ef.
    unfold LoadMode. rewrite get_string_top. change (mode_key (set_DB db c)) with (mode_key c).
    by rewrite (put_get _ _ _ _ _ _ _ Ef), decide_True.
Qed.

#[export] Instance CacheFile_selected_laws : SelectedStoreLaws (SS := CacheFile).
Proof.
  split. intros group selected c H. simpl in *. unfold CacheFile_StoreSelected in H |- *.
  destruct (put_value c bucketSelected group selected H) as (db & -> & Hget). simpl.
  unfold CacheFile_LoadSelected. by rewrite get_string_bucket, bucket_path_set_DB, Hget, decide_True.
Qed.

(** ** Binaries *)

Definition in_int64 (z : Z) : Prop := (- 2 ^ 63 <= z < 2 ^ 63)%Z.
Lemma wrap_int64_id z : in_int64 z -> wrap_int64 z = z.
Proof. unfold in_int64, wrap_int64. intros H. rewrite Z.mod_small by lia. lia. Qed.
Lemma wrap_int64_mod z : wrap_int64 (z mod 2 ^ 64) = wrap_int64 z.
Proof. unfold wrap_int64. by rewrite Zplus_mod_idemp_l. Qed.
Lemma be_int64_roundtrip z : in_int64 z -> wrap_int64 (Z.of_N (be_val (be_int64 z))) = z.
Proof.
  intros Hz. unfold be_int64. pose proof (Z.mod_pos_bound z (2 ^ 64) ltac:(lia)) as Hb.
  rewrite be_roundtrip.
  - rewrite Z2N.id by lia. by rewrite wrap_int64_mod, wrap_int64_id.
  - change (256 ^ N.of_nat 8)%N with (Z.to_N (2 ^ 64)). apply Z2N.inj_lt; lia.
Qed.

(** The saved form loses what is finer than a second. *)
Definition to_seconds (s : SavedBinary) : SavedBinary :=
  mkSavedBinary (sb_Content s) (time_Unix (Unix (sb_LastUpdated s))) (sb_LastEtag s).
Lemma read_bytes_app n a b : String.length a = n -> read_bytes n (a +:+ b) = Ok (a, b).
Proof.
  intros H. unfold read_bytes. rewrite str_length_app, str_take_app, str_drop_app by done.
  by destruct (Nat.ltb_spec (String.length a + String.length b) n); [lia|].
Qed.
Lemma SavedBinary_roundtrip s :
  in_int64 (Unix (sb_LastUpdated s)) ->
  SavedBinary_UnmarshalBinary (SavedBinary_MarshalBinary s) = Ok (to_seconds s).
Proof.
  intros Ht. unfold SavedBinary_MarshalBinary, SavedBinary_UnmarshalBinary.
  rewrite read_bytes_app by done. cbn [mbind result_bind]. rewrite varbin_roundtrip. cbn [mbind result_bind].
  rewrite read_bytes_app by apply be_bytes_length. cbn [mbind result_bind].
  rewrite <- (str_app_nil (varbin_Write (sb_LastEtag s))), varbin_roundtrip. cbn [mbind result_bind].
  by rewrite be_int64_roundtrip.
Qed.

(** a rule-set or another binary that is saved is loaded, with its time cut to seconds, and the others
    are left; rule-sets and other binaries share their names.  A save that fails changes nothing. *)
Theorem cachefile_binaries c tag s :
  in_int64 (Unix (sb_LastUpdated s)) ->
  let '(err, c') := SaveRuleSet tag s c in
  match err with
  | Some _ => c' = c
  | None => LoadRuleSet tag c' = Some (to_seconds s) /\ LoadBinary tag c' = Some (to_seconds s) /\
      forall t, t <> tag -> LoadRuleSet t c' = LoadRuleSet t c
  end.
Proof.
  intros Ht. apply unless_failed. intros H.
  destruct (put_value c bucketRuleSet tag (SavedBinary_MarshalBinary s) H) as (db & E & Hget). rewrite E. cbn [snd].
  assert (forall t c, LoadBinary t c = let b := default "" (bolt_Get (bucket_path c bucketRuleSet) t (cf_DB c)) in
    if str_empty b then None else match SavedBinary_UnmarshalBinary b with Ok s => Some s | _ => None end) as HL.
  { intros t x. cbv zeta. rewrite <- get_string_bucket. unfold LoadBinary. by destruct (bucket x bucketRuleSet (cf_DB x)). }
  assert (LoadBinary tag (set_DB db c) = Some (to_seconds s)) as HS.
  { rewrite HL. cbv zeta. rewrite bucket_path_set_DB, Hget, decide_True by done. simpl default.
    by rewrite SavedBinary_roundtrip. }
  split; [done|split; [done|]]. intros t Hne. unfold LoadRuleSet. rewrite !HL. cbv zeta.
  rewrite bucket_path_set_DB, Hget, decide_False by naive_solver. done.
Qed.

(** ** Rejected answers *)

Definition rdrc_path c (transportName : string) : list string := bucket_path c bucketRDRC ++ [transportName].
(** What an entry says at a time. *)
Definition rdrc_answer (now : Z) (content : option string) : result bool :=
  match content with
  | None => Ok false
  | Some content =>
      if (String.length content <? 8)%nat then Panic "runtime error: index out of range"
      else Ok (negb (wrap_int64 (Z.of_N (be_val (str_take 8 content))) * 1000000000 <? now)%Z)
  end.

Lemma rdrc_bucket_path c tr db :
  rdrc_bucket c tr db = if bolt_Bucket (rdrc_path c tr) db then Some (rdrc_path c tr) else None.
Proof.
  unfold rdrc_bucket, rdrc_path, bucket, bucket_path. destruct (cf_cacheID c) as [id|]; simpl.
  - destruct (bolt_Bucket [id; bucketRDRC; tr] db) eqn:E.
    + pose proof (bucket_parent [id; bucketRDRC] tr db ltac:(done) E) as E1.
      pose proof (bucket_parent [id] bucketRDRC db ltac:(done) E1) as E2. rewrite E2, E1. simpl. by rewrite E.
    + destruct (bolt_Bucket [id] db), (bolt_Bucket [id; bucketRDRC] db); simpl; by rewrite ?E.
  - destruct (bolt_Bucket [bucketRDRC; tr] db) eqn:E.
    + pose proof (bucket_parent [bucketRDRC] tr db ltac:(done) E) as E1. rewrite E1. simpl. by rewrite E.
    + destruct (bolt_Bucket [bucketRDRC] db); simpl; by rewrite ?E.
Qed.

Lemma LoadRDRC_answer now tr q ty c :
  fst (LoadRDRC now tr q ty c) =
  if bool_decide ((tr, q, ty) ∈ cf_saveRDRC c) then Ok true
  else rdrc_answer now (bolt_Get (rdrc_path c tr) (rdrc_key q ty) (cf_DB c)).
Proof.
  unfold LoadRDRC. case_bool_decide; [done|]. rewrite rdrc_bucket_path.
  destruct (bolt_Bucket (rdrc_path c tr) (cf_DB c)) eqn:Eb.
  - destruct (bolt_Get _ _ _) as [content|]; [|done]. simpl. destruct (_ <? 8)%nat; [done|].
    by destruct (_ <? now)%Z.
  - destruct (bolt_Get (rdrc_path c tr) (rdrc_key q ty) (cf_DB c)) eqn:Eg; [|done]. apply get_bucket in Eg. congruence.
Qed.

Lemma rdrc_key_inj q ty q' ty' :
  (ty < 2 ^ 16)%N -> (ty' < 2 ^ 16)%N -> rdrc_key q ty = rdrc_key q' ty' -> q = q' /\ ty = ty'.
Proof.
  intros H H' E. unfold rdrc_key in E. rewrite !N.mod_small in E by done.
  pose proof (f_equal (str_take 2) E) as E1. pose proof (f_equal (str_drop 2) E) as E2.
  rewrite !str_take_app in E1 by apply be_bytes_length. rewrite !str_drop_app in E2 by apply be_bytes_length.
  split; [done|]. rewrite <- (be_roundtrip 2 ty), <- (be_roundtrip 2 ty') by done. by rewrite E1.
Qed.

(** a rejected answer is remembered: while its save is under way it is rejected; once saved, exactly until
    its timeout, in seconds; the answers to other questions and of other transports stay what they were.  A
    save that fails leaves the file as it was. *)
Theorem rdrc_until_timeout c t0 tr q ty :
  (ty < 2 ^ 16)%N -> (tr, q, ty) ∉ cf_saveRDRC c -> in_int64 ((t0 + cf_rdrcTimeout c) / 1000000000) ->
  (forall now, LoadRDRC now tr q ty (SaveRDRCAsync_begin tr q ty c) = (Ok true, SaveRDRCAsync_begin tr q ty c)) /\
  let '(err, c') := SaveRDRC t0 tr q ty c in
  match err with
  | Some _ => c' = c
  | None =>
      (forall now, fst (LoadRDRC now tr q ty c') = Ok (now <=? (t0 + cf_rdrcTimeout c) / 1000000000 * 1000000000)%Z) /\
      (forall now tr' q' ty', (ty' < 2 ^ 16)%N -> (tr', q', ty') <> (tr, q, ty) ->
        fst (LoadRDRC now tr' q' ty' c') = fst (LoadRDRC now tr' q' ty' c))
  end.
Proof.
  intros Hty Hno Hint. split.
  { intros now. unfold LoadRDRC. rewrite bool_decide_eq_true_2; [done|]. simpl. set_solver. }
  apply unless_failed. intros (db & Ef & E)%Batch_None. rewrite E. cbn [snd].
  destruct (createBucket c bucketRDRC (cf_DB c)) as [[p db1]| |] eqn:E1; [|done..]. cbn [mbind result_bind] in Ef.
  destruct (bolt_CreateBucketIfNotExists _ db1) as [db2| |] eqn:E2; [|done..].
  apply createBucket_spec in E1 as [-> Hget]. fold (rdrc_path c tr) in Ef, E2. cbn [mbind result_bind] in Ef.
  assert (forall r k, bolt_Get r k db = if decide (rdrc_path c tr = r /\ rdrc_key q ty = k)
    then Some (be_int64 ((t0 + cf_rdrcTimeout c) / 1000000000)) else bolt_Get r k (cf_DB c)) as HG.
  { intros r k. by rewrite (put_get _ _ _ _ _ _ _ Ef), (create_get _ _ _ _ _ E2), Hget. }
  change (rdrc_path c) with (rdrc_path (set_DB db c)) in HG.
  split.
  - intros now. rewrite LoadRDRC_answer. cbn [cf_saveRDRC set_DB cf_DB]. rewrite bool_decide_eq_false_2, HG, decide_True by done.
    unfold rdrc_answer. unfold be_int64 at 1. rewrite be_bytes_length. cbn [Nat.ltb Nat.leb].
    rewrite <- (str_app_nil (be_int64 _)), str_take_app by apply be_bytes_length.
    rewrite be_int64_roundtrip by done. f_equal. rewrite Z.leb_antisym. done.
  - intros now tr' q' ty' Hty' Hne. rewrite !LoadRDRC_answer. cbn [cf_saveRDRC set_DB cf_DB]. rewrite HG.
    rewrite decide_False; [done|]. intros [Hp Hk]. apply Hne. apply rdrc_key_inj in Hk as [-> ->]; [|done..].
    unfold rdrc_path in Hp. apply app_inj_tail in Hp as [_ ->]. done.
Qed.
End Laws.
