(* ===== verification/CacheFileFakeIP.v ===== *)
(** * CacheFileFakeIP: the fake IPs of the cache file

    The storage in the cache file does what the storage in memory does, as long as the database
    works, but for two calls: resetting it fails when one of its buckets was never made, and the
    metadata that is saved in the background is the first one given. *)

From S2P Require Import Prelude GoStd NetIP FakeIP FakeIPLaws FakeIPCodec RuleSet Groups GroupLaws CacheFile CacheFileLaws.
From stdpp Require Import gmap.
Open Scope string_scope.
Open Scope list_scope.

(** Addresses that are read back from their bytes: without zone, and not an IPv4 address in an IPv6 one. *)
Definition encodable (a : Addr) : Prop :=
  match a with
  | AddrNone => False
  | Addr4 v => (v < 2 ^ 32)%N
  | Addr6 v zone => zone = "" /\ (v < 2 ^ 128)%N /\ N.shiftr v 32 <> 65535%N
  end.
Class AddressLaws `{CL : CacheLibrary} : Prop := {
  AddrFromIP_AsSlice a : encodable a -> M_AddrFromIP (Addr_AsSlice a) = a
}.

Section FakeIP.
Context {B : Bolt} {BL : BoltLaws} {CL : CacheLibrary} {CLL : CacheLibraryLaws} {AL : AddressLaws}.
Implicit Types (c : CacheFile) (m : MemoryStorage).

Lemma AsSlice_inj a b : encodable a -> encodable b -> Addr_AsSlice a = Addr_AsSlice b -> a = b.
Proof. intros Ha Hb E. by rewrite <- (AddrFromIP_AsSlice a Ha), <- (AddrFromIP_AsSlice b Hb), E. Qed.
Lemma AsSlice_length a : encodable a -> String.length (Addr_AsSlice a) = if Addr_Is4 a then 4%nat else 16%nat.
Proof.
  destruct a as [|v|v zone]; [done| |]; intros H; [apply be_bytes_length|].
  unfold Addr_AsSlice, Addr_MarshalBinary, Addr_withoutZone. by rewrite str_length_app, be_bytes_length.
Qed.
Lemma encodable_valid a : encodable a -> Addr_IsValid a = true.
Proof. by destruct a. Qed.
Lemma AsSlice_metadata a : encodable a -> Addr_AsSlice a <> keyMetadata.
Proof. intros H%AsSlice_length E. rewrite E in H. by destruct (Addr_Is4 a). Qed.

Definition domain_cache (v4 : bool) m : gmap string Addr := if v4 then ms_domainCache4 m else ms_domainCache6 m.

(** A cache file that holds what a storage in memory holds; nothing is being saved. *)
Record same_fakeips c m : Prop := {
  sf_idle : cf_saveDomain c = ∅ /\ cf_saveAddress4 c = ∅ /\ cf_saveAddress6 c = ∅;
  sf_addresses a : encodable a -> bolt_Get [bucketFakeIP] (Addr_AsSlice a) (cf_DB c) = ms_addressCache m !! a;
  sf_names a d : ms_addressCache m !! a = Some d -> d <> "";
  sf_domains v4 d : bolt_Get [domain_bucket v4] d (cf_DB c) = Addr_AsSlice <$> (domain_cache v4 m !! d);
  sf_encodable v4 d a : domain_cache v4 m !! d = Some a -> encodable a
}.

Lemma Load_same c m a : same_fakeips c m -> encodable a -> CacheFile_FakeIPLoad a c = Memory_FakeIPLoad a m.
Proof.
  intros [(H1 & _ & _) Ha Hn _ _] He. unfold CacheFile_FakeIPLoad, Memory_FakeIPLoad. rewrite H1, lookup_empty, get_string_top, Ha by done.
  specialize (Hn a). destruct (ms_addressCache m !! a) as [d|]; [|done]. specialize (Hn d eq_refl). by destruct d.
Qed.
Lemma LoadDomain_same c m d v6 : same_fakeips c m -> CacheFile_FakeIPLoadDomain d v6 c = Memory_FakeIPLoadDomain d v6 m.
Proof.
  intros [(_ & H4 & H6) _ _ Hd He]. unfold CacheFile_FakeIPLoadDomain, Memory_FakeIPLoadDomain.
  assert ((if negb v6 then cf_saveAddress4 c !! d else cf_saveAddress6 c !! d) = None) as -> by by rewrite H4, H6; destruct v6.
  assert ((if bolt_Bucket [domain_bucket (negb v6)] (cf_DB c)
     then M_AddrFromIP (get_string (Some [domain_bucket (negb v6)]) d (cf_DB c)) else AddrNone) =
    M_AddrFromIP (default "" (bolt_Get [domain_bucket (negb v6)] d (cf_DB c)))) as ->.
  { rewrite <- get_string_top. destruct (bolt_Bucket _ _); [done|]. by rewrite AddrFromIP_nil. }
  rewrite Hd. specialize (He (negb v6) d).
  assert ((if negb v6 then ms_domainCache4 m !! d else ms_domainCache6 m !! d) = domain_cache (negb v6) m !! d) as -> by by destruct v6.
  destruct (domain_cache (negb v6) m !! d) as [a|]; simpl; [|by rewrite AddrFromIP_nil].
  specialize (He a eq_refl). by rewrite AddrFromIP_AsSlice, encodable_valid.
Qed.

Lemma Addr_domain_cache a d m v4 :
  domain_cache v4 (snd (Memory_FakeIPStore a d m)) =
  if bool_decide (v4 = Addr_Is4 a) then
    <[d := a]> (match ms_addressCache m !! a with Some old => delete old (domain_cache v4 m) | None => domain_cache v4 m end)
  else domain_cache v4 m.
Proof.
  unfold Memory_FakeIPStore, domain_cache. simpl. destruct (ms_addressCache m !! a), (Addr_Is4 a), v4; done.
Qed.
Lemma Addr_address_cache a d m : ms_addressCache (snd (Memory_FakeIPStore a d m)) = <[a := d]> (ms_addressCache m).
Proof. unfold Memory_FakeIPStore. simpl. destruct (ms_addressCache m !! a), (Addr_Is4 a); done. Qed.

Lemma domain_bucket_apart v4 : [domain_bucket v4] <> [bucketFakeIP].
Proof. by destruct v4. Qed.
Lemma domain_bucket_inj v4 v4' : [domain_bucket v4] = [domain_bucket v4'] -> v4 = v4'.
Proof. by destruct v4, v4'. Qed.

(** Storing: the same again. *)
Lemma Store_same c m a d :
  same_fakeips c m -> encodable a -> d <> "" -> fst (CacheFile_FakeIPStore a d c) = None ->
  same_fakeips (snd (CacheFile_FakeIPStore a d c)) (snd (Memory_FakeIPStore a d m)).
Proof.
  intros [Hi Ha Hn Hd He] Hea Hne (db & Ef & E)%Batch_None. change (CacheFile_FakeIPStore a d c = (None, set_DB db c)) in E.
  rewrite E. cbn [snd]. cbv zeta in Ef.
  set (p := [domain_bucket (Addr_Is4 a)]) in *.
  destruct (bolt_CreateBucketIfNotExists [bucketFakeIP] (cf_DB c)) as [db1| |] eqn:E1; [|done..]. cbn [mbind result_bind] in Ef.
  destruct (bolt_Put [bucketFakeIP] (Addr_AsSlice a) d db1) as [db2| |] eqn:E2; [|done..]. cbn [mbind result_bind] in Ef.
  destruct (bolt_CreateBucketIfNotExists p db2) as [db3| |] eqn:E3; [|done..]. cbn [mbind result_bind] in Ef.
  rewrite (create_get _ _ _ _ _ E1), Ha in Ef by done.
  destruct (match ms_addressCache m !! a with Some old => bolt_Delete p old db3 | None => Ok db3 end) as [db4| |] eqn:E4; [|done..].
  cbn [mbind result_bind] in Ef.
  assert (forall q k, bolt_Get q k db3 = if decide ([bucketFakeIP] = q /\ Addr_AsSlice a = k) then Some d else bolt_Get q k (cf_DB c)) as H3.
  { intros q k. by rewrite (create_get _ _ _ _ _ E3), (put_get _ _ _ _ _ _ _ E2), (create_get _ _ _ _ _ E1). }
  assert (forall q k, bolt_Get q k db4 =
    if decide (p = q /\ ms_addressCache m !! a = Some k) then None else bolt_Get q k db3) as H4.
  { intros q k. destruct (ms_addressCache m !! a) as [old|].
    - rewrite (delete_get _ _ _ _ _ _ E4). repeat case_decide; naive_solver.
    - injection E4 as <-. by rewrite decide_False by naive_solver. }
  assert (forall q k, bolt_Get q k db = if decide (p = q /\ d = k) then Some (Addr_AsSlice a) else bolt_Get q k db4) as HG
    by (intros q k; by rewrite (put_get _ _ _ _ _ _ _ Ef)).
  split; cbn [cf_DB set_DB]; [done|..].
  - intros b Heb. rewrite Addr_address_cache, HG, decide_False by (intros [H _]; by apply domain_bucket_apart in H).
    rewrite H4, decide_False by (intros [H _]; by apply domain_bucket_apart in H). rewrite H3, lookup_insert.
    destruct (decide (a = b)) as [->|Hab]; [by rewrite decide_True|].
    rewrite decide_False by (intros [_ H]; by apply Hab, AsSlice_inj). by apply Ha.
  - intros b e. rewrite Addr_address_cache, lookup_insert. case_decide; [by intros [= <-]|apply Hn].
  - intros v4 e. rewrite Addr_domain_cache, HG, H4, H3.
    rewrite (decide_False (P := [bucketFakeIP] = _ /\ _)) by (intros [H _]; symmetry in H; by apply domain_bucket_apart in H).
    case_bool_decide as Hv.
    + subst v4. fold p. rewrite lookup_insert. destruct (decide (d = e)) as [->|Hde]; [by rewrite decide_True|].
      rewrite (decide_False (P := p = p /\ d = e)) by tauto. rewrite (Hd (Addr_Is4 a) e : bolt_Get p e (cf_DB c) = _).
      destruct (ms_addressCache m !! a) as [old|]; [|by rewrite decide_False by naive_solver].
      rewrite lookup_delete. destruct (decide (old = e)) as [->|Hoe]; [by rewrite decide_True|].
      by rewrite decide_False by naive_solver.
    + assert (p <> [domain_bucket v4]) as Hp by (intros H%domain_bucket_inj; congruence).
      rewrite !decide_False by tauto. apply Hd.
  - intros v4 e b. rewrite Addr_domain_cache. case_bool_decide; [|apply He].
    rewrite lookup_insert. case_decide; [by intros [= <-]|]. destruct (ms_addressCache m !! a) as [old|]; [|apply He].
    rewrite lookup_delete. case_decide; [done|apply He].
Qed.

(** What does not touch the fake IPs keeps them. *)
Lemma same_other c m db :
  same_fakeips c m ->
  (forall a, encodable a -> bolt_Get [bucketFakeIP] (Addr_AsSlice a) db = bolt_Get [bucketFakeIP] (Addr_AsSlice a) (cf_DB c)) ->
  (forall v4 d, bolt_Get [domain_bucket v4] d db = bolt_Get [domain_bucket v4] d (cf_DB c)) ->
  same_fakeips (set_DB db c) m.
Proof.
  intros [Hi Ha Hn Hd He] H1 H2. split; cbn [cf_DB set_DB]; [done| |done| |done].
  - intros a Hea. rewrite H1 by done. by apply Ha.
  - intros v4 d. rewrite H2. apply Hd.
Qed.
Lemma SaveMetadata_get c md :
  fst (CacheFile_FakeIPSaveMetadata md c) = None ->
  exists db, CacheFile_FakeIPSaveMetadata md c = (None, set_DB db c) /\
    forall q k, bolt_Get q k db =
      if decide ([bucketFakeIP] = q /\ keyMetadata = k) then Some (Metadata_MarshalBinary md) else bolt_Get q k (cf_DB c).
Proof.
  intros (db & Ef & E)%Batch_None. exists db. split; [exact E|]. intros q k.
  destruct (bolt_CreateBucketIfNotExists [bucketFakeIP] (cf_DB c)) as [db1| |] eqn:E1; [|done..]. cbn [mbind result_bind] in Ef.
  by rewrite (put_get _ _ _ _ _ _ _ Ef), (create_get _ _ _ _ _ E1).
Qed.
Lemma SaveMetadata_same c m md :
  same_fakeips c m -> fst (CacheFile_FakeIPSaveMetadata md c) = None -> same_fakeips (snd (CacheFile_FakeIPSaveMetadata md c)) m.
Proof.
  intros H (db & E & HG)%SaveMetadata_get. rewrite E. apply same_other; [done| |].
  - intros a Ha. rewrite HG, decide_False; [done|]. intros [_ Hk]. by apply (AsSlice_metadata a).
  - intros v4 d. rewrite HG, decide_False; [done|]. intros [Hq _]. symmetry in Hq. by apply domain_bucket_apart in Hq.
Qed.
Lemma Async_same c m md : same_fakeips c m -> same_fakeips (CacheFile_FakeIPSaveMetadataAsync md c) m.
Proof. intros H. unfold CacheFile_FakeIPSaveMetadataAsync. destruct (cf_saveMetadataTimer c); [done|]. by destruct H. Qed.

(** A reset empties the storage, if all its buckets are there, and does nothing otherwise. *)
Lemma Reset_spec c m :
  same_fakeips c m ->
  (fst (CacheFile_FakeIPReset c) = None /\ same_fakeips (snd (CacheFile_FakeIPReset c)) NewMemoryStorage) \/
  snd (CacheFile_FakeIPReset c) = c.
Proof.
  intros H. destruct (fst (CacheFile_FakeIPReset c)) as [e|] eqn:E; [right; by apply (Batch_Some _ c e)|left]. split; [done|].
  apply Batch_None in E as (db & Ef & E). change (CacheFile_FakeIPReset c = (None, set_DB db c)) in E. rewrite E. cbn [snd].
  destruct (bolt_DeleteBucket [bucketFakeIP] (cf_DB c)) as [db1| |] eqn:E1; [|done..]. cbn [mbind result_bind] in Ef.
  destruct (bolt_DeleteBucket [bucketFakeIPDomain4] db1) as [db2| |] eqn:E2; [|done..]. cbn [mbind result_bind] in Ef.
  destruct H as [Hi _ _ _ _]. split; cbn [cf_DB set_DB]; [done| |done| |].
  - intros a _. rewrite (drop_get _ _ _ _ _ Ef). case_decide; [done|]. rewrite (drop_get _ _ _ _ _ E2). case_decide; [done|].
    rewrite (drop_get _ _ _ _ _ E1). by rewrite decide_True.
  - intros v4 d. rewrite (drop_get _ _ _ _ _ Ef), (drop_get _ _ _ _ _ E2).
    by destruct v4; repeat (rewrite decide_True by done || case_decide).
  - by intros [].
Qed.
Lemma Reset_fails c :
  bolt_Bucket [bucketFakeIPDomain6] (cf_DB c) = false \/ bolt_Bucket [bucketFakeIPDomain4] (cf_DB c) = false ->
  snd (CacheFile_FakeIPReset c) = c.
Proof.
  intros H. destruct (fst (CacheFile_FakeIPReset c)) as [e|] eqn:E; [by apply (Batch_Some _ c e)|exfalso].
  apply Batch_None in E as (db & Ef & _).
  destruct (bolt_DeleteBucket [bucketFakeIP] (cf_DB c)) as [db1| |] eqn:E1; [|done..]. cbn [mbind result_bind] in Ef.
  destruct (bolt_DeleteBucket [bucketFakeIPDomain4] db1) as [db2| |] eqn:E2; [|done..]. cbn [mbind result_bind] in Ef.
  destruct H as [H|H].
  - rewrite drop_missing in Ef; [done|]. by rewrite (drop_bucket _ _ _ _ E2), (drop_bucket _ _ _ _ E1), H.
  - rewrite drop_missing in E2; [done|]. by rewrite (drop_bucket _ _ _ _ E1), H.
Qed.

(** ** The store on the cache file *)

(** An IPv6 range lies above the addresses that hold IPv4 ones. *)
Definition plain_range (v6 : bool) (range : Prefix) : Prop := range_ok v6 range /\ (v6 = true -> (2 ^ 48 <= base range)%N).
Lemma plain_encodable v6 range k : plain_range v6 range -> encodable (ring v6 range k).
Proof.
  intros [Hok Hbase]. pose proof (last_value_bound v6 range Hok) as Hl. pose proof (ring_bound v6 range Hok k) as Hb.
  unfold ring, mk, width in *. destruct v6; simpl; [|lia]. specialize (Hbase eq_refl). split; [done|split; [lia|]].
  rewrite N.shiftr_div_pow2. set (x := (base range + 2 + slot true range k)%N) in *. intros E.
  assert (2 ^ 48 / 2 ^ 32 <= x / 2 ^ 32)%N as H by (apply N.Div0.div_le_mono; lia). rewrite E in H. by vm_compute in H.
Qed.

Record same_store (s : Store CacheFile) (t : Store MemoryStorage) : Prop := {
  ss_ranges v6 : range_of v6 s = range_of v6 t;
  ss_currents v6 : current_of v6 s = current_of v6 t;
  ss_ring v6 : (plain_range v6 (range_of v6 t) /\ exists k, current_of v6 t = ring v6 (range_of v6 t) k) \/ current_of v6 t = AddrNone;
  ss_storage_same : exists c m, s_storage s = Some c /\ s_storage t = Some m /\ same_fakeips c m
}.

(** Storing works: the database and its disk do. *)
Hypothesis database_works : forall a d c, encodable a -> d <> "" -> fst (CacheFile_FakeIPStore a d c) = None.

Lemma same_create s t d v6 :
  same_store s t -> d <> "" ->
  fst (Store_Create d v6 s) = fst (Store_Create d v6 t) /\ same_store (snd (Store_Create d v6 s)) (snd (Store_Create d v6 t)).
Proof.
  intros [Hr Hc Hring (c & m & Hs & Ht & Hsame)] Hd. pose proof (LoadDomain_same c m d v6 Hsame) as HL.
  destruct (Memory_FakeIPLoadDomain d v6 m) as [a|] eqn:Em.
  { unfold Store_Create. rewrite Hs, Ht. simpl. rewrite HL, Em. split; [done|]. split; [done|done|done|]. by exists c, m. }
  destruct (Addr_IsValid (current_of v6 t)) eqn:Hv.
  - assert (FakeIPLoadDomain d v6 c = None) as HL' by exact HL. assert (FakeIPLoadDomain d v6 m = None) as Em' by exact Em.
    rewrite (Store_Create_new v6 s c d Hs HL') by (by rewrite Hc). rewrite (Store_Create_new v6 t m d Ht Em' Hv).
    rewrite Hr, Hc. destruct (Hring v6) as [[Hplain [k Ek]]|E]; [|by rewrite E in Hv].
    rewrite Ek, next_address_ring by apply Hplain. set (a := ring v6 (range_of v6 t) (k + 1)).
    assert (encodable a) as Ha by by apply plain_encodable. split; [done|]. cbn [snd].
    split.
    + intros w. specialize (Hr w). by destruct v6, w.
    + intros w. specialize (Hc w). by destruct v6, w.
    + intros w. destruct (decide (w = v6)) as [->|Hw].
      * left. replace (range_of v6 (with_storage (stored a d m (with_current v6 a t)) (with_current v6 a t)))
          with (range_of v6 t) by by destruct v6. split; [done|]. exists (k + 1)%N. by destruct v6.
      * specialize (Hring w). by destruct v6, w.
    + eexists _, _. split; [reflexivity|split; [reflexivity|]]. unfold stored. simpl.
      apply Async_same, Store_same; [done|done|done|by apply database_works].
  - unfold Store_Create. rewrite Hs, Ht. simpl. rewrite HL, Em.
    pose proof (Hc v6) as Hc6. unfold current_of in Hv, Hc6. rewrite Hc6, Hv. simpl. split; [done|].
    split; [done|done|done|]. by exists c, m.
Qed.

(** The answers to requests for domains, one after the other. *)
Fixpoint answers {ST} `{FakeIPStorage ST} (l : list (string * bool)) (s : Store ST) : list (result Addr) :=
  match l with
  | [] => []
  | (d, v6) :: l => let '(r, s) := Store_Create d v6 s in r :: answers l s
  end.

Lemma same_answers l : forall s t,
  same_store s t -> Forall (fun r => fst r <> "") l ->
  answers l s = answers l t /\ same_store (requests l s) (requests l t).
Proof.
  induction l as [|[d v6] l IH]; intros s t Hst Hl; [done|]. apply Forall_cons in Hl as [Hd Hl]. simpl in Hd.
  destruct (same_create s t d v6 Hst Hd) as [H1 H2]. cbn [answers]. unfold requests in *. cbn [foldl fst snd].
  destruct (Store_Create d v6 s) as [r s'], (Store_Create d v6 t) as [r' t']. simpl in H1, H2. subst r'.
  destruct (IH s' t' H2 Hl) as [-> H3]. by split.
Qed.

Lemma LoadMetadata_None c : fst (LoadMetadata c) = None -> snd (LoadMetadata c) = c.
Proof.
  simpl. unfold CacheFile_FakeIPMetadata, Batch.
  destruct (bolt_Bucket [bucketFakeIP] (cf_DB c)); [|done]. cbn [negb].
  destruct (str_empty _); [done|]. destruct (bolt_Delete _ _ _) as [db| |]; [|done..]. cbn [mbind result_bind].
  destruct (Metadata_UnmarshalBinary _) as [md| |]; [|done..]. cbn [mbind result_bind]. by destruct (bolt_Commit db).
Qed.

Lemma same_start c range4 range6 :
  same_fakeips c NewMemoryStorage -> fst (LoadMetadata c) = None ->
  plain_range false range4 \/ Prefix_IsValid range4 = false -> plain_range true range6 \/ Prefix_IsValid range6 = false ->
  same_store (Store_Start c (NewStore range4 range6)) (Store_Start NewMemoryStorage (NewStore range4 range6)).
Proof.
  intros Hsame Hmd H4 H6. pose proof (LoadMetadata_None c Hmd) as Hc. unfold Store_Start.
  destruct (LoadMetadata c) as [md c']. simpl in Hmd, Hc. subst md c'. simpl.
  assert (same_fakeips (snd (CacheFile_FakeIPReset c)) NewMemoryStorage) as Hreset.
  { destruct (Reset_spec c NewMemoryStorage Hsame) as [[_ H]|H]; [done|by rewrite H]. }
  assert (forall v6 range, plain_range v6 range \/ Prefix_IsValid range = false ->
    (plain_range v6 range /\ exists k, (if Prefix_IsValid range then first_address range else AddrNone) = ring v6 range k) \/
    (if Prefix_IsValid range then first_address range else AddrNone) = AddrNone) as Hcur.
  { intros v6 range [H|H]; [|right; by rewrite H]. left. split; [done|]. exists 0%N. destruct H as [Hok _].
    assert (Prefix_IsValid range = true) as -> by (destruct Hok as [_ _ Hb _]; unfold Prefix_IsValid; apply Z.leb_le; lia).
    by apply first_address_ring. }
  split; simpl; [done|done| |].
  - intros [|]; unfold current_of, range_of; simpl; by apply Hcur.
  - eexists _, _. split; [reflexivity|split; [reflexivity|done]].
Qed.

(** C30: on the cache file the fake IP store does what it does in memory: started on a file without fake IPs,
    it gives the same answers to every sequence of requests, and afterwards every address is looked up as
    the same domain (while storing succeeds). *)
Theorem fakeip_on_disk c range4 range6 l :
  same_fakeips c NewMemoryStorage -> fst (LoadMetadata c) = None ->
  plain_range false range4 \/ Prefix_IsValid range4 = false -> plain_range true range6 \/ Prefix_IsValid range6 = false ->
  Forall (fun r => fst r <> "") l ->
  let s := Store_Start c (NewStore range4 range6) in
  let t := Store_Start NewMemoryStorage (NewStore range4 range6) in
  answers l s = answers l t /\
  forall a, encodable a -> Store_Lookup a (requests l s) = Store_Lookup a (requests l t).
Proof.
  intros Hsame Hmd H4 H6 Hl s t. destruct (same_answers l s t) as [Ha Hst]; [by apply same_start|done|].
  split; [done|]. intros a He. destruct Hst as [_ _ _ (c' & m' & Hs & Ht & Hsame')].
  unfold Store_Lookup. rewrite Hs, Ht. f_equal. by apply Load_same.
Qed.

(** ** Two calls that differ *)

(** resetting the fake IPs does nothing while one of the two buckets of domains was never made: without an
    IPv6 (or an IPv4) request so far, a store that starts with other ranges than before still answers the
    domains of the file with their old addresses, wherever those lie. *)
Theorem fakeip_reset_incomplete c range4 range6 d v6 a :
  bolt_Bucket [bucketFakeIPDomain6] (cf_DB c) = false \/ bolt_Bucket [bucketFakeIPDomain4] (cf_DB c) = false ->
  (forall md, fst (LoadMetadata c) = Some md -> fm_Inet4Range md <> range4 \/ fm_Inet6Range md <> range6) ->
  FakeIPLoadDomain d v6 c = Some a ->
  fst (Store_Create d v6 (Store_Start c (NewStore range4 range6))) = Ok a.
Proof.
  intros Hb Hmd Hd.
  assert (exists c', snd (LoadMetadata c) = c' /\ FakeIPLoadDomain d v6 c' = Some a /\
    (bolt_Bucket [bucketFakeIPDomain6] (cf_DB c') = false \/ bolt_Bucket [bucketFakeIPDomain4] (cf_DB c') = false))
    as (c' & Ec & Hd' & Hb').
  { destruct (fst (LoadMetadata c)) as [md|] eqn:Em; [|exists c; split; [by apply LoadMetadata_None|done]].
    eexists. split; [reflexivity|]. clear Hmd. simpl in Em |- *. unfold CacheFile_FakeIPMetadata, Batch in Em |- *.
    destruct (bolt_Bucket [bucketFakeIP] (cf_DB c)); [|done]. cbn [negb] in Em |- *.
    destruct (str_empty _); [done|]. destruct (bolt_Delete _ _ _) as [db| |] eqn:Edel; [|done..]. cbn [mbind result_bind] in Em |- *.
    destruct (Metadata_UnmarshalBinary _) as [md'| |]; [|done..]. cbn [mbind result_bind] in Em |- *.
    destruct (bolt_Commit db); [done|]. cbn [snd set_DB cf_DB]. split; [|by rewrite !(delete_bucket _ _ _ _ _ Edel)].
    simpl in Hd. revert Hd. unfold CacheFile_FakeIPLoadDomain. cbn [cf_DB set_DB cf_saveAddress4 cf_saveAddress6].
    unfold get_string. rewrite (delete_bucket _ _ _ _ _ Edel), (delete_get _ _ _ _ _ _ Edel), decide_False; [done|].
    intros [Hp _]. symmetry in Hp. by apply domain_bucket_apart in Hp. }
  assert (s_storage (Store_Start c (NewStore range4 range6)) = Some c') as Hs.
  { pose proof (Reset_fails c' Hb') as Hr. unfold Store_Start. destruct (LoadMetadata c) as [md c1]. simpl in Ec. subst c1.
    destruct md as [md|]; [|simpl; by rewrite Hr]. specialize (Hmd md eq_refl). simpl.
    destruct Hmd as [H|H]; [rewrite (bool_decide_eq_false_2 _ H)|rewrite (bool_decide_eq_false_2 (fm_Inet6Range md = _) H), andb_false_r];
      simpl; by rewrite Hr. }
  unfold Store_Create. rewrite Hs, Hd'. done.
Qed.

(** the metadata saved in the background is the first one: however often the store asks for later metadata
    to be saved, what the timer writes is what it was made with. *)
Theorem metadata_timer_keeps_first c first later :
  cf_saveMetadataTimer c = None -> fst (CacheFile_FakeIPSaveMetadata first c) = None ->
  let c' := saveMetadataTimer_fires (foldl (fun c md => SaveMetadataAsync md c) (SaveMetadataAsync first c) later) in
  bolt_Get [bucketFakeIP] keyMetadata (cf_DB c') = Some (Metadata_MarshalBinary first).
Proof.
  intros Ht Hsave. simpl.
  assert (foldl (fun c md => CacheFile_FakeIPSaveMetadataAsync md c) (CacheFile_FakeIPSaveMetadataAsync first c) later =
    set_timer (Some first) c) as ->.
  { unfold CacheFile_FakeIPSaveMetadataAsync at 2. rewrite Ht. induction later as [|md later IH]; [done|exact IH]. }
  unfold saveMetadataTimer_fires. simpl.
  assert (fst (CacheFile_FakeIPSaveMetadata first (set_timer (Some first) c)) = None) as Hsave'.
  { unfold CacheFile_FakeIPSaveMetadata, Batch_, Batch in Hsave |- *. simpl in Hsave |- *.
    destruct (let! db := _ in bolt_Put _ _ _ db) as [db| |]; [|done..]. simpl in Hsave |- *. by destruct (bolt_Commit db). }
  apply SaveMetadata_get in Hsave' as (db & -> & HG). simpl. by rewrite HG, decide_True.
Qed.
End FakeIP.
