(* ===== verification/CacheFileSample.v ===== *)
(** * CacheFileSample: a database in memory, and cache files on it *)

From S2P Require Import Prelude GoStd NetIP FakeIP FakeIPLaws FakeIPCodec RuleSet Groups GroupLaws.
From S2P Require Import CacheFile CacheFileLaws CacheFileFakeIP.
From stdpp Require Import gmap.
Open Scope string_scope.
Open Scope list_scope.

(** ** The database *)

Definition table_ok (b : gset (list string)) (m : gmap (list string * string) string) : Prop :=
  (forall p k, p <> [] -> p ++ [k] ∈ b -> p ∈ b) /\ (forall p k v, m !! (p, k) = Some v -> p ∈ b).
Record table : Type := mkTable {
  tb_buckets : gset (list string);
  tb_values : gmap (list string * string) string;
  tb_ok : table_ok tb_buckets tb_values
}.

Definition can_create (p : list string) (b : gset (list string)) : Prop := p <> [] /\ (removelast p = [] \/ removelast p ∈ b).
Lemma create_ok p db : can_create p (tb_buckets db) -> table_ok ({[p]} ∪ tb_buckets db) (tb_values db).
Proof.
  intros [Hp Hpar]. destruct (tb_ok db) as [H1 H2]. split.
  - intros q k Hq [E%elem_of_singleton|E]%elem_of_union; [|set_solver].
    subst p. rewrite removelast_last in Hpar. set_solver.
  - intros q k v E. specialize (H2 q k v E). set_solver.
Qed.
Lemma put_ok p k v db : p ∈ tb_buckets db -> table_ok (tb_buckets db) (<[(p, k) := v]> (tb_values db)).
Proof.
  intros Hp. destruct (tb_ok db) as [H1 H2]. split; [done|]. intros q x w.
  rewrite lookup_insert. case_decide; [by simplify_eq|apply H2].
Qed.
Lemma delete_ok p k db : table_ok (tb_buckets db) (delete (p, k) (tb_values db)).
Proof.
  destruct (tb_ok db) as [H1 H2]. split; [done|]. intros q x w.
  rewrite lookup_delete. case_decide; [done|apply H2].
Qed.
Lemma drop_ok p db :
  table_ok (filter (fun q => ~ p `prefix_of` q) (tb_buckets db)) (filter (fun x => ~ p `prefix_of` fst (fst x)) (tb_values db)).
Proof.
  destruct (tb_ok db) as [H1 H2]. split.
  - intros q k Hq [Hpre Hin]%elem_of_filter. apply elem_of_filter. split; [|by eapply H1].
    intros H. by apply Hpre, prefix_app_r.
  - intros q k v [E Hpre]%map_lookup_filter_Some. apply elem_of_filter. split; [done|by eapply H2].
Qed.
Lemma empty_ok : table_ok ∅ ∅.
Proof. split; [set_solver|]. intros p k v H. by rewrite lookup_empty in H. Qed.
Definition empty_table : table := mkTable ∅ ∅ empty_ok.

Definition sample_create (p : list string) (db : table) : result table :=
  match decide (can_create p (tb_buckets db)) with
  | left H => Ok (mkTable _ _ (create_ok p db H))
  | right _ => Err (ELib "bucket name required")
  end.
Definition sample_put (p : list string) (k v : string) (db : table) : result table :=
  match decide (p ∈ tb_buckets db) with
  | left H => Ok (mkTable _ _ (put_ok p k v db H))
  | right _ => Err ErrBucketNotFound
  end.
Definition sample_drop (p : list string) (db : table) : result table :=
  if decide (p ∈ tb_buckets db) then Ok (mkTable _ _ (drop_ok p db)) else Err ErrBucketNotFound.

#[local] Instance sample_bolt : Bolt := {|
  DB := table;
  bolt_Bucket p db := bool_decide (p ∈ tb_buckets db);
  bolt_CreateBucketIfNotExists := sample_create;
  bolt_DeleteBucket := sample_drop;
  bolt_Get p k db := tb_values db !! (p, k);
  bolt_Put := sample_put;
  bolt_Delete p k db := Ok (mkTable _ _ (delete_ok p k db));
  bolt_Commit _ := None
|}.
#[local] Instance sample_bolt_laws : BoltLaws.
Proof.
  split; simpl.
  - intros p k db Hp H%bool_decide_eq_true. apply bool_decide_eq_true. by apply (proj1 (tb_ok db) p k).
  - intros p k v db H. apply bool_decide_eq_true. by apply (proj2 (tb_ok db) p k v).
  - intros p q db db' H. unfold sample_create in H. destruct (decide _); [|done]. injection H as <-. simpl.
    repeat case_bool_decide; set_solver.
  - intros p q k db db' H. unfold sample_create in H. destruct (decide _); [|done]. by injection H as <-.
  - intros p k v q db db' H. unfold sample_put in H. destruct (decide _); [|done]. by injection H as <-.
  - intros p k v q x db db' H. unfold sample_put in H. destruct (decide _); [|done]. injection H as <-. simpl.
    rewrite lookup_insert. repeat case_decide; naive_solver.
  - by intros p k q db db' [= <-].
  - intros p k q x db db' [= <-]. simpl. rewrite lookup_delete. repeat case_decide; naive_solver.
  - intros p q db db' H. unfold sample_drop in H. destruct (decide _); [|done]. injection H as <-. simpl.
    repeat case_bool_decide; set_solver.
  - intros p q k db db' H. unfold sample_drop in H. destruct (decide _); [|done]. injection H as <-. simpl.
    rewrite map_lookup_filter. case_decide as Hp.
    + destruct (tb_values db !! (q, k)); [|done]. simpl. case_guard; done.
    + destruct (tb_values db !! (q, k)); [|done]. simpl. case_guard; done.
  - intros p db H%bool_decide_eq_false. unfold sample_drop. by destruct (decide _).
Qed.

(** A byte string: each byte after a one, and a zero. *)
Fixpoint sample_write (s : string) : string := match s with "" => "0" | String c s => String "1" (String c (sample_write s)) end.
Fixpoint sample_read (s : string) : result (string * string) :=
  match s with
  | String "1" (String c s) => let! (r, rest) := sample_read s in Ok (String c r, rest)
  | String "0" rest => Ok ("", rest)
  | _ => Err (ELib "EOF")
  end.
#[local] Instance sample_library : CacheLibrary := {|
  varbin_Write := sample_write;
  varbin_Read := sample_read;
  M_AddrFromIP s :=
    if (String.length s =? 4)%nat then Addr4 (be_val s)
    else if (String.length s =? 16)%nat then Addr6 (be_val s) "" else AddrNone
|}.
#[local] Instance sample_library_laws : CacheLibraryLaws.
Proof.
  split; [|done]. intros s rest. simpl. induction s as [|c s IH]; [done|]. simpl. by rewrite IH.
Qed.
#[local] Instance sample_address_laws : AddressLaws.
Proof.
  split. intros [|v|v zone] H; [done| |]; cbn [M_AddrFromIP sample_library].
  - change (Addr_AsSlice (Addr4 v)) with (be_bytes 4 v). rewrite be_bytes_length. cbn [Nat.eqb]. by rewrite be_roundtrip.
  - destruct H as (-> & H & _). change (Addr_AsSlice (Addr6 v "")) with (be_bytes 16 v +:+ "").
    rewrite str_app_nil, be_bytes_length. cbn [Nat.eqb]. by rewrite be_roundtrip.
Qed.

Lemma sample_create_top k db : exists db', sample_create [k] db = Ok db' /\ [k] ∈ tb_buckets db'.
Proof.
  unfold sample_create. destruct (decide _) as [H|H]; [|destruct H; by split; [|left]].
  eexists. split; [reflexivity|]. simpl. set_solver.
Qed.
Lemma sample_put_in p k v db : p ∈ tb_buckets db -> exists db', sample_put p k v db = Ok db' /\ tb_buckets db' = tb_buckets db.
Proof. intros H. unfold sample_put. destruct (decide _); [|done]. by eexists. Qed.
Lemma sample_works a d c : fst (CacheFile_FakeIPStore a d c) = None.
Proof.
  unfold CacheFile_FakeIPStore, Batch_, Batch. cbn [bolt_CreateBucketIfNotExists bolt_Put bolt_Delete bolt_Get bolt_Commit sample_bolt].
  destruct (sample_create_top bucketFakeIP (cf_DB c)) as (db1 & -> & H1). cbn [mbind result_bind].
  destruct (sample_put_in [bucketFakeIP] (Addr_AsSlice a) d db1 H1) as (db2 & -> & _). cbn [mbind result_bind].
  destruct (sample_create_top (domain_bucket (Addr_Is4 a)) db2) as (db3 & -> & H3). cbn [mbind result_bind].
  set (p := [domain_bucket (Addr_Is4 a)]) in *.
  destruct (tb_values db1 !! ([bucketFakeIP], Addr_AsSlice a)) as [old|]; cbn [mbind result_bind].
  - by destruct (sample_put_in p d (Addr_AsSlice a) (mkTable _ _ (delete_ok p old db3)) H3) as (db4 & -> & _).
  - by destruct (sample_put_in p d (Addr_AsSlice a) db3 H3) as (db4 & -> & _).
Qed.

(** ** Cache files *)

Definition plain_file : CacheFile := New (mkCacheFileOptions "" true true 0) empty_table.
Definition profile_file : CacheFile := New (mkCacheFileOptions "profile" true true 0) empty_table.

Lemma cachefile_values_witness :
  let c' := snd (CacheFile_StoreSelected "select" "b" profile_file) in
  CacheFile_LoadSelected "select" c' = "b" /\ LoadGroupExpand "select" c' = None.
Proof.
  pose proof (proj1 (cachefile_values profile_file "select") "b") as H.
  assert (fst (CacheFile_StoreSelected "select" "b" profile_file) = None) as E by (vm_compute; reflexivity).
  destruct (CacheFile_StoreSelected "select" "b" profile_file) as [err c']. simpl in E. subst err.
  destruct H as [H1 H2]. split; [exact (H1 "select")|exact (H2 "select")].
Defined.

Definition sample_binary : SavedBinary := mkSavedBinary "content" (Some 1700000000000000001%Z) "etag".
Lemma cachefile_binaries_witness :
  let c' := snd (SaveRuleSet "geoip" sample_binary profile_file) in
  LoadBinary "geoip" c' = Some (mkSavedBinary "content" (Some 1700000000000000000%Z) "etag").
Proof.
  assert (in_int64 (Unix (sb_LastUpdated sample_binary))) as Ht by (vm_compute; split; congruence).
  pose proof (cachefile_binaries profile_file "geoip" sample_binary Ht) as H.
  assert (fst (SaveRuleSet "geoip" sample_binary profile_file) = None) as E by (vm_compute; reflexivity).
  destruct (SaveRuleSet "geoip" sample_binary profile_file) as [err c']. simpl in E. subst err. exact (proj1 (proj2 H)).
Defined.

Lemma rdrc_until_timeout_witness :
  let c' := snd (SaveRDRC 5000000000 "local" "example.org" 28 profile_file) in
  fst (LoadRDRC (604805 * 1000000000) "local" "example.org" 28 c') = Ok true /\
  fst (LoadRDRC (604805 * 1000000000 + 1) "local" "example.org" 28 c') = Ok false /\
  fst (LoadRDRC 0 "local" "example.org" 1 c') = Ok false.
Proof.
  assert (in_int64 ((5000000000 + cf_rdrcTimeout profile_file) / 1000000000)) as Ht by (vm_compute; split; congruence).
  assert (("local", "example.org", 28%N) ∉ cf_saveRDRC profile_file) as Hn by (apply not_elem_of_empty).
  pose proof (rdrc_until_timeout profile_file 5000000000 "local" "example.org" 28 eq_refl Hn Ht) as H.
  assert (fst (SaveRDRC 5000000000 "local" "example.org" 28 profile_file) = None) as E by (vm_compute; reflexivity).
  destruct (SaveRDRC 5000000000 "local" "example.org" 28 profile_file) as [err c']. simpl in E. subst err.
  destruct H as [_ [H1 H2]]. split; [|split].
  - exact (H1 (604805 * 1000000000)%Z).
  - exact (H1 (604805 * 1000000000 + 1)%Z).
  - etrans; [exact (H2 0%Z "local" "example.org" 1%N eq_refl ltac:(done))|]. vm_compute. reflexivity.
Defined.

Lemma plain_file_empty : same_fakeips plain_file NewMemoryStorage.
Proof.
  split; [done| | | |].
  - intros a _. simpl. by rewrite !lookup_empty.
  - intros a d H. simpl in H. by rewrite lookup_empty in H.
  - intros [] d; simpl; by rewrite !lookup_empty.
  - intros [] d a H; simpl in H; by rewrite lookup_empty in H.
Qed.

Lemma fakeip_on_disk_witness :
  let s := Store_Start plain_file (NewStore range29 Prefix_zero) in
  let t := Store_Start NewMemoryStorage (NewStore range29 Prefix_zero) in
  let l := [("a.example.", false); ("b.example.", false); ("a.example.", false); ("c.example.", true)] in
  answers l s = answers l t /\
  answers l t = [Ok (Addr4 3323068419); Ok (Addr4 3323068420); Ok (Addr4 3323068419); Err (ENew "missing IPv6 fakeip address range")] /\
  Store_Lookup (Addr4 3323068420) (requests l s) = Store_Lookup (Addr4 3323068420) (requests l t).
Proof.
  intros s t l.
  destruct (fakeip_on_disk (fun a d c _ _ => sample_works a d c) plain_file range29 Prefix_zero l plain_file_empty) as [H1 H2].
  - vm_compute. reflexivity.
  - left. split; [exact range29_ok|done].
  - right. reflexivity.
  - repeat constructor; done.
  - split; [exact H1|]. split; [vm_compute; reflexivity|]. apply H2. vm_compute. reflexivity.
Defined.

(** A file with one IPv4 domain, and a store with another range. *)
Definition used_file : CacheFile := snd (CacheFile_FakeIPStore (Addr4 3323068419) "a.example." plain_file).
Definition other_range : Prefix := mkPrefix (Addr4 (10 * 2 ^ 24)) 8.
Lemma fakeip_reset_incomplete_witness :
  fst (Store_Create "a.example." false (Store_Start used_file (NewStore other_range Prefix_zero))) = Ok (Addr4 3323068419) /\
  Prefix_Contains other_range (Addr4 3323068419) = false.
Proof.
  split; [|vm_compute; reflexivity]. apply fakeip_reset_incomplete.
  - left. vm_compute. reflexivity.
  - intros md H. assert (fst (LoadMetadata used_file) = None) as E by (vm_compute; reflexivity). rewrite E in H. discriminate H.
  - vm_compute. reflexivity.
Defined.

Lemma metadata_timer_keeps_first_witness :
  let md k := mkFakeIPMetadata range29 Prefix_zero (Addr4 (3323068419 + k)) AddrNone in
  let c' := saveMetadataTimer_fires (foldl (fun c m => SaveMetadataAsync m c) (SaveMetadataAsync (md 0%N) plain_file) [md 1%N; md 2%N]) in
  bolt_Get [bucketFakeIP] keyMetadata (cf_DB c') = Some (Metadata_MarshalBinary (md 0%N)).
Proof.
  intros md. apply (metadata_timer_keeps_first plain_file (md 0%N) [md 1%N; md 2%N]); vm_compute; reflexivity.
Defined.

(** Two saves of one address in the background may end in the other order: the later domain is lost. *)
Example async_stores_unordered :
  let a := Addr4 3323068419 in
  let c := FakeIPStoreAsync_begin a "new." (FakeIPStoreAsync_begin a "old." plain_file) in
  CacheFile_FakeIPLoad a c = Some "new." /\
  CacheFile_FakeIPLoad a (FakeIPStoreAsync_end a "old." (FakeIPStoreAsync_end a "new." c)) = Some "old.".
Proof. split; vm_compute; reflexivity. Qed.
