(* ===== verification/TransportBase.v ===== *)
(** * TransportBase: starting, counting and shutting down DNS transports

    [BaseTransport] (dns/transport/base.go).  What a method does under the mutex is one step; [Shutdown]
    leaves the mutex, cancels the context and waits, so it is several.  A label says which goroutine goes on,
    and a list of labels is an interleaving. *)

From S2P Require Import Prelude GoStd NetIP.
Open Scope string_scope.

(** ** The transport *)

Inductive TransportState : Type := StateNew | StateStarted | StateClosing | StateClosed.
#[export] Instance TransportState_eq_dec : EqDecision TransportState.
Proof. solve_decision. Defined.
Definition ErrTransportClosed : error := ELib "file already closed".
Definition ErrConnectionReset : error := ENew "connection reset".

(** Channels are numbered: [bt_made] were made, and [bt_done] are closed. *)
Record BaseTransport : Type := mkBaseTransport {
  bt_state : TransportState;
  bt_inFlight : Z;
  bt_queriesComplete : option nat;
  bt_cancelled : bool;
  bt_made : nat;
  bt_done : gset nat
}.
Definition NewBaseTransport : BaseTransport := mkBaseTransport StateNew 0 None false 0 ∅.
Definition set_bt_state (s : TransportState) (t : BaseTransport) : BaseTransport :=
  mkBaseTransport s (bt_inFlight t) (bt_queriesComplete t) (bt_cancelled t) (bt_made t) (bt_done t).
Definition set_bt_inFlight (n : Z) (t : BaseTransport) : BaseTransport :=
  mkBaseTransport (bt_state t) n (bt_queriesComplete t) (bt_cancelled t) (bt_made t) (bt_done t).
Definition closeCancel (t : BaseTransport) : BaseTransport :=
  mkBaseTransport (bt_state t) (bt_inFlight t) (bt_queriesComplete t) true (bt_made t) (bt_done t).

Definition SetStarted (t : BaseTransport) : option error * BaseTransport :=
  match bt_state t with
  | StateNew => (None, set_bt_state StateStarted t)
  | StateStarted => (None, t)
  | _ => (Some ErrTransportClosed, t)
  end.
Definition BeginQuery (t : BaseTransport) : bool * BaseTransport :=
  if bool_decide (bt_state t = StateStarted) then (true, set_bt_inFlight (bt_inFlight t + 1) t) else (false, t).

Definition double_close : string := "close of closed channel".
Definition EndQuery (t : BaseTransport) : result BaseTransport :=
  let t := if (0 <? bt_inFlight t)%Z then set_bt_inFlight (bt_inFlight t - 1) t else t in
  match bt_queriesComplete t with
  | Some ch =>
      if (bt_inFlight t =? 0)%Z then
        if bool_decide (ch ∈ bt_done t) then Panic double_close
        else Ok (mkBaseTransport (bt_state t) (bt_inFlight t) None (bt_cancelled t) (bt_made t) ({[ch]} ∪ bt_done t))
      else Ok t
  | None => Ok t
  end.

(** [Shutdown] up to the point where it leaves the mutex: it returns [nil], cancels the context and returns [nil], or
    cancels the context and waits for a channel. *)
Inductive shutdown_pc : Type :=
| ShutdownCancel (wait : option nat)
| ShutdownWait (ch : nat)
| ShutdownReturned (err : option error) (waited : bool).
Definition Shutdown (t : BaseTransport) : shutdown_pc * BaseTransport :=
  match bt_state t with
  | StateClosing | StateClosed => (ShutdownReturned None false, t)
  | StateNew => (ShutdownCancel None, set_bt_state StateClosed t)
  | StateStarted =>
      if (bt_inFlight t =? 0)%Z then (ShutdownCancel None, set_bt_state StateClosed t)
      else (ShutdownCancel (Some (bt_made t)),
            mkBaseTransport StateClosing (bt_inFlight t) (Some (bt_made t)) (bt_cancelled t) (S (bt_made t)) (bt_done t))
  end.

(** ** Interleavings *)

(** The transport, the number of queries between [BeginQuery] and [EndQuery], and the goroutines in [Shutdown]. *)
Record base_system : Type := mkBaseSystem { bs_t : BaseTransport; bs_active : nat; bs_shutdown : gmap nat shutdown_pc }.
Definition base_new : base_system := mkBaseSystem NewBaseTransport 0 ∅.
Inductive base_label : Type :=
| LStart | LBegin | LEnd
| LShutdown (i : nat) | LCancel (i : nat) | LComplete (i : nat) | LTimeout (i : nat) (e : error).
(** A goroutine that is not where the label says cannot take the step. *)
Definition disabled : error := ELib "disabled".

Definition base_step (l : base_label) (s : base_system) : result base_system :=
  let t := bs_t s in
  match l with
  | LStart => Ok (mkBaseSystem (snd (SetStarted t)) (bs_active s) (bs_shutdown s))
  | LBegin =>
      match BeginQuery t with
      | (true, t) => Ok (mkBaseSystem t (S (bs_active s)) (bs_shutdown s))
      | (false, t) => Ok (mkBaseSystem t (bs_active s) (bs_shutdown s))
      end
  | LEnd =>
      match bs_active s with
      | O => Err disabled
      | S n => let! t := EndQuery t in Ok (mkBaseSystem t n (bs_shutdown s))
      end
  | LShutdown i =>
      match bs_shutdown s !! i with
      | Some _ => Err disabled
      | None => let '(pc, t) := Shutdown t in Ok (mkBaseSystem t (bs_active s) (<[i := pc]> (bs_shutdown s)))
      end
  | LCancel i =>
      match bs_shutdown s !! i with
      | Some (ShutdownCancel wait) =>
          Ok (mkBaseSystem (closeCancel t) (bs_active s)
                (<[i := match wait with Some ch => ShutdownWait ch | None => ShutdownReturned None false end]> (bs_shutdown s)))
      | _ => Err disabled
      end
  | LComplete i =>
      match bs_shutdown s !! i with
      | Some (ShutdownWait ch) =>
          if bool_decide (ch ∈ bt_done t)
          then Ok (mkBaseSystem (set_bt_state StateClosed t) (bs_active s) (<[i := ShutdownReturned None true]> (bs_shutdown s)))
          else Err disabled
      | _ => Err disabled
      end
  | LTimeout i e =>
      match bs_shutdown s !! i with
      | Some (ShutdownWait ch) =>
          Ok (mkBaseSystem (set_bt_state StateClosed t) (bs_active s) (<[i := ShutdownReturned (Some e) true]> (bs_shutdown s)))
      | _ => Err disabled
      end
  end.
Fixpoint base_run (ls : list base_label) (s : base_system) : result base_system :=
  match ls with [] => Ok s | l :: ls => let! s := base_step l s in base_run ls s end.

(** ** Shutting down *)

Definition closing (t : BaseTransport) : Prop := bt_state t = StateClosing \/ bt_state t = StateClosed.
Definition waits_for (pc : shutdown_pc) : option nat :=
  match pc with ShutdownCancel w => w | ShutdownWait ch => Some ch | ShutdownReturned _ _ => None end.
Record base_inv (s : base_system) : Prop := mkBaseInv {
  bi_count : bt_inFlight (bs_t s) = Z.of_nat (bs_active s);
  bi_new : bt_state (bs_t s) = StateNew -> bs_active s = 0%nat;
  bi_channel : forall ch, bt_queriesComplete (bs_t s) = Some ch -> (0 < bs_active s)%nat /\ closing (bs_t s) /\ ch ∉ bt_done (bs_t s);
  bi_done : forall ch, ch ∈ bt_done (bs_t s) -> bs_active s = 0%nat /\ closing (bs_t s);
  bi_fresh : forall ch, ch ∈ bt_done (bs_t s) \/ bt_queriesComplete (bs_t s) = Some ch -> (ch < bt_made (bs_t s))%nat;
  bi_wait : forall i pc ch, bs_shutdown s !! i = Some pc -> waits_for pc = Some ch -> ch ∈ bt_done (bs_t s) \/ bt_queriesComplete (bs_t s) = Some ch;
  bi_completed : forall i, bs_shutdown s !! i = Some (ShutdownReturned None true) -> bs_active s = 0%nat /\ bt_state (bs_t s) = StateClosed
}.

Lemma base_inv_new : base_inv base_new.
Proof. constructor; cbn; try done; set_solver. Qed.
Lemma closing_state t s : bt_state t = s -> closing t -> s = StateClosing \/ s = StateClosed.
Proof. by intros <-. Qed.

Lemma start_inv s : base_inv s -> base_inv (mkBaseSystem (snd (SetStarted (bs_t s))) (bs_active s) (bs_shutdown s)).
Proof.
  intros H. pose proof H as [H1 H2 H3 H4 H5 H6 H7]. unfold SetStarted. destruct (bt_state (bs_t s)) eqn:E; [|by destruct s..].
  constructor; cbn [bs_t bs_active bs_shutdown snd set_bt_state bt_state bt_inFlight bt_queriesComplete bt_done bt_made]; try done.
  - intros ch Hc. destruct (H3 ch Hc) as (_ & Hcl & _). destruct (closing_state _ _ E Hcl); done.
  - intros ch Hc. destruct (H4 ch Hc) as [_ Hcl]. destruct (closing_state _ _ E Hcl); done.
  - intros i Hi. destruct (H7 i Hi) as [_ Hs]. congruence.
Qed.
Lemma begin_inv s : base_inv s -> bt_state (bs_t s) = StateStarted ->
  base_inv (mkBaseSystem (set_bt_inFlight (bt_inFlight (bs_t s) + 1) (bs_t s)) (S (bs_active s)) (bs_shutdown s)).
Proof.
  intros [H1 H2 H3 H4 H5 H6 H7] E.
  constructor; cbn [bs_t bs_active bs_shutdown snd set_bt_inFlight bt_state bt_inFlight bt_queriesComplete bt_done bt_made]; try done.
  - lia.
  - congruence.
  - intros ch Hc. destruct (H3 ch Hc) as (_ & Hcl & _). destruct (closing_state _ _ E Hcl); done.
  - intros ch Hc. destruct (H4 ch Hc) as [_ Hcl]. destruct (closing_state _ _ E Hcl); done.
  - intros i Hi. destruct (H7 i Hi) as [_ Hs]. congruence.
Qed.
Lemma end_inv s n : base_inv s -> bs_active s = S n -> exists t, EndQuery (bs_t s) = Ok t /\ base_inv (mkBaseSystem t n (bs_shutdown s)).
Proof.
  intros [H1 H2 H3 H4 H5 H6 H7] Hn. unfold EndQuery. rewrite H1, Hn. rewrite (proj2 (Z.ltb_lt _ _)) by lia.
  assert (bt_done (bs_t s) = ∅) as Hd by (apply set_eq; intros ch; split; [intros Hc; destruct (H4 ch Hc); lia|set_solver]).
  cbn [set_bt_inFlight bt_queriesComplete bt_inFlight bt_done]. destruct (bt_queriesComplete (bs_t s)) as [ch|] eqn:Eq.
  - destruct (H3 ch eq_refl) as (_ & Hcl & Hnot). destruct (Z.eqb_spec (Z.of_nat (S n) - 1) 0) as [E0|E0].
    + rewrite bool_decide_eq_false_2 by done. eexists. split; [done|].
      constructor; cbn [bs_t bs_active bs_shutdown bt_state bt_inFlight bt_queriesComplete bt_done bt_made set_bt_inFlight bt_cancelled].
      * lia.
      * intros Hs. destruct (closing_state _ _ Hs Hcl); done.
      * done.
      * intros ch' _. split; [lia|done].
      * intros ch' [Hc|Hc]; [|done]. apply elem_of_union in Hc as [->%elem_of_singleton|Hc]; apply H5; [by right|by left].
      * intros i pc ch' Hi Hw. left. destruct (H6 i pc ch' Hi Hw) as [Hc|[= ->]]; set_solver.
      * intros i Hi. destruct (H7 i Hi). lia.
    + eexists. split; [done|]. constructor; cbn [bs_t bs_active bs_shutdown bt_state bt_inFlight bt_queriesComplete bt_done bt_made set_bt_inFlight].
      * lia.
      * intros Hs. destruct (closing_state _ _ Hs Hcl); done.
      * intros ch' Hc. rewrite Eq in Hc. injection Hc as <-. split_and!; [lia|done|done].
      * intros ch' Hc. rewrite Hd in Hc. set_solver.
      * rewrite Eq. exact H5.
      * intros i pc ch' Hi Hw. rewrite Eq. by apply (H6 i pc).
      * intros i Hi. destruct (H7 i Hi). lia.
  - eexists. split; [done|]. constructor; cbn [bs_t bs_active bs_shutdown bt_state bt_inFlight bt_queriesComplete bt_done bt_made set_bt_inFlight].
    + lia.
    + intros Hs. specialize (H2 Hs). lia.
    + intros ch Hc. congruence.
    + intros ch Hc. rewrite Hd in Hc. set_solver.
    + rewrite Eq. exact H5.
    + intros i pc ch Hi Hw. rewrite Eq. by apply (H6 i pc).
    + intros i Hi. destruct (H7 i Hi). lia.
Qed.
(** Adding a goroutine, or moving one on, where the transport stays the same but for [bt_cancelled] and closing. *)
Lemma move_inv s t i pc : base_inv s ->
  bt_inFlight t = bt_inFlight (bs_t s) -> bt_queriesComplete t = bt_queriesComplete (bs_t s) -> bt_done t = bt_done (bs_t s) -> bt_made t = bt_made (bs_t s) ->
  (bt_state t = bt_state (bs_t s) \/ bt_state t = StateClosed) ->
  (forall ch, waits_for pc = Some ch -> ch ∈ bt_done t \/ bt_queriesComplete t = Some ch) ->
  (pc = ShutdownReturned None true -> bs_active s = 0%nat /\ bt_state t = StateClosed) ->
  base_inv (mkBaseSystem t (bs_active s) (<[i := pc]> (bs_shutdown s))).
Proof.
  intros [H1 H2 H3 H4 H5 H6 H7] E1 E2 E3 E4 Hs Hw Hc.
  assert (closing (bs_t s) -> closing t) as Hcl by (unfold closing; intros [H|H]; destruct Hs as [Hs|Hs]; rewrite Hs; auto).
  constructor; cbn [bs_t bs_active bs_shutdown]; rewrite ?E1, ?E2, ?E3, ?E4.
  - done.
  - intros Hn. apply H2. destruct Hs as [Hs|Hs]; congruence.
  - intros ch Hq. destruct (H3 ch Hq) as (? & ? & ?). auto.
  - intros ch Hq. destruct (H4 ch Hq). auto.
  - done.
  - intros j pc' ch. destruct (decide (i = j)) as [->|Hne].
    + rewrite lookup_insert_eq. intros [= <-] Hw'. rewrite <- E2, <- E3. by apply Hw.
    + rewrite lookup_insert_ne by done. apply H6.
  - intros j. destruct (decide (i = j)) as [->|Hne].
    + rewrite lookup_insert_eq. intros [= ->]. by apply Hc.
    + rewrite lookup_insert_ne by done. intros Hj. destruct (H7 j Hj) as [? Hst]. split; [done|]. destruct Hs as [Hs|Hs]; congruence.
Qed.
Lemma wait_inv s i : base_inv s -> bt_state (bs_t s) = StateStarted -> bt_inFlight (bs_t s) <> 0%Z ->
  let t := bs_t s in
  base_inv (mkBaseSystem (mkBaseTransport StateClosing (bt_inFlight t) (Some (bt_made t)) (bt_cancelled t) (S (bt_made t)) (bt_done t))
    (bs_active s) (<[i := ShutdownCancel (Some (bt_made t))]> (bs_shutdown s))).
Proof.
  intros [H1 H2 H3 H4 H5 H6 H7] E Hf t. assert (forall ch, bt_queriesComplete (bs_t s) <> Some ch) as Hq.
  { intros ch Hc. destruct (H3 ch Hc) as (_ & Hcl & _). destruct (closing_state _ _ E Hcl); done. }
  constructor; cbn [bs_t bs_active bs_shutdown bt_state bt_inFlight bt_queriesComplete bt_done bt_made].
  - done.
  - done.
  - intros ch [= <-]. split_and!; [lia|by left|]. intros Hd. specialize (H5 _ (or_introl Hd)). unfold t in H5. lia.
  - intros ch Hd. destruct (H4 ch Hd). split; [done|by left].
  - intros ch [Hd|[= <-]]; [|lia]. specialize (H5 ch (or_introl Hd)). unfold t. lia.
  - intros j pc ch. destruct (decide (i = j)) as [->|Hne].
    + rewrite lookup_insert_eq. intros [= <-] [= <-]. by right.
    + rewrite lookup_insert_ne by done. intros Hj Hw. destruct (H6 j pc ch Hj Hw) as [?|Hc]; [by left|]. by destruct (Hq ch).
  - intros j. destruct (decide (i = j)) as [->|Hne]; [rewrite lookup_insert_eq; done|]. rewrite lookup_insert_ne by done.
    intros Hj. destruct (H7 j Hj) as [_ Hs]. congruence.
Qed.
Lemma base_step_inv l s : base_inv s ->
  match base_step l s with Ok s' => base_inv s' | Err _ => True | Panic _ => False end.
Proof.
  intros H. pose proof H as [H1 H2 H3 H4 H5 H6 H7]. destruct l as [| | |i|i|i|i e]; cbn [base_step].
  - by apply start_inv.
  - unfold BeginQuery. case_bool_decide as E; [by apply begin_inv|by destruct s].
  - destruct (bs_active s) as [|n] eqn:En; [done|]. destruct (end_inv s n H En) as (t & -> & Ht). done.
  - destruct (bs_shutdown s !! i) eqn:Ei; [done|]. unfold Shutdown. destruct (bt_state (bs_t s)) eqn:E.
    + by apply move_inv; auto.
    + destruct (Z.eqb_spec (bt_inFlight (bs_t s)) 0) as [E0|E0]; [by apply move_inv; auto|by apply wait_inv].
    + by apply move_inv; auto.
    + by apply move_inv; auto.
  - destruct (bs_shutdown s !! i) as [[wait|ch|]|] eqn:Ei; [|done|done|done]. apply move_inv; auto.
    + intros ch Hw. apply (H6 i _ ch Ei). by destruct wait.
    + by destruct wait.
  - destruct (bs_shutdown s !! i) as [[wait|ch|]|] eqn:Ei; [done| |done|done]. case_bool_decide as Hd; [|done].
    apply move_inv; auto; [done|]. intros _. by destruct (H4 ch Hd).
  - destruct (bs_shutdown s !! i) as [[wait|ch|]|] eqn:Ei; [done| |done|done]. by apply move_inv; auto.
Qed.

(** What holds at any time. *)
Record base_safe (s : base_system) : Prop := mkBaseSafe {
  safe_count : bt_inFlight (bs_t s) = Z.of_nat (bs_active s);
  safe_begin : closing (bs_t s) -> fst (BeginQuery (bs_t s)) = false;
  safe_wait : forall i ch, bs_shutdown s !! i = Some (ShutdownWait ch) -> ch ∈ bt_done (bs_t s) <-> bs_active s = 0%nat;
  safe_completed : forall i, bs_shutdown s !! i = Some (ShutdownReturned None true) -> bs_active s = 0%nat /\ bt_state (bs_t s) = StateClosed
}.
Lemma base_inv_safe s : base_inv s -> base_safe s.
Proof.
  intros [H1 H2 H3 H4 H5 H6 H7]. constructor; [done| | |done].
  - intros Hc. unfold BeginQuery. rewrite bool_decide_eq_false_2; [done|]. intros E. by destruct (closing_state _ _ E Hc).
  - intros i ch Hi. split; [intros Hd; by destruct (H4 ch Hd)|]. intros Ha. destruct (H6 i _ ch Hi eq_refl) as [?|Hq]; [done|].
    destruct (H3 ch Hq). lia.
Qed.
(** shutting a DNS transport down waits for its queries, in every interleaving of [Start], queries and shutdowns.  No channel is closed twice; [inFlight] is the
    number of queries that have begun and not ended; once closing, no query begins; a [Shutdown] that waits can go on exactly when no query is left, and when it returns [nil]
    after waiting, no query is left and none will begin. *)
Theorem base_transport_safe ls : match base_run ls base_new with Ok s => base_safe s | Err _ => True | Panic _ => False end.
Proof.
  assert (forall s, base_inv s -> match base_run ls s with Ok s => base_safe s | Err _ => True | Panic _ => False end) as G; [|apply G, base_inv_new].
  induction ls as [|l ls IH]; intros s Hs; cbn [base_run]; [by apply base_inv_safe|]. pose proof (base_step_inv l s Hs) as Hl.
  destruct (base_step l s) as [s'|e|m]; cbn [mbind result_bind]; [by apply IH|done|done].
Qed.
