(* ===== verification/Connector.v ===== *)
(** * Connector: one connection, dialed once

    [Connector] and [Connection] (dns/transport/connector.go): goroutines that ask for the connection share it, and one of them dials
    when there is none.  A step is what is done under the mutex, or between two sections under it. *)

From S2P Require Import Prelude GoStd NetIP TransportBase.
Open Scope string_scope.

(** ** The connector *)

(** Connections and channels are numbered in the order they are made.  [cn_conns]: the connections that were dialed, with the error that
    closed each ([CloseWithError] works once). *)
Record Connector : Type := mkConnector {
  cn_connection : nat;
  cn_hasConnection : bool;
  cn_connecting : option nat;
  cn_closed : bool;
  cn_conns : list (option error);
  cn_made : nat;
  cn_done : gset nat
}.
Definition NewConnector : Connector := mkConnector 0 false None false [] 0 ∅.
Definition set_connection (connection : nat) (has : bool) (c : Connector) : Connector :=
  mkConnector connection has (cn_connecting c) (cn_closed c) (cn_conns c) (cn_made c) (cn_done c).
Definition set_connecting (connecting : option nat) (made : nat) (done : gset nat) (c : Connector) : Connector :=
  mkConnector (cn_connection c) (cn_hasConnection c) connecting (cn_closed c) (cn_conns c) made done.
Definition set_conns (conns : list (option error)) (c : Connector) : Connector :=
  mkConnector (cn_connection c) (cn_hasConnection c) (cn_connecting c) (cn_closed c) conns (cn_made c) (cn_done c).
Definition set_cn_closed (has : bool) (c : Connector) : Connector :=
  mkConnector (cn_connection c) has (cn_connecting c) true (cn_conns c) (cn_made c) (cn_done c).

(** [CloseWithError]: the first error stays. *)
Definition CloseWithError (k : nat) (e : error) (c : Connector) : Connector :=
  match cn_conns c !! k with Some None => set_conns (<[k := Some e]> (cn_conns c)) c | _ => c end.
Definition IsClosed (k : nat) (c : Connector) : bool := match cn_conns c !! k with Some None => false | _ => true end.

(** Where a goroutine is: at the head of the loop of [Get], waiting for a channel, dialing, with the result of the dial,
    or back; in [Close] after the mutex, or back. *)
Inductive connector_pc : Type :=
| GetLoop
| GetWait (ch : nat)
| GetDial
| GetDialed (r : result nat)
| GetReturned (r : result nat)
| CloseConnection (has : bool)
| CloseReturned.

(** The first section of [Get]. *)
Definition Get_look (c : Connector) : connector_pc * Connector :=
  if cn_closed c then (GetReturned (Err ErrTransportClosed), c)
  else if cn_hasConnection c && negb (IsClosed (cn_connection c) c) then (GetReturned (Ok (cn_connection c)), c)
  else
    let c := set_connection (cn_connection c) false c in
    match cn_connecting c with
    | Some ch => (GetWait ch, c)
    | None => (GetDial, set_connecting (Some (cn_made c)) (S (cn_made c)) (cn_done c) c)
    end.
(** The section after the dial. *)
Definition Get_finish (r : result nat) (c : Connector) : result (connector_pc * Connector) :=
  match cn_connecting c with
  | None => Panic "close of nil channel"
  | Some ch =>
      if bool_decide (ch ∈ cn_done c) then Panic double_close
      else
        let c := set_connecting None (cn_made c) ({[ch]} ∪ cn_done c) c in
        match r with
        | Ok k =>
            if cn_closed c then Ok (GetReturned (Err ErrTransportClosed), CloseWithError k ErrTransportClosed c)
            else Ok (GetReturned (Ok k), set_connection k true c)
        | Err e => Ok (GetReturned (Err e), c)
        | Panic m => Panic m
        end
  end.
Definition Connector_Close (c : Connector) : connector_pc * Connector :=
  if cn_closed c then (CloseReturned, c) else (CloseConnection (cn_hasConnection c), set_cn_closed false c).
Definition Connector_Reset (c : Connector) : Connector :=
  if cn_hasConnection c
  then set_connection (cn_connection c) false (CloseWithError (cn_connection c) ErrConnectionReset c) else c.

(** ** Interleavings *)

Record connector_system : Type := mkConnectorSystem { cs_c : Connector; cs_pcs : gmap nat connector_pc }.
Definition connector_new : connector_system := mkConnectorSystem NewConnector ∅.
Inductive connector_label : Type :=
| CGet (i : nat) | CLook (i : nat) | CWake (i : nat) | CGiveUp (i : nat) (e : error)
| CDialOk (i : nat) | CDialErr (i : nat) (e : error) | CFinish (i : nat)
| CClose (i : nat) | CCloseConnection (i : nat)
| CReset
| CConnFails (k : nat) (e : error).

Definition connector_step (l : connector_label) (s : connector_system) : result connector_system :=
  let c := cs_c s in
  let go i pc c := Ok (mkConnectorSystem c (<[i := pc]> (cs_pcs s))) in
  match l with
  | CGet i => match cs_pcs s !! i with None => go i GetLoop c | _ => Err disabled end
  | CLook i => match cs_pcs s !! i with Some GetLoop => let '(pc, c) := Get_look c in go i pc c | _ => Err disabled end
  | CWake i =>
      match cs_pcs s !! i with
      | Some (GetWait ch) => if bool_decide (ch ∈ cn_done c) then go i GetLoop c else Err disabled
      | _ => Err disabled
      end
  | CGiveUp i e => match cs_pcs s !! i with Some (GetWait ch) => go i (GetReturned (Err e)) c | _ => Err disabled end
  | CDialOk i =>
      match cs_pcs s !! i with
      | Some GetDial => go i (GetDialed (Ok (length (cn_conns c)))) (set_conns (cn_conns c ++ [None])%list c)
      | _ => Err disabled
      end
  | CDialErr i e => match cs_pcs s !! i with Some GetDial => go i (GetDialed (Err e)) c | _ => Err disabled end
  | CFinish i =>
      match cs_pcs s !! i with
      | Some (GetDialed r) => let! (pc, c) := Get_finish r c in go i pc c
      | _ => Err disabled
      end
  | CClose i => match cs_pcs s !! i with None => let '(pc, c) := Connector_Close c in go i pc c | _ => Err disabled end
  | CCloseConnection i =>
      match cs_pcs s !! i with
      | Some (CloseConnection has) => go i CloseReturned (if has then CloseWithError (cn_connection c) ErrTransportClosed c else c)
      | _ => Err disabled
      end
  | CReset => Ok (mkConnectorSystem (Connector_Reset c) (cs_pcs s))
  | CConnFails k e => Ok (mkConnectorSystem (CloseWithError k e c) (cs_pcs s))
  end.
Fixpoint connector_run (ls : list connector_label) (s : connector_system) : result connector_system :=
  match ls with [] => Ok s | l :: ls => let! s := connector_step l s in connector_run ls s end.

(** ** One dial, no leak *)

Definition dialing (pc : connector_pc) : Prop := match pc with GetDial | GetDialed _ => True | _ => False end.
(** Someone is responsible for an open connection. *)
Definition held (s : connector_system) (k : nat) : Prop :=
  (cn_hasConnection (cs_c s) = true /\ cn_connection (cs_c s) = k) \/
  (exists i, cs_pcs s !! i = Some (GetDialed (Ok k))) \/
  (exists i, cs_pcs s !! i = Some (CloseConnection true) /\ cn_connection (cs_c s) = k).
Record connector_inv (s : connector_system) : Prop := mkConnectorInv {
  ci_open : forall k, cn_conns (cs_c s) !! k = Some None -> held s k;
  ci_one : forall i j pc pc', cs_pcs s !! i = Some pc -> cs_pcs s !! j = Some pc' -> dialing pc -> dialing pc' -> i = j;
  ci_connecting : forall i pc, cs_pcs s !! i = Some pc -> dialing pc -> is_Some (cn_connecting (cs_c s));
  ci_dialer : forall ch, cn_connecting (cs_c s) = Some ch -> (ch ∉ cn_done (cs_c s)) /\ (exists i pc, cs_pcs s !! i = Some pc /\ dialing pc);
  ci_fresh : forall ch, ch ∈ cn_done (cs_c s) \/ cn_connecting (cs_c s) = Some ch -> (ch < cn_made (cs_c s))%nat;
  ci_wait : forall i ch, cs_pcs s !! i = Some (GetWait ch) -> ch ∈ cn_done (cs_c s) \/ cn_connecting (cs_c s) = Some ch;
  ci_dialed : forall i r, cs_pcs s !! i = Some (GetDialed r) -> match r with Ok k => (k < length (cn_conns (cs_c s)))%nat | Err _ => True | Panic _ => False end;
  ci_returned : forall i r, cs_pcs s !! i = Some (GetReturned r) -> match r with Ok k => (k < length (cn_conns (cs_c s)))%nat | Err _ => True | Panic _ => False end;
  ci_current : cn_hasConnection (cs_c s) = true -> (cn_connection (cs_c s) < length (cn_conns (cs_c s)))%nat;
  ci_closed : cn_closed (cs_c s) = true -> cn_hasConnection (cs_c s) = false;
  ci_closing : forall i has, cs_pcs s !! i = Some (CloseConnection has) -> cn_closed (cs_c s) = true;
  ci_none : forall ch, cn_connecting (cs_c s) = Some ch -> cn_hasConnection (cs_c s) = false
}.

Lemma connector_inv_new : connector_inv connector_new.
Proof. constructor; cbn; intros; try done; set_solver. Qed.
(** Moving a goroutine that holds no connection. *)
Lemma held_move c c' pcs i pc old k : pcs !! i = old ->
  (forall r, old <> Some (GetDialed r)) -> old <> Some (CloseConnection true) ->
  cn_hasConnection c' = cn_hasConnection c -> cn_connection c' = cn_connection c ->
  held (mkConnectorSystem c pcs) k -> held (mkConnectorSystem c' (<[i := pc]> pcs)) k.
Proof.
  intros Hi Ho1 Ho2 E1 E2 [H|[[j H]|[j [H Hk]]]]; unfold held; cbn [cs_c cs_pcs] in *; rewrite ?E1, ?E2.
  - by left.
  - right. left. exists j. rewrite lookup_insert_ne; [done|]. intros ->. rewrite H in Hi. by apply (Ho1 (Ok k)).
  - right. right. exists j. rewrite lookup_insert_ne; [done|]. intros ->. by rewrite H in Hi.
Qed.
(** The lookups of the goroutines after one of them moved. *)
Ltac pcs := repeat match goal with
  | H : <[_ := _]> _ !! _ = Some _ |- _ => apply lookup_insert_Some in H as [[? ?]|[? ?]]; simplify_eq/=
  end.

(** A goroutine that neither dials nor holds anything moves to such a place, or starts to wait for a channel that will be closed;
    the connector does not change. *)
Lemma quiet_inv s i old pc : connector_inv s -> cs_pcs s !! i = old ->
  match old with None | Some GetLoop | Some (GetWait _) => True | _ => False end ->
  match pc with
  | GetLoop | CloseReturned => True
  | GetWait ch => ch ∈ cn_done (cs_c s) \/ cn_connecting (cs_c s) = Some ch
  | GetReturned (Ok k) => (k < length (cn_conns (cs_c s)))%nat
  | GetReturned (Err _) => True
  | _ => False
  end -> connector_inv (mkConnectorSystem (cs_c s) (<[i := pc]> (cs_pcs s))).
Proof.
  intros [I1 I2 I3 I4 I5 I6 I7 I8 I9 I10 I11 I12] Hi Hold Hpc.
  assert (~ dialing pc) as Hnd by (destruct pc; cbn in *; tauto).
  assert (forall pc', old = Some pc' -> ~ dialing pc') as Hod by (intros pc' ->; destruct pc'; cbn in *; tauto).
  constructor; cbn [cs_c cs_pcs]; try done.
  - intros k Hk. eapply held_move; [exact Hi| | |done|done|]; [by destruct old as [[]|]|by destruct old as [[]|]|]. destruct s. by apply I1.
  - intros a b pa pb Ha Hb Da Db. pcs; try done. by eapply I2.
  - intros a pa Ha Da. pcs; [done|]. by eapply I3.
  - intros ch Hch. destruct (I4 ch Hch) as (Hn & j & pj & Hj & Dj). split; [done|]. exists j, pj. split; [|done].
    rewrite lookup_insert_ne; [done|]. intros ->. rewrite Hi in Hj. by apply (Hod pj).
  - intros a ch Ha. pcs; [done|]. by eapply I6.
  - intros a r Ha. pcs; [done|]. by eapply I7.
  - intros a r Ha. pcs; [|by eapply I8]. by destruct r.
  - intros a has Ha. pcs; [done|]. by eapply I11.
Qed.

(** Closing a connection changes nothing else, and only this one. *)
Lemma CloseWithError_eq k e c : CloseWithError k e c = set_conns (cn_conns (CloseWithError k e c)) c.
Proof. unfold CloseWithError. destruct (cn_conns c !! k) as [[|]|]; by destruct c. Qed.
Lemma CloseWithError_length k e c : length (cn_conns (CloseWithError k e c)) = length (cn_conns c).
Proof. unfold CloseWithError. destruct (cn_conns c !! k) as [[|]|]; [done| |done]. cbn. apply length_insert. Qed.
Lemma CloseWithError_open k e c j : cn_conns (CloseWithError k e c) !! j = Some None -> cn_conns c !! j = Some None /\ j <> k.
Proof.
  unfold CloseWithError. destruct (cn_conns c !! k) as [[e'|]|] eqn:E; cbn; intros H.
  - split; [done|]. intros ->. congruence.
  - destruct (decide (j = k)) as [->|Hne]; [rewrite list_lookup_insert_eq in H by (by eapply lookup_lt_Some); done|].
    by rewrite list_lookup_insert_ne in H by done.
  - split; [done|]. intros ->. congruence.
Qed.
Lemma close_inv s k e : connector_inv s -> connector_inv (mkConnectorSystem (CloseWithError k e (cs_c s)) (cs_pcs s)).
Proof.
  intros [I1 I2 I3 I4 I5 I6 I7 I8 I9 I10 I11 I12]. pose proof (CloseWithError_length k e (cs_c s)) as Hl. pose proof (CloseWithError_open k e (cs_c s)) as Ho.
  rewrite CloseWithError_eq. set (conns := cn_conns (CloseWithError k e (cs_c s))) in *.
  constructor; cbn [cs_c cs_pcs set_conns cn_conns cn_hasConnection cn_connection cn_connecting cn_done cn_made cn_closed]; rewrite ?Hl; try done.
  intros j Hj. destruct (Ho j Hj) as [Hj' _]. by apply I1.
Qed.
(** A connection that is closed, or none, is given up. *)
Lemma drop_inv s : connector_inv s -> (cn_hasConnection (cs_c s) = true -> IsClosed (cn_connection (cs_c s)) (cs_c s) = true) ->
  connector_inv (mkConnectorSystem (set_connection (cn_connection (cs_c s)) false (cs_c s)) (cs_pcs s)).
Proof.
  intros [I1 I2 I3 I4 I5 I6 I7 I8 I9 I10 I11 I12] Hc.
  constructor; cbn [cs_c cs_pcs set_connection cn_conns cn_hasConnection cn_connection cn_connecting cn_done cn_made cn_closed]; try done.
  intros k Hk. destruct (I1 k Hk) as [[Hh <-]|H]; [|by right]. specialize (Hc Hh). unfold IsClosed in Hc. by rewrite Hk in Hc.
Qed.

Lemma dial_inv s i : connector_inv s -> cs_pcs s !! i = Some GetLoop -> cn_connecting (cs_c s) = None -> cn_hasConnection (cs_c s) = false ->
  connector_inv (mkConnectorSystem (set_connecting (Some (cn_made (cs_c s))) (S (cn_made (cs_c s))) (cn_done (cs_c s)) (cs_c s)) (<[i := GetDial]> (cs_pcs s))).
Proof.
  intros [I1 I2 I3 I4 I5 I6 I7 I8 I9 I10 I11 I12] Hi Hn Hh.
  assert (forall j pc, cs_pcs s !! j = Some pc -> ~ dialing pc) as Hnone by (intros j pc Hj Hd; destruct (I3 j pc Hj Hd); congruence).
  constructor; cbn [cs_c cs_pcs set_connecting cn_conns cn_hasConnection cn_connection cn_connecting cn_done cn_made cn_closed]; try done.
  - intros k Hk. eapply held_move; [exact Hi|done|done|done|done|]. destruct s. by apply I1.
  - intros a b pa pb Ha Hb Da Db. pcs; try done; exfalso; by eapply Hnone.
  - intros ch [= <-]. split; [intros Hd; specialize (I5 _ (or_introl Hd)); lia|]. exists i, GetDial. by rewrite lookup_insert_eq.
  - intros ch [Hd|[= <-]]; [specialize (I5 _ (or_introl Hd)); lia|lia].
  - intros a ch Ha. pcs. destruct (I6 a ch) as [?|?]; [done|by left|congruence].
  - intros a r Ha. pcs. by eapply I7.
  - intros a r Ha. pcs. by eapply I8.
  - intros a has Ha. pcs. by eapply I11.
Qed.
Lemma look_inv s i : connector_inv s -> cs_pcs s !! i = Some GetLoop ->
  let '(pc, c) := Get_look (cs_c s) in connector_inv (mkConnectorSystem c (<[i := pc]> (cs_pcs s))).
Proof.
  intros H Hi. pose proof H as [I1 I2 I3 I4 I5 I6 I7 I8 I9 I10 I11 I12]. unfold Get_look. destruct (cn_closed (cs_c s)) eqn:Ec.
  { by eapply quiet_inv. }
  destruct (cn_hasConnection (cs_c s) && negb (IsClosed (cn_connection (cs_c s)) (cs_c s))) eqn:Eh.
  { apply andb_true_iff in Eh as [Eh _]. eapply quiet_inv; [done|done|done|]. by apply I9. }
  assert (connector_inv (mkConnectorSystem (set_connection (cn_connection (cs_c s)) false (cs_c s)) (cs_pcs s))) as Hd.
  { apply drop_inv; [done|]. intros Hh. rewrite Hh in Eh. by apply negb_false_iff in Eh. }
  cbv zeta. destruct (cn_connecting _) as [ch|] eqn:Ech.
  - eapply (quiet_inv _ i _ (GetWait ch)) in Hd; [exact Hd|exact Hi|done|]. by right.
  - by apply (dial_inv _ i) in Hd.
Qed.

(** The dial ends: with a new connection, or an error. *)
Lemma dial_ok_inv s i : connector_inv s -> cs_pcs s !! i = Some GetDial ->
  connector_inv (mkConnectorSystem (set_conns (cn_conns (cs_c s) ++ [None])%list (cs_c s)) (<[i := GetDialed (Ok (length (cn_conns (cs_c s))))]> (cs_pcs s))).
Proof.
  intros [I1 I2 I3 I4 I5 I6 I7 I8 I9 I10 I11 I12] Hi.
  constructor; cbn [cs_c cs_pcs set_conns cn_conns cn_hasConnection cn_connection cn_connecting cn_done cn_made cn_closed]; rewrite ?length_app; cbn [length].
  - intros k Hk. destruct (decide (k = length (cn_conns (cs_c s)))) as [->|Hne].
    + right. left. exists i. cbn [cs_pcs]. by rewrite lookup_insert_eq.
    + rewrite lookup_app_l in Hk by (apply lookup_lt_Some in Hk; rewrite length_app in Hk; cbn in Hk; lia).
      eapply held_move; [exact Hi|done|done|done|done|]. destruct s. by apply I1.
  - intros a b pa pb Ha Hb Da Db. pcs; try done; by eapply I2.
  - intros a pa Ha Da. pcs; by eapply I3.
  - intros ch Hch. destruct (I4 ch Hch) as (Hn & _). split; [done|]. exists i, (GetDialed (Ok (length (cn_conns (cs_c s))))). by rewrite lookup_insert_eq.
  - done.
  - intros a ch Ha. pcs. by eapply I6.
  - intros a r Ha. pcs; [lia|]. specialize (I7 a r ltac:(done)). destruct r; [lia|done|done].
  - intros a r Ha. pcs. specialize (I8 a r ltac:(done)). destruct r; [lia|done|done].
  - intros Hh. specialize (I9 Hh). lia.
  - done.
  - intros a has Ha. pcs. by eapply I11.
  - done.
Qed.
Lemma dial_err_inv s i e : connector_inv s -> cs_pcs s !! i = Some GetDial ->
  connector_inv (mkConnectorSystem (cs_c s) (<[i := GetDialed (Err e)]> (cs_pcs s))).
Proof.
  intros [I1 I2 I3 I4 I5 I6 I7 I8 I9 I10 I11 I12] Hi. constructor; cbn [cs_c cs_pcs]; try done.
  - intros k Hk. eapply held_move; [exact Hi|done|done|done|done|]. destruct s. by apply I1.
  - intros a b pa pb Ha Hb Da Db. pcs; try done; by eapply I2.
  - intros a pa Ha Da. pcs; by eapply I3.
  - intros ch Hch. destruct (I4 ch Hch) as (Hn & _). split; [done|]. exists i, (GetDialed (Err e)). by rewrite lookup_insert_eq.
  - intros a ch Ha. pcs. by eapply I6.
  - intros a r Ha. pcs; [done|]. by eapply I7.
  - intros a r Ha. pcs. by eapply I8.
  - intros a has Ha. pcs. by eapply I11.
Qed.

(** The end of a dial without a connection to keep: the channel is closed. *)
Lemma finish_inv s i r pc ch : connector_inv s -> cs_pcs s !! i = Some (GetDialed r) -> cn_connecting (cs_c s) = Some ch ->
  (forall k, cn_conns (cs_c s) !! k = Some None -> r <> Ok k) ->
  match pc with GetReturned (Ok k) => (k < length (cn_conns (cs_c s)))%nat | GetReturned (Err _) => True | _ => False end ->
  connector_inv (mkConnectorSystem (set_connecting None (cn_made (cs_c s)) ({[ch]} ∪ cn_done (cs_c s)) (cs_c s)) (<[i := pc]> (cs_pcs s))).
Proof.
  intros [I1 I2 I3 I4 I5 I6 I7 I8 I9 I10 I11 I12] Hi Hch Hr Hpc.
  assert (~ dialing pc) as Hnd by (destruct pc; cbn in *; tauto).
  assert (forall j pj, j <> i -> cs_pcs s !! j = Some pj -> ~ dialing pj) as Honly by (intros j pj Hne Hj Dj; apply Hne; by eapply I2).
  constructor; cbn [cs_c cs_pcs set_connecting cn_conns cn_hasConnection cn_connection cn_connecting cn_done cn_made cn_closed]; try done.
  - intros k Hk. destruct (I1 k Hk) as [H|[[j H]|[j [H E]]]]; [by left| |].
    + right. left. exists j. cbn [cs_pcs]. rewrite lookup_insert_ne; [done|]. intros ->. rewrite Hi in H. injection H as ->. by apply (Hr k).
    + right. right. exists j. cbn [cs_pcs]. rewrite lookup_insert_ne; [done|]. intros ->. congruence.
  - intros a b pa pb Ha Hb Da Db. pcs; try done. exfalso. by eapply Honly.
  - intros a pa Ha Da. pcs; [done|]. exfalso. by eapply Honly.
  - intros c [Hc|Hc]; [|done]. apply I5. set_solver.
  - intros a c Ha. pcs; [done|]. left. destruct (I6 a c) as [?|Hc]; [done|set_solver|]. rewrite Hch in Hc. injection Hc as ->. set_solver.
  - intros a r' Ha. pcs; [done|]. by eapply I7.
  - intros a r' Ha. pcs; [by destruct r'|]. by eapply I8.
  - intros a has Ha. pcs; [done|]. by eapply I11.
Qed.
(** The connection of a dial is kept. *)
Lemma keep_inv s i k ch : connector_inv s -> cs_pcs s !! i = Some (GetDialed (Ok k)) -> cn_connecting (cs_c s) = Some ch -> cn_closed (cs_c s) = false ->
  connector_inv (mkConnectorSystem (set_connection k true (set_connecting None (cn_made (cs_c s)) ({[ch]} ∪ cn_done (cs_c s)) (cs_c s)))
    (<[i := GetReturned (Ok k)]> (cs_pcs s))).
Proof.
  intros H Hi Hch Hcl. pose proof H as [I1 I2 I3 I4 I5 I6 I7 I8 I9 I10 I11 I12]. pose proof (I7 i _ Hi) as Hk. cbn beta iota in Hk.
  assert (forall j pj, j <> i -> cs_pcs s !! j = Some pj -> ~ dialing pj) as Honly by (intros j pj Hne Hj Dj; apply Hne; by eapply I2).
  constructor; cbn [cs_c cs_pcs set_connection set_connecting cn_conns cn_hasConnection cn_connection cn_connecting cn_done cn_made cn_closed]; try done.
  - intros j Hj. destruct (I1 j Hj) as [[Hh E]|[[a Ha]|[a [Ha _]]]]; [rewrite (I12 ch Hch) in Hh; done| |specialize (I11 a _ Ha); congruence].
    destruct (decide (a = i)) as [->|Hne]; [|exfalso; by eapply Honly]. left. cbn. rewrite Hi in Ha. by injection Ha.
  - intros a b pa pb Ha Hb Da Db. pcs; try done. exfalso. by eapply Honly.
  - intros a pa Ha Da. pcs; [done|]. exfalso. by eapply Honly.
  - intros c [Hc|Hc]; [|done]. apply I5. set_solver.
  - intros a c Ha. pcs. left. destruct (I6 a c) as [?|Hc]; [done|set_solver|]. rewrite Hch in Hc. injection Hc as ->. set_solver.
  - intros a r' Ha. pcs. by eapply I7.
  - intros a r' Ha. pcs; [done|]. by eapply I8.
  - congruence.
  - intros a has Ha. pcs. by eapply I11.
Qed.

Lemma close_begin_inv s i : connector_inv s -> cs_pcs s !! i = None ->
  let '(pc, c) := Connector_Close (cs_c s) in connector_inv (mkConnectorSystem c (<[i := pc]> (cs_pcs s))).
Proof.
  intros H Hi. pose proof H as [I1 I2 I3 I4 I5 I6 I7 I8 I9 I10 I11 I12]. unfold Connector_Close. destruct (cn_closed (cs_c s)) eqn:Ec; [by eapply quiet_inv|].
  constructor; cbn [cs_c cs_pcs set_cn_closed cn_conns cn_hasConnection cn_connection cn_connecting cn_done cn_made cn_closed]; try done.
  - intros k Hk. destruct (I1 k Hk) as [[Hh E]|[[j Hj]|[j [Hj E]]]].
    + right. right. exists i. cbn [cs_pcs cs_c cn_connection set_cn_closed]. by rewrite lookup_insert_eq, Hh.
    + right. left. exists j. cbn [cs_pcs]. rewrite lookup_insert_ne; [done|]. intros ->. congruence.
    + specialize (I11 j _ Hj). congruence.
  - intros a b pa pb Ha Hb Da Db. pcs; try done. by eapply I2.
  - intros a pa Ha Da. pcs; [done|]. by eapply I3.
  - intros ch Hch. destruct (I4 ch Hch) as (Hn & j & pj & Hj & Dj). split; [done|]. exists j, pj. split; [|done].
    rewrite lookup_insert_ne; [done|]. intros ->. congruence.
  - intros a ch Ha. pcs. by eapply I6.
  - intros a r Ha. pcs. by eapply I7.
  - intros a r Ha. pcs. by eapply I8.
Qed.
Lemma close_end_inv s i has : connector_inv s -> cs_pcs s !! i = Some (CloseConnection has) ->
  connector_inv (mkConnectorSystem (if has then CloseWithError (cn_connection (cs_c s)) ErrTransportClosed (cs_c s) else cs_c s) (<[i := CloseReturned]> (cs_pcs s))).
Proof.
  intros H Hi. set (c := if has then _ else _).
  assert (connector_inv (mkConnectorSystem c (cs_pcs s))) as [I1 I2 I3 I4 I5 I6 I7 I8 I9 I10 I11 I12] by (unfold c; destruct has; [by apply close_inv|by destruct s]).
  assert (has = true -> cn_conns c !! cn_connection c <> Some None) as Hc.
  { intros ->. unfold c. intros E. apply CloseWithError_open in E as [_ E]. apply E. by rewrite CloseWithError_eq. }
  cbn [cs_c cs_pcs] in *. constructor; cbn [cs_c cs_pcs]; try done.
  - intros k Hk. destruct (I1 k Hk) as [Hh|[[j Hj]|[j [Hj E]]]]; cbn [cs_c cs_pcs] in *; [by left| |].
    + right. left. exists j. cbn [cs_pcs]. rewrite lookup_insert_ne; [done|]. intros ->. congruence.
    + right. right. exists j. cbn [cs_pcs cs_c]. rewrite lookup_insert_ne; [done|]. intros ->. rewrite Hi in Hj. injection Hj as ->. subst k. by apply Hc.
  - intros a b pa pb Ha Hb Da Db. pcs; try done. by eapply I2.
  - intros a pa Ha Da. pcs; [done|]. by eapply I3.
  - intros ch Hch. destruct (I4 ch Hch) as (Hn & j & pj & Hj & Dj). split; [done|]. exists j, pj. split; [|done].
    rewrite lookup_insert_ne; [done|]. intros ->. rewrite Hi in Hj. injection Hj as <-. done.
  - intros a ch Ha. pcs. by eapply I6.
  - intros a r Ha. pcs. by eapply I7.
  - intros a r Ha. pcs. by eapply I8.
  - intros a has' Ha. pcs. by eapply I11.
Qed.
Lemma finish_step_inv s i r : connector_inv s -> cs_pcs s !! i = Some (GetDialed r) ->
  exists pc c, Get_finish r (cs_c s) = Ok (pc, c) /\ connector_inv (mkConnectorSystem c (<[i := pc]> (cs_pcs s))).
Proof.
  intros H Hi. pose proof H as [I1 I2 I3 I4 I5 I6 I7 I8 I9 I10 I11 I12]. destruct (I3 i _ Hi ltac:(done)) as [ch Hch]. destruct (I4 ch Hch) as [Hd _].
  unfold Get_finish. rewrite Hch, bool_decide_eq_false_2 by done. cbv zeta. destruct r as [k|e|m]; [| |by destruct (I7 i _ Hi)].
  - change (cn_closed (set_connecting None (cn_made (cs_c s)) ({[ch]} ∪ cn_done (cs_c s)) (cs_c s))) with (cn_closed (cs_c s)).
    destruct (cn_closed (cs_c s)) eqn:Ec; [|eexists _, _; split; [done|by apply keep_inv]].
    eexists _, _. split; [done|]. pose proof (close_inv s k ErrTransportClosed H) as H'.
    pose proof (finish_inv _ i (Ok k) (GetReturned (Err ErrTransportClosed)) ch H' Hi) as G. cbn [cs_c cs_pcs] in G.
    assert (forall c, CloseWithError k ErrTransportClosed (set_connecting None (cn_made c) ({[ch]} ∪ cn_done c) c) =
      set_connecting None (cn_made (CloseWithError k ErrTransportClosed c)) ({[ch]} ∪ cn_done (CloseWithError k ErrTransportClosed c)) (CloseWithError k ErrTransportClosed c)) as ->.
    { intros c. unfold CloseWithError. cbn [set_connecting cn_conns]. by destruct (cn_conns c !! k) as [[]|]. }
    apply G; [by rewrite CloseWithError_eq| |done]. intros j Hj [= ->]. by apply CloseWithError_open in Hj as [_ ?].
  - eexists _, _. split; [done|]. by apply (finish_inv s i (Err e)).
Qed.
Lemma reset_inv s : connector_inv s -> connector_inv (mkConnectorSystem (Connector_Reset (cs_c s)) (cs_pcs s)).
Proof.
  intros H. unfold Connector_Reset. destruct (cn_hasConnection (cs_c s)) eqn:Eh; [|by destruct s].
  pose proof (close_inv s (cn_connection (cs_c s)) ErrConnectionReset H) as H'.
  assert (cn_connection (CloseWithError (cn_connection (cs_c s)) ErrConnectionReset (cs_c s)) = cn_connection (cs_c s)) as E by (by rewrite CloseWithError_eq).
  apply drop_inv in H'; cbn [cs_c cs_pcs] in *; [by rewrite E in H'|]. intros _. rewrite E. unfold IsClosed.
  destruct (cn_conns (CloseWithError _ _ _) !! _) as [[]|] eqn:Ek; [done| |done]. by apply CloseWithError_open in Ek as [_ ?].
Qed.
Lemma connector_step_inv l s : connector_inv s -> match connector_step l s with Ok s' => connector_inv s' | Err _ => True | Panic _ => False end.
Proof.
  intros H. destruct l as [i|i|i|i e|i|i e|i|i|i| |k e]; cbn [connector_step].
  - destruct (cs_pcs s !! i) eqn:Hi; [done|]. by eapply quiet_inv.
  - destruct (cs_pcs s !! i) as [[]|] eqn:Hi; try done. pose proof (look_inv s i H Hi) as G. by destruct (Get_look (cs_c s)) as [pc c].
  - destruct (cs_pcs s !! i) as [[]|] eqn:Hi; try done. case_bool_decide; [|done]. by eapply quiet_inv.
  - destruct (cs_pcs s !! i) as [[]|] eqn:Hi; try done. by eapply quiet_inv.
  - destruct (cs_pcs s !! i) as [[]|] eqn:Hi; try done. by apply dial_ok_inv.
  - destruct (cs_pcs s !! i) as [[]|] eqn:Hi; try done. by apply dial_err_inv.
  - destruct (cs_pcs s !! i) as [[]|] eqn:Hi; try done. by destruct (finish_step_inv s i r H Hi) as (pc & c & -> & G).
  - destruct (cs_pcs s !! i) eqn:Hi; [done|]. pose proof (close_begin_inv s i H Hi) as G. by destruct (Connector_Close (cs_c s)) as [pc c].
  - destruct (cs_pcs s !! i) as [[]|] eqn:Hi; try done. by apply close_end_inv.
  - by apply reset_inv.
  - by apply close_inv.
Qed.

(** What holds at any time. *)
Definition settled (pc : connector_pc) : Prop := match pc with GetDialed _ | CloseConnection _ => False | _ => True end.
Record connector_safe (s : connector_system) : Prop := mkConnectorSafe {
  safe_one_dial : forall i j pc pc', cs_pcs s !! i = Some pc -> cs_pcs s !! j = Some pc' -> dialing pc -> dialing pc' -> i = j;
  safe_wakes : forall i ch, cs_pcs s !! i = Some (GetWait ch) -> (ch ∈ cn_done (cs_c s)) \/ (exists j pc, cs_pcs s !! j = Some pc /\ dialing pc);
  safe_open : forall k, cn_conns (cs_c s) !! k = Some None -> held s k;
  safe_closed : cn_closed (cs_c s) = true -> (forall i pc, cs_pcs s !! i = Some pc -> settled pc) -> forall k e, cn_conns (cs_c s) !! k = Some e -> e <> None
}.
Lemma connector_inv_safe s : connector_inv s -> connector_safe s.
Proof.
  intros [I1 I2 I3 I4 I5 I6 I7 I8 I9 I10 I11 I12]. constructor; [done| |done|].
  - intros i ch Hi. destruct (I6 i ch Hi) as [?|Hc]; [by left|right]. by destruct (I4 ch Hc).
  - intros Hc Hs k e Hk ->. destruct (I1 k Hk) as [[Hh _]|[[i Hi]|[i [Hi _]]]].
    + rewrite (I10 Hc) in Hh. done.
    + by apply (Hs i _ Hi).
    + by apply (Hs i _ Hi).
Qed.
(** C19: a connector dials one connection at a time and leaks none, in every interleaving of [Get], [Close], [Reset] and failing connections.  No channel is
    closed twice or before it is made; at most one goroutine dials; whoever waits, waits for a channel that is closed or for a dial that goes on; every open connection is the
    current one, or is in the hands of a goroutine that will keep or close it; and when the connector is closed and the goroutines have come to rest, every connection is closed. *)
Theorem connector_safe_always ls : match connector_run ls connector_new with Ok s => connector_safe s | Err _ => True | Panic _ => False end.
Proof.
  assert (forall s, connector_inv s -> match connector_run ls s with Ok s => connector_safe s | Err _ => True | Panic _ => False end) as G; [|apply G, connector_inv_new].
  induction ls as [|l ls IH]; intros s Hs; cbn [connector_run]; [by apply connector_inv_safe|]. pose proof (connector_step_inv l s Hs) as Hl.
  destruct (connector_step l s) as [s'|e|m]; cbn [mbind result_bind]; [by apply IH|done|done].
Qed.

(** Two goroutines ask at once: one dials, the other waits, and both get the connection; [Close] closes it. *)
Example two_gets : exists s,
  connector_run [CGet 1; CGet 2; CLook 1; CLook 2; CDialOk 1; CFinish 1; CWake 2; CLook 2; CClose 3; CCloseConnection 3]%nat connector_new = Ok s /\
  cs_pcs s !! 1%nat = Some (GetReturned (Ok 0%nat)) /\ cs_pcs s !! 2%nat = Some (GetReturned (Ok 0%nat)) /\
  cn_conns (cs_c s) = [Some ErrTransportClosed].
Proof. eexists. split; [vm_compute; reflexivity|]. by vm_compute. Qed.
