(* ===== verification/UDPTransport.v ===== *)
(** * UDPTransport: queries over one UDP connection

    [UDPTransport] (dns/transport/udp.go): the query ID, the callbacks of the queries that wait, the
    goroutines in [exchange], and the goroutines in [recvLoop], one per connection.  What is done under a mutex is one step. *)

From S2P Require Import Prelude GoStd NetIP DNSMessage TransportBase Connector.
Open Scope string_scope.

(** ** Query IDs *)

(** [nextAvailableQueryId]: up to [fuel] turns from [queryId]; the error or the ID, and the ID that is left in the transport. *)
Definition err_no_query_id : error := ENew "no available query ID".
Fixpoint next_query_id {A} (fuel : nat) (callbacks : gmap N A) (start queryId : N) : result N * N :=
  match fuel with
  | O => (Panic "out of fuel", queryId)
  | S f =>
      let queryId := ((queryId + 1) mod 65536)%N in
      match callbacks !! queryId with
      | None => (Ok queryId, queryId)
      | Some _ => if (queryId =? start)%N then (Err err_no_query_id, queryId) else next_query_id f callbacks start queryId
      end
  end.
(** A [uint16] has 65536 values. *)
Definition query_ids : nat := N.to_nat 65536.
Definition nextAvailableQueryId {A} (callbacks : gmap N A) (queryId : N) : result N * N :=
  next_query_id query_ids callbacks queryId queryId.

Definition id_after (start k : N) : N := ((start + k) mod 65536)%N.
Lemma id_after_succ start k : (start < 65536)%N -> id_after start (k + 1) = ((id_after start k + 1) mod 65536)%N.
Proof. intros H. unfold id_after. rewrite N.Div0.add_mod_idemp_l. f_equal. lia. Qed.
Lemma id_after_cycle start k : (start < 65536)%N -> (0 < k)%N -> (k < 65536)%N -> id_after start k <> start.
Proof.
  intros Hs H0 Hk. unfold id_after. destruct (N.lt_ge_cases (start + k) 65536) as [Hl|Hg].
  - rewrite N.mod_small by done. lia.
  - rewrite (N.Div0.mod_eq (start + k) 65536). assert ((start + k) / 65536 = 1)%N as -> by (symmetry; apply (N.div_unique _ _ _ (start + k - 65536)); lia). lia.
Qed.
Lemma next_query_id_spec {A} (callbacks : gmap N A) start : (start < 65536)%N -> forall fuel k, (N.of_nat fuel + k = 65536)%N ->
  (forall j, (0 < j <= k)%N -> is_Some (callbacks !! id_after start j)) -> (k < 65536)%N ->
  match next_query_id fuel callbacks start (id_after start k) with
  | (Ok q, q') => q' = q /\ callbacks !! q = None /\ exists n, (0 < n <= 65536)%N /\ q = id_after start n /\ (forall j, (0 < j < n)%N -> is_Some (callbacks !! id_after start j))
  | (Err _, _) => forall q, (q < 65536)%N -> is_Some (callbacks !! q)
  | (Panic _, _) => False
  end.
Proof.
  intros Hs fuel. induction fuel as [|f IH]; intros k Hf Hused Hk; [lia|]. cbn [next_query_id]. rewrite <- id_after_succ by done.
  destruct (callbacks !! id_after start (k + 1)) as [a|] eqn:E.
  - assert (forall j, (0 < j <= k + 1)%N -> is_Some (callbacks !! id_after start j)) as Hused'.
    { intros j Hj. destruct (N.eq_dec j (k + 1)) as [->|]; [by eexists|]. apply Hused. lia. }
    destruct (N.eqb_spec (id_after start (k + 1)) start) as [Ec|Ec].
    + assert (k + 1 = 65536)%N as Hend. { destruct (N.eq_dec (k + 1) 65536); [done|]. destruct (id_after_cycle start (k + 1)); [done|lia|lia|done]. }
      intros q Hq. destruct (N.lt_ge_cases start q) as [Hl|Hg].
      * replace q with (id_after start (q - start)); [apply Hused'; lia|]. unfold id_after. rewrite N.mod_small by lia. lia.
      * destruct (N.eq_dec q start) as [->|Hne]; [rewrite <- Ec at 1; by eexists|].
        replace q with (id_after start (q + 65536 - start)); [apply Hused'; lia|]. unfold id_after. replace (start + (q + 65536 - start))%N with (q + 1 * 65536)%N by lia.
        rewrite N.Div0.mod_add, N.mod_small by lia. done.
    + apply IH; [lia|done|]. destruct (N.eq_dec (k + 1) 65536) as [E1|]; [|lia]. exfalso. apply Ec. rewrite E1. unfold id_after.
      replace (start + 65536)%N with (start + 1 * 65536)%N by lia. rewrite N.Div0.mod_add. by apply N.mod_small.
  - split; [done|]. split; [done|]. exists (k + 1)%N. split_and!; [lia|lia|done|]. intros j Hj. apply Hused. lia.
Qed.
(** The next free ID is found, in the order of the IDs, and the error means that none is free. *)
Lemma nextAvailableQueryId_spec {A} (callbacks : gmap N A) start : (start < 65536)%N ->
  match nextAvailableQueryId callbacks start with
  | (Ok q, q') => q' = q /\ (q < 65536)%N /\ callbacks !! q = None
  | (Err _, q') => (q' < 65536)%N /\ forall q, (q < 65536)%N -> is_Some (callbacks !! q)
  | (Panic _, _) => False
  end.
Proof.
  intros Hs. unfold nextAvailableQueryId. pose proof (next_query_id_spec callbacks start Hs query_ids 0) as H.
  assert (id_after start 0 = start) as E by (unfold id_after; rewrite N.add_0_r; by apply N.mod_small). rewrite E in H.
  assert (forall fuel q0, (q0 < 65536)%N -> (snd (next_query_id fuel callbacks start q0) < 65536)%N) as Hlt.
  { intros fuel. induction fuel as [|f IHf]; intros q0 Hq; [done|]. cbn [next_query_id]. assert ((q0 + 1) mod 65536 < 65536)%N by (apply N.mod_lt; lia).
    destruct (callbacks !! _); [|done]. destruct (_ =? _)%N; [done|by apply IHf]. }
  specialize (Hlt query_ids start Hs). specialize (H ltac:(unfold query_ids; lia) ltac:(intros; lia) ltac:(lia)).
  destruct (next_query_id query_ids callbacks start start) as [[q|e|m] q']; cbn [snd] in Hlt; [|done|done]. destruct H as (-> & H & _). done.
Qed.

(** ** Goroutines *)

(** The transport: [udpCallback]s are numbered in the order they are made, with the response of each ([done] is closed when there is one);
    the size of the buffers for answers. *)
Record UDPTransport : Type := mkUDPTransport { ut_queryId : N; ut_callbacks : gmap N nat; ut_cells : list (option Msg); ut_udpSize : N }.
Definition set_udpSize (size : N) (t : UDPTransport) : UDPTransport := mkUDPTransport (ut_queryId t) (ut_callbacks t) (ut_cells t) size.

(** A goroutine in [exchange], with its message: at the head of the loop over [udpSize]; before the [CompareAndSwap], with the size it has
    read and the one it wants; before the [Reset] of the connector; before and in [Get] of the connector; with a connection, before it has an ID,
    before it sends, in the [select]; before the deferred removal, and back. *)
Inductive exchange_pc : Type :=
| XLoad (message : Msg)
| XSwap (message : Msg) (current udpSize : N)
| XReset (message : Msg)
| XGet (message : Msg)
| XGetting (message : Msg)
| XRegister (conn : nat) (message : Msg)
| XSend (conn : nat) (queryId : N) (callback : nat) (message : Msg)
| XSelect (conn : nat) (queryId : N) (callback : nat) (message : Msg)
| XRemove (queryId : N) (callback : nat) (message : Msg) (r : result Msg)
| XReturned (registered : option (N * nat)) (message : Msg) (r : result Msg).
(** The goroutine in [recvLoop] of a connection: before it makes a buffer, in the read with a buffer of some size, with a message before the callback
    is looked up, with the callback that was found, and after a read that failed. *)
Inductive recv_pc : Type :=
| RAlloc
| RRead (size : N)
| RLookup (message : Msg)
| RDeliver (callback : nat) (message : Msg)
| RReturned.

(** The transport, its connector with the goroutines in [Get] and [Close], the goroutines in [exchange], and those in [recvLoop] by connection.  The messages
    that were sent, the messages for which a callback was found, and the packets that were read, with the size of the buffer, are recorded. *)
Record udp_system : Type := mkUDPSystem {
  us_t : UDPTransport;
  us_exchange : gmap nat exchange_pc;
  us_recv : gmap nat recv_pc;
  us_sent : list Msg;
  us_found : list (nat * Msg);
  us_connector : connector_system;
  us_read : list (list N * N)
}.
Definition udp_new : udp_system := mkUDPSystem (mkUDPTransport 0 ∅ [] 2048) ∅ ∅ [] [] connector_new [].

Section Goroutines.
Context `{DNSLibrary} (Unpack : list N -> option Msg).   (* [Msg.Unpack] of the DNS library *)

(** The head of the loop: [Load] and the comparison. *)
Definition exchange_load (message : Msg) (t : UDPTransport) : exchange_pc :=
  match IsEdns0 message with
  | Some edns0Opt => if (opt_UDPSize edns0Opt <=? ut_udpSize t)%N then XGet message else XSwap message (ut_udpSize t) (opt_UDPSize edns0Opt)
  | None => XGet message
  end.
(** The [CompareAndSwap]. *)
Definition exchange_swap (message : Msg) (current udpSize : N) (t : UDPTransport) : exchange_pc * UDPTransport :=
  if (ut_udpSize t =? current)%N then (XReset message, set_udpSize udpSize t) else (XLoad message, t).

(** The steps of a caller: the call, the loop, [Reset], [Get], an ID, the packet, the ways out of the [select], the removal.  [UConnector]: a step of a
    goroutine in [Get], or of [Close] and [Reset] of the transport.  The steps of a receiver: a buffer, a packet, its callback, its delivery. *)
Inductive udp_label : Type :=
| UExchange (i : nat) (message : Msg) | ULoad (i : nat) | USwap (i : nat) | UReset (i : nat) | UGet (i : nat) | UGot (i : nat)
| UConnector (l : connector_label)
| URegister (i : nat) | USend (i : nat) | UPackFails (i : nat) (e : error) | USendFails (i : nat) (e : error)
| UAnswered (i : nat) | UConnDone (i : nat) | UGiveUp (i : nat) (e : error) | URemove (i : nat)
| UAlloc (k : nat) | URecv (k : nat) (packet : list N) | URecvFails (k : nat) (e : error) | ULookup (k : nat) | UDeliver (k : nat).

Definition go (i : nat) (pc : exchange_pc) (t : UDPTransport) (s : udp_system) : udp_system :=
  mkUDPSystem t (<[i := pc]> (us_exchange s)) (us_recv s) (us_sent s) (us_found s) (us_connector s) (us_read s).
Definition go_recv (k : nat) (pc : recv_pc) (s : udp_system) : udp_system :=
  mkUDPSystem (us_t s) (us_exchange s) (<[k := pc]> (us_recv s)) (us_sent s) (us_found s) (us_connector s) (us_read s).
(** A step of the connector; a dial that succeeds starts the receiver of its connection. *)
Definition connector_go (l : connector_label) (s : udp_system) : result udp_system :=
  let! c := connector_step l (us_connector s) in
  let recv := match l with CDialOk _ => <[length (cn_conns (cs_c (us_connector s))) := RAlloc]> (us_recv s) | _ => us_recv s end in
  Ok (mkUDPSystem (us_t s) (us_exchange s) recv (us_sent s) (us_found s) c (us_read s)).
(** What the goroutines of the transport call for themselves. *)
Definition own_label (l : connector_label) : bool := match l with CGet _ | CConnFails _ _ => true | _ => false end.

Definition udp_step (l : udp_label) (s : udp_system) : result udp_system :=
  let t := us_t s in
  match l with
  | UExchange i message => match us_exchange s !! i with None => Ok (go i (XLoad message) t s) | _ => Err disabled end
  | ULoad i => match us_exchange s !! i with Some (XLoad message) => Ok (go i (exchange_load message t) t s) | _ => Err disabled end
  | USwap i =>
      match us_exchange s !! i with
      | Some (XSwap message current udpSize) => let '(pc, t) := exchange_swap message current udpSize t in Ok (go i pc t s)
      | _ => Err disabled
      end
  | UReset i => match us_exchange s !! i with Some (XReset message) => connector_go CReset (go i (XGet message) t s) | _ => Err disabled end
  | UGet i => match us_exchange s !! i with Some (XGet message) => connector_go (CGet i) (go i (XGetting message) t s) | _ => Err disabled end
  | UConnector l => if own_label l then Err disabled else connector_go l s
  | UGot i =>
      match us_exchange s !! i, cs_pcs (us_connector s) !! i with
      | Some (XGetting message), Some (GetReturned r) =>
          match r with
          | Ok conn => Ok (go i (XRegister conn message) t s)
          | Err e => Ok (go i (XReturned None message (Err e)) t s)
          | Panic m => Panic m
          end
      | _, _ => Err disabled
      end
  | URegister i =>
      match us_exchange s !! i with
      | Some (XRegister conn message) =>
          let callback := length (ut_cells t) in
          let cells := (ut_cells t ++ [None])%list in
          match nextAvailableQueryId (ut_callbacks t) (ut_queryId t) with
          | (Ok q, id) => Ok (go i (XSend conn q callback message) (mkUDPTransport id (<[q := callback]> (ut_callbacks t)) cells (ut_udpSize t)) s)
          | (Err e, id) => Ok (go i (XReturned None message (Err e)) (mkUDPTransport id (ut_callbacks t) cells (ut_udpSize t)) s)
          | (Panic m, _) => Panic m
          end
      | _ => Err disabled
      end
  | USend i =>
      match us_exchange s !! i with
      | Some (XSend conn q callback message) =>
          Ok (mkUDPSystem t (<[i := XSelect conn q callback message]> (us_exchange s)) (us_recv s) (us_sent s ++ [set_msg_Id q message])%list (us_found s)
                (us_connector s) (us_read s))
      | _ => Err disabled
      end
  | UPackFails i e =>
      match us_exchange s !! i with Some (XSend _ q callback message) => Ok (go i (XRemove q callback message (Err e)) t s) | _ => Err disabled end
  | USendFails i e =>
      match us_exchange s !! i with
      | Some (XSend conn q callback message) => connector_go (CConnFails conn e) (go i (XRemove q callback message (Err e)) t s)
      | _ => Err disabled
      end
  | UAnswered i =>
      match us_exchange s !! i with
      | Some (XSelect _ q callback message) =>
          match ut_cells t !! callback with
          | Some (Some response) => Ok (go i (XRemove q callback message (Ok (set_msg_Id (msg_Id message) response))) t s)
          | _ => Err disabled
          end
      | _ => Err disabled
      end
  | UConnDone i =>
      match us_exchange s !! i with
      | Some (XSelect conn q callback message) =>
          match cn_conns (cs_c (us_connector s)) !! conn with
          | Some (Some e) => Ok (go i (XRemove q callback message (Err e)) t s)
          | _ => Err disabled
          end
      | _ => Err disabled
      end
  | UGiveUp i e =>
      match us_exchange s !! i with Some (XSelect _ q callback message) => Ok (go i (XRemove q callback message (Err e)) t s) | _ => Err disabled end
  | URemove i =>
      match us_exchange s !! i with
      | Some (XRemove q callback message r) =>
          Ok (go i (XReturned (Some (q, callback)) message r) (mkUDPTransport (ut_queryId t) (delete q (ut_callbacks t)) (ut_cells t) (ut_udpSize t)) s)
      | _ => Err disabled
      end
  | UAlloc k => match us_recv s !! k with Some RAlloc => Ok (go_recv k (RRead (ut_udpSize t)) s) | _ => Err disabled end
  | URecv k packet =>
      match us_recv s !! k with
      | Some (RRead size) =>
          let pc := match Unpack (take (N.to_nat size) packet) with Some message => RLookup message | None => RAlloc end in
          Ok (mkUDPSystem t (us_exchange s) (<[k := pc]> (us_recv s)) (us_sent s) (us_found s) (us_connector s) ((packet, size) :: us_read s))
      | _ => Err disabled
      end
  | URecvFails k e => match us_recv s !! k with Some (RRead _) => connector_go (CConnFails k e) (go_recv k RReturned s) | _ => Err disabled end
  | ULookup k =>
      match us_recv s !! k with
      | Some (RLookup message) =>
          match ut_callbacks t !! msg_Id message with
          | Some callback =>
              Ok (mkUDPSystem t (us_exchange s) (<[k := RDeliver callback message]> (us_recv s)) (us_sent s) (us_found s ++ [(callback, message)])%list
                    (us_connector s) (us_read s))
          | None => Ok (go_recv k RAlloc s)
          end
      | _ => Err disabled
      end
  | UDeliver k =>
      match us_recv s !! k with
      | Some (RDeliver callback message) =>
          let cells := match ut_cells t !! callback with Some None => <[callback := Some message]> (ut_cells t) | _ => ut_cells t end in
          Ok (mkUDPSystem (mkUDPTransport (ut_queryId t) (ut_callbacks t) cells (ut_udpSize t)) (us_exchange s) (<[k := RAlloc]> (us_recv s)) (us_sent s)
                (us_found s) (us_connector s) (us_read s))
      | _ => Err disabled
      end
  end.
Fixpoint udp_run (ls : list udp_label) (s : udp_system) : result udp_system :=
  match ls with [] => Ok s | l :: ls => let! s := udp_step l s in udp_run ls s end.
End Goroutines.

(** ** Whose answer it is *)

(** The ID and the callback of a goroutine that has them, and whether they are still registered. *)
Definition ticket (pc : exchange_pc) : option (N * nat) :=
  match pc with
  | XSend _ q cb _ | XSelect _ q cb _ | XRemove q cb _ _ => Some (q, cb)
  | XReturned registered _ _ => registered
  | _ => None
  end.
Definition registered (pc : exchange_pc) : bool := match pc with XSend _ _ _ _ | XSelect _ _ _ _ | XRemove _ _ _ _ => true | _ => false end.
Definition answer (pc : exchange_pc) : option (Msg * result Msg) :=
  match pc with XRemove _ _ m r | XReturned _ m r => Some (m, r) | _ => None end.

Record udp_inv (s : udp_system) : Prop := mkUDPInv {
  ui_id : (ut_queryId (us_t s) < 65536)%N;
  ui_registered : forall i pc q cb, us_exchange s !! i = Some pc -> registered pc = true -> ticket pc = Some (q, cb) -> ut_callbacks (us_t s) !! q = Some cb;
  ui_callback : forall q cb, ut_callbacks (us_t s) !! q = Some cb -> exists i pc, us_exchange s !! i = Some pc /\ registered pc = true /\ ticket pc = Some (q, cb);
  ui_made : forall i pc q cb, us_exchange s !! i = Some pc -> ticket pc = Some (q, cb) -> (cb < length (ut_cells (us_t s)))%nat;
  ui_owner : forall i j pc pc' q q' cb, us_exchange s !! i = Some pc -> us_exchange s !! j = Some pc' -> ticket pc = Some (q, cb) -> ticket pc' = Some (q', cb) -> i = j;
  ui_found : forall cb m, (cb, m) ∈ us_found s -> (cb < length (ut_cells (us_t s)))%nat /\ forall i pc q, us_exchange s !! i = Some pc -> ticket pc = Some (q, cb) -> msg_Id m = q;
  ui_deliver : forall j cb m, us_recv s !! j = Some (RDeliver cb m) -> (cb, m) ∈ us_found s;
  ui_cell : forall cb m, ut_cells (us_t s) !! cb = Some (Some m) -> (cb, m) ∈ us_found s;
  ui_answer : forall i pc m r, us_exchange s !! i = Some pc -> answer pc = Some (m, Ok r) ->
    exists q cb m', ticket pc = Some (q, cb) /\ set_msg_Id q m ∈ us_sent s /\ (cb, m') ∈ us_found s /\ r = set_msg_Id (msg_Id m) m';
  ui_sent : forall i k q cb m, us_exchange s !! i = Some (XSelect k q cb m) -> set_msg_Id q m ∈ us_sent s;
  ui_panic : forall i pc m msg, us_exchange s !! i = Some pc -> answer pc <> Some (m, Panic msg)
}.

Lemma udp_inv_new : udp_inv udp_new.
Proof. constructor; cbn; intros; try done; set_solver. Qed.
(** A goroutine goes on with the ID and the callback it had, if any, still registered if it was. *)
Lemma keep_ticket_inv s i old pc sent : udp_inv s -> us_exchange s !! i = old ->
  (default None (ticket <$> old) = ticket pc) -> (default false (registered <$> old) = registered pc) -> us_sent s ⊆ sent ->
  (forall k q cb m, pc = XSelect k q cb m -> set_msg_Id q m ∈ sent) ->
  (forall m r, answer pc = Some (m, Ok r) -> exists q cb m', ticket pc = Some (q, cb) /\ set_msg_Id q m ∈ sent /\ (cb, m') ∈ us_found s /\ r = set_msg_Id (msg_Id m) m') ->
  (forall m msg, answer pc <> Some (m, Panic msg)) ->
  udp_inv (mkUDPSystem (us_t s) (<[i := pc]> (us_exchange s)) (us_recv s) sent (us_found s) (us_connector s) (us_read s)).
Proof.
  intros [I1 I2 I3 I4 I5 I6 I7 I8 I9 I10 I11] Hi Ht Hr Hsent Hsel Hans Hpan.
  assert (forall j pj q cb, <[i := pc]> (us_exchange s) !! j = Some pj -> ticket pj = Some (q, cb) ->
    exists p0, us_exchange s !! j = Some p0 /\ ticket p0 = Some (q, cb) /\ registered p0 = registered pj) as Hold.
  { intros j pj q cb Hj Hq. apply lookup_insert_Some in Hj as [[<- <-]|[_ Hj]]; [|eauto]. rewrite <- Ht in Hq. destruct old as [p0|]; [|done].
    exists p0. rewrite <- Hr. done. }
  constructor; cbn [us_t us_exchange us_recv us_sent us_found]; try done.
  - intros j pj q cb Hj Hreg Htk. destruct (Hold j pj q cb Hj Htk) as (p0 & H0 & Ht0 & Hr0). eapply I2; [exact H0|congruence|done].
  - intros q cb Hq. destruct (I3 q cb Hq) as (j & pj & Hj & Hreg & Htk). destruct (decide (i = j)) as [->|Hne].
    + exists j, pc. rewrite lookup_insert_eq. rewrite Hj in Hi. subst old. cbn in Ht, Hr. by rewrite <- Ht, <- Hr.
    + exists j, pj. by rewrite lookup_insert_ne.
  - intros j pj q cb Hj Htk. destruct (Hold j pj q cb Hj Htk) as (p0 & H0 & Ht0 & _). by eapply I4.
  - intros a b pa pb q q' cb Ha Hb Ta Tb. destruct (Hold a pa q cb Ha Ta) as (p0 & H0 & Ht0 & _), (Hold b pb q' cb Hb Tb) as (p1 & H1 & Ht1 & _). by eapply I5.
  - intros cb m Hf. destruct (I6 cb m Hf) as [Hl Hid]. split; [done|]. intros j pj q Hj Htk. destruct (Hold j pj q cb Hj Htk) as (p0 & H0 & Ht0 & _). by eapply Hid.
  - intros j pj m r Hj Ha. apply lookup_insert_Some in Hj as [[<- <-]|[_ Hj]]; [by apply Hans|].
    destruct (I9 j pj m r Hj Ha) as (q & cb & m' & ? & ? & ? & ?). exists q, cb, m'. split_and!; auto.
  - intros j k q cb m Hj. apply lookup_insert_Some in Hj as [[_ Hj]|[_ Hj]]; [by eapply Hsel|]. apply Hsent. by eapply I10.
  - intros j pj m msg Hj. apply lookup_insert_Some in Hj as [[_ <-]|[_ Hj]]; [done|]. by eapply I11.
Qed.
Lemma register_inv s i k m q : udp_inv s -> us_exchange s !! i = Some (XRegister k m) -> (q < 65536)%N -> ut_callbacks (us_t s) !! q = None ->
  udp_inv (mkUDPSystem (mkUDPTransport q (<[q := length (ut_cells (us_t s))]> (ut_callbacks (us_t s))) (ut_cells (us_t s) ++ [None])%list (ut_udpSize (us_t s)))
    (<[i := XSend k q (length (ut_cells (us_t s))) m]> (us_exchange s)) (us_recv s) (us_sent s) (us_found s) (us_connector s) (us_read s)).
Proof.
  intros [I1 I2 I3 I4 I5 I6 I7 I8 I9 I10 I11] Hi Hq Hfree. set (cb := length (ut_cells (us_t s))).
  assert (forall j pj q0 cb0, <[i := XSend k q cb m]> (us_exchange s) !! j = Some pj -> ticket pj = Some (q0, cb0) ->
    (j = i /\ q0 = q /\ cb0 = cb /\ pj = XSend k q cb m) \/ (j <> i /\ us_exchange s !! j = Some pj /\ (cb0 < cb)%nat)) as Hcase.
  { intros j pj q0 cb0 Hj Ht. apply lookup_insert_Some in Hj as [[<- <-]|[Hne Hj]]; [injection Ht as <- <-; by left|]. right. split_and!; [done|done|by eapply I4]. }
  constructor; cbn [us_t us_exchange us_recv us_sent us_found ut_queryId ut_callbacks ut_cells]; rewrite ?length_app; cbn [length]; fold cb.
  - done.
  - intros j pj q0 cb0 Hj Hr Ht. destruct (Hcase j pj q0 cb0 Hj Ht) as [(-> & -> & -> & _)|(Hne & Hj' & Hlt)]; [by rewrite lookup_insert_eq|].
    pose proof (I2 j pj q0 cb0 Hj' Hr Ht) as Hc. rewrite lookup_insert_ne; [done|]. intros ->. congruence.
  - intros q0 cb0 Hc. apply lookup_insert_Some in Hc as [[<- <-]|[Hne Hc]].
    + exists i, (XSend k q cb m). by rewrite lookup_insert_eq.
    + destruct (I3 q0 cb0 Hc) as (j & pj & Hj & Hr & Ht). exists j, pj. rewrite lookup_insert_ne; [done|]. intros ->. rewrite Hi in Hj. by injection Hj as <-.
  - intros j pj q0 cb0 Hj Ht. destruct (Hcase j pj q0 cb0 Hj Ht) as [(_ & _ & -> & _)|(_ & _ & Hlt)]; lia.
  - intros a b pa pb q0 q1 cb0 Ha Hb Ta Tb.
    destruct (Hcase a pa q0 cb0 Ha Ta) as [(-> & _ & Ea & _)|(_ & Ha' & La)], (Hcase b pb q1 cb0 Hb Tb) as [(-> & _ & Eb & _)|(_ & Hb' & Lb)]; [done|lia|lia|by eapply I5].
  - intros cb0 m0 Hf. destruct (I6 cb0 m0 Hf) as [Hl Hid]. fold cb in Hl. split; [lia|]. intros j pj q0 Hj Ht.
    destruct (Hcase j pj q0 cb0 Hj Ht) as [(_ & _ & -> & _)|(_ & Hj' & _)]; [lia|by eapply Hid].
  - done.
  - intros cb0 m0 Hc. apply I8. destruct (Nat.lt_ge_cases cb0 cb) as [Hl|Hg]; [by rewrite lookup_app_l in Hc|].
    rewrite lookup_app_r in Hc by done. fold cb in Hc. destruct (cb0 - cb)%nat as [|n]; [done|by destruct n].
  - intros j pj m0 r Hj Ha. apply lookup_insert_Some in Hj as [[<- <-]|[Hne Hj]]; [done|by eapply I9].
  - intros j k0 q0 cb0 m0 Hj. apply lookup_insert_Some in Hj as [[_ Hj]|[_ Hj]]; [done|by eapply I10].
  - intros j pj m0 msg Hj. apply lookup_insert_Some in Hj as [[_ <-]|[_ Hj]]; [done|by eapply I11].
Qed.
(** A cell and an ID more do no harm. *)
Lemma spare_cell_inv s q : udp_inv s -> (q < 65536)%N ->
  udp_inv (mkUDPSystem (mkUDPTransport q (ut_callbacks (us_t s)) (ut_cells (us_t s) ++ [None])%list (ut_udpSize (us_t s))) (us_exchange s) (us_recv s) (us_sent s) (us_found s) (us_connector s) (us_read s)).
Proof.
  intros [I1 I2 I3 I4 I5 I6 I7 I8 I9 I10 I11] Hq.
  constructor; cbn [us_t us_exchange us_recv us_sent us_found ut_queryId ut_callbacks ut_cells]; rewrite ?length_app; cbn [length]; try done.
  - intros j pj q0 cb0 Hj Ht. specialize (I4 j pj q0 cb0 Hj Ht). lia.
  - intros cb0 m0 Hf. destruct (I6 cb0 m0 Hf). split; [lia|done].
  - intros cb0 m0 Hc. apply I8. destruct (Nat.lt_ge_cases cb0 (length (ut_cells (us_t s)))) as [Hl|Hg]; [by rewrite lookup_app_l in Hc|].
    rewrite lookup_app_r in Hc by done. destruct (cb0 - _)%nat as [|n]; [done|by destruct n].
Qed.
Lemma remove_inv s i q cb m r : udp_inv s -> us_exchange s !! i = Some (XRemove q cb m r) ->
  udp_inv (mkUDPSystem (mkUDPTransport (ut_queryId (us_t s)) (delete q (ut_callbacks (us_t s))) (ut_cells (us_t s)) (ut_udpSize (us_t s)))
    (<[i := XReturned (Some (q, cb)) m r]> (us_exchange s)) (us_recv s) (us_sent s) (us_found s) (us_connector s) (us_read s)).
Proof.
  intros [I1 I2 I3 I4 I5 I6 I7 I8 I9 I10 I11] Hi. pose proof (I2 i _ q cb Hi eq_refl eq_refl) as Hc.
  assert (forall j pj q0 cb0, <[i := XReturned (Some (q, cb)) m r]> (us_exchange s) !! j = Some pj -> ticket pj = Some (q0, cb0) ->
    exists p0, us_exchange s !! j = Some p0 /\ ticket p0 = Some (q0, cb0)) as Hold.
  { intros j pj q0 cb0 Hj Ht. apply lookup_insert_Some in Hj as [[<- <-]|[_ Hj]]; [|eauto]. injection Ht as <- <-. by exists (XRemove q cb m r). }
  constructor; cbn [us_t us_exchange us_recv us_sent us_found ut_queryId ut_callbacks ut_cells]; try done.
  - intros j pj q0 cb0 Hj Hr Ht. apply lookup_insert_Some in Hj as [[_ <-]|[Hne Hj]]; [done|]. pose proof (I2 j pj q0 cb0 Hj Hr Ht) as Hc0.
    rewrite lookup_delete_ne; [done|]. intros ->. assert (cb0 = cb) as -> by congruence. apply Hne. symmetry. by eapply (I5 j i).
  - intros q0 cb0 Hc0. apply lookup_delete_Some in Hc0 as [Hne Hc0]. destruct (I3 q0 cb0 Hc0) as (j & pj & Hj & Hr & Ht).
    exists j, pj. rewrite lookup_insert_ne; [done|]. intros ->. rewrite Hi in Hj. injection Hj as <-. cbn in Ht. congruence.
  - intros j pj q0 cb0 Hj Ht. destruct (Hold j pj q0 cb0 Hj Ht) as (p0 & H0 & Ht0). by eapply I4.
  - intros a b pa pb q0 q1 cb0 Ha Hb Ta Tb. destruct (Hold a pa q0 cb0 Ha Ta) as (p0 & H0 & T0), (Hold b pb q1 cb0 Hb Tb) as (p1 & H1 & T1). by eapply I5.
  - intros cb0 m0 Hf. destruct (I6 cb0 m0 Hf) as [Hl Hid]. split; [done|]. intros j pj q0 Hj Ht. destruct (Hold j pj q0 cb0 Hj Ht) as (p0 & H0 & Ht0). by eapply Hid.
  - intros j pj m0 r0 Hj Ha. apply lookup_insert_Some in Hj as [[_ <-]|[Hne Hj]]; [|by eapply I9]. injection Ha as <- ->. by apply (I9 i _ m r0 Hi).
  - intros j k0 q0 cb0 m0 Hj. apply lookup_insert_Some in Hj as [[_ Hj]|[_ Hj]]; [done|by eapply I10].
  - intros j pj m0 msg Hj. apply lookup_insert_Some in Hj as [[_ <-]|[_ Hj]]; [|by eapply I11]. intros [= -> ->]. by eapply (I11 i _ m0 msg Hi).
Qed.
Lemma recv_inv s j m cb : udp_inv s -> ut_callbacks (us_t s) !! msg_Id m = Some cb ->
  udp_inv (mkUDPSystem (us_t s) (us_exchange s) (<[j := RDeliver cb m]> (us_recv s)) (us_sent s) (us_found s ++ [(cb, m)])%list (us_connector s) (us_read s)).
Proof.
  intros [I1 I2 I3 I4 I5 I6 I7 I8 I9 I10 I11] Hc. destruct (I3 _ _ Hc) as (i & pc & Hi & Hr & Ht).
  constructor; cbn [us_t us_exchange us_recv us_sent us_found]; try done.
  - intros cb0 m0 Hf. apply elem_of_app in Hf as [Hf|Hf]; [by apply I6|]. apply list_elem_of_singleton in Hf. injection Hf as -> ->. split; [by eapply I4|].
    intros j' pj q Hj' Htj. assert (i = j') as -> by (by eapply I5). congruence.
  - intros j' cb0 m0 Hj'. apply lookup_insert_Some in Hj' as [[_ [= <- <-]]|[_ Hj']]; apply elem_of_app; [right; set_solver|left; by eapply I7].
  - intros cb0 m0 Hm. apply elem_of_app. left. by apply I8.
  - intros j' pj m0 r Hj' Ha. destruct (I9 j' pj m0 r Hj' Ha) as (q & cb0 & m' & ? & ? & ? & ?). exists q, cb0, m'. split_and!; [done|done| |done].
    apply elem_of_app. by left.
Qed.
Lemma deliver_inv s j m cb : udp_inv s -> us_recv s !! j = Some (RDeliver cb m) ->
  let cells := match ut_cells (us_t s) !! cb with Some None => <[cb := Some m]> (ut_cells (us_t s)) | _ => ut_cells (us_t s) end in
  udp_inv (mkUDPSystem (mkUDPTransport (ut_queryId (us_t s)) (ut_callbacks (us_t s)) cells (ut_udpSize (us_t s))) (us_exchange s) (<[j := RAlloc]> (us_recv s)) (us_sent s) (us_found s) (us_connector s) (us_read s)).
Proof.
  intros [I1 I2 I3 I4 I5 I6 I7 I8 I9 I10 I11] Hj cells. pose proof (I7 j cb m Hj) as Hf.
  assert (length cells = length (ut_cells (us_t s))) as Hl by (unfold cells; destruct (_ !! cb) as [[]|]; [done|apply length_insert|done]).
  constructor; cbn [us_t us_exchange us_recv us_sent us_found ut_queryId ut_callbacks ut_cells]; rewrite ?Hl; try done.
  - intros j' cb0 m0 Hj'. apply lookup_insert_Some in Hj' as [[_ [=]]|[_ Hj']]. by eapply I7.
  - intros cb0 m0. unfold cells. destruct (ut_cells (us_t s) !! cb) as [[]|] eqn:E; [apply I8| |apply I8]. intros Hm.
    destruct (decide (cb = cb0)) as [->|Hne]; [|rewrite list_lookup_insert_ne in Hm by done; by apply I8].
    rewrite list_lookup_insert_eq in Hm by (by eapply lookup_lt_Some). by injection Hm as <-.
Qed.

(** Connections, buffers and receivers do not matter for whose answer it is. *)
Lemma frame_inv s size recv c rd : udp_inv s -> (forall k cb m, recv !! k = Some (RDeliver cb m) -> (cb, m) ∈ us_found s) ->
  udp_inv (mkUDPSystem (set_udpSize size (us_t s)) (us_exchange s) recv (us_sent s) (us_found s) c rd).
Proof. intros [I1 I2 I3 I4 I5 I6 I7 I8 I9 I10 I11] Hr. by constructor. Qed.
Lemma connector_frame_inv s c : udp_inv s -> udp_inv (mkUDPSystem (us_t s) (us_exchange s) (us_recv s) (us_sent s) (us_found s) c (us_read s)).
Proof. intros []. by constructor. Qed.
Lemma recv_frame_inv s k pc c rd : udp_inv s -> (forall cb m, pc <> RDeliver cb m) ->
  udp_inv (mkUDPSystem (us_t s) (us_exchange s) (<[k := pc]> (us_recv s)) (us_sent s) (us_found s) c rd).
Proof.
  intros I Hpc. pose proof (frame_inv s (ut_udpSize (us_t s)) (<[k := pc]> (us_recv s)) c rd I) as G. destruct (us_t s) as [? ? ? ?] eqn:E. unfold set_udpSize in G. cbn in G.
  apply G. intros j cb m Hj. apply lookup_insert_Some in Hj as [[_ ->]|[_ Hj]]; [by destruct (Hpc cb m)|by eapply ui_deliver].
Qed.
Lemma go_inv s i old pc : udp_inv s -> us_exchange s !! i = old ->
  default None (ticket <$> old) = ticket pc -> default false (registered <$> old) = registered pc ->
  (forall k q cb m, pc <> XSelect k q cb m) ->
  (forall m r, answer pc = Some (m, Ok r) -> exists q cb m', ticket pc = Some (q, cb) /\ set_msg_Id q m ∈ us_sent s /\ (cb, m') ∈ us_found s /\ r = set_msg_Id (msg_Id m) m') ->
  (forall m msg, answer pc <> Some (m, Panic msg)) -> udp_inv (go i pc (us_t s) s).
Proof. intros I Hi Ht Hr Hs Ha Hp. eapply keep_ticket_inv; try done. intros k q cb m E. by destruct (Hs k q cb m). Qed.

Section Inv.
Context `{DNSLibrary} (Unpack : list N -> option Msg).

(** ** Connections and buffers *)

(** A step of the connector, as it is taken here. *)
Lemma connector_step_conns l s s' : connector_step l s = Ok s' ->
  length (cn_conns (cs_c s')) = match l with CDialOk _ => S (length (cn_conns (cs_c s))) | _ => length (cn_conns (cs_c s)) end.
Proof.
  destruct l as [i|i|i|i e|i|i e|i|i|i| |k e]; cbn [connector_step].
  - destruct (cs_pcs s !! i); [done|]. by intros [= <-].
  - destruct (cs_pcs s !! i) as [[]|]; try done. unfold Get_look. destruct (cn_closed _); [by intros [= <-]|]. destruct (_ && _); [by intros [= <-]|].
    cbn [set_connection cn_connecting]. destruct (cn_connecting _); by intros [= <-].
  - destruct (cs_pcs s !! i) as [[]|]; try done. case_bool_decide; [|done]. by intros [= <-].
  - destruct (cs_pcs s !! i) as [[]|]; try done. by intros [= <-].
  - destruct (cs_pcs s !! i) as [[]|]; try done. intros [= <-]. cbn. rewrite length_app. cbn. lia.
  - destruct (cs_pcs s !! i) as [[]|]; try done. by intros [= <-].
  - destruct (cs_pcs s !! i) as [[]|]; try done. unfold Get_finish. destruct (cn_connecting _); [|done]. case_bool_decide; [done|]. destruct r as [k|e|m]; [|by intros [= <-]|done].
    cbv zeta. destruct (cn_closed _); intros [= <-]; [|done]. cbn [cs_c]. by rewrite CloseWithError_length.
  - destruct (cs_pcs s !! i); [done|]. unfold Connector_Close. destruct (cn_closed _); by intros [= <-].
  - destruct (cs_pcs s !! i) as [[]|]; try done. intros [= <-]. destruct has; [|done]. cbn [cs_c]. by rewrite CloseWithError_length.
  - intros [= <-]. cbn [cs_c]. unfold Connector_Reset. destruct (cn_hasConnection _); [|done]. cbn [cn_conns set_connection]. by rewrite CloseWithError_length.
  - intros [= <-]. cbn [cs_c]. by rewrite CloseWithError_length.
Qed.

Definition conns (s : udp_system) : nat := length (cn_conns (cs_c (us_connector s))).
Definition pc_message (pc : exchange_pc) : Msg :=
  match pc with
  | XLoad m | XSwap m _ _ | XReset m | XGet m | XGetting m | XRegister _ m | XSend _ _ _ m | XSelect _ _ _ m | XRemove _ _ m _ | XReturned _ m _ => m
  end.
Definition pc_conn (pc : exchange_pc) : option nat := match pc with XRegister k _ | XSend k _ _ _ | XSelect k _ _ _ => Some k | _ => None end.
(** A caller that is past the loop over [udpSize]. *)
Definition asked (pc : exchange_pc) : bool := match pc with XLoad _ | XSwap _ _ _ => false | _ => true end.

Definition was_read (read : list (list N * N)) (m : Msg) : Prop :=
  exists packet size, (packet, size) ∈ read /\ (2048 <= size)%N /\ Unpack (take (N.to_nat size) packet) = Some m.
Definition exchange_fits (size : N) (n : nat) (pc : exchange_pc) : Prop :=
  (asked pc = true -> forall o, IsEdns0 (pc_message pc) = Some o -> (opt_UDPSize o <= size)%N) /\
  (forall m current udpSize, pc = XSwap m current udpSize -> (current < udpSize)%N /\ forall o, IsEdns0 m = Some o -> opt_UDPSize o = udpSize) /\
  (forall k, pc_conn pc = Some k -> (k < n)%nat).
Definition recv_fits (size : N) (read : list (list N * N)) (pc : recv_pc) : Prop :=
  match pc with RRead b => (2048 <= b <= size)%N | RLookup m => was_read read m | _ => True end.
Record udp_fits (s : udp_system) : Prop := mkUDPFits {
  uf_least : (2048 <= ut_udpSize (us_t s))%N;
  uf_exchange : map_Forall (fun _ => exchange_fits (ut_udpSize (us_t s)) (conns s)) (us_exchange s);
  uf_recv : map_Forall (fun _ => recv_fits (ut_udpSize (us_t s)) (us_read s)) (us_recv s);
  uf_found : forall cb m, (cb, m) ∈ us_found s -> was_read (us_read s) m;
  uf_receiver : forall k, is_Some (us_recv s !! k) <-> (k < conns s)%nat;
  uf_connector : connector_inv (us_connector s)
}.
Lemma exchange_fits_mono size size' n n' pc : (size <= size')%N -> (n <= n')%nat -> exchange_fits size n pc -> exchange_fits size' n' pc.
Proof.
  intros Hs Hn (H1 & H2 & H3). split; [|split; [done|intros k Hk; specialize (H3 k Hk); lia]]. intros Ha o Ho. specialize (H1 Ha o Ho). lia.
Qed.
Lemma recv_fits_mono size size' read read' pc : (size <= size')%N -> (forall x, x ∈ read -> x ∈ read') -> recv_fits size read pc -> recv_fits size' read' pc.
Proof.
  intros Hs Hr. destruct pc as [|b|m|cb m|]; cbn; [done|lia| |done|done]. intros (p & b & Hp & H1). exists p, b. split; [by apply Hr|done].
Qed.
(** A caller goes on; the size grows, if it changes. *)
Lemma fits_go s t i pc sent : udp_fits s -> (ut_udpSize (us_t s) <= ut_udpSize t)%N -> exchange_fits (ut_udpSize t) (conns s) pc ->
  udp_fits (mkUDPSystem t (<[i := pc]> (us_exchange s)) (us_recv s) sent (us_found s) (us_connector s) (us_read s)).
Proof.
  intros [H1 H2 H3 H4 H5 H6] Hle Hpc. constructor; cbn [us_t us_exchange us_recv us_found us_connector us_read]; [lia| | |done|done|done].
  - apply map_Forall_insert_2; [done|]. eapply map_Forall_impl; [exact H2|]. intros j pj Hj. by eapply exchange_fits_mono.
  - eapply map_Forall_impl; [exact H3|]. intros j pj Hj. by eapply recv_fits_mono.
Qed.
(** A caller that is past the loop goes on with the message and the connection it has. *)
Lemma fits_same s i pc pc' t sent : udp_fits s -> us_exchange s !! i = Some pc -> ut_udpSize t = ut_udpSize (us_t s) ->
  asked pc = true -> pc_message pc' = pc_message pc -> (forall k, pc_conn pc' = Some k -> pc_conn pc = Some k) -> (forall m c w, pc' <> XSwap m c w) ->
  udp_fits (mkUDPSystem t (<[i := pc']> (us_exchange s)) (us_recv s) sent (us_found s) (us_connector s) (us_read s)).
Proof.
  intros Hs Hi Ht Ha Hm Hk Hx. apply fits_go; [done|by rewrite Ht|]. destruct (uf_exchange s Hs i pc Hi) as (H1 & _ & H3). rewrite Ht. split; [|split].
  - intros _ o. rewrite Hm. by apply H1.
  - intros m c w E. by destruct (Hx m c w).
  - intros k Hk'. by apply H3, Hk.
Qed.
Lemma fits_recv s t k pc found read : udp_fits s -> is_Some (us_recv s !! k) -> ut_udpSize t = ut_udpSize (us_t s) -> (forall x, x ∈ us_read s -> x ∈ read) ->
  recv_fits (ut_udpSize t) read pc -> (forall cb m, (cb, m) ∈ found -> was_read read m) ->
  udp_fits (mkUDPSystem t (us_exchange s) (<[k := pc]> (us_recv s)) (us_sent s) found (us_connector s) read).
Proof.
  intros [H1 H2 H3 H4 H5 H6] Hk Ht Hr Hpc Hf. constructor; cbn [us_t us_exchange us_recv us_found us_connector us_read]; rewrite ?Ht in *; [done|done| |done| |done].
  - apply map_Forall_insert_2; [done|]. eapply map_Forall_impl; [exact H3|]. intros j pj. by apply recv_fits_mono.
  - intros j. change (conns _) with (conns s). rewrite <- H5. destruct (decide (k = j)) as [->|Hne]; [by rewrite lookup_insert_eq|by rewrite lookup_insert_ne].
Qed.
Lemma was_read_more read x m : was_read read m -> was_read (x :: read) m.
Proof. intros (p & b & Hp & Hb). exists p, b. split; [by right|done]. Qed.
(** A step of the connector keeps it all, and does not panic. *)
Lemma connector_go_ok l s : udp_fits s -> udp_inv s -> match connector_go l s with Ok s' => udp_fits s' /\ udp_inv s' | Err _ => True | Panic _ => False end.
Proof.
  intros [H1 H2 H3 H4 H5 H6] I. unfold connector_go. pose proof (connector_step_inv l (us_connector s) H6) as Hc. pose proof (connector_step_conns l (us_connector s)) as Hn.
  destruct (connector_step l (us_connector s)) as [c|e|m]; cbn [mbind result_bind]; [|done|done]. specialize (Hn c eq_refl). fold (conns s) in Hn |- *.
  split.
  - constructor; cbn [us_t us_exchange us_recv us_found us_connector us_read]; try done.
    + eapply map_Forall_impl; [exact H2|]. intros j pj. apply exchange_fits_mono; [lia|]. unfold conns at 2. cbn [us_connector]. rewrite Hn. destruct l; lia.
    + destruct l; try done. by apply map_Forall_insert_2.
    + intros k. unfold conns. cbn [us_connector]. rewrite Hn. destruct l; try apply H5. destruct (decide (k = conns s)) as [->|Hne].
      * rewrite lookup_insert_eq. split; [lia|by eexists].
      * rewrite lookup_insert_ne by done. rewrite H5. lia.
  - destruct l; first [by apply connector_frame_inv | by apply recv_frame_inv].
Qed.

Lemma sized_connector_go l i pc s : udp_fits s -> udp_inv (go i pc (us_t s) s) -> exchange_fits (ut_udpSize (us_t s)) (conns s) pc ->
  match connector_go l (go i pc (us_t s) s) with Ok s' => udp_fits s' /\ udp_inv s' | Err _ => True | Panic _ => False end.
Proof. intros Hf Hi Hpc. apply connector_go_ok; [|done]. by apply fits_go. Qed.
(** The places before there is an ID. *)
Lemma early_inv s i old pc : udp_inv s -> us_exchange s !! i = old -> default None (ticket <$> old) = None -> default false (registered <$> old) = false ->
  ticket pc = None -> registered pc = false -> (forall m r, answer pc = Some (m, r) -> exists e, r = Err e) -> udp_inv (go i pc (us_t s) s).
Proof.
  intros I Hi Ht Hr Tp Rp Ha. apply (go_inv s i old); try done; rewrite ?Ht, ?Hr, ?Tp, ?Rp; try done.
  - intros k q cb m ->. done.
  - intros m r Hpc. by destruct (Ha m _ Hpc) as [e [=]].
  - intros m msg Hpc. by destruct (Ha m _ Hpc) as [e [=]].
Qed.
(** The places after: the ID stays, and the caller has an error. *)
Lemma failed_inv s i k q cb m pc e : udp_inv s -> us_exchange s !! i = Some pc -> pc = XSend k q cb m \/ pc = XSelect k q cb m ->
  udp_inv (go i (XRemove q cb m (Err e)) (us_t s) s).
Proof. intros I Hi Hpc. apply (go_inv s i (Some pc)); try done; by destruct Hpc as [-> | ->]. Qed.

Lemma udp_step_ok l s : udp_fits s -> udp_inv s -> match udp_step Unpack l s with Ok s' => udp_fits s' /\ udp_inv s' | Err _ => True | Panic _ => False end.
Proof.
  intros Hf I. destruct l as [i m|i|i|i|i|i|l|i|i|i e|i e|i|i|i e|i|k|k p|k e|k|k]; cbn [udp_step].
  - destruct (us_exchange s !! i) as [pc|] eqn:Hi; [done|]. split; [|by apply (early_inv s i None)].
    apply fits_go; [done|done|]. by split_and!.
  - destruct (us_exchange s !! i) as [[m| | | | | | | | |]|] eqn:Hi; try done. assert (exchange_load m (us_t s) = XGet m \/ exists w, exchange_load m (us_t s) = XSwap m (ut_udpSize (us_t s)) w) as Hx.
    { unfold exchange_load. destruct (IsEdns0 m); [|by left]. destruct (_ <=? _)%N; [by left|right; by eexists]. }
    split; [|apply (early_inv s i _ _ I Hi); [done|done| | |]; by destruct Hx as [->|[w ->]]].
    apply fits_go; [done|done|]. unfold exchange_load. destruct (IsEdns0 m) as [o|] eqn:Ho.
    + destruct (N.leb_spec (opt_UDPSize o) (ut_udpSize (us_t s))) as [Hle|Hgt].
      * split_and!; [|done|done]. intros _ o'. cbn [pc_message]. rewrite Ho. by intros [= <-].
      * split_and!; [done| |done]. intros m' c w [= <- <- <-]. split; [done|]. rewrite Ho. by intros o' [= <-].
    + split_and!; [|done|done]. intros _ o'. cbn [pc_message]. by rewrite Ho.
  - destruct (us_exchange s !! i) as [[|m c w| | | | | | | |]|] eqn:Hi; try done. destruct (uf_exchange s Hf i _ Hi) as (_ & Hw & _). destruct (Hw m c w eq_refl) as [Hlt Ho].
    unfold exchange_swap. destruct (N.eqb_spec (ut_udpSize (us_t s)) c) as [<-|_].
    + split; [apply (fits_go s (set_udpSize w (us_t s)) i (XReset m) (us_sent s)); [done|cbn; lia|]; split_and!; [|done|done]; intros _ o Ho'; by rewrite (Ho o Ho')|].
      pose proof (early_inv s i _ (XReset m) I Hi eq_refl eq_refl eq_refl eq_refl ltac:(done)) as G.
      apply (frame_inv _ w (us_recv s) (us_connector s) (us_read s)) in G; [exact G|by eapply ui_deliver].
    + split; [|by eapply early_inv]. apply fits_go; [done|done|]. by split_and!.
  - destruct (us_exchange s !! i) as [[| |m| | | | | | |]|] eqn:Hi; try done. apply sized_connector_go; [done|by eapply early_inv|].
    destruct (uf_exchange s Hf i _ Hi) as (H1 & _ & _). split_and!; [|done|done]. intros _. by apply H1.
  - destruct (us_exchange s !! i) as [[| | |m| | | | | |]|] eqn:Hi; try done. apply sized_connector_go; [done|by eapply early_inv|].
    destruct (uf_exchange s Hf i _ Hi) as (H1 & _ & _). split_and!; [|done|done]. intros _. by apply H1.
  - destruct (us_exchange s !! i) as [[| | | |m| | | | |]|] eqn:Hi; try done. destruct (cs_pcs (us_connector s) !! i) as [[| | | |r| |]|] eqn:Hp; try done.
    destruct (uf_exchange s Hf i _ Hi) as (H1 & _ & _). pose proof (ci_returned _ (uf_connector s Hf) i r Hp) as Hr. destruct r as [k|e|msg]; [| |done].
    + split; [|by eapply early_inv]. apply fits_go; [done|done|]. split_and!; [intros _; by apply H1|done|]. by intros k' [= <-].
    + split; [|eapply early_inv; try done; intros ? ? [= _ <-]; by eexists]. by eapply fits_same.
  - destruct (own_label l); [done|]. by apply connector_go_ok.
  - destruct (us_exchange s !! i) as [[| | | | |k m| | | |]|] eqn:Hi; try done.
    pose proof (nextAvailableQueryId_spec (ut_callbacks (us_t s)) (ut_queryId (us_t s)) (ui_id s I)) as Hn.
    destruct (nextAvailableQueryId _ _) as [[q|e|msg] id]; [|destruct Hn as [Hid _]|done].
    + destruct Hn as (-> & Hq & Hfree). split; [by eapply fits_same|by apply register_inv].
    + split; [by eapply fits_same|]. eapply (early_inv _ i (Some (XRegister k m)) _ (spare_cell_inv s id I Hid)); try done. intros ? ? [= _ <-]. by eexists.
  - destruct (us_exchange s !! i) as [[| | | | | |k q cb m| | |]|] eqn:Hi; try done. split; [by eapply fits_same|].
    apply (keep_ticket_inv s i (Some (XSend k q cb m))); try done; [set_solver|]. intros k' q' cb' m' [= -> -> -> ->]. set_solver.
  - destruct (us_exchange s !! i) as [[| | | | | |k q cb m| | |]|] eqn:Hi; try done. split; [by eapply fits_same|]. eapply failed_inv; eauto.
  - destruct (us_exchange s !! i) as [[| | | | | |k q cb m| | |]|] eqn:Hi; try done. apply sized_connector_go; [done|eapply failed_inv; eauto|].
    destruct (uf_exchange s Hf i _ Hi) as (H1 & _ & _). split_and!; [|done|done]. intros _. by apply H1.
  - destruct (us_exchange s !! i) as [[| | | | | | |k q cb m| |]|] eqn:Hi; try done. destruct (ut_cells (us_t s) !! cb) as [[r|]|] eqn:Hc; [|done|done].
    split; [by eapply fits_same|]. apply (keep_ticket_inv s i (Some (XSelect k q cb m))); try done.
    intros m0 r0 [= <- <-]. exists q, cb, r. split_and!; [done|by eapply (ui_sent s I i k q cb)|by apply (ui_cell s I)|done].
  - destruct (us_exchange s !! i) as [[| | | | | | |k q cb m| |]|] eqn:Hi; try done. destruct (_ !! k) as [[e|]|]; [|done|done].
    split; [by eapply fits_same|]. eapply failed_inv; eauto.
  - destruct (us_exchange s !! i) as [[| | | | | | |k q cb m| |]|] eqn:Hi; try done. split; [by eapply fits_same|]. eapply failed_inv; eauto.
  - destruct (us_exchange s !! i) as [[| | | | | | | |q cb m r|]|] eqn:Hi; try done. split; [by eapply fits_same|by apply remove_inv].
  - destruct (us_recv s !! k) as [[]|] eqn:Hk; try done. split; [|by apply recv_frame_inv]. apply (fits_recv s); [done|by rewrite Hk; eexists|done|done|pose proof (uf_least s Hf); cbn; lia|apply Hf].
  - destruct (us_recv s !! k) as [[|b| | |]|] eqn:Hk; try done. pose proof (uf_recv s Hf k _ Hk) as Hb. cbn in Hb.
    split; [|apply recv_frame_inv; [done|]; by destruct (Unpack _)]. apply (fits_recv s); [done| |done| | |].
    + by rewrite Hk; eexists.
    + intros x Hx. by right.
    + destruct (Unpack _) as [m|] eqn:E; [|done]. exists p, b. split_and!; [by left|lia|done].
    + intros cb m Hm. by eapply was_read_more, (uf_found s Hf).
  - destruct (us_recv s !! k) as [[|b| | |]|] eqn:Hk; try done. apply connector_go_ok; [|by apply recv_frame_inv]. apply (fits_recv s); [done|by rewrite Hk; eexists|done|done|done|apply Hf].
  - destruct (us_recv s !! k) as [[| |m| |]|] eqn:Hk; try done. pose proof (uf_recv s Hf k _ Hk) as Hm. cbn in Hm.
    destruct (ut_callbacks (us_t s) !! msg_Id m) as [cb|] eqn:Hc.
    + split; [|by apply recv_inv]. apply (fits_recv s); [done|by rewrite Hk; eexists|done|done|done|]. intros cb' m' Hf'. apply elem_of_app in Hf' as [Hf'|Hf']; [by eapply (uf_found s Hf)|].
      apply list_elem_of_singleton in Hf'. by injection Hf' as -> ->.
    + split; [|by apply recv_frame_inv]. apply (fits_recv s); [done|by rewrite Hk; eexists|done|done|done|apply Hf].
  - destruct (us_recv s !! k) as [[| | |cb m|]|] eqn:Hk; try done. split; [|by apply deliver_inv]. apply (fits_recv s); [done|by rewrite Hk; eexists|done|done|done|apply Hf].
Qed.
(** ** What holds at any time *)

Record udp_safe (s : udp_system) : Prop := mkUDPSafe {
  safe_ids : forall i j pc pc' q q' cb cb', us_exchange s !! i = Some pc -> us_exchange s !! j = Some pc' -> registered pc = true -> registered pc' = true ->
    ticket pc = Some (q, cb) -> ticket pc' = Some (q', cb') -> q = q' -> i = j;
  safe_callbacks : forall q, is_Some (ut_callbacks (us_t s) !! q) <-> exists i pc cb, us_exchange s !! i = Some pc /\ registered pc = true /\ ticket pc = Some (q, cb);
  safe_answer : forall i ticket m r, us_exchange s !! i = Some (XReturned ticket m (Ok r)) ->
    exists q cb m', ticket = Some (q, cb) /\ set_msg_Id q m ∈ us_sent s /\ (cb, m') ∈ us_found s /\ was_read (us_read s) m' /\
      msg_Id m' = q /\ r = set_msg_Id (msg_Id m) m';
  safe_buffer : forall k s', udp_step Unpack (UAlloc k) s = Ok s' -> exists size, us_recv s' !! k = Some (RRead size) /\ (2048 <= size)%N /\
    forall i pc o, us_exchange s !! i = Some pc -> asked pc = true -> IsEdns0 (pc_message pc) = Some o -> (opt_UDPSize o <= size)%N;
  safe_receivers : forall k, is_Some (us_recv s !! k) <-> (k < conns s)%nat;
  safe_uses : forall i pc k, us_exchange s !! i = Some pc -> pc_conn pc = Some k -> (k < conns s)%nat;
  safe_connector : connector_safe (us_connector s)
}.
Lemma udp_ok_safe s : udp_fits s -> udp_inv s -> udp_safe s.
Proof.
  intros Hf I. constructor.
  - intros i j pc pc' q q' cb cb' Hi Hj Ri Rj Ti Tj <-. pose proof (ui_registered s I i pc q cb Hi Ri Ti) as Ci.
    pose proof (ui_registered s I j pc' q cb' Hj Rj Tj) as Cj. rewrite Ci in Cj. injection Cj as <-. by eapply (ui_owner s I i j).
  - intros q. split.
    + intros [cb Hq]. destruct (ui_callback s I q cb Hq) as (i & pc & ? & ? & ?). by exists i, pc, cb.
    + intros (i & pc & cb & Hi & Hr & Ht). rewrite (ui_registered s I i pc q cb Hi Hr Ht). by eexists.
  - intros i tk m r Hi. destruct (ui_answer s I i _ m r Hi eq_refl) as (q & cb & m' & Ht & Hsent & Hm & Hr). exists q, cb, m'. split_and!; [done|done|done| | |done].
    + by apply (uf_found s Hf cb).
    + by apply (proj2 (ui_found s I cb m' Hm) i _ q Hi).
  - intros k s'. cbn [udp_step]. destruct (us_recv s !! k) as [[]|]; try done. intros [= <-]. exists (ut_udpSize (us_t s)). split_and!; [unfold go_recv; cbn [us_recv]; by rewrite lookup_insert_eq|apply Hf|].
    intros i pc o Hi Ha. destruct (uf_exchange s Hf i pc Hi) as (H1 & _). by apply H1.
  - apply Hf.
  - intros i pc k Hi. destruct (uf_exchange s Hf i pc Hi) as (_ & _ & H3). apply H3.
  - apply connector_inv_safe, Hf.
Qed.
End Inv.

(** C18: queries that share the UDP connections of a transport get their own answers, in every interleaving of callers, receivers, dials, [Reset] and [Close].  Two queries
    that wait never have the same ID, the table holds the IDs of the queries that wait and no other, the search for an ID ends; an answer that a caller gets was read from a packet, with a
    buffer of at least 2048 bytes, and came with the ID of its own query while that was in the table, that query was sent, and the answer carries the ID of the caller's
    message.  A buffer that a receiver makes is at least what each query that has passed the loop over [udpSize] allows for (a buffer in which a receiver waits already may be smaller:
    [small_buffer_stays]); each connection that was dialed has its receiver, and the connector never leaks one. *)
Theorem udp_transport_safe `{DNSLibrary} Unpack ls : match udp_run Unpack ls udp_new with Ok s => udp_safe Unpack s | Err _ => True | Panic _ => False end.
Proof.
  assert (forall s, udp_fits Unpack s -> udp_inv s -> match udp_run Unpack ls s with Ok s => udp_safe Unpack s | Err _ => True | Panic _ => False end) as G.
  - induction ls as [|l ls IH]; intros s Hf Hs; cbn [udp_run]; [by apply udp_ok_safe|]. pose proof (udp_step_ok Unpack l s Hf Hs) as Hl.
    destruct (udp_step Unpack l s) as [s'|e|m]; cbn [mbind result_bind]; [destruct Hl; by apply IH|done|done].
  - apply G; [|apply udp_inv_new]. constructor; cbn; [done|apply map_Forall_empty|apply map_Forall_empty|set_solver| |apply connector_inv_new].
    intros k. rewrite lookup_empty. unfold conns. cbn. split; [by intros []|lia].
Qed.

(** ** Examples *)

Open Scope list_scope.
(** The size of an OPT record is its class. *)
#[local] Instance plain_library : DNSLibrary := {|
  mDNS_IsFqdn := fun _ => true; mDNS_Fqdn := fun s => s; M_ParseAddr := fun _ => AddrNone; IsEdns0 := fun m => head (msg_Extra m);
  opt_Version := fun _ => 0%N; opt_UDPSize := rr_Class; opt_Do := fun _ => false; NewEdns0 := fun size _ => mkRR "." 41 size 0 (RR_OPT [])
|}.
Definition plain_message (id : N) (rcode : Z) : Msg := mkMsg id true false true true rcode [] [] [] [].
Definition sized_message (id size : N) : Msg := mkMsg id true false true true 0 [] [] [] [mkRR "." 41 size 0 (RR_OPT [])].
(** A packet is the ID, the response code, its length, and what follows; a packet that was cut off is malformed. *)
Definition packet (id rcode len : N) : list N := [id; rcode; len] ++ replicate (N.to_nat len) 0%N.
Definition plain_unpack (l : list N) : option Msg :=
  match l with
  | id :: rcode :: len :: rest => if (N.of_nat (length rest) =? len)%N then Some (plain_message id (Z.of_N rcode)) else None
  | _ => None
  end.
Definition call (i : nat) (message : Msg) : list udp_label := [UExchange i message; ULoad i; UGet i].
Definition receive (k : nat) (packet : list N) : list udp_label := [UAlloc k; URecv k packet; ULookup k; UDeliver k].
(** The first query dials. *)
Definition first_query (message : Msg) : list udp_label := call 1 message ++ [UConnector (CLook 1); UConnector (CDialOk 1)].
(** Two queries with the same ID of their own, answered out of order; a message with an ID that nobody waits for is dropped, and so is a second answer. *)
Example two_queries : exists s,
  udp_run plain_unpack (first_query (plain_message 7 0) ++ [UConnector (CFinish 1); UGot 1] ++ call 2 (plain_message 7 0) ++
    [UConnector (CLook 2); UGot 2; URegister 1; URegister 2; USend 1; USend 2] ++ receive 0 (packet 2 3 0) ++
    [UAlloc 0; URecv 0 (packet 9 9 0); ULookup 0] ++ receive 0 (packet 1 5 0) ++ receive 0 (packet 1 9 0) ++
    [UAnswered 1; UAnswered 2; URemove 1; URemove 2])%nat udp_new = Ok s /\
  us_exchange s !! 1%nat = Some (XReturned (Some (1%N, 0%nat)) (plain_message 7 0) (Ok (plain_message 7 5))) /\
  us_exchange s !! 2%nat = Some (XReturned (Some (2%N, 1%nat)) (plain_message 7 0) (Ok (plain_message 7 3))) /\
  ut_callbacks (us_t s) = ∅.
Proof. eexists. split; [vm_compute; reflexivity|]. by vm_compute. Qed.

(** The first query has dialed, and its receiver waits with a buffer of 2048 bytes, but the connector does not have the connection yet.  The second query allows
    for 4096: its [Reset] finds no connection, and it is given this one.  Its answer of 3003 bytes is cut off and dropped; only then there is a buffer of 4096. *)
Definition dial_window : list udp_label :=
  first_query (plain_message 7 0) ++ [UAlloc 0; UExchange 2 (sized_message 8 4096); ULoad 2; USwap 2; UReset 2; UConnector (CFinish 1); UGet 2; UConnector (CLook 2); UGot 2;
    URegister 2; USend 2; URecv 0 (packet 1 0 3000); UAlloc 0]%nat.
Example small_buffer_stays : exists s, udp_run plain_unpack dial_window udp_new = Ok s /\
  us_exchange s !! 2%nat = Some (XSelect 0 1 0 (sized_message 8 4096)) /\ ut_cells (us_t s) = [None] /\
  us_recv s !! 0%nat = Some (RRead 4096) /\ map snd (us_read s) = [2048%N] /\ length (packet 1 0 3000) = 3003%nat.
Proof. eexists. split; [vm_compute; reflexivity|]. by vm_compute. Qed.
(** The second query has raised the size but not reset the connector yet: a third one that allows for as much goes on with the old connection,
    is sent, and ends with the error of the reset. *)
Definition swap_window : list udp_label :=
  first_query (plain_message 7 0) ++ [UConnector (CFinish 1); UAlloc 0; UExchange 2 (sized_message 8 4096); ULoad 2; USwap 2] ++ call 3 (sized_message 9 4096) ++
    [UConnector (CLook 3); UGot 3; URegister 3; USend 3; UReset 2; UConnDone 3; URemove 3]%nat.
Example reset_hits_another_query : exists s, udp_run plain_unpack swap_window udp_new = Ok s /\
  us_exchange s !! 3%nat = Some (XReturned (Some (1%N, 0%nat)) (sized_message 9 4096) (Err ErrConnectionReset)).
Proof. eexists. split; [vm_compute; reflexivity|]. by vm_compute. Qed.
