(* ===== verification/HostsDNS.v ===== *)
(** * HostsDNS: answers from hosts files

    dns/transport/hosts: hosts.go (the transport) and hosts_file.go (a file, read line by line through [bufio.Reader] and kept for
    five seconds).  The DNS library's [CanonicalName], the regular expressions of sslip.io names and the file system are arguments.  A file is read as
    the lines it has, an answer is what the file held at most five seconds ago, and the answers for sslip.io names are never reached. *)

From S2P Require Import Prelude GoStd NetIP DNSMessage.
Open Scope string_scope.

(** ** [strings.Fields] *)

(** The number of bytes of the white space that the string begins with, as [unicode.IsSpace] has it in UTF-8, 0 for none. *)
Definition two_byte_space (a b : N) : bool := (a =? 0xC2)%N && ((b =? 0x85)%N || (b =? 0xA0)%N).
Definition three_byte_space (a b c : N) : bool :=
  ((a =? 0xE1)%N && (b =? 0x9A)%N && (c =? 0x80)%N) ||
  ((a =? 0xE2)%N && (b =? 0x80)%N && (((0x80 <=? c)%N && (c <=? 0x8A)%N) || (c =? 0xA8)%N || (c =? 0xA9)%N || (c =? 0xAF)%N)) ||
  ((a =? 0xE2)%N && (b =? 0x81)%N && (c =? 0x9F)%N) ||
  ((a =? 0xE3)%N && (b =? 0x80)%N && (c =? 0x80)%N).
Definition ascii_space (a : N) : bool := ((9 <=? a)%N && (a <=? 13)%N) || (a =? 32)%N.
Definition space_at (s : string) : nat :=
  match s with
  | EmptyString => 0
  | String a s =>
      if ascii_space (byte_val a) then 1
      else match s with
           | EmptyString => 0
           | String b s =>
               if two_byte_space (byte_val a) (byte_val b) then 2
               else match s with
                    | EmptyString => 0
                    | String c _ => if three_byte_space (byte_val a) (byte_val b) (byte_val c) then 3 else 0
                    end
           end
  end.
Definition field (cur : string) : list string := match cur with EmptyString => [] | _ => [cur] end.
Fixpoint fields_go (skip : nat) (cur s : string) : list string :=
  match s with
  | EmptyString => field cur
  | String c s' =>
      match skip with
      | S k => fields_go k cur s'
      | O => match space_at s with
             | O => fields_go 0 (cur +:+ String c "") s'
             | S k => (field cur ++ fields_go k "" s')%list
             end
      end
  end.
Definition Fields (s : string) : list string := fields_go 0 "" s.

(** ** [bufio.Reader.ReadLine] *)

Definition LF : ascii := ascii_of_N 10.
Definition CR : ascii := ascii_of_N 13.
Definition bufio_size : nat := 4096.
(** At most [n] bytes up to a newline: the bytes, what follows, and how the scan ended. *)
Inductive scan_end : Type := ScanNewline | ScanFull | ScanEnd.
Fixpoint scan_line (n : nat) (s : string) : string * string * scan_end :=
  match n, s with
  | O, _ => ("", s, ScanFull)
  | S _, EmptyString => ("", "", ScanEnd)
  | S n, String c s' =>
      if Ascii.eqb c LF then ("", s', ScanNewline) else let '(l, r, e) := scan_line n s' in (String c l, r, e)
  end.
(** A carriage return at the end. *)
Fixpoint drop_CR (s : string) : string * bool :=
  match s with
  | EmptyString => ("", false)
  | String c EmptyString => if Ascii.eqb c CR then ("", true) else (s, false)
  | String c s' => let '(t, b) := drop_CR s' in (String c t, b)
  end.
(** [line, isPrefix] and what follows; [None] is the end of the file. *)
Definition ReadLine (s : string) : option (string * bool * string) :=
  let '(line, rest, e) := scan_line bufio_size s in
  match e with
  | ScanFull => let '(line, cr) := drop_CR line in Some (line, true, if cr then String CR rest else rest)
  | ScanNewline => Some (fst (drop_CR line), false, rest)
  | ScanEnd => match line with EmptyString => None | _ => Some (line, false, rest) end
  end.

(** ** A hosts file *)

Class HostsLibrary : Type := {
  CanonicalName : string -> string;
  (* the submatches of [ipv4Regex] and [ipv6Regex], the whole match first *)
  ipv4Regex_FindStringSubmatch : string -> list string;
  ipv6Regex_FindStringSubmatch : string -> list string
}.

Section Hosts.
Context `{HL : HostsLibrary}.

Abbreviation table := (gmap string (list Addr)).
Definition cut_comment (line : string) : string := match index_byte "#"%char line with Some i => str_take i line | None => line end.
Definition add_name (addr : Addr) (byName : table) (name : string) : table :=
  let canonicalName := CanonicalName name in <[canonicalName := (default [] (byName !! canonicalName) ++ [addr])%list]> byName.
Definition add_line (byName : table) (line : string) : table :=
  match Fields (cut_comment line) with
  | f0 :: ((_ :: _) as names) =>
      match ParseAddr f0 with Some addr => foldl (add_name addr) byName names | None => byName end
  | _ => byName
  end.
(** The loop of [update]; every turn takes at least one byte. *)
Fixpoint read_hosts (fuel : nat) (prefix rest : string) (byName : table) : table :=
  match fuel with
  | O => byName
  | S f =>
      match ReadLine rest with
      | None => byName
      | Some (line, true, rest) => read_hosts f (prefix +:+ line) rest byName
      | Some (line, false, rest) => read_hosts f "" rest (add_line byName (prefix +:+ line))
      end
  end.
Definition hosts_table (contents : string) : table := read_hosts (S (String.length contents)) "" contents ∅.

(** [File]; a time is a number of nanoseconds, the zero [time.Time] is 0. *)
Record File : Type := mkFile { hf_byName : table; hf_expire : Z; hf_modTime : Z; hf_size : Z }.
Definition NewFile : File := mkFile ∅ 0 0 0.
Definition cacheMaxAge : Z := 5000000000.
(** What the file system answers at a time: the modification time and the size, and the bytes up to the end or an error. *)
Record file_system : Type := mkFileSystem { fs_stat : option (Z * Z); fs_open : option (string * option error) }.
Definition File_update (now : Z) (fs : file_system) (f : File) : File :=
  if (now <? hf_expire f)%Z && negb (size (hf_byName f) =? 0)%nat then f
  else match fs_stat fs with
       | None => f
       | Some (modTime, size) =>
           if (hf_modTime f =? modTime)%Z && (hf_size f =? size)%Z then mkFile (hf_byName f) (now + cacheMaxAge) (hf_modTime f) (hf_size f)
           else match fs_open fs with
                | Some (contents, None) => mkFile (hosts_table contents) (now + cacheMaxAge) modTime size
                | _ => f
                end
       end.
Definition File_Lookup (now : Z) (fs : file_system) (name : string) (f : File) : list Addr * File :=
  let f := File_update now fs f in (default [] (hf_byName f !! CanonicalName name), f).

(** ** The transport *)

Fixpoint ReplaceAll (old : ascii) (new : ascii) (s : string) : string :=
  match s with EmptyString => "" | String c s => String (if Ascii.eqb c old then new else c) (ReplaceAll old new s) end.
Definition getIpOfSslip (sni : string) : list Addr :=
  if negb (has_suffix sni ".sslip.io") then []
  else
    let ipstr :=
      match ipv4Regex_FindStringSubmatch sni with
      | _ :: m :: _ => ReplaceAll "-"%char "."%char m
      | _ => match ipv6Regex_FindStringSubmatch sni with _ :: m :: _ => ReplaceAll "-"%char ":"%char m | _ => "" end
      end in
    match ParseAddr ipstr with Some ip => [ip] | None => [] end.

Record HostsTransport : Type := mkHostsTransport { ht_files : list File; ht_predefined : table }.
(** The entries of the option, in their order: a later one replaces an earlier one. *)
Definition hosts_predefined (entries : list (string * list Addr)) : table :=
  foldl (fun t e => <[CanonicalName (fst e) := snd e]> t) ∅ entries.
Definition NewHostsTransport (files : nat) (entries : list (string * list Addr)) : HostsTransport :=
  mkHostsTransport (replicate files NewFile) (hosts_predefined entries).
(** The loop over the files: the first that has addresses; those after it are not looked at. *)
Fixpoint files_Lookup (now : Z) (fss : list file_system) (domain : string) (files : list File) : list Addr * list File :=
  match files, fss with
  | f :: files', fs :: fss =>
      let '(addresses, f) := File_Lookup now fs domain f in
      match addresses with
      | [] => let '(addresses, files') := files_Lookup now fss domain files' in (addresses, f :: files')
      | _ => (addresses, f :: files')
      end
  | _, _ => ([], files)
  end.
Definition name_error (id : N) (question : Question) : Msg := mkMsg id true false false false RcodeNameError [question] [] [] [].
Definition hosts_Exchange (now : Z) (fss : list file_system) (message : Msg) (t : HostsTransport) : result Msg * HostsTransport :=
  match msg_Question message with
  | [] => (Panic "index out of range", t)
  | question :: _ =>
      let domain := CanonicalName (q_Name question) in
      let fixed addresses := FixedResponse (msg_Id message) question addresses DefaultDNSTTL in
      if (q_Qtype question =? TypeA)%N || (q_Qtype question =? TypeAAAA)%N then
        match ht_predefined t !! domain with
        | Some addresses => (Ok (fixed addresses), t)
        | None =>
            let '(addresses, files) := files_Lookup now fss domain (ht_files t) in
            let t := mkHostsTransport files (ht_predefined t) in
            match addresses with
            | [] => match getIpOfSslip domain with
                    | [] => (Ok (name_error (msg_Id message) question), t)
                    | addresses => (Ok (fixed addresses), t)
                    end
            | _ => (Ok (fixed addresses), t)
            end
        end
      else (Ok (name_error (msg_Id message) question), t)
  end.

(** The file as its lines. *)
Definition lines_table (contents : string) : table := foldl add_line ∅ (str_split LF contents).

(** *** A carriage return at the end of a line makes no difference *)

Lemma space_at_CR c s : space_at (String c (s +:+ String CR "")) = space_at (String c s).
Proof.
  assert (forall a, two_byte_space a (byte_val CR) = false) as H2 by (intros a; unfold two_byte_space; by rewrite andb_comm).
  assert (forall a b, three_byte_space a b (byte_val CR) = false) as H3 by (intros a b; unfold three_byte_space; cbn; by rewrite !andb_false_r).
  destruct s as [|b s].
  - change ("" +:+ String CR "") with (String CR ""). cbn [space_at]. destruct (ascii_space _); [done|]. by rewrite H2.
  - change (String b s +:+ String CR "") with (String b (s +:+ String CR "")). cbn [space_at]. destruct (ascii_space _); [done|]. destruct (two_byte_space _ _); [done|].
    destruct s as [|d s]; [|done]. change ("" +:+ String CR "") with (String CR ""). cbv beta iota. by rewrite H3.
Qed.
Lemma fields_go_CR s : forall skip cur, fields_go skip cur (s +:+ String CR "") = fields_go skip cur s.
Proof.
  induction s as [|c s IH]; intros skip cur.
  - destruct skip as [|k]; [|done]. exact (app_nil_r (field cur)).
  - change (String c s +:+ String CR "") with (String c (s +:+ String CR "")). cbn [fields_go]. destruct skip as [|k]; [|apply IH].
    rewrite space_at_CR. destruct (space_at (String c s)) as [|k]; by rewrite IH.
Qed.
Lemma cut_comment_CR s : cut_comment (s +:+ String CR "") = match index_byte "#"%char s with Some i => cut_comment s | None => s +:+ String CR "" end.
Proof.
  unfold cut_comment. induction s as [|c s IH]; [done|]. change (String c s +:+ String CR "") with (String c (s +:+ String CR "")). cbn [index_byte]. case_bool_decide; [done|].
  destruct (index_byte "#"%char s) as [i|]; cbn [fmap option_fmap option_map str_take] in *; destruct (index_byte "#"%char (s +:+ String CR "")) as [j|]; cbn [fmap option_fmap option_map str_take] in *; congruence.
Qed.
Lemma add_line_CR byName line : add_line byName (line +:+ String CR "") = add_line byName line.
Proof.
  unfold add_line, Fields. rewrite cut_comment_CR. unfold cut_comment. destruct (index_byte "#"%char line); [done|]. by rewrite fields_go_CR.
Qed.
Lemma drop_CR_spec s : s = fst (drop_CR s) +:+ (if snd (drop_CR s) then String CR "" else "").
Proof.
  induction s as [|c s IH]; [done|]. cbn [drop_CR]. destruct s as [|d s]; [destruct (Ascii.eqb_spec c CR) as [->|]; done|].
  destruct (drop_CR (String d s)) as [t b]; cbn [fst snd] in *. rewrite IH at 1. done.
Qed.
Lemma add_line_drop_CR byName p line : add_line byName (p +:+ fst (drop_CR line)) = add_line byName (p +:+ line).
Proof.
  rewrite (drop_CR_spec line) at 2. destruct (snd (drop_CR line)); [|by rewrite str_app_nil]. rewrite <- str_app_assoc. by rewrite add_line_CR.
Qed.

(** *** The loop reads the lines *)

Definition no_LF (s : string) : Prop := index_byte LF s = None.
Lemma no_LF_cons c s : no_LF (String c s) <-> c <> LF /\ no_LF s.
Proof. apply index_byte_cons. Qed.
Lemma no_LF_app a b : no_LF (a +:+ b) <-> no_LF a /\ no_LF b.
Proof. apply index_byte_app. Qed.
Lemma scan_line_full n : forall l t, no_LF l -> (n <= String.length l)%nat -> scan_line n (l +:+ t) = (str_take n l, str_drop n l +:+ t, ScanFull).
Proof.
  induction n as [|n IH]; intros l t Hl Hn; [by destruct l|]. destruct l as [|c l]; [cbn in Hn; lia|]. apply no_LF_cons in Hl as [Hc Hl].
  change (String c l +:+ t) with (String c (l +:+ t)). cbn [scan_line]. destruct (Ascii.eqb_spec c LF); [done|]. rewrite IH; [done|done|cbn in Hn; lia].
Qed.
Lemma scan_line_short n : forall l t, no_LF l -> (String.length l < n)%nat -> t = "" \/ (exists r, t = String LF r) ->
  scan_line n (l +:+ t) = match t with EmptyString => (l, "", ScanEnd) | String _ r => (l, r, ScanNewline) end.
Proof.
  induction n as [|n IH]; intros l t Hl Hn Ht; [lia|]. destruct l as [|c l].
  - destruct Ht as [->|[r ->]]; [done|]. change ("" +:+ String LF r) with (String LF r). cbn [scan_line]. by destruct (Ascii.eqb_spec LF LF).
  - apply no_LF_cons in Hl as [Hc Hl]. change (String c l +:+ t) with (String c (l +:+ t)). cbn [scan_line]. destruct (Ascii.eqb_spec c LF); [done|].
    rewrite IH; [|done|cbn in Hn; lia|done]. by destruct t.
Qed.
Lemma scan_line_length n : forall s, let '(l, r, e) := scan_line n s in
  (String.length s = String.length l + String.length r + match e with ScanNewline => 1 | _ => 0 end)%nat /\ (e = ScanFull -> String.length l = n).
Proof.
  induction n as [|n IH]; intros s; [by destruct s|]. destruct s as [|c s]; [done|]. cbn [scan_line]. destruct (Ascii.eqb c LF); [split; [cbn; lia|done]|].
  specialize (IH s). destruct (scan_line n s) as [[l r] e]. destruct IH as [H1 H2]. cbn [String.length]. split; [lia|]. intros He. by rewrite H2.
Qed.
Lemma ReadLine_shorter s line isPrefix rest : ReadLine s = Some (line, isPrefix, rest) -> (String.length rest < String.length s)%nat.
Proof.
  unfold ReadLine. pose proof (scan_line_length bufio_size s) as H. destruct (scan_line bufio_size s) as [[l r] e]. destruct H as [H1 H2]. destruct e.
  - intros [= <- <- <-]; lia.
  - destruct (drop_CR l) as [t b] eqn:E. assert (String.length l = bufio_size) as Hl by auto. intros [= <- <- <-]. destruct b; cbn [String.length]; unfold bufio_size in Hl; lia.
  - destruct l as [|c l]; [done|]. intros [= <- <- <-]. cbn [String.length] in H1. lia.
Qed.
Lemma read_hosts_fuel f : forall g p s byName, (String.length s < f)%nat -> (String.length s < g)%nat -> read_hosts f p s byName = read_hosts g p s byName.
Proof.
  induction f as [|f IH]; intros [|g] p s byName Hf Hg; [done|lia|lia|]. cbn [read_hosts]. destruct (ReadLine s) as [[[line isPrefix] rest]|] eqn:E; [|done].
  apply ReadLine_shorter in E. destruct isPrefix; apply IH; lia.
Qed.
Definition read_rest (p s : string) (byName : table) : table := read_hosts (S (String.length s)) p s byName.
Lemma read_rest_step p s byName : read_rest p s byName =
  match ReadLine s with
  | None => byName
  | Some (line, true, rest) => read_rest (p +:+ line) rest byName
  | Some (line, false, rest) => read_rest "" rest (add_line byName (p +:+ line))
  end.
Proof.
  unfold read_rest at 1. cbn [read_hosts]. destruct (ReadLine s) as [[[line isPrefix] rest]|] eqn:E; [|done]. apply ReadLine_shorter in E.
  destruct isPrefix; apply read_hosts_fuel; lia.
Qed.
Lemma str_length_take n : forall s, (n <= String.length s)%nat -> String.length (str_take n s) = n.
Proof. induction n as [|n IH]; intros [|c s] H; [done|done|cbn in H; lia|]. cbn [str_take String.length] in *. rewrite IH; lia. Qed.

(** A line is read whole, however many buffers it fills. *)
Lemma read_rest_line n : forall l p r byName, (String.length l <= n)%nat -> no_LF l ->
  read_rest p (l +:+ String LF r) byName = read_rest "" r (add_line byName (p +:+ l)).
Proof.
  induction n as [n IH] using lt_wf_ind. intros l p r byName Hn Hl. rewrite read_rest_step. unfold ReadLine.
  destruct (Nat.lt_ge_cases (String.length l) bufio_size) as [Hs|Hf].
  - rewrite scan_line_short by eauto. by rewrite add_line_drop_CR.
  - rewrite scan_line_full by done. pose proof (str_take_drop bufio_size l) as Hsplit. pose proof (drop_CR_spec (str_take bufio_size l)) as Hcr.
    pose proof (str_length_take bufio_size l Hf) as Hlen. destruct (drop_CR (str_take bufio_size l)) as [t b]. cbn [fst snd] in Hcr.
    set (l' := (if b then String CR "" else "") +:+ str_drop bufio_size l). assert (l = t +:+ l') as El.
    { unfold l'. rewrite <- str_app_assoc, <- Hcr. done. }
    assert ((if b then String CR (str_drop bufio_size l +:+ String LF r) else str_drop bufio_size l +:+ String LF r) = l' +:+ String LF r) as ->.
    { unfold l'. by destruct b. }
    rewrite El in Hl, Hn. apply no_LF_app in Hl as [_ Hl'].
    assert (String.length t <> 0)%nat. { rewrite Hcr, str_length_app in Hlen. destruct b; cbn [String.length] in Hlen; unfold bufio_size in Hlen; lia. }
    rewrite str_length_app in Hn. rewrite (IH (String.length l')); [|lia|lia|done]. by rewrite El, str_app_assoc.
Qed.
Lemma read_rest_last l byName : no_LF l -> (String.length l < bufio_size)%nat -> read_rest "" l byName = add_line byName l.
Proof.
  intros Hl Hs. rewrite read_rest_step. unfold ReadLine. rewrite <- (str_app_nil l) at 1. rewrite scan_line_short by auto. destruct l as [|c l]; [done|].
  by rewrite read_rest_step.
Qed.
Lemma first_line s : no_LF s \/ exists l r, s = l +:+ String LF r /\ no_LF l.
Proof.
  induction s as [|c s IH]; [by left|]. destruct (decide (c = LF)) as [->|Hc]; [right; by exists "", s|].
  destruct IH as [H|(l & r & -> & Hl)]; [left; by apply no_LF_cons|right]. exists (String c l), r. split; [done|]. by apply no_LF_cons.
Qed.
Definition last_line_fits (contents : string) : Prop := forall l, last (str_split LF contents) = Some l -> (String.length l < bufio_size)%nat.
Lemma hosts_table_lines contents : last_line_fits contents -> hosts_table contents = lines_table contents.
Proof.
  change (hosts_table contents) with (read_rest "" contents ∅). unfold lines_table. generalize (∅ : table) as byName. remember (String.length contents) as n eqn:En.
  revert contents En. induction n as [n IH] using lt_wf_ind. intros contents -> byName Hlast. destruct (first_line contents) as [Hl|(l & r & -> & Hl)].
  - unfold last_line_fits in Hlast. rewrite str_split_whole in Hlast |- * by done. apply read_rest_last; [done|by apply Hlast].
  - rewrite (read_rest_line (String.length l)) by done. rewrite str_split_part by done. cbn [foldl].
    apply (IH (String.length r)); [rewrite str_length_app; cbn [String.length]; lia|done|]. intros l' Hl'. apply Hlast. rewrite str_split_part by done. rewrite last_cons. by rewrite Hl'.
Qed.

(** ** The age of an answer *)

(** A history of a file: when it was asked, and what the file system said then. *)
Definition File_history (h : list (Z * file_system)) : File := foldl (fun f x => File_update (fst x) (snd x) f) NewFile h.
Fixpoint in_order (h : list (Z * file_system)) : Prop :=
  match h with a :: (b :: _) as h' => (fst a <= fst b)%Z /\ in_order h' | _ => True end.
(** The file could be read all the time, its last line fits the buffer, and its contents are known by its time and its size. *)
Definition readable (content_of : Z -> Z -> string) (x : Z * file_system) : Prop :=
  exists modTime size, fs_stat (snd x) = Some (modTime, size) /\ fs_open (snd x) = Some (content_of modTime size, None) /\ last_line_fits (content_of modTime size).
Definition contents_at (x : Z * file_system) : option string := match fs_open (snd x) with Some (contents, _) => Some contents | None => None end.

Record age_inv (content_of : Z -> Z -> string) (h : list (Z * file_system)) (f : File) : Prop := mkAgeInv {
  age_known : hf_byName f = lines_table (content_of (hf_modTime f) (hf_size f));
  age_recent : h = [] \/ exists x, x ∈ h /\ hf_expire f = (fst x + cacheMaxAge)%Z /\ contents_at x = Some (content_of (hf_modTime f) (hf_size f))
}.
Lemma in_order_snoc h x : in_order (h ++ [x]) -> in_order h /\ forall y, y ∈ h -> (fst y <= fst x)%Z.
Proof.
  induction h as [|a h IH]; [split; [done|intros y Hy; by apply elem_of_nil in Hy]|]. destruct h as [|b h]; cbn [app].
  - intros [H _]. split; [done|]. intros y Hy. by apply list_elem_of_singleton in Hy as ->.
  - intros [H1 H2]. destruct (IH H2) as [H3 H4]. split; [done|]. intros y Hy. apply elem_of_cons in Hy as [->|Hy]; [|by apply H4].
    specialize (H4 b ltac:(by left)). lia.
Qed.
Lemma age_update content_of h x f : age_inv content_of h f -> in_order (h ++ [x]) -> readable content_of x -> (h = [] -> f = NewFile) ->
  age_inv content_of (h ++ [x]) (File_update (fst x) (snd x) f) /\
  exists y, y ∈ (h ++ [x])%list /\ (fst x - cacheMaxAge < fst y <= fst x)%Z /\ contents_at y = Some (content_of (hf_modTime (File_update (fst x) (snd x) f)) (hf_size (File_update (fst x) (snd x) f))).
Proof.
  intros [Hk Hr] Hord (mt & sz & Hst & Hop & Hfit) Hnew. destruct (in_order_snoc h x Hord) as [_ Hle]. assert (x ∈ (h ++ [x])%list) as Hx by set_solver.
  assert (contents_at x = Some (content_of mt sz)) as Hcx by (unfold contents_at; by rewrite Hop). unfold File_update. rewrite Hst.
  destruct ((fst x <? hf_expire f)%Z && negb (size (hf_byName f) =? 0)%nat) eqn:Ek.
  - apply andb_prop in Ek as [Ek1 Ek2]. apply Z.ltb_lt in Ek1. destruct Hr as [Hh|(y & Hy & He & Hc)].
    + rewrite (Hnew Hh) in Ek2. cbn [NewFile hf_byName] in Ek2. by rewrite map_size_empty in Ek2.
    + split; [constructor; [done|right; exists y; split; [set_solver|done]]|]. exists y. split; [set_solver|]. split; [specialize (Hle y Hy); lia|done].
  - destruct ((hf_modTime f =? mt)%Z && (hf_size f =? sz)%Z) eqn:Es.
    + apply andb_prop in Es as [E1%Z.eqb_eq E2%Z.eqb_eq]. rewrite E1, E2 in Hk |- *. split; [constructor; cbn; [done|right; by exists x]|]. exists x. cbn. split_and!; [done|unfold cacheMaxAge; lia|lia|done].
    + rewrite Hop. split; [constructor; cbn; [by apply hosts_table_lines|right; by exists x]|]. exists x. cbn. split_and!; [done|unfold cacheMaxAge; lia|lia|done].
Qed.
Lemma age_history content_of h : lines_table (content_of 0 0)%Z = ∅ -> in_order h -> Forall (readable content_of) h -> age_inv content_of h (File_history h).
Proof.
  intros H0. induction h as [|x h IH] using rev_ind; intros Hord Hread; [constructor; [done|by left]|].
  apply Forall_app in Hread as [Hread Hx]. rewrite Forall_singleton in Hx. unfold File_history. rewrite foldl_app. cbn [foldl].
  apply age_update; [|done|done|by intros ->]. apply IH; [by destruct (in_order_snoc h x Hord)|done].
Qed.
(** C21: a hosts file answers with what it held at most five seconds ago.  For every history of lookups during which the file can be read, is known by its time and size, and has no last line of a whole buffer, the table that
    the last lookup used is the table of the lines of the contents that the file had at some lookup less than five seconds before: every field after an address on a line that is not commented out names that address, in the order of the lines. *)
Theorem hosts_file_recent content_of h x : lines_table (content_of 0 0)%Z = ∅ -> in_order (h ++ [x]) -> Forall (readable content_of) (h ++ [x]) ->
  exists y contents, y ∈ (h ++ [x])%list /\ (fst x - cacheMaxAge < fst y <= fst x)%Z /\ contents_at y = Some contents /\
    forall name, fst (File_Lookup (fst x) (snd x) name (File_history h)) = default [] (lines_table contents !! CanonicalName name).
Proof.
  intros H0 Hord Hread. apply Forall_app in Hread as [Hread Hx]. rewrite Forall_singleton in Hx. destruct (in_order_snoc h x Hord) as [Hord' _].
  destruct (age_update content_of h x (File_history h)) as [[Hk _] (y & Hy & Ht & Hc)]; [by apply age_history|done|done|by intros ->|].
  exists y, (content_of (hf_modTime (File_update (fst x) (snd x) (File_history h))) (hf_size (File_update (fst x) (snd x) (File_history h)))).
  split_and!; [done|lia|lia|done|]. intros name. unfold File_Lookup. cbn [fst]. by rewrite Hk.
Qed.

(** ** What is answered *)

(** Canonical names are fully qualified, as the DNS library documents. *)
Class HostsLibraryLaws : Prop := CanonicalName_dot : forall s, exists t, CanonicalName s = t +:+ ".".

(** The answer of the first source that has the name, the addresses of the type that is asked for: the predefined names, then the files in their order. *)
Definition files_answer (now : Z) (fss : list file_system) (domain : string) (files : list File) : list Addr :=
  default [] (List.find (fun l => negb (length l =? 0)%nat) (zip_with (fun f fs => fst (File_Lookup now fs domain f)) files fss)).
Definition hosts_answer (now : Z) (fss : list file_system) (question : Question) (t : HostsTransport) : option (list Addr) :=
  let domain := CanonicalName (q_Name question) in
  if (q_Qtype question =? TypeA)%N || (q_Qtype question =? TypeAAAA)%N then
    match ht_predefined t !! domain with
    | Some addresses => Some addresses
    | None => match files_answer now fss domain (ht_files t) with [] => None | addresses => Some addresses end
    end
  else None.
Lemma files_Lookup_answer now domain files : forall fss, fst (files_Lookup now fss domain files) = files_answer now fss domain files.
Proof.
  unfold files_answer. induction files as [|f files IH]; intros [|fs fss]; [done|done|done|]. cbn [files_Lookup zip_with List.find].
  destruct (File_Lookup now fs domain f) as [addresses f'] eqn:E. cbn [fst]. destruct addresses as [|a l]; [|done]. cbn [length Nat.eqb negb]. rewrite <- IH.
  by destruct (files_Lookup now fss domain files).
Qed.
Lemma str_drop_last n : forall t c, (n <= String.length t)%nat -> exists u, str_drop n (t +:+ String c "") = u +:+ String c "".
Proof.
  induction n as [|n IH]; intros t c Hn; [exists t; by destruct t|]. destruct t as [|d t]; [cbn in Hn; lia|].
  change (String d t +:+ String c "") with (String d (t +:+ String c "")). cbn [str_drop]. apply IH. cbn in Hn. lia.
Qed.
Lemma last_byte u c v d : u +:+ String c "" = v +:+ String d "" -> c = d.
Proof.
  revert v. induction u as [|a u IH]; intros [|b v] H.
  - by injection H.
  - injection H as _ H. by destruct v.
  - injection H as _ H. by destruct u.
  - injection H as _ H. by eapply IH.
Qed.
Lemma sslip_unreachable `{!HostsLibraryLaws} name : getIpOfSslip (CanonicalName name) = [].
Proof.
  unfold getIpOfSslip. destruct (CanonicalName_dot name) as [t ->]. replace (has_suffix (t +:+ ".") ".sslip.io") with false; [done|]. symmetry.
  unfold has_suffix. destruct (_ <=? _)%nat eqn:El; [|done]. apply Nat.leb_le in El. cbn [andb]. apply bool_decide_eq_false_2. intros E.
  rewrite str_length_app in El, E. cbn [String.length] in El, E. destruct (str_drop_last (String.length t + 1 - 9) t "."%char) as [u Hu]; [lia|]. rewrite Hu in E.
  change ".sslip.io" with (".sslip.i" +:+ "o") in E. by apply last_byte in E.
Qed.
(** the hosts transport.  A question for addresses is answered with the predefined addresses of its name if it has any entry, or else with those of the first file that has some, each of the type that is asked for; anything else,
    names under sslip.io included, does not exist.  The code that reads the address out of a sslip.io name is never reached, since the canonical name ends with a dot. *)
Theorem hosts_Exchange_answers `{!HostsLibraryLaws} now fss message question questions t : msg_Question message = question :: questions ->
  fst (hosts_Exchange now fss message t) =
  Ok match hosts_answer now fss question t with
     | Some addresses => FixedResponse (msg_Id message) question addresses DefaultDNSTTL
     | None => name_error (msg_Id message) question
     end.
Proof.
  intros Hq. unfold hosts_Exchange, hosts_answer. rewrite Hq. destruct (_ || _); [|done]. destruct (ht_predefined t !! _); [done|].
  rewrite <- files_Lookup_answer. destruct (files_Lookup now fss _ (ht_files t)) as [addresses files]. cbn [fst]. destruct addresses; [|done]. by rewrite sslip_unreachable.
Qed.
End Hosts.

(** ** Examples *)

#[local] Instance sample_hosts : HostsLibrary := {|
  CanonicalName := fun s => if has_suffix s "." then s else s +:+ "."; ipv4Regex_FindStringSubmatch := fun _ => []; ipv6Regex_FindStringSubmatch := fun _ => [] |}.
Lemma dot_suffix s : has_suffix s "." = true -> exists t, s = t +:+ ".".
Proof.
  unfold has_suffix. intros H. apply andb_prop in H as [_ H]. apply bool_decide_eq_true in H. exists (str_take (String.length s - 1) s).
  rewrite <- (str_take_drop (String.length s - 1) s) at 1. change (String.length ".") with 1%nat in H. by rewrite H.
Qed.
#[local] Instance sample_hosts_laws : HostsLibraryLaws.
Proof. intros s. cbn [CanonicalName sample_hosts]. destruct (has_suffix s ".") eqn:E; [by apply dot_suffix|by exists s]. Qed.

Definition sample_contents : string := "1.2.3.4 a b # c" +:+ String LF ("::1 a" +:+ String CR (String LF "")).
Definition sample_content_of (modTime size : Z) : string := if (modTime =? 0)%Z then "" else sample_contents.
Definition sample_fs : file_system := mkFileSystem (Some (1, 22)%Z) (Some (sample_contents, None)).
Lemma sample_readable now : readable sample_content_of (now, sample_fs).
Proof. exists 1%Z, 22%Z. split; [done|]. split; [done|]. intros l. vm_compute. intros [= <-]. vm_compute. lia. Qed.
Lemma hosts_file_recent_witness : exists y contents, y ∈ ([(100, sample_fs)] ++ [(200, sample_fs)])%list%Z /\ (200 - cacheMaxAge < fst y <= 200)%Z /\ contents_at y = Some contents /\
  forall name, fst (File_Lookup 200 sample_fs name (File_history [(100, sample_fs)]%Z)) = default [] (lines_table contents !! CanonicalName name).
Proof.
  apply (hosts_file_recent sample_content_of [(100, sample_fs)]%Z (200, sample_fs)%Z); [by vm_compute|split; [cbn; lia|done]|].
  repeat constructor; apply sample_readable.
Defined.
Definition host_question (name : string) : Question := mkQuestion name TypeA ClassINET.
Definition host_query (name : string) : Msg := mkMsg 9 false false true false 0 [host_question name] [] [] [].
Lemma hosts_Exchange_answers_witness :
  fst (hosts_Exchange 100 [sample_fs] (host_query "a.") (NewHostsTransport 1 [("c", [Addr4 5])])) =
    Ok match hosts_answer 100 [sample_fs] (host_question "a.") (NewHostsTransport 1 [("c", [Addr4 5])]) with
       | Some addresses => FixedResponse 9 (host_question "a.") addresses DefaultDNSTTL
       | None => name_error 9 (host_question "a.")
       end.
Proof. apply (hosts_Exchange_answers 100 [sample_fs] (host_query "a.") (host_question "a.") []). reflexivity. Defined.
Example host_answers : hosts_answer 100 [sample_fs] (host_question "a.") (NewHostsTransport 1 [("c", [Addr4 5])]) = Some [Addr4 0x01020304; Addr6 1 ""].
Proof. by vm_compute. Qed.

(** A last line that fills the buffer and has no newline is not read. *)
Fixpoint spaces (n : nat) : string := match n with O => "" | S n => String " " (spaces n) end.
Example long_last_line : let contents := "1.2.3.4 a" +:+ spaces (bufio_size - 9) in
  hosts_table contents = ∅ /\ lines_table contents !! "a." = Some [Addr4 0x01020304].
Proof. by vm_compute. Qed.
