(* ===== verification/MultiDNS.v ===== *)
(** * MultiDNS: one query to several DNS servers

    dns/transport/multi/multi.go: the answers in ignored ranges are dropped; the servers are asked in turn, or all at once by goroutines whose
    replies a collector takes from a channel.  What the servers reply is an argument, and the steps of the goroutines are labels.  Asking in turn
    is the first answer that is not blocked; asking all at once, in every interleaving, returns only what a server replied, never a blocked
    address, and loses no answer unless it is stopped. *)

From S2P Require Import Prelude GoStd NetIP DNSMessage TransportBase.
Open Scope string_scope.

(** ** Blocked answers *)

(** The address of a record is what [netip.AddrFromSlice] reads from its bytes, [AddrNone] when it is not ok. *)
Definition isBlocked (ignoredRanges : list Prefix) (ip : Addr) : bool :=
  if negb (Addr_IsValid ip) then true else existsb (fun p => Prefix_Contains p ip) ignoredRanges.
Definition blocked_record (ignoredRanges : list Prefix) (r : RR) : bool :=
  match rr_Data r with RR_A a | RR_AAAA a => isBlocked ignoredRanges a | _ => false end.
Definition filterBlocked (ignoredRanges : list Prefix) (msg : option Msg) : option Msg * bool :=
  match msg with
  | None => (None, false)
  | Some m =>
      if (length (msg_Answer m) =? 0)%nat then (Some m, false)
      else
        let answers := List.filter (fun r => negb (blocked_record ignoredRanges r)) (msg_Answer m) in
        (Some (set_msg_Answer answers m), negb (length answers =? length (msg_Answer m))%nat)
  end.

(** ** The replies *)

(** What [Exchange] of a server returns: [(resp, err)]. *)
Inductive reply : Type := ReplyError (e : error) | Reply (resp : option Msg).
Definition err_no_dns_response : error := ENew "no dns response".
Definition err_transport_closed : error := ENew "transport closed".
Definition err_no_dns_transports : error := ENew "no dns transports configured".
Definition nil_dereference : string := "invalid memory address or nil pointer dereference".

(** What is done with a reply: an answer to return, or the last error and the last response from now on. *)
Inductive judged : Type := JAnswer (resp : Msg) | JNext (lastErr : option error) (lastResp : option Msg).
Definition judge (ignoredRanges : list Prefix) (lastErr : option error) (lastResp : option Msg) (r : reply) : result judged :=
  match r with
  | ReplyError e => Ok (JNext (Some e) lastResp)
  | Reply resp =>
      match filterBlocked ignoredRanges resp with
      | (Some resp, change) =>
          if (0 <? length (msg_Answer resp))%nat then Ok (JAnswer resp)
          else Ok (JNext lastErr (if change then lastResp else Some resp))
      | (None, _) => Panic nil_dereference
      end
  end.
(** When no server is left. *)
Definition last_result (otherwise : error) (lastErr : option error) (lastResp : option Msg) : result Msg :=
  match lastResp, lastErr with
  | Some resp, _ => Ok resp
  | None, Some e => Err e
  | None, None => Err otherwise
  end.

(** ** In turn *)

(** A turn of the loop: why the [select] stops it, if it does ([err_transport_closed], or the error of the context), and the reply. *)
Record turn : Type := mkTurn { tn_stop : option error; tn_reply : reply }.
Fixpoint serial_loop (ignoredRanges : list Prefix) (turns : list turn) (lastErr : option error) (lastResp : option Msg) : result Msg :=
  match turns with
  | [] => last_result err_no_dns_response lastErr lastResp
  | t :: turns =>
      match tn_stop t with
      | Some e => Err e
      | None =>
          let! j := judge ignoredRanges lastErr lastResp (tn_reply t) in
          match j with
          | JAnswer resp => Ok resp
          | JNext lastErr lastResp => serial_loop ignoredRanges turns lastErr lastResp
          end
      end
  end.
Definition exchangeSerial (ignoredRanges : list Prefix) (turns : list turn) : result Msg := serial_loop ignoredRanges turns None None.

(** ** All at once *)

(** A goroutine that asks a server: in [Exchange], with the reply at the [select], or done. *)
Inductive asker_pc : Type := AskExchange | AskSelect (r : reply) | AskDone.
(** How the collector came to return. *)
Inductive collect_end : Type := EndAnswer | EndAll | EndClosed | EndContext.
Inductive collect_pc : Type := CollectLoop (lastErr : option error) (lastResp : option Msg) | CollectReturned (how : collect_end) (r : result Msg).
Record multi_system : Type := mkMultiSystem {
  ms_askers : list asker_pc;
  ms_results : list reply; (* the channel *)
  ms_resultsClosed : bool;
  ms_collector : collect_pc;
  ms_expired : option error; (* the context ended by itself *)
  ms_canceled : bool; (* the collector ended it *)
  ms_done : bool; (* [Close] was called *)
  ms_replies : gmap nat reply (* what each server has replied *)
}.
Definition multi_new (transports : nat) : multi_system :=
  mkMultiSystem (replicate transports AskExchange) [] false (CollectLoop None None) None false false ∅.
Definition ctx_ended (s : multi_system) : bool := bool_decide (is_Some (ms_expired s)) || ms_canceled s.

Inductive multi_label : Type :=
| MReply (i : nat) (r : reply) | MPut (i : nat) | MDrop (i : nat) | MCloseResults
| MCollect | MCollectClosed | MCollectContext | MExpire (e : error) | MClose.

Definition set_asker (i : nat) (pc : asker_pc) (s : multi_system) : multi_system :=
  mkMultiSystem (<[i := pc]> (ms_askers s)) (ms_results s) (ms_resultsClosed s) (ms_collector s) (ms_expired s) (ms_canceled s) (ms_done s) (ms_replies s).
Definition set_results (l : list reply) (s : multi_system) : multi_system :=
  mkMultiSystem (ms_askers s) l (ms_resultsClosed s) (ms_collector s) (ms_expired s) (ms_canceled s) (ms_done s) (ms_replies s).
(** The collector loops, or returns, which ends the context. *)
Definition collect_on (pc : collect_pc) (s : multi_system) : multi_system :=
  mkMultiSystem (ms_askers s) (ms_results s) (ms_resultsClosed s) pc (ms_expired s) (ms_canceled s || match pc with CollectReturned _ _ => true | _ => false end)
    (ms_done s) (ms_replies s).

Definition multi_step (ignoredRanges : list Prefix) (l : multi_label) (s : multi_system) : result multi_system :=
  match l with
  | MReply i r =>
      match ms_askers s !! i with
      | Some AskExchange =>
          Ok (mkMultiSystem (<[i := AskSelect r]> (ms_askers s)) (ms_results s) (ms_resultsClosed s) (ms_collector s) (ms_expired s) (ms_canceled s) (ms_done s)
                (<[i := r]> (ms_replies s)))
      | _ => Err disabled
      end
  | MPut i =>
      match ms_askers s !! i with
      | Some (AskSelect r) =>
          if ms_resultsClosed s then Panic "send on closed channel"
          else if (length (ms_results s) <? length (ms_askers s))%nat then Ok (set_asker i AskDone (set_results (ms_results s ++ [r])%list s))
          else Err disabled
      | _ => Err disabled
      end
  | MDrop i =>
      match ms_askers s !! i with
      | Some (AskSelect r) => if ctx_ended s || ms_done s then Ok (set_asker i AskDone s) else Err disabled
      | _ => Err disabled
      end
  | MCloseResults =>
      if forallb (fun pc => match pc with AskDone => true | _ => false end) (ms_askers s) && negb (ms_resultsClosed s) then
        Ok (mkMultiSystem (ms_askers s) (ms_results s) true (ms_collector s) (ms_expired s) (ms_canceled s) (ms_done s) (ms_replies s))
      else Err disabled
  | MCollect =>
      match ms_collector s with
      | CollectLoop lastErr lastResp =>
          match ms_results s with
          | r :: results =>
              let! j := judge ignoredRanges lastErr lastResp r in
              Ok (collect_on match j with JAnswer resp => CollectReturned EndAnswer (Ok resp) | JNext lastErr lastResp => CollectLoop lastErr lastResp end
                    (set_results results s))
          | [] =>
              if ms_resultsClosed s then Ok (collect_on (CollectReturned EndAll (last_result err_no_dns_response lastErr lastResp)) s)
              else Err disabled
          end
      | _ => Err disabled
      end
  | MCollectClosed =>
      match ms_collector s with
      | CollectLoop _ _ => if ms_done s then Ok (collect_on (CollectReturned EndClosed (Err err_transport_closed)) s) else Err disabled
      | _ => Err disabled
      end
  | MCollectContext =>
      match ms_collector s, ms_expired s with
      | CollectLoop lastErr lastResp, Some e => Ok (collect_on (CollectReturned EndContext (last_result e lastErr lastResp)) s)
      | _, _ => Err disabled
      end
  | MExpire e =>
      match ms_expired s with
      | None =>
          if ms_canceled s then Err disabled
          else Ok (mkMultiSystem (ms_askers s) (ms_results s) (ms_resultsClosed s) (ms_collector s) (Some e) (ms_canceled s) (ms_done s) (ms_replies s))
      | Some _ => Err disabled
      end
  | MClose =>
      if ms_done s then Err disabled
      else Ok (mkMultiSystem (ms_askers s) (ms_results s) (ms_resultsClosed s) (ms_collector s) (ms_expired s) (ms_canceled s) true (ms_replies s))
  end.
Fixpoint multi_run (ignoredRanges : list Prefix) (ls : list multi_label) (s : multi_system) : result multi_system :=
  match ls with [] => Ok s | l :: ls => let! s := multi_step ignoredRanges l s in multi_run ignoredRanges ls s end.

(** ** What a reply is worth *)

Section Ranges.
Context (ranges : list Prefix).

(** The answer that a reply gives, and a response without answers. *)
Definition answered (r : reply) : option Msg :=
  match r with
  | Reply (Some m) =>
      let answers := List.filter (fun x => negb (blocked_record ranges x)) (msg_Answer m) in
      match answers with [] => None | _ => Some (set_msg_Answer answers m) end
  | _ => None
  end.
Definition empty_reply (r : reply) : option Msg :=
  match r with Reply (Some m) => match msg_Answer m with [] => Some m | _ => None end | _ => None end.
Definition reply_error (r : reply) : option error := match r with ReplyError e => Some e | _ => None end.
Definition clean (m : Msg) : Prop := Forall (fun x => blocked_record ranges x = false) (msg_Answer m).
Definition or_before {A} (new old : option A) : option A := match new with Some a => Some a | None => old end.

Lemma answered_clean r m : answered r = Some m -> clean m /\ msg_Answer m <> [].
Proof.
  destruct r as [e|[m0|]]; cbn [answered]; [done| |done]. destruct (List.filter _ _) as [|x l] eqn:E; [done|]. intros [= <-].
  split; [|done]. unfold clean. cbn [msg_Answer set_msg_Answer]. rewrite <- E. apply Forall_forall. intros y Hy.
  apply list_elem_of_In, filter_In in Hy as [_ Hy]. by apply negb_true_iff.
Qed.
Lemma empty_clean r m : empty_reply r = Some m -> clean m /\ r = Reply (Some m) /\ msg_Answer m = [].
Proof.
  destruct r as [e|[m0|]]; cbn [empty_reply]; [done| |done]. destruct (msg_Answer m0) eqn:E; [|done]. intros [= ->]. unfold clean. by rewrite E.
Qed.
(** What is done with a reply. *)
Lemma judge_spec lastErr lastResp r :
  judge ranges lastErr lastResp r =
  match r with
  | Reply None => Panic nil_dereference
  | _ => match answered r with
         | Some m => Ok (JAnswer m)
         | None => Ok (JNext (or_before (reply_error r) lastErr) (or_before (empty_reply r) lastResp))
         end
  end.
Proof.
  destruct r as [e|[m|]]; [done| |done]. cbn [judge filterBlocked answered empty_reply reply_error or_before].
  destruct (msg_Answer m) as [|x l] eqn:E; cbn [length Nat.eqb].
  - cbn [List.filter]. by rewrite E.
  - destruct (List.filter _ (x :: l)) as [|y l'] eqn:F; [|done]. by cbn.
Qed.

(** ** In turn *)

(** The turns before the one that ends the loop. *)
Definition goes_on (t : turn) : bool :=
  match tn_stop t, tn_reply t, answered (tn_reply t) with Some _, _, _ | _, Reply None, _ | _, _, Some _ => false | _, _, _ => true end.
Fixpoint before_end (turns : list turn) : list turn :=
  match turns with [] => [] | t :: turns => if goes_on t then t :: before_end turns else [] end.
(** The loop as a whole: the first turn that does not go on decides; without one, the last response without answers, the last error. *)
Definition serial_reference (turns : list turn) : result Msg :=
  let asked := before_end turns in
  match turns !! length asked with
  | Some t =>
      match tn_stop t, answered (tn_reply t) with
      | Some e, _ => Err e
      | None, Some m => Ok m
      | None, None => Panic nil_dereference
      end
  | None =>
      last_result err_no_dns_response (last (omap (fun t => reply_error (tn_reply t)) asked)) (last (omap (fun t => empty_reply (tn_reply t)) asked))
  end.
Lemma last_or {A B} (f : A -> option B) a l old : or_before (last (omap f (a :: l))) old = or_before (last (omap f l)) (or_before (f a) old).
Proof. cbn [omap list_omap]. destruct (f a) as [b|]; [|done]. rewrite last_cons. by destruct (last (omap f l)). Qed.
Lemma serial_loop_reference turns : forall lastErr lastResp,
  serial_loop ranges turns lastErr lastResp =
  match turns !! length (before_end turns) with
  | Some _ => serial_reference turns
  | None => last_result err_no_dns_response (or_before (last (omap (fun t => reply_error (tn_reply t)) (before_end turns))) lastErr)
              (or_before (last (omap (fun t => empty_reply (tn_reply t)) (before_end turns))) lastResp)
  end.
Proof.
  unfold serial_reference. induction turns as [|[stop r] turns IH]; intros lastErr lastResp; [done|].
  assert (forall t n, (t :: turns) !! S n = turns !! n) as HS by done.
  cbn [serial_loop before_end goes_on tn_stop tn_reply]. destruct stop as [e|]; [done|]. rewrite judge_spec.
  destruct r as [e|[m|]]; [| |done].
  - replace (goes_on _) with true by done. cbn [answered mbind result_bind length]. rewrite IH, HS. destruct (turns !! length (before_end turns)); [done|]. by rewrite !last_or.
  - assert (goes_on (mkTurn None (Reply (Some m))) = match answered (Reply (Some m)) with Some _ => false | None => true end) as -> by done.
    destruct (answered (Reply (Some m))) as [m'|] eqn:Ea; cbn [mbind result_bind length].
    + unfold lookup, list_lookup. cbn [tn_stop tn_reply]. by rewrite Ea.
    + rewrite IH, HS. destruct (turns !! length (before_end turns)); [done|]. by rewrite !last_or.
Qed.

(** ** All at once *)

Definition undone (l : list asker_pc) : nat := length (List.filter (fun pc => match pc with AskDone => false | _ => true end) l).
Lemma undone_insert l : forall i r, l !! i = Some (AskSelect r) -> undone l = S (undone (<[i := AskDone]> l)).
Proof.
  unfold undone. induction l as [|pc l IH]; intros [|i] r Hi; cbn in Hi; [done|done| |].
  - by injection Hi as ->.
  - specialize (IH i r Hi). change (<[S i := AskDone]> (pc :: l)) with (pc :: <[i := AskDone]> l). destruct pc; cbn [List.filter length]; lia.
Qed.
Lemma undone_same l : forall i r, l !! i = Some AskExchange -> undone (<[i := AskSelect r]> l) = undone l.
Proof.
  unfold undone. induction l as [|pc l IH]; intros [|i] r Hi; cbn in Hi; [done|done| |].
  - by injection Hi as ->.
  - specialize (IH i r Hi). change (<[S i := AskSelect r]> (pc :: l)) with (pc :: <[i := AskSelect r]> l). destruct pc; cbn [List.filter length]; lia.
Qed.
Lemma undone_le l : (undone l <= length l)%nat.
Proof. unfold undone. induction l as [|[] l IH]; cbn; lia. Qed.
Lemma all_done l : forallb (fun pc => match pc with AskDone => true | _ => false end) l = true -> forall i pc, l !! i = Some pc -> pc = AskDone.
Proof.
  intros H i pc Hi. apply list_elem_of_lookup_2, list_elem_of_In in Hi. pose proof (proj1 (forallb_forall _ l) H pc Hi). by destruct pc.
Qed.
Lemma some_undone l : forallb (fun pc => match pc with AskDone => true | _ => false end) l = false -> exists i pc, l !! i = Some pc /\ pc <> AskDone.
Proof.
  induction l as [|pc l IH]; [done|]. cbn. intros H. destruct pc; [by exists 0%nat, AskExchange|by exists 0%nat, (AskSelect r)|].
  destruct (IH H) as (i & pc & Hi & Hn). by exists (S i), pc.
Qed.

(** A reply that the collector has taken and that was no answer. *)
Record consumed (r : reply) (lastErr : option error) (lastResp : option Msg) : Prop := mkConsumed {
  cs_unanswered : answered r = None;
  cs_error : is_Some (reply_error r) -> is_Some lastErr;
  cs_empty : is_Some (empty_reply r) -> is_Some lastResp
}.
Definition looked_at (r : reply) (pc : collect_pc) : Prop :=
  match pc with
  | CollectLoop lastErr lastResp => consumed r lastErr lastResp
  | CollectReturned EndAll res => exists lastErr lastResp, consumed r lastErr lastResp /\ res = last_result err_no_dns_response lastErr lastResp
  | CollectReturned _ _ => True
  end.
(** Where a response comes from, and an error. *)
Definition response_of (replies : gmap nat reply) (m : Msg) : Prop :=
  exists i r, replies !! i = Some r /\ (answered r = Some m \/ empty_reply r = Some m).
Definition error_of (replies : gmap nat reply) (e : error) : Prop := exists i, replies !! i = Some (ReplyError e).
Definition collected_ok (s : multi_system) : Prop :=
  match ms_collector s with
  | CollectLoop lastErr lastResp =>
      (forall e, lastErr = Some e -> error_of (ms_replies s) e) /\
      (forall m, lastResp = Some m -> exists i r, ms_replies s !! i = Some r /\ empty_reply r = Some m)
  | CollectReturned how res =>
      match res with
      | Ok m => response_of (ms_replies s) m
      | Err e =>
          error_of (ms_replies s) e \/
          match how with
          | EndAnswer => False
          | EndAll => e = err_no_dns_response
          | EndClosed => e = err_transport_closed /\ ms_done s = true
          | EndContext => ms_expired s = Some e
          end
      | Panic _ => False
      end
  end.

Record multi_inv (n : nat) (s : multi_system) : Prop := mkMultiInv {
  mi_askers : length (ms_askers s) = n;
  mi_room : (length (ms_results s) + undone (ms_askers s) <= n)%nat;
  mi_reply : forall i pc, ms_askers s !! i = Some pc -> match pc with AskExchange => ms_replies s !! i = None | AskSelect r => ms_replies s !! i = Some r | AskDone => is_Some (ms_replies s !! i) end;
  mi_replied : forall i r, ms_replies s !! i = Some r -> (i < n)%nat;
  mi_closed : ms_resultsClosed s = true -> forall i pc, ms_askers s !! i = Some pc -> pc = AskDone;
  mi_source : forall r, r ∈ ms_results s -> exists i, ms_replies s !! i = Some r;
  mi_collected : collected_ok s;
  mi_all : forall res, ms_collector s = CollectReturned EndAll res -> ms_resultsClosed s = true /\ ms_results s = [];
  mi_canceled : forall lastErr lastResp, ms_collector s = CollectLoop lastErr lastResp -> ms_canceled s = false;
  mi_complete : ms_expired s = None -> ms_done s = false -> forall i r, ms_replies s !! i = Some r ->
    ms_askers s !! i = Some (AskSelect r) \/ r ∈ ms_results s \/ looked_at r (ms_collector s)
}.
Lemma multi_inv_new n : multi_inv n (multi_new n).
Proof.
  constructor; cbn [multi_new ms_askers ms_results ms_replies ms_resultsClosed ms_collector ms_expired ms_canceled ms_done].
  - apply length_replicate.
  - pose proof (undone_le (replicate n AskExchange)) as H. by rewrite length_replicate in H.
  - intros i pc Hi. apply lookup_replicate in Hi as [-> _]. by apply lookup_empty.
  - intros i r Hi. by rewrite lookup_empty in Hi.
  - done.
  - intros r Hr. by apply elem_of_nil in Hr.
  - split; intros ? [=].
  - done.
  - done.
  - intros _ _ i r Hi. by rewrite lookup_empty in Hi.
Qed.
Lemma collected_mono s s' : ms_collector s' = ms_collector s -> ms_replies s ⊆ ms_replies s' ->
  (forall e, ms_expired s = Some e -> ms_expired s' = Some e) -> (ms_done s = true -> ms_done s' = true) -> collected_ok s -> collected_ok s'.
Proof.
  intros Hc Hr He Hd. unfold collected_ok, response_of, error_of. rewrite Hc.
  assert (forall i r, ms_replies s !! i = Some r -> ms_replies s' !! i = Some r) as Hm by (intros i r H; by eapply lookup_weaken).
  destruct (ms_collector s) as [le lr|how [m|e|msg]].
  - intros [H1 H2]. split; [intros e E; destruct (H1 e E) as [i Hi]; eauto|]. intros m E. destruct (H2 m E) as (i & r & Hi & Hr'). eauto.
  - intros (i & r & Hi & Hr'). eauto.
  - intros [[i Hi]|H]; [left; eauto|right]. destruct how; [done|done|destruct H; auto|auto].
  - done.
Qed.
Lemma reply_inv n s i r : multi_inv n s -> ms_askers s !! i = Some AskExchange ->
  multi_inv n (mkMultiSystem (<[i := AskSelect r]> (ms_askers s)) (ms_results s) (ms_resultsClosed s) (ms_collector s) (ms_expired s) (ms_canceled s) (ms_done s) (<[i := r]> (ms_replies s))).
Proof.
  intros [I1 I2 I3 I4 I5 I6 I7 I8 I9 I10] Hi. pose proof (I3 i _ Hi) as Hnone. cbn in Hnone. pose proof (lookup_lt_Some _ _ _ Hi) as Hlt.
  assert (forall j r0, ms_replies s !! j = Some r0 -> <[i := r]> (ms_replies s) !! j = Some r0) as Hm.
  { intros j r0 Hj. rewrite lookup_insert_ne; [done|]. intros ->. congruence. }
  constructor; cbn [ms_askers ms_results ms_replies ms_resultsClosed ms_collector ms_expired ms_canceled ms_done].
  - by rewrite length_insert.
  - by rewrite undone_same.
  - intros j pc Hj. destruct (decide (i = j)) as [<-|Hne].
    + rewrite list_lookup_insert_eq in Hj by done. injection Hj as <-. by rewrite lookup_insert_eq.
    + rewrite list_lookup_insert_ne in Hj by done. rewrite lookup_insert_ne by done. by apply I3.
  - intros j r0 Hj. apply lookup_insert_Some in Hj as [[<- _]|[_ Hj]]; [lia|by eapply I4].
  - intros Hc j pc Hj. by specialize (I5 Hc i _ Hi).
  - intros r0 Hr0. destruct (I6 r0 Hr0) as [j Hj]. eauto.
  - apply (collected_mono s); [done| |done|done|done]. apply map_subseteq_spec. done.
  - done.
  - done.
  - intros He Hd j r0 Hj. apply lookup_insert_Some in Hj as [[<- <-]|[Hne Hj]]; [left; by apply list_lookup_insert_eq|].
    destruct (I10 He Hd j r0 Hj) as [Ha|H]; [left; by rewrite list_lookup_insert_ne|by right].
Qed.
(** A goroutine is done, its reply in the channel or, if the call has ended, nowhere. *)
Lemma asker_done_inv n s i r results : multi_inv n s -> ms_askers s !! i = Some (AskSelect r) ->
  (results = (ms_results s ++ [r])%list \/ (results = ms_results s /\ ctx_ended s || ms_done s = true)) ->
  multi_inv n (set_asker i AskDone (set_results results s)).
Proof.
  intros [I1 I2 I3 I4 I5 I6 I7 I8 I9 I10] Hi Hres. pose proof (I3 i _ Hi) as Hri. cbn in Hri. pose proof (lookup_lt_Some _ _ _ Hi) as Hlt.
  pose proof (undone_insert _ i r Hi) as Hu. assert (forall x, x ∈ ms_results s -> x ∈ results) as Hsub by (destruct Hres as [->|[-> _]]; set_solver).
  assert (forall res, ms_collector s <> CollectReturned EndAll res) as Hnall. { intros res E. destruct (I8 res E) as [Hc _]. by specialize (I5 Hc i _ Hi). }
  constructor; cbn [set_asker set_results ms_askers ms_results ms_replies ms_resultsClosed ms_collector ms_expired ms_canceled ms_done].
  - by rewrite length_insert.
  - assert (length results <= S (length (ms_results s)))%nat by (destruct Hres as [->|[-> _]]; rewrite ?length_app; cbn [length]; lia). lia.
  - intros j pc Hj. destruct (decide (i = j)) as [<-|Hne].
    + rewrite list_lookup_insert_eq in Hj by done. injection Hj as <-. by eexists.
    + rewrite list_lookup_insert_ne in Hj by done. by apply I3.
  - done.
  - intros Hc j pc Hj. by specialize (I5 Hc i _ Hi).
  - intros r0 Hr0. destruct Hres as [->|[-> _]]; [|by apply I6]. apply elem_of_app in Hr0 as [H|H]; [by apply I6|]. apply list_elem_of_singleton in H as ->. eauto.
  - apply (collected_mono s); done.
  - intros res E. by destruct (Hnall res).
  - done.
  - intros He Hd j r0 Hj. destruct (decide (i = j)) as [<-|Hne].
    + assert (r0 = r) as -> by congruence. right. destruct Hres as [->|[-> Hs]]; [left; set_solver|right].
      unfold ctx_ended in Hs. rewrite He, Hd in Hs. cbn in Hs. rewrite orb_false_r in Hs.
      destruct (ms_collector s) as [le lr|[] res] eqn:Ec; [by rewrite (I9 le lr eq_refl) in Hs|done|by destruct (Hnall res)|done|done].
    + destruct (I10 He Hd j r0 Hj) as [Ha|[H|H]]; [left; by rewrite list_lookup_insert_ne|right; left; by apply Hsub|by right; right].
Qed.
Lemma close_results_inv n s : multi_inv n s -> (forall i pc, ms_askers s !! i = Some pc -> pc = AskDone) ->
  multi_inv n (mkMultiSystem (ms_askers s) (ms_results s) true (ms_collector s) (ms_expired s) (ms_canceled s) (ms_done s) (ms_replies s)).
Proof.
  intros [I1 I2 I3 I4 I5 I6 I7 I8 I9 I10] Hall. constructor; cbn; try done. intros res E. by destruct (I8 res E).
Qed.
(** The context ends, or [Close] is called. *)
Lemma stop_inv n s expired closed : multi_inv n s -> (forall e, ms_expired s = Some e -> expired = Some e) -> (ms_done s = true -> closed = true) ->
  multi_inv n (mkMultiSystem (ms_askers s) (ms_results s) (ms_resultsClosed s) (ms_collector s) expired (ms_canceled s) closed (ms_replies s)).
Proof.
  intros [I1 I2 I3 I4 I5 I6 I7 I8 I9 I10] He Hd. constructor; cbn; try done.
  - apply (collected_mono s); done.
  - intros -> ->. apply I10; [destruct (ms_expired s) as [e|]; [by specialize (He e eq_refl)|done]|]. destruct (ms_done s); [by specialize (Hd eq_refl)|done].
Qed.
(** The collector returns, with what is left in the channel. *)
Lemma return_inv n s results lastErr lastResp how res : multi_inv n s -> ms_collector s = CollectLoop lastErr lastResp ->
  (forall x, x ∈ results -> x ∈ ms_results s) -> (length results <= length (ms_results s))%nat ->
  collected_ok (collect_on (CollectReturned how res) s) ->
  (how = EndAll -> ms_resultsClosed s = true /\ ms_results s = [] /\ res = last_result err_no_dns_response lastErr lastResp) ->
  multi_inv n (collect_on (CollectReturned how res) (set_results results s)).
Proof.
  intros [I1 I2 I3 I4 I5 I6 I7 I8 I9 I10] Hc Hsub Hlen Hok Hall.
  constructor; cbn [collect_on set_results ms_askers ms_results ms_replies ms_resultsClosed ms_collector ms_expired ms_canceled ms_done]; try done.
  - lia.
  - intros r Hr. by apply I6, Hsub.
  - intros res' [= -> <-]. destruct (Hall eq_refl) as (H1 & H2 & _). split; [done|]. rewrite H2 in Hlen. by destruct results; [|cbn in Hlen; lia].
  - intros He Hd i r Hi. assert (how = EndAll \/ how <> EndAll) as [->|Hn] by (destruct how; auto); [|right; right; by destruct how].
    destruct (Hall eq_refl) as (H1 & H2 & ->). destruct (I10 He Hd i r Hi) as [Ha|[Hr|Hl]].
    + by specialize (I5 H1 i _ Ha).
    + rewrite H2 in Hr. by apply elem_of_nil in Hr.
    + right; right. rewrite Hc in Hl. by exists lastErr, lastResp.
Qed.
Lemma or_before_some {A} (new old : option A) : is_Some new -> is_Some (or_before new old).
Proof. intros [a ->]. by eexists. Qed.
Lemma or_before_old {A} (new old : option A) : is_Some old -> is_Some (or_before new old).
Proof. destruct new; [by eexists|done]. Qed.
(** The collector takes a reply that is no answer. *)
Lemma next_inv n s r results lastErr lastResp : multi_inv n s -> ms_collector s = CollectLoop lastErr lastResp -> ms_results s = r :: results -> answered r = None ->
  multi_inv n (collect_on (CollectLoop (or_before (reply_error r) lastErr) (or_before (empty_reply r) lastResp)) (set_results results s)).
Proof.
  intros [I1 I2 I3 I4 I5 I6 I7 I8 I9 I10] Hc Hr Ha. rewrite Hr in I2, I6. cbn [length] in I2.
  constructor; cbn [collect_on set_results ms_askers ms_results ms_replies ms_resultsClosed ms_collector ms_expired ms_canceled ms_done]; try done.
  - lia.
  - intros x Hx. apply I6. by right.
  - unfold collected_ok in *. cbn [ms_collector ms_replies collect_on set_results]. rewrite Hc in I7. destruct I7 as [H1 H2], (I6 r) as [i Hi]; [by left|]. split.
    + intros e. destruct r as [e0|m0]; cbn [reply_error or_before]; [|by apply H1]. intros [= <-]. by exists i.
    + intros m. destruct (empty_reply r) as [m0|] eqn:Em; cbn [or_before]; [|by apply H2]. intros [= <-]. by exists i, r.
  - intros le lr _. rewrite orb_false_r. by apply (I9 lastErr lastResp).
  - intros He Hd j x Hj. destruct (I10 He Hd j x Hj) as [H|[H|H]]; [by left| |].
    + rewrite Hr in H. apply elem_of_cons in H as [->|H]; [|by right; left]. right; right. cbn [looked_at]. constructor; [done|apply or_before_some|apply or_before_some].
    + right; right. rewrite Hc in H. cbn [looked_at] in *. destruct H as [C1 C2 C3]. constructor; [done|intros; by apply or_before_old, C2|intros; by apply or_before_old, C3].
Qed.
(** The result when no server is left, or the context has ended. *)
Lemma last_result_ok s lastErr lastResp how otherwise : collected_ok s -> ms_collector s = CollectLoop lastErr lastResp ->
  (how = EndAll /\ otherwise = err_no_dns_response \/ how = EndContext /\ ms_expired s = Some otherwise) ->
  collected_ok (collect_on (CollectReturned how (last_result otherwise lastErr lastResp)) s).
Proof.
  unfold collected_ok. intros Hok Hc Hhow. rewrite Hc in Hok. destruct Hok as [H1 H2]. cbn [collect_on ms_collector ms_replies ms_expired ms_done].
  destruct lastResp as [m|]; cbn [last_result].
  - destruct (H2 m eq_refl) as (i & r & Hi & Hr). exists i, r. auto.
  - destruct lastErr as [e|]; [left; by apply H1|right]. by destruct Hhow as [[-> ->]|[-> He]].
Qed.
Lemma multi_step_inv n l s : multi_inv n s ->
  match multi_step ranges l s with Ok s' => multi_inv n s' | Err _ => True | Panic _ => exists i, ms_replies s !! i = Some (Reply None) end.
Proof.
  intros Hs. destruct l as [i r|i|i| | | | |e|]; cbn [multi_step].
  - destruct (ms_askers s !! i) as [[]|] eqn:Hi; try done. by apply reply_inv.
  - destruct (ms_askers s !! i) as [[|r|]|] eqn:Hi; try done. destruct (ms_resultsClosed s) eqn:Hc; [by pose proof (mi_closed n s Hs Hc i _ Hi)|].
    destruct (_ <? _)%nat; [|done]. apply (asker_done_inv n s i r); auto.
  - destruct (ms_askers s !! i) as [[|r|]|] eqn:Hi; try done. destruct (ctx_ended s || ms_done s) eqn:He; [|done].
    assert (set_asker i AskDone s = set_asker i AskDone (set_results (ms_results s) s)) as -> by done. apply (asker_done_inv n s i r); auto.
  - destruct (forallb _ _) eqn:Hall; [|done]. destruct (ms_resultsClosed s); cbn [andb negb]; [done|]. by apply close_results_inv, all_done.
  - destruct (ms_collector s) as [lastErr lastResp|] eqn:Hc; [|done]. destruct (ms_results s) as [|r results] eqn:Hr.
    + destruct (ms_resultsClosed s) eqn:Hcl; [|done]. assert (forall pc, collect_on pc s = collect_on pc (set_results [] s)) as -> by (intros; unfold set_results; by rewrite <- Hr).
      apply (return_inv n s [] lastErr lastResp); [done|done|by rewrite Hr|cbn; lia| |done]. apply last_result_ok; [|done|by left]. apply (mi_collected n s Hs).
    + destruct (mi_source n s Hs r) as [i Hi]; [rewrite Hr; by left|]. rewrite judge_spec. destruct (answered r) as [m|] eqn:Ha.
      * assert (r <> Reply None) as Hnn by (intros ->; done). assert (multi_inv n (collect_on (CollectReturned EndAnswer (Ok m)) (set_results results s))) as G.
        { apply (return_inv n s results lastErr lastResp); [done|done|intros x Hx; rewrite Hr; by right|rewrite Hr; cbn; lia| |done].
          unfold collected_ok, response_of. cbn. eauto. }
        destruct r as [e|[m0|]]; [done|exact G|done].
      * pose proof (next_inv n s r results lastErr lastResp Hs Hc Hr Ha) as G. destruct r as [e|[m0|]]; [exact G|exact G|by exists i].
  - destruct (ms_collector s) as [lastErr lastResp|] eqn:Hc; [|done]. destruct (ms_done s) eqn:Hd; [|done].
    apply (return_inv n s (ms_results s) lastErr lastResp); [done|done|done|done| |done]. unfold collected_ok. cbn. auto.
  - destruct (ms_collector s) as [lastErr lastResp|] eqn:Hc; [|done]. destruct (ms_expired s) as [e|] eqn:He; [|done].
    apply (return_inv n s (ms_results s) lastErr lastResp); [done|done|done|done| |done]. apply last_result_ok; [|done|by right]. apply (mi_collected n s Hs).
  - destruct (ms_expired s) as [e'|] eqn:He; [done|]. destruct (ms_canceled s) eqn:Hcan; [done|]. rewrite <- Hcan. apply stop_inv; [done|by rewrite He|done].
  - destruct (ms_done s); [done|]. by apply stop_inv.
Qed.

(** What holds at any time, with [n] servers. *)
Record multi_safe (n : nat) (s : multi_system) : Prop := mkMultiSafe {
  ma_response : forall how m, ms_collector s = CollectReturned how (Ok m) -> clean m /\ response_of (ms_replies s) m;
  ma_error : forall how e, ms_collector s = CollectReturned how (Err e) ->
    error_of (ms_replies s) e \/ (how = EndAll /\ e = err_no_dns_response) \/ (ms_done s = true /\ e = err_transport_closed) \/ ms_expired s = Some e;
  ma_all : forall res, ms_collector s = CollectReturned EndAll res -> ms_expired s = None -> ms_done s = false ->
    forall i, (i < n)%nat -> exists r, ms_replies s !! i = Some r /\ answered r = None /\ (is_Some (empty_reply r) -> exists m, res = Ok m);
  ma_put : forall i r, ms_askers s !! i = Some (AskSelect r) -> exists s', multi_step ranges (MPut i) s = Ok s';
  ma_progress : forall lastErr lastResp, ms_collector s = CollectLoop lastErr lastResp -> (forall i, ms_askers s !! i <> Some AskExchange) ->
    exists l, (l = MCollect \/ l = MCloseResults \/ exists i, l = MPut i) /\ forall e, multi_step ranges l s <> Err e
}.
Lemma put_enabled n s i r : multi_inv n s -> ms_askers s !! i = Some (AskSelect r) -> exists s', multi_step ranges (MPut i) s = Ok s'.
Proof.
  intros Hs Hi. cbn [multi_step]. rewrite Hi. destruct (ms_resultsClosed s) eqn:Hc; [by pose proof (mi_closed n s Hs Hc i _ Hi)|].
  pose proof (mi_room n s Hs). pose proof (undone_insert _ i r Hi). pose proof (mi_askers n s Hs). rewrite (proj2 (Nat.ltb_lt _ _)) by lia. by eexists.
Qed.
Lemma progress_enabled n s lastErr lastResp : multi_inv n s -> ms_collector s = CollectLoop lastErr lastResp -> (forall i, ms_askers s !! i <> Some AskExchange) ->
  exists l, (l = MCollect \/ l = MCloseResults \/ exists i, l = MPut i) /\ forall e, multi_step ranges l s <> Err e.
Proof.
  intros Hs Hc Hask. destruct (forallb (fun pc => match pc with AskDone => true | _ => false end) (ms_askers s)) eqn:Hall.
  - destruct (ms_resultsClosed s) eqn:Hcl.
    + exists MCollect. split; [by left|]. intros e. cbn [multi_step]. rewrite Hc, Hcl. destruct (ms_results s) as [|r results]; [done|]. rewrite judge_spec.
      destruct r as [e'|[m|]]; [done| |done]. by destruct (answered _).
    + exists MCloseResults. split; [by right; left|]. intros e. cbn [multi_step]. by rewrite Hall, Hcl.
  - destruct (some_undone _ Hall) as (i & pc & Hi & Hn). destruct pc as [|r|]; [by destruct (Hask i)| |done]. exists (MPut i). split; [by right; right; exists i|].
    destruct (put_enabled n s i r Hs Hi) as [s' ->]. done.
Qed.
Lemma multi_inv_safe n s : multi_inv n s -> multi_safe n s.
Proof.
  intros Hs. pose proof (mi_collected n s Hs) as Hok. unfold collected_ok in Hok. constructor.
  - intros how m Hc. rewrite Hc in Hok. split; [|done]. destruct Hok as (i & r & _ & [Ha|He]); [by apply (answered_clean r)|by apply (empty_clean r)].
  - intros how e Hc. rewrite Hc in Hok. destruct Hok as [?|H]; [by left|right]. destruct how; [done|by left|right; left; tauto|by right; right].
  - intros res Hc He Hd i Hi. destruct (mi_all n s Hs res Hc) as [Hcl Hnil]. rewrite <- (mi_askers n s Hs) in Hi. destruct (lookup_lt_is_Some_2 _ _ Hi) as [pc Hpc].
    pose proof (mi_closed n s Hs Hcl i pc Hpc) as ->. destruct (mi_reply n s Hs i _ Hpc) as [r Hr]. exists r. split; [done|].
    destruct (mi_complete n s Hs He Hd i r Hr) as [H|[H|H]]; [congruence|rewrite Hnil in H; by apply elem_of_nil in H|].
    rewrite Hc in H. destruct H as (le & lr & [C1 C2 C3] & ->). split; [done|]. intros Hemp. destruct (C3 Hemp) as [m ->]. by exists m.
  - intros i r. by apply (put_enabled n).
  - intros le lr. by apply (progress_enabled n).
Qed.
Lemma replies_of_labels l s s' i : multi_step ranges l s = Ok s' -> ms_replies s' !! i = Some (Reply None) ->
  ms_replies s !! i = Some (Reply None) \/ l = MReply i (Reply None).
Proof.
  assert (forall s0, ms_replies s0 = ms_replies s -> Ok s0 = Ok s' -> ms_replies s' !! i = Some (Reply None) -> ms_replies s !! i = Some (Reply None)) as same.
  { intros s0 E [= <-]. by rewrite E. }
  destruct l as [j r|j|j| | | | |e|]; cbn [multi_step].
  - destruct (ms_askers s !! j) as [[]|]; try done. intros [= <-]. cbn [ms_replies]. intros H. apply lookup_insert_Some in H as [[<- ->]|[_ H]]; auto.
  - destruct (ms_askers s !! j) as [[]|]; try done. destruct (ms_resultsClosed s); [done|]. destruct (_ <? _)%nat; [|done]. intros H1 H2; left; refine (same _ _ H1 H2); reflexivity.
  - destruct (ms_askers s !! j) as [[]|]; try done. destruct (_ || _); [|done]. intros H1 H2; left; refine (same _ _ H1 H2); reflexivity.
  - destruct (_ && _); [|done]. intros H1 H2; left; refine (same _ _ H1 H2); reflexivity.
  - destruct (ms_collector s); [|done]. destruct (ms_results s) as [|r results].
    + destruct (ms_resultsClosed s); [|done]. intros H1 H2; left; refine (same _ _ H1 H2); reflexivity.
    + destruct (judge _ _ _ r) as [j|e|m]; [|done|done]. intros H1 H2; left; refine (same _ _ H1 H2); reflexivity.
  - destruct (ms_collector s); [|done]. destruct (ms_done s); [|done]. intros H1 H2; left; refine (same _ _ H1 H2); reflexivity.
  - destruct (ms_collector s); [|done]. destruct (ms_expired s); [|done]. intros H1 H2; left; refine (same _ _ H1 H2); reflexivity.
  - destruct (ms_expired s); [done|]. destruct (ms_canceled s); [done|]. intros H1 H2; left; refine (same _ _ H1 H2); reflexivity.
  - destruct (ms_done s); [done|]. intros H1 H2; left; refine (same _ _ H1 H2); reflexivity.
Qed.
End Ranges.

(** asking several DNS servers in turn.  The loop is the reference: the first turn that the context or [Close] stops, or whose reply has an answer outside the ignored ranges, decides; after
    it no server is asked; when every server was asked in vain, the last response without answers is returned, or else the last error, or else that there was no response. *)
Theorem exchangeSerial_reference ranges turns : exchangeSerial ranges turns = serial_reference ranges turns.
Proof.
  unfold exchangeSerial. rewrite serial_loop_reference. unfold serial_reference. destruct (turns !! _); [done|].
  f_equal; by destruct (last _).
Qed.
(** C20: asking several DNS servers at once, in every interleaving of the goroutines, the collector, [Close] and the end of the context.  A response that is returned is one that a server gave, without
    its answers in the ignored ranges; an error is a server's, the context's, or says that the transport was closed or that nobody responded; when it is returned because every server has replied, while neither the context has ended nor the transport
    been closed, no server had an answer outside the ignored ranges, and if one had replied without answers there is a response (when the context has ended, a goroutine may drop the reply of its server); no goroutine is left blocked on the channel, and when all servers have replied the collector or a goroutine can go on; nothing is sent on a closed
    channel, and the only panic is a server that returns neither a response nor an error. *)
Theorem exchangeParallel_safe ranges n ls :
  match multi_run ranges ls (multi_new n) with
  | Ok s => multi_safe ranges n s
  | Err _ => True
  | Panic _ => exists i, MReply i (Reply None) ∈ ls
  end.
Proof.
  assert (forall s, multi_inv ranges n s -> match multi_run ranges ls s with
    | Ok s => multi_safe ranges n s | Err _ => True | Panic _ => exists i, ms_replies s !! i = Some (Reply None) \/ MReply i (Reply None) ∈ ls end) as G.
  - induction ls as [|l ls IH]; intros s Hs; cbn [multi_run]; [by apply multi_inv_safe|]. pose proof (multi_step_inv ranges n l s Hs) as Hl.
    pose proof (replies_of_labels ranges l s) as Hr. destruct (multi_step ranges l s) as [s'|e|m]; cbn [mbind result_bind]; [|done|destruct Hl as [i Hi]; exists i; by left].
    specialize (IH s' Hl). destruct (multi_run ranges ls s') as [s2|e|m]; [done|done|]. destruct IH as [i [Hi|Hi]]; exists i; [|right; by right].
    destruct (Hr s' i eq_refl Hi) as [Hold| ->]; [by left|right; by left].
  - specialize (G (multi_new n) (multi_inv_new ranges n)). destruct (multi_run _ _ _) as [s|e|m]; [done|done|]. destruct G as [i [Hi|Hi]]; [|by exists i].
    cbn [multi_new ms_replies] in Hi. by rewrite lookup_empty in Hi.
Qed.

(** Three servers: one fails, one answers with an address in an ignored range, one with another; and the first answer wins over a later one. *)
Definition answer_with (a : Addr) : Msg := mkMsg 7 true false true true 0 [] [mkRR "a." 1 1 60 (RR_A a)] [] [].
Definition ignored : list Prefix := [mkPrefix (Addr4 0x0A000000) 8].
Example three_servers : exists s,
  multi_run ignored [MReply 2 (Reply (Some (answer_with (Addr4 0x01020304)))); MReply 0 (ReplyError err_no_dns_response); MPut 0; MCollect;
    MReply 1 (Reply (Some (answer_with (Addr4 0x0A000001)))); MPut 1; MCollect; MPut 2; MCollect; MCloseResults]%nat (multi_new 3) = Ok s /\
  ms_collector s = CollectReturned EndAnswer (Ok (answer_with (Addr4 0x01020304))).
Proof. eexists. split; [vm_compute; reflexivity|]. done. Qed.
Example only_blocked : exists s,
  multi_run ignored [MReply 0 (Reply (Some (answer_with (Addr4 0x0A000001)))); MPut 0; MCollect; MCloseResults; MCollect]%nat (multi_new 1) = Ok s /\
  ms_collector s = CollectReturned EndAll (Err err_no_dns_response).
Proof. eexists. split; [vm_compute; reflexivity|]. done. Qed.
