(* ===== verification/URLTest.v ===== *)
(** * URLTest: the group that tests its outbounds

    protocol/group/urltest.go ([URLTest], [URLTestGroup]) and the history of common/urltest/urltest.go.  The test itself
    (a request through the outbound) is an argument, and so is the order in which the tests of a round end.  A dial, a round of tests, a
    touch, a tick of the loop and [Close] are steps. *)

From S2P Require Import Prelude GoStd NetIP Metadata Adapter Float64 Balancer Groups TransportBase.
From stdpp Require Import gmap.
Open Scope string_scope.
Open Scope list_scope.

(** ** The history *)

(** [adapter.URLTestHistory]; a time is a number of nanoseconds. *)
Record TestHistory : Type := mkTestHistory { th_Time : Z; th_Delay : N; th_IpInfo : option string }.
Abbreviation HistoryStorage := (gmap string TestHistory).
Definition LoadURLTestHistory (tag : string) (s : HistoryStorage) : option TestHistory := s !! tag.
Definition StoreURLTestHistory (tag : string) (history : TestHistory) (s : HistoryStorage) : HistoryStorage :=
  match s !! tag with
  | Some old => <[tag := mkTestHistory (th_Time history) (th_Delay history) match th_IpInfo history with Some ip => Some ip | None => th_IpInfo old end]> s
  | None => <[tag := history]> s
  end.
(** It does not delete. *)
Definition DeleteURLTestHistory (now : Z) (tag : string) (s : HistoryStorage) : HistoryStorage :=
  StoreURLTestHistory tag (mkTestHistory now 65535 None) s.
Definition AddOnlyIpToHistory (tag : string) (history : TestHistory) (s : HistoryStorage) : HistoryStorage :=
  match s !! tag with
  | Some old => <[tag := mkTestHistory (th_Time old) (th_Delay old) (th_IpInfo history)]> s
  | None => <[tag := history]> s
  end.

(** ** The group *)

Record URLTestGroup : Type := mkURLTestGroup {
  tg_outbounds : list Outbound;
  tg_interval : Z;
  tg_tolerance : N;
  tg_idleTimeout : Z;
  tg_history : HistoryStorage;
  tg_selectedTCP : option Outbound;
  tg_selectedUDP : option Outbound;
  tg_interruptGroup : Group;
  tg_interruptExternal : bool;
  tg_started : bool;
  tg_lastActive : Z;
  tg_ticker : bool;
  tg_closed : bool;
  tg_loops : nat (* the goroutines in [loopCheck] *)
}.
Definition DefaultURLTestInterval : Z := 180000000000.
Definition DefaultURLTestIdleTimeout : Z := 1800000000000.
Definition NewURLTestGroup (outbounds : list Outbound) (interval : Z) (tolerance : N) (idleTimeout : Z) (history : HistoryStorage) (interruptExternal : bool)
  : result URLTestGroup :=
  let interval := if (interval =? 0)%Z then DefaultURLTestInterval else interval in
  let tolerance := if (tolerance =? 0)%N then 50%N else tolerance in
  let idleTimeout := if (idleTimeout =? 0)%Z then DefaultURLTestIdleTimeout else idleTimeout in
  if (idleTimeout <? interval)%Z then Err (ENew "interval must be less or equal than idle_timeout")
  else Ok (mkURLTestGroup outbounds interval tolerance idleTimeout history None None NewGroup interruptExternal false 0 false false 0).
(** [NewURLTest] and [Start]. *)
Definition NewURLTest (tags : list string) : result (list string) := if bool_decide (tags = []) then Err (ENew "missing tags") else Ok tags.
Definition URLTest_Start (om : OutboundManager) (tags : list string) (interval : Z) (tolerance : N) (idleTimeout : Z) (history : HistoryStorage) (interruptExternal : bool)
  : result URLTestGroup :=
  let! outbounds := lookup_outbounds om tags 0 in NewURLTestGroup outbounds interval tolerance idleTimeout history interruptExternal.
Definition set_history (h : HistoryStorage) (g : URLTestGroup) : URLTestGroup :=
  mkURLTestGroup (tg_outbounds g) (tg_interval g) (tg_tolerance g) (tg_idleTimeout g) h (tg_selectedTCP g) (tg_selectedUDP g) (tg_interruptGroup g)
    (tg_interruptExternal g) (tg_started g) (tg_lastActive g) (tg_ticker g) (tg_closed g) (tg_loops g).
Definition set_choice (tcp udp : option Outbound) (group : Group) (g : URLTestGroup) : URLTestGroup :=
  mkURLTestGroup (tg_outbounds g) (tg_interval g) (tg_tolerance g) (tg_idleTimeout g) (tg_history g) tcp udp group
    (tg_interruptExternal g) (tg_started g) (tg_lastActive g) (tg_ticker g) (tg_closed g) (tg_loops g).
Definition set_running (started : bool) (lastActive : Z) (ticker closed : bool) (loops : nat) (g : URLTestGroup) : URLTestGroup :=
  mkURLTestGroup (tg_outbounds g) (tg_interval g) (tg_tolerance g) (tg_idleTimeout g) (tg_history g) (tg_selectedTCP g) (tg_selectedUDP g) (tg_interruptGroup g)
    (tg_interruptExternal g) started lastActive ticker closed loops.

Section Group.
Context (group_Now : Outbound -> option string).

Definition test_history (g : URLTestGroup) (o : Outbound) : option TestHistory := LoadURLTestHistory (RealTag group_Now o) (tg_history g).
(** A turn of the first loop of [Select]; the sum is a [uint16]. *)
Definition select_step (g : URLTestGroup) (network : string) (best : N * option Outbound) (detour : Outbound) : N * option Outbound :=
  let '(minDelay, minOutbound) := best in
  if negb (supports network detour) then best
  else match test_history g detour with
       | None => best
       | Some history =>
           if (minDelay =? 0)%N || ((th_Delay history + tg_tolerance g) mod 65536 <? minDelay)%N then (th_Delay history, Some detour) else best
       end.
Definition selected_for (network : string) (g : URLTestGroup) : option Outbound :=
  if bool_decide (network = NetworkTCP) then tg_selectedTCP g else if bool_decide (network = NetworkUDP) then tg_selectedUDP g else None.
Definition select_first (network : string) (g : URLTestGroup) : N * option Outbound :=
  match selected_for network g with
  | Some o => match test_history g o with Some history => (th_Delay history, Some o) | None => (0%N, None) end
  | None => (0%N, None)
  end.
Definition URLTest_Select (network : string) (g : URLTestGroup) : option Outbound * bool :=
  match snd (foldl (select_step g network) (select_first network g) (tg_outbounds g)) with
  | Some o => (Some o, true)
  | None => (List.find (supports network) (tg_outbounds g), false)
  end.

(** [performUpdateCheck] for one network: the outbound from now on, and whether one was replaced. *)
Definition update_one (network : string) (old : option Outbound) (g : URLTestGroup) : option Outbound * bool :=
  match URLTest_Select network g with
  | (Some outbound, exists_) =>
      if bool_decide (old = None) || exists_ && negb (bool_decide (Some outbound = old))
      then (Some outbound, negb (bool_decide (old = None)))
      else (old, false)
  | (None, _) => (old, false)
  end.
Definition performUpdateCheck (g : URLTestGroup) : URLTestGroup :=
  let '(tcp, updated1) := update_one NetworkTCP (tg_selectedTCP g) g in
  let g := set_choice tcp (tg_selectedUDP g) (tg_interruptGroup g) g in
  let '(udp, updated2) := update_one NetworkUDP (tg_selectedUDP g) g in
  set_choice tcp udp (if updated1 || updated2 then Group_Interrupt (tg_interruptExternal g) (tg_interruptGroup g) else tg_interruptGroup g) g.

(** The tests of a round: tag and real tag, each real tag at most once. *)
Fixpoint round_tests (om : OutboundManager) (force : bool) (now : Z) (g : URLTestGroup) (checked : gset string) (outbounds : list Outbound) : list (string * string) :=
  match outbounds with
  | [] => []
  | detour :: outbounds =>
      let realTag := RealTag group_Now detour in
      let next := round_tests om force now g checked outbounds in
      if bool_decide (realTag ∈ checked) then next
      else if negb force && match test_history g detour with Some history => (now - th_Time history <? tg_interval g)%Z | None => false end then next
      else
        let next := round_tests om force now g ({[realTag]} ∪ checked) outbounds in
        match om_Outbound om realTag with Some _ => (ob_Tag detour, realTag) :: next | None => next end
  end.
(** The end of a test: when, and the delay or an error. *)
Definition end_test (outcome : string -> Z * result N) (acc : gmap string N * HistoryStorage) (x : string * string) : gmap string N * HistoryStorage :=
  let '(result, history) := acc in
  match outcome (snd x) with
  | (now, Ok t) => (<[fst x := t]> result, StoreURLTestHistory (snd x) (mkTestHistory now t None) history)
  | (now, _) => (result, DeleteURLTestHistory now (snd x) history)
  end.
(** [urlTest] when no other runs: [order] is the order in which the tests end. *)
Definition urlTest (outcome : string -> Z * result N) (order : list (string * string)) (g : URLTestGroup) : gmap string N * URLTestGroup :=
  let '(result, history) := foldl (end_test outcome) (∅, tg_history g) order in
  (result, performUpdateCheck (set_history history g)).

(** [DialContext] and [ListenPacket]: [name] is [N.NetworkName(network)]. *)
Definition dial_choice (name network : string) (g : URLTestGroup) : result Outbound :=
  if negb (bool_decide (name = NetworkTCP) || bool_decide (name = NetworkUDP)) then Err (EExtend (ELib "unknown network") network)
  else match (match selected_for name g with Some o => Some o | None => fst (URLTest_Select network g) end) with
       | None => Err (ENew "missing supported outbound")
       | Some o => Ok o
       end.
Definition Touch (now : Z) (g : URLTestGroup) : URLTestGroup :=
  if negb (tg_started g) then g
  else if tg_ticker g then set_running (tg_started g) now true (tg_closed g) (tg_loops g) g
  else set_running (tg_started g) (tg_lastActive g) true (tg_closed g) (S (tg_loops g)) g.
Definition URLTest_Dial (now : Z) (name network : string) (external : bool) (dial : Outbound -> result nat) (g : URLTestGroup) : result nat * URLTestGroup :=
  let g := Touch now g in
  match dial_choice name network g with
  | Ok outbound =>
      match dial outbound with
      | Ok conn => (Ok conn, set_choice (tg_selectedTCP g) (tg_selectedUDP g) (Group_NewConn conn external (tg_interruptGroup g)) g)
      | Err e => (Err e, set_history (DeleteURLTestHistory now (ob_Tag outbound) (tg_history g)) g)
      | Panic m => (Panic m, g)
      end
  | Err e => (Err e, g)
  | Panic m => (Panic m, g)
  end.
Definition URLTest_Now (g : URLTestGroup) : string :=
  match tg_selectedTCP g, tg_selectedUDP g with Some o, _ | None, Some o => ob_Tag o | None, None => "" end.

(** ** Steps *)

Definition URLTest_PostStart (now : Z) (g : URLTestGroup) : URLTestGroup := set_running true now (tg_ticker g) (tg_closed g) (tg_loops g) g.
(** [loopCheck]: before the loop, when the ticker fires, and when the group is closed; the tests are steps of their own. *)
Definition loopCheck_begin (now : Z) (g : URLTestGroup) : URLTestGroup :=
  if (tg_interval g <? now - tg_lastActive g)%Z then set_running (tg_started g) now (tg_ticker g) (tg_closed g) (tg_loops g) g else g.
Definition loopCheck_tick (now : Z) (g : URLTestGroup) : URLTestGroup :=
  if (tg_idleTimeout g <? now - tg_lastActive g)%Z then set_running (tg_started g) (tg_lastActive g) false (tg_closed g) (pred (tg_loops g)) g else g.
Definition loopCheck_closed (g : URLTestGroup) : URLTestGroup :=
  set_running (tg_started g) (tg_lastActive g) (tg_ticker g) (tg_closed g) (pred (tg_loops g)) g.
Definition URLTest_Close (g : URLTestGroup) : result URLTestGroup :=
  if negb (tg_ticker g) then Ok g
  else if tg_closed g then Panic double_close
  else Ok (set_running (tg_started g) (tg_lastActive g) (tg_ticker g) true (tg_loops g) g).

Inductive urltest_label : Type :=
| TPostStart (now : Z)
| TCheck (outcome : string -> Z * result N) (order : list (string * string)) (* a round of tests *)
| TDial (now : Z) (name network : string) (external : bool) (dial : Outbound -> result nat)
| TLoopBegin (now : Z)
| TTick (now : Z)
| TLoopClosed
| TClose.
Definition urltest_step (l : urltest_label) (g : URLTestGroup) : result URLTestGroup :=
  let loop g' := match tg_loops g with O => Err disabled | S _ => Ok g' end in
  match l with
  | TPostStart now => Ok (URLTest_PostStart now g)
  | TCheck outcome order => Ok (snd (urlTest outcome order g))
  | TDial now name network external dial => Ok (snd (URLTest_Dial now name network external dial g))
  | TLoopBegin now => loop (loopCheck_begin now g)
  | TTick now => loop (loopCheck_tick now g)
  | TLoopClosed => if tg_closed g then loop (loopCheck_closed g) else Err disabled
  | TClose => URLTest_Close g
  end.
Fixpoint urltest_run (ls : list urltest_label) (g : URLTestGroup) : result URLTestGroup :=
  match ls with [] => Ok g | l :: ls => let! g := urltest_step l g in urltest_run ls g end.

(** ** What is selected *)

(** Delays that a test measures: not 0, and so small that adding the tolerance does not wrap around. *)
Definition measured (g : URLTestGroup) (h : TestHistory) : Prop := (0 < th_Delay h)%N /\ (th_Delay h + tg_tolerance g < 65536)%N.
Definition candidate (g : URLTestGroup) (network : string) (o : Outbound) (h : TestHistory) : Prop :=
  o ∈ tg_outbounds g /\ supports network o = true /\ test_history g o = Some h.

Record fold_spec (g : URLTestGroup) (network : string) (l : list Outbound) (first best : N * option Outbound) : Prop := mkFoldSpec {
  fs_from : best = first \/ exists o h, o ∈ l /\ supports network o = true /\ test_history g o = Some h /\ best = (th_Delay h, Some o) /\
    (fst first = 0%N \/ (th_Delay h + tg_tolerance g < fst first)%N);
  fs_least : forall o h, o ∈ l -> supports network o = true -> test_history g o = Some h -> (0 < fst best)%N /\ (fst best <= th_Delay h + tg_tolerance g)%N
}.
Lemma select_fold g network l first : (forall o h, o ∈ l -> supports network o = true -> test_history g o = Some h -> measured g h) ->
  fold_spec g network l first (foldl (select_step g network) first l).
Proof.
  induction l as [|x l IH] using rev_ind; intros Hm; [constructor; [by left|intros o h Ho; by apply elem_of_nil in Ho]|].
  rewrite foldl_app. cbn [foldl]. specialize (IH ltac:(intros o h Ho Hs Hh; apply (Hm o h); [set_solver|done|done])). destruct IH as [Hf Hl].
  destruct (foldl (select_step g network) first l) as [m o0] eqn:E. cbn [fst] in Hl.
  assert (forall o, o ∈ l ++ [x] -> o = x \/ o ∈ l) as Hx by (intros o; rewrite elem_of_app; intros [?|Hs]; [by right|left; by apply list_elem_of_singleton in Hs]).
  assert (fold_spec g network l first (m, o0)) as Hbase by (constructor; done). cbn [select_step].
  destruct (supports network x) eqn:Hs; cbn [negb].
  2: { constructor; [destruct Hf as [?|(o & h & ? & ?)]; [by left|right; exists o, h; set_solver]|]. intros o h Ho. destruct (Hx o Ho) as [->|Hol]; [by rewrite Hs|by apply Hl]. }
  destruct (test_history g x) as [h|] eqn:Hh.
  2: { constructor; [destruct Hf as [?|(o & h & ? & ?)]; [by left|right; exists o, h; set_solver]|]. intros o h Ho. destruct (Hx o Ho) as [->|Hol]; [by rewrite Hh|by apply Hl]. }
  destruct (Hm x h ltac:(set_solver) Hs Hh) as [Hpos Hsum]. rewrite N.mod_small by done.
  destruct (N.eqb_spec m 0) as [->|Hm0]; cbn [orb].
  - constructor.
    + right. exists x, h. split_and!; [set_solver|done|done|done|]. destruct Hf as [<-|(o & h' & Ho & Hso & Hho & Heq & _)]; [by left|]. injection Heq as E0 _.
      destruct (Hm o h' ltac:(set_solver) Hso Hho). lia.
    + intros o h' Ho Hso Hho. cbn [fst]. destruct (Hx o Ho) as [->|Hol]; [assert (h' = h) as -> by congruence; lia|]. destruct (Hl o h' Hol Hso Hho). lia.
  - destruct (N.ltb_spec (th_Delay h + tg_tolerance g) m) as [Hlt|Hge].
    + constructor.
      * right. exists x, h. split_and!; [set_solver|done|done|done|]. destruct Hf as [<-|(o & h' & Ho & Hso & Hho & Heq & Hcmp)]; [cbn [fst]; by right|].
        injection Heq as E0 _. destruct Hcmp; [by left|right; lia].
      * intros o h' Ho Hso Hho. cbn [fst]. destruct (Hx o Ho) as [->|Hol]; [assert (h' = h) as -> by congruence; lia|]. destruct (Hl o h' Hol Hso Hho). lia.
    + constructor; [destruct Hf as [?|(o & h' & ? & ?)]; [by left|right; exists o, h'; set_solver]|].
      intros o h' Ho Hso Hho. cbn [fst]. destruct (Hx o Ho) as [->|Hol]; [assert (h' = h) as -> by congruence; lia|by apply (Hl o h')].
Qed.
(** What [Select] promises when the delays are measured ones. *)
Definition select_promise (g : URLTestGroup) (network : string) (r : option Outbound * bool) : Prop :=
  match r with
  | (Some o, true) => exists h, test_history g o = Some h /\
      (selected_for network g = Some o \/ candidate g network o h) /\
      (forall x hx, candidate g network x hx -> (th_Delay h <= th_Delay hx + tg_tolerance g)%N) /\
      (forall x hx, selected_for network g = Some x -> test_history g x = Some hx -> o = x \/ (th_Delay h + tg_tolerance g < th_Delay hx)%N)
  | (Some o, false) => (exists before after, tg_outbounds g = before ++ o :: after /\ Forall (fun x => supports network x = false) before) /\
      supports network o = true /\ forall x hx, ~ candidate g network x hx
  | (None, _) => forall x, x ∈ tg_outbounds g -> supports network x = false
  end.
Lemma select_first_spec network g : (select_first network g = (0%N, None) /\ forall x, selected_for network g = Some x -> test_history g x = None) \/
  exists o h, selected_for network g = Some o /\ test_history g o = Some h /\ select_first network g = (th_Delay h, Some o).
Proof.
  unfold select_first. destruct (selected_for network g) as [o|] eqn:E; [|by left]. destruct (test_history g o) as [h|] eqn:Eh; [right; by exists o, h|left].
  split; [done|]. intros x [= <-]. done.
Qed.
Lemma find_supports network l : match List.find (supports network) l with
  | Some o => (exists before after, l = before ++ o :: after /\ Forall (fun x => supports network x = false) before) /\ supports network o = true
  | None => forall x, x ∈ l -> supports network x = false
  end.
Proof.
  induction l as [|x l IH]; [intros x Hx; by apply not_elem_of_nil in Hx|]. cbn [List.find]. destruct (supports network x) eqn:Hs.
  - split; [|done]. by exists [], l.
  - destruct (List.find _ l) as [o|].
    + destruct IH as [(before & after & -> & Hb) Ho]. split; [|done]. exists (x :: before), after. split; [done|by constructor].
    + intros y [->|Hy]%elem_of_cons; [done|by apply IH].
Qed.
(** *** When a test has failed *)

(** The entry of a failed test is not left out: adding the tolerance to it wraps around, to less than the tolerance. *)
Lemma failed_wins g network l first o h : supports network o = true -> test_history g o = Some h -> th_Delay h = 65535%N -> (0 < tg_tolerance g)%N -> (tg_tolerance g < 65536)%N ->
  (fst (foldl (select_step g network) first l) = 0%N \/ (tg_tolerance g <= fst (foldl (select_step g network) first l))%N) ->
  foldl (select_step g network) first (l ++ [o]) = (65535%N, Some o).
Proof.
  intros Hs Hh Hd H0 Ht Hm. rewrite foldl_app. cbn [foldl]. destruct (foldl (select_step g network) first l) as [m x]. cbn [fst select_step] in *. rewrite Hs, Hh, Hd. cbn [negb].
  replace ((65535 + tg_tolerance g) mod 65536)%N with (tg_tolerance g - 1)%N.
  - destruct Hm as [->|Hm]; [done|]. rewrite (proj2 (N.ltb_lt _ _)) by lia. by rewrite orb_true_r.
  - symmetry. replace (65535 + tg_tolerance g)%N with (tg_tolerance g - 1 + 1 * 65536)%N by lia. rewrite N.Div0.mod_add. apply N.mod_small. lia.
Qed.
Lemma select_fold_floor g network l first floor : (forall o h, o ∈ l -> supports network o = true -> test_history g o = Some h -> (floor <= th_Delay h)%N) ->
  (fst first = 0%N \/ (floor <= fst first)%N) -> (fst (foldl (select_step g network) first l) = 0%N \/ (floor <= fst (foldl (select_step g network) first l))%N).
Proof.
  intros Hl H0. induction l as [|x l IH] using rev_ind; [done|]. rewrite foldl_app. cbn [foldl]. specialize (IH ltac:(intros o h Ho Hs Hh; apply (Hl o h); [set_solver|done|done])).
  destruct (foldl (select_step g network) first l) as [m o]. cbn [select_step]. destruct (supports network x) eqn:Hs; [|done]. cbn [negb].
  destruct (test_history g x) as [h|] eqn:Hh; [|done]. destruct (_ || _); [|done]. right. apply (Hl x h); [set_solver|done|done].
Qed.
End Group.

(** C22: the choice of a URL test group.  As long as the recorded delays are measured ones (none is 0, none reaches 65536 with the tolerance), [Select] gives an outbound whose delay exceeds that of no tested outbound of the network by more than the
    tolerance; the one that is in use stays unless the new one is better by more than the tolerance; without a tested one, it is the first that has the network; and none only if no outbound has it. *)
Theorem urltest_Select_promise group_Now g network :
  (forall o h, candidate group_Now g network o h -> measured g h) ->
  (forall o h, selected_for network g = Some o -> test_history group_Now g o = Some h -> measured g h) ->
  select_promise group_Now g network (URLTest_Select group_Now network g).
Proof.
  intros Hm Hsel. unfold URLTest_Select. destruct (select_fold group_Now g network (tg_outbounds g) (select_first group_Now network g)) as [Hf Hl]; [intros o h H1 H2 H3; by apply (Hm o)|].
  destruct (foldl _ _ _) as [m o0] eqn:E. cbn [fst snd] in *. destruct (select_first_spec group_Now network g) as [[H0 Hn]|(s & hs & Hs & Hhs & H0)]; rewrite H0 in Hf; cbn [fst] in Hf.
  - destruct Hf as [[= -> ->]|(o & h & Ho & Hso & Hho & [= -> ->] & _)].
    + pose proof (find_supports network (tg_outbounds g)) as Hfind. destruct (List.find _ _) as [o|]; [|done]. destruct Hfind. split_and!; [done|done|].
      intros x hx (Hx & Hsx & Hhx). destruct (Hl x hx Hx Hsx Hhx). lia.
    + exists h. split_and!; [done|by right|intros x hx (Hx & Hsx & Hhx); by destruct (Hl x hx Hx Hsx Hhx)|]. intros x hx Hx Hhx. rewrite (Hn x Hx) in Hhx. done.
  - destruct Hf as [[= -> ->]|(o & h & Ho & Hso & Hho & [= -> ->] & Hcmp)].
    + exists hs. split_and!; [done|by left|intros x hx (Hx & Hsx & Hhx); by destruct (Hl x hx Hx Hsx Hhx)|]. intros x hx Hx _. left. congruence.
    + exists h. split_and!; [done|by right|intros x hx (Hx & Hsx & Hhx); by destruct (Hl x hx Hx Hsx Hhx)|]. intros x hx Hx Hhx. right.
      assert (x = s) as -> by congruence. assert (hx = hs) as -> by congruence. destruct (Hsel s hs Hs Hhs). destruct Hcmp; lia.
Qed.

(** C23: a URL test group chooses an outbound whose test has failed.  A failed test is recorded as a delay of 65535 ([DeleteURLTestHistory]), and the sum with the tolerance wraps around to less than the tolerance: if the last outbound that has the network
    has failed and every other delay is at least the tolerance, [Select] gives the failed one, whatever the others are, and [performUpdateCheck] uses it from then on for TCP. *)
Theorem urltest_selects_failed group_Now g l bad now :
  tg_outbounds g = l ++ [bad] -> supports NetworkTCP bad = true -> (0 < tg_tolerance g < 65536)%N ->
  let g := set_history (DeleteURLTestHistory now (RealTag group_Now bad) (tg_history g)) g in
  (forall o h, o ∈ l -> test_history group_Now g o = Some h -> (tg_tolerance g <= th_Delay h)%N) ->
  (forall o h, tg_selectedTCP g = Some o -> test_history group_Now g o = Some h -> (tg_tolerance g <= th_Delay h)%N) ->
  URLTest_Select group_Now NetworkTCP g = (Some bad, true) /\ tg_selectedTCP (performUpdateCheck group_Now g) = Some bad.
Proof.
  intros Hout Hbad Htol g' Hl Hsel. assert (exists h, test_history group_Now g' bad = Some h /\ th_Delay h = 65535%N) as (h & Hh & Hd).
  { unfold g', test_history, LoadURLTestHistory, DeleteURLTestHistory, StoreURLTestHistory. cbn [tg_history set_history]. destruct (tg_history g !! _); rewrite lookup_insert_eq; eauto. }
  assert (URLTest_Select group_Now NetworkTCP g' = (Some bad, true)) as HS.
  { unfold URLTest_Select. change (tg_outbounds g') with (tg_outbounds g). rewrite Hout. rewrite (failed_wins group_Now g' NetworkTCP l _ bad h); [done|done|done|done|apply Htol|apply Htol|].
    apply select_fold_floor; [intros o ho Ho _; by apply Hl|]. destruct (select_first_spec group_Now NetworkTCP g') as [[-> _]|(s & hs & Hs & Hhs & ->)]; [by left|].
    right. cbn [fst]. by apply (Hsel s hs). }
  split; [done|]. unfold performUpdateCheck. unfold update_one at 1. rewrite HS.
  destruct (bool_decide (tg_selectedTCP g' = None)) eqn:E1; cbn [orb andb].
  - destruct (update_one _ NetworkUDP _ _). done.
  - destruct (bool_decide (Some bad = tg_selectedTCP g')) eqn:E2; cbn [negb]; destruct (update_one _ NetworkUDP _ _); cbn [tg_selectedTCP set_choice]; [|done].
    apply bool_decide_eq_true in E2. done.
Qed.

(** ** At any time *)

Section Safe.
Context (group_Now : Outbound -> option string).

Definition member (g : URLTestGroup) (network : string) (o : Outbound) : Prop := o ∈ tg_outbounds g /\ supports network o = true.
Record urltest_safe (g : URLTestGroup) : Prop := mkURLTestSafe {
  us_tcp : forall o, tg_selectedTCP g = Some o -> member g NetworkTCP o;
  us_udp : forall o, tg_selectedUDP g = Some o -> member g NetworkUDP o;
  us_loop : (tg_loops g <= 1)%nat;
  us_ticker : tg_loops g = 1%nat -> tg_ticker g = true;
  us_running : tg_ticker g = true -> tg_loops g = 1%nat \/ tg_closed g = true
}.
Lemma select_fold_member g network l first : forall o, snd (foldl (select_step group_Now g network) first l) = Some o ->
  snd first = Some o \/ (o ∈ l /\ supports network o = true).
Proof.
  induction l as [|x l IH] using rev_ind; intros o; [by left|]. rewrite foldl_app. cbn [foldl]. destruct (foldl (select_step group_Now g network) first l) as [m o0]. cbn [select_step].
  assert (forall o', snd (m, o0) = Some o' -> snd first = Some o' \/ (o' ∈ l ++ [x] /\ supports network o' = true)) as Hold.
  { intros o' Ho. destruct (IH o' Ho) as [?|[? ?]]; [by left|right; split; [set_solver|done]]. }
  destruct (supports network x) eqn:Hs; cbn [negb]; [|apply Hold]. destruct (test_history group_Now g x) as [h|]; [|apply Hold].
  destruct (_ || _); [|apply Hold]. cbn [snd]. intros [= <-]. right. split; [set_solver|done].
Qed.
Lemma Select_member g network o b : urltest_safe g -> URLTest_Select group_Now network g = (Some o, b) -> member g network o.
Proof.
  intros Hs. unfold URLTest_Select. pose proof (find_supports network (tg_outbounds g)) as Hfind. destruct (snd (foldl _ _ _)) as [o'|] eqn:E.
  - intros [= <- <-]. apply select_fold_member in E as [E|?]; [|done]. destruct (select_first_spec group_Now network g) as [[H0 _]|(s & hs & Hsel & _ & H0)]; rewrite H0 in E; [done|].
    injection E as <-. unfold selected_for in Hsel. destruct (bool_decide (network = NetworkTCP)) eqn:E1; [apply bool_decide_eq_true in E1 as ->; by apply (us_tcp g Hs)|].
    destruct (bool_decide (network = NetworkUDP)) eqn:E2; [apply bool_decide_eq_true in E2 as ->; by apply (us_udp g Hs)|done].
  - intros [= Hf _]. rewrite Hf in Hfind. destruct Hfind as [(before & after & E2 & _) Hs2]. split; [rewrite E2; set_solver|done].
Qed.
Lemma set_choice_safe g tcp udp group : urltest_safe g -> (forall o, tcp = Some o -> member g NetworkTCP o) -> (forall o, udp = Some o -> member g NetworkUDP o) ->
  urltest_safe (set_choice tcp udp group g).
Proof. intros [H1 H2 H3 H4 H5] Ht Hu. by constructor. Qed.
Lemma set_history_safe g h : urltest_safe g -> urltest_safe (set_history h g).
Proof. intros [H1 H2 H3 H4 H5]. by constructor. Qed.
Lemma update_one_member g network old o b : urltest_safe g -> (forall o, old = Some o -> member g network o) -> update_one group_Now network old g = (Some o, b) -> member g network o.
Proof.
  intros Hs Hold. unfold update_one. destruct (URLTest_Select group_Now network g) as [[x|] e] eqn:E; [|intros [= Ho _]; by apply Hold].
  destruct (_ || _); [|intros [= Ho _]; by apply Hold]. intros [= <- _]. by apply (Select_member g network x e).
Qed.
Lemma performUpdateCheck_safe g : urltest_safe g -> urltest_safe (performUpdateCheck group_Now g).
Proof.
  intros Hs. unfold performUpdateCheck. destruct (update_one group_Now NetworkTCP (tg_selectedTCP g) g) as [tcp u1] eqn:E1.
  assert (forall o, tcp = Some o -> member g NetworkTCP o) as Ht. { intros o ->. by apply (update_one_member g NetworkTCP (tg_selectedTCP g) o u1 Hs (us_tcp g Hs)). }
  set (g1 := set_choice tcp (tg_selectedUDP g) (tg_interruptGroup g) g). assert (urltest_safe g1) as Hs1 by (apply set_choice_safe; [done|done|apply (us_udp g Hs)]).
  destruct (update_one group_Now NetworkUDP (tg_selectedUDP g1) g1) as [udp u2] eqn:E2. apply set_choice_safe; [done|done|]. intros o ->.
  by apply (update_one_member g1 NetworkUDP (tg_selectedUDP g1) o u2 Hs1 (us_udp g1 Hs1)).
Qed.
Lemma Touch_safe now g : urltest_safe g -> urltest_safe (Touch now g).
Proof.
  intros [H1 H2 H3 H4 H5]. unfold Touch. destruct (tg_started g) eqn:Hst; cbn [negb]; [|by constructor]. destruct (tg_ticker g) eqn:Ht.
  - constructor; cbn; try done; rewrite Ht; auto.
  - assert (tg_loops g = 0%nat) as Hl by (destruct (tg_loops g) as [|[|]]; [done|by specialize (H4 eq_refl)|lia]). constructor; cbn; rewrite ?Hl; auto.
Qed.
Lemma urltest_step_safe l g : urltest_safe g -> match urltest_step group_Now l g with
  | Ok g' => urltest_safe g' | Err _ => True | Panic _ => l = TClose /\ tg_closed g = true end.
Proof.
  intros Hs. destruct l as [now|outcome order|now name network external dial|now|now| |]; cbn [urltest_step].
  - destruct Hs as [H1 H2 H3 H4 H5]. by constructor.
  - unfold urlTest. destruct (foldl _ _ order) as [res h]. cbn [snd]. by apply performUpdateCheck_safe, set_history_safe.
  - unfold URLTest_Dial. pose proof (Touch_safe now g Hs) as Ht. destruct (dial_choice _ _ _ _) as [o|e|m]; [|done|done]. destruct (dial o) as [c|e|m]; cbn [snd].
    + by apply set_choice_safe; [|apply us_tcp|apply us_udp].
    + by apply set_history_safe.
    + done.
  - destruct (tg_loops g) eqn:El; [done|]. unfold loopCheck_begin. destruct (_ <? _)%Z; [|done]. destruct Hs as [H1 H2 H3 H4 H5]. constructor; cbn; rewrite El in *; done.
  - destruct (tg_loops g) eqn:El; [done|]. unfold loopCheck_tick. destruct (_ <? _)%Z; [|done]. destruct Hs as [H1 H2 H3 H4 H5]. constructor; cbn; rewrite ?El; cbn; [done|done|lia|intros ->; lia|done].
  - destruct (tg_closed g) eqn:Ec; [|done]. destruct (tg_loops g) eqn:El; [done|]. destruct Hs as [H1 H2 H3 H4 H5]. constructor; cbn; rewrite ?El; cbn; [done|done|lia|intros ->; lia|auto].
  - unfold URLTest_Close. destruct (tg_ticker g) eqn:Et; cbn [negb]; [|done]. destruct (tg_closed g) eqn:Ec; [done|]. destruct Hs as [H1 H2 H3 H4 H5]. constructor; cbn; auto.
Qed.
Definition closes (ls : list urltest_label) : nat := length (List.filter (fun l => match l with TClose => true | _ => false end) ls).
(** Only [Close] closes. *)
Lemma step_closed l g g' : urltest_step group_Now l g = Ok g' -> l = TClose \/ tg_closed g' = tg_closed g.
Proof.
  destruct l as [now|outcome order|now name network external dial|now|now| |]; cbn [urltest_step]; [| | | | | |by left]; intros H; right.
  - by injection H as <-.
  - injection H as <-. unfold urlTest. destruct (foldl _ _ order) as [res h]. cbn [snd]. unfold performUpdateCheck. destruct (update_one _ _ _ _), (update_one _ _ _ _). done.
  - injection H as <-. unfold URLTest_Dial. assert (tg_closed (Touch now g) = tg_closed g) as Ht. { unfold Touch. destruct (negb _); [done|]. by destruct (tg_ticker g). }
    destruct (dial_choice _ _ _ _) as [o|e|m]; [|done|done]. by destruct (dial o).
  - destruct (tg_loops g); [done|]. injection H as <-. unfold loopCheck_begin. by destruct (_ <? _)%Z.
  - destruct (tg_loops g); [done|]. injection H as <-. unfold loopCheck_tick. by destruct (_ <? _)%Z.
  - destruct (tg_closed g) eqn:E; [|done]. destruct (tg_loops g); [done|]. by injection H as <-.
Qed.
Lemma urltest_run_safe ls : forall g, urltest_safe g -> match urltest_run group_Now ls g with
  | Ok g' => urltest_safe g' | Err _ => True | Panic _ => (2 <= closes ls + (if tg_closed g then 1 else 0))%nat end.
Proof.
  induction ls as [|l ls IH]; intros g Hs; cbn [urltest_run]; [done|]. pose proof (urltest_step_safe l g Hs) as Hl. pose proof (step_closed l g) as Hc.
  destruct (urltest_step group_Now l g) as [g'|e|m]; cbn [mbind result_bind].
  - specialize (IH g' Hl). destruct (urltest_run group_Now ls g') as [g2|e|m]; [done|done|]. unfold closes in *. cbn [List.filter].
    destruct (Hc g' eq_refl) as [->|<-]; [cbn [length]; destruct (tg_closed g), (tg_closed g'); lia|]. destruct l; cbn [length]; lia.
  - done.
  - destruct Hl as [-> ->]. unfold closes. cbn. lia.
Qed.
Lemma New_safe outbounds interval tolerance idleTimeout history external g :
  NewURLTestGroup outbounds interval tolerance idleTimeout history external = Ok g -> urltest_safe g.
Proof. unfold NewURLTestGroup. destruct (_ <? _)%Z; [done|]. intros [= <-]. constructor; cbn; try done; try lia. Qed.
Lemma dial_choice_member g name network o : urltest_safe g -> dial_choice group_Now name network g = Ok o -> member g name o \/ member g network o.
Proof.
  intros Hs. unfold dial_choice, selected_for. destruct (bool_decide (name = NetworkTCP)) eqn:E1.
  - apply bool_decide_eq_true in E1 as ->. cbn [negb orb]. destruct (tg_selectedTCP g) as [x|] eqn:Ex; [intros [= <-]; left; by apply (us_tcp g Hs)|].
    destruct (URLTest_Select _ network g) as [[x|] b] eqn:E; [|done]. intros [= <-]. right. by apply (Select_member g network x b).
  - destruct (bool_decide (name = NetworkUDP)) eqn:E2; [|done]. apply bool_decide_eq_true in E2 as ->. cbn [negb orb]. destruct (tg_selectedUDP g) as [x|] eqn:Ex; [intros [= <-]; left; by apply (us_udp g Hs)|].
    destruct (URLTest_Select _ network g) as [[x|] b] eqn:E; [|done]. intros [= <-]. right. by apply (Select_member g network x b).
Qed.
End Safe.

(** C24: a URL test group at any time, after any sequence of dials, rounds of tests, touches, ticks and [Close].  The outbounds in use are members of the group that have their network, and a dial goes to such a member; at most one loop checks the group,
    a loop has its ticker, and a ticker has its loop unless the group is closed; the only panic is a second [Close]. *)
Theorem urltest_group_safe group_Now outbounds interval tolerance idleTimeout history external g ls :
  NewURLTestGroup outbounds interval tolerance idleTimeout history external = Ok g ->
  match urltest_run group_Now ls g with
  | Ok g => urltest_safe g /\ forall name network o, dial_choice group_Now name network g = Ok o -> member g name o \/ member g network o
  | Err _ => True
  | Panic _ => (2 <= closes ls)%nat
  end.
Proof.
  intros H. pose proof (urltest_run_safe group_Now ls g (New_safe _ _ _ _ _ _ _ H)) as Hr. assert (tg_closed g = false) as Hc.
  { unfold NewURLTestGroup in H. destruct (_ <? _)%Z; [done|]. by injection H as <-. }
  destruct (urltest_run group_Now ls g) as [g'|e|m]; [|done|rewrite Hc in Hr; lia]. split; [done|]. intros name network o. by apply dial_choice_member.
Qed.

(** ** The order of the tests *)

Section Order.
Context (group_Now : Outbound -> option string) (outcome : string -> Z * result N).

Lemma Store_comm tag tag' h h' s : tag <> tag' -> StoreURLTestHistory tag h (StoreURLTestHistory tag' h' s) = StoreURLTestHistory tag' h' (StoreURLTestHistory tag h s).
Proof.
  intros Hne. assert (forall t t' x s', t <> t' -> StoreURLTestHistory t' x s' !! t = s' !! t) as Hl.
  { intros t t' x s' Ht. unfold StoreURLTestHistory. destruct (s' !! t'); by rewrite lookup_insert_ne. }
  unfold StoreURLTestHistory at 1 3. rewrite !Hl by done. unfold StoreURLTestHistory. destruct (s !! tag), (s !! tag'); by rewrite insert_insert_ne.
Qed.
Lemma end_test_comm acc x y : fst x <> fst y -> snd x <> snd y -> end_test outcome (end_test outcome acc x) y = end_test outcome (end_test outcome acc y) x.
Proof.
  intros Hf Hs. destruct acc as [res h]. unfold end_test, DeleteURLTestHistory.
  destruct (outcome (snd x)) as [tx [dx|ex|mx]], (outcome (snd y)) as [ty [dy|ey|my]]; try (rewrite (insert_insert_ne res) by done); by rewrite (Store_comm (snd y) (snd x)).
Qed.
Lemma end_tests_permute l l' : Permutation l l' -> NoDup (map fst l) -> NoDup (map snd l) -> forall acc, foldl (end_test outcome) acc l = foldl (end_test outcome) acc l'.
Proof.
  induction 1 as [|x l l' Hp IH|x y l|l l1 l2 H1 IH1 H2 IH2]; intros Hf Hs acc; [done| | |].
  - cbn [map foldl] in *. apply NoDup_cons in Hf as [_ Hf], Hs as [_ Hs]. by apply IH.
  - cbn [map foldl] in *. apply NoDup_cons in Hf as [Hf _], Hs as [Hs _]. rewrite end_test_comm; [done| |]; intros E; [apply Hf|apply Hs]; rewrite E; by left.
  - rewrite IH1 by done. apply IH2; [by rewrite <- (Permutation_map fst H1)|by rewrite <- (Permutation_map snd H1)].
Qed.
(** The tests of a round are of different outbounds, that the manager knows by their tags. *)
Lemma round_tests_spec om force now g : forall l checked, (forall x, x ∈ l -> om_Outbound om (ob_Tag x) = Some x) ->
  NoDup (map snd (round_tests group_Now om force now g checked l)) /\
  forall p, p ∈ round_tests group_Now om force now g checked l -> (snd p ∉ checked) /\ exists x, x ∈ l /\ p = (ob_Tag x, RealTag group_Now x).
Proof.
  induction l as [|d l IH]; intros checked Hom; [split; [constructor|intros p Hp; by apply elem_of_nil in Hp]|].
  assert (forall x, x ∈ l -> om_Outbound om (ob_Tag x) = Some x) as Hom' by (intros x Hx; apply Hom; by right).
  assert (forall c, NoDup (map snd (round_tests group_Now om force now g c l)) /\ forall p, p ∈ round_tests group_Now om force now g c l -> (snd p ∉ c) /\ exists x, x ∈ (d :: l) /\ p = (ob_Tag x, RealTag group_Now x)) as IH'.
  { intros c. destruct (IH c Hom') as [H1 H2]. split; [done|]. intros p Hp. destruct (H2 p Hp) as [H3 (x & Hx & ->)]. split; [done|]. exists x. split; [by right|done]. }
  cbn [round_tests]. case_bool_decide as Hin; [apply IH'|]. destruct (_ && _); [apply IH'|]. destruct (IH' ({[RealTag group_Now d]} ∪ checked)) as [H1 H2].
  assert (forall p, p ∈ round_tests group_Now om force now g ({[RealTag group_Now d]} ∪ checked) l -> (snd p ∉ checked) /\ exists x, x ∈ (d :: l) /\ p = (ob_Tag x, RealTag group_Now x)) as H2'.
  { intros p Hp. destruct (H2 p Hp) as [Hn Hx]. split; [set_solver|done]. }
  destruct (om_Outbound om (RealTag group_Now d)); [|by split]. split.
  - cbn [map snd]. constructor; [|done]. intros Hp. apply list_elem_of_In, in_map_iff in Hp as (p & Hps & Hp). apply list_elem_of_In in Hp.
    destruct (H2 p Hp) as [Hn _]. rewrite Hps in Hn. set_solver.
  - intros p Hp. apply elem_of_cons in Hp as [->|Hp]; [|by apply H2']. split; [done|]. exists d. split; [by left|done].
Qed.
Lemma NoDup_tags om (l : list (string * string)) (outs : list Outbound) : (forall x, x ∈ outs -> om_Outbound om (ob_Tag x) = Some x) -> NoDup (map snd l) ->
  (forall p, p ∈ l -> exists x, x ∈ outs /\ p = (ob_Tag x, RealTag group_Now x)) -> NoDup (map fst l).
Proof.
  intros Hom. induction l as [|p l IH]; intros Hs Hp; [constructor|]. cbn [map] in *. apply NoDup_cons in Hs as [Hs Hs']. constructor.
  - intros Hin. apply list_elem_of_In, in_map_iff in Hin as (q & Hq & Hql). apply list_elem_of_In in Hql. destruct (Hp p ltac:(by left)) as (x & Hx & ->), (Hp q ltac:(by right)) as (y & Hy & ->).
    cbn [fst] in Hq. assert (y = x) as ->. { specialize (Hom x Hx) as E1. specialize (Hom y Hy) as E2. rewrite Hq in E2. congruence. }
    apply Hs, list_elem_of_In, in_map_iff. exists (ob_Tag x, RealTag group_Now x). split; [done|by apply list_elem_of_In].
  - apply IH; [done|]. intros q Hq. apply Hp. by right.
Qed.
End Order.

(** C25: the tests of a round run at the same time, and the order in which they end makes no difference: any order gives the same results, the same history and the same choice.  The outbounds are the ones that the manager has under their tags. *)
Theorem urlTest_any_order group_Now outcome om force now g order :
  (forall x, x ∈ tg_outbounds g -> om_Outbound om (ob_Tag x) = Some x) ->
  Permutation order (round_tests group_Now om force now g ∅ (tg_outbounds g)) ->
  urlTest group_Now outcome order g = urlTest group_Now outcome (round_tests group_Now om force now g ∅ (tg_outbounds g)) g.
Proof.
  intros Hom Hp. destruct (round_tests_spec group_Now om force now g (tg_outbounds g) ∅ Hom) as [H1 H2]. unfold urlTest. symmetry in Hp.
  rewrite (end_tests_permute outcome _ _ Hp); [done| |done]. apply (NoDup_tags group_Now om _ (tg_outbounds g) Hom H1). intros p Hpin. by destruct (H2 p Hpin).
Qed.

(** ** Examples *)

Definition test_outbound (tag : string) : Outbound := mkOutbound tag [NetworkTCP; NetworkUDP] false false false.
Definition no_groups (o : Outbound) : option string := None.
Definition test_manager : OutboundManager := mkOutboundManager (fun tag => if bool_decide (tag ∈ ["a"; "b"; "c"]) then Some (test_outbound tag) else None) None.
Definition sample_group (history : HistoryStorage) : URLTestGroup :=
  mkURLTestGroup [test_outbound "a"; test_outbound "b"; test_outbound "c"] DefaultURLTestInterval 50 DefaultURLTestIdleTimeout history None None NewGroup false false 0 false false 0.
Definition sample_outcome (tag : string) : Z * result N :=
  if bool_decide (tag = "c") then (7%Z, Err (ELib "timeout")) else (5%Z, Ok (if bool_decide (tag = "a") then 100%N else 130%N)).
(** Of three outbounds two answer, the last does not: it is the one that is used. *)
Example failed_outbound_used : let g := snd (urlTest no_groups sample_outcome (round_tests no_groups test_manager false 0 (sample_group ∅) ∅ (tg_outbounds (sample_group ∅))) (sample_group ∅)) in
  tg_selectedTCP g = Some (test_outbound "c") /\ (th_Delay <$> tg_history g !! "a") = Some 100%N /\ (th_Delay <$> tg_history g !! "c") = Some 65535%N.
Proof. by vm_compute. Qed.
Definition measured_history : HistoryStorage := {[ "a" := mkTestHistory 5 100 None; "b" := mkTestHistory 5 130 None ]}.
Lemma urltest_Select_promise_witness : select_promise no_groups (sample_group measured_history) NetworkTCP (URLTest_Select no_groups NetworkTCP (sample_group measured_history)) /\
  URLTest_Select no_groups NetworkTCP (sample_group measured_history) = (Some (test_outbound "a"), true).
Proof.
  split; [|by vm_compute]. apply (urltest_Select_promise no_groups (sample_group measured_history) NetworkTCP).
  - intros o h (Ho & _ & Hh). cbn in Ho. repeat (apply elem_of_cons in Ho as [->|Ho]; [vm_compute in Hh; first [discriminate Hh | injection Hh as <-; split; vm_compute; reflexivity]|]). by apply elem_of_nil in Ho.
  - intros o h Ho. vm_compute in Ho. discriminate Ho.
Defined.
Lemma urltest_selects_failed_witness :
  let g := set_history (DeleteURLTestHistory 7 "c" measured_history) (sample_group measured_history) in
  URLTest_Select no_groups NetworkTCP g = (Some (test_outbound "c"), true) /\ tg_selectedTCP (performUpdateCheck no_groups g) = Some (test_outbound "c").
Proof.
  apply (urltest_selects_failed no_groups (sample_group measured_history) [test_outbound "a"; test_outbound "b"] (test_outbound "c") 7).
  - reflexivity.
  - reflexivity.
  - split; vm_compute; reflexivity.
  - intros o h Ho Hh. repeat (apply elem_of_cons in Ho as [->|Ho]; [vm_compute in Hh; injection Hh as <-; vm_compute; discriminate|]). by apply elem_of_nil in Ho.
  - intros o h Ho. vm_compute in Ho. discriminate Ho.
Defined.
Definition sample_steps : list urltest_label :=
  [TPostStart 0; TDial 1 "tcp" "tcp" true (fun _ => Ok 1%nat); TLoopBegin 2; TCheck sample_outcome [("a", "a"); ("b", "b")]; TDial 3 "tcp" "tcp" true (fun _ => Ok 2%nat); TTick 4; TClose; TLoopClosed].
Lemma urltest_group_safe_witness :
  match urltest_run no_groups sample_steps (sample_group ∅) with
  | Ok g => urltest_safe g /\ forall name network o, dial_choice no_groups name network g = Ok o -> member g name o \/ member g network o
  | Err _ => True
  | Panic _ => (2 <= closes sample_steps)%nat
  end /\ (exists g, urltest_run no_groups sample_steps (sample_group ∅) = Ok g /\ tg_selectedTCP g = Some (test_outbound "a")).
Proof.
  split; [|eexists; split; [vm_compute; reflexivity|reflexivity]].
  apply (urltest_group_safe no_groups [test_outbound "a"; test_outbound "b"; test_outbound "c"] 0 0 0 ∅ false (sample_group ∅) sample_steps). reflexivity.
Defined.
Lemma urlTest_any_order_witness : urlTest no_groups sample_outcome [("c", "c"); ("a", "a"); ("b", "b")] (sample_group ∅) = urlTest no_groups sample_outcome (round_tests no_groups test_manager false 0 (sample_group ∅) ∅ (tg_outbounds (sample_group ∅))) (sample_group ∅).
Proof.
  apply (urlTest_any_order no_groups sample_outcome test_manager false 0 (sample_group ∅)).
  - intros x Hx. cbn in Hx. repeat (apply elem_of_cons in Hx as [->|Hx]; [reflexivity|]). by apply elem_of_nil in Hx.
  - change (round_tests _ _ _ _ _ _ _) with [("a", "a"); ("b", "b"); ("c", "c")]. change [("c", "c"); ("a", "a"); ("b", "b")] with ([("c", "c")] ++ [("a", "a"); ("b", "b")]). apply Permutation_app_comm.
Defined.
(** [Close] does not forget the ticker. *)
Example second_close_panics : urltest_run no_groups [TPostStart 0; TDial 1 "tcp" "tcp" true (fun _ => Ok 1%nat); TClose; TClose] (sample_group ∅) = Panic double_close.
Proof. by vm_compute. Qed.
(** A delay of 0 ms counts as none: any tested outbound replaces it. *)
Example zero_delay_replaced :
  URLTest_Select no_groups NetworkTCP (set_choice (Some (test_outbound "a")) None NewGroup (sample_group {[ "a" := mkTestHistory 5 0 None; "b" := mkTestHistory 5 900 None ]})) =
  (Some (test_outbound "b"), true).
Proof. by vm_compute. Qed.
(** An outbound of the group that is a group itself: a failed dial marks its own tag, and not the one its delay is kept under. *)
Example dial_failure_misses : let nested (o : Outbound) := if bool_decide (ob_Tag o = "a") then Some "a1" else None in
  let g := sample_group {[ "a1" := mkTestHistory 5 100 None ]} in
  test_history nested (snd (URLTest_Dial nested 9 "tcp" "tcp" false (fun _ => Err (ELib "refused")) g)) (test_outbound "a") = Some (mkTestHistory 5 100 None).
Proof. by vm_compute. Qed.
