(* ===== verification/TrafficControl.v ===== *)
(** * TrafficControl: what the connections have used

    experimental/clashapi/trafficontrol: the manager of the trackers (manager.go) with its totals, and the chain of groups a
    tracker is given (tracker.go).  Counters are [int64]; the maps are [sync.Map]s, a call of the manager is one step. *)

From S2P Require Import Prelude GoStd NetIP Metadata Adapter.
From stdpp Require Import gmap.
Open Scope string_scope.
Open Scope list_scope.
Open Scope Z_scope.

(** ** The manager *)

(** [ConnectionEvent]: a connection is a number. *)
Inductive ConnectionEvent : Type := ConnectionEventNew (id : nat) | ConnectionEventClosed (id : nat) (closedAt : Z).
Definition closedConnectionsLimit : nat := 1000.
Record TrafficManager : Type := mkTrafficManager {
  mg_uploadTotal : Z;
  mg_downloadTotal : Z;
  mg_outboundUploadTotal : gmap string Z;
  mg_outboundDownloadTotal : gmap string Z;
  mg_connections : gset nat;
  mg_closedConnections : list (nat * Z);
  mg_events : list ConnectionEvent (* what the subscriber was told *)
}.
Definition NewTrafficManager : TrafficManager := mkTrafficManager 0 0 ∅ ∅ ∅ [] [].

Definition Join (id : nat) (m : TrafficManager) : TrafficManager :=
  mkTrafficManager (mg_uploadTotal m) (mg_downloadTotal m) (mg_outboundUploadTotal m) (mg_outboundDownloadTotal m)
    ({[id]} ∪ mg_connections m) (mg_closedConnections m) (mg_events m ++ [ConnectionEventNew id]).
Definition Leave (id : nat) (now : Z) (m : TrafficManager) : TrafficManager :=
  if bool_decide (id ∈ mg_connections m) then
    let closed := if (closedConnectionsLimit <=? length (mg_closedConnections m))%nat then tail (mg_closedConnections m) else mg_closedConnections m in
    mkTrafficManager (mg_uploadTotal m) (mg_downloadTotal m) (mg_outboundUploadTotal m) (mg_outboundDownloadTotal m)
      (mg_connections m ∖ {[id]}) (closed ++ [(id, now)]) (mg_events m ++ [ConnectionEventClosed id now])
  else m.
Definition PushUploaded (outbound : string) (size : Z) (m : TrafficManager) : TrafficManager :=
  mkTrafficManager (wrap64 (mg_uploadTotal m + size)) (mg_downloadTotal m)
    (<[outbound := wrap64 (default 0 (mg_outboundUploadTotal m !! outbound) + size)]> (mg_outboundUploadTotal m)) (mg_outboundDownloadTotal m)
    (mg_connections m) (mg_closedConnections m) (mg_events m).
(** The counter of the outbound grows by 100, whatever the size. *)
Definition PushDownloaded (outbound : string) (size : Z) (m : TrafficManager) : TrafficManager :=
  mkTrafficManager (mg_uploadTotal m) (wrap64 (mg_downloadTotal m + size))
    (mg_outboundUploadTotal m) (<[outbound := wrap64 (default 0 (mg_outboundDownloadTotal m !! outbound) + 100)]> (mg_outboundDownloadTotal m))
    (mg_connections m) (mg_closedConnections m) (mg_events m).
Definition Total (m : TrafficManager) : Z * Z := (mg_uploadTotal m, mg_downloadTotal m).
Definition OutboundUsage (outbound : string) (m : TrafficManager) : Z * Z :=
  (default 0 (mg_outboundUploadTotal m !! outbound), default 0 (mg_outboundDownloadTotal m !! outbound)).
Definition ResetStatistic (m : TrafficManager) : TrafficManager :=
  mkTrafficManager 0 0 ∅ ∅ (mg_connections m) (mg_closedConnections m) (mg_events m).

Inductive manager_op : Type :=
| OpJoin (id : nat) | OpLeave (id : nat) (now : Z) | OpUp (outbound : string) (size : Z) | OpDown (outbound : string) (size : Z) | OpReset.
Definition manager_step (m : TrafficManager) (o : manager_op) : TrafficManager :=
  match o with
  | OpJoin id => Join id m
  | OpLeave id now => Leave id now m
  | OpUp outbound size => PushUploaded outbound size m
  | OpDown outbound size => PushDownloaded outbound size m
  | OpReset => ResetStatistic m
  end.
Definition manager_run (ops : list manager_op) : TrafficManager := foldl manager_step NewTrafficManager ops.

(** ** Totals *)

(** The calls since the last reset, and sums over them. *)
Definition since_reset (ops : list manager_op) : list manager_op :=
  foldl (fun l o => match o with OpReset => [] | _ => l ++ [o] end) [] ops.
Definition sum_of (f : manager_op -> Z) (ops : list manager_op) : Z := foldl (fun z o => z + f o) 0 ops.
Definition up_size (o : manager_op) : Z := match o with OpUp _ n => n | _ => 0 end.
Definition down_size (o : manager_op) : Z := match o with OpDown _ n => n | _ => 0 end.
Definition up_size_of (outbound : string) (o : manager_op) : Z := match o with OpUp x n => if bool_decide (x = outbound) then n else 0 | _ => 0 end.
Definition downs_of (outbound : string) (o : manager_op) : Z := match o with OpDown x _ => if bool_decide (x = outbound) then 1 else 0 | _ => 0 end.
Lemma sum_of_snoc f ops o : sum_of f (ops ++ [o]) = sum_of f ops + f o.
Proof. unfold sum_of. by rewrite foldl_app. Qed.

Lemma since_reset_snoc ops o : since_reset (ops ++ [o]) = match o with OpReset => [] | _ => since_reset ops ++ [o] end.
Proof. unfold since_reset. by rewrite foldl_app. Qed.

Record totals_right (ops : list manager_op) (m : TrafficManager) : Prop := mkTotalsRight {
  tt_total : Total m = (wrap64 (sum_of up_size (since_reset ops)), wrap64 (sum_of down_size (since_reset ops)));
  tt_usage : forall outbound, OutboundUsage outbound m =
    (wrap64 (sum_of (up_size_of outbound) (since_reset ops)), wrap64 (100 * sum_of (downs_of outbound) (since_reset ops)))
}.
Lemma totals_step ops m o : totals_right ops m -> totals_right (ops ++ [o]) (manager_step m o).
Proof.
  intros [H1 H2]. constructor; [|intros outbound; specialize (H2 outbound)]; rewrite since_reset_snoc; unfold Total, OutboundUsage in *.
  - injection H1 as Hu Hd. destruct o as [id|id now|x n|x n|]; cbn [manager_step Join PushUploaded PushDownloaded ResetStatistic mg_uploadTotal mg_downloadTotal]; try rewrite !sum_of_snoc; cbn [up_size down_size].
    + by rewrite Hu, Hd, !Z.add_0_r.
    + unfold Leave. case_bool_decide; cbn; by rewrite Hu, Hd, !Z.add_0_r.
    + by rewrite Hu, Hd, wrap64_add, Z.add_0_r.
    + by rewrite Hu, Hd, wrap64_add, Z.add_0_r.
    + done.
  - injection H2 as Hu Hd. destruct o as [id|id now|x n|x n|]; cbn [manager_step Join PushUploaded PushDownloaded ResetStatistic mg_outboundUploadTotal mg_outboundDownloadTotal]; try rewrite !sum_of_snoc; cbn [up_size_of downs_of].
    + by rewrite Hu, Hd, !Z.add_0_r.
    + unfold Leave. case_bool_decide; cbn; by rewrite Hu, Hd, !Z.add_0_r.
    + rewrite Hd, Z.add_0_r. case_bool_decide as E; [subst x; rewrite lookup_insert_eq; cbn [default]; by rewrite Hu, wrap64_add|rewrite lookup_insert_ne by done; by rewrite Hu, Z.add_0_r].
    + rewrite Hu, Z.add_0_r. case_bool_decide as E.
      * subst x. rewrite lookup_insert_eq. cbn [default]. rewrite Hd, wrap64_add. by rewrite Z.mul_add_distr_l, Z.mul_1_r.
      * rewrite lookup_insert_ne by done. by rewrite Hd, Z.add_0_r.
    + by rewrite !lookup_empty.
Qed.
(** C26: the totals of the traffic, after any sequence of calls.  The total of uploads and of downloads is the sum of what was pushed since the last reset, and an outbound's uploads are the sum of its own, as [int64]; but an outbound's
    downloads are 100 times the number of calls, whatever their sizes. *)
Theorem traffic_totals ops : totals_right ops (manager_run ops).
Proof.
  unfold manager_run. induction ops as [|o ops IH] using rev_ind; [|rewrite foldl_app; by apply totals_step].
  constructor; [done|]. intros outbound. unfold OutboundUsage. cbn [foldl NewTrafficManager mg_outboundUploadTotal mg_outboundDownloadTotal]. by rewrite !lookup_empty.
Qed.

(** ** Connections *)

Definition event_id (e : ConnectionEvent) : nat := match e with ConnectionEventNew id | ConnectionEventClosed id _ => id end.
Definition events_of (id : nat) (l : list ConnectionEvent) : list ConnectionEvent := List.filter (fun e => event_id e =? id)%nat l.
Definition closed_event (e : ConnectionEvent) : option (nat * Z) := match e with ConnectionEventClosed id t => Some (id, t) | _ => None end.
Definition last_n {A} (n : nat) (l : list A) : list A := drop (length l - n) l.
Definition joined (o : manager_op) : option nat := match o with OpJoin id => Some id | _ => None end.
(** The life of a connection: not seen, open, or closed. *)
Inductive life : bool -> list ConnectionEvent -> Prop :=
| life_none : life false []
| life_open id : life true [ConnectionEventNew id]
| life_closed id t : life false [ConnectionEventNew id; ConnectionEventClosed id t].

Record connections_right (ops : list manager_op) (m : TrafficManager) : Prop := mkConnectionsRight {
  cr_life : forall id, life (bool_decide (id ∈ mg_connections m)) (events_of id (mg_events m));
  cr_joined : forall id, events_of id (mg_events m) <> [] -> id ∈ omap joined ops;
  cr_closed : mg_closedConnections m = last_n closedConnectionsLimit (omap closed_event (mg_events m))
}.
Lemma last_n_snoc {A} n (l : list A) x : (0 < n)%nat ->
  (if (n <=? length (last_n n l))%nat then tail (last_n n l) else last_n n l) ++ [x] = last_n n (l ++ [x]).
Proof.
  intros Hn. unfold last_n. rewrite length_drop, length_app. cbn [length]. destruct (Nat.leb_spec n (length l - (length l - n))) as [H|H].
  - replace (length l + 1 - n)%nat with (S (length l - n)) by lia. rewrite drop_app_le by lia. f_equal.
    rewrite <- Nat.add_1_r, <- drop_drop. by destruct (drop (length l - n) l).
  - replace (length l - n)%nat with 0%nat by lia. replace (length l + 1 - n)%nat with 0%nat by lia. by rewrite !drop_0.
Qed.
Lemma events_of_snoc id l e : events_of id (l ++ [e]) = events_of id l ++ (if (event_id e =? id)%nat then [e] else []).
Proof. unfold events_of. rewrite List.filter_app. cbn. by destruct (_ =? _)%nat. Qed.
Lemma connections_step ops o m : NoDup (omap joined (ops ++ [o])) -> connections_right ops m -> connections_right (ops ++ [o]) (manager_step m o).
Proof.
  intros Hnd [H1 H2 H3]. rewrite omap_app in *. assert (forall id, events_of id (mg_events m) <> [] -> id ∈ omap joined ops ++ omap joined [o]) as H2' by (intros id Hid; apply elem_of_app; left; by apply H2).
  destruct o as [id|id now|x n|x n|]; try (constructor; [done|by rewrite omap_app|done]).
  - assert (id ∉ omap joined ops) as Hfresh. { apply NoDup_app in Hnd as (_ & Hd & _). intros Hin. apply (Hd id Hin). cbn. by left. }
    assert (events_of id (mg_events m) = []) as Hnone. { destruct (events_of id (mg_events m)) eqn:E; [done|]. exfalso. apply Hfresh, H2. by rewrite E. }
    constructor; cbn [manager_step Join mg_events mg_connections mg_closedConnections].
    + intros j. rewrite events_of_snoc. cbn [event_id]. destruct (Nat.eqb_spec id j) as [<-|Hne].
      * rewrite Hnone. rewrite bool_decide_eq_true_2 by set_solver. apply life_open.
      * rewrite app_nil_r. specialize (H1 j). by rewrite (bool_decide_ext _ (j ∈ mg_connections m)) by set_solver.
    + intros j Hj. rewrite omap_app. apply elem_of_app. destruct (decide (id = j)) as [<-|Hne]; [right; cbn; by left|left]. apply H2. rewrite events_of_snoc in Hj. cbn [event_id] in Hj.
      destruct (Nat.eqb_spec id j); [done|]. by rewrite app_nil_r in Hj.
    + rewrite omap_app. cbn. by rewrite app_nil_r.
  - cbn [manager_step]. unfold Leave. case_bool_decide as Hin; [|constructor; [done|by rewrite omap_app|done]].
    constructor; cbn [mg_events mg_connections mg_closedConnections].
    + intros j. rewrite events_of_snoc. cbn [event_id]. pose proof (H1 j) as Hj. destruct (Nat.eqb_spec id j) as [<-|Hne].
      * rewrite bool_decide_eq_true_2 in Hj by done. rewrite bool_decide_eq_false_2 by set_solver. remember (events_of id (mg_events m)) as E eqn:HE. inversion Hj as [|id' E1 E2|]. cbn.
        assert (id' = id) as ->. { assert (ConnectionEventNew id' ∈ events_of id (mg_events m)) as Hm by (rewrite <- HE, <- E2; by left). apply list_elem_of_In, filter_In in Hm as [_ Hm]. by apply Nat.eqb_eq. }
        apply life_closed.
      * rewrite app_nil_r. by rewrite (bool_decide_ext _ (j ∈ mg_connections m)) by set_solver.
    + intros j Hj. rewrite omap_app, app_nil_r. apply H2. rewrite events_of_snoc in Hj. cbn [event_id] in Hj. destruct (decide (id = j)) as [<-|Hne]; [|rewrite (proj2 (Nat.eqb_neq id j)) in Hj by done; by rewrite app_nil_r in Hj].
      specialize (H1 id). rewrite bool_decide_eq_true_2 in H1 by done. by inversion H1.
    + rewrite omap_app. cbn [omap list_omap closed_event]. rewrite H3. apply last_n_snoc. unfold closedConnectionsLimit. lia.
Qed.
(** the connections, after any sequence of calls in which every connection joins once.  A connection is open exactly while it has joined and not left; the subscriber is told that it is new, then at most once that it is closed; and the closed connections that are kept
    are the last thousand, in the order in which they left. *)
Theorem traffic_connections ops : NoDup (omap joined ops) -> connections_right ops (manager_run ops).
Proof.
  unfold manager_run. induction ops as [|o ops IH] using rev_ind; intros Hnd.
  - constructor; [intros id; by apply life_none|done|done].
  - rewrite foldl_app. apply connections_step; [done|]. apply IH. rewrite omap_app in Hnd. by apply NoDup_app in Hnd as [? _].
Qed.
Lemma traffic_connections_witness : connections_right [OpJoin 1; OpUp "a" 5; OpJoin 2; OpLeave 1 7; OpLeave 1 8] (manager_run [OpJoin 1; OpUp "a" 5; OpJoin 2; OpLeave 1 7; OpLeave 1 8]).
Proof. apply (traffic_connections [OpJoin 1; OpUp "a" 5; OpJoin 2; OpLeave 1 7; OpLeave 1 8]). cbn. apply NoDup_cons. split; [set_solver|]. apply NoDup_singleton. Defined.
Example downloads_count_100 : OutboundUsage "a" (manager_run [OpDown "a" 1000000; OpDown "a" 1]) = (0, 200) /\ Total (manager_run [OpDown "a" 1000000; OpDown "a" 1]) = (0, 1000001).
Proof. by vm_compute. Qed.

(** ** The chain of a tracker *)

Section Chain.
Context (om : OutboundManager) (group_Now : Outbound -> option string).

(** The loop of [NewTCPTracker] and [NewUDPTracker]: the chain and the tag of the last outbound; [None] when the fuel is used up. *)
Fixpoint tracker_loop (fuel : nat) (next : string) (chain : list string) (outbound : string) : option (list string * string) :=
  match fuel with
  | O => None
  | S f =>
      match om_Outbound om next with
      | None => Some (chain, outbound)
      | Some detour =>
          match group_Now detour with
          | None => Some (chain ++ [next], ob_Tag detour)
          | Some now => tracker_loop f now (chain ++ [next]) (ob_Tag detour)
          end
      end
  end.
Definition tracker_next (matchOutbound : option Outbound) : result string :=
  match matchOutbound with
  | Some o => Ok (ob_Tag o)
  | None => match om_Default om with Some o => Ok (ob_Tag o) | None => Panic "invalid memory address or nil pointer dereference" end
  end.
(** [Chain] is reversed. *)
Definition tracker_chain (fuel : nat) (matchOutbound : option Outbound) : result (list string * string) :=
  let! next := tracker_next matchOutbound in
  match tracker_loop fuel next [] "" with Some (chain, outbound) => Ok (rev chain, outbound) | None => Panic "out of fuel" end.

(** The way from a tag through the choices of the groups, as far as the manager has them. *)
Inductive way : string -> list string -> string -> Prop :=
| way_end tag d : om_Outbound om tag = Some d -> group_Now d = None -> way tag [tag] (ob_Tag d)
| way_lost tag d now : om_Outbound om tag = Some d -> group_Now d = Some now -> om_Outbound om now = None -> way tag [tag] (ob_Tag d)
| way_group tag d now l outbound : om_Outbound om tag = Some d -> group_Now d = Some now -> way now l outbound -> way tag (tag :: l) outbound.
Lemma tracker_loop_way (rank : string -> nat) :
  (forall tag d now, om_Outbound om tag = Some d -> group_Now d = Some now -> is_Some (om_Outbound om now) -> (rank now < rank tag)%nat) ->
  forall fuel next chain outbound, (rank next < fuel)%nat -> is_Some (om_Outbound om next) ->
  exists l o, tracker_loop (S fuel) next chain outbound = Some (chain ++ l, o) /\ way next l o.
Proof.
  intros Hrank fuel. induction fuel as [|f IH]; intros next chain outbound Hf [d Hd]; [lia|]. cbn [tracker_loop]. rewrite Hd. destruct (group_Now d) as [now|] eqn:Eg.
  - destruct (om_Outbound om now) as [d'|] eqn:En.
    + destruct (IH now (chain ++ [next]) (ob_Tag d)) as (l & o & Hl & Hw); [specialize (Hrank next d now Hd Eg ltac:(by eexists)); lia|by eexists|].
      exists (next :: l), o. cbn [tracker_loop] in Hl. rewrite En in Hl. rewrite <- (app_assoc chain [next] l) in Hl. split; [exact Hl|by eapply way_group].
    + exists [next], (ob_Tag d). split; [done|by eapply way_lost].
  - exists [next], (ob_Tag d). split; [done|by apply way_end].
Qed.
End Chain.

(** a tracker is given the outbounds that its connection goes through.  If the groups do not refer to each other in a circle (a rank of the tags goes down from a group to its choice), the loop ends, and [Chain] is the way from the outbound that was matched through the choices of the
    groups to the outbound that is used, reversed; [Outbound] is the last one that the manager has. *)
Theorem tracker_chain_way om group_Now rank o :
  (forall tag d now, om_Outbound om tag = Some d -> group_Now d = Some now -> is_Some (om_Outbound om now) -> (rank now < rank tag)%nat) ->
  is_Some (om_Outbound om (ob_Tag o)) ->
  exists l outbound, tracker_chain om group_Now (S (S (rank (ob_Tag o)))) (Some o) = Ok (rev l, outbound) /\ way om group_Now (ob_Tag o) l outbound.
Proof.
  intros Hrank Ho. destruct (tracker_loop_way om group_Now rank Hrank (S (rank (ob_Tag o))) (ob_Tag o) [] "") as (l & out & Hl & Hw); [lia|done|].
  exists l, out. split; [|done]. unfold tracker_chain. cbn [tracker_next mbind result_bind]. by rewrite Hl.
Qed.
Definition chain_outbound (tag : string) : Outbound := mkOutbound tag [NetworkTCP] false false false.
Definition chain_manager : OutboundManager :=
  mkOutboundManager (fun tag => if bool_decide (tag = "proxy") then Some (chain_outbound "proxy") else if bool_decide (tag = "direct") then Some (chain_outbound "direct") else None) None.
Definition chain_now (o : Outbound) : option string := if bool_decide (ob_Tag o = "proxy") then Some "direct" else None.
Lemma tracker_chain_way_witness : (exists l outbound, tracker_chain chain_manager chain_now 3 (Some (chain_outbound "proxy")) = Ok (rev l, outbound) /\ way chain_manager chain_now "proxy" l outbound) /\
  tracker_chain chain_manager chain_now 3 (Some (chain_outbound "proxy")) = Ok (["direct"; "proxy"], "direct").
Proof.
  split; [|by vm_compute]. apply (tracker_chain_way chain_manager chain_now (fun tag => if bool_decide (tag = "proxy") then 1%nat else 0%nat) (chain_outbound "proxy")).
  - intros tag d now. unfold chain_manager. cbn [om_Outbound]. case_bool_decide as E1; [|case_bool_decide as E2; [|done]]; intros [= <-]; [|done]. intros [= <-] _. vm_compute. lia.
  - by eexists.
Defined.
