(* ===== verification/BadVersion.v ===== *)
(** * BadVersion: version numbers

    common/badversion/version.go: parsing, printing and comparing versions such as 1.3.0-beta.1. *)

From S2P Require Import Prelude GoStd.
Open Scope string_scope.

(** [strconv.Atoi] with its error ignored, for 64 bits: 0 for what is no number, the nearest [int] for what is too large. *)
Definition Atoi (s : string) : Z :=
  let '(neg, body) :=
    match s with
    | String c t => if Ascii.eqb c "-"%char then (true, t) else if Ascii.eqb c "+"%char then (false, t) else (false, s)
    | EmptyString => (false, s)
    end in
  if str_empty body || negb (string_forallb is_digit body) then 0%Z
  else match parse_uint 63 body with
       | Some n => if neg then (- Z.of_N n)%Z else Z.of_N n
       | None => if neg then (- 2 ^ 63)%Z else (2 ^ 63 - 1)%Z
       end.

Record Version : Type := mkVersion {
  ve_Major : Z; ve_Minor : Z; ve_Patch : Z; ve_Commit : string; ve_PreReleaseIdentifier : string; ve_PreReleaseVersion : Z
}.
#[export] Instance Version_eq_dec : EqDecision Version.
Proof. solve_decision. Defined.

Definition parsePreReleaseIdentifier (identifier : string) : N :=
  if has_prefix "rc" identifier then 1 else if has_prefix "beta" identifier then 2 else if has_prefix "alpha" identifier then 3 else 0.
Definition GreaterThan (v w : Version) : bool :=
  if (ve_Major w <? ve_Major v)%Z then true else if (ve_Major v <? ve_Major w)%Z then false
  else if (ve_Minor w <? ve_Minor v)%Z then true else if (ve_Minor v <? ve_Minor w)%Z then false
  else if (ve_Patch w <? ve_Patch v)%Z then true else if (ve_Patch v <? ve_Patch w)%Z then false
  else if str_empty (ve_PreReleaseIdentifier v) && negb (str_empty (ve_PreReleaseIdentifier w)) then true
  else if negb (str_empty (ve_PreReleaseIdentifier v)) && str_empty (ve_PreReleaseIdentifier w) then false
  else if negb (str_empty (ve_PreReleaseIdentifier v)) && negb (str_empty (ve_PreReleaseIdentifier w)) then
    let ranks :=
      let p := parsePreReleaseIdentifier (ve_PreReleaseIdentifier v) in
      let q := parsePreReleaseIdentifier (ve_PreReleaseIdentifier w) in (p <? q)%N in
    if bool_decide (ve_PreReleaseIdentifier v = ve_PreReleaseIdentifier w) then
      if (ve_PreReleaseVersion w <? ve_PreReleaseVersion v)%Z then true
      else if (ve_PreReleaseVersion v <? ve_PreReleaseVersion w)%Z then false
      else ranks
    else ranks
  else false.
Definition GreaterThanOrEqual (v w : Version) : bool := bool_decide (v = w) || GreaterThan v w.
Definition LessThanOrEqual (v w : Version) : bool := bool_decide (v = w) || GreaterThan w v.
Definition LessThan (v w : Version) : bool := negb (GreaterThanOrEqual v w).

Definition VersionString (v : Version) : string := format_int (ve_Major v) +:+ "." +:+ format_int (ve_Minor v) +:+ "." +:+ format_int (ve_Patch v).
Definition Version_String (v : Version) : string :=
  VersionString v +:+
  (if str_empty (ve_PreReleaseIdentifier v) then "" else "-" +:+ ve_PreReleaseIdentifier v +:+ "." +:+ format_int (ve_PreReleaseVersion v)).
Definition BadString (v : Version) : string :=
  format_int (ve_Major v) +:+ "." +:+ format_int (ve_Minor v) +:+
  (if (0 <? ve_Patch v)%Z then "." +:+ format_int (ve_Patch v) else "") +:+
  (if str_empty (ve_PreReleaseIdentifier v) then ""
   else "-" +:+ ve_PreReleaseIdentifier v +:+ (if (0 <? ve_PreReleaseVersion v)%Z then format_int (ve_PreReleaseVersion v) else "")).

(** What follows the first dash: the commit, the identifier and its version. *)
Definition parse_identifier (identifier : string) : string * string * Z :=
  match str_split "."%char identifier with
  | name :: number :: _ => ("", name, Atoi number)
  | _ =>
      if has_prefix "alpha" identifier then ("", "alpha", Atoi (str_drop 5 identifier))
      else if has_prefix "beta" identifier then ("", "beta", Atoi (str_drop 4 identifier))
      else (identifier, "", 0%Z)
  end.
Definition parse_elements (versionName : string) : Z * Z * Z :=
  match str_split "."%char versionName with
  | [] => (0, 0, 0)%Z
  | [a] => (Atoi a, 0, 0)%Z
  | [a; b] => (Atoi a, Atoi b, 0)%Z
  | a :: b :: c :: _ => (Atoi a, Atoi b, Atoi c)
  end.
Definition Parse (versionName : string) : Version :=
  let versionName := match versionName with String c t => if Ascii.eqb c "v"%char then t else versionName | EmptyString => "" end in
  let '(versionName, (commit, identifier, number)) :=
    match str_split "-"%char versionName with
    | first :: second :: _ => (first, parse_identifier second)
    | _ => (versionName, ("", "", 0%Z))
    end in
  let '(major, minor, patch) := parse_elements versionName in
  mkVersion major minor patch commit identifier number.

(** ** Printing and parsing *)

Definition int64_natural (z : Z) : Prop := (0 <= z < 2 ^ 63)%Z.
(** A version that is printed in full: no commit, and an identifier without dots and dashes, or none and no number of it. *)
Record printable (v : Version) : Prop := mkPrintable {
  pv_major : int64_natural (ve_Major v);
  pv_minor : int64_natural (ve_Minor v);
  pv_patch : int64_natural (ve_Patch v);
  pv_number : int64_natural (ve_PreReleaseVersion v);
  pv_commit : ve_Commit v = "";
  pv_none : ve_PreReleaseIdentifier v = "" -> ve_PreReleaseVersion v = 0%Z;
  pv_dot : index_byte "."%char (ve_PreReleaseIdentifier v) = None;
  pv_dash : index_byte "-"%char (ve_PreReleaseIdentifier v) = None
}.
Lemma format_int_natural z : (0 <= z)%Z -> format_int z = format_uint (Z.to_N z).
Proof. by destruct z. Qed.
Lemma digits_without c s : is_digit c = false -> string_forallb is_digit s = true -> index_byte c s = None.
Proof.
  intros Hc. induction s as [|d s IH]; intros H; [done|]. cbn [string_forallb] in H. apply andb_prop in H as [Hd H]. apply index_byte_cons. split; [intros ->; congruence|by apply IH].
Qed.
Lemma Atoi_format z : int64_natural z -> Atoi (format_int z) = z.
Proof.
  intros [H0 H1]. rewrite format_int_natural by done. unfold Atoi. pose proof (format_uint_digits (Z.to_N z)) as Hd. pose proof (format_uint_ne (Z.to_N z)) as Hne.
  pose proof (parse_format_uint 63 (Z.to_N z) ltac:(lia)) as Hp. destruct (format_uint (Z.to_N z)) as [|c t] eqn:E; [done|].
  assert (is_digit c = true) as Hc by (cbn [string_forallb] in Hd; by apply andb_prop in Hd as [? _]).
  destruct (Ascii.eqb_spec c "-"%char) as [->|_]; [done|]. destruct (Ascii.eqb_spec c "+"%char) as [->|_]; [done|].
  rewrite Hd, Hp. unfold str_empty. rewrite bool_decide_eq_false_2 by done. cbn [orb negb]. lia.
Qed.
Lemma format_int_without c z : is_digit c = false -> (0 <= z)%Z -> index_byte c (format_int z) = None.
Proof. intros Hc Hz. rewrite format_int_natural by done. apply digits_without; [done|apply format_uint_digits]. Qed.
Lemma parse_elements_print v : printable v -> parse_elements (VersionString v) = (ve_Major v, ve_Minor v, ve_Patch v).
Proof.
  intros [H1 H2 H3 _ _ _ _ _]. unfold parse_elements, VersionString. change ("." +:+ format_int (ve_Minor v) +:+ "." +:+ format_int (ve_Patch v)) with
    (String "."%char (format_int (ve_Minor v) +:+ String "."%char (format_int (ve_Patch v)))).
  rewrite str_split_part by (apply format_int_without; [done|apply H1]). rewrite str_split_part by (apply format_int_without; [done|apply H2]).
  rewrite str_split_whole by (apply format_int_without; [done|apply H3]). by rewrite !Atoi_format.
Qed.
Lemma VersionString_no_dash v : printable v -> index_byte "-"%char (VersionString v) = None.
Proof.
  intros [H1 H2 H3 _ _ _ _ _]. unfold VersionString. rewrite !index_byte_app. split_and!; try (apply format_int_without; [done|]); [apply H1|done|apply H2|done|apply H3].
Qed.
Lemma no_leading_v v t : printable v -> match VersionString v +:+ t with String c u => if Ascii.eqb c "v"%char then u else VersionString v +:+ t | EmptyString => "" end = VersionString v +:+ t.
Proof.
  intros Hv. unfold VersionString. rewrite format_int_natural by apply (pv_major v Hv). pose proof (format_uint_digits (Z.to_N (ve_Major v))) as Hd. pose proof (format_uint_ne (Z.to_N (ve_Major v))) as Hne.
  destruct (format_uint (Z.to_N (ve_Major v))) as [|c u]; [done|]. cbn [string_forallb] in Hd. apply andb_prop in Hd as [Hc _].
  rewrite str_app_assoc. generalize (("." +:+ format_int (ve_Minor v) +:+ "." +:+ format_int (ve_Patch v)) +:+ t). intros x. change (String c u +:+ x) with (String c (u +:+ x)). cbv beta iota. destruct (Ascii.eqb_spec c "v"%char) as [->|_]; [vm_compute in Hc; done|done].
Qed.
(** a version that was printed is parsed back, for versions without a commit whose numbers are natural numbers of 63 bits and whose identifier has neither dots nor dashes. *)
Theorem version_roundtrip v : printable v -> Parse (Version_String v) = v.
Proof.
  intros Hv. pose proof (pv_commit v Hv) as Hc. pose proof (pv_none v Hv) as Hn. unfold Parse, Version_String. rewrite no_leading_v by done.
  pose proof (VersionString_no_dash v Hv) as Hd. pose proof (parse_elements_print v Hv) as He. unfold str_empty. case_bool_decide as Ei.
  - rewrite str_app_nil. rewrite str_split_whole by done. rewrite He. destruct v as [a b c d e f]. cbn in *. by rewrite Hc, Ei, (Hn Ei).
  - change ("-" +:+ ve_PreReleaseIdentifier v +:+ "." +:+ format_int (ve_PreReleaseVersion v)) with (String "-"%char (ve_PreReleaseIdentifier v +:+ String "."%char (format_int (ve_PreReleaseVersion v)))).
    rewrite str_split_part by done. rewrite str_split_whole.
    + unfold parse_identifier. rewrite str_split_part by apply (pv_dot v Hv). rewrite str_split_whole by (apply format_int_without; [done|apply (pv_number v Hv)]).
      rewrite He, Atoi_format by apply (pv_number v Hv). destruct v as [a b c d e f]. cbn in *. by rewrite Hc.
    + rewrite index_byte_app. split; [apply (pv_dash v Hv)|]. apply index_byte_cons. split; [done|]. apply format_int_without; [done|apply (pv_number v Hv)].
Qed.
Lemma version_roundtrip_witness : Parse (Version_String (mkVersion 1 13 0 "" "beta" 2)) = mkVersion 1 13 0 "" "beta" 2 /\ Version_String (mkVersion 1 13 0 "" "beta" 2) = "1.13.0-beta.2".
Proof. split; [|by vm_compute]. apply (version_roundtrip (mkVersion 1 13 0 "" "beta" 2)). constructor; cbn; unfold int64_natural; try done; lia. Defined.

(** ** The order *)

(** Releases, and releases candidates, betas and alphas with their number. *)
Inductive stage : string -> Z -> N -> Prop :=
| stage_release : stage "" 0 4
| stage_rc n : stage "rc" n 3
| stage_beta n : stage "beta" n 2
| stage_alpha n : stage "alpha" n 1.
Definition standard (v : Version) (rank : N) : Prop := ve_Commit v = "" /\ stage (ve_PreReleaseIdentifier v) (ve_PreReleaseVersion v) rank.
(** The numbers in the order of their weight. *)
Definition weight (v : Version) (rank : N) : list Z := [ve_Major v; ve_Minor v; ve_Patch v; Z.of_N rank; ve_PreReleaseVersion v].
Fixpoint heavier (a b : list Z) : bool :=
  match a, b with x :: a, y :: b => (y <? x)%Z || ((x =? y)%Z && heavier a b) | _, _ => false end.
(** What the comparison asks of identifiers that are known. *)
Ltac closed_strings := repeat match goal with
  | |- context [str_empty ?s] => let b := eval vm_compute in (str_empty s) in change (str_empty s) with b
  | |- context [parsePreReleaseIdentifier ?s] => let b := eval vm_compute in (parsePreReleaseIdentifier s) in change (parsePreReleaseIdentifier s) with b
  | |- context [@bool_decide (?s = ?t :> string) ?d] => let b := eval vm_compute in (@bool_decide (s = t) d) in change (@bool_decide (s = t) d) with b
  end.
Lemma GreaterThan_weight v w p q : standard v p -> standard w q -> GreaterThan v w = heavier (weight v p) (weight w q).
Proof.
  intros [_ Hv] [_ Hw]. unfold GreaterThan, weight. cbn [heavier].
  destruct (Z.ltb_spec (ve_Major w) (ve_Major v)), (Z.ltb_spec (ve_Major v) (ve_Major w)), (Z.eqb_spec (ve_Major v) (ve_Major w)); try lia; cbn [orb andb]; try done.
  destruct (Z.ltb_spec (ve_Minor w) (ve_Minor v)), (Z.ltb_spec (ve_Minor v) (ve_Minor w)), (Z.eqb_spec (ve_Minor v) (ve_Minor w)); try lia; cbn [orb andb]; try done.
  destruct (Z.ltb_spec (ve_Patch w) (ve_Patch v)), (Z.ltb_spec (ve_Patch v) (ve_Patch w)), (Z.eqb_spec (ve_Patch v) (ve_Patch w)); try lia; cbn [orb andb]; try done.
  inversion Hv as [Ei En Ep|n Ei En Ep|n Ei En Ep|n Ei En Ep]; inversion Hw as [Fi Fn Fq|k Fi Fn Fq|k Fi Fn Fq|k Fi Fn Fq]; rewrite <- ?Ei, <- ?Fi, <- ?En, <- ?Fn; subst p q; closed_strings; cbn; try done;
    destruct (Z.ltb_spec k n), (Z.ltb_spec n k); try lia; rewrite ?andb_false_r; done.
Qed.
Lemma weight_inj v w p q : standard v p -> standard w q -> weight v p = weight w q -> v = w.
Proof.
  intros [Cv Hv] [Cw Hw] [= E1 E2 E3 E4 E5]. assert (ve_PreReleaseIdentifier v = ve_PreReleaseIdentifier w) as Ei.
  { inversion Hv as [Ei En Ep|n Ei En Ep|n Ei En Ep|n Ei En Ep]; inversion Hw as [Fi Fn Fq|k Fi Fn Fq|k Fi Fn Fq|k Fi Fn Fq]; subst p q; congruence || lia. }
  destruct v, w. cbn in *. by subst.
Qed.
Lemma heavier_total a : forall b, length a = length b -> (heavier a b = true /\ heavier b a = false /\ a <> b) \/ (heavier a b = false /\ heavier b a = true /\ a <> b) \/ (a = b /\ heavier a b = false /\ heavier b a = false).
Proof.
  induction a as [|x a IH]; intros [|y b] Hl; [by right; right|done|done|]. cbn [heavier]. injection Hl as Hl. specialize (IH b Hl).
  destruct (Z.ltb_spec y x), (Z.ltb_spec x y), (Z.eqb_spec x y), (Z.eqb_spec y x); try lia; cbn [orb andb].
  - left. split_and!; [done|done|congruence].
  - right; left. split_and!; [done|done|congruence].
  - subst y. destruct IH as [(E1 & E2 & Hne)|[(E1 & E2 & Hne)|(E0 & E1 & E2)]]; rewrite E1, E2; [left|right; left|right; right]; split_and!; congruence.
Qed.
(** versions are compared by their numbers.  For releases, release candidates, betas and alphas, [GreaterThan] is the order of the numbers, a release after its candidates, betas and alphas; the four comparisons agree, and of two versions one is greater or they are equal. *)
Theorem version_order v w p q : standard v p -> standard w q ->
  GreaterThan v w = heavier (weight v p) (weight w q) /\
  LessThan v w = GreaterThan w v /\ GreaterThanOrEqual v w = LessThanOrEqual w v /\
  (GreaterThan v w = true \/ GreaterThan w v = true \/ v = w).
Proof.
  intros Hv Hw. pose proof (GreaterThan_weight v w p q Hv Hw) as H1. pose proof (GreaterThan_weight w v q p Hw Hv) as H2. split; [done|].
  assert (forall a b : Version, bool_decide (a = b) = bool_decide (b = a)) as Hs by (intros a b; apply bool_decide_ext; naive_solver).
  unfold LessThan, GreaterThanOrEqual, LessThanOrEqual. rewrite (Hs w v).
  destruct (heavier_total (weight v p) (weight w q) eq_refl) as [(E1 & E2 & Hne)|[(E1 & E2 & Hne)|(E & E1 & E2)]]; rewrite H1, H2, E1, E2.
  - split_and!; [by rewrite orb_true_r|done|by left].
  - rewrite bool_decide_eq_false_2; [split_and!; [done|done|by right; left]|]. intros ->. rewrite H1 in H2. congruence.
  - apply weight_inj in E as ->; [|done|done]. rewrite bool_decide_eq_true_2 by done. split_and!; [done|done|by right; right].
Qed.
Lemma version_order_witness : let v := mkVersion 1 3 0 "" "" 0 in let w := mkVersion 1 3 0 "" "beta" 1 in
  GreaterThan v w = heavier (weight v 4) (weight w 2) /\ LessThan v w = GreaterThan w v /\ GreaterThanOrEqual v w = LessThanOrEqual w v /\ (GreaterThan v w = true \/ GreaterThan w v = true \/ v = w).
Proof. apply (version_order (mkVersion 1 3 0 "" "" 0) (mkVersion 1 3 0 "" "beta" 1) 4 2); (split; [reflexivity|]); [apply stage_release|apply stage_beta]. Defined.

(** Versions that differ only in the commit are each less than the other. *)
Lemma commit_less_both v c : c <> ve_Commit v -> let w := mkVersion (ve_Major v) (ve_Minor v) (ve_Patch v) c (ve_PreReleaseIdentifier v) (ve_PreReleaseVersion v) in
  LessThan v w = true /\ LessThan w v = true.
Proof.
  intros Hc w. assert (v <> w) as Hne by (intros E; apply Hc; by rewrite E). assert (GreaterThan v w = false /\ GreaterThan w v = false) as [G1 G2].
  { unfold GreaterThan, w. cbn. rewrite !Z.ltb_irrefl, N.ltb_irrefl. destruct (str_empty _); cbn; [done|]. by rewrite bool_decide_eq_true_2. }
  unfold LessThan, GreaterThanOrEqual. rewrite G1, G2. rewrite !bool_decide_eq_false_2 by congruence. done.
Qed.
(** Without a dot, rc1 is taken for a commit: 1.3.0-rc1 and 1.3.0 are each less than the other, and 1.3.0-rc1 is printed as 1.3.0. *)
Example rc_without_dot : Parse "1.3.0-rc1" = mkVersion 1 3 0 "rc1" "" 0 /\ LessThan (Parse "1.3.0") (Parse "1.3.0-rc1") = true /\ Version_String (Parse "1.3.0-rc1") = "1.3.0".
Proof. by vm_compute. Qed.
Example version_tests : Version_String (Parse "v1.3.0-beta1") = "1.3.0-beta.1" /\ BadString (Parse "v1.3.0-beta.1") = "1.3-beta1" /\ GreaterThan (Parse "1.3.0") (Parse "1.3-beta1") = true /\
  GreaterThan (Parse "1.3.0-beta1") (Parse "1.3.0-alpha1") = true /\ GreaterThan (Parse "1.4") (Parse "1.3") = true.
Proof. by vm_compute. Qed.
