(* ===== verification/SRS.v ===== *)
(** * SRS: the binary form of rule-sets

    common/srs: [Read] and [Write] (binary.go), prefixes (ip_cidr.go) and IP sets (ip_set.go), and what
    [sing-box rule-set compile] does with them (cmd/sing-box/cmd_rule_set_compile.go).

    A file is a magic number, a version and a zlib stream with a number of rules; a default rule is a
    sequence of items, each a type byte and a value, that ends with the byte 255 and the [invert] flag.
    zlib, sing's varbin, the domain matchers and netipx are interfaces ([SRSLibrary]).  Writing goes
    to a buffer; that a file cannot be written is not modelled. *)

From S2P Require Import Prelude GoStd NetIP Metadata RuleItems RuleMatch RuleAction RuleOptions RuleBuild RuleSet.
From S2P Require Import FakeIP FakeIPCodec GoIO Groups CacheFile.
Open Scope string_scope.

(** ** Third-party code *)

(** A value that is written and read. *)
Record Codec (A : Type) : Type := mkCodec {
  encode : A -> string;
  decode : Reader -> result (A * Reader)
}.
Arguments encode {_}.
Arguments decode {_}.

(** zlib; varbin's values; the binary form of domain matchers; the ranges inside a [netipx.IPSet];
    [badoption.Prefixable] and [badjson.TypedMap]; and how long a slice may be ([make] panics with
    more elements).  [varbin_ReadRanges] fills a slice of the given length. *)
Class SRSLibrary `{X : Externals} : Type := {
  zlib_NewReader : Reader -> result Reader;
  zlib_Compress : string -> string;
  varbin_WriteUvarint : N -> string;
  varbin_strings : Codec (list string);
  varbin_uint8s : Codec (list N);
  varbin_uint16s : Codec (list N);
  varbin_bytes : Codec string;
  varbin_ReadUint8 : Reader -> result (N * Reader);
  varbin_WriteRange : string * string -> string;
  varbin_ReadRanges : N -> Reader -> result (list (string * string) * Reader);
  domain_Matcher : Codec DomainMatcher;
  Matcher_Dump : DomainMatcher -> list string * list string;
  domain_AdGuardMatcher : Codec AdGuardMatcher;
  AdGuardMatcher_Dump : AdGuardMatcher -> list string;
  IPSet_rr : IPSet -> list (Addr * Addr);
  IPSet_of_rr : list (Addr * Addr) -> IPSet;
  IPSet_Prefixes : IPSet -> list Prefix;
  Prefixable_of : Prefix -> Prefixable;
  TypedMap_Put : N -> list Prefixable -> list (N * list Prefixable) -> list (N * list Prefixable);
  max_rules : N;
  max_ranges : N
}.

(** ** Assignments to the fields of a headless rule *)

Ltac set_field f v r :=
  let pick g := tryif constr_eq f g then exact v else exact (g _ r) in
  exact (mkOptDefaultHeadlessRule
    ltac:(pick @ho_QueryType) ltac:(pick @ho_Network) ltac:(pick @ho_Domain) ltac:(pick @ho_DomainSuffix)
    ltac:(pick @ho_DomainKeyword) ltac:(pick @ho_DomainRegex) ltac:(pick @ho_SourceIPCIDR) ltac:(pick @ho_IPCIDR)
    ltac:(pick @ho_SourcePort) ltac:(pick @ho_SourcePortRange) ltac:(pick @ho_Port) ltac:(pick @ho_PortRange)
    ltac:(pick @ho_ProcessName) ltac:(pick @ho_ProcessPath) ltac:(pick @ho_ProcessPathRegex)
    ltac:(pick @ho_PackageName) ltac:(pick @ho_NetworkType) ltac:(pick @ho_NetworkIsExpensive)
    ltac:(pick @ho_NetworkIsConstrained) ltac:(pick @ho_WIFISSID) ltac:(pick @ho_WIFIBSSID) ltac:(pick @ho_Invert)
    ltac:(pick @ho_DomainMatcher) ltac:(pick @ho_SourceIPSet) ltac:(pick @ho_IPSet) ltac:(pick @ho_AdGuardDomain)
    ltac:(pick @ho_AdGuardDomainMatcher) ltac:(pick @ho_TunnelSource) ltac:(pick @ho_TunnelDestination)
    ltac:(pick @ho_NetworkInterfaceAddress) ltac:(pick @ho_DefaultInterfaceAddress)).

Section SRS.
Context {X : Externals} {SL : SRSLibrary} {CL : CacheLibrary}.

Definition set_ho_QueryType (v : list N) (r : opt_DefaultHeadlessRule) : opt_DefaultHeadlessRule :=
  ltac:(set_field @ho_QueryType v r).
Definition set_ho_Network (v : list string) (r : opt_DefaultHeadlessRule) : opt_DefaultHeadlessRule :=
  ltac:(set_field @ho_Network v r).
Definition set_ho_Domain (v : list string) (r : opt_DefaultHeadlessRule) : opt_DefaultHeadlessRule :=
  ltac:(set_field @ho_Domain v r).
Definition set_ho_DomainSuffix (v : list string) (r : opt_DefaultHeadlessRule) : opt_DefaultHeadlessRule :=
  ltac:(set_field @ho_DomainSuffix v r).
Definition set_ho_DomainKeyword (v : list string) (r : opt_DefaultHeadlessRule) : opt_DefaultHeadlessRule :=
  ltac:(set_field @ho_DomainKeyword v r).
Definition set_ho_DomainRegex (v : list string) (r : opt_DefaultHeadlessRule) : opt_DefaultHeadlessRule :=
  ltac:(set_field @ho_DomainRegex v r).
Definition set_ho_SourceIPCIDR (v : list string) (r : opt_DefaultHeadlessRule) : opt_DefaultHeadlessRule :=
  ltac:(set_field @ho_SourceIPCIDR v r).
Definition set_ho_IPCIDR (v : list string) (r : opt_DefaultHeadlessRule) : opt_DefaultHeadlessRule :=
  ltac:(set_field @ho_IPCIDR v r).
Definition set_ho_SourcePort (v : list N) (r : opt_DefaultHeadlessRule) : opt_DefaultHeadlessRule :=
  ltac:(set_field @ho_SourcePort v r).
Definition set_ho_SourcePortRange (v : list string) (r : opt_DefaultHeadlessRule) : opt_DefaultHeadlessRule :=
  ltac:(set_field @ho_SourcePortRange v r).
Definition set_ho_Port (v : list N) (r : opt_DefaultHeadlessRule) : opt_DefaultHeadlessRule :=
  ltac:(set_field @ho_Port v r).
Definition set_ho_PortRange (v : list string) (r : opt_DefaultHeadlessRule) : opt_DefaultHeadlessRule :=
  ltac:(set_field @ho_PortRange v r).
Definition set_ho_ProcessName (v : list string) (r : opt_DefaultHeadlessRule) : opt_DefaultHeadlessRule :=
  ltac:(set_field @ho_ProcessName v r).
Definition set_ho_ProcessPath (v : list string) (r : opt_DefaultHeadlessRule) : opt_DefaultHeadlessRule :=
  ltac:(set_field @ho_ProcessPath v r).
Definition set_ho_ProcessPathRegex (v : list string) (r : opt_DefaultHeadlessRule) : opt_DefaultHeadlessRule :=
  ltac:(set_field @ho_ProcessPathRegex v r).
Definition set_ho_PackageName (v : list string) (r : opt_DefaultHeadlessRule) : opt_DefaultHeadlessRule :=
  ltac:(set_field @ho_PackageName v r).
Definition set_ho_NetworkType (v : list N) (r : opt_DefaultHeadlessRule) : opt_DefaultHeadlessRule :=
  ltac:(set_field @ho_NetworkType v r).
Definition set_ho_NetworkIsExpensive (v : bool) (r : opt_DefaultHeadlessRule) : opt_DefaultHeadlessRule :=
  ltac:(set_field @ho_NetworkIsExpensive v r).
Definition set_ho_NetworkIsConstrained (v : bool) (r : opt_DefaultHeadlessRule) : opt_DefaultHeadlessRule :=
  ltac:(set_field @ho_NetworkIsConstrained v r).
Definition set_ho_WIFISSID (v : list string) (r : opt_DefaultHeadlessRule) : opt_DefaultHeadlessRule :=
  ltac:(set_field @ho_WIFISSID v r).
Definition set_ho_WIFIBSSID (v : list string) (r : opt_DefaultHeadlessRule) : opt_DefaultHeadlessRule :=
  ltac:(set_field @ho_WIFIBSSID v r).
Definition set_ho_Invert (v : bool) (r : opt_DefaultHeadlessRule) : opt_DefaultHeadlessRule :=
  ltac:(set_field @ho_Invert v r).
Definition set_ho_DomainMatcher (v : option DomainMatcher) (r : opt_DefaultHeadlessRule) : opt_DefaultHeadlessRule :=
  ltac:(set_field @ho_DomainMatcher v r).
Definition set_ho_SourceIPSet (v : option IPSet) (r : opt_DefaultHeadlessRule) : opt_DefaultHeadlessRule :=
  ltac:(set_field @ho_SourceIPSet v r).
Definition set_ho_IPSet (v : option IPSet) (r : opt_DefaultHeadlessRule) : opt_DefaultHeadlessRule :=
  ltac:(set_field @ho_IPSet v r).
Definition set_ho_AdGuardDomain (v : list string) (r : opt_DefaultHeadlessRule) : opt_DefaultHeadlessRule :=
  ltac:(set_field @ho_AdGuardDomain v r).
Definition set_ho_AdGuardDomainMatcher (v : option AdGuardMatcher) (r : opt_DefaultHeadlessRule) : opt_DefaultHeadlessRule :=
  ltac:(set_field @ho_AdGuardDomainMatcher v r).
Definition set_ho_NetworkInterfaceAddress (v : option (list (N * list Prefixable))) (r : opt_DefaultHeadlessRule) : opt_DefaultHeadlessRule :=
  ltac:(set_field @ho_NetworkInterfaceAddress v r).
Definition set_ho_DefaultInterfaceAddress (v : list Prefixable) (r : opt_DefaultHeadlessRule) : opt_DefaultHeadlessRule :=
  ltac:(set_field @ho_DefaultInterfaceAddress v r).

(** ** Item types *)

Definition ruleItemQueryType : N := 0.
Definition ruleItemNetwork : N := 1.
Definition ruleItemDomain : N := 2.
Definition ruleItemDomainKeyword : N := 3.
Definition ruleItemDomainRegex : N := 4.
Definition ruleItemSourceIPCIDR : N := 5.
Definition ruleItemIPCIDR : N := 6.
Definition ruleItemSourcePort : N := 7.
Definition ruleItemSourcePortRange : N := 8.
Definition ruleItemPort : N := 9.
Definition ruleItemPortRange : N := 10.
Definition ruleItemProcessName : N := 11.
Definition ruleItemProcessPath : N := 12.
Definition ruleItemPackageName : N := 13.
Definition ruleItemWIFISSID : N := 14.
Definition ruleItemWIFIBSSID : N := 15.
Definition ruleItemAdGuardDomain : N := 16.
Definition ruleItemProcessPathRegex : N := 17.
Definition ruleItemNetworkType : N := 18.
Definition ruleItemNetworkIsExpensive : N := 19.
Definition ruleItemNetworkIsConstrained : N := 20.
Definition ruleItemNetworkInterfaceAddress : N := 21.
Definition ruleItemDefaultInterfaceAddress : N := 22.
Definition ruleItemFinal : N := 255.

(** ** Reading *)

(** A loop that needs more fuel than it has; see [SRSTotal]. *)
Definition out_of_fuel : string := "out of fuel".

(** [for i := uint64(0); i < length; i++]; an element has at least a byte. *)
Fixpoint read_n_go {A} (fuel : nat) (read : N -> Reader -> result (A * Reader)) (i length : N) (r : Reader)
  : result (list A * Reader) :=
  if (length <=? i)%N then Ok ([], r)
  else match fuel with
    | O => Panic out_of_fuel
    | S f =>
        let! (x, r) := read i r in
        let! (l, r) := read_n_go f read (i + 1) length r in
        Ok (x :: l, r)
    end.
Definition read_n {A} (read : N -> Reader -> result (A * Reader)) (length : N) (r : Reader) : result (list A * Reader) :=
  read_n_go (S (String.length (rd_data r))) read 0 length r.

Definition readPrefix (r : Reader) : result (Prefix * Reader) :=
  let! (addrSlice, r) := decode varbin_bytes r in
  let! (prefixBits, r) := varbin_ReadUint8 r in
  Ok (PrefixFrom (M_AddrFromIP addrSlice) (Z.of_N prefixBits), r).

Definition make_panic : string := "runtime error: makeslice: len out of range".

Definition readIPSet (r : Reader) : result (IPSet * Reader) :=
  let! (version, r) := ReadByte r in
  if negb (version =? 1)%N then Err ErrInvalid
  else
    let! (length, r) := ReadUint64 r in
    if (max_ranges <? length)%N then Panic make_panic
    else
      let! (ranges, r) := varbin_ReadRanges length r in
      Ok (IPSet_of_rr (map (fun d => (M_AddrFromIP (fst d), M_AddrFromIP (snd d))) ranges), r).

(** The lists of prefixes of [NetworkInterfaceAddress] and [DefaultInterfaceAddress]. *)
Definition readPrefixes (r : Reader) : result (list Prefixable * Reader) :=
  let! (prefixCount, r) := ReadUvarint r in
  read_n (fun _ r => let! (prefix, r) := readPrefix r in Ok (Prefixable_of prefix, r)) prefixCount r.

Definition readInterfaceAddresses (r : Reader) : result (list (N * list Prefixable) * Reader) :=
  let! (size, r) := ReadUvarint r in
  let! (entries, r) := read_n (fun _ r =>
    let! (key, r) := ReadByte r in
    let! (value, r) := readPrefixes r in
    Ok ((key, value), r)) size r in
  Ok (foldl (fun m e => TypedMap_Put (fst e) (snd e) m) [] entries, r).

(** Assigns what is read. *)
Definition assign {A} (set : A -> opt_DefaultHeadlessRule -> opt_DefaultHeadlessRule) (rule : opt_DefaultHeadlessRule)
  (p : result (A * Reader)) : result (opt_DefaultHeadlessRule * Reader) :=
  let! (v, r) := p in Ok (set v rule, r).
Definition set_domain (recover : bool) (matcher : DomainMatcher) (rule : opt_DefaultHeadlessRule) : opt_DefaultHeadlessRule :=
  let rule := set_ho_DomainMatcher (Some matcher) rule in
  if recover then set_ho_DomainSuffix (snd (Matcher_Dump matcher)) (set_ho_Domain (fst (Matcher_Dump matcher)) rule)
  else rule.
Definition set_sourceIPSet (recover : bool) (s : IPSet) (rule : opt_DefaultHeadlessRule) : opt_DefaultHeadlessRule :=
  let rule := set_ho_SourceIPSet (Some s) rule in
  if recover then set_ho_SourceIPCIDR (map Prefix_String (IPSet_Prefixes s)) rule else rule.
Definition set_IPSet (recover : bool) (s : IPSet) (rule : opt_DefaultHeadlessRule) : opt_DefaultHeadlessRule :=
  let rule := set_ho_IPSet (Some s) rule in
  if recover then set_ho_IPCIDR (map Prefix_String (IPSet_Prefixes s)) rule else rule.
Definition set_adGuardDomain (recover : bool) (matcher : AdGuardMatcher) (rule : opt_DefaultHeadlessRule) : opt_DefaultHeadlessRule :=
  let rule := set_ho_AdGuardDomainMatcher (Some matcher) rule in
  if recover then set_ho_AdGuardDomain (AdGuardMatcher_Dump matcher) rule else rule.

Definition readRuleItemString : Reader -> result (list string * Reader) := decode varbin_strings.
Definition readRuleItemUint8 : Reader -> result (list N * Reader) := decode varbin_uint8s.
Definition readRuleItemUint16 : Reader -> result (list N * Reader) := decode varbin_uint16s.

(** The [switch] of [readDefaultRule] but for the last item. *)
Definition readItem (recover : bool) (lastItemType itemType : N) (rule : opt_DefaultHeadlessRule) (r : Reader)
  : result (opt_DefaultHeadlessRule * Reader) :=
  if (itemType =? ruleItemQueryType)%N then assign set_ho_QueryType rule (readRuleItemUint16 r)
  else if (itemType =? ruleItemNetwork)%N then assign set_ho_Network rule (readRuleItemString r)
  else if (itemType =? ruleItemDomain)%N then assign (set_domain recover) rule (decode domain_Matcher r)
  else if (itemType =? ruleItemDomainKeyword)%N then assign set_ho_DomainKeyword rule (readRuleItemString r)
  else if (itemType =? ruleItemDomainRegex)%N then assign set_ho_DomainRegex rule (readRuleItemString r)
  else if (itemType =? ruleItemSourceIPCIDR)%N then assign (set_sourceIPSet recover) rule (readIPSet r)
  else if (itemType =? ruleItemIPCIDR)%N then assign (set_IPSet recover) rule (readIPSet r)
  else if (itemType =? ruleItemSourcePort)%N then assign set_ho_SourcePort rule (readRuleItemUint16 r)
  else if (itemType =? ruleItemSourcePortRange)%N then assign set_ho_SourcePortRange rule (readRuleItemString r)
  else if (itemType =? ruleItemPort)%N then assign set_ho_Port rule (readRuleItemUint16 r)
  else if (itemType =? ruleItemPortRange)%N then assign set_ho_PortRange rule (readRuleItemString r)
  else if (itemType =? ruleItemProcessName)%N then assign set_ho_ProcessName rule (readRuleItemString r)
  else if (itemType =? ruleItemProcessPath)%N then assign set_ho_ProcessPath rule (readRuleItemString r)
  else if (itemType =? ruleItemProcessPathRegex)%N then assign set_ho_ProcessPathRegex rule (readRuleItemString r)
  else if (itemType =? ruleItemPackageName)%N then assign set_ho_PackageName rule (readRuleItemString r)
  else if (itemType =? ruleItemWIFISSID)%N then assign set_ho_WIFISSID rule (readRuleItemString r)
  else if (itemType =? ruleItemWIFIBSSID)%N then assign set_ho_WIFIBSSID rule (readRuleItemString r)
  else if (itemType =? ruleItemAdGuardDomain)%N then
    assign (set_adGuardDomain recover) rule (decode domain_AdGuardMatcher r)
  else if (itemType =? ruleItemNetworkType)%N then assign set_ho_NetworkType rule (readRuleItemUint8 r)
  else if (itemType =? ruleItemNetworkIsExpensive)%N then Ok (set_ho_NetworkIsExpensive true rule, r)
  else if (itemType =? ruleItemNetworkIsConstrained)%N then Ok (set_ho_NetworkIsConstrained true rule, r)
  else if (itemType =? ruleItemNetworkInterfaceAddress)%N then
    assign (fun m => set_ho_NetworkInterfaceAddress (Some m)) rule (readInterfaceAddresses r)
  else if (itemType =? ruleItemDefaultInterfaceAddress)%N then
    assign set_ho_DefaultInterfaceAddress rule (readPrefixes r)
  else Err (ENew ("unknown rule item type: " +:+ format_uint itemType +:+ ", last type: " +:+ format_uint lastItemType)).

Fixpoint readDefaultRule_go (fuel : nat) (recover : bool) (lastItemType : N) (rule : opt_DefaultHeadlessRule) (r : Reader)
  : result (opt_DefaultHeadlessRule * Reader) :=
  match fuel with
  | O => Panic out_of_fuel
  | S f =>
      let! (itemType, r) := ReadByte r in
      if (itemType =? ruleItemFinal)%N then assign set_ho_Invert rule (ReadBool r)
      else
        let! (rule, r) := readItem recover lastItemType itemType rule r in
        readDefaultRule_go f recover itemType rule r
  end.
Definition readDefaultRule (recover : bool) (r : Reader) : result (opt_DefaultHeadlessRule * Reader) :=
  readDefaultRule_go (S (String.length (rd_data r))) recover 0 opt_DefaultHeadlessRule_zero r.

Definition opt_Logical_zero : opt_Logical opt_HeadlessRule := mkOptLogical "" [] false.

(** [make([]option.HeadlessRule, length)] and the loop that fills it. *)
Definition readRules (readRule : Reader -> result (opt_HeadlessRule * Reader)) (what : string) (length : N) (r : Reader)
  : result (list opt_HeadlessRule * Reader) :=
  if (max_rules <? length)%N then Panic make_panic
  else read_n (fun i r => with_cause (what +:+ "[" +:+ format_uint i +:+ "]") (readRule r)) length r.

Definition readLogicalRule (readRule : Reader -> result (opt_HeadlessRule * Reader)) (r : Reader)
  : result (opt_Logical opt_HeadlessRule * Reader) :=
  let! (mode, r) := ReadByte r in
  let! mode :=
    if (mode =? 0)%N then Ok LogicalTypeAnd
    else if (mode =? 1)%N then Ok LogicalTypeOr
    else Err (ENew ("unknown logical mode: " +:+ format_uint mode)) in
  let! (length, r) := ReadUvarint r in
  let! (rules, r) := readRules readRule "read logical rule " length r in
  let! (invert, r) := ReadBool r in
  Ok (mkOptLogical mode rules invert, r).

(** [fuel] bounds the nesting. *)
Fixpoint readRule (fuel : nat) (recover : bool) (r : Reader) : result (opt_HeadlessRule * Reader) :=
  match fuel with
  | O => Panic out_of_fuel
  | S f =>
      let! (ruleType, r) := ReadByte r in
      if (ruleType =? 0)%N then
        let! (d, r) := readDefaultRule recover r in
        Ok (mkOptHeadlessRule RuleTypeDefault d opt_Logical_zero, r)
      else if (ruleType =? 1)%N then
        let! (l, r) := readLogicalRule (readRule f recover) r in
        Ok (mkOptHeadlessRule RuleTypeLogical opt_DefaultHeadlessRule_zero l, r)
      else Err (ENew ("unknown rule type: " +:+ format_uint ruleType))
  end.

Definition MagicBytes : string := "SRS".
Definition RuleSetVersion1 : N := 1.
Definition RuleSetVersion2 : N := 2.
Definition RuleSetVersion3 : N := 3.
Definition RuleSetVersion4 : N := 4.
Definition RuleSetVersionCurrent : N := RuleSetVersion4.

Definition Read (file : Reader) (recover : bool) : result PlainRuleSetCompat :=
  let! (magicBytes, file) := ReadFull 3 file in
  if negb (bool_decide (magicBytes = MagicBytes)) then Err (ENew "invalid sing-box rule-set file")
  else
    let! (version, file) := ReadByte file in
    if (RuleSetVersionCurrent <? version)%N then Err (ENew ("unsupported version: " +:+ format_uint version))
    else
      let! bReader := zlib_NewReader file in
      let! (length, bReader) := ReadUvarint bReader in
      let! (rules, _) := readRules (readRule (S (String.length (rd_data bReader))) recover) "read rule" length bReader in
      Ok (mkPlainRuleSetCompat version rules).

(** ** Writing *)

(** One write after the other, up to the first error. *)
Definition writes (l : list (result string)) : result string :=
  foldr (fun a b => let! x := a in let! y := b in Ok (x +:+ y)) (Ok "") l.
Definition write_if (cond : bool) (w : result string) : result string := if cond then w else Ok "".
(** Items a version does not have. *)
Definition since (minimum generateVersion : N) (msg : string) (w : result string) : result string :=
  if (generateVersion <? minimum)%N then Err (ENew msg) else w.
Definition write_bool (b : bool) : string := byte (if b then 1 else 0).

Definition writePrefix (prefix : Prefix) : string :=
  encode varbin_bytes (Addr_AsSlice (pfx_ip prefix)) +:+ byte (Z.to_N (pfx_bits prefix mod 256)).

Definition writeIPSet (set : IPSet) : string :=
  let dataList := map (fun rr => (Addr_AsSlice (fst rr), Addr_AsSlice (snd rr))) (IPSet_rr set) in
  byte 1 +:+ be_bytes 8 (N.of_nat (length dataList)) +:+ str_concat (map varbin_WriteRange dataList).

Definition writeRuleItemString (itemType : N) (value : list string) : string :=
  byte itemType +:+ encode varbin_strings value.
Definition writeRuleItemUint8 (itemType : N) (value : list N) : string :=
  byte itemType +:+ encode varbin_uint8s value.
Definition writeRuleItemUint16 (itemType : N) (value : list N) : string :=
  byte itemType +:+ encode varbin_uint16s value.
Definition writeRuleItemCIDR (itemType : N) (value : list string) : result string :=
  let! ops := parse_cidrs 0 value in
  let! ipSet := IPSetBuilder_IPSet ops in
  Ok (byte itemType +:+ writeIPSet ipSet).

Definition writePrefixes (value : list Prefixable) : string :=
  varbin_WriteUvarint (N.of_nat (length value)) +:+
  str_concat (map (fun rawPrefix => writePrefix (Prefixable_Build (Some rawPrefix) Prefix_zero)) value).
Definition writeInterfaceAddresses (entries : list (N * list Prefixable)) : string :=
  varbin_WriteUvarint (N.of_nat (length entries)) +:+
  str_concat (map (fun entry => byte (fst entry) +:+ writePrefixes (snd entry)) entries).

Definition msg_only (item : string) (version : N) : string :=
  "`" +:+ item +:+ "` rule item is only supported in version " +:+ format_uint version +:+ " or later".

(** The items of a default rule, in the order they are written. *)
Definition write_items_conn (rule : opt_DefaultHeadlessRule) (generateVersion : N) : list (result string) := [
    write_if (nonempty (ho_QueryType rule)) (Ok (writeRuleItemUint16 ruleItemQueryType (ho_QueryType rule)));
    write_if (nonempty (ho_Network rule)) (Ok (writeRuleItemString ruleItemNetwork (ho_Network rule)));
    write_if (nonempty (ho_Domain rule) || nonempty (ho_DomainSuffix rule))
      (Ok (byte ruleItemDomain +:+ encode domain_Matcher
         (NewMatcher (ho_Domain rule) (ho_DomainSuffix rule) (generateVersion =? RuleSetVersion1)%N)));
    write_if (nonempty (ho_DomainKeyword rule)) (Ok (writeRuleItemString ruleItemDomainKeyword (ho_DomainKeyword rule)));
    write_if (nonempty (ho_DomainRegex rule)) (Ok (writeRuleItemString ruleItemDomainRegex (ho_DomainRegex rule)));
    write_if (nonempty (ho_SourceIPCIDR rule))
      (with_cause "source_ip_cidr" (writeRuleItemCIDR ruleItemSourceIPCIDR (ho_SourceIPCIDR rule)));
    write_if (nonempty (ho_IPCIDR rule)) (with_cause "ipcidr" (writeRuleItemCIDR ruleItemIPCIDR (ho_IPCIDR rule)));
    write_if (nonempty (ho_SourcePort rule)) (Ok (writeRuleItemUint16 ruleItemSourcePort (ho_SourcePort rule)));
    write_if (nonempty (ho_SourcePortRange rule))
      (Ok (writeRuleItemString ruleItemSourcePortRange (ho_SourcePortRange rule)));
    write_if (nonempty (ho_Port rule)) (Ok (writeRuleItemUint16 ruleItemPort (ho_Port rule)));
    write_if (nonempty (ho_PortRange rule)) (Ok (writeRuleItemString ruleItemPortRange (ho_PortRange rule)));
    write_if (nonempty (ho_ProcessName rule)) (Ok (writeRuleItemString ruleItemProcessName (ho_ProcessName rule)));
    write_if (nonempty (ho_ProcessPath rule)) (Ok (writeRuleItemString ruleItemProcessPath (ho_ProcessPath rule)));
    write_if (nonempty (ho_ProcessPathRegex rule))
      (Ok (writeRuleItemString ruleItemProcessPathRegex (ho_ProcessPathRegex rule)));
    write_if (nonempty (ho_PackageName rule)) (Ok (writeRuleItemString ruleItemPackageName (ho_PackageName rule)))].
Definition write_items_env (rule : opt_DefaultHeadlessRule) (generateVersion : N) : list (result string) := [
    write_if (nonempty (ho_NetworkType rule)) (since RuleSetVersion3 generateVersion (msg_only "network_type" 3)
      (Ok (writeRuleItemUint8 ruleItemNetworkType (ho_NetworkType rule))));
    write_if (ho_NetworkIsExpensive rule) (since RuleSetVersion3 generateVersion (msg_only "network_is_expensive" 3)
      (Ok (byte ruleItemNetworkIsExpensive)));
    write_if (ho_NetworkIsConstrained rule) (since RuleSetVersion3 generateVersion (msg_only "network_is_constrained" 3)
      (Ok (byte ruleItemNetworkIsConstrained)));
    write_if (map_present (ho_NetworkInterfaceAddress rule))
      (since RuleSetVersion4 generateVersion (msg_only "network_interface_address" 4)
        (Ok (byte ruleItemNetworkInterfaceAddress +:+ writeInterfaceAddresses (default [] (ho_NetworkInterfaceAddress rule)))));
    write_if (nonempty (ho_DefaultInterfaceAddress rule))
      (since RuleSetVersion4 generateVersion (msg_only "default_interface_address" 4)
        (Ok (byte ruleItemDefaultInterfaceAddress +:+ writePrefixes (ho_DefaultInterfaceAddress rule))));
    write_if (nonempty (ho_WIFISSID rule)) (Ok (writeRuleItemString ruleItemWIFISSID (ho_WIFISSID rule)));
    write_if (nonempty (ho_WIFIBSSID rule)) (Ok (writeRuleItemString ruleItemWIFIBSSID (ho_WIFIBSSID rule)));
    write_if (nonempty (ho_AdGuardDomain rule))
      (since RuleSetVersion2 generateVersion "AdGuard rule items is only supported in version 2 or later"
        (Ok (byte ruleItemAdGuardDomain +:+ encode domain_AdGuardMatcher (NewAdGuardMatcher (ho_AdGuardDomain rule)))))].
Definition write_items (rule : opt_DefaultHeadlessRule) (generateVersion : N) : list (result string) :=
  (write_items_conn rule generateVersion ++ write_items_env rule generateVersion)%list.
Definition writeDefaultRule (rule : opt_DefaultHeadlessRule) (generateVersion : N) : result string :=
  writes (Ok (byte 0) :: write_items rule generateVersion ++ [Ok (byte ruleItemFinal); Ok (write_bool (ho_Invert rule))])%list.

Definition write_mode (mode : string) : result string :=
  if bool_decide (mode = LogicalTypeAnd) then Ok (byte 0)
  else if bool_decide (mode = LogicalTypeOr) then Ok (byte 1)
  else Panic ("unknown logical mode: " +:+ mode).

Definition writeLogicalRule (writeRule : opt_HeadlessRule -> result string) (logicalRule : opt_Logical opt_HeadlessRule)
  : result string :=
  writes [
    Ok (byte 1);
    write_mode (lo_Mode logicalRule);
    Ok (varbin_WriteUvarint (N.of_nat (length (lo_Rules logicalRule))));
    writes (map writeRule (lo_Rules logicalRule));
    Ok (write_bool (lo_Invert logicalRule))].
Fixpoint writeRule (generateVersion : N) (rule : opt_HeadlessRule) : result string :=
  match rule with
  | mkOptHeadlessRule ty defaultOptions logicalOptions =>
      if bool_decide (ty = RuleTypeDefault) then writeDefaultRule defaultOptions generateVersion
      else if bool_decide (ty = RuleTypeLogical) then writeLogicalRule (writeRule generateVersion) logicalOptions
      else Panic ("unknown rule type: " +:+ ty)
  end.

Definition Write (rules : list opt_HeadlessRule) (generateVersion : N) : result string :=
  let! body := writes [
    Ok (varbin_WriteUvarint (N.of_nat (length rules)));
    writes (map (writeRule generateVersion) rules)] in
  Ok (MagicBytes +:+ byte generateVersion +:+ zlib_Compress body).

(** ** Compiling (cmd_rule_set_compile.go) *)

Definition downgradeRuleSetVersion (version : N) (rules : list opt_HeadlessRule) : N :=
  let version :=
    if (version =? RuleSetVersion4)%N && negb (HasHeadlessRule rules (fun rule =>
         map_present (ho_NetworkInterfaceAddress rule) || nonempty (ho_DefaultInterfaceAddress rule)))
    then RuleSetVersion3 else version in
  if (version =? RuleSetVersion3)%N && negb (HasHeadlessRule rules (fun rule =>
       nonempty (ho_NetworkType rule) || ho_NetworkIsExpensive rule || ho_NetworkIsConstrained rule))
  then RuleSetVersion2 else version.

(** [compileRuleSet] from the content of the source to that of the output. *)
Definition compileRuleSet (dec : Decoders) (content : string) : result string :=
  let! plainRuleSet := dec_json dec content in
  Write (prc_Rules plainRuleSet) (downgradeRuleSetVersion (prc_Version plainRuleSet) (prc_Rules plainRuleSet)).
End SRS.
