(* ===== verification/SRSLaws.v ===== *)
(** * SRSLaws: what is written to a binary rule-set is read back *)

From S2P Require Import Prelude GoStd NetIP Metadata RuleItems RuleMatch RuleAction RuleOptions RuleBuild RuleSet RuleLaws.
From S2P Require Import FakeIP FakeIPLaws FakeIPCodec GoIO Groups GroupLaws CacheFile CacheFileLaws CacheFileFakeIP SRS.
Open Scope string_scope.

(** ** Varints *)

Lemma lor_shiftl x b s : (x < 2 ^ s)%N -> N.lor x (N.shiftl b s) = (x + b * 2 ^ s)%N.
Proof.
  intros H. rewrite <- N.lxor_lor, <- N.add_nocarry_lxor; rewrite ?N.shiftl_mul_pow2; try done.
  all: rewrite <- N.shiftl_mul_pow2; apply N.bits_inj; intros i; rewrite N.land_spec, N.bits_0.
  all: destruct (N.lt_ge_cases i s); [by rewrite N.shiftl_spec_low, andb_false_r|].
  all: rewrite <- (N.mod_small x (2 ^ s)), N.mod_pow2_bits_high; done.
Qed.

Lemma ReadByte_byte v s e : ReadByte (mkReader (byte v +:+ s) e) = Ok ((v mod 256)%N, mkReader s e).
Proof.
  unfold byte. change (String ?c "" +:+ s) with (String c s). unfold ReadByte. cbn [rd_data].
  by rewrite byte_val_of.
Qed.

Lemma uvarint_step k y : (128 <= y)%N -> (y < 128 ^ N.of_nat (S k))%N -> (y / 128 < 128 ^ N.of_nat k)%N.
Proof. intros _ H. rewrite Nat2N.inj_succ, N.pow_succ_r' in H. apply N.Div0.div_lt_upper_bound. lia. Qed.

Lemma PutUvarint_go_S k x : PutUvarint_go (S k) x =
  if (x <? 128)%N then byte x else String (byte_of (x mod 128 + 128)) (PutUvarint_go k (x / 128)).
Proof. done. Qed.
Lemma ReadUvarint_go_S k first x s r : ReadUvarint_go (S k) first x s r =
  match ReadByte r with
  | Err e => Err (if first then e else unexpected e)
  | Panic m => Panic m
  | Ok (b, r) =>
      if (b <? 128)%N then
        if bool_decide (k = 0%nat) && (1 <? b)%N then Err errOverflow
        else Ok (N.lor x (N.shiftl b s mod 2 ^ 64), r)
      else ReadUvarint_go k false (N.lor x (N.shiftl (N.land b 127) s mod 2 ^ 64)) (s + 7) r
  end.
Proof. done. Qed.

(** After [s] bits of a number below [2 ^ 64]. *)
Lemma ReadUvarint_go_put k : forall first x s y rest e,
  (x < 2 ^ s)%N -> (s + 7 * N.of_nat (S k) = 70)%N -> (y < 128 ^ N.of_nat (S k))%N -> (x + y * 2 ^ s < 2 ^ 64)%N ->
  ReadUvarint_go (S k) first x s (mkReader (PutUvarint_go (S k) y +:+ rest) e) = Ok ((x + y * 2 ^ s)%N, mkReader rest e).
Proof.
  induction k as [|k IH]; intros first x s y rest e Hx Hs Hy Hb; rewrite PutUvarint_go_S, ReadUvarint_go_S;
    destruct (N.ltb_spec y 128) as [H|H].
  1,3: rewrite ReadByte_byte, N.mod_small by lia;
    destruct (N.ltb_spec y 128); [|lia].
  - assert (s = 63)%N as -> by lia. rewrite bool_decide_eq_true_2 by done. cbn [andb].
    destruct (N.ltb_spec 1 y); [exfalso; cbn in Hb; lia|].
    rewrite N.mod_small by (rewrite N.shiftl_mul_pow2; cbn in *; lia). by rewrite lor_shiftl.
  - rewrite bool_decide_eq_false_2 by done. cbn [andb].
    rewrite N.mod_small by (rewrite N.shiftl_mul_pow2; lia). by rewrite lor_shiftl.
  - exfalso. cbn in Hy. lia.
  - change (String ?c ?t +:+ rest) with (String c (t +:+ rest)). unfold ReadByte. cbn [rd_data set_data rd_end].
    rewrite byte_val_of. pose proof (N.mod_lt y 128 ltac:(lia)) as Hm. pose proof (N.div_mod y 128 ltac:(lia)) as Ed.
    pose proof (uvarint_step _ _ H Hy) as Hq.
    generalize dependent (y / 128)%N. generalize dependent (y mod 128)%N. intros m Hm q Ed Hq.
    rewrite (N.mod_small (m + 128)) by lia. destruct (N.ltb_spec (m + 128) 128) as [?|_]; [lia|].
    assert (N.land (m + 128) 127 = m)%N as ->.
    { change 127%N with (N.ones 7). rewrite N.land_ones. change (2 ^ 7)%N with 128%N.
      replace (m + 128)%N with (m + 1 * 128)%N by lia. by rewrite N.Div0.mod_add, N.mod_small. }
    assert (x + m * 2 ^ s < 2 ^ (s + 7))%N as Hx'.
    { rewrite N.pow_add_r. change (2 ^ 7)%N with 128%N. nia. }
    assert (m * 2 ^ s < 2 ^ 64)%N by (clear - Hb Ed; nia).
    rewrite (N.mod_small (N.shiftl m s)) by (by rewrite N.shiftl_mul_pow2). rewrite lor_shiftl by done. unfold set_data. cbn [rd_end].
    assert (y * 2 ^ s = m * 2 ^ s + q * 2 ^ (s + 7))%N as Ey.
    { rewrite N.pow_add_r. change (2 ^ 7)%N with 128%N. rewrite Ed. lia. }
    rewrite IH; [do 2 f_equal; lia|done|lia|done|lia].
Qed.
Lemma ReadUvarint_put n rest e : (n < 2 ^ 64)%N -> ReadUvarint (mkReader (PutUvarint n +:+ rest) e) = Ok (n, mkReader rest e).
Proof.
  intros H. unfold ReadUvarint, PutUvarint. rewrite ReadUvarint_go_put; [f_equal; f_equal; lia|done|done| |lia].
  eapply N.lt_trans; [exact H|]. done.
Qed.

(** ** What the code relies on *)

(** Slices and strings have a length that is an [int]. *)
Definition short {A} (l : list A) : Prop := (N.of_nat (length l) < 2 ^ 63)%N.
Definition short_string (s : string) : Prop := (N.of_nat (String.length s) < 2 ^ 63)%N.
Definition short_strings (l : list string) : Prop := short l /\ Forall short_string l.
Definition uints (bound : N) (l : list N) : Prop := short l /\ Forall (fun v => v < bound)%N l.

(** Values that satisfy [P] are read as they were written, and what follows is left. *)
Definition codec_law {A} (c : Codec A) (P : A -> Prop) : Prop :=
  forall v rest e, P v -> decode c (mkReader (encode c v +:+ rest) e) = Ok (v, mkReader rest e).

Class SRSLaws `{SL : SRSLibrary} : Prop := {
  zlib_law s : zlib_NewReader (mkReader (zlib_Compress s) io_EOF) = Ok (mkReader s io_EOF);
  WriteUvarint_law n : (n < 2 ^ 64)%N -> varbin_WriteUvarint n = PutUvarint n;
  strings_law : codec_law varbin_strings short_strings;
  uint8s_law : codec_law varbin_uint8s (uints 256);
  uint16s_law : codec_law varbin_uint16s (uints 65536);
  bytes_law : codec_law varbin_bytes short_string;
  ReadUint8_law c s e : varbin_ReadUint8 (mkReader (String c s) e) = Ok (byte_val c, mkReader s e);
  ranges_law l rest e : short l -> Forall (fun d => short_string (fst d) /\ short_string (snd d)) l ->
    varbin_ReadRanges (N.of_nat (length l)) (mkReader (str_concat (map varbin_WriteRange l) +:+ rest) e) =
    Ok (l, mkReader rest e);
  matcher_law : codec_law domain_Matcher (fun _ => True);
  adguard_law : codec_law domain_AdGuardMatcher (fun _ => True);
  rr_law s : IPSet_of_rr (IPSet_rr s) = s;
  Prefixable_law p d : Prefixable_of (Prefixable_Build (Some p) d) = p;
  Put_law k v m : k ∉ map fst m -> TypedMap_Put k v m = (m ++ [(k, v)])%list
}.

Section Laws.
Context {X : Externals} {SL : SRSLibrary} {SW : SRSLaws} {CL : CacheLibrary} {AL : AddressLaws}.

(** ** What can be written *)

(** The set of a list of CIDRs. *)
Definition ipset_of (l : list string) : option IPSet :=
  if nonempty l then match parse_cidrs 0 l ≫= IPSetBuilder_IPSet with Ok s => Some s | _ => None end else None.
Definition ipset_writable (s : IPSet) : Prop :=
  Forall (fun rr => encodable (fst rr) /\ encodable (snd rr)) (IPSet_rr s) /\ short (IPSet_rr s) /\
  (N.of_nat (length (IPSet_rr s)) <= max_ranges)%N.
Definition cidrs_writable (l : list string) : Prop := forall s, ipset_of l = Some s -> ipset_writable s.
Definition prefix_writable (p : Prefix) : Prop :=
  encodable (pfx_ip p) /\ (0 <= pfx_bits p <= Addr_BitLen (pfx_ip p))%Z.
Definition prefixes_writable (l : list Prefixable) : Prop :=
  short l /\ Forall (fun p => prefix_writable (Prefixable_Build (Some p) Prefix_zero)) l.

Record default_writable (o : opt_DefaultHeadlessRule) : Prop := DefaultWritable {
  dw_strings : Forall short_strings
    [ho_Network o; ho_DomainKeyword o; ho_DomainRegex o; ho_SourcePortRange o; ho_PortRange o; ho_ProcessName o;
     ho_ProcessPath o; ho_ProcessPathRegex o; ho_PackageName o; ho_WIFISSID o; ho_WIFIBSSID o];
  dw_uint16s : Forall (uints 65536) [ho_QueryType o; ho_SourcePort o; ho_Port o];
  dw_uint8s : uints 256 (ho_NetworkType o);
  dw_source : cidrs_writable (ho_SourceIPCIDR o);
  dw_cidrs : cidrs_writable (ho_IPCIDR o);
  dw_default : prefixes_writable (ho_DefaultInterfaceAddress o);
  dw_addresses : let m := default [] (ho_NetworkInterfaceAddress o) in
    short m /\ NoDup (map fst m) /\ Forall (fun e => (fst e < 256)%N /\ prefixes_writable (snd e)) m
}.

(** ** What is read *)

(** A rule that is written and read: the domains, the CIDRs and the AdGuard rules have become
    matchers and sets, whose contents are listed when they are to be recovered; the tunnel conditions are lost. *)
Definition domain_matcher (v : N) (o : opt_DefaultHeadlessRule) : option DomainMatcher :=
  if nonempty (ho_Domain o) || nonempty (ho_DomainSuffix o)
  then Some (NewMatcher (ho_Domain o) (ho_DomainSuffix o) (v =? RuleSetVersion1)%N) else None.
Definition adguard_matcher (o : opt_DefaultHeadlessRule) : option AdGuardMatcher :=
  if nonempty (ho_AdGuardDomain o) then Some (NewAdGuardMatcher (ho_AdGuardDomain o)) else None.
Definition recovered {A B} (recover : bool) (f : A -> list B) (o : option A) : list B :=
  if recover then match o with Some a => f a | None => [] end else [].
Definition compiled (recover : bool) (v : N) (o : opt_DefaultHeadlessRule) : opt_DefaultHeadlessRule :=
  mkOptDefaultHeadlessRule (ho_QueryType o) (ho_Network o)
    (recovered recover (fun m => fst (Matcher_Dump m)) (domain_matcher v o))
    (recovered recover (fun m => snd (Matcher_Dump m)) (domain_matcher v o))
    (ho_DomainKeyword o) (ho_DomainRegex o)
    (recovered recover (fun s => map Prefix_String (IPSet_Prefixes s)) (ipset_of (ho_SourceIPCIDR o)))
    (recovered recover (fun s => map Prefix_String (IPSet_Prefixes s)) (ipset_of (ho_IPCIDR o)))
    (ho_SourcePort o) (ho_SourcePortRange o) (ho_Port o) (ho_PortRange o) (ho_ProcessName o) (ho_ProcessPath o)
    (ho_ProcessPathRegex o) (ho_PackageName o) (ho_NetworkType o) (ho_NetworkIsExpensive o) (ho_NetworkIsConstrained o)
    (ho_WIFISSID o) (ho_WIFIBSSID o) (ho_Invert o) (domain_matcher v o) (ipset_of (ho_SourceIPCIDR o))
    (ipset_of (ho_IPCIDR o)) (recovered recover AdGuardMatcher_Dump (adguard_matcher o)) (adguard_matcher o) [] []
    (if map_present (ho_NetworkInterfaceAddress o) then ho_NetworkInterfaceAddress o else None)
    (ho_DefaultInterfaceAddress o).

(** ** Values *)

Lemma codec_read {A} (c : Codec A) P v rest e : codec_law c P -> P v ->
  decode c (mkReader (encode c v +:+ rest) e) = Ok (v, mkReader rest e).
Proof. intros H Hv. by apply H. Qed.

Lemma short_uvarint {A} (l : list A) rest e : short l ->
  ReadUvarint (mkReader (varbin_WriteUvarint (N.of_nat (length l)) +:+ rest) e) = Ok (N.of_nat (length l), mkReader rest e).
Proof.
  unfold short. intros H. assert (N.of_nat (length l) < 2 ^ 64)%N by (eapply N.lt_trans; [exact H|done]).
  by rewrite WriteUvarint_law, ReadUvarint_put.
Qed.

Lemma AsSlice_short a : encodable a -> short_string (Addr_AsSlice a).
Proof. intros H. unfold short_string. rewrite AsSlice_length by done. by destruct (Addr_Is4 a). Qed.

Lemma readPrefix_write p rest e : prefix_writable p ->
  readPrefix (mkReader (writePrefix p +:+ rest) e) = Ok (p, mkReader rest e).
Proof.
  intros [He Hb]. unfold readPrefix, writePrefix. rewrite str_app_assoc.
  rewrite (codec_read varbin_bytes _ _ _ _ bytes_law) by by apply AsSlice_short.
  cbn [mbind result_bind]. change (byte ?v +:+ rest) with (String (byte_of v) rest).
  rewrite ReadUint8_law. cbn [mbind result_bind]. rewrite byte_val_of, AddrFromIP_AsSlice by done.
  destruct p as [a b]. cbn [pfx_ip pfx_bits] in *.
  assert (b < 256)%Z by (destruct a; simpl in Hb; lia).
  rewrite Z.mod_small by lia. rewrite N.mod_small by lia. rewrite Z2N.id by lia. unfold PrefixFrom.
  rewrite encodable_valid by done. cbn [andb].
  destruct (Z.leb_spec 0 b); [|lia]. destruct (Z.leb_spec b (Addr_BitLen a)); [|lia]. cbn [andb].
  do 3 f_equal. destruct a as [|?|? zone]; try done. simpl. by destruct He as [-> _].
Qed.

(** A counted loop reads what was written one after the other. *)
Lemma read_n_go_write {A B} (read : N -> Reader -> result (A * Reader)) (write : B -> string) (val : B -> A) e rest l :
  Forall (fun x => forall i rest, read i (mkReader (write x +:+ rest) e) = Ok (val x, mkReader rest e)) l ->
  forall fuel i, (length l <= fuel)%nat ->
  read_n_go fuel read i (i + N.of_nat (length l)) (mkReader (str_concat (map write l) +:+ rest) e) =
  Ok (map val l, mkReader rest e).
Proof.
  induction 1 as [|x l Hx Hl IH]; intros fuel i Hf.
  - rewrite N.add_0_r. destruct fuel; cbn [read_n_go]; by rewrite N.leb_refl.
  - destruct fuel as [|fuel]; [simpl in Hf; lia|]. cbn [length map read_n_go] in *.
    destruct (N.leb_spec (i + N.of_nat (S (length l))) i); [lia|].
    change (str_concat (write x :: ?t)) with (write x +:+ str_concat t). rewrite str_app_assoc, Hx. cbn [mbind result_bind].
    replace (i + N.of_nat (S (length l)))%N with (i + 1 + N.of_nat (length l))%N by lia. by rewrite IH by lia.
Qed.
Lemma concat_length {B} (write : B -> string) l :
  Forall (fun x => 0 < String.length (write x))%nat l -> (length l <= String.length (str_concat (map write l)))%nat.
Proof.
  induction 1 as [|x l Hx Hl IH]; [done|]. cbn [length map].
  change (str_concat (write x :: ?t)) with (write x +:+ str_concat t). rewrite str_length_app. lia.
Qed.
Lemma read_n_write {A B} (read : N -> Reader -> result (A * Reader)) (write : B -> string) (val : B -> A) e rest l :
  Forall (fun x => 0 < String.length (write x))%nat l ->
  Forall (fun x => forall i rest, read i (mkReader (write x +:+ rest) e) = Ok (val x, mkReader rest e)) l ->
  read_n read (N.of_nat (length l)) (mkReader (str_concat (map write l) +:+ rest) e) = Ok (map val l, mkReader rest e).
Proof.
  intros Hw Hr. unfold read_n. apply (read_n_go_write read write val e rest l Hr _ 0).
  apply concat_length in Hw. cbn [rd_data]. rewrite str_length_app. lia.
Qed.

Lemma readPrefixes_write l rest e : prefixes_writable l ->
  readPrefixes (mkReader (writePrefixes l +:+ rest) e) = Ok (l, mkReader rest e).
Proof.
  intros [Hs Hl]. unfold readPrefixes, writePrefixes. rewrite str_app_assoc, short_uvarint by done. cbn [mbind result_bind].
  rewrite (read_n_write _ _ id), map_id; [done| |].
  - apply Forall_true. intros p. unfold writePrefix. rewrite str_length_app. simpl. lia.
  - eapply Forall_impl; [exact Hl|]. intros p Hp _ t. rewrite readPrefix_write by done. cbn [mbind result_bind].
    by rewrite Prefixable_law.
Qed.

Lemma Put_all m : NoDup (map fst m) -> forall m0, (forall k, k ∈ map fst m -> k ∉ map fst m0) ->
  foldl (fun m e => TypedMap_Put (fst e) (snd e) m) m0 m = (m0 ++ m)%list.
Proof.
  induction m as [|[k v] m IH]; intros Hd m0 Hk; cbn [foldl]; [by rewrite app_nil_r|].
  cbn [map fst] in *. apply NoDup_cons in Hd as [Hn Hd]. cbn [snd]. rewrite Put_law by (apply Hk; set_solver).
  rewrite IH; [by rewrite <- app_assoc|done|]. intros x Hx. rewrite map_app, not_elem_of_app. split; [apply Hk; set_solver|].
  simpl. set_solver.
Qed.

Lemma readInterfaceAddresses_write m rest e :
  short m -> NoDup (map fst m) -> Forall (fun e => (fst e < 256)%N /\ prefixes_writable (snd e)) m ->
  readInterfaceAddresses (mkReader (writeInterfaceAddresses m +:+ rest) e) = Ok (m, mkReader rest e).
Proof.
  intros Hs Hd Hm. unfold readInterfaceAddresses, writeInterfaceAddresses.
  rewrite str_app_assoc, short_uvarint by done. cbn [mbind result_bind].
  rewrite (read_n_write _ _ id), map_id.
  - cbn [mbind result_bind]. rewrite Put_all; [done|done|]. simpl. set_solver.
  - apply Forall_true. intros [k v]. rewrite str_length_app. simpl. lia.
  - eapply Forall_impl; [exact Hm|]. intros [k v] [Hk Hv] _ t. cbn [fst snd] in *.
    rewrite str_app_assoc, ReadByte_byte, N.mod_small by done. cbn [mbind result_bind].
    by rewrite readPrefixes_write.
Qed.

Lemma readIPSet_write s rest e : ipset_writable s -> readIPSet (mkReader (writeIPSet s +:+ rest) e) = Ok (s, mkReader rest e).
Proof.
  intros (He & Hs & Hm). unfold readIPSet, writeIPSet. set (data := map _ (IPSet_rr s)).
  assert (length data = length (IPSet_rr s)) as El by apply length_map.
  rewrite !str_app_assoc, ReadByte_byte. cbn [mbind result_bind N.modulo N.div_eucl N.eqb negb].
  unfold ReadUint64, ReadFull. cbn [rd_data]. rewrite str_length_app, be_bytes_length. cbn [Nat.ltb Nat.leb Nat.add].
  rewrite str_take_app, str_drop_app by apply be_bytes_length. cbn [mbind result_bind]. unfold set_data. cbn [rd_end].
  assert (N.of_nat (length data) < 2 ^ 63)%N as Hd by (rewrite El; exact Hs).
  rewrite be_roundtrip by (eapply N.lt_trans; [exact Hd|done]).
  destruct (N.ltb_spec max_ranges (N.of_nat (length data))); [rewrite El in *; lia|].
  rewrite ranges_law; [|exact Hd|].
  - cbn [mbind result_bind]. unfold data. rewrite map_map. rewrite (map_ext_Forall _ id), map_id; [by rewrite rr_law|].
    eapply Forall_impl; [exact He|]. intros [a b] [Ha Hb]. cbn [fst snd] in *. by rewrite !AddrFromIP_AsSlice.
  - unfold data. apply Forall_map. eapply Forall_impl; [exact He|]. intros [a b] [Ha Hb]. split; by apply AsSlice_short.
Qed.

(** ** Items *)

Implicit Types (o rule : opt_DefaultHeadlessRule).

(** Reading [s] has the effect [eff] on the rule, in at most as many turns as [s] has bytes. *)
Definition reads (recover : bool) (s : string) (eff : opt_DefaultHeadlessRule -> opt_DefaultHeadlessRule) : Prop :=
  exists k, (k <= String.length s)%nat /\ forall f rest e last rule, exists last',
  readDefaultRule_go (k + f) recover last rule (mkReader (s +:+ rest) e) =
  readDefaultRule_go f recover last' (eff rule) (mkReader rest e).

Lemma reads_nil recover eff : (forall rule, eff rule = rule) -> reads recover "" eff.
Proof. intros H. exists 0%nat. split; [done|]. intros f rest e last rule. exists last. by rewrite H. Qed.

Lemma reads_app recover a b f g : reads recover a f -> reads recover b g -> reads recover (a +:+ b) (fun rule => g (f rule)).
Proof.
  intros (j & Hj & Ha) (k & Hk & Hb). exists (j + k)%nat. split; [rewrite str_length_app; lia|].
  intros n rest e last rule. destruct (Ha (k + n)%nat (b +:+ rest) e last rule) as [last' E].
  destruct (Hb n rest e last' (f rule)) as [last'' E']. exists last''.
  by rewrite str_app_assoc, <- Nat.add_assoc, E, E'.
Qed.

Lemma reads_item recover ty v eff : (ty < 255)%N ->
  (forall rest e last rule, readItem recover last ty rule (mkReader (v +:+ rest) e) = Ok (eff rule, mkReader rest e)) ->
  reads recover (byte ty +:+ v) eff.
Proof.
  intros Ht H. exists 1%nat. split; [rewrite str_length_app; simpl; lia|]. intros n rest e last rule. exists ty.
  cbn [readDefaultRule_go Nat.add]. rewrite str_app_assoc, ReadByte_byte, N.mod_small by lia. cbn [mbind result_bind].
  destruct (N.eqb_spec ty ruleItemFinal); [unfold ruleItemFinal in *; lia|]. by rewrite H.
Qed.

(** An item that is written under a condition. *)
Definition item_law (recover : bool) (w : result string) (eff : opt_DefaultHeadlessRule -> opt_DefaultHeadlessRule) : Prop :=
  forall s, w = Ok s -> reads recover s eff.
Lemma item_if recover cond w eff eff' : (cond = true -> item_law recover w eff) ->
  (forall rule, eff' rule = if cond then eff rule else rule) -> item_law recover (write_if cond w) eff'.
Proof.
  intros Hw He s. destruct cond; simpl; intros H.
  - destruct (Hw eq_refl s H) as (k & Hk & Hr). exists k. split; [done|]. intros f rest e last rule. rewrite He. apply Hr.
  - injection H as <-. by apply reads_nil.
Qed.
Lemma item_ok recover ty v eff : (ty < 255)%N ->
  (forall rest e last rule, readItem recover last ty rule (mkReader (v +:+ rest) e) = Ok (eff rule, mkReader rest e)) ->
  item_law recover (Ok (byte ty +:+ v)) eff.
Proof. intros Ht H s [= <-]. by apply reads_item. Qed.
Lemma item_since recover m v msg w eff : item_law recover w eff -> item_law recover (since m v msg w) eff.
Proof. intros H s. unfold since. destruct (v <? m)%N; [done|]. apply H. Qed.
Lemma item_if_since recover cond m v msg w eff :
  item_law recover (write_if cond w) eff -> item_law recover (write_if cond (since m v msg w)) eff.
Proof. intros H. destruct cond; simpl in *; [by apply item_since|done]. Qed.
Lemma item_cause recover msg w eff : item_law recover w eff -> item_law recover (with_cause msg w) eff.
Proof. intros H s Hs. apply with_cause_Ok in Hs. by apply H. Qed.

Lemma writes_cons w l s : writes (w :: l) = Ok s -> exists a b, w = Ok a /\ writes l = Ok b /\ s = a +:+ b.
Proof. unfold writes. cbn [foldr]. intros H. inv_bind. eauto. Qed.
Lemma writes_app l k s : writes (l ++ k) = Ok s -> exists a b, writes l = Ok a /\ writes k = Ok b /\ s = a +:+ b.
Proof.
  revert s. induction l as [|w l IH]; intros s H; [by exists "", s|].
  apply writes_cons in H as (a & b & Ha & Hb & ->). apply IH in Hb as (c & d & Hc & Hd & ->).
  exists (a +:+ c), d. rewrite str_app_assoc. split; [|done]. unfold writes in *. cbn [foldr]. by rewrite Ha, Hc.
Qed.

Lemma items_read recover ws effs s : Forall2 (item_law recover) ws effs -> writes ws = Ok s ->
  reads recover s (fun rule => foldl (fun r eff => eff r) rule effs).
Proof.
  intros H. revert s. induction H as [|w eff ws effs Hw _ IH]; intros s Hs.
  - injection Hs as <-. by apply reads_nil.
  - apply writes_cons in Hs as (a & b & Ha & Hb & ->). cbn [foldl].
    exact (reads_app recover a b eff _ (Hw a Ha) (IH b Hb)).
Qed.

(** The effects of the items of a rule. *)
Definition keep {A} (l l0 : list A) : list A := if nonempty l then l else l0.
Definition item_effects (recover : bool) (v : N) (o : opt_DefaultHeadlessRule)
  : list (opt_DefaultHeadlessRule -> opt_DefaultHeadlessRule) := [
  fun r => set_ho_QueryType (keep (ho_QueryType o) (ho_QueryType r)) r;
  fun r => set_ho_Network (keep (ho_Network o) (ho_Network r)) r;
  fun r => match domain_matcher v o with Some m => set_domain recover m r | None => r end;
  fun r => set_ho_DomainKeyword (keep (ho_DomainKeyword o) (ho_DomainKeyword r)) r;
  fun r => set_ho_DomainRegex (keep (ho_DomainRegex o) (ho_DomainRegex r)) r;
  fun r => match ipset_of (ho_SourceIPCIDR o) with Some s => set_sourceIPSet recover s r | None => r end;
  fun r => match ipset_of (ho_IPCIDR o) with Some s => set_IPSet recover s r | None => r end;
  fun r => set_ho_SourcePort (keep (ho_SourcePort o) (ho_SourcePort r)) r;
  fun r => set_ho_SourcePortRange (keep (ho_SourcePortRange o) (ho_SourcePortRange r)) r;
  fun r => set_ho_Port (keep (ho_Port o) (ho_Port r)) r;
  fun r => set_ho_PortRange (keep (ho_PortRange o) (ho_PortRange r)) r;
  fun r => set_ho_ProcessName (keep (ho_ProcessName o) (ho_ProcessName r)) r;
  fun r => set_ho_ProcessPath (keep (ho_ProcessPath o) (ho_ProcessPath r)) r;
  fun r => set_ho_ProcessPathRegex (keep (ho_ProcessPathRegex o) (ho_ProcessPathRegex r)) r;
  fun r => set_ho_PackageName (keep (ho_PackageName o) (ho_PackageName r)) r;
  fun r => set_ho_NetworkType (keep (ho_NetworkType o) (ho_NetworkType r)) r;
  fun r => set_ho_NetworkIsExpensive (ho_NetworkIsExpensive o || ho_NetworkIsExpensive r) r;
  fun r => set_ho_NetworkIsConstrained (ho_NetworkIsConstrained o || ho_NetworkIsConstrained r) r;
  fun r => set_ho_NetworkInterfaceAddress
    (if map_present (ho_NetworkInterfaceAddress o) then ho_NetworkInterfaceAddress o else ho_NetworkInterfaceAddress r) r;
  fun r => set_ho_DefaultInterfaceAddress (keep (ho_DefaultInterfaceAddress o) (ho_DefaultInterfaceAddress r)) r;
  fun r => set_ho_WIFISSID (keep (ho_WIFISSID o) (ho_WIFISSID r)) r;
  fun r => set_ho_WIFIBSSID (keep (ho_WIFIBSSID o) (ho_WIFIBSSID r)) r;
  fun r => match adguard_matcher o with Some m => set_adGuardDomain recover m r | None => r end].

(** Computes assignments to fields of a rule. *)
Ltac rule_fields := cbv beta iota zeta delta [
    ho_QueryType ho_Network ho_Domain ho_DomainSuffix ho_DomainKeyword ho_DomainRegex ho_SourceIPCIDR ho_IPCIDR
    ho_SourcePort ho_SourcePortRange ho_Port ho_PortRange ho_ProcessName ho_ProcessPath ho_ProcessPathRegex
    ho_PackageName ho_NetworkType ho_NetworkIsExpensive ho_NetworkIsConstrained ho_WIFISSID ho_WIFIBSSID
    ho_Invert ho_DomainMatcher ho_SourceIPSet ho_IPSet ho_AdGuardDomain ho_AdGuardDomainMatcher ho_TunnelSource
    ho_TunnelDestination ho_NetworkInterfaceAddress ho_DefaultInterfaceAddress set_ho_QueryType set_ho_Network
    set_ho_Domain set_ho_DomainSuffix set_ho_DomainKeyword set_ho_DomainRegex set_ho_SourceIPCIDR set_ho_IPCIDR
    set_ho_SourcePort set_ho_SourcePortRange set_ho_Port set_ho_PortRange set_ho_ProcessName set_ho_ProcessPath
    set_ho_ProcessPathRegex set_ho_PackageName set_ho_NetworkType set_ho_NetworkIsExpensive
    set_ho_NetworkIsConstrained set_ho_WIFISSID set_ho_WIFIBSSID set_ho_Invert set_ho_DomainMatcher
    set_ho_SourceIPSet set_ho_IPSet set_ho_AdGuardDomain set_ho_AdGuardDomainMatcher
    set_ho_NetworkInterfaceAddress set_ho_DefaultInterfaceAddress set_domain set_sourceIPSet
    set_IPSet set_adGuardDomain recovered].
Lemma effect_step eff effs rule rule' x : eff rule = rule' ->
  foldl (fun r eff => eff r) rule' effs = x -> foldl (fun r eff => eff r) rule (eff :: effs) = x.
Proof. intros E <-. cbn [foldl]. by rewrite E. Qed.

Lemma effects_compiled recover v o :
  set_ho_Invert (ho_Invert o)
    (foldl (fun r eff => eff r) opt_DefaultHeadlessRule_zero (item_effects recover v o)) = compiled recover v o.
Proof.
  assert (forall A (l : list A), keep l [] = l) as Hk by (by intros A []).
  unfold item_effects, compiled, opt_DefaultHeadlessRule_zero.
  destruct (domain_matcher v o), (ipset_of (ho_SourceIPCIDR o)), (ipset_of (ho_IPCIDR o)), (adguard_matcher o), recover;
    destruct o; (etransitivity;
    [apply f_equal; repeat (eapply effect_step; [rule_fields; reflexivity|]); reflexivity
    |rule_fields; rewrite !Hk, !orb_false_r; reflexivity]).
Qed.

Lemma item_list {A} recover (c : Codec (list A)) P ty l set get : (ty < 255)%N -> codec_law c P -> P l ->
  (forall last rule r, readItem recover last ty rule r = assign set rule (decode c r)) ->
  (forall rule, set (get rule) rule = rule) ->
  item_law recover (write_if (nonempty l) (Ok (byte ty +:+ encode c l))) (fun r => set (keep l (get r)) r).
Proof.
  intros Ht Hc Hl Hr Hs. apply (item_if _ _ _ (set l)).
  - intros _. apply item_ok; [done|]. intros rest e last rule. rewrite Hr. unfold assign. by rewrite Hc.
  - intros rule. unfold keep. by destruct (nonempty l).
Qed.
Lemma item_value {A} recover (c : Codec A) ty (cond : bool) v eff set : (ty < 255)%N -> codec_law c (fun _ => True) ->
  (forall last rule r, readItem recover last ty rule r = assign set rule (decode c r)) ->
  (forall rule, eff rule = if cond then set v rule else rule) ->
  item_law recover (write_if cond (Ok (byte ty +:+ encode c v))) eff.
Proof.
  intros Ht Hc Hr He. apply (item_if _ _ _ (set v)); [|done]. intros _. apply item_ok; [done|].
  intros rest e last rule. rewrite Hr. unfold assign. by rewrite Hc.
Qed.
Lemma item_flag recover ty cond msg m v (set : bool -> opt_DefaultHeadlessRule -> opt_DefaultHeadlessRule) get : (ty < 255)%N ->
  (forall last rule (r : Reader), readItem recover last ty rule r = Ok (set true rule, r)) ->
  (forall rule, set (get rule) rule = rule) ->
  item_law recover (write_if cond (since m v msg (Ok (byte ty)))) (fun r => set (cond || get r) r).
Proof.
  intros Ht Hr Hs. apply (item_if _ _ _ (set true)).
  - intros _. apply item_since. rewrite <- (str_app_nil (byte ty)). apply item_ok; [done|]. intros. by rewrite Hr.
  - intros rule. by destruct cond; simpl.
Qed.
Lemma item_cidrs recover ty l msg eff set : (ty < 255)%N -> cidrs_writable l ->
  (forall last rule r, readItem recover last ty rule r = assign set rule (readIPSet r)) ->
  (forall rule, eff rule = match ipset_of l with Some s => set s rule | None => rule end) ->
  item_law recover (write_if (nonempty l) (with_cause msg (writeRuleItemCIDR ty l))) eff.
Proof.
  intros Ht Hl Hr He. unfold cidrs_writable, ipset_of in *. destruct (nonempty l) eqn:E; [|intros s [= <-]; by apply reads_nil].
  cbn [write_if]. apply item_cause. intros s Hs. unfold writeRuleItemCIDR in Hs. inv_bind.
  match goal with Hp : parse_cidrs _ _ = _, Hb : IPSetBuilder_IPSet _ = Ok ?s |- _ =>
    rewrite Hp in *; cbn [mbind result_bind] in *; rewrite Hb in *; specialize (Hl s eq_refl) end.
  apply reads_item; [done|]. intros rest e last rule. rewrite Hr, He. unfold assign. by rewrite readIPSet_write.
Qed.

(** Every item that is written has its effect. *)
Lemma items_law recover v o : default_writable o -> Forall2 (item_law recover) (write_items o v) (item_effects recover v o).
Proof.
  intros [Hs Hu Hb H1 H2 Hd (Ha1 & Ha2 & Ha3)].
  repeat match goal with H : Forall _ (_ :: _) |- _ => apply Forall_cons in H as [? H] end.
  unfold write_items, write_items_conn, write_items_env, item_effects, writeRuleItemString, writeRuleItemUint16, writeRuleItemUint8.
  cbn [app].
  repeat constructor.
  all: try (eapply item_list; [done|apply strings_law|done|done|by intros []]).
  all: try (eapply item_list; [done|apply uint16s_law|done|done|by intros []]).
  all: try (apply item_flag; [done|done|by intros []]).
  all: try (eapply item_cidrs; [done|done|done|done]).
  - unfold domain_matcher. eapply item_value; [done|apply matcher_law|done|].
    intros rule. by destruct (_ || _).
  - apply item_if_since. eapply item_list; [done|apply uint8s_law|done|done|by intros []].
  - apply item_if_since, (item_if _ _ _ (set_ho_NetworkInterfaceAddress (ho_NetworkInterfaceAddress o))).
    + intros Hp. apply item_ok; [done|]. intros rest e last rule.
      change (readItem recover last ruleItemNetworkInterfaceAddress rule ?r) with
        (assign (fun m => set_ho_NetworkInterfaceAddress (Some m)) rule (readInterfaceAddresses r)).
      unfold assign. rewrite readInterfaceAddresses_write by done. by destruct (ho_NetworkInterfaceAddress o).
    + intros rule. by destruct (map_present _), rule.
  - apply item_if_since, (item_if _ _ _ (set_ho_DefaultInterfaceAddress (ho_DefaultInterfaceAddress o))).
    + intros Hp. apply item_ok; [done|]. intros rest e last rule.
      change (readItem recover last ruleItemDefaultInterfaceAddress rule ?r) with
        (assign set_ho_DefaultInterfaceAddress rule (readPrefixes r)).
      unfold assign. by rewrite readPrefixes_write.
    + intros rule. unfold keep. by destruct (nonempty _), rule.
  - unfold adguard_matcher. apply item_if_since. eapply item_value; [done|apply adguard_law|done|].
    intros rule. by destruct (nonempty (ho_AdGuardDomain o)).
Qed.

Lemma readDefaultRule_write recover v o s rest e : default_writable o -> writeDefaultRule o v = Ok (byte 0 +:+ s) ->
  readDefaultRule recover (mkReader (s +:+ rest) e) = Ok (compiled recover v o, mkReader rest e).
Proof.
  intros Ho Hs. unfold writeDefaultRule in Hs. apply writes_cons in Hs as (a & b & [= <-] & Hb & E).
  change (String (byte_of 0) s = String (byte_of 0) b) in E. injection E as ->. apply writes_app in Hb as (c & d & Hc & Hd & ->). injection Hd as <-.
  destruct (items_read recover _ _ _ (items_law recover v o Ho) Hc) as (k & Hk & Hr).
  unfold readDefaultRule. cbn [rd_data]. rewrite !str_app_assoc. change ("" +:+ rest) with rest. rewrite str_length_app.
  set (f := (String.length c - k + String.length ((byte ruleItemFinal +:+ write_bool (ho_Invert o)) +:+ rest))%nat).
  replace (S _) with (k + S f)%nat by (unfold f; rewrite !str_length_app; lia).
  destruct (Hr (S f) (byte ruleItemFinal +:+ write_bool (ho_Invert o) +:+ rest) e 0%N opt_DefaultHeadlessRule_zero) as [last ->].
  cbn [readDefaultRule_go]. rewrite ReadByte_byte. cbn [mbind result_bind].
  change ((ruleItemFinal mod 256 =? ruleItemFinal)%N) with true. cbn [assign]. unfold assign, ReadBool, write_bool.
  rewrite ReadByte_byte. cbn [mbind result_bind]. rewrite <- effects_compiled. by destruct (ho_Invert o).
Qed.

(** ** Rules *)

Definition rules_fit (l : list opt_HeadlessRule) : Prop := short l /\ (N.of_nat (length l) <= max_rules)%N.
Inductive rule_writable : opt_HeadlessRule -> Prop :=
| writable_default d l : default_writable d -> rule_writable (mkOptHeadlessRule RuleTypeDefault d l)
| writable_logical d l : Forall rule_writable (lo_Rules l) -> rules_fit (lo_Rules l) ->
    rule_writable (mkOptHeadlessRule RuleTypeLogical d l).

(** The rule that is read. *)
Fixpoint compiled_rule (recover : bool) (v : N) (o : opt_HeadlessRule) : opt_HeadlessRule :=
  match o with
  | mkOptHeadlessRule ty d l =>
      if bool_decide (ty = RuleTypeDefault) then mkOptHeadlessRule RuleTypeDefault (compiled recover v d) opt_Logical_zero
      else mkOptHeadlessRule RuleTypeLogical opt_DefaultHeadlessRule_zero
        (mkOptLogical (lo_Mode l) (map (compiled_rule recover v) (lo_Rules l)) (lo_Invert l))
  end.

Lemma writes_map {A} (write : A -> result string) l s : writes (map write l) = Ok s ->
  exists k, l = map fst k /\ s = str_concat (map snd k) /\ Forall (fun p => write (fst p) = Ok (snd p)) k.
Proof.
  revert s. induction l as [|x l IH]; intros s H; [injection H as <-; by exists []|].
  apply writes_cons in H as (a & b & Ha & Hb & ->). destruct (IH b Hb) as (k & -> & -> & Hk).
  exists ((x, a) :: k). split; [done|]. split; [done|]. by constructor.
Qed.
Lemma concat_elem (l : list string) s : s ∈ l -> (String.length s <= String.length (str_concat l))%nat.
Proof.
  induction l as [|x l IH]; [by intros ?%not_elem_of_nil|].
  change (str_concat (x :: l)) with (x +:+ str_concat l). rewrite str_length_app.
  intros [->|H]%elem_of_cons; [lia|]. specialize (IH H). lia.
Qed.

(** A rule starts with its type. *)
Lemma writeRule_byte v (o : opt_HeadlessRule) s : writeRule v o = Ok s -> exists ty t, s = byte ty +:+ t.
Proof.
  destruct o as [ty d l]. cbn [writeRule]. unfold writeDefaultRule, writeLogicalRule. destruct (bool_decide _); [|destruct (bool_decide _); [|done]];
    intros (a & b & [= <-] & _ & ->)%writes_cons; eauto.
Qed.
Lemma rules_bytes v l : Forall (fun p => writeRule v (fst p) = Ok (snd p)) l -> Forall (fun p => 0 < String.length (snd p))%nat l.
Proof.
  intros H. eapply Forall_impl; [exact H|]. intros p (ty & t & ->)%writeRule_byte. rewrite str_length_app. simpl. lia.
Qed.

Lemma readRules_write (read : Reader -> result (opt_HeadlessRule * Reader)) recover v what l s rest e :
  rules_fit l -> writes (map (writeRule v) l) = Ok s ->
  (forall (o : opt_HeadlessRule) t, o ∈ l -> writeRule v o = Ok t -> (String.length t <= String.length s)%nat ->
    forall rest, read (mkReader (t +:+ rest) e) = Ok (compiled_rule recover v o, mkReader rest e)) ->
  readRules read what (N.of_nat (length l)) (mkReader (s +:+ rest) e) = Ok (map (compiled_rule recover v) l, mkReader rest e).
Proof.
  intros [_ Hm] Hs Hr. apply writes_map in Hs as (k & -> & -> & Hk). unfold readRules.
  destruct (N.ltb_spec max_rules (N.of_nat (length (map fst k)))); [lia|].
  rewrite length_map, map_map. apply (read_n_write _ snd (fun p => compiled_rule recover v (fst p))); [by eapply rules_bytes|].
  rewrite Forall_forall in Hk |- *. intros p Hp i t. rewrite (Hr (fst p)); [done|by apply list_elem_of_fmap_2|by apply Hk|].
  apply concat_elem. by apply list_elem_of_fmap_2.
Qed.

Lemma readRule_write recover v (o : opt_HeadlessRule) : forall s fuel rest e,
  rule_writable o -> writeRule v o = Ok s -> (String.length s <= fuel)%nat ->
  readRule fuel recover (mkReader (s +:+ rest) e) = Ok (compiled_rule recover v o, mkReader rest e).
Proof.
  induction o as [ty d l IH] using opt_HeadlessRule_nested_ind. intros s fuel rest e Hw Hs Hf.
  destruct (writeRule_byte v _ _ Hs) as (x & t & Et).
  destruct fuel as [|fuel]; [subst s; rewrite str_length_app in Hf; simpl in Hf; lia|].
  inversion Hw as [? ? Hd|? ? Hl Hfit]; subst ty; clear Hw; cbn [writeRule compiled_rule readRule] in *.
  - rewrite bool_decide_eq_true_2 in Hs |- * by done.
    assert (x = 0%N \/ byte x = byte 0) as Hx.
    { right. pose proof Hs as Hs'. unfold writeDefaultRule in Hs'. apply writes_cons in Hs' as (a & b & [= <-] & _ & E).
      rewrite Et in E. injection E as E _. unfold byte. by rewrite E. }
    assert (s = byte 0 +:+ t) as -> by (destruct Hx as [->| <-]; done).
    rewrite str_app_assoc, ReadByte_byte. cbn [mbind result_bind N.modulo N.div_eucl N.eqb].
    by rewrite (readDefaultRule_write recover v d t) by done.
  - rewrite bool_decide_eq_false_2 in Hs |- * by done. rewrite bool_decide_eq_true_2 in Hs by done. clear Et x t. unfold writeLogicalRule in Hs.
    apply writes_cons in Hs as (a & b & [= <-] & Hs & ->). apply writes_cons in Hs as (c & b2 & Hc & Hs & ->).
    apply writes_cons in Hs as (a & b3 & [= <-] & Hs & ->). apply writes_cons in Hs as (t & b4 & Ht & Hs & ->).
    injection Hs as <-. rewrite !str_app_assoc, ReadByte_byte. cbn [mbind result_bind N.modulo N.div_eucl N.eqb].
    assert (String.length t <= fuel)%nat as Hf' by (rewrite !str_length_app in Hf; simpl in Hf; lia). clear Hf.
    unfold write_mode in Hc. assert (exists m, c = byte m /\ (m = 0 \/ m = 1)%N /\
      lo_Mode l = if (m =? 0)%N then LogicalTypeAnd else LogicalTypeOr) as (m & -> & Hm & El).
    { repeat case_bool_decide; simplify_eq; eauto 6. }
    unfold readLogicalRule. rewrite ReadByte_byte. cbn [mbind result_bind].
    assert (m mod 256 = m)%N as -> by (destruct Hm as [-> | ->]; done).
    assert ((if (m =? 0)%N then Ok LogicalTypeAnd else if (m =? 1)%N then Ok LogicalTypeOr
      else Err (ENew ("unknown logical mode: " +:+ format_uint m))) = Ok (lo_Mode l)) as ->
      by (destruct Hm as [-> | ->]; by rewrite El).
    cbn [mbind result_bind]. rewrite short_uvarint by apply Hfit. cbn [mbind result_bind].
    rewrite (readRules_write _ recover v _ _ t); [|done|done|].
    + cbn [mbind result_bind]. unfold ReadBool, write_bool. change ("" +:+ rest) with rest. rewrite ReadByte_byte.
      cbn [mbind result_bind]. by destruct (lo_Invert l).
    + intros o u Ho Hu Hlen rest'. rewrite Forall_forall in IH, Hl. apply IH; [done|by apply Hl|done|lia].
Qed.

(** What a rule-set reads as, once written. *)
Definition compiled_set (recover : bool) (v : N) (rules : list opt_HeadlessRule) : PlainRuleSetCompat :=
  mkPlainRuleSetCompat v (map (compiled_rule recover v) rules).

Lemma Read_Write_compiled recover v rules data :
  (v <= RuleSetVersionCurrent)%N -> rules_fit rules -> Forall rule_writable rules -> Write rules v = Ok data ->
  Read (mkReader data io_EOF) recover = Ok (compiled_set recover v rules).
Proof.
  intros Hv Hf Hw Hd. unfold Write in Hd. inv_bind. unfold RuleSetVersionCurrent, RuleSetVersion4 in *.
  match goal with H : writes _ = Ok ?b |- _ => rename b into body; apply writes_cons in H as (a & b & [= <-] & H & ->);
    apply writes_cons in H as (s & b' & Hs & [= <-] & ->) end.
  rewrite str_app_nil. unfold Read, ReadFull. cbn [rd_data]. rewrite str_length_app. cbn [String.length MagicBytes Nat.add Nat.ltb Nat.leb].
  rewrite str_take_app, str_drop_app by done. cbn [mbind result_bind]. unfold set_data. cbn [rd_end].
  rewrite bool_decide_eq_true_2 by done. cbn [negb]. rewrite ReadByte_byte. cbn [mbind result_bind].
  rewrite N.mod_small by lia. unfold RuleSetVersionCurrent, RuleSetVersion4. destruct (N.ltb_spec 4 v); [lia|].
  rewrite zlib_law. cbn [mbind result_bind]. rewrite short_uvarint by apply Hf. cbn [mbind result_bind rd_data].
  rewrite <- (str_app_nil s), (readRules_write _ recover v _ _ s); [done|done|done|].
  intros o t Ho Ht Hl rest. rewrite Forall_forall in Hw. apply readRule_write; [by apply Hw|done|].
  rewrite str_app_nil. lia.
Qed.

(** C10: what is written is read.  A rule-set that [Write] accepts, in a version up to the current one, is read back from the
    file: the same rules in the same order, where the lists of domains, CIDRs and AdGuard rules have become the matchers and
    sets built from them (and are listed again from these if [recover] is set), and without tunnel conditions. *)
Theorem srs_roundtrip recover v rules data :
  (v <= RuleSetVersionCurrent)%N -> rules_fit rules -> Forall rule_writable rules -> Write rules v = Ok data ->
  Read (mkReader data io_EOF) recover = Ok (compiled_set recover v rules).
Proof. apply Read_Write_compiled. Qed.

(** Conditions on tunnels are not written: rules that differ in them have one binary form. *)
Definition set_ho_TunnelSource (v : list string) (r : opt_DefaultHeadlessRule) : opt_DefaultHeadlessRule :=
  ltac:(set_field @ho_TunnelSource v r).
Definition set_ho_TunnelDestination (v : list string) (r : opt_DefaultHeadlessRule) : opt_DefaultHeadlessRule :=
  ltac:(set_field @ho_TunnelDestination v r).
Lemma tunnel_not_written source destination o v :
  writeDefaultRule (set_ho_TunnelSource source (set_ho_TunnelDestination destination o)) v = writeDefaultRule o v.
Proof. reflexivity. Qed.

(** A count that no slice can have: reading panics before it looks at the rules. *)
Lemma Read_huge_count recover v n body : (v <= RuleSetVersionCurrent)%N -> (max_rules < n < 2 ^ 64)%N ->
  Read (mkReader (MagicBytes +:+ byte v +:+ zlib_Compress (PutUvarint n +:+ body)) io_EOF) recover = Panic make_panic.
Proof.
  intros Hv Hn. unfold RuleSetVersionCurrent, RuleSetVersion4 in *. unfold Read, ReadFull. cbn [rd_data]. rewrite str_length_app.
  cbn [String.length MagicBytes Nat.add Nat.ltb Nat.leb].
  rewrite str_take_app, str_drop_app by done. cbn [mbind result_bind]. unfold set_data. cbn [rd_end].
  rewrite bool_decide_eq_true_2 by done. cbn [negb]. rewrite ReadByte_byte. cbn [mbind result_bind].
  rewrite N.mod_small by lia. unfold RuleSetVersionCurrent, RuleSetVersion4. destruct (N.ltb_spec 4 v); [lia|].
  rewrite zlib_law. cbn [mbind result_bind]. rewrite ReadUvarint_put by lia. cbn [mbind result_bind].
  unfold readRules. by destruct (N.ltb_spec max_rules n); [|lia].
Qed.
End Laws.
