(* ===== verification/SRSTotal.v ===== *)
(** * SRSTotal: every input of the binary rule-set reader has an outcome

    The loops of [Read] are bounded by the input: every turn takes a byte of it, whatever the counts in
    the input say.  What is read is a rule-set that the rest of the program can take. *)

From S2P Require Import Prelude GoStd NetIP Metadata RuleItems RuleMatch RuleAction RuleOptions RuleBuild RuleSet RuleLaws.
From S2P Require Import FakeIP FakeIPCodec GoIO Groups CacheFile SRS.
Open Scope string_scope.

Definition bytes_left (r : Reader) : nat := String.length (rd_data r).

(** A call that takes at least [n] bytes when it succeeds, and does not run out of fuel. *)
Definition takes {A} (n : nat) (r : Reader) (p : result (A * Reader)) : Prop :=
  match p with
  | Ok (_, r') => (bytes_left r' + n <= bytes_left r)%nat
  | Err _ => True
  | Panic m => m <> out_of_fuel
  end.

(** Reading does not bring bytes back; no library panics in the name of the model. *)
Class SRSReadLaws `{SL : SRSLibrary} : Prop := {
  takes_zlib r : zlib_NewReader r <> Panic out_of_fuel;
  takes_strings r : takes 0 r (decode varbin_strings r);
  takes_uint8s r : takes 0 r (decode varbin_uint8s r);
  takes_uint16s r : takes 0 r (decode varbin_uint16s r);
  takes_bytes r : takes 0 r (decode varbin_bytes r);
  takes_uint8 r : takes 1 r (varbin_ReadUint8 r);
  takes_ranges n r : takes 0 r (varbin_ReadRanges n r);
  takes_matcher r : takes 0 r (decode domain_Matcher r);
  takes_adguard r : takes 0 r (decode domain_AdGuardMatcher r)
}.

Section Total.
Context {X : Externals} {SL : SRSLibrary} {SR : SRSReadLaws} {CL : CacheLibrary}.

(** ** Sequences *)

Lemma takes_bind {A B} m n (r : Reader) (p : result (A * Reader)) (k : A * Reader -> result (B * Reader)) :
  takes m r p -> (forall a r', p = Ok (a, r') -> takes (n - m) r' (k (a, r'))) -> takes n r (p ≫= k).
Proof.
  intros Hp Hk. destruct p as [[a r']| |]; simpl in *; [|done|done]. specialize (Hk a r' eq_refl).
  unfold takes in *. destruct (k (a, r')) as [[b r'']| |]; [lia|done|done].
Qed.
Lemma takes_ok {A} n r r' (a : A) : (bytes_left r' + n <= bytes_left r)%nat -> takes n r (Ok (a, r')).
Proof. done. Qed.
Lemma takes_less {A} m n r (p : result (A * Reader)) : takes m r p -> (n <= m)%nat -> takes n r p.
Proof. unfold takes. destruct p as [[]| |]; intros; [lia|done|done]. Qed.
Lemma takes_cause {A} n r msg (p : result (A * Reader)) : takes n r p -> takes n r (with_cause msg p).
Proof. by destruct p as [[]| |]. Qed.

(** ** The standard library *)

Lemma takes_byte r : takes 1 r (ReadByte r).
Proof. unfold ReadByte, takes, bytes_left. destruct (rd_data r) eqn:E; [done|]. simpl. lia. Qed.
Lemma takes_full n r : takes n r (ReadFull n r).
Proof.
  unfold ReadFull, takes, bytes_left. destruct (Nat.ltb_spec (String.length (rd_data r)) n); [done|]. simpl.
  rewrite str_length_drop. lia.
Qed.
Lemma takes_uvarint_go n : forall first x s r, takes 1 r (ReadUvarint_go n first x s r).
Proof.
  induction n as [|n IH]; intros first x s r; [done|]. cbn [ReadUvarint_go]. pose proof (takes_byte r) as H.
  destruct (ReadByte r) as [[b r']| |]; [|done|done]. simpl in H. destruct (b <? 128)%N.
  - destruct (_ && _); [done|]. by apply takes_ok.
  - specialize (IH false (N.lor x (N.shiftl (N.land b 127) s mod 2 ^ 64)) (s + 7)%N r'). unfold takes in *.
    destruct (ReadUvarint_go _ _ _ _ _) as [[]| |]; [lia|done|done].
Qed.
Lemma takes_uvarint r : takes 1 r (ReadUvarint r).
Proof. apply takes_uvarint_go. Qed.
Lemma takes_bool r : takes 1 r (ReadBool r).
Proof. unfold ReadBool. eapply takes_bind; [apply takes_byte|]. intros b r' _. apply takes_ok. lia. Qed.

(** ** Loops *)

Lemma takes_read_n_go {A} (read : N -> Reader -> result (A * Reader)) (bound : nat) :
  (forall i r, (bytes_left r <= bound)%nat -> takes 1 r (read i r)) ->
  forall fuel i length r, (bytes_left r < fuel)%nat -> (bytes_left r <= bound)%nat -> takes 0 r (read_n_go fuel read i length r).
Proof.
  intros Hr. induction fuel as [|fuel IH]; intros i length r Hf Hb; [lia|]. cbn [read_n_go].
  destruct (length <=? i)%N; [apply takes_ok; lia|].
  pose proof (Hr i r Hb) as H. destruct (read i r) as [[x r']| |]; [|done|done]. cbn [mbind result_bind]. unfold takes in H.
  assert (takes 0 r' (read_n_go fuel read (i + 1) length r')) as Hn by (apply IH; lia).
  destruct (read_n_go fuel read (i + 1) length r') as [[l r2]| |]; [|done|done]. unfold takes in *. cbn [mbind result_bind]. lia.
Qed.
Lemma takes_read_n {A} (read : N -> Reader -> result (A * Reader)) length r :
  (forall i r', (bytes_left r' <= bytes_left r)%nat -> takes 1 r' (read i r')) -> takes 0 r (read_n read length r).
Proof. intros H. unfold read_n. eapply takes_read_n_go; [exact H| |done]. fold (bytes_left r). lia. Qed.

(** ** Rules *)

Lemma takes_assign {A} n set rule r (p : result (A * Reader)) : takes n r p -> takes n r (assign set rule p).
Proof. intros H. unfold assign. eapply takes_bind; [exact H|]. intros a r' _. apply takes_ok. lia. Qed.

Lemma takes_prefix r : takes 1 r (readPrefix r).
Proof.
  unfold readPrefix. eapply takes_bind; [apply takes_bytes|]. intros a r1 _. eapply takes_bind; [apply takes_uint8|].
  intros b r2 _. apply takes_ok. lia.
Qed.
Lemma takes_prefixes r : takes 1 r (readPrefixes r).
Proof.
  unfold readPrefixes. eapply takes_bind; [apply takes_uvarint|]. intros n r1 _. apply takes_read_n.
  intros _ r2 _. eapply takes_bind; [apply takes_prefix|]. intros p r3 _. apply takes_ok. lia.
Qed.
Lemma takes_addresses r : takes 1 r (readInterfaceAddresses r).
Proof.
  unfold readInterfaceAddresses. eapply takes_bind; [apply takes_uvarint|]. intros n r1 _.
  eapply takes_bind; [apply takes_read_n|intros l r2 _; apply takes_ok; lia].
  intros _ r2 _. eapply takes_bind; [apply takes_byte|]. intros k r3 _.
  eapply takes_bind; [apply takes_prefixes|]. intros l r4 _. apply takes_ok. lia.
Qed.
Lemma takes_ipset r : takes 1 r (readIPSet r).
Proof.
  unfold readIPSet. eapply takes_bind; [apply takes_byte|]. intros v r1 _. destruct (negb _); [done|].
  unfold ReadUint64. eapply (takes_bind 0).
  - eapply takes_bind; [apply takes_full|]. intros s r2 _. apply takes_ok. lia.
  - intros n r2 _. destruct (_ <? _)%N; [done|]. eapply takes_bind; [apply takes_ranges|]. intros l r3 _. apply takes_ok. lia.
Qed.

Lemma takes_item recover last ty rule r : takes 0 r (readItem recover last ty rule r).
Proof.
  unfold readItem, readRuleItemString, readRuleItemUint8, readRuleItemUint16.
  repeat (case_match; [first
    [ by apply takes_ok; lia
    | apply takes_assign; first [apply takes_strings|apply takes_uint8s|apply takes_uint16s|apply takes_matcher
        |apply takes_adguard|eapply takes_less; [first [apply takes_ipset|apply takes_addresses|apply takes_prefixes]|lia]] ]|]).
  done.
Qed.
Lemma takes_default_go recover fuel : forall last rule r, (bytes_left r < fuel)%nat ->
  takes 1 r (readDefaultRule_go fuel recover last rule r).
Proof.
  induction fuel as [|fuel IH]; intros last rule r Hf; [lia|]. cbn [readDefaultRule_go].
  eapply takes_bind; [apply takes_byte|]. intros ty r1 E. pose proof (takes_byte r) as H1. rewrite E in H1. simpl in H1.
  destruct (ty =? ruleItemFinal)%N.
  - eapply takes_less; [apply takes_assign, takes_bool|lia].
  - pose proof (takes_item recover last ty rule r1) as H2. eapply takes_bind; [exact H2|]. intros rule' r2 E2.
    rewrite E2 in H2. simpl in H2. eapply takes_less; [apply IH; lia|lia].
Qed.
Lemma takes_default recover r : takes 1 r (readDefaultRule recover r).
Proof. apply takes_default_go. unfold bytes_left. lia. Qed.

Lemma takes_rules (read : Reader -> result (opt_HeadlessRule * Reader)) what length r :
  (forall r', (bytes_left r' <= bytes_left r)%nat -> takes 1 r' (read r')) -> takes 0 r (readRules read what length r).
Proof.
  intros H. unfold readRules. destruct (_ <? _)%N; [done|]. apply takes_read_n. intros i r' Hr. by apply takes_cause, H.
Qed.
Lemma takes_rule recover fuel : forall r, (bytes_left r < fuel)%nat -> takes 1 r (readRule fuel recover r).
Proof.
  induction fuel as [|fuel IH]; intros r Hf; [lia|]. cbn [readRule].
  eapply takes_bind; [apply takes_byte|]. intros ty r1 E. pose proof (takes_byte r) as H1. rewrite E in H1. simpl in H1.
  destruct (ty =? 0)%N; [|destruct (ty =? 1)%N; [|done]].
  - eapply takes_bind; [apply takes_default|]. intros d r2 _. apply takes_ok. lia.
  - eapply takes_bind; [|intros l r2 _; by apply takes_ok; lia]. unfold readLogicalRule.
    instantiate (1 := 0%nat). pose proof (takes_byte r1) as H2. eapply takes_bind; [exact H2|]. intros mode r2 E2.
    rewrite E2 in H2. simpl in H2. destruct (mode =? 0)%N; [|destruct (mode =? 1)%N; [|done]]; cbn [mbind result_bind].
    all: pose proof (takes_uvarint r2) as H3; eapply takes_bind; [exact H3|]; intros n r3 E3.
    all: rewrite E3 in H3; simpl in H3.
    all: eapply takes_bind; [apply takes_rules; intros r' Hr'; apply IH; lia|]; intros l r4 _.
    all: eapply takes_bind; [apply takes_bool|]; intros b r5 _; apply takes_ok; lia.
Qed.

(** C11: reading a binary rule-set always ends: for every input, also one whose counts are made up, the
    loops over rules, nested rules, items and prefixes stop within as many turns as the input has bytes. *)
Theorem Read_ends file recover : Read file recover <> Panic out_of_fuel.
Proof.
  unfold Read. pose proof (takes_full 3 file) as H1. destruct (ReadFull 3 file) as [[m f1]| |]; cbn [mbind result_bind];
    [|done|by intros [= ->]]. destruct (negb _); [done|].
  pose proof (takes_byte f1) as H2. destruct (ReadByte f1) as [[v f2]| |]; cbn [mbind result_bind]; [|done|by intros [= ->]].
  destruct (_ <? _)%N; [done|]. pose proof (takes_zlib f2) as H3.
  destruct (zlib_NewReader f2) as [b| |]; cbn [mbind result_bind]; [|done|by intros [= ->]].
  pose proof (takes_uvarint b) as H4. destruct (ReadUvarint b) as [[n b1]| |]; cbn [mbind result_bind]; [|done|by intros [= ->]].
  assert (takes 0 b1 (readRules (readRule (S (String.length (rd_data b1))) recover) "read rule" n b1)) as H5.
  { apply takes_rules. intros r' Hr. apply takes_rule. unfold bytes_left in *. lia. }
  by destruct (readRules _ _ _ _) as [[l b2]| |]; cbn [mbind result_bind]; [|done|intros [= ->]].
Qed.

(** ** What is read *)

(** A rule of one of the two types, a logical one with one of the two modes, and so its sub-rules. *)
Fixpoint well_formed (o : opt_HeadlessRule) : bool :=
  match o with
  | mkOptHeadlessRule ty _ l =>
      bool_decide (ty = RuleTypeDefault) ||
      bool_decide (ty = RuleTypeLogical) && (bool_decide (lo_Mode l = LogicalTypeAnd) || bool_decide (lo_Mode l = LogicalTypeOr))
        && forallb well_formed (lo_Rules l)
  end.

Lemma read_n_go_all {A} (P : A -> Prop) (read : N -> Reader -> result (A * Reader)) :
  (forall i r x r', read i r = Ok (x, r') -> P x) ->
  forall fuel i length r l r', read_n_go fuel read i length r = Ok (l, r') -> Forall P l.
Proof.
  intros Hr. induction fuel as [|fuel IH]; intros i length r l r'; cbn [read_n_go];
    (destruct (length <=? i)%N; [intros [= <- <-]; constructor|]); [done|].
  intros H. apply bind_Ok in H as ([x r1] & Hx & H). apply bind_Ok in H as ([k r2] & Hk & H). injection H as <- <-.
  constructor; [by eapply Hr|by eapply IH].
Qed.
Lemma readRules_all (P : opt_HeadlessRule -> Prop) read what length r l r' :
  (forall r x r', read r = Ok (x, r') -> P x) -> readRules read what length r = Ok (l, r') -> Forall P l.
Proof.
  intros Hr. unfold readRules. destruct (_ <? _)%N; [done|]. apply read_n_go_all. intros i r1 x r2 H%with_cause_Ok. by eapply Hr.
Qed.

Lemma readRule_well_formed recover fuel : forall r o r', readRule fuel recover r = Ok (o, r') -> well_formed o = true.
Proof.
  induction fuel as [|fuel IH]; intros r o r'; [done|]. cbn [readRule]. intros H. apply bind_Ok in H as ([ty r1] & _ & H).
  destruct (ty =? 0)%N; [|destruct (ty =? 1)%N; [|done]]; apply bind_Ok in H as ([x r2] & Hx & H); injection H as <- <-; [done|].
  cbn [well_formed]. rewrite bool_decide_eq_false_2, bool_decide_eq_true_2 by done. cbn [orb andb].
  unfold readLogicalRule in Hx. apply bind_Ok in Hx as ([mode r3] & _ & Hx). apply bind_Ok in Hx as (m & Hm & Hx).
  apply bind_Ok in Hx as ([n r4] & _ & Hx). apply bind_Ok in Hx as ([rules r5] & Hr & Hx).
  apply bind_Ok in Hx as ([b r6] & _ & Hx). injection Hx as <- <-. cbn [lo_Mode lo_Rules]. apply andb_true_iff. split.
  - destruct (mode =? 0)%N; [by injection Hm as <-|]. destruct (mode =? 1)%N; [by injection Hm as <-|done].
  - apply forallb_true_iff, Forall_forall. eapply readRules_all; [exact IH|exact Hr].
Qed.

Lemma well_formed_typed o : well_formed o = true -> typed o = true.
Proof.
  induction o as [ty d l IH] using opt_HeadlessRule_nested_ind. cbn [well_formed typed]. destruct (bool_decide _); [done|].
  cbn [orb]. intros [[-> _]%andb_true_iff Hl]%andb_true_iff. cbn [andb]. rewrite forallb_true_iff in Hl |- *.
  rewrite Forall_forall in IH. intros x Hx. by apply IH, Hl.
Qed.
Lemma all_result_Ok {A} (f : A -> result bool) l : Forall (fun x => exists b, f x = Ok b) l -> exists b, all_result f l = Ok b.
Proof.
  induction 1 as [|x l [b Hx] _ [c IH]]; cbn [all_result]; [by eexists|]. rewrite Hx. cbn [mbind result_bind].
  destruct b; by eexists.
Qed.
Lemma well_formed_IsValid o : well_formed o = true -> exists b, opt_HeadlessRule_IsValid o = Ok b.
Proof.
  induction o as [ty d l IH] using opt_HeadlessRule_nested_ind. cbn [well_formed opt_HeadlessRule_IsValid].
  destruct (bool_decide (ty = RuleTypeDefault)); [by eexists|]. cbn [orb].
  intros [[Hty _]%andb_true_iff Hl]%andb_true_iff. rewrite Hty. destruct (str_empty ty); [by eexists|].
  unfold opt_Logical_IsValid. destruct (nonempty _); [|by eexists]. apply all_result_Ok.
  rewrite Forall_forall in IH |- *. rewrite forallb_true_iff in Hl. intros x Hx. by apply IH, Hl.
Qed.

Lemma Read_rules file recover p : Read file recover = Ok p ->
  (exists rest, rd_data file = MagicBytes +:+ byte (prc_Version p) +:+ rest) /\
  (prc_Version p <= RuleSetVersionCurrent)%N /\ forallb well_formed (prc_Rules p) = true.
Proof.
  unfold Read. intros H. apply bind_Ok in H as ([m f1] & H1 & H). destruct (negb _) eqn:Em; [done|].
  apply bind_Ok in H as ([v f2] & H2 & H). destruct (N.ltb_spec RuleSetVersionCurrent v) as [|Hv]; [done|].
  apply bind_Ok in H as (b & H3 & H). apply bind_Ok in H as ([n b1] & H4 & H). apply bind_Ok in H as ([l b2] & H5 & H).
  injection H as <-. cbn [prc_Version prc_Rules]. split; [|split; [done|]].
  - apply negb_false_iff, bool_decide_eq_true in Em. unfold ReadFull in H1.
    destruct (String.length (rd_data file) <? 3)%nat; [done|].
    assert (str_take 3 (rd_data file) = m /\ f1 = set_data (str_drop 3 (rd_data file)) file) as [E ->] by (split; congruence).
    rewrite Em in E. unfold ReadByte, set_data in H2. cbn [rd_data rd_end] in H2.
    destruct (str_drop 3 (rd_data file)) as [|c rest] eqn:Ed; [done|]. injection H2 as <- <-. exists rest.
    rewrite <- (str_take_drop 3 (rd_data file)), E, Ed. f_equal. unfold byte. change (String ?x "" +:+ rest) with (String x rest).
    f_equal. unfold byte_of, byte_val. rewrite N.mod_small by apply N_ascii_bounded. by rewrite ascii_N_embedding.
  - apply forallb_true_iff, Forall_forall. eapply readRules_all; [|exact H5]. intros r x r'. apply readRule_well_formed.
Qed.

(** C12: what is read from a binary rule-set is well formed.  The file starts with the magic number and the
    version of the result, which is at most the current one; every rule, at every depth, has a type and a logical rule a
    mode that the constructors of headless rules know, so that the validity checks give an answer.  The version may be 0, which is
    none: then [Upgrade] refuses what was read, and only then. *)
Theorem Read_well_formed file recover p : Read file recover = Ok p ->
  (exists rest, rd_data file = MagicBytes +:+ byte (prc_Version p) +:+ rest) /\
  (prc_Version p <= RuleSetVersionCurrent)%N /\
  PlainRuleSetCompat_Upgrade p = (if (prc_Version p =? 0)%N then Err (ENew "unknown rule-set version: 0") else Ok (prc_Rules p)) /\
  forallb well_formed (prc_Rules p) = true /\ forallb typed (prc_Rules p) = true /\
  Forall (fun o => exists valid, opt_HeadlessRule_IsValid o = Ok valid) (prc_Rules p).
Proof.
  intros (H1 & H2 & H3)%Read_rules. split; [done|]. split; [done|]. split.
  { unfold PlainRuleSetCompat_Upgrade. change RuleSetVersionCurrent with 4%N in H2. destruct (N.eqb_spec (prc_Version p) 0) as [->|Hne]; [done|].
    by rewrite (proj2 (N.leb_le 1 _)), (proj2 (N.leb_le _ 4)) by lia. }
  split; [done|]. rewrite forallb_true_iff in H3. split.
  - apply forallb_true_iff. intros o Ho. by apply well_formed_typed, H3.
  - apply Forall_forall. intros o Ho. by apply well_formed_IsValid, H3.
Qed.
End Total.
