(* ===== verification/SRSMatch.v ===== *)
(** * SRSMatch: a compiled rule-set matches like its source *)

From S2P Require Import Prelude GoStd NetIP Metadata RuleItems RuleMatch RuleAction RuleOptions RuleBuild RuleSet Rules RuleSpec.
From S2P Require Import RuleConditions RuleLaws FakeIP FakeIPLaws FakeIPCodec GoIO Groups GroupLaws CacheFile CacheFileLaws CacheFileFakeIP.
From S2P Require Import SRS SRSLaws.
Open Scope string_scope.

Section Match.
Context {X : Externals} {SL : SRSLibrary} {SW : SRSLaws} {CL : CacheLibrary} {AL : AddressLaws}.

(** ** Items that match alike *)

Definition item_equiv (i j : BaseItem) : Prop := forall w m, BaseItem_Match w i m = BaseItem_Match w j m.
Definition pick_equiv (p q : rule_group * BaseItem) : Prop := fst p = fst q /\ item_equiv (snd p) (snd q).

(** Blocks that differ in how a matcher is given: by its source in the first of two blocks, or compiled in the second. *)
Inductive blocks_sim : list (block BaseItem) -> list (block BaseItem) -> Prop :=
| sim_nil : blocks_sim [] []
| sim_same b l l' : blocks_sim l l' -> blocks_sim (b :: l) (b :: l')
| sim_swap b1 b2 c1 c2 l l' :
    blk_cond b2 = false -> blk_cond c1 = false -> blk_cond c2 = blk_cond b1 -> blk_group c2 = blk_group b1 ->
    (forall i, blk_cond b1 = true -> blk_item b1 = Ok i -> exists j, blk_item c2 = Ok j /\ item_equiv i j) ->
    blocks_sim l l' -> blocks_sim (b1 :: b2 :: l) (c1 :: c2 :: l').

Lemma sim_picked bs cs : blocks_sim bs cs -> forall its, picked bs = Ok its ->
  exists its', picked cs = Ok its' /\ Forall2 pick_equiv its its'.
Proof.
  induction 1 as [|b l l' Hl IH|b1 b2 c1 c2 l l' H2 H1 Hc Hg Hi Hl IH]; intros its; cbn [picked].
  - intros [= <-]. by exists [].
  - destruct (blk_cond b); [|by intros; apply IH]. intros H. inv_bind.
    match goal with H : picked l = Ok ?k |- _ => destruct (IH k H) as (k' & -> & Hk) end. rewrite_Ok. cbn [mbind result_bind].
    eexists. split; [done|]. constructor; [split; [done|by intros w m]|done].
  - rewrite H2, H1, Hc. destruct (blk_cond b1); [|by intros; apply IH]. intros H. inv_bind.
    match goal with H : picked l = Ok ?k |- _ => destruct (IH k H) as (k' & -> & Hk) end.
    match goal with H : blk_item b1 = Ok ?i |- _ => destruct (Hi i eq_refl H) as (j & -> & Hj) end. cbn [mbind result_bind].
    eexists. split; [done|]. constructor; [by split|done].
Qed.

(** ** Rules that match alike *)

Lemma map_rule_init {I J} (g : I -> J) inv : map_rule g (rule_init inv tt) = rule_init inv tt.
Proof. done. Qed.
Lemma map_rule_adds {I J} (g : I -> J) its : forall r : abstractDefaultRule I unit,
  map_rule g (add_items its r) = add_items (map (fun p => (fst p, g (snd p))) its) (map_rule g r).
Proof.
  unfold add_items. induction its as [|p its IH]; intros r; [done|]. cbn [foldl map]. by rewrite IH, map_rule_add.
Qed.
Lemma map_rule_cache {I J Action} (f : J -> InboundContext -> bool) (g : I -> J) (r : abstractDefaultRule I Action) m :
  rule_cache f (map_rule g r) m = rule_cache (fun i => f (g i)) r m.
Proof.
  unfold rule_cache, groups_cache, any_item. destruct (IgnoreDestinationIPCIDRMatch (md_cache m)); simpl;
    rewrite ?app_nil_r, <- ?map_app, ?nonempty_map, ?existsb_map; done.
Qed.

Lemma built_equiv inv its its' w m : Forall2 pick_equiv its its' ->
  HeadlessRule_Match w (DefaultHeadlessRule (add_items its (rule_init inv tt))) m =
  HeadlessRule_Match w (DefaultHeadlessRule (add_items its' (rule_init inv tt))) m.
Proof.
  intros H. rewrite !HeadlessRule_Match_pure.
  assert (map (fun p => (fst p, BaseItem_Match w (snd p) m)) its = map (fun p => (fst p, BaseItem_Match w (snd p) m)) its') as E.
  { induction H as [|p q its its' [E1 E2] _ IH]; [done|]. cbn [map]. by rewrite IH, E1, E2. }
  assert (forall its, rule_answer (BaseItem_Match w) (add_items its (rule_init inv tt)) m =
    rule_answer (fun b _ => b) (add_items (map (fun p => (fst p, BaseItem_Match w (snd p) m)) its) (rule_init inv tt)) m) as HA.
  { intros l. pose proof (map_rule_answer (fun b _ => b) (fun i => BaseItem_Match w i m) (add_items l (rule_init inv tt)) m) as El.
    by rewrite map_rule_adds, map_rule_init in El. }
  assert (forall its, rule_cache (BaseItem_Match w) (add_items its (rule_init inv tt)) m =
    rule_cache (fun b _ => b) (add_items (map (fun p => (fst p, BaseItem_Match w (snd p) m)) its) (rule_init inv tt)) m) as HC.
  { intros l. pose proof (map_rule_cache (fun b _ => b) (fun i => BaseItem_Match w i m) (add_items l (rule_init inv tt)) m) as El.
    by rewrite map_rule_adds, map_rule_init in El. }
  by rewrite !HA, !HC, E.
Qed.

(** ** Default rules *)

(** A rule as it is written by hand: no compiled matcher, and none of the conditions that the binary form
    does not have; a map of addresses that is given is not empty. *)
Record from_source (o : opt_DefaultHeadlessRule) : Prop := FromSource {
  fs_domain : ho_DomainMatcher o = None;
  fs_source : ho_SourceIPSet o = None;
  fs_ipset : ho_IPSet o = None;
  fs_adguard : ho_AdGuardDomainMatcher o = None;
  fs_tunnel : ho_TunnelSource o = [] /\ ho_TunnelDestination o = [];
  fs_addresses : ho_NetworkInterfaceAddress o <> Some []
}.
Definition cidrs_built (o : opt_DefaultHeadlessRule) : Prop :=
  (nonempty (ho_SourceIPCIDR o) = true -> is_Some (ipset_of (ho_SourceIPCIDR o))) /\
  (nonempty (ho_IPCIDR o) = true -> is_Some (ipset_of (ho_IPCIDR o))).

Lemma compiled_addresses o : ho_NetworkInterfaceAddress o <> Some [] ->
  (if map_present (ho_NetworkInterfaceAddress o) then ho_NetworkInterfaceAddress o else None) = ho_NetworkInterfaceAddress o.
Proof. destruct (ho_NetworkInterfaceAddress o) as [[|]|]; done. Qed.

Lemma ipset_item src l i : NewIPCIDRItem src l = Ok i -> nonempty l = true -> ipset_of l = Some (ci_ipSet i) /\ ci_isSource i = src.
Proof. intros H Hl. unfold NewIPCIDRItem in H. inv_bind. unfold ipset_of. rewrite Hl. rewrite_Ok. cbn [mbind result_bind]. by rewrite_Ok. Qed.
Lemma ipset_of_present l : is_none (ipset_of l) = true \/ nonempty l = true.
Proof. unfold ipset_of. destruct (nonempty l); auto. Qed.
Lemma ipset_cond l : (nonempty l = true -> is_Some (ipset_of l)) -> negb (is_none (ipset_of l)) = nonempty l.
Proof. intros H. unfold ipset_of in *. destruct (nonempty l); [|done]. destruct (H eq_refl) as [s ->]. done. Qed.

Lemma default_sim nm v o : from_source o -> cidrs_built o -> v <> RuleSetVersion1 ->
  blocks_sim (headless_blocks_conn o ++ headless_blocks_env nm o)
    (headless_blocks_conn (compiled false v o) ++ headless_blocks_env nm (compiled false v o)).
Proof.
  intros [Hd Hs Hi Ha [Ht1 Ht2] Hn] [Hb1 Hb2] Hv. apply N.eqb_neq in Hv.
  unfold headless_blocks_conn, headless_blocks_env, compiled, recovered. simpl.
  rewrite compiled_addresses by done. rewrite Hd, Hs, Hi, Ha, Ht1, Ht2. simpl.
  apply sim_same, sim_swap; simpl; [by rewrite andb_false_r|done|by unfold domain_matcher; destruct (_ || _)|done| |].
  { intros i Hc Hi'. apply fmap_Ok in Hi' as (d & Hdi & ->). unfold domain_matcher. rewrite Hc, Hv.
    eexists. split; [done|]. intros w m. unfold NewDomainItem in Hdi.
    repeat (destruct (existsb _ _); [done|]). by injection Hdi as <-. }
  do 2 apply sim_same. apply sim_swap; simpl; [by rewrite andb_false_r|done|by apply ipset_cond|done| |].
  { intros i Hc Hi'. apply with_cause_Ok, fmap_Ok in Hi' as (d & Hdi & ->). destruct (ipset_item _ _ _ Hdi Hc) as [-> E].
    eexists. split; [done|]. intros w m. simpl. unfold IPCIDRItem_Match. simpl. by rewrite E. }
  apply sim_swap; simpl; [by rewrite andb_false_r|done|by apply ipset_cond|done| |].
  { intros i Hc Hi'. apply with_cause_Ok, fmap_Ok in Hi' as (d & Hdi & ->). destruct (ipset_item _ _ _ Hdi Hc) as [-> E].
    eexists. split; [done|]. intros w m. simpl. unfold IPCIDRItem_Match. simpl. by rewrite E. }
  do 17 apply sim_same. apply sim_swap; simpl; [by rewrite andb_false_r|done|by unfold adguard_matcher; destruct (nonempty (ho_AdGuardDomain o))|done| |constructor].
  intros i Hc [= <-]. unfold adguard_matcher. rewrite Hc. by eexists.
Qed.

Lemma compiled_default nm v o r : from_source o -> cidrs_built o -> v <> RuleSetVersion1 ->
  NewDefaultHeadlessRule nm o = Ok r ->
  exists r', NewDefaultHeadlessRule nm (compiled false v o) = Ok r' /\
  forall w m, HeadlessRule_Match w (DefaultHeadlessRule r') m = HeadlessRule_Match w (DefaultHeadlessRule r) m.
Proof.
  intros Hs Hc Hv Hr. apply run_blocks_Ok in Hr as (its & Hp & ->).
  destruct (sim_picked _ _ (default_sim nm v o Hs Hc Hv) its Hp) as (its' & Hp' & He).
  exists (add_items its' (rule_init (ho_Invert o) tt)). split.
  - unfold NewDefaultHeadlessRule. rewrite run_blocks_picked, Hp'. done.
  - intros w m. symmetry. by apply built_equiv.
Qed.

Lemma compiled_valid v o : from_source o -> cidrs_built o ->
  opt_DefaultHeadlessRule_IsValid (compiled false v o) = opt_DefaultHeadlessRule_IsValid o.
Proof.
  intros [Hd Hs Hi Ha [Ht1 Ht2] Hn] [Hb1%ipset_cond Hb2%ipset_cond].
  assert (negb (is_none (domain_matcher v o)) = nonempty (ho_Domain o) || nonempty (ho_DomainSuffix o)) as Hm
    by (unfold domain_matcher; by destruct (_ || _)).
  assert (negb (is_none (adguard_matcher o)) = nonempty (ho_AdGuardDomain o)) as Hg
    by (unfold adguard_matcher; by destruct (nonempty (ho_AdGuardDomain o))).
  unfold opt_DefaultHeadlessRule_IsValid, opt_DefaultHeadlessRule_isZero, compiled, recovered.
  cbn [
    ho_QueryType ho_Network ho_Domain ho_DomainSuffix ho_DomainKeyword ho_DomainRegex ho_SourceIPCIDR ho_IPCIDR
    ho_SourcePort ho_SourcePortRange ho_Port ho_PortRange ho_ProcessName ho_ProcessPath ho_ProcessPathRegex
    ho_PackageName ho_NetworkType ho_NetworkIsExpensive ho_NetworkIsConstrained ho_WIFISSID ho_WIFIBSSID
    ho_Invert ho_DomainMatcher ho_SourceIPSet ho_IPSet ho_AdGuardDomain ho_AdGuardDomainMatcher ho_TunnelSource
    ho_TunnelDestination ho_NetworkInterfaceAddress ho_DefaultInterfaceAddress].
  rewrite compiled_addresses by done. rewrite Hd, Hs, Hi, Ha, Ht1, Ht2. cbn [nonempty is_none negb].
  rewrite <- Hb1, <- Hb2, <- Hg, !negb_involutive.
  assert (is_none (domain_matcher v o) = negb (nonempty (ho_Domain o)) && negb (nonempty (ho_DomainSuffix o))) as ->
    by (rewrite <- negb_orb, <- Hm, negb_involutive; done).
  rewrite !andb_true_r. f_equal.
  generalize (is_none (ipset_of (ho_SourceIPCIDR o))) (is_none (ipset_of (ho_IPCIDR o))) (is_none (adguard_matcher o)).
  intros a b c. generalize (negb (nonempty (ho_Domain o))) (negb (nonempty (ho_DomainSuffix o))). intros d e.
  destruct a, b, c, d, e; rewrite ?andb_true_r, ?andb_false_r; done.
Qed.

(** ** Logical rules *)

Inductive source_rule : opt_HeadlessRule -> Prop :=
| source_default d l : from_source d -> source_rule (mkOptHeadlessRule RuleTypeDefault d l)
| source_logical d l : Forall source_rule (lo_Rules l) -> source_rule (mkOptHeadlessRule RuleTypeLogical d l).

Lemma writes_all l s : writes l = Ok s -> Forall (fun w => is_Ok w = true) l.
Proof.
  revert s. induction l as [|w l IH]; intros s H; [constructor|]. apply writes_cons in H as (a & b & -> & Hb & _).
  constructor; [done|by eapply IH].
Qed.
Lemma cidr_written ty l msg : is_Ok (write_if (nonempty l) (with_cause msg (writeRuleItemCIDR ty l))) = true ->
  nonempty l = true -> is_Some (ipset_of l).
Proof.
  intros H Hl. rewrite Hl in H. cbn [write_if] in H. unfold writeRuleItemCIDR in H. unfold ipset_of. rewrite Hl.
  destruct (parse_cidrs 0 l); [|done|done]. cbn [mbind result_bind] in *. destruct (IPSetBuilder_IPSet _); [by eexists|done|done].
Qed.
Lemma written_cidrs v o s : writeDefaultRule o v = Ok s -> cidrs_built o.
Proof.
  intros H. unfold writeDefaultRule in H. apply writes_all in H. rewrite Forall_forall in H.
  split; eapply cidr_written; apply H; unfold write_items, write_items_conn; cbn [app]; [do 6 apply list_elem_of_further|do 7 apply list_elem_of_further];
    apply list_elem_of_here.
Qed.

(** Each of the rules has a property that its writing shows. *)
Lemma written_rules v (P : opt_HeadlessRule -> Prop) l :
  Forall (fun o => forall s, writeRule v o = Ok s -> P o) l -> forall s, writes (map (writeRule v) l) = Ok s -> Forall P l.
Proof.
  intros H s Hs. apply writes_all in Hs. rewrite Forall_forall in Hs. rewrite Forall_forall in H |- *. intros o Ho.
  specialize (Hs (writeRule v o) (list_elem_of_fmap_2 _ _ _ Ho)). destruct (writeRule v o) eqn:E; [|done|done]. by eapply H.
Qed.
Lemma written_logical v d l s : writeRule v (mkOptHeadlessRule RuleTypeLogical d l) = Ok s ->
  exists t, writes (map (writeRule v) (lo_Rules l)) = Ok t.
Proof.
  intros H. cbn [writeRule] in H. rewrite bool_decide_eq_false_2, bool_decide_eq_true_2 in H by done.
  unfold writeLogicalRule in H. do 3 apply writes_cons in H as (? & ? & _ & H & _). apply writes_cons in H as (t & ? & H & _). eauto.
Qed.

Lemma all_result_ext {A} (f : A -> result bool) (g : A -> A) l :
  Forall (fun x => f (g x) = f x) l -> all_result f (map g l) = all_result f l.
Proof. induction 1 as [|x l E _ IH]; [done|]. cbn [map all_result]. by rewrite E, IH. Qed.

Lemma compiled_rule_valid v (o : opt_HeadlessRule) : source_rule o -> forall s, writeRule v o = Ok s ->
  opt_HeadlessRule_IsValid (compiled_rule false v o) = opt_HeadlessRule_IsValid o.
Proof.
  induction o as [ty d l IH] using opt_HeadlessRule_nested_ind. intros Hs s Hw. inversion Hs as [? ? Hd|? ? Hl]; subst ty.
  - cbn [writeRule] in Hw. rewrite bool_decide_eq_true_2 in Hw by done. cbn [compiled_rule].
    rewrite bool_decide_eq_true_2 by done. cbn [opt_HeadlessRule_IsValid]. rewrite bool_decide_eq_true_2 by done. cbn [orb]. f_equal.
    apply compiled_valid; [done|by eapply written_cidrs].
  - apply written_logical in Hw as [t Ht]. cbn [compiled_rule]. rewrite bool_decide_eq_false_2 by done. cbn [opt_HeadlessRule_IsValid].
    change (bool_decide (RuleTypeLogical = RuleTypeDefault) || str_empty RuleTypeLogical) with false. cbn [orb].
    rewrite bool_decide_eq_true_2 by done. unfold opt_Logical_IsValid. cbn [lo_Rules]. rewrite nonempty_map.
    destruct (nonempty _); [|done]. apply all_result_ext. eapply written_rules; [|exact Ht].
    rewrite Forall_forall in IH, Hl |- *. intros o Ho. by apply IH, Hl.
Qed.

Definition match_equiv (r r' : HeadlessRule) : Prop := forall w m, HeadlessRule_Match w r' m = HeadlessRule_Match w r m.

Lemma logical_equiv mode inv rs rs' : Forall2 match_equiv rs rs' ->
  match_equiv (LogicalHeadlessRule (mkLogicalRule rs mode inv tt)) (LogicalHeadlessRule (mkLogicalRule rs' mode inv tt)).
Proof.
  intros H w m. cbn [HeadlessRule_Match]. unfold abstractLogicalRule_Match. cbn [lr_mode lr_rules lr_invert].
  assert (forall m, all_Match (HeadlessRule_Match w) rs' m = all_Match (HeadlessRule_Match w) rs m) as Ha.
  { induction H as [|r r' rs rs' E _ IH]; intros m'; [done|]. cbn [all_Match]. rewrite E. by destruct (HeadlessRule_Match w r _) as [[]]. }
  assert (forall m, any_Match (HeadlessRule_Match w) rs' m = any_Match (HeadlessRule_Match w) rs m) as Hy.
  { clear Ha. induction H as [|r r' rs rs' E _ IH]; intros m'; [done|]. cbn [any_Match]. rewrite E. by destruct (HeadlessRule_Match w r _) as [[]]. }
  by rewrite Ha, Hy.
Qed.

(** Rules built from lists whose elements build alike. *)
Lemma sub_rules_equiv nm (g : opt_HeadlessRule -> opt_HeadlessRule) l :
  Forall (fun o => forall r, NewHeadlessRule nm o = Ok r -> exists r', NewHeadlessRule nm (g o) = Ok r' /\ match_equiv r r') l ->
  forall i rs, new_sub_rules (NewHeadlessRule nm) i l = Ok rs ->
  exists rs', new_sub_rules (NewHeadlessRule nm) i (map g l) = Ok rs' /\ Forall2 match_equiv rs rs'.
Proof.
  induction 1 as [|o l Ho _ IH]; intros i rs H; cbn [new_sub_rules map] in *; [injection H as <-; by exists []|].
  inv_bind. destruct (Ho _ H) as (r' & -> & Hr). cbn [with_cause mbind result_bind].
  match goal with H : new_sub_rules _ _ l = _ |- _ => apply IH in H as (rs' & -> & Hrs) end. cbn [mbind result_bind]. eauto.
Qed.
Lemma compiled_rule_built nm v (o : opt_HeadlessRule) : v <> RuleSetVersion1 -> source_rule o -> forall s, writeRule v o = Ok s ->
  forall r, NewHeadlessRule nm o = Ok r -> exists r', NewHeadlessRule nm (compiled_rule false v o) = Ok r' /\ match_equiv r r'.
Proof.
  intros Hv. induction o as [ty d l IH] using opt_HeadlessRule_nested_ind. intros Hs s Hw r Hr.
  pose proof (compiled_rule_valid v _ Hs _ Hw) as Hval. inversion Hs as [? ? Hd|? ? Hl]; subst ty.
  - cbn [writeRule compiled_rule] in *. rewrite bool_decide_eq_true_2 in * by done. cbn [NewHeadlessRule] in *.
    rewrite bool_decide_eq_true_2 in * by done. rewrite orb_true_r in *.
    pose proof (written_cidrs _ _ _ Hw) as Hc. rewrite compiled_valid by done.
    destruct (opt_DefaultHeadlessRule_IsValid d); [|done]. apply fmap_Ok in Hr as (r0 & Hr0 & ->).
    destruct (compiled_default nm v d r0 Hd Hc Hv Hr0) as (r' & -> & He). eexists. split; [done|]. intros w m. apply He.
  - destruct (written_logical _ _ _ _ Hw) as [t Ht]. cbn [compiled_rule] in *. rewrite bool_decide_eq_false_2 in * by done.
    set (l' := mkOptLogical _ _ _) in *. cbn [opt_HeadlessRule_IsValid NewHeadlessRule] in *.
    change (bool_decide (RuleTypeLogical = RuleTypeDefault) || str_empty RuleTypeLogical) with false in *.
    change (str_empty RuleTypeLogical || bool_decide (RuleTypeLogical = RuleTypeDefault)) with false in *.
    rewrite bool_decide_eq_true_2 in * by done. cbn iota in *. rewrite Hval.
    apply bind_Ok in Hr as ([] & -> & Hr); [|done]. cbn [mbind result_bind]. apply fmap_Ok in Hr as (k & Hk & ->).
    unfold new_logical in *. cbn [lo_Mode l']. destruct (_ || _); [|done]. apply bind_Ok in Hk as (rs & Hrs & Hk). injection Hk as <-.
    destruct (sub_rules_equiv nm (compiled_rule false v) (lo_Rules l)) with (2 := Hrs) as (rs' & E & He).
    { eapply written_rules; [|exact Ht]. rewrite Forall_forall in IH, Hl |- *. intros o Ho s' Hs' r0 Hr0. by eapply IH; [| |exact Hs'|]; auto. }
    cbn [lo_Rules l'] in *. rewrite E. cbn [mbind result_bind fmap result_fmap]. eexists. split; [done|]. by apply logical_equiv.
Qed.
End Match.
