(* ===== verification/SRSCompile.v ===== *)
(** * SRSCompile: compiling a rule-set

    When a rule-set can be written, which version the compiler chooses, and that loading the compiled file
    gives the rules that loading its source gives. *)

From S2P Require Import Prelude GoStd NetIP Metadata RuleItems RuleMatch RuleAction RuleOptions RuleBuild RuleSet Rules RuleSpec.
From S2P Require Import RuleConditions RuleLaws FakeIP FakeIPLaws FakeIPCodec GoIO Groups GroupLaws CacheFile CacheFileLaws CacheFileFakeIP.
From S2P Require Import SRS SRSLaws SRSMatch.
Open Scope string_scope.

Section Compile.
Context {X : Externals} {SL : SRSLibrary} {CL : CacheLibrary}.

(** ** When a rule-set can be written *)

Definition needs3 (d : opt_DefaultHeadlessRule) : bool :=
  nonempty (ho_NetworkType d) || ho_NetworkIsExpensive d || ho_NetworkIsConstrained d.
Definition needs4 (d : opt_DefaultHeadlessRule) : bool :=
  map_present (ho_NetworkInterfaceAddress d) || nonempty (ho_DefaultInterfaceAddress d).
(** Conditions that version [v] does not have. *)
Definition needs_more (v : N) (d : opt_DefaultHeadlessRule) : bool :=
  (v <? 3)%N && needs3 d || (v <? 4)%N && needs4 d || (v <? 2)%N && nonempty (ho_AdGuardDomain d).
Definition cidrs_parse (l : list string) : bool := negb (nonempty l) || is_Ok (parse_cidrs 0 l ≫= IPSetBuilder_IPSet).
(** What does not depend on the version: CIDRs that parse, known types and modes. *)
Fixpoint encodable_rule (o : opt_HeadlessRule) : bool :=
  match o with
  | mkOptHeadlessRule ty d l =>
      if bool_decide (ty = RuleTypeDefault) then cidrs_parse (ho_SourceIPCIDR d) && cidrs_parse (ho_IPCIDR d)
      else bool_decide (ty = RuleTypeLogical) &&
        (bool_decide (lo_Mode l = LogicalTypeAnd) || bool_decide (lo_Mode l = LogicalTypeOr)) && forallb encodable_rule (lo_Rules l)
  end.

Lemma is_Ok_writes l : is_Ok (writes l) = forallb is_Ok l.
Proof.
  induction l as [|w l IH]; [done|]. change (writes (w :: l)) with (let! x := w in let! y := writes l in Ok (x +:+ y)).
  cbn [forallb]. rewrite <- IH. destruct w; [|done|done]. cbn [mbind result_bind is_Ok andb]. by destruct (writes l).
Qed.
Lemma is_Ok_if c w : is_Ok (write_if c w) = negb c || is_Ok w.
Proof. by destruct c. Qed.
Lemma is_Ok_since m v msg s : is_Ok (since m v msg (Ok s)) = negb (v <? m)%N.
Proof. unfold since. by destruct (v <? m)%N. Qed.
Lemma is_Ok_cidr ty msg l : negb (nonempty l) || is_Ok (with_cause msg (writeRuleItemCIDR ty l)) = cidrs_parse l.
Proof.
  unfold cidrs_parse, writeRuleItemCIDR. f_equal. destruct (parse_cidrs 0 l); [|done|done]. cbn [mbind result_bind].
  by destruct (IPSetBuilder_IPSet _).
Qed.

Lemma writeDefaultRule_Ok v d :
  is_Ok (writeDefaultRule d v) = cidrs_parse (ho_SourceIPCIDR d) && cidrs_parse (ho_IPCIDR d) && negb (needs_more v d).
Proof.
  unfold writeDefaultRule, write_items, write_items_conn, write_items_env. rewrite is_Ok_writes. cbn [forallb app].
  rewrite !is_Ok_if, !is_Ok_since, !is_Ok_cidr. cbn [is_Ok]. rewrite !orb_true_r, !andb_true_l.
  unfold needs_more, needs3, needs4, RuleSetVersion3, RuleSetVersion4, RuleSetVersion2.
  generalize (cidrs_parse (ho_SourceIPCIDR d)) (cidrs_parse (ho_IPCIDR d)) (nonempty (ho_NetworkType d)) (ho_NetworkIsExpensive d)
    (ho_NetworkIsConstrained d) (map_present (ho_NetworkInterfaceAddress d)) (nonempty (ho_DefaultInterfaceAddress d))
    (nonempty (ho_AdGuardDomain d)) (v <? 3)%N (v <? 4)%N (v <? 2)%N.
  by intros [] [] [] [] [] [] [] [] [] [] [].
Qed.
Lemma forallb_and {A} (f g h : A -> bool) l : Forall (fun x => f x = g x && negb (h x)) l ->
  forallb f l = forallb g l && negb (existsb h l).
Proof.
  induction 1 as [|x l E _ IH]; [done|]. cbn [forallb existsb]. rewrite E, IH.
  by destruct (g x), (h x), (forallb g l), (existsb h l).
Qed.
Lemma writeRule_Ok v o : is_Ok (writeRule v o) = encodable_rule o && negb (has_headless_rule (needs_more v) o).
Proof.
  induction o as [ty d l IH] using opt_HeadlessRule_nested_ind. cbn [writeRule encodable_rule has_headless_rule].
  destruct (bool_decide (ty = RuleTypeDefault)); [apply writeDefaultRule_Ok|].
  destruct (bool_decide (ty = RuleTypeLogical)); [|done]. unfold writeLogicalRule. rewrite is_Ok_writes. cbn [forallb is_Ok andb].
  rewrite is_Ok_writes, forallb_map, (forallb_and _ _ _ _ IH), andb_true_r. unfold write_mode.
  destruct (bool_decide (lo_Mode l = LogicalTypeAnd)), (bool_decide (lo_Mode l = LogicalTypeOr)); done.
Qed.
Lemma Write_Ok v rules : is_Ok (Write rules v) = forallb encodable_rule rules && negb (HasHeadlessRule rules (needs_more v)).
Proof.
  unfold Write. assert (forall r, is_Ok (let! body := r in Ok (MagicBytes +:+ byte v +:+ zlib_Compress body)) = is_Ok r) as ->
    by (by intros []).
  rewrite is_Ok_writes. cbn [forallb is_Ok andb]. rewrite is_Ok_writes, forallb_map, andb_true_r. apply forallb_and.
  apply Forall_true. intros o. apply writeRule_Ok.
Qed.

(** ** The version *)

Lemma has_rule_ext (f g : opt_DefaultHeadlessRule -> bool) rules : (forall d, f d = g d) ->
  HasHeadlessRule rules f = HasHeadlessRule rules g.
Proof.
  intros E. apply existsb_ext_in. intros o _. induction o as [ty d l IH] using opt_HeadlessRule_nested_ind.
  cbn [has_headless_rule]. rewrite E. destruct (bool_decide _); [done|]. destruct (bool_decide _); [|done].
  apply existsb_ext_in. by rewrite Forall_forall in IH.
Qed.
Lemma has_rule_orb f g o : has_headless_rule (fun d => f d || g d) o = has_headless_rule f o || has_headless_rule g o.
Proof.
  induction o as [ty d l IH] using opt_HeadlessRule_nested_ind. cbn [has_headless_rule].
  destruct (bool_decide _); [done|]. destruct (bool_decide _); [|done].
  rewrite <- existsb_orb. apply existsb_ext_in. by rewrite Forall_forall in IH.
Qed.
Lemma has_rules_orb f g rules :
  HasHeadlessRule rules (fun d => f d || g d) = HasHeadlessRule rules f || HasHeadlessRule rules g.
Proof. unfold HasHeadlessRule. rewrite <- existsb_orb. apply existsb_ext_in. intros o _. apply has_rule_orb. Qed.

(** What a version that is not the first lacks. *)
Lemma Write_version v rules : (2 <= v)%N -> is_Ok (Write rules v) = forallb encodable_rule rules
  && negb ((v <? 3)%N && HasHeadlessRule rules needs3 || (v <? 4)%N && HasHeadlessRule rules needs4).
Proof.
  intros Hv. rewrite Write_Ok. f_equal. f_equal.
  assert (forall b f, HasHeadlessRule rules (fun d => b && f d) = b && HasHeadlessRule rules f) as Hand.
  { intros [] f; [done|]. apply existsb_none. intros o _. induction o as [ty d l IH] using opt_HeadlessRule_nested_ind.
    cbn [has_headless_rule]. destruct (bool_decide _); [done|]. destruct (bool_decide _); [|done].
    apply existsb_none. by rewrite Forall_forall in IH. }
  rewrite <- !Hand, <- has_rules_orb. apply has_rule_ext. intros d. unfold needs_more.
  destruct (N.ltb_spec v 2); [lia|]. cbn [andb]. by rewrite orb_false_r.
Qed.

(** the compiler chooses the least version.  If a rule-set can be written in its own version (2 to 4), it can
    be written in the version that [downgradeRuleSetVersion] chooses, and in no earlier one from 2 on. *)
Theorem downgrade_least v rules : (2 <= v <= 4)%N -> is_Ok (Write rules v) = true ->
  let v' := downgradeRuleSetVersion v rules in
  (2 <= v' <= v)%N /\ is_Ok (Write rules v') = true /\
  forall u, (2 <= u < v')%N -> is_Ok (Write rules u) = false.
Proof.
  intros Hv Hw. change (downgradeRuleSetVersion v rules) with
    (let version := if (v =? 4)%N && negb (HasHeadlessRule rules needs4) then 3%N else v in
     if (version =? 3)%N && negb (HasHeadlessRule rules needs3) then 2%N else version).
  rewrite Write_version in Hw by lia. apply andb_true_iff in Hw as [He Hn].
  assert (forall u, (2 <= u)%N -> is_Ok (Write rules u) =
    negb ((u <? 3)%N && HasHeadlessRule rules needs3 || (u <? 4)%N && HasHeadlessRule rules needs4)) as HW.
  { intros u Hu. by rewrite Write_version, He by lia. }
  assert (v = 2 \/ v = 3 \/ v = 4)%N as [-> | [-> | ->]] by lia;
    destruct (HasHeadlessRule rules needs3), (HasHeadlessRule rules needs4); try done; cbn zeta;
    repeat (split; [done||by rewrite HW|]); intros u Hu; cbn in Hu; rewrite HW by lia;
    destruct (N.ltb_spec u 3), (N.ltb_spec u 4); done || lia.
Qed.
End Compile.

Section Load.
Context {X : Externals} {SL : SRSLibrary} {SW : SRSLaws} {CL : CacheLibrary} {AL : AddressLaws}.

(** ** Rule-sets *)

Lemma rules_equiv nm v l : v <> RuleSetVersion1 -> Forall source_rule l -> forall s, writes (map (writeRule v) l) = Ok s ->
  forall i rs, new_headless_rules nm i l = Ok rs ->
  exists rs', new_headless_rules nm i (map (compiled_rule false v) l) = Ok rs' /\ Forall2 match_equiv rs rs'.
Proof.
  intros Hv. induction 1 as [|o l Ho _ IH]; intros s Hs i rs H; cbn [new_headless_rules map] in *; [injection H as <-; by exists []|].
  apply writes_cons in Hs as (a & b & Ha & Hb & _). inv_bind.
  match goal with H : NewHeadlessRule _ _ = _ |- _ => destruct (compiled_rule_built nm v o Hv Ho a Ha _ H) as (r' & -> & Hr) end.
  cbn [with_cause mbind result_bind].
  match goal with H : new_headless_rules _ _ l = _ |- _ => apply (IH b Hb) in H as (rs' & -> & Hrs) end.
  cbn [mbind result_bind]. eauto.
Qed.
Lemma rules_Match_equiv w rs rs' : Forall2 match_equiv rs rs' -> forall m, rules_Match w rs' m = rules_Match w rs m.
Proof.
  induction 1 as [|r r' rs rs' E _ IH]; intros m; [done|]. cbn [rules_Match]. rewrite E. destruct (HeadlessRule_Match w r m) as [[] ?]; [done|apply IH].
Qed.

Lemma has_rule_compiled v (f : opt_DefaultHeadlessRule -> bool) o s : source_rule o -> writeRule v o = Ok s ->
  (forall d, cidrs_built d -> from_source d -> f (compiled false v d) = f d) ->
  has_headless_rule f (compiled_rule false v o) = has_headless_rule f o.
Proof.
  intros Ho Hs Hf. revert s Ho Hs. induction o as [ty d l IH] using opt_HeadlessRule_nested_ind. intros s Ho Hs.
  inversion Ho as [? ? Hd|? ? Hl]; subst ty.
  - cbn [writeRule compiled_rule] in *. rewrite bool_decide_eq_true_2 in * by done. cbn [has_headless_rule].
    rewrite bool_decide_eq_true_2 by done. apply Hf; [by eapply written_cidrs|done].
  - apply written_logical in Hs as [t Ht]. cbn [compiled_rule has_headless_rule].
    rewrite (bool_decide_eq_false_2 (RuleTypeLogical = RuleTypeDefault)) by done. cbn [has_headless_rule].
    rewrite (bool_decide_eq_false_2 (RuleTypeLogical = RuleTypeDefault)), bool_decide_eq_true_2 by done.
    cbn [lo_Rules]. rewrite existsb_map. apply existsb_ext_in, Forall_forall. eapply written_rules; [|exact Ht].
    rewrite Forall_forall in IH, Hl |- *. intros o Ho' s' Hs'. eapply IH; [done|by apply Hl|done].
Qed.
Lemma metadata_compiled v l s : Forall source_rule l -> writes (map (writeRule v) l) = Ok s ->
  metadata_of (map (compiled_rule false v) l) = metadata_of l.
Proof.
  intros Hl Hs. assert (forall f : opt_DefaultHeadlessRule -> bool,
    (forall d, cidrs_built d -> from_source d -> f (compiled false v d) = f d) ->
    HasHeadlessRule (map (compiled_rule false v) l) f = HasHeadlessRule l f) as H.
  { intros f Hf. unfold HasHeadlessRule. rewrite existsb_map. apply existsb_ext_in, Forall_forall.
    eapply written_rules; [|exact Hs]. eapply Forall_impl; [exact Hl|]. intros o Ho t Ht. by eapply has_rule_compiled. }
  unfold metadata_of. rewrite !H; [done| | |]; intros d [Hb1 Hb2] Hd; [|done|done].
  unfold isIPCIDRHeadlessRule, compiled, recovered. cbn [ho_IPCIDR ho_IPSet nonempty orb].
  by rewrite ipset_cond, (fs_ipset _ Hd), orb_false_r.
Qed.

(** ** Files *)

(** The decoders of a rule-set object: the source format, and [srs.Read]. *)
Definition decoders (json : string -> result PlainRuleSetCompat) : Decoders :=
  mkDecoders json (fun content => Read (mkReader content io_EOF) false).
Definition with_format (format : string) (s : LocalRuleSet) : LocalRuleSet :=
  mkLocalRuleSet (ls_tag s) (ls_rules s) (ls_metadata s) format (ls_watching s) (ls_callbacks s) (ls_nextCallback s) (ls_refs s).

Lemma downgrade_bounds v rules : (2 <= v <= 4)%N -> (2 <= downgradeRuleSetVersion v rules <= 4)%N.
Proof.
  intros Hv. unfold downgradeRuleSetVersion, RuleSetVersion4, RuleSetVersion3, RuleSetVersion2.
  assert (v = 2 \/ v = 3 \/ v = 4)%N as [-> | [-> | ->]] by lia; cbn zeta; cbn [N.eqb Pos.eqb andb];
    repeat (destruct (HasHeadlessRule _ _); cbn [negb N.eqb Pos.eqb andb]); lia.
Qed.

(** C9: loading a compiled rule-set is loading its source.  If a local rule-set loads a source file (of version 2
    or later, without tunnel conditions), then it loads what [rule-set compile] makes of the file as well: it has the same
    metadata, and on every connection it gives the same answer and leaves the same rule cache. *)
Theorem compile_load json nm content p data s s1 called :
  json content = Ok p -> (2 <= prc_Version p <= 4)%N -> rules_fit (prc_Rules p) ->
  Forall rule_writable (prc_Rules p) -> Forall source_rule (prc_Rules p) ->
  compileRuleSet (decoders json) content = Ok data ->
  LocalRuleSet_reloadFile (decoders json) nm (Ok content) (with_format RuleSetFormatSource s) = Ok (s1, called) ->
  exists s2, LocalRuleSet_reloadFile (decoders json) nm (Ok data) (with_format RuleSetFormatBinary s) = Ok (s2, called) /\
    ls_metadata s2 = ls_metadata s1 /\ forall w m, LocalRuleSet_Match w s2 m = LocalRuleSet_Match w s1 m.
Proof.
  intros Hj Hv Hfit Hwr Hsrc Hc Hl. unfold compileRuleSet in Hc. cbn [decoders dec_json] in Hc. rewrite Hj in Hc. cbn [mbind result_bind] in Hc.
  pose proof (downgrade_bounds _ (prc_Rules p) Hv) as Hv'. set (v := downgradeRuleSetVersion _ _) in *. clearbody v.
  pose proof (Read_Write_compiled false v _ data (proj2 Hv') Hfit Hwr Hc) as HR.
  assert (exists t, writes (map (writeRule v) (prc_Rules p)) = Ok t) as [t Ht].
  { unfold Write in Hc. apply bind_Ok in Hc as (body & Hb & _). apply writes_cons in Hb as (? & ? & _ & Hb & _).
    apply writes_cons in Hb as (t & ? & Hb & _). eauto. }
  assert (forall p, (2 <= prc_Version p <= 4)%N -> PlainRuleSetCompat_Upgrade p = Ok (prc_Rules p)) as HU.
  { intros q Hq. unfold PlainRuleSetCompat_Upgrade. destruct (N.leb_spec 1 (prc_Version q)), (N.leb_spec (prc_Version q) 4); done || lia. }
  unfold LocalRuleSet_reloadFile in *. cbn [with_format ls_fileFormat decoders dec_json dec_srs] in *.
  change (bool_decide (RuleSetFormatSource = RuleSetFormatSource) || str_empty RuleSetFormatSource) with true in Hl.
  change (bool_decide (RuleSetFormatBinary = RuleSetFormatSource) || str_empty RuleSetFormatBinary) with false.
  rewrite (bool_decide_eq_true_2 (RuleSetFormatBinary = RuleSetFormatBinary)) by done. cbn [mbind result_bind] in *.
  rewrite Hj in Hl. cbn [mbind result_bind] in Hl. rewrite HR. cbn [mbind result_bind].
  rewrite HU in Hl by done. rewrite HU by done. cbn [mbind result_bind compiled_set prc_Rules] in *.
  unfold LocalRuleSet_reloadRules in *. apply bind_Ok in Hl as (rs & Hrs & Hl). injection Hl as <- <-.
  destruct (rules_equiv nm v _ ltac:(unfold RuleSetVersion1; lia) Hsrc t Ht 0 rs Hrs) as (rs' & -> & He).
  cbn [mbind result_bind]. eexists. split; [done|]. cbn [ls_metadata ls_rules with_format LocalRuleSet_Match]. split.
  - by eapply metadata_compiled.
  - intros w m. by apply rules_Match_equiv.
Qed.
End Load.
