(* ===== verification/SRSSample.v ===== *)
(** * SRSSample: compiled rule-sets at work

    A small instance of the libraries: lists of strings are written byte by byte with escapes, everything else
    as such a list; compression marks its data; an IP set is its ranges. *)

From S2P Require Import Prelude GoStd NetIP Metadata Sample RuleItems RuleMatch RuleAction RuleOptions RuleBuild RuleSet Rules RuleSpec.
From S2P Require Import RuleConditions RuleLaws FakeIP FakeIPLaws FakeIPCodec GoIO Groups GroupLaws CacheFile CacheFileLaws CacheFileFakeIP CacheFileSample.
From S2P Require Import SRS SRSLaws SRSTotal SRSMatch SRSCompile.
Open Scope string_scope.

(** ** A codec for lists of strings *)

(** An element: its bytes, each after a [1], and an [n]; a [0] ends the list. *)
Fixpoint escape (s rest : string) : string :=
  match s with "" => String "n" rest | String c s => String "1" (String c (escape s rest)) end.
Fixpoint write_list (l : list string) (rest : string) : string :=
  match l with [] => String "0" rest | s :: l => escape s (write_list l rest) end.
Definition prepend (c : ascii) (p : result (list string * string)) : result (list string * string) :=
  match p with Ok (s :: l, rest) => Ok (String c s :: l, rest) | Ok ([], _) => Err ErrInvalid | Err e => Err e | Panic m => Panic m end.
Fixpoint read_list (escaped : bool) (s : string) : result (list string * string) :=
  match s with
  | "" => Err io_ErrUnexpectedEOF
  | String c s =>
      if escaped then prepend c (read_list false s)
      else if bool_decide (c = "1"%char) then read_list true s
      else if bool_decide (c = "n"%char) then let! (l, rest) := read_list false s in Ok ("" :: l, rest)
      else if bool_decide (c = "0"%char) then Ok ([], s)
      else Err ErrInvalid
  end.

Lemma read_escape s t l rest : read_list false t = Ok (l, rest) -> read_list false (escape s t) = Ok (s :: l, rest).
Proof.
  intros H. induction s as [|c s IH]; [by simpl; rewrite H|]. cbn [escape]. simpl. by rewrite IH.
Qed.
Lemma read_write_list l rest : read_list false (write_list l rest) = Ok (l, rest).
Proof. induction l as [|s l IH]; [done|]. by apply read_escape. Qed.
Lemma write_list_app l a b : write_list l a +:+ b = write_list l (a +:+ b).
Proof.
  induction l as [|s l IH]; [done|]. cbn [write_list]. rewrite <- IH. generalize (write_list l a). intros t. clear.
  induction s as [|c s IH]; [done|]. cbn [escape].
  change (String "1" (String c (escape s t)) +:+ b) with (String "1" (String c (escape s t +:+ b))). by rewrite IH.
Qed.
Lemma read_list_shorter s : forall escaped,
  match read_list escaped s with Ok (_, rest) => (String.length rest < String.length s)%nat | Err _ => True | Panic _ => False end.
Proof.
  induction s as [|c s IH]; intros escaped; [done|]. cbn [read_list String.length]. destruct escaped.
  - specialize (IH false). unfold prepend. destruct (read_list false s) as [[[|] ?]| |]; try done. lia.
  - repeat case_bool_decide; try done.
    + specialize (IH true). destruct (read_list true s) as [[]| |]; try done. lia.
    + specialize (IH false). destruct (read_list false s) as [[]| |]; try done. cbn [mbind result_bind]. lia.
    + lia.
Qed.

(** Values as lists of strings. *)
Definition list_codec {A} (to : A -> list string) (from : list string -> A) : Codec A :=
  mkCodec _ (fun a => write_list (to a) "")
    (fun r => let! (l, rest) := read_list false (rd_data r) in Ok (from l, set_data rest r)).
Lemma list_codec_law {A} (to : A -> list string) (from : list string -> A) (P : A -> Prop) : (forall a, P a -> from (to a) = a) -> codec_law (list_codec to from) P.
Proof.
  intros H a rest e Ha. unfold list_codec. cbn [encode decode rd_data]. rewrite write_list_app. change ("" +:+ rest) with rest.
  rewrite read_write_list. cbn [mbind result_bind]. by rewrite H.
Qed.
Lemma list_codec_takes {A} (to : A -> list string) (from : list string -> A) r : takes 1 r (decode (list_codec to from) r).
Proof.
  unfold list_codec, takes, bytes_left. cbn [decode]. pose proof (read_list_shorter (rd_data r) false) as H.
  destruct (read_list false (rd_data r)) as [[]| |]; cbn [mbind result_bind set_data rd_data]; [lia|done|done].
Qed.
Definition strings_codec : Codec (list string) := list_codec id id.
Definition uints_codec (n : nat) : Codec (list N) := list_codec (map (be_bytes n)) (map be_val).
Definition bytes_codec : Codec string := list_codec (fun s => [s]) (fun l => default "" (head l)).
Definition pair_codec : Codec (string * string) :=
  list_codec (fun p => [fst p; snd p]) (fun l => match l with [a; b] => (a, b) | _ => ("", "") end).
(** Two lists: the length of the first in unary, the first and the second. *)
Definition lists_codec : Codec (list string * list string) :=
  list_codec (fun p => str_concat (map (fun _ => "x") (fst p)) :: (fst p ++ snd p)%list)
    (fun l => match l with n :: l => (take (String.length n) l, drop (String.length n) l) | [] => ([], []) end).

(** ** The libraries *)

(** The ranges of a set: from the first to the last address of a prefix. *)
Definition last_bits (bits : Z) (a : Addr) : N := (2 ^ Z.to_N (Addr_BitLen a - bits))%N.
Definition prefix_range (p : Prefix) : Addr * Addr :=
  let block := last_bits (pfx_bits p) (pfx_ip p) in
  let first (v : N) := (v / block * block)%N in
  match pfx_ip p with
  | AddrNone => (AddrNone, AddrNone)
  | Addr4 v => (Addr4 (first v), Addr4 (first v + block - 1))
  | Addr6 v zone => (Addr6 (first v) zone, Addr6 (first v + block - 1) zone)
  end.
Definition op_range (op : ipset_op) : Addr * Addr := match op with OpAddPrefix p => prefix_range p | OpAdd a => (a, a) end.
Definition range_contains (a : Addr) (rr : Addr * Addr) : bool :=
  Bool.eqb (Addr_Is4 a) (Addr_Is4 (fst rr)) && (Addr_bits (fst rr) <=? Addr_bits a)%N && (Addr_bits a <=? Addr_bits (snd rr))%N.

Definition srs_sample : Externals := {|
  Socksaddr_IsIP := @Socksaddr_IsIP sample;
  Socksaddr_IsIPv4 := @Socksaddr_IsIPv4 sample;
  Socksaddr_IsIPv6 := @Socksaddr_IsIPv6 sample;
  Socksaddr_IsFqdn := @Socksaddr_IsFqdn sample;
  Socksaddr_IsValid := @Socksaddr_IsValid sample;
  ParseSocksaddrHostPort := @ParseSocksaddrHostPort sample;
  IsDomainName := @IsDomainName sample;
  IsPublicAddr := @IsPublicAddr sample;
  DomainMatcher := list string * list string;
  NewMatcher d s _ := (d, s);
  Matcher_Match := sample_Matcher_Match;
  AdGuardMatcher := list string;
  NewAdGuardMatcher l := l;
  AdGuardMatcher_Match := @AdGuardMatcher_Match sample;
  IPSet := list (Addr * Addr);
  IPSetBuilder_IPSet ops := Ok (map op_range ops);
  IPSet_Contains s a := existsb (range_contains a) s;
  Regexp := string;
  regexp_Compile := @regexp_Compile sample;
  Regexp_MatchString := @Regexp_MatchString sample;
  Prefixable := Prefix;
  Prefixable_Build o d := default d o;
  Prefixable_Prefix p := p;
  unicode_ToLower := @unicode_ToLower sample;
  unicode_EqualFold := @unicode_EqualFold sample;
  mDNS_TypeToString := @mDNS_TypeToString sample
|}.
#[local] Existing Instance srs_sample.
#[local] Existing Instances sample_library sample_address_laws.

Definition sample_NewReader (r : Reader) : result Reader :=
  match rd_data r with String "Z" s => Ok (set_data s r) | _ => Err (ELib "zlib: invalid header") end.
Definition sample_ReadRanges (n : N) (r : Reader) : result (list (string * string) * Reader) :=
  read_n (fun _ => decode pair_codec) n r.
#[local] Instance sample_srs : SRSLibrary := {|
  zlib_NewReader := sample_NewReader;
  zlib_Compress s := "Z" +:+ s;
  varbin_WriteUvarint := PutUvarint;
  varbin_strings := strings_codec;
  varbin_uint8s := uints_codec 1;
  varbin_uint16s := uints_codec 2;
  varbin_bytes := bytes_codec;
  varbin_ReadUint8 := ReadByte;
  varbin_WriteRange := encode pair_codec;
  varbin_ReadRanges := sample_ReadRanges;
  domain_Matcher := lists_codec;
  Matcher_Dump m := m;
  domain_AdGuardMatcher := strings_codec;
  AdGuardMatcher_Dump m := m;
  IPSet_rr s := s;
  IPSet_of_rr s := s;
  IPSet_Prefixes s := map (fun rr => mkPrefix (fst rr) (Addr_BitLen (fst rr))) s;
  Prefixable_of p := p;
  TypedMap_Put k v m := (List.filter (fun e => negb (fst e =? k)%N) m ++ [(k, v)])%list;
  max_rules := 1000000;
  max_ranges := 1000000
|}.

Lemma uints_roundtrip n l : Forall (fun v => v < 256 ^ N.of_nat n)%N l -> map be_val (map (be_bytes n) l) = l.
Proof.
  intros H. rewrite map_map, (map_ext_Forall _ id), map_id; [done|]. eapply Forall_impl; [exact H|]. intros v Hv. by apply be_roundtrip.
Qed.
#[local] Instance sample_srs_laws : SRSLaws.
Proof.
  split.
  - done.
  - done.
  - by apply list_codec_law.
  - apply list_codec_law. intros l [_ H]. by apply uints_roundtrip.
  - apply list_codec_law. intros l [_ H]. by apply uints_roundtrip.
  - by apply list_codec_law.
  - done.
  - intros l rest e _ _. cbn [varbin_ReadRanges varbin_WriteRange sample_srs]. unfold sample_ReadRanges.
    rewrite (read_n_write _ _ id), map_id; [done| |].
    + apply Forall_true. intros p. unfold pair_codec, list_codec. cbn [encode write_list].
      destruct (fst p); simpl; lia.
    + apply Forall_true. intros [a b] _ t. by apply (list_codec_law _ _ (fun _ => True)); [intros []|].
  - apply list_codec_law. intros [a b] _. cbn [fst snd]. assert (String.length (str_concat (map (fun _ => "x") a)) = length a) as ->.
    { induction a as [|x a IH]; [done|]. cbn [map]. change (str_concat ("x" :: ?t)) with (String "x" (str_concat t)). simpl. by rewrite IH. }
    by rewrite take_app_length, drop_app_length.
  - by apply list_codec_law.
  - done.
  - done.
  - intros k v m H. cbn [TypedMap_Put sample_srs]. f_equal. induction m as [|[x y] m IH]; [done|]. cbn [map fst List.filter] in *.
    apply not_elem_of_cons in H as [H1 H2]. destruct (N.eqb_spec x k); [congruence|]. cbn [negb]. f_equal. by apply IH.
Qed.
#[local] Instance sample_srs_read_laws : SRSReadLaws.
Proof.
  assert (forall A (c : Codec A) r, takes 1 r (decode c r) -> takes 0 r (decode c r)) as H
    by (intros A c r Hr; eapply takes_less; [exact Hr|lia]).
  split; intros; try (apply H, list_codec_takes).
  - cbn [zlib_NewReader sample_srs]. unfold sample_NewReader. destruct (rd_data r) as [|[[] [] [] [] [] [] [] []] ?]; done.
  - apply takes_byte.
  - apply takes_read_n. intros i r' _. apply list_codec_takes.
Qed.

(** ** A rule-set *)

Definition srs_zero : opt_DefaultHeadlessRule := opt_DefaultHeadlessRule_zero.
Definition srs_first : opt_DefaultHeadlessRule :=
  set_ho_DomainSuffix ["example.org"] (set_ho_IPCIDR ["10.0.0.0/8"; "192.168.1.1"] (set_ho_Port [443; 8443]%N srs_zero)).
Definition srs_second : opt_DefaultHeadlessRule := set_ho_Network ["tcp"] srs_zero.
Definition srs_third : opt_DefaultHeadlessRule := set_ho_NetworkIsExpensive true (set_ho_AdGuardDomain ["||ads.example^"] srs_zero).
Definition default_rule (d : opt_DefaultHeadlessRule) : opt_HeadlessRule := mkOptHeadlessRule RuleTypeDefault d opt_Logical_zero.
Definition srs_rules : list opt_HeadlessRule := [
  default_rule srs_first;
  mkOptHeadlessRule RuleTypeLogical srs_zero (mkOptLogical LogicalTypeAnd [default_rule srs_second; default_rule srs_third] true)].
Definition srs_data : string := from_Ok "" (Write srs_rules 3).

#[local] Instance short_dec {A} (l : list A) : Decision (short l) := N.lt_dec _ _.
#[local] Instance short_string_dec s : Decision (short_string s) := N.lt_dec _ _.
#[local] Instance short_strings_dec l : Decision (short_strings l) := and_dec _ _.
#[local] Instance uints_dec n l : Decision (uints n l) := and_dec _ _.
#[local] Instance encodable_dec a : Decision (encodable a).
Proof. destruct a; simpl; apply _. Defined.
#[local] Instance prefix_writable_dec p : Decision (prefix_writable p) := and_dec _ _.
#[local] Instance prefixes_writable_dec l : Decision (prefixes_writable l) := and_dec _ _.
#[local] Instance ipset_writable_dec s : Decision (ipset_writable s) := and_dec _ _.
#[local] Instance rules_fit_dec l : Decision (rules_fit l) := and_dec _ _.

Ltac by_computation := refine (bool_decide_unpack _ _); vm_compute; exact I.
Ltac writable := constructor;
  [by_computation|by_computation|by_computation| | |by_computation|split; [by_computation|split; by_computation]];
  intros s H; vm_compute in H; (discriminate H || (injection H as <-; by_computation)).
Lemma srs_first_writable : default_writable srs_first.
Proof. writable. Qed.
Lemma srs_second_writable : default_writable srs_second.
Proof. writable. Qed.
Lemma srs_third_writable : default_writable srs_third.
Proof. writable. Qed.
Lemma srs_writable : Forall rule_writable srs_rules.
Proof.
  constructor; [apply writable_default, srs_first_writable|]. constructor; [|constructor]. apply writable_logical; [|by_computation].
  constructor; [apply writable_default, srs_second_writable|]. constructor; [apply writable_default, srs_third_writable|constructor].
Qed.
Lemma srs_source : Forall source_rule srs_rules.
Proof.
  assert (forall d, from_source d -> source_rule (default_rule d)) as H by (intros; by apply source_default).
  constructor; [by apply H|]. constructor; [|constructor]. apply source_logical. constructor; [by apply H|]. constructor; [by apply H|constructor].
Qed.

(** ** The theorems at work *)

Lemma srs_roundtrip_witness :
  Write srs_rules 3 = Ok srs_data /\ Read (mkReader srs_data io_EOF) true = Ok (compiled_set true 3 srs_rules).
Proof.
  assert (Write srs_rules 3 = Ok srs_data) as H by (apply is_Ok_from_Ok; vm_compute; reflexivity). split; [exact H|].
  apply (srs_roundtrip true 3 srs_rules srs_data); [done|by_computation|apply srs_writable|exact H].
Defined.

Lemma Read_ends_witness : Read (mkReader ("SRS" +:+ byte 3 +:+ "Z" +:+ PutUvarint 999999) io_EOF) false <> Panic out_of_fuel.
Proof. apply (Read_ends (mkReader ("SRS" +:+ byte 3 +:+ "Z" +:+ PutUvarint 999999) io_EOF) false). Defined.

Lemma Read_well_formed_witness :
  let p := compiled_set false 3 srs_rules in
  Read (mkReader srs_data io_EOF) false = Ok p /\ forallb well_formed (prc_Rules p) = true.
Proof.
  assert (Read (mkReader srs_data io_EOF) false = Ok (compiled_set false 3 srs_rules)) as H.
  { apply Read_Write_compiled; [done|by_computation|apply srs_writable|apply is_Ok_from_Ok; vm_compute; reflexivity]. }
  split; [exact H|]. apply (Read_well_formed _ _ _ H).
Defined.

Lemma downgrade_least_witness :
  downgradeRuleSetVersion 4 srs_rules = 3%N /\ is_Ok (Write srs_rules 3) = true /\ is_Ok (Write srs_rules 2) = false.
Proof.
  assert (downgradeRuleSetVersion 4 srs_rules = 3%N) as E by (vm_compute; reflexivity).
  pose proof (downgrade_least 4 srs_rules ltac:(lia) ltac:(vm_compute; reflexivity)) as H. cbn zeta in H. rewrite E in H.
  destruct H as (_ & H1 & H2). split; [exact E|]. split; [exact H1|]. apply H2. lia.
Defined.

(** The source is the text of nothing but the rules; compiled, it matches alike. *)
Definition sample_json (content : string) : result PlainRuleSetCompat :=
  if bool_decide (content = "rules") then Ok (mkPlainRuleSetCompat 4 srs_rules) else Err ErrInvalid.
Definition sample_set : LocalRuleSet := mkLocalRuleSet "set" [] (mkRuleSetMetadata false false false) "" false [] 0 0.
Definition compiled_data : string := from_Ok "" (compileRuleSet (decoders sample_json) "rules").
Definition loaded_source : LocalRuleSet * list N :=
  from_Ok (sample_set, []) (LocalRuleSet_reloadFile (decoders sample_json) true (Ok "rules") (with_format RuleSetFormatSource sample_set)).

Lemma compile_load_witness : exists s2 called,
  LocalRuleSet_reloadFile (decoders sample_json) true (Ok compiled_data) (with_format RuleSetFormatBinary sample_set) = Ok (s2, called) /\
  fst (LocalRuleSet_Match sample_world s2 (ResetRuleCache (sample_context "www.example.org" AddrNone 443))) = true.
Proof.
  assert (LocalRuleSet_reloadFile (decoders sample_json) true (Ok "rules") (with_format RuleSetFormatSource sample_set) = Ok loaded_source)
    as Hl by (apply is_Ok_from_Ok; vm_compute; reflexivity).
  destruct loaded_source as [s1 called] eqn:E1.
  destruct (compile_load sample_json true "rules" (mkPlainRuleSetCompat 4 srs_rules) compiled_data sample_set s1 called)
    as (s2 & H1 & _ & H2); [reflexivity|cbn; lia|by_computation|apply srs_writable|apply srs_source| |exact Hl|].
  - apply is_Ok_from_Ok. vm_compute. reflexivity.
  - exists s2, called. split; [exact H1|]. rewrite H2. replace s1 with (fst loaded_source) by (by rewrite E1). vm_compute. reflexivity.
Defined.
