(* ===== verification/SniffBasic.v ===== *)
(** * SniffBasic: the sniffers of fixed headers

    common/sniff: BitTorrent, uTP and UDP trackers (bittorrent.go), DTLS (dtls.go), NTP (ntp.go), RDP
    (rdp.go), SSH (ssh.go), STUN (stun.go), DNS (dns.go), HTTP (http.go) and TLS (tls.go).  A sniffer looks
    at the bytes received so far and sets the protocol; [Err] leaves the metadata as it is.  The parsers of
    DNS messages, HTTP requests and TLS handshakes are third-party code ([SniffLibrary]). *)

From S2P Require Import Prelude GoStd NetIP DNSMessage Metadata RuleItems RuleMatch RuleAction Sniff.
From S2P Require Import FakeIP FakeIPCodec GoIO.
Open Scope string_scope.

(** ** Bytes *)

Definition os_ErrInvalid : error := ELib "invalid argument".
Definition index_panic : string := "runtime error: index out of range".
Definition slice_panic : string := "runtime error: slice bounds out of range".

(** [b[i]], [b[lo:hi]] and [binary.BigEndian] of [n] bytes at [i]. *)
Definition byte_at (b : string) (i : nat) : result N :=
  match String.get i b with Some c => Ok (byte_val c) | None => Panic index_panic end.
Definition slice (b : string) (lo hi : nat) : result string :=
  if ((lo <=? hi) && (hi <=? String.length b))%nat then Ok (str_take (hi - lo) (str_drop lo b)) else Panic slice_panic.
Definition be_at (n : nat) (b : string) (i : nat) : result N :=
  let! s := slice b i (i + n) in Ok (be_val s).

(** A sniffer's answer: the metadata, an error, or a panic. *)
Definition set_protocol (protocol : string) (s : SniffInfo) : SniffInfo :=
  mkSniffInfo protocol (sn_Domain s) (sn_Client s) (sn_SnifferNames s) (sn_SniffError s).
Definition set_sniff_domain (domain : string) (s : SniffInfo) : SniffInfo :=
  mkSniffInfo (sn_Protocol s) domain (sn_Client s) (sn_SnifferNames s) (sn_SniffError s).
Definition set_client (client : string) (s : SniffInfo) : SniffInfo :=
  mkSniffInfo (sn_Protocol s) (sn_Domain s) client (sn_SnifferNames s) (sn_SniffError s).

Definition ProtocolTLS : string := "tls".
Definition ProtocolHTTP : string := "http".
Definition ProtocolQUIC : string := "quic".
Definition ProtocolDNS : string := "dns".
Definition ProtocolSTUN : string := "stun".
Definition ProtocolBitTorrent : string := "bittorrent".
Definition ProtocolDTLS : string := "dtls".
Definition ProtocolSSH : string := "ssh".
Definition ProtocolRDP : string := "rdp".
Definition ProtocolNTP : string := "ntp".

(** [E.Cause1(ErrNeedMoreData, err)] on the error of a read. *)
Definition need_more {A} (r : result A) : result A :=
  match r with Err e => Err (EWrap ErrNeedMoreData e) | _ => r end.

(** What is received so far, as a stream. *)
Definition stream (data : string) : Reader := mkReader data io_EOF.

(** ** Packets *)

Section Packets.
Variable metadata : SniffInfo.

Definition sniff_STUNMessage (packet : string) : result SniffInfo :=
  if (String.length packet <? 20)%nat then Err os_ErrInvalid
  else
    let! cookie := be_at 4 packet 4 in
    if negb (cookie =? 0x2112A442)%N then Err os_ErrInvalid
    else
      let! length := be_at 2 packet 2 in
      if (String.length packet <? 20 + N.to_nat length)%nat then Err os_ErrInvalid
      else Ok (set_protocol ProtocolSTUN metadata).

Definition trackerConnectFlag : N := 0.
Definition trackerProtocolID : N := 0x41727101980.
Definition trackerConnectMinSize : nat := 16.
Definition sniff_UDPTracker (packet : string) : result SniffInfo :=
  if (String.length packet <? trackerConnectMinSize)%nat then Err os_ErrInvalid
  else
    let! protocolID := be_at 8 packet 0 in
    if negb (protocolID =? trackerProtocolID)%N then Err os_ErrInvalid
    else
      let! flag := be_at 4 packet 8 in
      if negb (flag =? trackerConnectFlag)%N then Err os_ErrInvalid
      else Ok (set_protocol ProtocolBitTorrent metadata).

Definition sniff_DTLSRecord (packet : string) : result SniffInfo :=
  if (String.length packet <? 13)%nat then Err os_ErrInvalid
  else
    let! contentType := byte_at packet 0 in
    if negb (bool_decide (contentType ∈ [20; 21; 22; 23; 25]%N)) then Err os_ErrInvalid
    else
      let! versionMajor := byte_at packet 1 in
      if negb (versionMajor =? 0xfe)%N then Err os_ErrInvalid
      else
        let! versionMinor := byte_at packet 2 in
        if negb (versionMinor =? 0xff)%N && negb (versionMinor =? 0xfd)%N then Err os_ErrInvalid
        else Ok (set_protocol ProtocolDTLS metadata).

(** The quotients of the two fields are exact in [float64]: they are compared as integers. *)
Definition sniff_NTP (packet : string) : result SniffInfo :=
  if (String.length packet <? 48)%nat then Err os_ErrInvalid
  else
    let! firstByte := byte_at packet 0 in
    let li := N.land (N.shiftr firstByte 6) 3 in
    let vn := N.land (N.shiftr firstByte 3) 7 in
    let mode := N.land firstByte 7 in
    if (3 <? li)%N then Err os_ErrInvalid
    else if negb (vn =? 3)%N && negb (vn =? 4)%N then Err os_ErrInvalid
    else if negb (mode =? 3)%N then Err os_ErrInvalid
    else
      let! rootDelay := be_at 4 packet 4 in
      let! rootDispersion := be_at 4 packet 8 in
      if (16 * 65536 <? rootDelay)%N then Err os_ErrInvalid
      else if (16 * 65536 <? rootDispersion)%N then Err os_ErrInvalid
      else Ok (set_protocol ProtocolNTP metadata).

(** The extensions of uTP; [Seek] may go past the end.  A turn takes two bytes. *)
Fixpoint utp_extensions (fuel : nat) (extension : N) (r : Reader) : result unit :=
  if (extension =? 0)%N then Ok tt
  else match fuel with
    | O => Panic "out of fuel"
    | S f =>
        let! (extension, r) := ReadByte r in
        if (4 <? extension)%N then Err os_ErrInvalid
        else
          let! (length, r) := ReadByte r in
          utp_extensions f extension (set_data (str_drop (N.to_nat length) (rd_data r)) r)
    end.
Definition sniff_UTP (packet : string) : result SniffInfo :=
  if (String.length packet <? 20)%nat then Err os_ErrInvalid
  else
    let! first := byte_at packet 0 in
    let version := N.land first 15 in
    let ty := N.shiftr first 4 in
    if negb (version =? 1)%N || (4 <? ty)%N then Err os_ErrInvalid
    else
      let! extension := byte_at packet 1 in
      let! _ := utp_extensions (S (String.length packet)) extension (stream (str_drop 20 packet)) in
      Ok (set_protocol ProtocolBitTorrent metadata).

(** ** Streams *)

(** [Read] of [io.MultiReader]: at most [n] bytes of the first buffer that is not at its end. *)
Fixpoint multi_Read (n : nat) (chunks : list string) : option (string * list string) :=
  match chunks with
  | [] => None
  | "" :: l => multi_Read n l
  | c :: l => Some (str_take n c, str_drop n c :: l)
  end.
(** The buffers the data arrived in matter: the header is read with one call. *)
Definition sniff_BitTorrent (chunks : list string) : result SniffInfo :=
  match multi_Read 1 chunks with
  | None => Err (EWrap ErrNeedMoreData io_EOF)
  | Some (first, chunks) =>
      let! first := byte_at first 0 in
      if negb (first =? 19)%N then Err os_ErrInvalid
      else
        let header := "BitTorrent protocol" in
        let '(protocol, err) := match multi_Read 19 chunks with Some (p, _) => (p, None) | None => ("", Some io_EOF) end in
        let n := String.length protocol in
        if negb (bool_decide (protocol = str_take n header)) then Err os_ErrInvalid
        else match err with
          | Some e => Err (EWrap ErrNeedMoreData e)
          | None => if (n <? 19)%nat then Err ErrNeedMoreData else Ok (set_protocol ProtocolBitTorrent metadata)
          end
  end.

Definition ReadUint16 (r : Reader) : result (N * Reader) := let! (s, r) := ReadFull 2 r in Ok (be_val s, r).

Definition sniff_RDP (reader : Reader) : result SniffInfo :=
  let! (tpktVersion, r) := need_more (ReadByte reader) in
  if negb (tpktVersion =? 3)%N then Err os_ErrInvalid
  else
    let! (tpktReserved, r) := need_more (ReadByte r) in
    if negb (tpktReserved =? 0)%N then Err os_ErrInvalid
    else
      let! (tpktLength, r) := need_more (ReadUint16 r) in
      if negb (tpktLength =? 19)%N then Err os_ErrInvalid
      else
        let! (cotpLength, r) := need_more (ReadByte r) in
        if negb (cotpLength =? 14)%N then Err os_ErrInvalid
        else
          let! (cotpTpduType, r) := need_more (ReadByte r) in
          if negb (cotpTpduType =? 0xE0)%N then Err os_ErrInvalid
          else
            let! (_, r) := need_more (ReadFull 5 r) in
            let! (rdpType, r) := need_more (ReadByte r) in
            if negb (rdpType =? 1)%N then Err os_ErrInvalid
            else
              let! (_, r) := need_more (ReadByte r) in
              let! (rdpLength, _) := need_more (ReadByte r) in
              if negb (rdpLength =? 8)%N then Err os_ErrInvalid
              else Ok (set_protocol ProtocolRDP metadata).

(** [ReadLine] of a [bufio.Reader] of the default size: up to a newline, the size of the buffer, or the end. *)
Definition bufio_size : nat := 4096.
Definition drop_CR (line : string) : string :=
  if has_suffix line (String (ascii_of_N 13) "") then str_take (String.length line - 1) line else line.
Definition ReadLine (data : string) : result string :=
  match index_byte (ascii_of_N 10) (str_take bufio_size data) with
  | Some i => Ok (drop_CR (str_take i data))
  | None =>
      if (bufio_size <=? String.length data)%nat then Ok (drop_CR (str_take bufio_size data))
      else if str_empty data then Err io_EOF else Ok data
  end.
Definition sniff_SSH (data : string) : result SniffInfo :=
  let sshPrefix := "SSH-2.0-" in
  let prefix := str_take 8 data in
  if negb (bool_decide (prefix = str_take (String.length prefix) sshPrefix)) then Err os_ErrInvalid
  else if (String.length prefix <? 8)%nat then Err (EWrap ErrNeedMoreData io_EOF)
  else
    let! fistLine := ReadLine data in
    let! client := slice fistLine 8 (String.length fistLine) in
    Ok (set_client client (set_protocol ProtocolSSH metadata)).
End Packets.

(** ** Parsers of other packages *)

(** What miekg/dns, sing's HTTP parser and address parser, and crypto/tls are asked: a message; the host of
    a request; the address of a host; the server name of a handshake, if it came that far, and its error. *)
Class SniffLibrary : Type := {
  Msg_Unpack : string -> result Msg;
  http_ReadRequest : string -> result string;
  AddrString : string -> string;
  tls_Handshake : string -> option string * option error
}.

Section Library.
Context {L : SniffLibrary}.
Variable metadata : SniffInfo.

(** A message that is no query is no error either. *)
Definition sniff_DomainNameQuery (packet : string) : result SniffInfo :=
  let! msg := Msg_Unpack packet in
  if msg_Response msg || negb (nonempty (msg_Question msg)) || nonempty (msg_Answer msg) || nonempty (msg_Ns msg)
  then Ok metadata
  else Ok (set_protocol ProtocolDNS metadata).

(** The bytes of [packet] that are there, none if there are fewer. *)
Definition there (packet : string) (i : nat) : option N := byte_val <$> String.get i packet.
Definition is_byte (f : N -> bool) (b : option N) : bool := match b with Some v => f v | None => false end.
Definition sniff_StreamDomainNameQuery (reader : Reader) : result SniffInfo :=
  let! (length, r) := need_more (ReadUint16 reader) in
  if (length <? 12)%N then Err os_ErrInvalid
  else
    let packet := str_take (N.to_nat length) (rd_data r) in
    let err := (String.length packet <? N.to_nat length)%nat in
    if is_byte (fun v => negb (N.land v 0x80 =? 0)%N) (there packet 2) then Err os_ErrInvalid
    else if is_byte (fun v => (v =? 0)%N) (there packet 4) && is_byte (fun v => (v =? 0)%N) (there packet 5) then Err os_ErrInvalid
    else if existsb (fun i => is_byte (fun v => negb (v =? 0)%N) (there packet i)) [6; 7; 8; 9]%nat then Err os_ErrInvalid
    else if err then Err (EWrap ErrNeedMoreData (if str_empty packet then io_EOF else io_ErrUnexpectedEOF))
    else sniff_DomainNameQuery packet.

Definition sniff_HTTPHost (data : string) : result SniffInfo :=
  match http_ReadRequest data with
  | Ok host => Ok (set_sniff_domain (AddrString host) (set_protocol ProtocolHTTP metadata))
  | Err e => Err (if errors_Is e io_ErrUnexpectedEOF then EWrap ErrNeedMoreData e else e)
  | Panic m => Panic m
  end.

Definition sniff_TLSClientHello (data : string) : result SniffInfo :=
  match tls_Handshake data with
  | (Some serverName, _) => Ok (set_sniff_domain serverName (set_protocol ProtocolTLS metadata))
  | (None, Some e) => Err (if errors_Is e io_ErrUnexpectedEOF then EWrap ErrNeedMoreData e else e)
  | (None, None) => Ok metadata
  end.
End Library.
