(* ===== verification/SniffLaws.v ===== *)
(** * SniffLaws: what the sniffers recognise

    The stream sniffers are called again and again as data arrives; what they accept or reject does not
    depend on how much of it has arrived.  The packet sniffers recognise different packets. *)

From S2P Require Import Prelude GoStd NetIP DNSMessage Metadata RuleItems RuleMatch RuleAction Sniff.
From S2P Require Import FakeIP FakeIPCodec GoIO SniffBasic.
Open Scope string_scope.

(** ** Verdicts *)

Definition wants_more {A} (r : result A) : bool := match r with Err e => errors_Is e ErrNeedMoreData | _ => false end.

(** With more data an accepted stream stays accepted, with the same protocol and domain, and a rejected one
    rejected; a sniffer does not panic. *)
Definition stable_at (before after : result SniffInfo) : Prop :=
  match before with
  | Ok s => exists s', after = Ok s' /\ sn_Protocol s' = sn_Protocol s /\ sn_Domain s' = sn_Domain s
  | Err e => errors_Is e ErrNeedMoreData = true \/ exists e', after = Err e' /\ errors_Is e' ErrNeedMoreData = false
  | Panic _ => False
  end.
Definition stable (k : Reader -> result SniffInfo) : Prop :=
  forall data more, stable_at (k (stream data)) (k (stream (data +:+ more))).
(** A read that succeeds does so with more data, and otherwise fails at the end of the data. *)
Definition extends {A} (p : Reader -> result (A * Reader)) : Prop := forall data,
  match p (stream data) with
  | Ok (x, r) => exists rest, r = stream rest /\ forall more, p (stream (data +:+ more)) = Ok (x, stream (rest +:+ more))
  | Err _ => True
  | Panic _ => False
  end.

Lemma more_is_more e : errors_Is (EWrap ErrNeedMoreData e) ErrNeedMoreData = true.
Proof. cbn [errors_Is]. apply orb_true_iff. right. reflexivity. Qed.
Lemma stable_read {A} (p : Reader -> result (A * Reader)) (k : A -> Reader -> result SniffInfo) :
  extends p -> (forall x, stable (k x)) -> stable (fun r => let! (x, r) := need_more (p r) in k x r).
Proof.
  intros Hp Hk data more. specialize (Hp data). destruct (p (stream data)) as [[x r]|e|m] eqn:E; [|left|done].
  - destruct Hp as (rest & -> & Hm). rewrite Hm. cbn [need_more mbind result_bind]. apply Hk.
  - cbn [need_more mbind result_bind]. apply more_is_more.
Qed.
Lemma stable_reject c k : stable k -> stable (fun r => if c : bool then Err os_ErrInvalid else k r).
Proof. intros H data more. destruct c; [right; by eexists|apply H]. Qed.
Lemma stable_accept s : stable (fun _ => Ok s).
Proof. intros data more. by exists s. Qed.

Lemma extends_byte : extends ReadByte.
Proof. intros [|c s]; [done|]. exists s. by split. Qed.
Lemma extends_full n : extends (ReadFull n).
Proof.
  intros data. unfold ReadFull. cbn [rd_data stream]. destruct (Nat.ltb_spec (String.length data) n) as [H|H]; [done|].
  exists (str_drop n data). split; [done|]. intros more. rewrite str_length_app.
  destruct (Nat.ltb_spec (String.length data + String.length more) n); [lia|].
  by rewrite take_prefix, drop_prefix.
Qed.
Lemma extends_uint16 : extends ReadUint16.
Proof.
  intros data. unfold ReadUint16. pose proof (extends_full 2 data) as H. destruct (ReadFull 2 (stream data)) as [[x r]| |]; [|done|done].
  destruct H as (rest & -> & Hm). cbn [mbind result_bind]. exists rest. split; [done|]. intros more. by rewrite Hm.
Qed.

(** ** Streams *)

Lemma RDP_stable metadata : stable (sniff_RDP metadata).
Proof.
  unfold sniff_RDP.
  apply stable_read; [apply extends_byte|]. intros x1. apply stable_reject.
  apply stable_read; [apply extends_byte|]. intros x2. apply stable_reject.
  apply stable_read; [apply extends_uint16|]. intros x3. apply stable_reject.
  apply stable_read; [apply extends_byte|]. intros x4. apply stable_reject.
  apply stable_read; [apply extends_byte|]. intros x5. apply stable_reject.
  apply stable_read; [apply extends_full|]. intros x6.
  apply stable_read; [apply extends_byte|]. intros x7. apply stable_reject.
  apply stable_read; [apply extends_byte|]. intros x8.
  apply stable_read; [apply extends_byte|]. intros x9. apply stable_reject. apply stable_accept.
Qed.

(** A comparison with the front of a header that fails keeps failing. *)
Lemma header_mismatch n header s t : str_take n s <> str_take (String.length (str_take n s)) header ->
  str_take n (s +:+ t) <> str_take (String.length (str_take n (s +:+ t))) header.
Proof.
  intros H E. apply H. set (k := String.length (str_take n s)).
  assert (k <= String.length (str_take n (s +:+ t)))%nat as Hk by (unfold k; rewrite !take_length, str_length_app; lia).
  rewrite <- (take_take k _ header Hk), <- E, take_take by (rewrite take_length in *; lia).
  unfold k. rewrite take_length. destruct (Nat.le_gt_cases n (String.length s)).
  - rewrite Nat.min_l by done. by rewrite take_prefix.
  - rewrite Nat.min_r by lia. rewrite (take_prefix _ s), !take_all by lia. done.
Qed.

Definition sshPrefix : string := "SSH-2.0-".
Lemma take_app_ge n p t : (String.length p <= n)%nat -> str_take n (p +:+ t) = p +:+ str_take (n - String.length p) t.
Proof.
  revert n. induction p as [|c p IH]; intros n H; [by rewrite Nat.sub_0_r|]. destruct n as [|n]; simpl in H; [lia|].
  change (String c p +:+ ?x) with (String c (p +:+ x)). cbn [str_take String.length Nat.sub]. by rewrite IH by lia.
Qed.
Lemma drop_CR_length t : exists line, drop_CR (sshPrefix +:+ t) = line /\ (8 <= String.length line)%nat.
Proof.
  eexists. split; [done|]. unfold drop_CR. destruct (has_suffix _ _) eqn:E.
  - rewrite take_length, str_length_app. destruct t as [|c t]; [by vm_compute in E|]. simpl. lia.
  - rewrite str_length_app. simpl. lia.
Qed.
Lemma ReadLine_ssh rest : exists line, ReadLine (sshPrefix +:+ rest) = Ok line /\ (8 <= String.length line)%nat.
Proof.
  unfold ReadLine. assert (8 <= bufio_size)%nat as Hn by (unfold bufio_size; lia). generalize dependent bufio_size. intros n Hn.
  rewrite take_app_ge by (simpl; lia). set (front := str_take _ rest).
  assert (index_byte (ascii_of_N 10) (sshPrefix +:+ front) = (fun i => 8 + i)%nat <$> index_byte (ascii_of_N 10) front) as ->.
  { unfold sshPrefix. repeat (change (String ?a ?p +:+ front) with (String a (p +:+ front)); cbn [index_byte];
      rewrite bool_decide_eq_false_2 by done). change ("" +:+ front) with front. by destruct (index_byte _ front). }
  destruct (index_byte _ front) as [i|]; cbn [fmap option_fmap option_map].
  - rewrite take_app_ge by (simpl; lia). destruct (drop_CR_length (str_take (8 + i - String.length sshPrefix) rest)) as (l & -> & H). by eexists.
  - destruct (n <=? _)%nat; [|by eexists; split; [done|]; rewrite str_length_app; simpl; lia].
    destruct (drop_CR_length front) as (l & -> & H). by eexists.
Qed.
Lemma ssh_prefix data : str_take 8 data = sshPrefix -> data = sshPrefix +:+ str_drop 8 data.
Proof. intros H. by rewrite <- H, str_take_drop. Qed.

Lemma SSH_stable metadata : stable (fun r => sniff_SSH metadata (rd_data r)).
Proof.
  assert (forall rest, exists client, sniff_SSH metadata (sshPrefix +:+ rest) = Ok (set_client client (set_protocol ProtocolSSH metadata))) as Ha.
  { intros rest. unfold sniff_SSH. rewrite take_app_ge by (simpl; lia). cbn [Nat.sub String.length sshPrefix str_take]. rewrite str_app_nil.
    rewrite bool_decide_eq_true_2 by done. cbn [negb Nat.ltb Nat.leb String.length].
    destruct (ReadLine_ssh rest) as (line & -> & Hl). cbn [mbind result_bind]. unfold slice.
    destruct (Nat.leb_spec 8 (String.length line)); [|lia]. rewrite Nat.leb_refl. cbn [andb]. by eexists. }
  intros data more. cbn [rd_data stream].
  destruct (decide (str_take 8 data = sshPrefix)) as [E|E].
  - rewrite (ssh_prefix data E), str_app_assoc. destruct (Ha (str_drop 8 data)) as [c1 ->], (Ha (str_drop 8 data +:+ more)) as [c2 ->]. by eexists.
  - unfold sniff_SSH at 1. case_bool_decide as Hm; cbn [negb].
    + destruct (Nat.ltb_spec (String.length (str_take 8 data)) 8) as [Hs|Hs]; [left; apply more_is_more|].
      exfalso. apply E. assert (String.length (str_take 8 data) = 8%nat) as El by (rewrite take_length in *; lia).
      by rewrite El in Hm.
    + right. unfold sniff_SSH. rewrite bool_decide_eq_false_2 by (by apply header_mismatch). by eexists.
Qed.

Definition bittorrent_header : string := "BitTorrent protocol".
Lemma BitTorrent_one metadata data : sniff_BitTorrent metadata [data] =
  match data with
  | "" => Err (EWrap ErrNeedMoreData io_EOF)
  | String c rest =>
      if negb (byte_val c =? 19)%N then Err os_ErrInvalid
      else
        let protocol := str_take 19 rest in
        if negb (bool_decide (protocol = str_take (String.length protocol) bittorrent_header)) then Err os_ErrInvalid
        else if str_empty rest then Err (EWrap ErrNeedMoreData io_EOF)
        else if (String.length protocol <? 19)%nat then Err ErrNeedMoreData
        else Ok (set_protocol ProtocolBitTorrent metadata)
  end.
Proof.
  destruct data as [|c rest]; [done|]. unfold sniff_BitTorrent. cbn [multi_Read str_take str_drop].
  change (byte_at (String c "") 0) with (Ok (byte_val c)). cbn [mbind result_bind]. destruct (negb _); [done|].
  destruct rest as [|d rest]; [done|]. cbn [multi_Read]. rewrite bool_decide_decide. done.
Qed.
Lemma BitTorrent_stable metadata : stable (fun r => sniff_BitTorrent metadata [rd_data r]).
Proof.
  intros data more. cbn [rd_data stream]. rewrite !BitTorrent_one. destruct data as [|c rest]; [left; apply more_is_more|].
  change (String c rest +:+ more) with (String c (rest +:+ more)). cbn iota. destruct (negb (byte_val c =? 19)%N); [right; by eexists|]. cbn zeta.
  case_bool_decide as Hm; cbn [negb].
  - destruct (str_empty rest) eqn:Ee; [left; apply more_is_more|].
    destruct (Nat.ltb_spec (String.length (str_take 19 rest)) 19) as [Hs|Hs]; [left; reflexivity|].
    rewrite take_length in Hs. assert (str_take 19 (rest +:+ more) = str_take 19 rest) as -> by (apply take_prefix; lia).
    rewrite bool_decide_eq_true_2 by done. cbn [negb].
    assert (str_empty (rest +:+ more) = false) as -> by (destruct rest; done).
    destruct (Nat.ltb_spec (String.length (str_take 19 rest)) 19) as [Hs'|_]; [rewrite take_length in Hs'; lia|]. by eexists.
  - right. rewrite bool_decide_eq_false_2 by (by apply header_mismatch). by eexists.
Qed.

Section Library.
Context {L : SniffLibrary}.

(** The bytes of a message that make it no query. *)
Definition no_query (packet : string) : bool :=
  is_byte (fun v => negb (N.land v 0x80 =? 0)%N) (there packet 2)
  || is_byte (fun v => (v =? 0)%N) (there packet 4) && is_byte (fun v => (v =? 0)%N) (there packet 5)
  || existsb (fun i => is_byte (fun v => negb (v =? 0)%N) (there packet i)) [6; 7; 8; 9]%nat.
Lemma no_query_more p t : no_query p = true -> no_query (p +:+ t) = true.
Proof.
  assert (forall f i, is_byte f (there p i) = true -> is_byte f (there (p +:+ t) i) = true) as H.
  { intros f i. unfold there. revert i. induction p as [|c p IH]; intros [|i]; [done|done|done|]. apply IH. }
  unfold no_query. rewrite !orb_true_iff, !andb_true_iff, !existsb_true_iff. naive_solver.
Qed.
Lemma StreamDNS_read metadata length r : (length <? 12)%N = false ->
  (let packet := str_take (N.to_nat length) (rd_data r) in
   let err := (String.length packet <? N.to_nat length)%nat in
   if is_byte (fun v => negb (N.land v 0x80 =? 0)%N) (there packet 2) then Err os_ErrInvalid
   else if is_byte (fun v => (v =? 0)%N) (there packet 4) && is_byte (fun v => (v =? 0)%N) (there packet 5) then Err os_ErrInvalid
   else if existsb (fun i => is_byte (fun v => negb (v =? 0)%N) (there packet i)) [6; 7; 8; 9]%nat then Err os_ErrInvalid
   else if err then Err (EWrap ErrNeedMoreData (if str_empty packet then io_EOF else io_ErrUnexpectedEOF))
   else sniff_DomainNameQuery metadata packet) =
  let packet := str_take (N.to_nat length) (rd_data r) in
  if no_query packet then Err os_ErrInvalid
  else if (String.length packet <? N.to_nat length)%nat
  then Err (EWrap ErrNeedMoreData (if str_empty packet then io_EOF else io_ErrUnexpectedEOF))
  else sniff_DomainNameQuery metadata packet.
Proof. intros _. cbn zeta. unfold no_query. destruct (is_byte _ (there _ 2)); [done|]. destruct (_ && _); [done|]. cbn [orb]. done. Qed.

Lemma StreamDNS_stable metadata : (forall p m, Msg_Unpack p <> Panic m) -> stable (sniff_StreamDomainNameQuery metadata).
Proof.
  intros Hp. unfold sniff_StreamDomainNameQuery. apply stable_read; [apply extends_uint16|]. intros length data more.
  destruct (length <? 12)%N eqn:El; [right; by eexists|]. rewrite !StreamDNS_read by done. cbn zeta. cbn [rd_data stream].
  set (n := N.to_nat length). destruct (no_query (str_take n data)) eqn:En.
  - right. assert (no_query (str_take n (data +:+ more)) = true) as ->; [|by eexists].
    destruct (Nat.le_gt_cases n (String.length data)); [by rewrite take_prefix|].
    rewrite (take_all n data) in En by lia. rewrite take_app_ge by lia. by apply no_query_more.
  - destruct (Nat.ltb_spec (String.length (str_take n data)) n) as [Hl|Hl]; [left; apply more_is_more|].
    rewrite take_length in Hl. rewrite take_prefix, En by lia.
    destruct (Nat.ltb_spec (String.length (str_take n data)) n) as [Hl'|_]; [rewrite take_length in Hl'; lia|].
    unfold sniff_DomainNameQuery. specialize (Hp (str_take n data)). destruct (Msg_Unpack (str_take n data)) as [m|e|m]; cbn [mbind result_bind].
    + destruct (_ || _); by eexists.
    + destruct (errors_Is e ErrNeedMoreData) eqn:Ee; [by left|right; by eexists].
    + by destruct (Hp m).
Qed.

(** sniffing a stream piece by piece.  The sniffers of BitTorrent, RDP, SSH and DNS do not panic, and with more
    data they do not change their mind: what is recognised stays recognised as the same protocol, and what is rejected
    stays rejected, so that [PeekStream] may stop as soon as none of them asks for more. *)
Theorem stream_sniffers_stable metadata : (forall p m, Msg_Unpack p <> Panic m) ->
  stable (fun r => sniff_BitTorrent metadata [rd_data r]) /\ stable (sniff_RDP metadata) /\
  stable (fun r => sniff_SSH metadata (rd_data r)) /\ stable (sniff_StreamDomainNameQuery metadata).
Proof.
  intros H. split; [apply BitTorrent_stable|]. split; [apply RDP_stable|]. split; [apply SSH_stable|by apply StreamDNS_stable].
Qed.
End Library.

(** ** Packets *)

Lemma byte_val_lt c : (byte_val c < 256)%N.
Proof. apply N_ascii_bounded. Qed.
Lemma byte_at_ok b i : (i < String.length b)%nat -> exists v, byte_at b i = Ok v.
Proof.
  unfold byte_at. revert i. induction b as [|c b IH]; intros i H; simpl in H; [lia|]. destruct i as [|i]; [by eexists|]. apply IH. lia.
Qed.
Lemma be_at_ok n b i : (i + n <= String.length b)%nat -> exists v, be_at n b i = Ok v.
Proof.
  intros H. unfold be_at, slice. destruct (Nat.leb_spec i (i + n)); [|lia]. destruct (Nat.leb_spec (i + n) (String.length b)); [|lia].
  cbn [andb mbind result_bind]. by eexists.
Qed.

Lemma utp_extensions_ends fuel : forall extension r m, (String.length (rd_data r) < fuel)%nat -> utp_extensions fuel extension r <> Panic m.
Proof.
  induction fuel as [|fuel IH]; intros extension r m H; [lia|]. cbn [utp_extensions]. destruct (extension =? 0)%N; [done|].
  unfold ReadByte. destruct (rd_data r) as [|c s] eqn:Er; [done|]. cbn [mbind result_bind]. destruct (_ <? _)%N; [done|].
  cbn [set_data rd_data]. destruct s as [|d s]; [done|]. cbn [mbind result_bind set_data rd_data]. apply IH. cbn [rd_data set_data].
  rewrite str_length_drop. simpl in H. lia.
Qed.

(** What each sniffer has seen when it accepts. *)
Definition accepts_or_rejects (r : result SniffInfo) (protocol : string) (m : SniffInfo) (P : Prop) : Prop :=
  (exists e, r = Err e) \/ (r = Ok (set_protocol protocol m) /\ P).

Lemma STUN_seen m p : accepts_or_rejects (sniff_STUNMessage m p) ProtocolSTUN m (be_at 4 p 4 = Ok 0x2112A442%N).
Proof.
  unfold accepts_or_rejects, sniff_STUNMessage, trackerConnectMinSize. destruct (Nat.ltb_spec (String.length p) 20); [left; by eexists|].
  destruct (be_at_ok 4 p 4 ltac:(lia)) as [v E]. rewrite E. cbn [mbind result_bind]. destruct (N.eqb_spec v 0x2112A442); [|left; by eexists]. subst v.
  destruct (be_at_ok 2 p 2 ltac:(lia)) as [w ->]. cbn [mbind result_bind negb]. destruct (_ <? _)%nat; [left; by eexists|by right].
Qed.
Lemma UDPTracker_seen m p :
  accepts_or_rejects (sniff_UDPTracker m p) ProtocolBitTorrent m (be_at 8 p 0 = Ok trackerProtocolID /\ (16 <= String.length p)%nat).
Proof.
  unfold accepts_or_rejects, sniff_UDPTracker, trackerConnectMinSize. destruct (Nat.ltb_spec (String.length p) 16); [left; by eexists|].
  destruct (be_at_ok 8 p 0 ltac:(lia)) as [v E]. rewrite E. cbn [mbind result_bind]. destruct (N.eqb_spec v trackerProtocolID); [|left; by eexists]. subst v.
  destruct (be_at_ok 4 p 8 ltac:(lia)) as [w ->]. cbn [mbind result_bind negb]. destruct (negb _); [left; by eexists|by right].
Qed.
Lemma DTLS_seen m p : accepts_or_rejects (sniff_DTLSRecord m p) ProtocolDTLS m
  (exists b, byte_at p 0 = Ok b /\ b ∈ [20; 21; 22; 23; 25]%N).
Proof.
  unfold accepts_or_rejects, sniff_DTLSRecord. destruct (Nat.ltb_spec (String.length p) 13); [left; by eexists|].
  destruct (byte_at_ok p 0 ltac:(lia)) as [v E]. rewrite E. cbn [mbind result_bind]. case_bool_decide as Hv; cbn [negb]; [|left; by eexists].
  destruct (byte_at_ok p 1 ltac:(lia)) as [w ->]. cbn [mbind result_bind]. destruct (negb _); [left; by eexists|].
  destruct (byte_at_ok p 2 ltac:(lia)) as [x ->]. cbn [mbind result_bind]. destruct (_ && _); [left; by eexists|]. right. eauto.
Qed.
Lemma NTP_seen m p : accepts_or_rejects (sniff_NTP m p) ProtocolNTP m
  (exists b d, byte_at p 0 = Ok b /\ N.land b 7 = 3%N /\ be_at 4 p 4 = Ok d /\ (d <= 16 * 65536)%N).
Proof.
  unfold accepts_or_rejects, sniff_NTP. destruct (Nat.ltb_spec (String.length p) 48); [left; by eexists|].
  destruct (byte_at_ok p 0 ltac:(lia)) as [v E]. rewrite E. cbn [mbind result_bind]. cbn zeta. destruct (3 <? _)%N; [left; by eexists|].
  destruct (_ && _); [left; by eexists|]. destruct (N.eqb_spec (N.land v 7) 3) as [Hm|]; cbn [negb]; [|left; by eexists].
  destruct (be_at_ok 4 p 4 ltac:(lia)) as [d E4], (be_at_ok 4 p 8 ltac:(lia)) as [x ->]. rewrite E4. cbn [mbind result_bind].
  destruct (N.ltb_spec (16 * 65536) d) as [|Hd]; [left; by eexists|]. destruct (_ <? _)%N; [left; by eexists|]. right. eauto 8.
Qed.
Lemma UTP_seen m p : accepts_or_rejects (sniff_UTP m p) ProtocolBitTorrent m
  (exists b, byte_at p 0 = Ok b /\ N.land b 15 = 1%N /\ (N.shiftr b 4 <= 4)%N).
Proof.
  unfold accepts_or_rejects, sniff_UTP. destruct (Nat.ltb_spec (String.length p) 20); [left; by eexists|].
  destruct (byte_at_ok p 0 ltac:(lia)) as [v E]. rewrite E. cbn [mbind result_bind]. cbn zeta.
  destruct (N.eqb_spec (N.land v 15) 1) as [Hv|]; cbn [negb orb]; [|left; by eexists].
  destruct (N.ltb_spec 4 (N.shiftr v 4)) as [|Hty]; [left; by eexists|]. destruct (byte_at_ok p 1 ltac:(lia)) as [x ->]. cbn [mbind result_bind].
  pose proof (utp_extensions_ends (S (String.length p)) x (stream (str_drop 20 p))) as Hu.
  destruct (utp_extensions _ _ _) as [[]|e|msg]; cbn [mbind result_bind]; [right; eauto|left; by eexists|].
  exfalso. apply (Hu msg); [|done]. cbn [rd_data stream]. rewrite str_length_drop. lia.
Qed.

Lemma tracker_bytes p : (16 <= String.length p)%nat -> be_at 8 p 0 = Ok trackerProtocolID ->
  byte_at p 0 = Ok 0%N /\ be_at 4 p 4 = Ok 0x27101980%N.
Proof.
  intros Hl. do 8 (destruct p as [|? p]; [simpl in Hl; lia|]). unfold be_at, slice, byte_at.
  destruct (Nat.leb_spec (0 + 8) (String.length (String a (String a0 (String a1 (String a2 (String a3 (String a4 (String a5 (String a6 p)))))))))) as [_|];
    [|lia].
  destruct (Nat.leb_spec (4 + 4) (String.length (String a (String a0 (String a1 (String a2 (String a3 (String a4 (String a5 (String a6 p)))))))))) as [_|];
    [|lia].
  cbn [Nat.leb Nat.add Nat.sub andb str_take str_drop mbind result_bind String.get]. unfold be_val, trackerProtocolID. cbn [be_val_go].
  pose proof (byte_val_lt a); pose proof (byte_val_lt a0); pose proof (byte_val_lt a1); pose proof (byte_val_lt a2);
  pose proof (byte_val_lt a3); pose proof (byte_val_lt a4); pose proof (byte_val_lt a5); pose proof (byte_val_lt a6).
  intros [= E]. split; f_equal; lia.
Qed.

(** no packet is two things.  The sniffers of UDP packets with fixed headers do not panic, and at most one of those of
    uTP, UDP trackers, DTLS and NTP accepts a packet; what is STUN is neither a tracker's nor NTP.  So their order does not
    matter for what they recognise. *)
Theorem packet_sniffers_disjoint m p :
  Forall (fun r => forall msg, r <> Panic msg)
    [sniff_STUNMessage m p; sniff_UTP m p; sniff_UDPTracker m p; sniff_DTLSRecord m p; sniff_NTP m p] /\
  (length (List.filter is_Ok [sniff_UTP m p; sniff_UDPTracker m p; sniff_DTLSRecord m p; sniff_NTP m p]) <= 1)%nat /\
  (is_Ok (sniff_STUNMessage m p) = true -> is_Ok (sniff_UDPTracker m p) = false /\ is_Ok (sniff_NTP m p) = false).
Proof.
  assert (forall r protocol P, accepts_or_rejects r protocol m P -> forall msg, r <> Panic msg) as Hn by (intros r protocol P [[e ->]|[-> _]]; done).
  split; [repeat constructor; eapply Hn;
    [apply STUN_seen|apply UTP_seen|apply UDPTracker_seen|apply DTLS_seen|apply NTP_seen]|].
  assert (forall b, N.land b 15 = 1 -> N.land b 7 = 1)%N as H15.
  { intros b Hb. change 7%N with (N.land 15 7). by rewrite N.land_assoc, Hb. }
  destruct (UTP_seen m p) as [[e1 ->]|[-> (b1 & E1 & H1 & _)]], (UDPTracker_seen m p) as [[e2 ->]|[-> (E2 & H2)]],
    (DTLS_seen m p) as [[e3 ->]|[-> (b3 & E3 & H3)]], (NTP_seen m p) as [[e4 ->]|[-> (b4 & d4 & E4 & H4 & F4 & G4)]];
    cbn [List.filter is_Ok length];
    repeat match goal with H : be_at 8 p 0 = _ |- _ => apply tracker_bytes in H as [? ?]; [|done] end;
    repeat match goal with H : ?x = Ok ?a, H' : ?x = Ok ?b |- _ => rewrite H in H'; injection H' as H' end; subst;
    try (exfalso; first [discriminate H1|discriminate H4|apply H15 in H1; congruence|
      set_unfold in H3; destruct_or! H3; subst; first [discriminate H1|discriminate H4|discriminate|contradiction]]).
  all: split; [lia|]; intros Hs; destruct (STUN_seen m p) as [[e Es]|[_ E]]; [by rewrite Es in Hs|]; split; try done;
    match goal with H : be_at 4 ?x 4 = Ok _, H' : be_at 4 ?x 4 = Ok _ |- _ => rewrite H in H'; injection H' as H'; lia end.
Qed.
