(* ===== verification/JA3.v ===== *)
(** * JA3: the parser of TLS client hellos

    common/ja3: [Compute] ([ja3_Compute] here) with its parser (parser.go) and the fingerprint string (ja3.go).  An index or a slice
    out of range panics; lengths and types are checked as the code checks them, and a [uint16] wraps. *)

From S2P Require Import Prelude GoStd NetIP DNSMessage Metadata RuleItems RuleMatch RuleAction Sniff.
From S2P Require Import FakeIP FakeIPCodec GoIO SniffBasic.
Open Scope string_scope.

(** ** Bytes *)

(** [uint16(b[i])<<8 | uint16(b[i+1])], [b[lo:]], and [n] such numbers from the start of [b]. *)
Definition u16_at (b : string) (i : nat) : result N :=
  let! hi := byte_at b i in let! lo := byte_at b (i + 1) in Ok (hi * 256 + lo)%N.
Definition slice_from (b : string) (lo : nat) : result string := slice b lo (String.length b).
Fixpoint u16s (n : nat) (b : string) : result (list N) :=
  match n with
  | O => Ok []
  | S n =>
      match b with
      | String x (String y b) => let! l := u16s n b in Ok ((byte_val x * 256 + byte_val y)%N :: l)
      | _ => Panic index_panic
      end
  end.
Fixpoint bytes_of (b : string) : list N := match b with "" => [] | String c b => byte_val c :: bytes_of b end.

Record ClientHello : Type := mkClientHello {
  ch_Version : N;
  ch_CipherSuites : list N;
  ch_Extensions : list N;
  ch_EllipticCurves : list N;
  ch_EllipticCurvePF : list N;
  ch_Versions : list N;
  ch_SignatureAlgorithms : list N;
  ch_ServerName : string
}.

Definition LengthErr (check : N) : error := ENew ("length check " +:+ format_uint check +:+ " failed").
Definition VersionErr (check : N) : error := ENew ("version check " +:+ format_uint check +:+ " failed").
Definition ContentTypeErr : error := ENew "content type not matching".
Definition HandshakeTypeErr : error := ENew "handshake type not matching".
Definition SNITypeErr : error := ENew "SNI type not supported".

Definition recordLayerHeaderLen : nat := 5.
Definition handshakeHeaderLen : nat := 6.
Definition randomDataLen : nat := 32.
Definition sessionIDHeaderLen : nat := 1.
Definition cipherSuiteHeaderLen : nat := 2.
Definition compressMethodHeaderLen : nat := 1.
Definition extensionsHeaderLen : nat := 2.
Definition extensionHeaderLen : nat := 4.
Definition sniExtensionHeaderLen : nat := 5.
Definition contentType : N := 22.
Definition handshakeType : N := 1.
Definition sniExtensionType : N := 0.
Definition sniNameDNSHostnameType : N := 0.
Definition ecExtensionType : N := 10.
Definition ecpfExtensionType : N := 11.
Definition versionExtensionType : N := 43.
Definition signatureAlgorithmsExtensionType : N := 13.
Definition tlsVersionBitmask : N := 0xFFFC.
Definition tls13 : N := 0x0304.
Definition GreaseBitmask : N := 0x0F0F.

Definition version_supported (v : N) : bool := (N.land v tlsVersionBitmask =? 0x0300)%N || (v =? tls13)%N.

(** ** Extensions *)

(** The local variables of [parseExtensions]. *)
Record exts : Type := mkExts {
  ex_sni : string;
  ex_extensions : list N;
  ex_curves : list N;
  ex_pf : list N;
  ex_versions : list N;
  ex_signatures : list N
}.
Definition exts_zero : exts := mkExts "" [] [] [] [] [].
Definition add_extension (ty : N) (x : exts) : exts :=
  mkExts (ex_sni x) (ex_extensions x ++ [ty])%list (ex_curves x) (ex_pf x) (ex_versions x) (ex_signatures x).
Definition set_sni (v : string) (x : exts) : exts := mkExts v (ex_extensions x) (ex_curves x) (ex_pf x) (ex_versions x) (ex_signatures x).
Definition set_curves (v : list N) (x : exts) : exts := mkExts (ex_sni x) (ex_extensions x) v (ex_pf x) (ex_versions x) (ex_signatures x).
Definition set_pf (v : list N) (x : exts) : exts := mkExts (ex_sni x) (ex_extensions x) (ex_curves x) v (ex_versions x) (ex_signatures x).
Definition add_versions (v : list N) (x : exts) : exts :=
  mkExts (ex_sni x) (ex_extensions x) (ex_curves x) (ex_pf x) (ex_versions x ++ v)%list (ex_signatures x).
Definition add_signatures (v : list N) (x : exts) : exts :=
  mkExts (ex_sni x) (ex_extensions x) (ex_curves x) (ex_pf x) (ex_versions x) (ex_signatures x ++ v)%list.

(** The [switch] over the type of an extension with the body [sex].  The loops over versions and signature
    algorithms go by the length that the body states, which is not compared with the body. *)
Definition parse_extension (exType : N) (sex : string) (x : exts) : result exts :=
  if (exType =? sniExtensionType)%N then
    if (String.length sex <? sniExtensionHeaderLen)%nat then Err (LengthErr 13)
    else
      let! sniType := byte_at sex 2 in
      let! sniLen := u16_at sex 3 in
      let! sex := slice_from sex sniExtensionHeaderLen in
      if negb (String.length sex =? N.to_nat sniLen)%nat then Err (LengthErr 14)
      else if (sniType =? sniNameDNSHostnameType)%N then Ok (set_sni sex x) else Err SNITypeErr
  else if (exType =? ecExtensionType)%N then
    if (String.length sex <? 2)%nat then Err (LengthErr 15)
    else
      let! ecsLen := u16_at sex 0 in
      let! sex := slice_from sex 2 in
      if negb (String.length sex =? N.to_nat ecsLen)%nat then Err (LengthErr 16)
      else let! curves := u16s (N.to_nat (ecsLen / 2)) sex in Ok (set_curves curves x)
  else if (exType =? ecpfExtensionType)%N then
    if (String.length sex <? 1)%nat then Err (LengthErr 17)
    else
      let! numPF := byte_at sex 0 in
      let! sex := slice_from sex 1 in
      if negb (String.length sex =? N.to_nat numPF)%nat then Err (LengthErr 18)
      else Ok (set_pf (bytes_of sex) x)
  else if (exType =? versionExtensionType)%N then
    if (String.length sex <? 1)%nat then Err (LengthErr 19)
    else
      let! versionsLen := byte_at sex 0 in
      let! sex := slice_from sex 1 in
      let! versions := u16s (N.to_nat ((versionsLen + 1) / 2)) sex in
      Ok (add_versions versions x)
  else if (exType =? signatureAlgorithmsExtensionType)%N then
    if (String.length sex <? 2)%nat then Err (LengthErr 20)
    else
      let! ssaLen := u16_at sex 0 in
      let! sex := slice_from sex 2 in
      let! signatures := u16s (N.to_nat ((ssaLen + 1) / 2)) sex in
      Ok (add_signatures signatures x)
  else Ok x.

(** The loop: [exs = exs[4+exLen:]] adds in 16 bits. *)
Fixpoint parse_extensions_go (fuel : nat) (exs : string) (x : exts) : result exts :=
  if str_empty exs then Ok x
  else match fuel with
    | O => Panic "out of fuel"
    | S f =>
        if (String.length exs <? extensionHeaderLen)%nat then Err (LengthErr 11)
        else
          let! exType := u16_at exs 0 in
          let! exLen := u16_at exs 2 in
          let x := add_extension exType x in
          if (String.length exs <? extensionHeaderLen + N.to_nat exLen)%nat then Err (LengthErr 12)
          else
            let! sex := slice exs extensionHeaderLen (extensionHeaderLen + N.to_nat exLen) in
            let! x := parse_extension exType sex x in
            let! exs := slice_from exs (N.to_nat ((4 + exLen) mod 65536)) in
            parse_extensions_go f exs x
    end.
Definition parseExtensions (exs : string) : result exts :=
  if str_empty exs then Ok exts_zero
  else if (String.length exs <? extensionsHeaderLen)%nat then Err (LengthErr 9)
  else
    let! exsLen := u16_at exs 0 in
    let! exs := slice_from exs extensionsHeaderLen in
    if (String.length exs <? N.to_nat exsLen)%nat then Err (LengthErr 10)
    else parse_extensions_go (S (String.length exs)) exs exts_zero.

(** ** Handshakes *)

Definition parseHandshake (hs : string) : result ClientHello :=
  let fixed := (handshakeHeaderLen + randomDataLen + sessionIDHeaderLen)%nat in
  if (String.length hs <? fixed)%nat then Err (LengthErr 3)
  else
    let! handshType := byte_at hs 0 in
    if negb (handshType =? handshakeType)%N then Err HandshakeTypeErr
    else
      let! b1 := byte_at hs 1 in let! b2 := byte_at hs 2 in let! b3 := byte_at hs 3 in
      let handshakeLen := (b1 * 65536 + b2 * 256 + b3)%N in
      if negb (String.length hs - 4 =? N.to_nat handshakeLen)%nat then Err (LengthErr 4)
      else
        let! tlsVersion := u16_at hs 4 in
        if negb (version_supported tlsVersion) then Err (VersionErr 2)
        else
          let! sessionIDLen := byte_at hs 38 in
          if (String.length hs <? fixed + N.to_nat sessionIDLen)%nat then Err (LengthErr 5)
          else
            let! cs := slice_from hs (fixed + N.to_nat sessionIDLen) in
            if (String.length cs <? cipherSuiteHeaderLen)%nat then Err (LengthErr 6)
            else
              let! csLen := u16_at cs 0 in
              if (String.length cs <? cipherSuiteHeaderLen + N.to_nat csLen + compressMethodHeaderLen)%nat then Err (LengthErr 7)
              else
                let! suites := slice_from cs cipherSuiteHeaderLen in
                let! cipherSuites := u16s (N.to_nat (csLen / 2)) suites in
                let! compressMethodLen := byte_at cs (cipherSuiteHeaderLen + N.to_nat csLen) in
                let offset := (cipherSuiteHeaderLen + N.to_nat csLen + compressMethodHeaderLen + N.to_nat compressMethodLen)%nat in
                if (String.length cs <? offset)%nat then Err (LengthErr 8)
                else
                  let! exs := slice_from cs offset in
                  let! x := parseExtensions exs in
                  Ok (mkClientHello tlsVersion cipherSuites (ex_extensions x) (ex_curves x) (ex_pf x) (ex_versions x)
                        (ex_signatures x) (ex_sni x)).

Definition parseSegment (segment : string) : result ClientHello :=
  if (String.length segment <? recordLayerHeaderLen)%nat then Err (LengthErr 1)
  else
    let! contType := byte_at segment 0 in
    if negb (contType =? contentType)%N then Err ContentTypeErr
    else
      let! tlsRecordVersion := u16_at segment 1 in
      if negb (version_supported tlsRecordVersion) then Err (VersionErr 1)
      else
        let! segmentLen := u16_at segment 3 in
        if (String.length segment - recordLayerHeaderLen <? N.to_nat segmentLen)%nat then Err (LengthErr 2)
        else
          let! hs := slice segment recordLayerHeaderLen (recordLayerHeaderLen + N.to_nat segmentLen) in
          parseHandshake hs.
Definition ja3_Compute : string -> result ClientHello := parseSegment.

(** ** The fingerprint *)

(** The values of a list that are GREASE, each with a dash, the last dash replaced by a comma; the comma before
    is replaced when there is none.  [s] is the string so far. *)
Definition grease (v : N) : bool := (N.land v GreaseBitmask =? 0x0A0A)%N.
Definition replace_last (c : string) (s : string) : string := str_take (String.length s - 1) s +:+ c.
Definition marshal_list (l : list N) (s : string) : string :=
  if nonempty l then replace_last "," (s +:+ str_concat (map (fun v => format_uint v +:+ "-") (List.filter grease l)))
  else s +:+ ",".
Definition marshalJA3 (j : ClientHello) : string :=
  let s := format_uint (ch_Version j) +:+ "," in
  let s := marshal_list (ch_CipherSuites j) s in
  let s := marshal_list (ch_Extensions j) s in
  let s := marshal_list (ch_EllipticCurves j) s in
  if nonempty (ch_EllipticCurvePF j) then
    replace_last "" (s +:+ str_concat (map (fun v => format_uint v +:+ "-") (ch_EllipticCurvePF j)))
  else s.

(** ** Comparison *)

Definition sortedExtensions (j : ClientHello) : list N := merge_sort N.le (ch_Extensions j).
Definition ja3_Equals (j another : ClientHello) (ignoreExtensionsSequence : bool) : bool :=
  (ch_Version j =? ch_Version another)%N
  && bool_decide (ch_CipherSuites j = ch_CipherSuites another)
  && (ignoreExtensionsSequence || bool_decide (ch_Extensions j = ch_Extensions another))
  && (negb ignoreExtensionsSequence || bool_decide (ch_Extensions j = sortedExtensions another))
  && bool_decide (ch_EllipticCurves j = ch_EllipticCurves another)
  && bool_decide (ch_EllipticCurvePF j = ch_EllipticCurvePF another)
  && bool_decide (ch_SignatureAlgorithms j = ch_SignatureAlgorithms another).
