(* ===== verification/JA3Laws.v ===== *)
(** * JA3Laws: client hellos are parsed as they were written, and the parser ends *)

From S2P Require Import Prelude GoStd NetIP DNSMessage Metadata RuleItems RuleMatch RuleAction Sniff.
From S2P Require Import FakeIP FakeIPCodec GoIO SniffBasic SniffLaws JA3.
Open Scope string_scope.

(** ** Reading what was concatenated *)

Lemma byte_at_app_r a b i : byte_at (a +:+ b) (String.length a + i) = byte_at b i.
Proof. unfold byte_at. induction a as [|c a IH]; [done|]. exact IH. Qed.
Lemma byte_at_app n a b i : String.length a = n -> byte_at (a +:+ b) (n + i) = byte_at b i.
Proof. intros <-. apply byte_at_app_r. Qed.
Lemma byte_at_byte v s : byte_at (byte v +:+ s) 0 = Ok (v mod 256)%N.
Proof.
  change (byte v +:+ s) with (String (byte_of v) s). change (Ok (byte_val (byte_of v)) = Ok (v mod 256)%N). by rewrite byte_val_of.
Qed.
Lemma be2 v : be_bytes 2 v = byte (v / 256) +:+ byte v.
Proof. done. Qed.
Lemma u16_at_app n a b i : String.length a = n -> u16_at (a +:+ b) (n + i) = u16_at b i.
Proof. intros H. unfold u16_at. rewrite <- Nat.add_assoc, !(byte_at_app n) by done. done. Qed.
Lemma u16_at_be v s : (v < 65536)%N -> u16_at (be_bytes 2 v +:+ s) 0 = Ok v.
Proof.
  intros Hv. unfold u16_at. rewrite be2, str_app_assoc, byte_at_byte. cbn [mbind result_bind].
  rewrite (byte_at_app 1 (byte _) _ 0) by done. rewrite byte_at_byte. cbn [mbind result_bind]. f_equal.
  assert (v / 256 < 256)%N by (apply N.Div0.div_lt_upper_bound; lia). rewrite (N.mod_small (v / 256)) by done.
  pose proof (N.div_mod v 256 ltac:(lia)) as E. rewrite N.mul_comm. by rewrite <- E.
Qed.
Lemma slice_app n m a b c : String.length a = n -> (n + String.length b)%nat = m -> slice (a +:+ b +:+ c) n m = Ok b.
Proof.
  intros <- <-. unfold slice. rewrite !str_length_app. destruct (Nat.leb_spec (String.length a) (String.length a + String.length b)); [|lia].
  destruct (Nat.leb_spec (String.length a + String.length b) (String.length a + (String.length b + String.length c))); [|lia]. cbn [andb].
  rewrite str_drop_app by done. replace (_ - _)%nat with (String.length b) by lia. by rewrite str_take_app.
Qed.
Lemma slice_from_app n a b : String.length a = n -> slice_from (a +:+ b) n = Ok b.
Proof.
  intros H. unfold slice_from. rewrite <- (str_app_nil (a +:+ b)) at 1. rewrite str_app_assoc. apply slice_app; [done|].
  rewrite str_length_app. lia.
Qed.
Lemma u16s_app l rest : Forall (fun v => v < 65536)%N l -> u16s (length l) (str_concat (map (be_bytes 2) l) +:+ rest) = Ok l.
Proof.
  induction 1 as [|v l Hv _ IH]; [done|]. cbn [length map].
  change (str_concat (be_bytes 2 v :: map (be_bytes 2) l) +:+ rest)
    with (String (byte_of (v / 256)) (String (byte_of v) (str_concat (map (be_bytes 2) l) +:+ rest))).
  cbn [u16s]. rewrite IH. cbn [mbind result_bind].
  do 2 f_equal. rewrite !byte_val_of.
  assert (v / 256 < 256)%N by (apply N.Div0.div_lt_upper_bound; lia). rewrite (N.mod_small (v / 256)) by done.
  pose proof (N.div_mod v 256 ltac:(lia)) as E. rewrite N.mul_comm. by rewrite <- E.
Qed.
Lemma u16s_length (l : list N) : String.length (str_concat (map (be_bytes 2) l)) = (2 * length l)%nat.
Proof.
  induction l as [|v l IH]; [done|]. cbn [map length]. change (str_concat (?a :: ?t)) with (a +:+ str_concat t).
  rewrite str_length_app, be_bytes_length, IH. lia.
Qed.
Lemma bytes_of_bytes l : Forall (fun v => v < 256)%N l -> bytes_of (str_concat (map byte l)) = l.
Proof.
  induction 1 as [|v l Hv _ IH]; [done|]. cbn [map]. change (str_concat (byte v :: ?t)) with (String (byte_of v) (str_concat t)).
  cbn [bytes_of]. rewrite IH, byte_val_of. by rewrite N.mod_small.
Qed.
Lemma bytes_length (l : list N) : String.length (str_concat (map byte l)) = length l.
Proof.
  induction l as [|v l IH]; [done|]. cbn [map length]. change (str_concat (byte v :: ?t)) with (String (byte_of v) (str_concat t)).
  cbn [String.length]. by rewrite IH.
Qed.

(** ** Extensions *)

Inductive extension : Type :=
| ExtServerName (name : string)
| ExtGroups (groups : list N)
| ExtPointFormats (formats : list N)
| ExtVersions (versions : list N)
| ExtSignatures (algorithms : list N)
| ExtOther (type : N) (body : string).

Definition ext_type (e : extension) : N :=
  match e with
  | ExtServerName _ => sniExtensionType | ExtGroups _ => ecExtensionType | ExtPointFormats _ => ecpfExtensionType
  | ExtVersions _ => versionExtensionType | ExtSignatures _ => signatureAlgorithmsExtensionType | ExtOther ty _ => ty
  end.
(** RFC 8446, 4.2, and RFC 6066, 3 (a list with one name). *)
Definition ext_body (e : extension) : string :=
  match e with
  | ExtServerName name =>
      be_bytes 2 (3 + N.of_nat (String.length name)) +:+ byte 0 +:+ be_bytes 2 (N.of_nat (String.length name)) +:+ name
  | ExtGroups l | ExtSignatures l => be_bytes 2 (2 * N.of_nat (length l)) +:+ str_concat (map (be_bytes 2) l)
  | ExtPointFormats l => byte (N.of_nat (length l)) +:+ str_concat (map byte l)
  | ExtVersions l => byte (2 * N.of_nat (length l)) +:+ str_concat (map (be_bytes 2) l)
  | ExtOther _ body => body
  end.
Definition encode_ext (e : extension) : string :=
  be_bytes 2 (ext_type e) +:+ be_bytes 2 (N.of_nat (String.length (ext_body e))) +:+ ext_body e.
Definition ext_effect (e : extension) (x : exts) : exts :=
  let x := add_extension (ext_type e) x in
  match e with
  | ExtServerName name => set_sni name x
  | ExtGroups l => set_curves l x
  | ExtPointFormats l => set_pf l x
  | ExtVersions l => add_versions l x
  | ExtSignatures l => add_signatures l x
  | ExtOther _ _ => x
  end.
Definition ext_ok (e : extension) : Prop :=
  (N.of_nat (String.length (ext_body e)) < 65536)%N /\
  match e with
  | ExtServerName name => (N.of_nat (String.length name) < 65533)%N
  | ExtGroups l | ExtSignatures l => Forall (fun v => v < 65536)%N l /\ (2 * N.of_nat (length l) < 65536)%N
  | ExtPointFormats l => Forall (fun v => v < 256)%N l /\ (N.of_nat (length l) < 256)%N
  | ExtVersions l => Forall (fun v => v < 65536)%N l /\ (2 * N.of_nat (length l) < 256)%N
  | ExtOther ty _ => (ty < 65536)%N /\
      ty ∉ [sniExtensionType; ecExtensionType; ecpfExtensionType; versionExtensionType; signatureAlgorithmsExtensionType]
  end.

Lemma byte_at_mid n a v b : String.length a = n -> (v < 256)%N -> byte_at (a +:+ byte v +:+ b) n = Ok v.
Proof.
  intros Ha Hv. rewrite <- (Nat.add_0_r n), (byte_at_app n) by done. rewrite byte_at_byte. by rewrite N.mod_small.
Qed.
Lemma u16_at_mid n a v b : String.length a = n -> (v < 65536)%N -> u16_at (a +:+ be_bytes 2 v +:+ b) n = Ok v.
Proof. intros Ha Hv. rewrite <- (Nat.add_0_r n), (u16_at_app n) by done. by rewrite u16_at_be. Qed.

Lemma parse_list16 l : Forall (fun v => v < 65536)%N l -> (2 * N.of_nat (length l) < 65536)%N ->
  let s := be_bytes 2 (2 * N.of_nat (length l)) +:+ str_concat (map (be_bytes 2) l) in
  (2 <= String.length s)%nat /\ u16_at s 0 = Ok (2 * N.of_nat (length l))%N /\ slice_from s 2 = Ok (str_concat (map (be_bytes 2) l)).
Proof.
  intros Hl Hn s. unfold s. split_and!.
  - rewrite str_length_app, be_bytes_length. lia.
  - apply u16_at_be. lia.
  - apply slice_from_app, be_bytes_length.
Qed.
Lemma u16s_all l : Forall (fun v => v < 65536)%N l -> u16s (length l) (str_concat (map (be_bytes 2) l)) = Ok l.
Proof. intros H. rewrite <- (str_app_nil (str_concat _)). by apply u16s_app. Qed.
Lemma half_double n : N.to_nat (2 * N.of_nat n / 2) = n.
Proof. rewrite N.mul_comm, N.div_mul by lia. apply Nat2N.id. Qed.
Lemma half_double_up n : N.to_nat ((2 * N.of_nat n + 1) / 2) = n.
Proof. replace ((2 * N.of_nat n + 1) / 2)%N with (N.of_nat n); [apply Nat2N.id|]. apply (N.div_unique _ _ _ 1); lia. Qed.

Lemma server_name_fields name : (N.of_nat (String.length name) < 65533)%N ->
  let body := ext_body (ExtServerName name) in
  (String.length body <? sniExtensionHeaderLen)%nat = false /\ byte_at body 2 = Ok 0%N /\
  u16_at body 3 = Ok (N.of_nat (String.length name)) /\ slice_from body sniExtensionHeaderLen = Ok name.
Proof.
  intros Hn. cbn [ext_body]. cbv zeta. set (n := N.of_nat (String.length name)) in *.
  assert (String.length (be_bytes 2 (3 + n) +:+ byte 0) = 3)%nat as H3 by (rewrite str_length_app, be_bytes_length; done). split_and!.
  - by rewrite !str_length_app, !be_bytes_length.
  - by rewrite byte_at_mid by (done || apply be_bytes_length).
  - rewrite <- str_app_assoc, u16_at_mid by (done || lia). done.
  - rewrite <- 2!str_app_assoc, (slice_from_app sniExtensionHeaderLen); [done|]. rewrite str_length_app, H3. by rewrite be_bytes_length.
Qed.
Lemma parse_server_name name x : (N.of_nat (String.length name) < 65533)%N ->
  parse_extension sniExtensionType (ext_body (ExtServerName name)) x = Ok (set_sni name x).
Proof.
  intros Hn. destruct (server_name_fields name Hn) as (H1 & H2 & H3 & H4). unfold parse_extension.
  change (sniExtensionType =? sniExtensionType)%N with true. cbn iota. rewrite H1, H2. cbn [mbind result_bind]. rewrite H3. cbn [mbind result_bind].
  rewrite H4. cbn [mbind result_bind]. rewrite Nat2N.id, Nat.eqb_refl. done.
Qed.
(** The tests of the switch before the case that matches. *)
Ltac next_case :=
  match goal with |- context [(?a =? ?b)%N] => let v := eval vm_compute in (a =? b)%N in change (a =? b)%N with v end; cbn iota.
Lemma parse_groups l x : Forall (fun v => v < 65536)%N l -> (2 * N.of_nat (length l) < 65536)%N ->
  parse_extension ecExtensionType (ext_body (ExtGroups l)) x = Ok (set_curves l x).
Proof.
  intros Hl Hn. destruct (parse_list16 l Hl Hn) as (H1 & H2 & H3). unfold parse_extension. do 2 next_case. cbn [ext_body].
  apply Nat.ltb_ge in H1. rewrite H1, H2. cbn [mbind result_bind]. rewrite H3. cbn [mbind result_bind].
  rewrite u16s_length. replace (N.to_nat (2 * _)) with (2 * length l)%nat by lia. rewrite Nat.eqb_refl. cbn [negb].
  by rewrite half_double, u16s_all.
Qed.
Lemma parse_signatures l x : Forall (fun v => v < 65536)%N l -> (2 * N.of_nat (length l) < 65536)%N ->
  parse_extension signatureAlgorithmsExtensionType (ext_body (ExtSignatures l)) x = Ok (add_signatures l x).
Proof.
  intros Hl Hn. destruct (parse_list16 l Hl Hn) as (H1 & H2 & H3). unfold parse_extension. do 5 next_case. cbn [ext_body].
  apply Nat.ltb_ge in H1. rewrite H1, H2. cbn [mbind result_bind]. rewrite H3. cbn [mbind result_bind].
  by rewrite half_double_up, u16s_all.
Qed.
Lemma byte_head v s : (v < 256)%N ->
  (String.length (byte v +:+ s) <? 1)%nat = false /\ byte_at (byte v +:+ s) 0 = Ok v /\ slice_from (byte v +:+ s) 1 = Ok s.
Proof. intros Hv. split_and!; [done|by apply (byte_at_mid 0 "")|by apply slice_from_app]. Qed.
Lemma parse_point_formats l x : Forall (fun v => v < 256)%N l -> (N.of_nat (length l) < 256)%N ->
  parse_extension ecpfExtensionType (ext_body (ExtPointFormats l)) x = Ok (set_pf l x).
Proof.
  intros Hl Hn. destruct (byte_head _ (str_concat (map byte l)) Hn) as (H1 & H2 & H3). unfold parse_extension. do 3 next_case.
  cbn [ext_body]. rewrite H1, H2. cbn [mbind result_bind]. rewrite H3. cbn [mbind result_bind].
  rewrite bytes_length, Nat2N.id, Nat.eqb_refl. cbn [negb]. by rewrite bytes_of_bytes.
Qed.
Lemma parse_versions l x : Forall (fun v => v < 65536)%N l -> (2 * N.of_nat (length l) < 256)%N ->
  parse_extension versionExtensionType (ext_body (ExtVersions l)) x = Ok (add_versions l x).
Proof.
  intros Hl Hn. destruct (byte_head _ (str_concat (map (be_bytes 2) l)) Hn) as (H1 & H2 & H3). unfold parse_extension. do 4 next_case.
  cbn [ext_body]. rewrite H1, H2. cbn [mbind result_bind]. rewrite H3. cbn [mbind result_bind].
  by rewrite half_double_up, u16s_all.
Qed.
Lemma parse_other ty body x :
  ty ∉ [sniExtensionType; ecExtensionType; ecpfExtensionType; versionExtensionType; signatureAlgorithmsExtensionType] ->
  parse_extension ty body x = Ok x.
Proof.
  rewrite !not_elem_of_cons. intros (H1 & H2 & H3 & H4 & H5 & _). unfold parse_extension.
  by rewrite (proj2 (N.eqb_neq _ _) H1), (proj2 (N.eqb_neq _ _) H2), (proj2 (N.eqb_neq _ _) H3), (proj2 (N.eqb_neq _ _) H4),
    (proj2 (N.eqb_neq _ _) H5).
Qed.
Lemma parse_extension_body e x : ext_ok e -> parse_extension (ext_type e) (ext_body e) (add_extension (ext_type e) x) = Ok (ext_effect e x).
Proof.
  intros [_ He]. destruct e as [name|l|l|l|l|ty body]; cbn [ext_type] in *.
  - by apply parse_server_name, He.
  - by apply parse_groups; apply He.
  - by apply parse_point_formats; apply He.
  - by apply parse_versions; apply He.
  - by apply parse_signatures; apply He.
  - by apply parse_other, He.
Qed.

(** ** Hellos *)

Definition encode_exts (es : list extension) : string := str_concat (map encode_ext es).
Lemma encode_ext_length e : String.length (encode_ext e) = (4 + String.length (ext_body e))%nat.
Proof. unfold encode_ext. by rewrite !str_length_app, !be_bytes_length. Qed.
Lemma ext_type_lt e : ext_ok e -> (ext_type e < 65536)%N.
Proof. intros [_ H]. destruct e; cbn [ext_type]; try done. by destruct H. Qed.
Lemma parse_extensions_encoded es : forall fuel x, Forall ext_ok es -> (N.of_nat (String.length (encode_exts es)) < 65536)%N ->
  (length es <= fuel)%nat -> parse_extensions_go fuel (encode_exts es) x = Ok (foldl (flip ext_effect) x es).
Proof.
  induction es as [|e es IH]; intros fuel x He Hlen Hf; [by destruct fuel|].
  apply Forall_cons in He as [He Hes]. destruct fuel as [|fuel]; [cbn in Hf; lia|]. cbn [length] in Hf.
  change (encode_exts (e :: es)) with (encode_ext e +:+ encode_exts es) in *.
  rewrite str_length_app, encode_ext_length in Hlen. cbn [parse_extensions_go foldl].
  assert (str_empty (encode_ext e +:+ encode_exts es) = false) as -> by reflexivity.
  assert (String.length (encode_ext e +:+ encode_exts es) = 4 + String.length (ext_body e) + String.length (encode_exts es))%nat as Hl
    by (rewrite str_length_app, encode_ext_length; lia).
  pose proof (ext_type_lt e He) as Hty. pose proof (proj1 He) as Hb. rewrite Hl.
  replace (_ <? extensionHeaderLen)%nat with false by (symmetry; apply Nat.ltb_ge; unfold extensionHeaderLen; lia).
  unfold encode_ext at 1 2 3 4. rewrite !str_app_assoc.
  rewrite u16_at_be by done. cbn [mbind result_bind]. rewrite (u16_at_mid 2) by (done || apply be_bytes_length). cbn [mbind result_bind].
  rewrite Nat2N.id. replace (_ <? extensionHeaderLen + _)%nat with false by (symmetry; apply Nat.ltb_ge; unfold extensionHeaderLen; lia).
  rewrite <- str_app_assoc, (slice_app extensionHeaderLen) by (rewrite ?str_length_app, ?be_bytes_length; reflexivity).
  cbn [mbind result_bind]. rewrite parse_extension_body by done. cbn [mbind result_bind].
  rewrite N.mod_small by lia. rewrite <- str_app_assoc, (slice_from_app (N.to_nat _)) by (rewrite !str_length_app, !be_bytes_length; lia).
  cbn [mbind result_bind]. apply IH; [done|lia|lia].
Qed.

(** RFC 8446, 4.1.2. *)
Record hello : Type := mkHello {
  h_version : N;
  h_random : string;
  h_session : string;
  h_suites : list N;
  h_compress : string;
  h_extensions : list extension
}.
Definition encode_tail (h : hello) : string :=
  byte (N.of_nat (String.length (h_compress h))) +:+ h_compress h +:+ be_bytes 2 (N.of_nat (String.length (encode_exts (h_extensions h)))) +:+ encode_exts (h_extensions h).
Definition encode_suites (h : hello) : string :=
  be_bytes 2 (2 * N.of_nat (length (h_suites h))) +:+ str_concat (map (be_bytes 2) (h_suites h)) +:+ encode_tail h.
Definition encode_body (h : hello) : string :=
  be_bytes 2 (h_version h) +:+ h_random h +:+ byte (N.of_nat (String.length (h_session h))) +:+ h_session h +:+ encode_suites h.
Definition encode_hello (h : hello) : string := byte 1 +:+ be_bytes 3 (N.of_nat (String.length (encode_body h))) +:+ encode_body h.
(** What the parser is to find in a hello. *)
Definition hello_fingerprint (h : hello) : ClientHello :=
  let x := foldl (flip ext_effect) exts_zero (h_extensions h) in
  mkClientHello (h_version h) (h_suites h) (ex_extensions x) (ex_curves x) (ex_pf x) (ex_versions x) (ex_signatures x) (ex_sni x).
Record hello_ok (h : hello) : Prop := mkHelloOk {
  ok_version : h_version h ∈ [0x0300; 0x0301; 0x0302; 0x0303]%N;
  ok_random : String.length (h_random h) = 32%nat;
  ok_session : (N.of_nat (String.length (h_session h)) < 256)%N;
  ok_suites : Forall (fun v => v < 65536)%N (h_suites h);
  ok_suites_length : (2 * N.of_nat (length (h_suites h)) < 65536)%N;
  ok_compress : (N.of_nat (String.length (h_compress h)) < 256)%N;
  ok_extensions : Forall ext_ok (h_extensions h);
  ok_length : (N.of_nat (String.length (encode_hello h)) < 65536)%N
}.

Lemma encode_exts_count es : (length es <= String.length (encode_exts es))%nat.
Proof.
  induction es as [|e es IH]; [done|]. change (encode_exts (e :: es)) with (encode_ext e +:+ encode_exts es).
  rewrite str_length_app, encode_ext_length. cbn [length]. lia.
Qed.
Lemma parseExtensions_encoded es : Forall ext_ok es -> (N.of_nat (String.length (encode_exts es)) < 65536)%N ->
  parseExtensions (be_bytes 2 (N.of_nat (String.length (encode_exts es))) +:+ encode_exts es) = Ok (foldl (flip ext_effect) exts_zero es).
Proof.
  intros He Hn. unfold parseExtensions. change (str_empty _) with false. cbn iota. rewrite str_length_app, be_bytes_length.
  change (2 + String.length (encode_exts es) <? extensionsHeaderLen)%nat with false. cbn iota.
  rewrite u16_at_be by done. cbn [mbind result_bind]. rewrite slice_from_app by apply be_bytes_length. cbn [mbind result_bind].
  rewrite Nat2N.id, Nat.ltb_irrefl. apply parse_extensions_encoded; [done|done|]. pose proof (encode_exts_count es). lia.
Qed.
Lemma be3_at a v b : String.length a = 1%nat -> (v < 65536)%N ->
  byte_at (a +:+ be_bytes 3 v +:+ b) 1 = Ok 0%N /\ byte_at (a +:+ be_bytes 3 v +:+ b) 2 = Ok (v / 256)%N /\
  byte_at (a +:+ be_bytes 3 v +:+ b) 3 = Ok (v mod 256)%N.
Proof.
  intros Ha Hv. change (be_bytes 3 v) with (byte (v / 256 / 256) +:+ byte (v / 256) +:+ byte v). rewrite !str_app_assoc.
  assert (v / 256 < 256)%N as H1 by (apply N.Div0.div_lt_upper_bound; lia).
  assert (v / 256 / 256 = 0)%N as -> by (by apply N.div_small). split_and!.
  - by apply byte_at_mid.
  - rewrite <- str_app_assoc. apply byte_at_mid; [|done]. by rewrite str_length_app, Ha.
  - rewrite <- 2!str_app_assoc. rewrite <- (Nat.add_0_r 3), (byte_at_app 3) by (by rewrite !str_length_app, Ha). apply byte_at_byte.
Qed.
Lemma version_ok v : v ∈ [0x0300; 0x0301; 0x0302; 0x0303]%N -> version_supported v = true /\ (v < 65536)%N.
Proof. rewrite !elem_of_cons, elem_of_nil. by intros [->|[->|[->|[->|[]]]]]. Qed.

Ltac lengths := rewrite ?str_length_app, ?be_bytes_length, ?u16s_length; change (String.length (byte ?v)) with 1%nat in *; try lia.

Lemma encode_hello_length h : String.length (encode_hello h) = (4 + String.length (encode_body h))%nat.
Proof. unfold encode_hello. by rewrite !str_length_app, be_bytes_length. Qed.
Lemma encode_body_length h : hello_ok h -> String.length (encode_body h) = (35 + String.length (h_session h) + String.length (encode_suites h))%nat.
Proof. intros Hok. unfold encode_body. lengths. rewrite (ok_random h Hok). lia. Qed.
Lemma encode_suites_length h : String.length (encode_suites h) = (2 + 2 * length (h_suites h) + String.length (encode_tail h))%nat.
Proof. unfold encode_suites. lengths. Qed.
Lemma encode_tail_length h : String.length (encode_tail h) =
  (3 + String.length (h_compress h) + String.length (encode_exts (h_extensions h)))%nat.
Proof. unfold encode_tail. lengths. Qed.

(** The hello up to the list of cipher suites. *)
Definition hello_front (h : hello) : string :=
  byte 1 +:+ be_bytes 3 (N.of_nat (String.length (encode_body h))) +:+ be_bytes 2 (h_version h) +:+ h_random h
  +:+ byte (N.of_nat (String.length (h_session h))) +:+ h_session h.
Lemma encode_hello_front h : encode_hello h = hello_front h +:+ encode_suites h.
Proof. unfold encode_hello, encode_body, hello_front. by rewrite !str_app_assoc. Qed.
Lemma hello_front_length h : hello_ok h -> String.length (hello_front h) = (39 + String.length (h_session h))%nat.
Proof. intros Hok. unfold hello_front. lengths. rewrite (ok_random h Hok). lia. Qed.

Lemma hello_fields h : hello_ok h ->
  let n := N.of_nat (String.length (encode_body h)) in
  byte_at (encode_hello h) 0 = Ok 1%N /\ byte_at (encode_hello h) 1 = Ok 0%N /\ byte_at (encode_hello h) 2 = Ok (n / 256)%N /\
  byte_at (encode_hello h) 3 = Ok (n mod 256)%N /\ u16_at (encode_hello h) 4 = Ok (h_version h) /\
  byte_at (encode_hello h) 38 = Ok (N.of_nat (String.length (h_session h))).
Proof.
  intros Hok n. pose proof (ok_length h Hok) as Hlen. rewrite encode_hello_length in Hlen.
  destruct (version_ok _ (ok_version h Hok)) as [_ Hv]. pose proof (ok_session h Hok).
  destruct (be3_at (byte 1) n (encode_body h)) as (H1 & H2 & H3); [done|lia|].
  unfold encode_hello. split_and!; [by apply (byte_at_mid 0 "")|done|done|done| |].
  - rewrite <- str_app_assoc. unfold encode_body at 2. by apply u16_at_mid; [lengths|].
  - unfold encode_body at 2. rewrite <- !str_app_assoc. rewrite (str_app_assoc _ (h_session h)), (str_app_assoc _ (byte _)). apply byte_at_mid; [|done]. lengths. rewrite (ok_random h Hok). lia.
Qed.

(** The list of cipher suites and what follows it. *)
Lemma suites_fields h : hello_ok h ->
  let n := (2 * N.of_nat (length (h_suites h)))%N in
  let cs := encode_suites h in
  u16_at cs 0 = Ok n /\
  (let! suites := slice_from cs cipherSuiteHeaderLen in u16s (N.to_nat (n / 2)) suites) = Ok (h_suites h) /\
  byte_at cs (cipherSuiteHeaderLen + N.to_nat n) = Ok (N.of_nat (String.length (h_compress h))) /\
  slice_from cs (cipherSuiteHeaderLen + N.to_nat n + compressMethodHeaderLen + String.length (h_compress h)) =
    Ok (be_bytes 2 (N.of_nat (String.length (encode_exts (h_extensions h)))) +:+ encode_exts (h_extensions h)).
Proof.
  intros Hok n cs. pose proof (ok_suites_length h Hok). pose proof (ok_compress h Hok). unfold cs, encode_suites. split_and!.
  - by apply u16_at_be.
  - rewrite slice_from_app by apply be_bytes_length. cbn [mbind result_bind]. unfold n. rewrite half_double. apply u16s_app, ok_suites, Hok.
  - rewrite <- str_app_assoc. apply byte_at_mid; [|done]. unfold cipherSuiteHeaderLen. lengths.
  - set (s := be_bytes 2 (N.of_nat _) +:+ encode_exts _).
    assert (encode_suites h = (be_bytes 2 n +:+ str_concat (map (be_bytes 2) (h_suites h)) +:+ byte (N.of_nat (String.length (h_compress h)))
      +:+ h_compress h) +:+ s) as E by (unfold encode_suites, encode_tail; by rewrite !str_app_assoc).
    fold (encode_suites h). rewrite E. apply slice_from_app. unfold cipherSuiteHeaderLen, compressMethodHeaderLen. lengths.
Qed.

(** A length check that passes. *)
Ltac long_enough := rewrite (proj2 (Nat.ltb_ge _ _))
  by (unfold handshakeHeaderLen, randomDataLen, sessionIDHeaderLen, cipherSuiteHeaderLen, compressMethodHeaderLen in *; lia).

Lemma parseHandshake_encoded h : hello_ok h -> parseHandshake (encode_hello h) = Ok (hello_fingerprint h).
Proof.
  intros Hok. destruct (hello_fields h Hok) as (F0 & F1 & F2 & F3 & F4 & F38). destruct (suites_fields h Hok) as (S0 & S1 & S2 & S3).
  destruct (version_ok _ (ok_version h Hok)) as [Hv _]. pose proof (encode_body_length h Hok) as Lb. pose proof (encode_suites_length h) as Ls.
  pose proof (encode_tail_length h) as Lt. pose proof (encode_hello_length h) as Lh. pose proof (ok_length h Hok) as Hlen.
  unfold parseHandshake. long_enough. rewrite F0. cbn [mbind result_bind]. change (negb (1 =? handshakeType)%N) with false. cbn iota.
  rewrite F1, F2, F3. cbn [mbind result_bind]. rewrite N.mul_0_l, N.add_0_l, (N.mul_comm (_ / _)), <- N.div_mod, Nat2N.id by done.
  rewrite Lh at 1. rewrite Nat.add_comm, Nat.add_sub, Nat.eqb_refl. cbn [negb].
  rewrite F4. cbn [mbind result_bind]. rewrite Hv. cbn [negb]. rewrite F38. cbn [mbind result_bind]. rewrite Nat2N.id. long_enough.
  rewrite encode_hello_front, slice_from_app by (by rewrite hello_front_length). cbn [mbind result_bind]. long_enough.
  rewrite S0. cbn [mbind result_bind]. long_enough.
  destruct (slice_from (encode_suites h) _) as [suites|e|m]; cbn [mbind result_bind] in S1 |- *; [|done|done]. rewrite S1. cbn [mbind result_bind].
  rewrite S2. cbn [mbind result_bind]. rewrite Nat2N.id. long_enough. rewrite S3. cbn [mbind result_bind].
  rewrite parseExtensions_encoded; [done|apply ok_extensions, Hok|lia].
Qed.

(** The record around a handshake. *)
Lemma ja3_record version hs rest : version ∈ [0x0300; 0x0301; 0x0302; 0x0303]%N -> (N.of_nat (String.length hs) < 65536)%N ->
  ja3_Compute (byte 0x16 +:+ be_bytes 2 version +:+ be_bytes 2 (N.of_nat (String.length hs)) +:+ hs +:+ rest) = parseHandshake hs.
Proof.
  intros Hver Hn. destruct (version_ok _ Hver) as [Hv Hv']. unfold ja3_Compute, parseSegment.
  rewrite !str_length_app, !be_bytes_length. change (String.length (byte 22)) with 1%nat.
  rewrite (proj2 (Nat.ltb_ge _ _)) by (unfold recordLayerHeaderLen; lia).
  rewrite byte_at_byte. cbn [mbind result_bind]. change (negb (22 mod 256 =? contentType)%N) with false. cbn iota.
  rewrite (u16_at_mid 1) by done. cbn [mbind result_bind]. rewrite Hv. cbn [negb].
  rewrite <- (str_app_assoc (byte 22)), (u16_at_mid 3) by done. cbn [mbind result_bind]. rewrite Nat2N.id.
  rewrite (proj2 (Nat.ltb_ge _ _)) by (unfold recordLayerHeaderLen; lia).
  rewrite <- (str_app_assoc (_ +:+ _)), (slice_app recordLayerHeaderLen) by done. done.
Qed.

(** C15: A client hello (RFC 8446) in a TLS record, whatever follows the record, is parsed as what it says: its version, its
    cipher suites, the types of its extensions in order, and the name, groups, point formats, versions and signature algorithms that
    they carry. *)
Theorem ja3_hello_roundtrip h version rest : hello_ok h -> version ∈ [0x0300; 0x0301; 0x0302; 0x0303]%N ->
  ja3_Compute (byte 0x16 +:+ be_bytes 2 version +:+ be_bytes 2 (N.of_nat (String.length (encode_hello h))) +:+ encode_hello h +:+ rest) =
  Ok (hello_fingerprint h).
Proof.
  intros Hok Hver. rewrite ja3_record; [by apply parseHandshake_encoded|done|apply ok_length, Hok].
Qed.

(** ** The parser ends *)

(** A computation that ends: with a value, an error, or an index out of range. *)
Definition ends {A} (r : result A) : Prop := forall m, r = Panic m -> m = index_panic.

Lemma ends_ok {A} (a : A) : ends (Ok a).
Proof. done. Qed.
Lemma ends_err {A} e : ends (Err e : result A).
Proof. done. Qed.
Lemma ends_bind {A B} (r : result A) (k : A -> result B) : ends r -> (forall a, r = Ok a -> ends (k a)) -> ends (let! a := r in k a).
Proof. intros Hr Hk m. destruct r as [a|e|m']; cbn [mbind result_bind]; [by apply Hk|done|]. intros [= <-]. by apply Hr. Qed.
Lemma ends_byte b i : ends (byte_at b i).
Proof. unfold byte_at. destruct (String.get i b); [done|]. by intros m [= <-]. Qed.
Lemma ends_u16 b i : ends (u16_at b i).
Proof. unfold u16_at. apply ends_bind; [apply ends_byte|]. intros hi _. apply ends_bind; [apply ends_byte|done]. Qed.
Lemma ends_u16s n : forall b, ends (u16s n b).
Proof.
  induction n as [|n IH]; intros b; [done|]. cbn [u16s]. destruct b as [|x [|y b]]; try (by intros m [= <-]).
  apply ends_bind; [apply IH|done].
Qed.
Lemma slice_ok b lo hi : (lo <= hi)%nat -> (hi <= String.length b)%nat -> slice b lo hi = Ok (str_take (hi - lo) (str_drop lo b)).
Proof. intros H1 H2. unfold slice. by rewrite (proj2 (Nat.leb_le _ _) H1), (proj2 (Nat.leb_le _ _) H2). Qed.
Lemma slice_from_ok b lo : (lo <= String.length b)%nat -> slice_from b lo = Ok (str_drop lo b).
Proof. intros H. unfold slice_from. rewrite slice_ok by lia. rewrite take_all; [done|]. rewrite str_length_drop. lia. Qed.
Lemma slice_from_length b lo s : slice_from b lo = Ok s -> (lo <= String.length b)%nat -> String.length s = (String.length b - lo)%nat.
Proof. intros H1 H2. rewrite slice_from_ok in H1 by done. assert (str_drop lo b = s) as <- by congruence. apply str_length_drop. Qed.
Lemma ends_slice_from b lo : (lo <= String.length b)%nat -> ends (slice_from b lo).
Proof. intros H. by rewrite slice_from_ok. Qed.
Create HintDb ends.
#[export] Hint Resolve ends_ok ends_err ends_byte ends_u16 ends_u16s ends_slice_from : ends.

Lemma u16_at_lt b i v : u16_at b i = Ok v -> (v < 65536)%N.
Proof.
  unfold u16_at, byte_at. destruct (String.get i b) as [c|]; [|done]. destruct (String.get (i + 1) b) as [d|]; [|done].
  cbn [mbind result_bind]. intros [= <-]. pose proof (byte_val_lt c). pose proof (byte_val_lt d). lia.
Qed.

(** One step of a computation: a bound value, a test. *)
Ltac end_step :=
  match goal with
  | |- ends (if ?c then _ else _) => let E := fresh "E" in destruct c eqn:E
  | |- ends (let! _ := _ in _) => apply ends_bind; [|intros]
  | |- _ => done || auto with ends
  end.
Lemma ends_extension ty sex x : ends (parse_extension ty sex x).
Proof.
  unfold parse_extension, sniExtensionHeaderLen. repeat end_step.
  all: repeat match goal with H : (_ <? _)%nat = false |- _ => apply Nat.ltb_ge in H end; auto with ends.
Qed.
(** Within 64 KiB the step over an extension does not wrap, and the loop ends. *)
Lemma ends_extensions fuel : forall exs x, (N.of_nat (String.length exs) < 65536)%N -> (String.length exs < fuel)%nat ->
  ends (parse_extensions_go fuel exs x).
Proof.
  induction fuel as [|f IH]; intros exs x Hn Hf; [lia|]. cbn [parse_extensions_go]. destruct (str_empty exs); [done|].
  destruct (Nat.ltb_spec (String.length exs) extensionHeaderLen) as [|H4]; [done|]. unfold extensionHeaderLen in *.
  apply ends_bind; [auto with ends|]. intros ty _. apply ends_bind; [auto with ends|]. intros len Hlen%u16_at_lt.
  destruct (Nat.ltb_spec (String.length exs) (4 + N.to_nat len)) as [|Hl]; [done|].
  rewrite slice_ok by lia. cbn [mbind result_bind]. apply ends_bind; [apply ends_extension|]. intros x' _.
  rewrite N.mod_small by lia. rewrite slice_from_ok by lia. cbn [mbind result_bind].
  apply IH; rewrite str_length_drop; lia.
Qed.
Lemma ends_parseExtensions exs : (N.of_nat (String.length exs) < 65536)%N -> ends (parseExtensions exs).
Proof.
  intros Hn. unfold parseExtensions. destruct (str_empty exs); [done|].
  destruct (Nat.ltb_spec (String.length exs) extensionsHeaderLen) as [|H2]; [done|].
  apply ends_bind; [auto with ends|]. intros len _. rewrite slice_from_ok by done. cbn [mbind result_bind].
  destruct (_ <? _)%nat; [done|]. apply ends_extensions; rewrite str_length_drop; lia.
Qed.
Lemma ends_handshake hs : (N.of_nat (String.length hs) < 65536)%N -> ends (parseHandshake hs).
Proof.
  intros Hn. unfold parseHandshake. repeat end_step.
  all: repeat match goal with H : (_ <? _)%nat = false |- _ => apply Nat.ltb_ge in H end.
  all: repeat match goal with H : slice_from _ _ = Ok _ |- _ => apply slice_from_length in H; [|lia] end.
  all: try apply ends_slice_from; try apply ends_parseExtensions; rewrite ?str_length_drop in *; lia.
Qed.
(** The parser of client hellos ends on every segment: it returns a hello or an error, or it indexes out of range. *)
Theorem ja3_ends segment m : ja3_Compute segment = Panic m -> m = index_panic.
Proof.
  revert m. change (ends (ja3_Compute segment)). unfold ja3_Compute, parseSegment.
  destruct (Nat.ltb_spec (String.length segment) recordLayerHeaderLen) as [|H5]; [done|].
  do 4 end_step; [done|]. apply ends_bind; [auto with ends|]. intros len Hlen%u16_at_lt.
  destruct (Nat.ltb_spec (String.length segment - recordLayerHeaderLen) (N.to_nat len)) as [|Hl]; [done|].
  rewrite slice_ok by lia. cbn [mbind result_bind]. apply ends_handshake. rewrite take_length, str_length_drop. lia.
Qed.
