(* ===== verification/QUIC.v ===== *)
(** * QUIC: the sniffer of QUIC initial packets

    [QUICClientHello] (common/sniff/quic.go, quic_blacklist.go) with the key schedule of internal/qtls: the
    header of an initial packet, its protection, the frames, and the client hello that the CRYPTO frames of one or
    several packets make up.  The primitives (HKDF, AES, GCM) are an interface. *)

From S2P Require Import Prelude GoStd NetIP DNSMessage Metadata RuleItems RuleMatch RuleAction Sniff.
From S2P Require Import FakeIP FakeIPCodec GoIO SniffBasic JA3.
Open Scope string_scope.

(** ** Primitives *)

Class QUICCrypto : Type := {
  hkdf_Extract : string -> string -> string;
  hkdf_Expand : string -> string -> nat -> string;
  aes_Encrypt : string -> string -> string;
  gcm_Open : string -> string -> string -> string -> result string
}.

Definition VersionDraft29 : N := 0xff00001d.
Definition Version1 : N := 0x1.
Definition Version2 : N := 0x6b3343cf.
Definition string_of_bytes (l : list N) : string := str_concat (map byte l).
Definition SaltOld : string := string_of_bytes
  [0xaf; 0xbf; 0xec; 0x28; 0x99; 0x93; 0xd2; 0x4c; 0x9e; 0x97; 0x86; 0xf1; 0x9c; 0x61; 0x11; 0xe0; 0x43; 0x90; 0xa8; 0x99]%N.
Definition SaltV1 : string := string_of_bytes
  [0x38; 0x76; 0x2c; 0xf7; 0xf5; 0x59; 0x34; 0xb3; 0x4d; 0x17; 0x9a; 0xe6; 0xa4; 0xc8; 0x0c; 0xad; 0xcc; 0xbb; 0x7f; 0x0a]%N.
Definition SaltV2 : string := string_of_bytes
  [0x0d; 0xed; 0xe3; 0xde; 0xf7; 0x00; 0xa6; 0xdb; 0x81; 0x93; 0x81; 0xbe; 0x6e; 0x26; 0x9d; 0xcb; 0xf9; 0xbd; 0x2e; 0xd9]%N.
Definition HKDFLabelKeyV1 : string := "quic key".
Definition HKDFLabelKeyV2 : string := "quicv2 key".
Definition HKDFLabelIVV1 : string := "quic iv".
Definition HKDFLabelIVV2 : string := "quicv2 iv".
Definition HKDFLabelHeaderProtectionV1 : string := "quic hp".
Definition HKDFLabelHeaderProtectionV2 : string := "quicv2 hp".

(** [qtls.ReadUvarint]: the first two bits give the length. *)
Definition q_ReadUvarint (r : Reader) : result (N * Reader) :=
  let! (firstByte, r) := ReadByte r in
  let len := (2 ^ N.shiftr (N.land firstByte 0xc0) 6)%N in
  let b1 := N.land firstByte 0x3f in
  if (len =? 1)%N then Ok (b1, r)
  else
    let! (b2, r) := ReadByte r in
    if (len =? 2)%N then Ok (b2 + b1 * 2 ^ 8, r)%N
    else
      let! (b3, r) := ReadByte r in
      let! (b4, r) := ReadByte r in
      if (len =? 4)%N then Ok (b4 + b3 * 2 ^ 8 + b2 * 2 ^ 16 + b1 * 2 ^ 24, r)%N
      else
        let! (b5, r) := ReadByte r in
        let! (b6, r) := ReadByte r in
        let! (b7, r) := ReadByte r in
        let! (b8, r) := ReadByte r in
        Ok (b8 + b7 * 2 ^ 8 + b6 * 2 ^ 16 + b5 * 2 ^ 24 + b4 * 2 ^ 32 + b3 * 2 ^ 40 + b2 * 2 ^ 48 + b1 * 2 ^ 56, r)%N.

(** The bytes after the first [n], also when there are fewer; [io.CopyN(io.Discard, reader, n)]. *)
Definition drop_N (n : N) (s : string) : string :=
  if (N.of_nat (String.length s) <? n)%N then "" else str_drop (N.to_nat n) s.
Definition Seek (n : N) (r : Reader) : Reader := set_data (drop_N n (rd_data r)) r.
Definition Discard (n : N) (r : Reader) : result Reader :=
  if (N.of_nat (String.length (rd_data r)) <? n)%N then Err io_EOF else Ok (Seek n r).

Section QUIC.
Context {C : QUICCrypto}.

Definition HKDFExpandLabel (secret context label : string) (length : nat) : string :=
  hkdf_Expand secret
    (be_bytes 2 (N.of_nat length) +:+ byte (6 + N.of_nat (String.length label)) +:+ "tls13 " +:+ label
     +:+ byte (N.of_nat (String.length context)) +:+ context) length.

(** [b ^= m] for the byte at [i]. *)
Fixpoint xor_at (i : nat) (m : N) (s : string) : string :=
  match s with
  | "" => ""
  | String c s => match i with O => String (byte_of (N.lxor (byte_val c) m)) s | S i => String c (xor_at i m s) end
  end.
Fixpoint xor_string (a b : string) : string :=
  match a, b with String c a, String d b => String (byte_of (N.lxor (byte_val c) (byte_val d))) (xor_string a b) | _, _ => a end.
(** [xorNonceAEAD.Open]: the nonce is added to the last eight bytes of the mask. *)
Definition aead_Open (key nonceMask nonce data additionalData : string) : result string :=
  gcm_Open key (str_take 4 nonceMask +:+ xor_string (str_drop 4 nonceMask) nonce) data additionalData.

(** ** Packets *)

(** The front of the header: the version, the destination connection ID, the length of the header, the length of
    the rest of the packet, and the sample for the header protection. *)
Definition quic_header (packet : string) : result (N * string * nat * N * string) :=
  let! (typeByte, r) := ReadByte (stream packet) in
  if (N.land typeByte 0x40 =? 0)%N then Err (ENew "bad type byte")
  else
    let! (versionNumber, r) := ReadFull 4 r in
    let versionNumber := be_val versionNumber in
    if negb (versionNumber =? VersionDraft29)%N && negb (versionNumber =? Version1)%N && negb (versionNumber =? Version2)%N
    then Err (ENew "bad version")
    else
      let packetType := N.shiftr (N.land typeByte 0x30) 4 in
      if (packetType =? 0)%N && (versionNumber =? Version2)%N || (packetType =? 2)%N && negb (versionNumber =? Version2)%N
         || (2 <? packetType)%N
      then Err (ENew "bad packet type")
      else
        let! (destConnIDLen, r) := ReadByte r in
        if (destConnIDLen =? 0)%N || (20 <? destConnIDLen)%N then Err (ENew "bad destination connection id length")
        else
          let! (destConnID, r) := ReadFull (N.to_nat destConnIDLen) r in
          let! (srcConnIDLen, r) := ReadByte r in
          let! r := Discard srcConnIDLen r in
          let! (tokenLen, r) := q_ReadUvarint r in
          let! r := Discard tokenLen r in
          let! (packetLen, r) := q_ReadUvarint r in
          let hdrLen := (String.length packet - String.length (rd_data r))%nat in
          if (N.of_nat (String.length packet) <? N.of_nat hdrLen + packetLen)%N then Err os_ErrInvalid
          else
            let! r := Discard 4 r in
            let! (pnBytes, _) := ReadFull 16 r in
            Ok (versionNumber, destConnID, hdrLen, packetLen, pnBytes).

(** The plain text of the packet, and the memory that starts with it: it lies in a copy of the packet. *)
Definition quic_decrypt (packet : string) : result (string * string) :=
  let! (versionNumber, destConnID, hdrLen, packetLen, pnBytes) := quic_header packet in
  let v2 := (versionNumber =? Version2)%N in
  let salt := if (versionNumber =? Version1)%N then SaltV1 else if v2 then SaltV2 else SaltOld in
  let hkdfHeaderProtectionLabel := if v2 then HKDFLabelHeaderProtectionV2 else HKDFLabelHeaderProtectionV1 in
  let initialSecret := hkdf_Extract destConnID salt in
  let secret := HKDFExpandLabel initialSecret "" "client in" 32 in
  let hpKey := HKDFExpandLabel secret "" hkdfHeaderProtectionLabel 16 in
  let mask := aes_Encrypt hpKey pnBytes in
  let! m0 := byte_at mask 0 in let! m1 := byte_at mask 1 in let! m2 := byte_at mask 2 in
  let! m3 := byte_at mask 3 in let! m4 := byte_at mask 4 in
  let newPacket := xor_at 0 (N.land m0 0xf) packet in
  let newPacket := xor_at (hdrLen + 3) m4 (xor_at (hdrLen + 2) m3 (xor_at (hdrLen + 1) m2 (xor_at hdrLen m1 newPacket))) in
  let! first := byte_at newPacket 0 in
  let packetNumberLength := N.to_nat (N.land first 3 + 1) in
  if (packetLen <? N.of_nat packetNumberLength)%N then Err os_ErrInvalid
  else
    let! packetNumber := be_at packetNumberLength newPacket hdrLen in
    let extHdrLen := (hdrLen + packetNumberLength)%nat in
    let newPacket := str_take extHdrLen newPacket +:+ str_drop extHdrLen packet in
    let! data := slice newPacket extHdrLen (N.to_nat packetLen + hdrLen) in
    let key := HKDFExpandLabel secret "" (if v2 then HKDFLabelKeyV2 else HKDFLabelKeyV1) 16 in
    let iv := HKDFExpandLabel secret "" (if v2 then HKDFLabelIVV2 else HKDFLabelIVV1) 12 in
    let! decrypted := aead_Open key iv (be_bytes 8 packetNumber) data (str_take extHdrLen newPacket) in
    Ok (decrypted, decrypted +:+ str_drop (extHdrLen + String.length decrypted) newPacket).
End QUIC.

(** ** Frames *)

Record qCryptoFragment : Type := mkFragment { fr_offset : N; fr_length : N; fr_payload : string }.

Definition frameTypePadding : N := 0x00.
Definition frameTypePing : N := 0x01.
Definition frameTypeAck : N := 0x02.
Definition frameTypeAck2 : N := 0x03.
Definition frameTypeCrypto : N := 0x06.
Definition frameTypeConnectionClose : N := 0x1c.

(** [n] varints; each has a byte. *)
Fixpoint skip_uvarints (fuel : nat) (n : N) (r : Reader) : result Reader :=
  if (n =? 0)%N then Ok r
  else match fuel with
    | O => Panic "out of fuel"
    | S f => let! (_, r) := q_ReadUvarint r in skip_uvarints f (n - 1) r
    end.
Definition skip (n : N) (r : Reader) : result Reader := skip_uvarints (S (String.length (rd_data r))) n r.

(** The [switch] over the type of a frame: what is left, and the fragment of a CRYPTO frame.  The slice of a fragment
    may reach beyond the plain text, up to the end of the memory. *)
Definition read_frame (decrypted memory : string) (frameType : N) (r : Reader) : result (Reader * list qCryptoFragment) :=
  if (frameType =? frameTypePadding)%N || (frameType =? frameTypePing)%N then Ok (r, [])
  else if (frameType =? frameTypeAck)%N || (frameType =? frameTypeAck2)%N then
    let! r := skip 2 r in
    let! (ackRangeCount, r) := q_ReadUvarint r in
    let! r := skip 1 r in
    let! r := skip (2 * ackRangeCount) r in
    if (frameType =? frameTypeAck2)%N then let! r := skip 3 r in Ok (r, []) else Ok (r, [])
  else if (frameType =? frameTypeCrypto)%N then
    let! (offset, r) := q_ReadUvarint r in
    let! (length, r) := q_ReadUvarint r in
    let index := (String.length decrypted - String.length (rd_data r))%nat in
    if (N.of_nat (String.length memory) <? N.of_nat index + length)%N then Panic slice_panic
    else
      let! payload := slice memory index (index + N.to_nat length) in
      Ok (Seek length r, [mkFragment offset length payload])
  else if (frameType =? frameTypeConnectionClose)%N then
    let! r := skip 2 r in
    let! (length, r) := q_ReadUvarint r in
    Ok (Seek length r, [])
  else Err os_ErrInvalid.

(** The frames of a packet: their types and the fragments, in order. *)
Fixpoint read_frames (fuel : nat) (decrypted memory : string) (r : Reader) : result (list N * list qCryptoFragment) :=
  match rd_data r with
  | "" => Ok ([], [])
  | String c s =>
      match fuel with
      | O => Panic "out of fuel"
      | S f =>
          let! (r, fragments) := read_frame decrypted memory (byte_val c) (set_data s r) in
          let! (types, more) := read_frames f decrypted memory r in
          Ok (byte_val c :: types, (fragments ++ more)%list)
      end
  end.
Definition quic_frames (decrypted memory : string) : result (list N * list qCryptoFragment) :=
  read_frames (String.length decrypted) decrypted memory (stream decrypted).

(** ** The client hello *)

(** The loop [find]: the first fragment that starts where the data ends is appended; [fuel] turns. *)
Definition find_fragment (index : N) (fragments : list qCryptoFragment) : option qCryptoFragment :=
  List.find (fun f => (fr_offset f =? index)%N) fragments.
Fixpoint assemble (fuel : nat) (fragments : list qCryptoFragment) (index : N) : result string :=
  match find_fragment index fragments with
  | None => Ok ""
  | Some f =>
      match fuel with
      | O => Panic "out of fuel"
      | S k => let! rest := assemble k fragments ((fr_offset f + fr_length f) mod 2 ^ 64) in Ok (fr_payload f +:+ rest)
      end
  end.

Definition frame_len (fragments : list qCryptoFragment) : N :=
  (foldr (fun f n => fr_length f + n) 0 fragments mod 2 ^ 64)%N.
(** The record that the fragments are put into; its length is that of all fragments. *)
Definition hello_record (fuel : nat) (fragments : list qCryptoFragment) : result string :=
  let! data := assemble fuel fragments 0 in
  Ok (byte 0x16 +:+ be_bytes 2 0x0303 +:+ be_bytes 2 (frame_len fragments mod 65536) +:+ data).

(** ** The client *)

Definition isZero (slices : list N) : bool := forallb (fun s => (s =? 0)%N) slices.
Definition count (slices : list N) (value : N) : nat := length (List.filter (fun s => (s =? value)%N) slices).
Definition x25519Kyber768Draft00 : N := 0x11EC.
Definition extensionRenegotiationInfo : N := 0xFF01.
Definition isQUICGo (fingerprint : ClientHello) : bool :=
  existsb (fun curve => (curve =? x25519Kyber768Draft00)%N) (ch_EllipticCurves fingerprint)
  || existsb (fun ext => (ext =? extensionRenegotiationInfo)%N) (ch_Extensions fingerprint).

Definition ClientChromium : string := "chromium".
Definition ClientSafari : string := "safari".
Definition ClientFirefox : string := "firefox".
Definition ClientQUICGo : string := "quic-go".
Definition ClientUnknown : string := "unknown".

Definition safari_hello (f : ClientHello) : bool :=
  match ch_Versions f, ch_EllipticCurves f with
  | [v; _], [c; _; _; _; _] => (N.land v GreaseBitmask =? 0x0A0A)%N && (N.land c GreaseBitmask =? 0x0A0A)%N
  | _, _ => false
  end
  || match ch_CipherSuites f, ch_EllipticCurves f, ch_SignatureAlgorithms f with
     | [s], [c], [a] => (s =? 0x1302)%N && (c =? 29)%N && (a =? 0x0403)%N
     | _, _, _ => false
     end.
Definition quic_client (frameTypeList : list N) (fingerprint : ClientHello) : result string :=
  match frameTypeList with
  | [] => Panic index_panic
  | [_] => Ok ClientFirefox
  | first :: rest =>
      if (first =? frameTypeCrypto)%N && isZero rest && safari_hello fingerprint then Ok ClientSafari
      else if (List.last frameTypeList 0 =? frameTypeCrypto)%N && isZero (removelast frameTypeList) then Ok ClientQUICGo
      else if (1 <? count frameTypeList frameTypeCrypto)%nat || (0 <? count frameTypeList frameTypePing)%nat then
        Ok (if isQUICGo fingerprint then ClientQUICGo else ClientChromium)
      else Ok ClientUnknown
  end.

(** ** The sniffer *)

(** [metadata.SniffContext]: the fragments of earlier packets. *)
Definition SniffContext : Type := option (list qCryptoFragment).

(** From the frames on: the error, the metadata and the context; [fuel] bounds the loop [find]. *)
Definition quic_hello (fuel : nat) (frameTypeList : list N) (fragments : list qCryptoFragment) (metadata : SniffInfo)
  (context : SniffContext) : result (option error * SniffInfo * SniffContext) :=
  let fragments := (fragments ++ default [] context)%list in
  let! buffer := hello_record fuel fragments in
  let metadata := set_protocol ProtocolQUIC metadata in
  match ja3_Compute buffer with
  | Err e => Ok (Some (EWrap ErrNeedMoreData e), metadata, Some fragments)
  | Panic m => Panic m
  | Ok fingerprint =>
      let metadata := set_sniff_domain (ch_ServerName fingerprint) metadata in
      if str_empty (sn_Client metadata) then
        let! client := quic_client frameTypeList fingerprint in
        Ok (None, set_client client metadata, None)
      else Ok (None, metadata, None)
  end.

Section Sniffer.
Context {C : QUICCrypto}.

Definition sniff_QUICClientHello (fuel : nat) (packet : string) (metadata : SniffInfo) (context : SniffContext)
  : result (option error * SniffInfo * SniffContext) :=
  let! (decrypted, memory) := quic_decrypt packet in
  let! (frameTypeList, fragments) := quic_frames decrypted memory in
  quic_hello fuel frameTypeList fragments metadata context.
End Sniffer.
