(* ===== verification/QUICLaws.v ===== *)
(** * QUICLaws: a client hello in any split and any order

    A client hello is sent in CRYPTO frames: pieces of it with their offsets, in any order and over several
    packets.  The sniffer asks for more until it has all of them, and then finds the server name. *)

From S2P Require Import Prelude GoStd NetIP DNSMessage Metadata RuleItems RuleMatch RuleAction Sniff.
From S2P Require Import FakeIP FakeIPCodec GoIO SniffBasic SniffLaws JA3 JA3Laws QUIC.
Open Scope string_scope.

(** ** The pieces of a message *)

Definition len (s : string) : N := N.of_nat (String.length s).
Fixpoint fragments_of (o : N) (chunks : list string) : list qCryptoFragment :=
  match chunks with
  | [] => []
  | c :: chunks => mkFragment o (len c) c :: fragments_of (o + len c) chunks
  end.

Lemma len_app a b : len (a +:+ b) = (len a + len b)%N.
Proof. unfold len. rewrite str_length_app. lia. Qed.
Lemma len_pos c : c <> "" -> (0 < len c)%N.
Proof. by destruct c. Qed.
Lemma str_concat_cons c l : str_concat (c :: l) = c +:+ str_concat l.
Proof. done. Qed.
Lemma fragments_of_app o a b : fragments_of o (a ++ b)%list = (fragments_of o a ++ fragments_of (o + len (str_concat a)) b)%list.
Proof.
  revert o. induction a as [|c a IH]; intros o; cbn [fragments_of app].
  - by rewrite N.add_0_r.
  - rewrite IH, str_concat_cons, len_app, N.add_assoc. done.
Qed.
Lemma fragments_of_offsets f : forall chunks o, f ∈ fragments_of o chunks -> Forall (fun c => c <> "") chunks ->
  (o <= fr_offset f /\ fr_offset f + fr_length f <= o + len (str_concat chunks) /\ 0 < fr_length f /\ fr_length f = len (fr_payload f))%N.
Proof.
  induction chunks as [|c chunks IH]; intros o Hf Hc; cbn [fragments_of] in Hf; [set_solver|].
  apply Forall_cons in Hc as [Hc Hcs]. pose proof (len_pos c Hc). rewrite str_concat_cons, len_app.
  apply elem_of_cons in Hf as [->|Hf]; cbn [fr_offset fr_length fr_payload]; [lia|]. specialize (IH _ Hf Hcs). lia.
Qed.
(** The offsets of the pieces differ. *)
Lemma fragments_of_unique f g : forall chunks o, f ∈ fragments_of o chunks -> g ∈ fragments_of o chunks ->
  Forall (fun c => c <> "") chunks -> fr_offset f = fr_offset g -> f = g.
Proof.
  induction chunks as [|c chunks IH]; intros o Hf Hg Hc E; cbn [fragments_of] in Hf, Hg; [set_solver|].
  apply Forall_cons in Hc as [Hc Hcs]. pose proof (len_pos c Hc).
  apply elem_of_cons in Hf as [->|Hf], Hg as [->|Hg]; [done| | |by eapply IH].
  - pose proof (fragments_of_offsets _ _ _ Hg Hcs). cbn [fr_offset] in E. lia.
  - pose proof (fragments_of_offsets _ _ _ Hf Hcs). cbn [fr_offset] in E. lia.
Qed.

Lemma find_fragment_some i fragments f : find_fragment i fragments = Some f -> f ∈ fragments /\ fr_offset f = i.
Proof. unfold find_fragment. intros [H1 H2]%List.find_some. split; [by apply list_elem_of_In|by apply N.eqb_eq]. Qed.
Lemma find_fragment_none i fragments f : find_fragment i fragments = None -> f ∈ fragments -> fr_offset f <> i.
Proof.
  unfold find_fragment. intros H Hf E. apply list_elem_of_In in Hf. pose proof (List.find_none _ _ H f Hf) as Hn. cbn in Hn.
  by apply N.eqb_neq in Hn.
Qed.

(** ** Reassembly *)

(** Some of the pieces: what the loop [find] puts together is a front of the message, not longer than the pieces,
    and it is all of it when no piece is missing. *)
Definition pieces (chunks : list string) (fragments missing : list qCryptoFragment) : Prop :=
  Forall (fun c => c <> "") chunks /\ (len (str_concat chunks) < 2 ^ 62)%N /\ (fragments ++ missing ≡ₚ fragments_of 0 chunks)%list.

(** When the pieces are some of those of a message, possibly twice. *)
Lemma assemble_some chunks fragments : Forall (fun c => c <> "") chunks -> (len (str_concat chunks) < 2 ^ 62)%N ->
  fragments ⊆ fragments_of 0 chunks ->
  forall post pre fuel, chunks = (pre ++ post)%list -> (length post <= fuel)%nat ->
  exists got rest, post = (got ++ rest)%list /\ assemble fuel fragments (len (str_concat pre)) = Ok (str_concat got) /\
    fragments_of (len (str_concat pre)) got ⊆ fragments /\ (fragments_of 0 chunks ⊆ fragments -> rest = []).
Proof.
  intros Hne Hmax Hsome post. induction post as [|c post IH]; intros pre fuel -> Hf.
  - exists [], []. split_and!; [done| |set_solver|done]. destruct (find_fragment (len (str_concat pre)) fragments) as [f|] eqn:E.
    + apply find_fragment_some in E as [Hin Ho].
      pose proof (fragments_of_offsets _ _ _ (Hsome _ Hin) Hne) as H. rewrite app_nil_r in H. lia.
    + destruct fuel; cbn [assemble]; by rewrite E.
  - cbn [length] in Hf. destruct fuel as [|fuel]; [lia|]. cbn [assemble].
    set (o := len (str_concat pre)) in *. set (f := mkFragment o (len c) c).
    assert (f ∈ fragments_of 0 (pre ++ c :: post)) as Hfin by (rewrite fragments_of_app; cbn [fragments_of]; rewrite N.add_0_l; fold o f; set_solver).
    destruct (find_fragment o fragments) as [g|] eqn:E.
    + apply find_fragment_some in E as [Hin Ho].
      assert (g = f) as -> by (by eapply (fragments_of_unique _ _ (pre ++ c :: post)%list 0%N); [apply Hsome| | |]).
      destruct (IH (pre ++ [c])%list fuel) as (got & rest & -> & Ha & Hsub & Hr); [by rewrite <- app_assoc|lia|].
      rewrite str_concat_app, str_concat_cons, len_app, str_app_nil in Ha, Hsub. fold o in Ha, Hsub.
      exists (c :: got), rest. split_and!; [done| |cbn [fragments_of]; fold f; set_solver|done].
      cbn [fr_offset fr_length fr_payload f]. rewrite str_concat_app, str_concat_cons, str_concat_app, !len_app in Hmax. fold o in Hmax.
      rewrite N.mod_small by lia. rewrite Ha. done.
    + exists [], (c :: post). split_and!; [done|done|set_solver|]. intros Hall. exfalso. by apply (find_fragment_none _ _ f E); [apply Hall|].
Qed.
Lemma assemble_pieces chunks fragments missing fuel : pieces chunks fragments missing -> (length chunks <= fuel)%nat ->
  exists got rest, chunks = (got ++ rest)%list /\ assemble fuel fragments 0 = Ok (str_concat got) /\
    fragments_of 0 got ⊆ fragments /\ (missing = [] -> rest = []).
Proof.
  intros (Hne & Hmax & Hperm) Hf. destruct (assemble_some chunks fragments Hne Hmax) with (post := chunks) (pre := @nil string) (fuel := fuel)
    as (got & rest & -> & Ha & Hsub & Hr); [intros f Hf'; rewrite <- Hperm; set_solver|done|done|].
  exists got, rest. split_and!; [done|exact Ha|exact Hsub|]. intros ->. apply Hr. intros f Hf'. rewrite <- Hperm, app_nil_r in Hf'. done.
Qed.

Definition total (fragments : list qCryptoFragment) : N := foldr (fun f n => fr_length f + n)%N 0%N fragments.
Lemma total_app a b : total (a ++ b)%list = (total a + total b)%N.
Proof. unfold total. induction a as [|f a IH]; [done|]. cbn [app foldr]. rewrite IH. lia. Qed.
#[export] Instance total_Proper : Proper ((≡ₚ) ==> (=)) total.
Proof. intros a b. induction 1; unfold total in *; cbn [foldr]; lia. Qed.
Lemma total_fragments_of chunks : forall o, total (fragments_of o chunks) = len (str_concat chunks).
Proof.
  unfold total. induction chunks as [|c chunks IH]; intros o; [done|]. cbn [fragments_of foldr fr_length].
  by rewrite IH, str_concat_cons, len_app.
Qed.
Lemma fragments_of_NoDup chunks : forall o, Forall (fun c => c <> "") chunks -> NoDup (fragments_of o chunks).
Proof.
  induction chunks as [|c chunks IH]; intros o Hc; cbn [fragments_of]; [constructor|]. apply Forall_cons in Hc as [Hc Hcs].
  constructor; [|by apply IH]. intros Hin. pose proof (fragments_of_offsets _ _ _ Hin Hcs). pose proof (len_pos c Hc).
  cbn [fr_offset] in *. lia.
Qed.
Lemma total_subset a b : NoDup a -> a ⊆ b -> (total a <= total b)%N.
Proof.
  intros Hn Hs. apply NoDup_submseteq in Hs; [|done]. apply submseteq_Permutation in Hs as [k ->]. rewrite total_app. lia.
Qed.

(** The record that is made of the pieces. *)
Lemma hello_record_pieces chunks fragments missing fuel : pieces chunks fragments missing -> (length chunks <= fuel)%nat ->
  exists front back, str_concat chunks = front +:+ back /\ (total fragments + total missing = len (str_concat chunks))%N /\
    (len front <= total fragments)%N /\ (missing = [] -> back = "") /\
    hello_record fuel fragments = Ok (byte 0x16 +:+ be_bytes 2 0x0303 +:+ be_bytes 2 (total fragments mod 65536) +:+ front).
Proof.
  intros Hp Hfuel. pose proof Hp as (Hne & Hmax & Hperm).
  destruct (assemble_pieces _ _ _ fuel Hp Hfuel) as (got & rest & -> & Ha & Hsub & Hr).
  assert (total fragments + total missing = len (str_concat (got ++ rest)))%N as Ht by (by rewrite <- total_app, Hperm, total_fragments_of).
  exists (str_concat got), (str_concat rest). split_and!.
  - apply str_concat_app.
  - done.
  - rewrite <- (total_fragments_of got 0). apply total_subset; [|done]. apply fragments_of_NoDup. by apply Forall_app in Hne as [? _].
  - intros Hm. by rewrite (Hr Hm).
  - unfold hello_record. rewrite Ha. cbn [mbind result_bind].
    unfold frame_len. fold (total fragments). rewrite (N.mod_small _ (2 ^ 64)) by lia. done.
Qed.

(** ** What is not yet complete *)

Lemma byte_at_front a b i : (i < String.length a)%nat -> byte_at (a +:+ b) i = byte_at a i.
Proof.
  unfold byte_at. revert i. induction a as [|c a IH]; intros i H; [cbn in H; lia|]. destruct i as [|i]; [done|].
  change (String.get (S i) (String c a +:+ b)) with (String.get i (a +:+ b)). change (String.get (S i) (String c a)) with (String.get i a).
  apply IH. cbn in H. lia.
Qed.
(** A record with less than it announces. *)
Lemma record_short front n : (n < 65536)%N -> (len front < n)%N ->
  exists e, ja3_Compute (byte 0x16 +:+ be_bytes 2 0x0303 +:+ be_bytes 2 n +:+ front) = Err e.
Proof.
  intros Hn Hf. unfold len in Hf. unfold ja3_Compute, parseSegment. rewrite !str_length_app, !be_bytes_length. change (String.length (byte 22)) with 1%nat.
  rewrite (proj2 (Nat.ltb_ge _ _)) by (unfold recordLayerHeaderLen; lia).
  rewrite byte_at_byte. cbn [mbind result_bind]. change (negb (22 mod 256 =? contentType)%N) with false. cbn iota.
  rewrite (u16_at_mid 1) by done. cbn [mbind result_bind]. change (negb (version_supported 771)) with false. cbn iota.
  rewrite <- (str_app_assoc (byte 22)), (u16_at_mid 3) by done. cbn [mbind result_bind].
  rewrite (proj2 (Nat.ltb_lt _ _)) by (unfold recordLayerHeaderLen; lia). by eexists.
Qed.
(** A record that is short, or that holds only a front of a hello, is an error. *)
Lemma hello_prefix_rejected h front back n : hello_ok h -> encode_hello h = front +:+ back -> (n < len (encode_hello h))%N ->
  (len front <= n)%N -> exists e, ja3_Compute (byte 0x16 +:+ be_bytes 2 0x0303 +:+ be_bytes 2 n +:+ front) = Err e.
Proof.
  intros Hok E Hn Hf. pose proof (ok_length h Hok) as Hmax. fold (len (encode_hello h)) in Hmax. unfold len in *.
  destruct (N.eq_dec (N.of_nat (String.length front)) n) as [<-|Hne].
  - pose proof (ja3_record 0x0303 front "") as R. rewrite str_app_nil in R. rewrite R by (set_solver || lia). unfold parseHandshake.
    destruct (Nat.ltb_spec (String.length front) (handshakeHeaderLen + randomDataLen + sessionIDHeaderLen)) as [|Hl]; [by eexists|].
    unfold handshakeHeaderLen, randomDataLen, sessionIDHeaderLen in Hl.
    destruct (hello_fields h Hok) as (F0 & F1 & F2 & F3 & _). rewrite E in F0, F1, F2, F3.
    rewrite byte_at_front in F0, F1, F2, F3 by lia. rewrite F0. cbn [mbind result_bind]. change (negb (1 =? handshakeType)%N) with false. cbn iota.
    rewrite F1, F2, F3. cbn [mbind result_bind]. rewrite N.mul_0_l, N.add_0_l, (N.mul_comm (_ / _)), <- N.div_mod, Nat2N.id by done.
    rewrite encode_hello_length in Hn. rewrite (proj2 (Nat.eqb_neq _ _)) by lia. by eexists.
  - apply record_short; [lia|]. unfold len. lia.
Qed.

(** ** The packets of a hello *)

(** Packets given by the types of their frames and their fragments, one after the other: the answers, and what is left. *)
Fixpoint sniff_plain (fuel : nat) (packets : list (list N * list qCryptoFragment)) (metadata : SniffInfo) (context : SniffContext)
  : result (list (option error) * SniffInfo * SniffContext) :=
  match packets with
  | [] => Ok ([], metadata, context)
  | (types, fragments) :: packets =>
      let! (answer, metadata, context) := quic_hello fuel types fragments metadata context in
      let! (answers, metadata, context) := sniff_plain fuel packets metadata context in
      Ok (answer :: answers, metadata, context)
  end.
Lemma sniff_plain_app fuel a b : forall metadata context,
  sniff_plain fuel (a ++ b)%list metadata context =
  let! (answers, metadata, context) := sniff_plain fuel a metadata context in
  let! (answers', metadata, context) := sniff_plain fuel b metadata context in
  Ok (answers ++ answers', metadata, context)%list.
Proof.
  induction a as [|[types new] a IH]; intros metadata context; cbn [app sniff_plain].
  - cbn [mbind result_bind]. by destruct (sniff_plain fuel b metadata context) as [[[? ?] ?]| |].
  - destruct (quic_hello _ _ _ _ _) as [[[x m] c]| |]; [|done|done]. cbn [mbind result_bind]. rewrite IH.
    destruct (sniff_plain fuel a m c) as [[[xs m'] c']| |]; [|done|done]. cbn [mbind result_bind].
    by destruct (sniff_plain fuel b m' c') as [[[ys m''] c'']| |].
Qed.
Definition asks_more (answer : option error) : Prop := exists e, answer = Some (EWrap ErrNeedMoreData e).

Section Hello.
Context (h : hello) (chunks : list string) (fuel : nat).
Context (Hok : hello_ok h) (Hne : Forall (fun c => c <> "") chunks) (Hcut : str_concat chunks = encode_hello h).
Context (Hfuel : (length chunks <= fuel)%nat).

Lemma pieces_of fragments missing : (fragments ++ missing ≡ₚ fragments_of 0 chunks)%list -> pieces chunks fragments missing.
Proof.
  intros Hp. split_and!; [done| |done]. rewrite Hcut. pose proof (ok_length h Hok) as Hl. fold (len (encode_hello h)) in Hl.
  change (2 ^ 62)%N with 4611686018427387904%N. lia.
Qed.
(** A packet after which a piece is missing. *)
Lemma quic_hello_partial types new missing metadata context :
  (new ++ default [] context ++ missing ≡ₚ fragments_of 0 chunks)%list -> missing <> [] ->
  exists e, quic_hello fuel types new metadata context =
    Ok (Some (EWrap ErrNeedMoreData e), set_protocol ProtocolQUIC metadata, Some (new ++ default [] context)%list).
Proof.
  rewrite app_assoc. intros Hp Hm. destruct (hello_record_pieces _ _ _ fuel (pieces_of _ _ Hp) Hfuel) as (front & back & E & Ht & Hl & _ & Hr).
  rewrite Hcut in E, Ht. assert (0 < total missing)%N as Hpos.
  { destruct missing as [|f missing]; [done|]. assert (f ∈ fragments_of 0 chunks) as Hf by (rewrite <- Hp; set_solver).
    pose proof (fragments_of_offsets _ _ _ Hf Hne). unfold total. cbn [foldr]. lia. }
  pose proof (ok_length h Hok) as Hlen. fold (len (encode_hello h)) in Hlen.
  unfold quic_hello. rewrite Hr. cbn [mbind result_bind]. rewrite N.mod_small by lia.
  destruct (hello_prefix_rejected h front back (total (new ++ default [] context)%list)) as [e ->]; [done|done|lia|done|]. by exists e.
Qed.
(** The packet that completes the hello. *)
Lemma quic_hello_complete types new metadata context :
  (new ++ default [] context ≡ₚ fragments_of 0 chunks)%list -> types <> [] ->
  exists metadata', quic_hello fuel types new metadata context = Ok (None, metadata', None) /\
    sn_Protocol metadata' = ProtocolQUIC /\ sn_Domain metadata' = ch_ServerName (hello_fingerprint h).
Proof.
  intros Hp Ht. rewrite <- (app_nil_r (new ++ _)) in Hp.
  destruct (hello_record_pieces _ _ _ fuel (pieces_of _ _ Hp) Hfuel) as (front & back & E & Hn & _ & Hb & Hr).
  rewrite (Hb eq_refl), str_app_nil, Hcut in E. rewrite Hcut in Hn. cbn [total foldr] in Hn. rewrite N.add_0_r in Hn. subst front.
  pose proof (ok_length h Hok) as Hlen. fold (len (encode_hello h)) in Hlen.
  unfold quic_hello. rewrite Hr. cbn [mbind result_bind]. rewrite Hn, N.mod_small by done.
  pose proof (ja3_record 0x0303 (encode_hello h) "") as R. rewrite str_app_nil in R. unfold len in *. rewrite R by (set_solver || done).
  rewrite parseHandshake_encoded by done. destruct (str_empty _); [|by eexists].
  destruct types as [|t [|t' types]]; [done|by eexists|]. unfold quic_client. cbv zeta.
  repeat match goal with |- context [if ?c then Ok _ else _] => destruct c; [by eexists|] end. by eexists.
Qed.
Lemma sniff_plain_partial packets : forall metadata context missing,
  (concat (map snd packets) ++ default [] context ++ missing ≡ₚ fragments_of 0 chunks)%list -> missing <> [] ->
  exists answers metadata' context', sniff_plain fuel packets metadata context = Ok (answers, metadata', context') /\
    Forall asks_more answers /\ length answers = length packets /\
    (default [] context' ≡ₚ concat (map snd packets) ++ default [] context)%list.
Proof.
  induction packets as [|[types new] packets IH]; intros metadata context missing Hp Hm; [by exists [], metadata, context|].
  cbn [map concat snd sniff_plain] in *.
  destruct (quic_hello_partial types new (concat (map snd packets) ++ missing)%list metadata context) as [e E].
  { rewrite <- Hp. solve_Permutation. } { intros H. apply app_eq_nil in H as [_ H]. done. }
  rewrite E. cbn [mbind result_bind].
  destruct (IH (set_protocol ProtocolQUIC metadata) (Some (new ++ default [] context)%list) missing) as (answers & m' & c' & E' & Ha & Hl & Hc).
  { rewrite <- Hp. cbn [default]. solve_Permutation. } { done. }
  rewrite E'. cbn [mbind result_bind]. eexists _, _, _. split_and!; [done| |by cbn [length]; f_equal|].
  - constructor; [by eexists|done].
  - rewrite Hc. cbn [default]. solve_Permutation.
Qed.
End Hello.
