(* ===== verification/QUICFrames.v ===== *)
(** * QUICFrames: the frames of a packet are read as they were written *)

From S2P Require Import Prelude GoStd NetIP DNSMessage Metadata RuleItems RuleMatch RuleAction Sniff.
From S2P Require Import FakeIP FakeIPCodec GoIO SniffBasic SniffLaws JA3 JA3Laws QUIC QUICLaws.
Open Scope string_scope.

(** ** Numbers *)

(** RFC 9000, 16: the shortest encoding. *)
Definition q_put (v : N) : string :=
  if (v <? 2 ^ 6)%N then byte v
  else if (v <? 2 ^ 14)%N then be_bytes 2 (v + 1 * 2 ^ 14)
  else if (v <? 2 ^ 30)%N then be_bytes 4 (v + 2 * 2 ^ 30)
  else be_bytes 8 (v + 3 * 2 ^ 62).

Lemma first_byte b : (b < 256)%N -> N.shiftr (N.land b 0xc0) 6 = (b / 64)%N /\ N.land b 0x3f = (b mod 64)%N.
Proof.
  intros Hb. assert (forallb (fun n => let b := N.of_nat n in (N.shiftr (N.land b 0xc0) 6 =? b / 64)%N && (N.land b 0x3f =? b mod 64)%N) (seq 0 256) = true)
    as H by (vm_compute; reflexivity).
  rewrite forallb_forall in H. specialize (H (N.to_nat b)). rewrite N2Nat.id in H. cbv zeta in H.
  apply andb_true_iff in H as [H1%N.eqb_eq H2%N.eqb_eq]; [done|]. apply in_seq. lia.
Qed.
Lemma read_byte_of v s e : ReadByte (mkReader (byte v +:+ s) e) = Ok (v mod 256, mkReader s e)%N.
Proof. change (Ok (byte_val (byte_of v), mkReader s e) = Ok (v mod 256, mkReader s e)%N). by rewrite byte_val_of. Qed.
(** The digits of a number to the base 256. *)
Lemma digits v : exists q d, (v / 256 = q /\ v mod 256 = d /\ v = 256 * q + d /\ d < 256)%N.
Proof.
  exists (v / 256)%N, (v mod 256)%N. pose proof (N.div_mod v 256 ltac:(lia)). pose proof (N.mod_lt v 256 ltac:(lia)). auto.
Qed.
Ltac digit v q d E := let E1 := fresh in destruct (digits v) as (q & d & E1 & E & ? & ?); rewrite ?E1; clear E1.
(** The first byte of an encoding of [2 ^ k] bytes. *)
Lemma first_of k q : (k < 4)%N -> (k * 64 <= q)%N -> (q < k * 64 + 64)%N ->
  N.shiftr (N.land (q mod 256) 0xc0) 6 = k /\ N.land (q mod 256) 0x3f = (q - k * 64)%N.
Proof.
  intros Hk H1 H2. rewrite N.mod_small by lia. destruct (first_byte q) as [-> ->]; [lia|]. split; symmetry.
  - apply (N.div_unique _ _ _ (q - k * 64)); lia.
  - apply (N.mod_unique _ _ k); lia.
Qed.
Ltac read_bytes := repeat (rewrite read_byte_of; cbn [mbind result_bind]).
Lemma q_put_2 v s e : (v < 2 ^ 14)%N -> q_ReadUvarint (mkReader (be_bytes 2 (v + 1 * 2 ^ 14) +:+ s) e) = Ok (v, mkReader s e).
Proof.
  intros Hv. change (2 ^ 14)%N with 16384%N in *. set (w := (v + 1 * 16384)%N). assert (w = v + 1 * 16384)%N as Hw by done. clearbody w.
  unfold q_ReadUvarint. change (be_bytes 2 w +:+ s) with (byte (w / 256) +:+ byte w +:+ s). digit w q d E.
  read_bytes. destruct (first_of 1 q) as [-> ->]; [lia..|]. change (2 ^ 1 =? 1)%N with false. cbn iota. read_bytes.
  change (2 ^ 1 =? 2)%N with true. cbn iota. rewrite E. do 2 f_equal. lia.
Qed.
Lemma q_put_4 v s e : (v < 2 ^ 30)%N -> q_ReadUvarint (mkReader (be_bytes 4 (v + 2 * 2 ^ 30) +:+ s) e) = Ok (v, mkReader s e).
Proof.
  intros Hv. change (2 ^ 30)%N with 1073741824%N in *. set (w := (v + 2 * 1073741824)%N). assert (w = v + 2 * 1073741824)%N as Hw by done. clearbody w.
  unfold q_ReadUvarint. change (be_bytes 4 w +:+ s) with (byte (w / 256 / 256 / 256) +:+ byte (w / 256 / 256) +:+ byte (w / 256) +:+ byte w +:+ s).
  digit w q1 d1 E1. digit q1 q2 d2 E2. digit q2 q3 d3 E3.
  read_bytes. destruct (first_of 2 q3) as [-> ->]; [lia..|]. change (2 ^ 2 =? 1)%N with false. cbn iota. read_bytes.
  change (2 ^ 2 =? 2)%N with false. cbn iota. read_bytes. change (2 ^ 2 =? 4)%N with true. cbn iota. rewrite E1, E2, E3.
  do 2 f_equal. lia.
Qed.
Lemma q_put_8 v s e : (v < 2 ^ 62)%N -> q_ReadUvarint (mkReader (be_bytes 8 (v + 3 * 2 ^ 62) +:+ s) e) = Ok (v, mkReader s e).
Proof.
  intros Hv. set (w := (v + 3 * 2 ^ 62)%N). assert (w = v + 3 * 2 ^ 62)%N as Hw by done. clearbody w.
  unfold q_ReadUvarint. change (be_bytes 8 w +:+ s) with (byte (w / 256 / 256 / 256 / 256 / 256 / 256 / 256)
    +:+ byte (w / 256 / 256 / 256 / 256 / 256 / 256) +:+ byte (w / 256 / 256 / 256 / 256 / 256) +:+ byte (w / 256 / 256 / 256 / 256)
    +:+ byte (w / 256 / 256 / 256) +:+ byte (w / 256 / 256) +:+ byte (w / 256) +:+ byte w +:+ s).
  digit w q1 d1 E1. digit q1 q2 d2 E2. digit q2 q3 d3 E3. digit q3 q4 d4 E4. digit q4 q5 d5 E5. digit q5 q6 d6 E6. digit q6 q7 d7 E7.
  read_bytes. destruct (first_of 3 q7) as [-> ->]; [lia..|]. change (2 ^ 3 =? 1)%N with false. cbn iota. read_bytes.
  change (2 ^ 3 =? 2)%N with false. cbn iota. read_bytes. change (2 ^ 3 =? 4)%N with false. cbn iota. read_bytes.
  rewrite E1, E2, E3, E4, E5, E6, E7. do 2 f_equal. lia.
Qed.
Lemma q_put_read v s e : (v < 2 ^ 62)%N -> q_ReadUvarint (mkReader (q_put v +:+ s) e) = Ok (v, mkReader s e).
Proof.
  intros Hv. unfold q_put. destruct (N.ltb_spec v (2 ^ 6)) as [H6|H6].
  - unfold q_ReadUvarint. read_bytes. destruct (first_of 0 v) as [-> ->]; [lia..|]. change (2 ^ 0 =? 1)%N with true. cbn iota.
    by rewrite N.sub_0_r.
  - destruct (N.ltb_spec v (2 ^ 14)); [by apply q_put_2|]. destruct (N.ltb_spec v (2 ^ 30)); [by apply q_put_4|by apply q_put_8].
Qed.

(** ** Frames *)

Inductive frame : Type :=
| Padding
| Ping
| Ack (largest delay first : N) (ranges : list (N * N)) (ecn : option (N * N * N))
| Crypto (offset : N) (data : string)
| ConnectionClose (code type : N) (reason : string).

Definition frame_type (f : frame) : N :=
  match f with
  | Padding => frameTypePadding | Ping => frameTypePing
  | Ack _ _ _ _ None => frameTypeAck | Ack _ _ _ _ (Some _) => frameTypeAck2
  | Crypto _ _ => frameTypeCrypto | ConnectionClose _ _ _ => frameTypeConnectionClose
  end.
Definition q_puts (l : list N) : string := str_concat (map q_put l).
Definition ranges_of (ranges : list (N * N)) : list N := concat (map (fun '(gap, length) => [gap; length]) ranges).
Definition ecn_of (ecn : option (N * N * N)) : list N := match ecn with Some (a, b, c) => [a; b; c] | None => [] end.
(** RFC 9000, 19.1 to 19.3, 19.6 and 19.19. *)
Definition frame_body (f : frame) : string :=
  match f with
  | Padding | Ping => ""
  | Ack largest delay first ranges ecn =>
      q_puts [largest; delay] +:+ q_put (N.of_nat (length ranges)) +:+ q_puts [first] +:+ q_puts (ranges_of ranges) +:+ q_puts (ecn_of ecn)
  | Crypto offset data => q_put offset +:+ q_put (len data) +:+ data
  | ConnectionClose code type reason => q_puts [code; type] +:+ q_put (len reason) +:+ reason
  end.
Definition encode_frame (f : frame) : string := byte (frame_type f) +:+ frame_body f.
Definition encode_frames (fs : list frame) : string := str_concat (map encode_frame fs).
Definition frame_fragments (f : frame) : list qCryptoFragment :=
  match f with Crypto offset data => [mkFragment offset (len data) data] | _ => [] end.
Definition small (v : N) : Prop := (v < 2 ^ 62)%N.
Definition frame_ok (f : frame) : Prop :=
  match f with
  | Padding | Ping => True
  | Ack largest delay first ranges ecn =>
      small largest /\ small delay /\ small first /\ small (2 * N.of_nat (length ranges)) /\ Forall small (ranges_of ranges) /\ Forall small (ecn_of ecn)
  | Crypto offset data => small offset /\ small (len data)
  | ConnectionClose code type reason => small code /\ small type /\ small (len reason)
  end.

Lemma q_put_length v : (1 <= String.length (q_put v))%nat.
Proof. unfold q_put. repeat destruct (N.ltb _ _); rewrite ?be_bytes_length; cbn [byte String.length]; lia. Qed.
Lemma q_puts_length l : (length l <= String.length (q_puts l))%nat.
Proof.
  unfold q_puts. induction l as [|v l IH]; [done|]. cbn [map length]. rewrite str_concat_cons, str_length_app. pose proof (q_put_length v). lia.
Qed.
Lemma skip_uvarints_put l : forall fuel s e, Forall small l -> (length l <= fuel)%nat ->
  skip_uvarints fuel (N.of_nat (length l)) (mkReader (q_puts l +:+ s) e) = Ok (mkReader s e).
Proof.
  unfold q_puts. induction l as [|v l IH]; intros fuel s e Hl Hf; [by destruct fuel|].
  apply Forall_cons in Hl as [Hv Hl]. cbn [length] in *. destruct fuel as [|fuel]; [lia|]. cbn [skip_uvarints map].
  replace (N.of_nat (S (length l)) =? 0)%N with false by (symmetry; apply N.eqb_neq; lia).
  rewrite str_concat_cons, str_app_assoc, q_put_read by done. cbn [mbind result_bind].
  replace (N.of_nat (S (length l)) - 1)%N with (N.of_nat (length l)) by lia. apply IH; [done|lia].
Qed.
Lemma skip_put n l s e : n = N.of_nat (length l) -> Forall small l -> skip n (mkReader (q_puts l +:+ s) e) = Ok (mkReader s e).
Proof.
  intros -> Hl. unfold skip. apply skip_uvarints_put; [done|]. cbn [rd_data]. rewrite str_length_app. pose proof (q_puts_length l). lia.
Qed.
Lemma Seek_app (a s : string) e : Seek (len a) (mkReader (a +:+ s) e) = mkReader s e.
Proof.
  unfold Seek, drop_N, set_data. cbn [rd_data rd_end]. rewrite str_length_app. unfold len.
  rewrite (proj2 (N.ltb_ge _ _)) by lia. by rewrite Nat2N.id, str_drop_app.
Qed.
Lemma ranges_length ranges : length (ranges_of ranges) = (2 * length ranges)%nat.
Proof. unfold ranges_of. induction ranges as [|[a b] ranges IH]; [done|]. cbn [map concat app length]. lia. Qed.

(** What a frame adds, with what came before and what comes after. *)
Lemma read_frame_body f before after memory : frame_ok f ->
  let decrypted := before +:+ frame_body f +:+ after in
  read_frame decrypted (decrypted +:+ memory) (frame_type f) (stream (frame_body f +:+ after)) = Ok (stream after, frame_fragments f).
Proof.
  intros Hok decrypted. unfold stream. destruct f as [| |largest delay first ranges ecn|offset data|code type reason]; cbn [frame_ok frame_body] in *.
  - done.
  - done.
  - destruct Hok as (H1 & H2 & H3 & H4 & H5 & H6). unfold read_frame.
    assert (Forall small [largest; delay]) by (by repeat constructor). assert (Forall small [first]) by (by repeat constructor).
    assert (small (N.of_nat (length ranges))) by (unfold small in *; lia).
    rewrite !str_app_assoc. destruct ecn as [[[a b] c]|]; cbn [frame_type]; cbn [N.eqb Pos.eqb frameTypeAck frameTypeAck2 frameTypePadding frameTypePing orb].
    all: rewrite skip_put by done; cbn [mbind result_bind]; rewrite q_put_read by done; cbn [mbind result_bind].
    all: rewrite skip_put by done; cbn [mbind result_bind]; rewrite skip_put by (rewrite ?ranges_length; done || lia); cbn [mbind result_bind].
    + by rewrite skip_put.
    + done.
  - destruct Hok as [H1 H2]. unfold read_frame. cbn [frame_type]. cbn [N.eqb Pos.eqb frameTypeCrypto frameTypeAck frameTypeAck2 frameTypePadding frameTypePing orb].
    rewrite !str_app_assoc, q_put_read by done. cbn [mbind result_bind]. rewrite q_put_read by done. cbn [mbind result_bind rd_data].
    set (front := before +:+ q_put offset +:+ q_put (len data)).
    assert (decrypted = front +:+ data +:+ after) as -> by (unfold decrypted, front; by rewrite !str_app_assoc).
    rewrite !str_length_app. replace (_ - _)%nat with (String.length front) by lia.
    rewrite (proj2 (N.ltb_ge _ _)) by (unfold len; lia). rewrite str_app_assoc, str_app_assoc, (slice_app (String.length front)) by (done || (unfold len; lia)).
    cbn [mbind result_bind]. by rewrite Seek_app.
  - destruct Hok as (H1 & H2 & H3). assert (Forall small [code; type]) by (by repeat constructor).
    unfold read_frame. cbn [frame_type]. cbn [N.eqb Pos.eqb frameTypeConnectionClose frameTypeCrypto frameTypeAck frameTypeAck2 frameTypePadding frameTypePing orb].
    rewrite !str_app_assoc, skip_put by done. cbn [mbind result_bind]. rewrite q_put_read by done. cbn [mbind result_bind].
    by rewrite Seek_app.
Qed.

Lemma frame_type_lt f : (frame_type f < 256)%N.
Proof. by destruct f as [| |? ? ? ? []| |]. Qed.
Lemma read_frames_encoded fs : forall fuel before memory, Forall frame_ok fs -> (String.length (encode_frames fs) <= fuel)%nat ->
  let decrypted := before +:+ encode_frames fs in
  read_frames fuel decrypted (decrypted +:+ memory) (stream (encode_frames fs)) = Ok (map frame_type fs, concat (map frame_fragments fs)).
Proof.
  unfold encode_frames. induction fs as [|f fs IH]; intros fuel before memory Hok Hf; [by destruct fuel|].
  apply Forall_cons in Hok as [Hok Hoks]. cbn [map concat] in *. rewrite str_concat_cons in *.
  set (tail := str_concat (map encode_frame fs)) in *. unfold encode_frame in *.
  rewrite !str_length_app in Hf. change (String.length (byte _)) with 1%nat in Hf. destruct fuel as [|fuel]; [lia|].
  rewrite (str_app_assoc (byte _)). rewrite <- (str_app_assoc before).
  change (byte (frame_type f) +:+ frame_body f +:+ tail) with (String (byte_of (frame_type f)) (frame_body f +:+ tail)).
  cbn [read_frames stream rd_data]. rewrite byte_val_of, N.mod_small by apply frame_type_lt.
  change (set_data (frame_body f +:+ tail) _) with (stream (frame_body f +:+ tail)).
  rewrite read_frame_body by done. cbn [mbind result_bind]. rewrite <- (str_app_assoc (before +:+ _)).
  rewrite IH by (done || lia). done.
Qed.
Lemma quic_frames_encoded fs memory : Forall frame_ok fs ->
  quic_frames (encode_frames fs) (encode_frames fs +:+ memory) = Ok (map frame_type fs, concat (map frame_fragments fs)).
Proof. intros Hok. by apply (read_frames_encoded fs _ ""). Qed.
