(* ===== verification/QUICPacket.v ===== *)
(** * QUICPacket: a protected packet is opened, and the server name is found

    An initial packet of a client that is built as RFC 9000 and RFC 9001 say is decrypted to its plain text; from the datagrams of a
    client that starts a connection to a domain come the frames, the pieces of the hello, the hello and its server name. *)

From S2P Require Import Prelude GoStd NetIP DNSMessage Metadata RuleItems RuleMatch RuleAction Sniff.
From S2P Require Import FakeIP FakeIPCodec GoIO SniffBasic SniffLaws JA3 JA3Laws QUIC QUICLaws QUICFrames.
Open Scope string_scope.

(** ** Primitives *)

(** What the code relies on: GCM opens what was sealed, a block of AES has 16 bytes, and HKDF gives as many bytes as asked for. *)
Class QUICSeal {C : QUICCrypto} : Type := {
  gcm_Seal : string -> string -> string -> string -> string;
  gcm_Open_Seal : forall key nonce plain ad, gcm_Open key nonce (gcm_Seal key nonce plain ad) ad = Ok plain;
  gcm_Seal_length : forall key nonce plain ad, String.length (gcm_Seal key nonce plain ad) = (String.length plain + 16)%nat;
  aes_block : forall key block, String.length (aes_Encrypt key block) = 16%nat;
  hkdf_Expand_length : forall secret info n, String.length (hkdf_Expand secret info n) = n
}.

(** ** Masks *)

Lemma lxor_lt a b : (a < 256)%N -> (b < 256)%N -> (N.lxor a b < 256)%N.
Proof.
  intros Ha Hb. destruct (N.eq_dec (N.lxor a b) 0) as [->|H]; [lia|]. change 256%N with (2 ^ 8)%N in *. apply N.log2_lt_pow2; [lia|].
  eapply N.le_lt_trans; [apply N.log2_lxor|]. apply N.max_lub_lt.
  - destruct (N.eq_dec a 0) as [->|]; [done|]. by apply N.log2_lt_pow2; [lia|].
  - destruct (N.eq_dec b 0) as [->|]; [done|]. by apply N.log2_lt_pow2; [lia|].
Qed.
Lemma byte_of_val c : byte_of (byte_val c) = c.
Proof. unfold byte_of. rewrite N.mod_small by apply byte_val_lt. apply ascii_N_embedding. Qed.
Lemma mask_twice c m : (m < 256)%N -> byte_of (N.lxor (byte_val (byte_of (N.lxor (byte_val c) m))) m) = c.
Proof.
  intros Hm. rewrite byte_val_of, N.mod_small by (apply lxor_lt; [apply byte_val_lt|done]).
  by rewrite N.lxor_assoc, N.lxor_nilpotent, N.lxor_0_r, byte_of_val.
Qed.
Lemma xor_at_app n i m a b : String.length a = n -> xor_at (n + i) m (a +:+ b) = a +:+ xor_at i m b.
Proof. intros <-. induction a as [|c a IH]; [done|]. change (String c a +:+ b) with (String c (a +:+ b)). cbn [String.length Nat.add xor_at]. by rewrite IH. Qed.
Lemma xor_at_length i m s : String.length (xor_at i m s) = String.length s.
Proof. revert i. induction s as [|c s IH]; intros [|i]; cbn [xor_at String.length]; auto. Qed.
(** The mask of a packet number: the code unmasks four bytes, and takes those of the number. *)
Definition unmask (m1 m2 m3 m4 : N) (s : string) : string := xor_at 3 m4 (xor_at 2 m3 (xor_at 1 m2 (xor_at 0 m1 s))).
Lemma unmask_number m1 m2 m3 m4 p rest : (m1 < 256)%N -> (m2 < 256)%N -> (m3 < 256)%N -> (m4 < 256)%N ->
  (1 <= String.length p <= 4)%nat ->
  exists rest', unmask m1 m2 m3 m4 (xor_string p (string_of_bytes [m1; m2; m3; m4]) +:+ rest) = p +:+ rest' /\ String.length rest' = String.length rest.
Proof.
  intros H1 H2 H3 H4 Hp.
  assert (forall m, (m < 256)%N -> byte_val (byte_of m) = m) as B by (intros; by rewrite byte_val_of, N.mod_small).
  destruct p as [|a [|b [|c [|d [|e p]]]]]; cbn [String.length] in Hp; try lia; unfold unmask; unfold string_of_bytes; cbn [map].
  all: change (str_concat [byte m1; byte m2; byte m3; byte m4]) with (String (byte_of m1) (String (byte_of m2) (String (byte_of m3) (String (byte_of m4) ""))));
    cbn [xor_string]; rewrite ?B by done.
  - exists (xor_at 2 m4 (xor_at 1 m3 (xor_at 0 m2 rest))). rewrite !xor_at_length. split; [|done].
    change (String ?x "" +:+ rest) with (String x rest). cbn [xor_at]. by rewrite mask_twice.
  - exists (xor_at 1 m4 (xor_at 0 m3 rest)). rewrite !xor_at_length. split; [|done].
    change (String ?x (String ?y "") +:+ rest) with (String x (String y rest)). cbn [xor_at]. by rewrite !mask_twice.
  - exists (xor_at 0 m4 rest). rewrite !xor_at_length. split; [|done].
    change (String ?x (String ?y (String ?z "")) +:+ rest) with (String x (String y (String z rest))). cbn [xor_at]. by rewrite !mask_twice.
  - exists rest. split; [|done].
    change (String ?x (String ?y (String ?z (String ?w ""))) +:+ rest) with (String x (String y (String z (String w rest)))).
    cbn [xor_at]. by rewrite !mask_twice.
Qed.

(** ** Packets *)

(** The fields of an initial packet (RFC 9000, 17.2.2); the number is sent in [ip_pn_length] bytes. *)
Record initial_packet : Type := mkInitial {
  ip_version : N;
  ip_dcid : string;
  ip_scid : string;
  ip_token : string;
  ip_pn : N;
  ip_pn_length : nat;
  ip_plain : string
}.
Record packet_ok (p : initial_packet) : Prop := mkPacketOk {
  pk_version : ip_version p ∈ [VersionDraft29; Version1; Version2];
  pk_dcid : (1 <= String.length (ip_dcid p) <= 20)%nat;
  pk_scid : (String.length (ip_scid p) <= 20)%nat;
  pk_token : small (len (ip_token p));
  pk_pn_length : (1 <= ip_pn_length p <= 4)%nat;
  pk_pn : (ip_pn p < 256 ^ N.of_nat (ip_pn_length p))%N;
  pk_plain : (4 <= ip_pn_length p + String.length (ip_plain p))%nat;
  pk_size : small (len (ip_plain p) + 20)
}.

Section Packet.
Context {C : QUICCrypto} {S : QUICSeal}.
Implicit Type p : initial_packet.

(** RFC 9001, 5.2, and RFC 9369, 3.3: the salt and the labels of a version. *)
Definition is_v2 p : bool := (ip_version p =? Version2)%N.
Definition initial_salt p : string :=
  if (ip_version p =? Version1)%N then SaltV1 else if is_v2 p then SaltV2 else SaltOld.
Definition client_secret p : string := HKDFExpandLabel (hkdf_Extract (ip_dcid p) (initial_salt p)) "" "client in" 32.
Definition packet_key p : string := HKDFExpandLabel (client_secret p) "" (if is_v2 p then "quicv2 key" else "quic key") 16.
Definition packet_iv p : string := HKDFExpandLabel (client_secret p) "" (if is_v2 p then "quicv2 iv" else "quic iv") 12.
Definition packet_hp p : string := HKDFExpandLabel (client_secret p) "" (if is_v2 p then "quicv2 hp" else "quic hp") 16.

(** The header with the type byte [first]; the packet number follows. *)
Definition packet_front p : string :=
  be_bytes 4 (ip_version p) +:+ byte (N.of_nat (String.length (ip_dcid p))) +:+ ip_dcid p
  +:+ byte (N.of_nat (String.length (ip_scid p))) +:+ ip_scid p +:+ q_put (len (ip_token p)) +:+ ip_token p
  +:+ q_put (N.of_nat (ip_pn_length p) + (len (ip_plain p) + 16)).
Definition type_byte p : N := 0xc0 + (if is_v2 p then 16 else 0) + (N.of_nat (ip_pn_length p) - 1).
Definition packet_header p : string := byte (type_byte p) +:+ packet_front p.
Definition packet_number p : string := be_bytes (ip_pn_length p) (ip_pn p).
(** RFC 9001, 5.3: the nonce, and the sealed payload. *)
Definition packet_nonce p : string := xor_string (packet_iv p) (be_bytes 12 (ip_pn p)).
Definition packet_sealed p : string := gcm_Seal (packet_key p) (packet_nonce p) (ip_plain p) (packet_header p +:+ packet_number p).
(** RFC 9001, 5.4: the mask from a sample that starts four bytes after the packet number does. *)
Definition packet_sample p : string := str_take 16 (str_drop (4 - ip_pn_length p) (packet_sealed p)).
Definition packet_mask p : string := aes_Encrypt (packet_hp p) (packet_sample p).
Definition mask_byte p (i : nat) : N := match String.get i (packet_mask p) with Some c => byte_val c | None => 0 end.
Definition protect p : string :=
  byte (N.lxor (type_byte p) (N.land (mask_byte p 0) 0xf)) +:+ packet_front p
  +:+ xor_string (packet_number p) (string_of_bytes [mask_byte p 1; mask_byte p 2; mask_byte p 3; mask_byte p 4])
  +:+ packet_sealed p.

Lemma mask_byte_lt p i : (mask_byte p i < 256)%N.
Proof. unfold mask_byte. destruct (String.get i _); [apply byte_val_lt|lia]. Qed.
Lemma mask_at p i : (i < 16)%nat -> byte_at (packet_mask p) i = Ok (mask_byte p i).
Proof.
  intros Hi. destruct (byte_at_ok (packet_mask p) i) as (v & Hv); [unfold packet_mask; rewrite aes_block; lia|].
  rewrite Hv. unfold mask_byte. unfold byte_at in Hv. destruct (String.get i _); [|done]. congruence.
Qed.
Lemma xor_string_length a : forall b, String.length (xor_string a b) = String.length a.
Proof. induction a as [|c a IH]; intros [|d b]; cbn [xor_string String.length]; auto. Qed.
Lemma packet_number_length p : String.length (packet_number p) = ip_pn_length p.
Proof. apply be_bytes_length. Qed.
Lemma sealed_length p : String.length (packet_sealed p) = (String.length (ip_plain p) + 16)%nat.
Proof. apply gcm_Seal_length. Qed.

Lemma open_sealed p : gcm_Open (packet_key p) (packet_nonce p) (packet_sealed p) (packet_header p +:+ packet_number p) = Ok (ip_plain p).
Proof. apply gcm_Open_Seal. Qed.

(** The type byte under the mask: the bits that the code looks at before it has the mask, and those after. *)
Lemma type_byte_masked p m : packet_ok p -> (m < 16)%N ->
  let t := N.lxor (type_byte p) m in
  (t < 256)%N /\ N.land t 0x40 <> 0%N /\ N.shiftr (N.land t 0x30) 4 = (if is_v2 p then 1 else 0)%N /\ N.lxor t m = type_byte p /\
  (type_byte p < 256)%N /\ N.to_nat (N.land (type_byte p) 3 + 1) = ip_pn_length p.
Proof.
  intros Hok Hm. pose proof (pk_pn_length p Hok) as Hl. unfold type_byte.
  assert (forallb (fun v2 : bool => forallb (fun l => forallb (fun m =>
    let f := (0xc0 + (if v2 then 16 else 0) + (N.of_nat l - 1))%N in let t := N.lxor f (N.of_nat m) in
    (t <? 256)%N && negb (N.land t 0x40 =? 0)%N && (N.shiftr (N.land t 0x30) 4 =? (if v2 then 1 else 0))%N && (N.lxor t (N.of_nat m) =? f)%N
    && (f <? 256)%N && (N.to_nat (N.land f 3 + 1) =? l)%nat)
    (seq 0 16)) (seq 1 4)) [true; false] = true) as H by (vm_compute; reflexivity).
  rewrite forallb_forall in H. specialize (H (is_v2 p)). rewrite forallb_forall in H. specialize (H ltac:(destruct (is_v2 p); cbn; auto) (ip_pn_length p)).
  rewrite forallb_forall in H. specialize (H ltac:(apply in_seq; lia) (N.to_nat m)). rewrite N2Nat.id in H. cbv zeta in H.
  specialize (H ltac:(apply in_seq; lia)). apply andb_true_iff in H as [H H6%Nat.eqb_eq]. apply andb_true_iff in H as [H H5%N.ltb_lt].
  apply andb_true_iff in H as [H H4%N.eqb_eq]. apply andb_true_iff in H as [H H3%N.eqb_eq]. apply andb_true_iff in H as [H1%N.ltb_lt H2%negb_true_iff%N.eqb_neq].
  split_and!; done.
Qed.

Lemma type_byte_high p m : packet_ok p -> (m < 16)%N -> (192 <= N.lxor (type_byte p) m)%N.
Proof.
  intros Hok Hm. destruct (type_byte_masked p m Hok Hm) as (T1 & T2 & T3 & T4 & _). pose proof (pk_pn_length p Hok).
  assert (forallb (fun t => forallb (fun m => (192 <=? N.of_nat t)%N || (N.lxor (N.of_nat t) (N.of_nat m) <? 192)%N) (seq 0 16)) (seq 0 256) = true)
    as H' by (vm_compute; reflexivity).
  rewrite forallb_forall in H'. specialize (H' (N.to_nat (N.lxor (type_byte p) m)) ltac:(apply in_seq; lia)). rewrite forallb_forall in H'.
  specialize (H' (N.to_nat m) ltac:(apply in_seq; lia)). rewrite !N2Nat.id, T4 in H'. apply orb_true_iff in H' as [H'%N.leb_le|H'%N.ltb_lt]; [done|].
  unfold type_byte in H'. lia.
Qed.

(** ** The header *)

Lemma ReadFull_app n a s e : String.length a = n -> ReadFull n (mkReader (a +:+ s) e) = Ok (a, mkReader s e).
Proof.
  intros H. unfold ReadFull. cbn [rd_data]. rewrite str_length_app, (proj2 (Nat.ltb_ge _ _)) by lia.
  by rewrite str_take_app, str_drop_app.
Qed.
Lemma Discard_app n a s e : n = len a -> Discard n (mkReader (a +:+ s) e) = Ok (mkReader s e).
Proof.
  intros ->. unfold Discard. cbn [rd_data]. rewrite str_length_app. unfold len at 1. rewrite (proj2 (N.ltb_ge _ _)) by lia.
  by rewrite Seek_app.
Qed.

(** What follows the header: the number under its mask, and the payload. *)
Definition packet_rest p : string :=
  xor_string (packet_number p) (string_of_bytes [mask_byte p 1; mask_byte p 2; mask_byte p 3; mask_byte p 4]) +:+ packet_sealed p.
Lemma packet_rest_length p : String.length (packet_rest p) = (ip_pn_length p + (String.length (ip_plain p) + 16))%nat.
Proof. unfold packet_rest. by rewrite str_length_app, xor_string_length, packet_number_length, sealed_length. Qed.
Lemma protect_split p : protect p = (byte (N.lxor (type_byte p) (N.land (mask_byte p 0) 0xf)) +:+ packet_front p) +:+ packet_rest p.
Proof. unfold protect, packet_rest. by rewrite !str_app_assoc. Qed.
Lemma version_4 p : packet_ok p -> be_val (be_bytes 4 (ip_version p)) = ip_version p.
Proof.
  intros Hok. apply be_roundtrip. pose proof (pk_version p Hok) as H. rewrite !elem_of_cons, elem_of_nil in H.
  by destruct H as [->|[->|[->|[]]]].
Qed.
Lemma version_known p : packet_ok p ->
  negb (ip_version p =? VersionDraft29)%N && negb (ip_version p =? Version1)%N && negb (ip_version p =? Version2)%N = false.
Proof.
  intros Hok. pose proof (pk_version p Hok) as H. rewrite !elem_of_cons, elem_of_nil in H. by destruct H as [->|[->|[->|[]]]].
Qed.
Lemma number_and_payload p : packet_ok p -> small (N.of_nat (ip_pn_length p) + (len (ip_plain p) + 16)).
Proof. intros Hok. pose proof (pk_size p Hok). pose proof (pk_pn_length p Hok). unfold small in *. lia. Qed.
(** The sample: the sixteen bytes after the first four of the rest. *)
Lemma rest_sample p after : packet_ok p -> exists four, String.length four = 4%nat /\ exists tail,
  packet_rest p +:+ after = four +:+ packet_sample p +:+ tail /\ String.length (packet_sample p) = 16%nat.
Proof.
  intros Hok. pose proof (pk_pn_length p Hok). pose proof (pk_plain p Hok). unfold packet_rest, packet_sample.
  set (n := (4 - ip_pn_length p)%nat). set (c := packet_sealed p). assert (n + 16 <= String.length c)%nat as Hc by (unfold c; rewrite sealed_length; lia).
  exists (xor_string (packet_number p) (string_of_bytes [mask_byte p 1; mask_byte p 2; mask_byte p 3; mask_byte p 4]) +:+ str_take n c). split.
  { rewrite str_length_app, xor_string_length, packet_number_length, take_length. lia. }
  exists (str_drop 16 (str_drop n c) +:+ after). split; [|rewrite take_length, str_length_drop; lia].
  rewrite !str_app_assoc. f_equal. rewrite <- (str_app_assoc (str_take 16 _)), str_take_drop, <- str_app_assoc, str_take_drop. done.
Qed.
Lemma quic_header_protect p after : packet_ok p ->
  quic_header (protect p +:+ after) =
  Ok (ip_version p, ip_dcid p, String.length (packet_header p), N.of_nat (ip_pn_length p) + (len (ip_plain p) + 16), packet_sample p)%N.
Proof.
  intros Hok. destruct (type_byte_masked p (N.land (mask_byte p 0) 0xf) Hok) as (T1 & T2 & T3 & _).
  { change 0xf%N with (N.ones 4). rewrite N.land_ones. apply N.mod_lt. lia. }
  destruct (rest_sample p after Hok) as (four & H4 & tail & Er & Hs). pose proof (pk_dcid p Hok). pose proof (pk_scid p Hok).
  assert (String.length (protect p +:+ after) = String.length (packet_header p) + String.length (packet_rest p +:+ after))%nat as Hl.
  { rewrite protect_split. unfold packet_header. rewrite !str_length_app. change (String.length (byte _)) with 1%nat. lia. }
  unfold quic_header, stream. rewrite Hl. rewrite protect_split. rewrite !str_app_assoc, read_byte_of. cbn [mbind result_bind].
  rewrite (N.mod_small _ _ T1). rewrite (proj2 (N.eqb_neq _ _) T2). unfold packet_front. rewrite !str_app_assoc.
  rewrite ReadFull_app by apply be_bytes_length. cbn [mbind result_bind]. rewrite version_4, version_known by done. rewrite T3. cbn zeta.
  replace (_ || _ || _) with false by (unfold is_v2; destruct (_ =? Version2)%N; reflexivity).
  rewrite read_byte_of. cbn [mbind result_bind]. rewrite N.mod_small by lia.
  rewrite (proj2 (N.eqb_neq _ 0%N)), (proj2 (N.ltb_ge 20%N _)) by lia. cbn [orb]. rewrite Nat2N.id, ReadFull_app by done. cbn [mbind result_bind].
  rewrite read_byte_of. cbn [mbind result_bind]. rewrite N.mod_small by lia. rewrite Discard_app by done. cbn [mbind result_bind].
  rewrite q_put_read by (by apply pk_token). cbn [mbind result_bind]. rewrite Discard_app by done. cbn [mbind result_bind].
  rewrite q_put_read by (by apply number_and_payload). cbn [mbind result_bind rd_data].
  rewrite Nat.add_sub. rewrite str_length_app, packet_rest_length. unfold len. rewrite (proj2 (N.ltb_ge _ _)) by lia.
  rewrite Er, Discard_app by (unfold len; by rewrite H4). cbn [mbind result_bind]. by rewrite ReadFull_app.
Qed.

(** ** The payload *)

Lemma be_bytes_app m n v : be_bytes (m + n) v = be_bytes m (v / 256 ^ N.of_nat n) +:+ be_bytes n v.
Proof.
  revert v. induction n as [|n IH]; intros v.
  - rewrite Nat.add_0_r, N.pow_0_r, N.div_1_r. by rewrite str_app_nil.
  - rewrite Nat.add_succ_r. cbn [be_bytes]. rewrite IH, str_app_assoc, N.Div0.div_div. do 3 f_equal.
    by rewrite Nat2N.inj_succ, N.pow_succ_r'.
Qed.
Lemma xor_string_app a b c d : String.length a = String.length c -> xor_string (a +:+ b) (c +:+ d) = xor_string a c +:+ xor_string b d.
Proof.
  revert c. induction a as [|x a IH]; intros [|y c] H; try done. injection H as H.
  change (String x a +:+ b) with (String x (a +:+ b)). change (String y c +:+ d) with (String y (c +:+ d)). cbn [xor_string].
  rewrite IH by done. done.
Qed.
Lemma xor_zero a : String.length a = 4%nat -> xor_string a (be_bytes 4 0) = a.
Proof.
  destruct a as [|c1 [|c2 [|c3 [|c4 [|c5 a]]]]]; try done. intros _. change (be_bytes 4 0) with (String (byte_of 0) (String (byte_of 0) (String (byte_of 0) (String (byte_of 0) "")))).
  cbn [xor_string]. change (byte_val (byte_of 0)) with 0%N. by rewrite !N.lxor_0_r, !byte_of_val.
Qed.
(** The code adds the number to the last eight bytes of the IV only. *)
Lemma nonce_code p : packet_ok p -> str_take 4 (packet_iv p) +:+ xor_string (str_drop 4 (packet_iv p)) (be_bytes 8 (ip_pn p)) = packet_nonce p.
Proof.
  intros Hok. assert (String.length (packet_iv p) = 12)%nat as Hiv by apply hkdf_Expand_length. unfold packet_nonce.
  rewrite (be_bytes_app 4 8). assert (ip_pn p / 256 ^ N.of_nat 8 = 0)%N as ->.
  { apply N.div_small. eapply N.lt_le_trans; [apply pk_pn, Hok|]. apply N.pow_le_mono_r; [lia|]. pose proof (pk_pn_length p Hok). lia. }
  rewrite <- (str_take_drop 4 (packet_iv p)) at 3. rewrite xor_string_app by (rewrite take_length, be_bytes_length; lia).
  rewrite xor_zero by (rewrite take_length; lia). done.
Qed.
Lemma unmask_packet p after : packet_ok p ->
  exists rest', let H := String.length (packet_header p) in
  xor_at (H + 3) (mask_byte p 4) (xor_at (H + 2) (mask_byte p 3) (xor_at (H + 1) (mask_byte p 2) (xor_at H (mask_byte p 1)
    (xor_at 0 (N.land (mask_byte p 0) 0xf) (protect p +:+ after))))) = packet_header p +:+ packet_number p +:+ rest'.
Proof.
  intros Hok. destruct (unmask_number (mask_byte p 1) (mask_byte p 2) (mask_byte p 3) (mask_byte p 4) (packet_number p) (packet_sealed p +:+ after))
    as (rest' & Hu & _); try apply mask_byte_lt; [rewrite packet_number_length; by apply pk_pn_length|].
  exists rest'. cbv zeta. set (H := String.length (packet_header p)).
  destruct (type_byte_masked p (N.land (mask_byte p 0) 0xf) Hok) as (T1 & _ & _ & T4 & _).
  { change 0xf%N with (N.ones 4). rewrite N.land_ones. apply N.mod_lt. lia. }
  assert (xor_at 0 (N.land (mask_byte p 0) 0xf) (protect p +:+ after) = packet_header p +:+ packet_rest p +:+ after) as ->.
  { rewrite protect_split, !str_app_assoc.
    change (byte ?v +:+ ?s) with (String (byte_of v) s) at 1. cbn [xor_at]. rewrite byte_val_of, (N.mod_small _ _ T1), T4. done. }
  rewrite <- (Nat.add_0_r H) at 4. rewrite !xor_at_app by done. f_equal. rewrite <- Hu. unfold unmask, packet_rest. by rewrite str_app_assoc.
Qed.
(** A client's initial packet of QUIC 1, 2 or draft 29, protected as the RFCs say, whatever follows it in the
    datagram, is decrypted: the result is its plain text, in front of the rest of the packet. *)
Lemma quic_decrypt_protect p after : packet_ok p ->
  exists tail, quic_decrypt (protect p +:+ after) = Ok (ip_plain p, ip_plain p +:+ tail).
Proof.
  intros Hok. pose proof (pk_pn_length p Hok) as Hn. destruct (unmask_packet p after Hok) as (rest' & Hu). cbv zeta in Hu.
  destruct (type_byte_masked p 0 Hok) as (_ & _ & _ & _ & T5 & T6); [lia|].
  unfold quic_decrypt. rewrite quic_header_protect by done. cbn [mbind result_bind]. cbv zeta.
  fold (is_v2 p). fold (initial_salt p). fold (client_secret p).
  change (HKDFExpandLabel (client_secret p) "" (if is_v2 p then HKDFLabelHeaderProtectionV2 else HKDFLabelHeaderProtectionV1) 16) with (packet_hp p).
  change (HKDFExpandLabel (client_secret p) "" (if is_v2 p then HKDFLabelKeyV2 else HKDFLabelKeyV1) 16) with (packet_key p).
  change (HKDFExpandLabel (client_secret p) "" (if is_v2 p then HKDFLabelIVV2 else HKDFLabelIVV1) 12) with (packet_iv p).
  fold (packet_mask p). rewrite !mask_at by lia. cbn [mbind result_bind]. rewrite Hu.
  assert (byte_at (packet_header p +:+ packet_number p +:+ rest') 0 = Ok (type_byte p)) as ->.
  { unfold packet_header. rewrite !str_app_assoc, byte_at_byte. by rewrite N.mod_small. }
  cbn [mbind result_bind]. rewrite T6. rewrite (proj2 (N.ltb_ge _ _)) by lia.
  unfold be_at. rewrite slice_app by (done || by rewrite packet_number_length). cbn [mbind result_bind].
  assert (be_val (packet_number p) = ip_pn p) as -> by (apply be_roundtrip, pk_pn, Hok). cbn [mbind result_bind].
  assert (String.length (packet_header p +:+ packet_number p) = String.length (packet_header p) + ip_pn_length p)%nat as Hx
    by (by rewrite str_length_app, packet_number_length).
  rewrite <- (str_app_assoc (packet_header p)), str_take_app by done.
  set (X := xor_string (packet_number p) (string_of_bytes [mask_byte p 1; mask_byte p 2; mask_byte p 3; mask_byte p 4])).
  assert (str_drop (String.length (packet_header p) + ip_pn_length p) (protect p +:+ after) = packet_sealed p +:+ after) as ->.
  { rewrite protect_split. unfold packet_rest. fold X. rewrite !str_app_assoc, <- (str_app_assoc (packet_front p)), <- (str_app_assoc (byte _)).
    apply str_drop_app. unfold X, packet_header. rewrite !str_length_app, xor_string_length, packet_number_length. cbn [byte String.length]. lia. }
  rewrite slice_app by (rewrite ?sealed_length; done || (unfold len; lia)). cbn [mbind result_bind].
  rewrite str_take_app by done. unfold aead_Open. rewrite nonce_code by done. rewrite open_sealed. cbn [mbind result_bind].
  by eexists.
Qed.
End Packet.

(** ** Datagrams *)

(** A datagram: an initial packet with its frames, and what follows the packet. *)
Record datagram : Type := mkDatagram { dg_packet : initial_packet; dg_frames : list frame; dg_after : string }.
Definition datagram_ok (d : datagram) : Prop :=
  packet_ok (dg_packet d) /\ Forall frame_ok (dg_frames d) /\ ip_plain (dg_packet d) = encode_frames (dg_frames d).
Definition dg_fragments (d : datagram) : list qCryptoFragment := concat (map frame_fragments (dg_frames d)).

Section Datagrams.
Context {C : QUICCrypto} {S : QUICSeal}.

Definition dg_bytes (d : datagram) : string := protect (dg_packet d) +:+ dg_after d.
(** The sniffer, called with one datagram after the other, as long as it asks for more. *)
Fixpoint sniff_datagrams (fuel : nat) (packets : list string) (metadata : SniffInfo) (context : SniffContext)
  : result (list (option error) * SniffInfo * SniffContext) :=
  match packets with
  | [] => Ok ([], metadata, context)
  | packet :: packets =>
      let! (answer, metadata, context) := sniff_QUICClientHello fuel packet metadata context in
      let! (answers, metadata, context) := sniff_datagrams fuel packets metadata context in
      Ok (answer :: answers, metadata, context)
  end.

Lemma sniff_datagram fuel d metadata context : datagram_ok d ->
  sniff_QUICClientHello fuel (dg_bytes d) metadata context = quic_hello fuel (map frame_type (dg_frames d)) (dg_fragments d) metadata context.
Proof.
  intros (Hp & Hf & E). unfold sniff_QUICClientHello, dg_bytes. destruct (quic_decrypt_protect (dg_packet d) (dg_after d) Hp) as [tail ->].
  cbn [mbind result_bind]. rewrite E, quic_frames_encoded by done. done.
Qed.
Lemma sniff_datagrams_packets fuel ds : forall metadata context, Forall datagram_ok ds ->
  sniff_datagrams fuel (map dg_bytes ds) metadata context =
  sniff_plain fuel (map (fun d => (map frame_type (dg_frames d), dg_fragments d)) ds) metadata context.
Proof.
  induction ds as [|d ds IH]; intros metadata context Hds; [done|]. apply Forall_cons in Hds as [Hd Hds]. cbn [map sniff_datagrams sniff_plain].
  rewrite sniff_datagram by done. destruct (quic_hello _ _ _ _ _) as [[[a m] c]| |]; [|done|done]. cbn [mbind result_bind]. by rewrite IH.
Qed.

(** C14: The server name of a QUIC client is found: a hello is cut into pieces in any way, the pieces are sent in CRYPTO
    frames in any order, between other frames, in any number of protected packets.  The sniffer asks for more after each packet but the
    last, and after the last one it has the protocol and the name, and keeps nothing. *)
Theorem quic_server_name h chunks fuel before last metadata :
  hello_ok h -> Forall (fun c => c <> "") chunks -> str_concat chunks = encode_hello h -> (length chunks <= fuel)%nat ->
  Forall datagram_ok (before ++ [last]) ->
  (concat (map dg_fragments (before ++ [last])) ≡ₚ fragments_of 0 chunks)%list -> dg_fragments last <> [] ->
  exists answers metadata',
    sniff_datagrams fuel (map dg_bytes (before ++ [last])%list) metadata None = Ok (answers ++ [None], metadata', None)%list /\
    length answers = length before /\ Forall asks_more answers /\
    sn_Protocol metadata' = ProtocolQUIC /\ sn_Domain metadata' = ch_ServerName (hello_fingerprint h).
Proof.
  intros Hok Hne Hcut Hfuel Hds Hp Hlast. rewrite sniff_datagrams_packets by done. rewrite map_app, concat_app in Hp. cbn [map concat] in Hp.
  rewrite app_nil_r in Hp. rewrite map_app, sniff_plain_app. cbn [map].
  destruct (sniff_plain_partial h chunks fuel Hok Hne Hcut Hfuel (map (fun d => (map frame_type (dg_frames d), dg_fragments d)) before)
    metadata None (dg_fragments last)) as (answers & m & c & E & Ha & Hl & Hc); [|done|].
  { rewrite <- Hp, map_map. cbn [snd default]. done. }
  rewrite E. cbn [mbind result_bind sniff_plain].
  destruct (quic_hello_complete h chunks fuel Hok Hne Hcut Hfuel (map frame_type (dg_frames last)) (dg_fragments last) m c) as (m' & E' & H1 & H2).
  { rewrite Hc, <- Hp, map_map. cbn [snd default]. rewrite app_nil_r. apply Permutation_app_comm. }
  { intros H. apply Hlast. unfold dg_fragments. by apply map_eq_nil in H as ->. }
  rewrite E'. cbn [mbind result_bind]. exists answers, m'. rewrite length_map in Hl. done.
Qed.
End Datagrams.
