(* ===== verification/SniffDriver.v ===== *)
(** * SniffDriver: the router's sniff action finds the server name of QUIC

    The sniffers of the repository behind the interface that the router calls, and the sniff action over the
    datagrams of a client. *)

From S2P Require Import Prelude GoStd NetIP DNSMessage Metadata RuleItems RuleMatch RuleAction Sniff.
From S2P Require Import FakeIP FakeIPCodec GoIO SniffBasic SniffLaws JA3 JA3Laws QUIC QUICLaws QUICFrames QUICPacket.
Open Scope string_scope.

(** ** The sniffers as the router calls them *)

(** A panic ends the program; it stands as an error of its own here. *)
Definition answer_of {C} (r : result (option error * SniffInfo * C)) (s : SniffInfo) (c : C) : option error * SniffInfo * C :=
  match r with Ok a => a | Err e => (Some e, s, c) | Panic m => (Some (ELib ("panic: " +:+ m)), s, c) end.
Definition plain_answer {C} (r : result SniffInfo) (s : SniffInfo) (c : C) : option error * SniffInfo * C :=
  answer_of (let! s := r in Ok (None, s, c)) s c.

Section Sniffers.
Context {L : SniffLibrary} {C : QUICCrypto}.
(** [E.Errors], and the turns of the loop over CRYPTO fragments. *)
Variable join : list error -> option error.
Variable fuel : nat.

Definition stream_sniffer (k : StreamSniffer) (data : string) (s : SniffInfo) (c : SniffContext) : option error * SniffInfo * SniffContext :=
  plain_answer
    match k with
    | TLSClientHello => sniff_TLSClientHello s data
    | HTTPHost => sniff_HTTPHost s data
    | StreamDomainNameQuery => sniff_StreamDomainNameQuery s (stream data)
    | BitTorrent => sniff_BitTorrent s [data]
    | SSH => sniff_SSH s data
    | RDP => sniff_RDP s (stream data)
    end s c.
Definition packet_sniffer (k : PacketSniffer) (data : string) (s : SniffInfo) (c : SniffContext) : option error * SniffInfo * SniffContext :=
  match k with
  | QUICClientHello => answer_of (sniff_QUICClientHello fuel data s c) s c
  | DomainNameQuery => plain_answer (sniff_DomainNameQuery s data) s c
  | STUNMessage => plain_answer (sniff_STUNMessage s data) s c
  | UTP => plain_answer (sniff_UTP s data) s c
  | UDPTracker => plain_answer (sniff_UDPTracker s data) s c
  | DTLSRecord => plain_answer (sniff_DTLSRecord s data) s c
  | NTP => plain_answer (sniff_NTP s data) s c
  end.
Definition go_sniffers : Sniffers := {|
  SniffState := SniffContext;
  run_stream := stream_sniffer;
  run_packet := packet_sniffer;
  E_Errors := join
|}.
End Sniffers.

(** ** Datagrams of QUIC and the other sniffers *)

Lemma be4_top p d b : (8 <= String.length p)%nat -> be_at 4 p 4 = Ok d -> byte_at p 4 = Ok b -> (b * 16777216 <= d < (b + 1) * 16777216)%N.
Proof.
  intros Hl. do 8 (destruct p as [|? p]; [simpl in Hl; lia|]). unfold be_at, slice, byte_at.
  destruct (Nat.leb_spec (4 + 4) (String.length (String a (String a0 (String a1 (String a2 (String a3 (String a4 (String a5 (String a6 p)))))))))) as [_|];
    [|lia].
  cbn [Nat.leb Nat.add Nat.sub andb str_take str_drop mbind result_bind String.get]. unfold be_val. cbn [be_val_go].
  pose proof (byte_val_lt a3); pose proof (byte_val_lt a4); pose proof (byte_val_lt a5); pose proof (byte_val_lt a6).
  intros [= <-] [= <-]. lia.
Qed.

Section Datagrams.
Context {L : SniffLibrary} {C : QUICCrypto} {S : QUICSeal}.

Lemma protect_front p after : packet_ok p ->
  (8 <= String.length (protect p +:+ after))%nat /\
  (exists t, byte_at (protect p +:+ after) 0 = Ok t /\ (192 <= t < 256)%N) /\
  (exists b, byte_at (protect p +:+ after) 4 = Ok b /\ b ∈ [0x1d; 0x01; 0xcf]%N).
Proof.
  intros Hok. pose proof (pk_dcid p Hok). unfold protect, packet_front. rewrite !str_app_assoc. split_and!.
  - rewrite !str_length_app, !be_bytes_length. cbn [byte String.length]. lia.
  - destruct (type_byte_masked p (N.land (mask_byte p 0) 0xf) Hok) as (T1 & _).
    { change 0xf%N with (N.ones 4). rewrite N.land_ones. apply N.mod_lt. lia. }
    eexists. rewrite byte_at_byte, N.mod_small by done. split; [done|]. split; [|done].
    apply type_byte_high; [done|]. change 0xf%N with (N.ones 4). rewrite N.land_ones. apply N.mod_lt. lia.
  - pose proof (pk_version p Hok) as Hv. rewrite !elem_of_cons, elem_of_nil in Hv.
    change (be_bytes 4 ?v +:+ ?s) with (byte (v / 256 / 256 / 256) +:+ byte (v / 256 / 256) +:+ byte (v / 256) +:+ byte v +:+ s).
    eexists. rewrite (byte_at_app 1 (byte _) _ 3), (byte_at_app 1 (byte _) _ 2), (byte_at_app 1 (byte _) _ 1), (byte_at_app 1 (byte _) _ 0), byte_at_byte by done.
    split; [done|]. destruct Hv as [->|[->|[->|[]]]]; vm_compute; set_solver.
Qed.

Variable join : list error -> option error.
Variable fuel : nat.
#[local] Instance the_sniffers : Sniffers := go_sniffers join fuel.

(** A sniffer that rejects a packet, whatever is known. *)
Definition rejects (packet : string) (k : PacketSniffer) : Prop :=
  forall s c, exists e, run_packet k packet s c = (Some e, s, c).
Lemma rejected (r : result SniffInfo) s (c : SniffContext) protocol P : accepts_or_rejects r protocol s P -> ~ P ->
  exists e, plain_answer r s c = (Some e, s, c).
Proof. intros [[e ->]|[_ H]] Hn; [by eexists|done]. Qed.
Lemma others_reject p after : packet_ok p -> Forall (rejects (protect p +:+ after)) [STUNMessage; UTP; UDPTracker; DTLSRecord; NTP].
Proof.
  intros Hok. destruct (protect_front p after Hok) as (Hl & (t & Et & Ht) & (b & Eb & Hb)). rewrite !elem_of_cons, elem_of_nil in Hb.
  repeat constructor; intros s c; cbn [run_packet the_sniffers go_sniffers packet_sniffer].
  - eapply rejected; [apply STUN_seen|]. intros E. pose proof (be4_top _ _ _ Hl E Eb). lia.
  - eapply rejected; [apply UTP_seen|]. intros (b' & E & _ & H4). rewrite Et in E. injection E as <-.
    rewrite N.shiftr_div_pow2 in H4. pose proof (N.Div0.div_le_mono 192 t (2 ^ 4) ltac:(lia)) as H12. change (192 / 2 ^ 4)%N with 12%N in H12. lia.
  - eapply rejected; [apply UDPTracker_seen|]. intros [E H16]. destruct (tracker_bytes _ H16 E) as [E0 _]. rewrite Et in E0. injection E0 as ->. lia.
  - eapply rejected; [apply DTLS_seen|]. intros (b' & E & Hin). rewrite Et in E. injection E as <-.
    rewrite !elem_of_cons, elem_of_nil in Hin. lia.
  - eapply rejected; [apply NTP_seen|]. intros (b' & d & _ & _ & E & Hd). pose proof (be4_top _ _ _ Hl E Eb). lia.
Qed.

(** ** One packet *)

(** [E.Errors]: what one of the errors is, the result is. *)
Hypothesis join_is : forall l, is_error (join l) ErrNeedMoreData = existsb (fun e => errors_Is e ErrNeedMoreData) l.

Lemma PeekPacket_rejects packet : forall ks errs s (c : SniffContext), Forall (rejects packet) ks ->
  exists more, forall ks', PeekPacket (ks ++ ks') packet errs s c = PeekPacket ks' packet (errs ++ more) s c.
Proof.
  induction ks as [|k ks IH]; intros errs s c Hks.
  - exists []. intros ks'. by rewrite app_nil_r.
  - apply Forall_cons in Hks as [Hk Hks]. destruct (Hk s c) as [e E]. destruct (IH (errs ++ [e])%list s c Hks) as [more Hm].
    exists (e :: more). intros ks'. cbn [app PeekPacket]. rewrite E, Hm. by rewrite <- app_assoc.
Qed.
Lemma PeekPacket_quic pre post packet s c err s' c' : Forall (rejects packet) pre -> Forall (rejects packet) post ->
  run_packet QUICClientHello packet s c = (err, s', c') ->
  match err with
  | None => PeekPacket (pre ++ QUICClientHello :: post) packet [] s c = (None, s', c')
  | Some e => exists err', PeekPacket (pre ++ QUICClientHello :: post) packet [] s c = (err', s', c') /\
      (errors_Is e ErrNeedMoreData = true -> is_error err' ErrNeedMoreData = true)
  end.
Proof.
  intros Hpre Hpost E. destruct (PeekPacket_rejects packet pre [] s c Hpre) as [more Hm]. rewrite Hm. cbn [PeekPacket app]. rewrite E.
  destruct err as [e|]; [|done]. destruct (PeekPacket_rejects packet post (more ++ [e])%list s' c' Hpost) as [more' Hm'].
  specialize (Hm' []). rewrite app_nil_r in Hm'. rewrite Hm'. cbn [PeekPacket]. eexists. split; [done|].
  intros He. change E_Errors with join. rewrite join_is, !existsb_app. cbn [existsb]. rewrite He. by rewrite !orb_true_r.
Qed.

(** ** The datagrams of a client *)

Definition sniffers_for (a : RuleActionSniff) (s : SniffInfo) : list PacketSniffer :=
  if bool_decide (sn_SnifferNames s = SnifferNames a) && is_error (sn_SniffError s) ErrNeedMoreData then [QUICClientHello] else packet_sniffers a.
(** The sniffer of QUIC is asked, and no other accepts the packet. *)
Definition only_quic (a : RuleActionSniff) (s : SniffInfo) (packet : string) : Prop :=
  exists pre post, sniffers_for a s = (pre ++ QUICClientHello :: post)%list /\ Forall (rejects packet) pre /\ Forall (rejects packet) post.
Lemma only_quic_again a err s packet : is_error err ErrNeedMoreData = true -> only_quic a (set_sniff_result (SnifferNames a) err s) packet.
Proof.
  intros He. exists [], []. split_and!; [|done|done]. unfold sniffers_for. cbn [set_sniff_result sn_SnifferNames sn_SniffError].
  by rewrite bool_decide_eq_true_2, He.
Qed.
Lemma sniff_packet_quic a s c packet err s' c' : only_quic a s packet -> run_packet QUICClientHello packet s c = (err, s', c') ->
  match err with
  | None => sniff_packet a packet s c = (None, set_sniff_result (SnifferNames a) None s', c')
  | Some e => errors_Is e ErrNeedMoreData = true -> exists err', sniff_packet a packet s c = (err', set_sniff_result (SnifferNames a) err' s', c') /\
      is_error err' ErrNeedMoreData = true
  end.
Proof.
  intros (pre & post & E & Hpre & Hpost) Hr. pose proof (PeekPacket_quic pre post packet s c err s' c' Hpre Hpost Hr) as H.
  unfold sniff_packet. fold (sniffers_for a s). rewrite E. destruct err as [e|]; [|by rewrite H].
  intros He. destruct H as (err' & -> & Hn). eauto.
Qed.

Context (h : hello) (chunks : list string).
Context (Hok : hello_ok h) (Hne : Forall (fun c => c <> "") chunks) (Hcut : str_concat chunks = encode_hello h).
Context (Hfuel : (length chunks <= fuel)%nat).

Lemma sniff_reads_quic a rest last : dg_fragments last <> [] -> datagram_ok last ->
  forall before packets acc s context, Forall datagram_ok before -> map pk_Buffer packets = map dg_bytes (before ++ [last]) ->
  (concat (map dg_fragments before) ++ default [] context ++ dg_fragments last ≡ₚ fragments_of 0 chunks)%list ->
  (forall packet, head packets = Some packet -> only_quic a s (pk_Buffer packet)) ->
  exists s', sniff_reads a (map PacketOk packets ++ rest) acc s context = (None, None, acc ++ packets, rest, s', None)%list /\
    sn_Protocol s' = ProtocolQUIC /\ sn_Domain s' = ch_ServerName (hello_fingerprint h).
Proof.
  intros Hlast Hdl. induction before as [|d before IH]; intros packets acc s context Hds Hb Hp Hq.
  - destruct packets as [|p [|p' packets]]; try done. injection Hb as Hb. specialize (Hq p eq_refl). cbn [app map sniff_reads].
    destruct (quic_hello_complete h chunks fuel Hok Hne Hcut Hfuel (map frame_type (dg_frames last)) (dg_fragments last) s context) as (s' & E & H1 & H2).
    { rewrite <- Hp. cbn [map concat app]. apply Permutation_app_comm. }
    { intros H. apply Hlast. unfold dg_fragments. by apply map_eq_nil in H as ->. }
    assert (run_packet QUICClientHello (pk_Buffer p) s context = (None, s', None)) as Hr.
    { cbn [run_packet the_sniffers go_sniffers packet_sniffer]. rewrite Hb, sniff_datagram, E by done. done. }
    pose proof (sniff_packet_quic a s context _ _ _ _ Hq Hr) as Hs. cbn beta iota in Hs. rewrite Hs. cbn [is_error]. eexists. split; [done|]. done.
  - apply Forall_cons in Hds as [Hd Hds]. destruct packets as [|p packets]; [done|]. injection Hb as Hb1 Hb. specialize (Hq p eq_refl). cbn [app map concat sniff_reads] in *.
    destruct (quic_hello_partial h chunks fuel Hok Hne Hcut Hfuel (map frame_type (dg_frames d)) (dg_fragments d)
      (concat (map dg_fragments before) ++ dg_fragments last)%list s context) as (e & E).
    { rewrite <- Hp. solve_Permutation. } { intros H. by apply app_eq_nil in H as [_ H]. }
    assert (run_packet QUICClientHello (pk_Buffer p) s context = (Some (EWrap ErrNeedMoreData e), set_protocol ProtocolQUIC s, Some (dg_fragments d ++ default [] context)%list)) as Hr.
    { cbn [run_packet the_sniffers go_sniffers packet_sniffer]. rewrite Hb1, sniff_datagram, E by done. done. }
    destruct (sniff_packet_quic a s context _ _ _ _ Hq Hr (more_is_more e)) as (err' & -> & He). rewrite He.
    destruct (IH packets (acc ++ [p])%list (set_sniff_result (SnifferNames a) err' (set_protocol ProtocolQUIC s))
      (Some (dg_fragments d ++ default [] context)%list)) as (s' & E' & H1 & H2).
    + done.
    + done.
    + rewrite <- Hp. cbn [default]. solve_Permutation.
    + intros packet _. by apply only_quic_again.
    + exists s'. rewrite E'. rewrite <- app_assoc. done.
Qed.
End Datagrams.

(** ** The sniff action *)

Section Action.
Context {X : Externals} {L : SniffLibrary} {C : QUICCrypto} {S : QUICSeal}.

Lemma first_datagram_only_quic join fuel a s d after : packet_ok d -> sn_SniffError s = None -> PacketSniffers a = [] ->
  (exists e, Msg_Unpack (protect d +:+ after) = Err e) -> only_quic join fuel a s (protect d +:+ after).
Proof.
  intros Hok Hs Ha [e He]. exists [DomainNameQuery], [STUNMessage; UTP; UDPTracker; DTLSRecord; NTP]. split_and!.
  - unfold sniffers_for, packet_sniffers. rewrite Hs, Ha. cbn [is_error nonempty]. by rewrite andb_false_r.
  - repeat constructor. intros s' c. exists e. cbn [run_packet the_sniffers go_sniffers packet_sniffer].
    unfold sniff_DomainNameQuery.
    by rewrite He.
  - by apply others_reject.
Qed.

(** C13: The sniff action of a rule without a list of sniffers, on a UDP connection over which a client starts QUIC: the hello may be
    spread over datagrams in any split and any order.  When the first datagram is not a DNS message, the action reads the datagrams up to the one that
    completes the hello and no further, returns all of them, and sets the protocol and the server name; with
    [OverrideDestination] the name becomes the destination, and the port is kept. *)
Theorem sniff_action_finds_quic join fuel h chunks before last a buffers packets rest (st : mstate (S := go_sniffers join fuel)) :
  let name := ch_ServerName (hello_fingerprint h) in
  (forall l, is_error (join l) ErrNeedMoreData = existsb (fun e => errors_Is e ErrNeedMoreData) l) ->
  hello_ok h -> Forall (fun c => c <> "") chunks -> str_concat chunks = encode_hello h -> (length chunks <= fuel)%nat ->
  Forall datagram_ok (before ++ [last]) -> map pk_Buffer packets = map dg_bytes (before ++ [last])%list ->
  (concat (map dg_fragments (before ++ [last])) ≡ₚ fragments_of 0 chunks)%list -> dg_fragments last <> [] ->
  PacketSniffers a = [] -> StreamSniffers a = [] ->
  (forall packet, head packets = Some packet -> exists e, Msg_Unpack (pk_Buffer packet) = Err e) ->
  Skip (ms_md st) = false -> sn_Protocol (md_sniff (ms_md st)) = "" -> sn_SniffError (md_sniff (ms_md st)) = None ->
  ms_ctx st = None -> ms_pconn st = (map PacketOk packets ++ rest)%list ->
  exists st', actionSniff false true a buffers [] st = (mkSniffResult None packets None, st') /\
    sn_Protocol (md_sniff (ms_md st')) = ProtocolQUIC /\ sn_Domain (md_sniff (ms_md st')) = name /\
    ms_pconn st' = rest /\ ms_ctx st' = None /\
    md_Destination (ms_md st') = if OverrideDestination a && IsDomainName name
      then mkSocksaddr AddrNone (sa_Port (md_Destination (ms_md st))) name else md_Destination (ms_md st).
Proof.
  intros name Hj Hok Hne Hcut Hfuel Hds Hb Hp Hlast Ha1 Ha2 Hdns Hskip Hproto Herr Hctx Hconn.
  apply Forall_app in Hds as Hds'. destruct Hds' as [Hds1 Hdl]. apply Forall_cons in Hdl as [Hdl _].
  destruct (sniff_reads_quic join fuel Hj h chunks Hok Hne Hcut Hfuel a rest last Hlast Hdl before packets [] (md_sniff (ms_md st)) None)
    as (s' & E & H1 & H2); [done|done| | |].
  - rewrite <- Hp, map_app, concat_app. cbn [map concat default app]. by rewrite app_nil_r.
  - intros packet Hhd. specialize (Hdns packet Hhd). destruct packets as [|p packets]; [done|]. injection Hhd as ->.
    assert (exists d, datagram_ok d /\ pk_Buffer packet = dg_bytes d) as (d & Hd & Eb).
    { destruct before as [|d before]; cbn [app map] in Hb; injection Hb as Hb1 Hb; [by exists last|]. exists d. by apply Forall_cons in Hds1 as [Hd _]. }
    rewrite Eb in *. by apply first_datagram_only_quic; [apply Hd|..].
  - unfold the_sniffers in E. unfold actionSniff. rewrite Hskip, Hproto. cbn [str_empty negb]. rewrite Ha1, Ha2. cbn [nonempty negb andb].
    unfold previous_error. rewrite Herr, andb_false_r. unfold sniff_packets. cbn [sniff_earlier]. rewrite Hctx, Hconn, E. cbn [app].
    eexists. split; [done|]. cbn [ms_md ms_pconn ms_ctx]. unfold override_destination.
    assert (md_sniff (set_sniff s' (ms_md st)) = s' /\ md_Destination (set_sniff s' (ms_md st)) = md_Destination (ms_md st) /\
      forall d, md_sniff (set_Destination d (set_sniff s' (ms_md st))) = s' /\ md_Destination (set_Destination d (set_sniff s' (ms_md st))) = d)
      as (G1 & G2 & G3) by (by destruct (ms_md st)).
    rewrite G1, G2, H2. fold name. destruct (OverrideDestination a && IsDomainName name); rewrite ?(proj1 (G3 _)), ?(proj2 (G3 _)), ?G1; done.
Qed.
End Action.
