(* ===== verification/TLSFragment.v ===== *)
(** * TLSFragment: splitting the first TLS record

    common/tlsfragment: the index of the server name in a client hello (index.go), and the connection that writes the
    first record in parts that are cut inside the server name (conn.go): as packets, as records, or both. *)

From S2P Require Import Prelude GoStd NetIP DNSMessage Metadata RuleItems RuleMatch RuleAction Sniff.
From S2P Require Import FakeIP FakeIPCodec GoIO SniffBasic JA3.
Open Scope string_scope.

(** ** The server name *)

(** The constants of index.go are those of common/ja3. *)
Record MyServerName : Type := mkMyServerName { sname_Index : nat; sname_Length : nat; sname_ServerName : string }.
Definition shift_index (n : nat) (s : MyServerName) : MyServerName :=
  mkMyServerName (sname_Index s + n) (sname_Length s) (sname_ServerName s).

(** The loop over the extensions: [exs = exs[4+exLen:]] adds in 16 bits, [currentIndex] does not. *)
Fixpoint index_extensions (fuel : nat) (currentIndex : nat) (exs : string) : result (option MyServerName) :=
  if str_empty exs then Ok None
  else match fuel with
    | O => Panic "out of fuel"
    | S f =>
        if (String.length exs <? extensionHeaderLen)%nat then Ok None
        else
          let! exType := u16_at exs 0 in
          let! exLen := u16_at exs 2 in
          if (String.length exs <? extensionHeaderLen + N.to_nat exLen)%nat then Ok None
          else
            let! sex := slice exs extensionHeaderLen (extensionHeaderLen + N.to_nat exLen) in
            if (exType =? sniExtensionType)%N then
              if (String.length sex <? sniExtensionHeaderLen)%nat then Ok None
              else
                let! sniType := byte_at sex 2 in
                if negb (sniType =? sniNameDNSHostnameType)%N then Ok None
                else
                  let! sniLen := u16_at sex 3 in
                  let! sex := slice_from sex sniExtensionHeaderLen in
                  Ok (Some (mkMyServerName (currentIndex + extensionHeaderLen + sniExtensionHeaderLen) (N.to_nat sniLen) sex))
            else
              let! exs := slice_from exs (N.to_nat ((4 + exLen) mod 65536)) in
              index_extensions f (currentIndex + (4 + N.to_nat exLen)) exs
    end.
Definition indexTLSServerNameFromExtensions (exs : string) : result (option MyServerName) :=
  if str_empty exs then Ok None
  else if (String.length exs <? extensionsHeaderLen)%nat then Ok None
  else
    let! exsLen := u16_at exs 0 in
    let! exs := slice_from exs extensionsHeaderLen in
    if (String.length exs <? N.to_nat exsLen)%nat then Ok None
    else index_extensions (S (String.length exs)) extensionsHeaderLen exs.

Definition indexTLSServerNameFromHandshake (handshake : string) : result (option MyServerName) :=
  let fixed := (handshakeHeaderLen + randomDataLen + sessionIDHeaderLen)%nat in
  if (String.length handshake <? fixed)%nat then Ok None
  else
    let! handshType := byte_at handshake 0 in
    if negb (handshType =? handshakeType)%N then Ok None
    else
      let! b1 := byte_at handshake 1 in let! b2 := byte_at handshake 2 in let! b3 := byte_at handshake 3 in
      let handshakeLen := (b1 * 65536 + b2 * 256 + b3)%N in
      if negb (String.length handshake - 4 =? N.to_nat handshakeLen)%nat then Ok None
      else
        let! tlsVersion := u16_at handshake 4 in
        if negb (version_supported tlsVersion) then Ok None
        else
          let! sessionIDLen := byte_at handshake 38 in
          let currentIndex := (fixed + N.to_nat sessionIDLen)%nat in
          if (String.length handshake <? currentIndex)%nat then Ok None
          else
            let! cipherSuites := slice_from handshake currentIndex in
            if (String.length cipherSuites <? cipherSuiteHeaderLen)%nat then Ok None
            else
              let! csLen := u16_at cipherSuites 0 in
              if (String.length cipherSuites <? cipherSuiteHeaderLen + N.to_nat csLen + compressMethodHeaderLen)%nat then Ok None
              else
                let! compressMethodLen := byte_at cipherSuites (cipherSuiteHeaderLen + N.to_nat csLen) in
                let currentIndex := (currentIndex + (cipherSuiteHeaderLen + N.to_nat csLen + compressMethodHeaderLen + N.to_nat compressMethodLen))%nat in
                if (String.length handshake <? currentIndex)%nat then Ok None
                else
                  let! exs := slice_from handshake currentIndex in
                  let! serverName := indexTLSServerNameFromExtensions exs in
                  Ok (option_map (shift_index currentIndex) serverName).

Definition IndexTLSServerName (payload : string) : result (option MyServerName) :=
  if (String.length payload <? recordLayerHeaderLen)%nat then Ok None
  else
    let! contType := byte_at payload 0 in
    if negb (contType =? contentType)%N then Ok None
    else
      let! segmentLen := u16_at payload 3 in
      if (String.length payload <? recordLayerHeaderLen + N.to_nat segmentLen)%nat then Ok None
      else
        let! handshake := slice_from payload recordLayerHeaderLen in
        let! serverName := indexTLSServerNameFromHandshake handshake in
        Ok (option_map (shift_index recordLayerHeaderLen) serverName).

(** ** Where to split *)

(** [strings.Count(s, ".")]. *)
Fixpoint count_dots (s : string) : nat :=
  match s with "" => 0 | String c s => (if bool_decide (c = "."%char) then 1 else 0) + count_dots s end.

Definition intn_panic : string := "invalid argument to Intn".
(** [rand.Intn(n)]: the next number is taken from [rnd], whatever it is. *)
Definition Intn (n : nat) (rnd : list nat) : result (nat * list nat) :=
  if (n =? 0)%nat then Panic intn_panic else Ok (hd 0 rnd mod n, tl rnd)%nat.
Fixpoint split_indexes (splits : list string) (currentIndex : nat) (rnd : list nat) : result (list nat) :=
  match splits with
  | [] => Ok []
  | split :: splits =>
      let! (splitAt, rnd) := Intn (String.length split) rnd in
      let next := (currentIndex + String.length split + if nonempty splits then 1 else 0)%nat in
      let! rest := split_indexes splits next rnd in
      Ok ((currentIndex + splitAt)%nat :: rest)
  end.

Section Splitting.
(** [publicsuffix.List.PublicSuffix]. *)
Variable PublicSuffix : string -> string.

Definition split_points (serverName : MyServerName) (rnd : list nat) : result (list nat) :=
  let splits := str_split "."%char (sname_ServerName serverName) in
  let currentIndex := sname_Index serverName in
  let splits := if str_empty (PublicSuffix (sname_ServerName serverName)) then splits
                else firstn (length splits - count_dots (sname_ServerName serverName)) splits in
  match splits with
  | s :: _ :: _ =>
      if bool_decide (s = "...") then split_indexes (tl splits) (currentIndex + (String.length s + 1)) rnd
      else split_indexes splits currentIndex rnd
  | _ => split_indexes splits currentIndex rnd
  end.
End Splitting.

(** ** The connection *)

(** What is done to the connections below: the option of the TCP connection; [writeAndWaitAck] to it; a write; a pause. *)
Inductive event : Type :=
| SetNoDelay (noDelay : bool)
| WriteAndWaitAck (payload : string)
| ConnWrite (payload : string)
| SleepFallback.

(** A computation does events, of which some may fail: the outcomes of the next calls are given, and those after succeed. *)
Definition W (A : Type) : Type := list (option error) -> list event * list (option error) * result A.
Definition w_lift {A} (r : result A) : W A := fun o => ([], o, r).
Definition w_bind {A B} (m : W A) (k : A -> W B) : W B := fun o =>
  match m o with
  | (es, o, Ok a) => let '(es', o, r) := k a o in ((es ++ es')%list, o, r)
  | (es, o, Err e) => (es, o, Err e)
  | (es, o, Panic m) => (es, o, Panic m)
  end.
Notation "'let@' x := m 'in' k" := (w_bind m (fun x => k)) (at level 10, x name, m at level 100, k at level 200, only parsing).
Definition perform (e : event) : W unit := fun o =>
  ([e], tl o, match hd None o with Some err => Err err | None => Ok tt end).
Definition emit (e : event) : W unit := fun o => ([e], o, Ok tt).

Record FragmentConn : Type := mkFragmentConn {
  fc_tcpConn : bool;
  fc_firstPacketWritten : bool;
  fc_splitPacket : bool;
  fc_splitRecord : bool
}.
Definition set_written (c : FragmentConn) : FragmentConn :=
  mkFragmentConn (fc_tcpConn c) true (fc_splitPacket c) (fc_splitRecord c).

(** The part of [b] at the turn [i] of the loop. *)
Definition part (b : string) (splitIndexes : list nat) (i : nat) : result string :=
  match i with
  | O => match splitIndexes with [] => Panic index_panic | x :: _ => slice b 0 x end
  | S j =>
      match splitIndexes !! j with
      | None => Panic index_panic
      | Some from => match splitIndexes !! i with None => slice_from b from | Some to => slice b from to end
      end
  end.
Definition record_of (b payload : string) : string :=
  str_take 3 b +:+ be_bytes 2 (N.of_nat (String.length payload) mod 65536) +:+ payload.

(** The loop: [turns] are left, [i] is the turn, [buffer] the buffer, which is returned. *)
Fixpoint write_parts (c : FragmentConn) (b : string) (splitIndexes : list nat) (turns i : nat) (buffer : string) : W string :=
  match turns with
  | O => w_lift (Ok buffer)
  | S turns =>
      let last := (i =? length splitIndexes)%nat in
      let@ payload := w_lift (part b splitIndexes i) in
      let@ payload := w_lift (if (i =? 0)%nat && fc_splitRecord c then slice_from payload recordLayerHeaderLen else Ok payload) in
      let buffer := if fc_splitRecord c
                    then (if fc_splitPacket c then "" else buffer) +:+ record_of b payload else buffer in
      let payload := if fc_splitRecord c && fc_splitPacket c then buffer else payload in
      let@ _ := (if fc_splitPacket c then
                   if fc_tcpConn c && negb last then perform (WriteAndWaitAck payload)
                   else let@ _ := perform (ConnWrite payload) in
                        if last then w_lift (Ok tt) else emit SleepFallback
                 else w_lift (Ok tt)) in
      write_parts c b splitIndexes turns (S i) buffer
  end.

Section Write.
Variable PublicSuffix : string -> string.

(** From the server name on. *)
Definition write_fragmented (c : FragmentConn) (b : string) (serverName : MyServerName) (rnd : list nat) : W nat :=
  let@ _ := (if fc_splitPacket c && fc_tcpConn c then perform (SetNoDelay true) else w_lift (Ok tt)) in
  let@ splitIndexes := w_lift (split_points PublicSuffix serverName rnd) in
  let@ buffer := write_parts c b splitIndexes (S (length splitIndexes)) 0 "" in
  let@ _ := (if fc_splitRecord c && negb (fc_splitPacket c) then perform (ConnWrite buffer) else w_lift (Ok tt)) in
  let@ _ := (if fc_tcpConn c then perform (SetNoDelay false) else w_lift (Ok tt)) in
  w_lift (Ok (String.length b)).
Definition plain_write (b : string) : W nat := let@ _ := perform (ConnWrite b) in w_lift (Ok (String.length b)).
(** [Write]; the mark is set when the call returns, whatever it returns. *)
Definition Conn_Write (c : FragmentConn) (b : string) (rnd : list nat) : FragmentConn * W nat :=
  if fc_firstPacketWritten c then (c, plain_write b)
  else
    (set_written c,
     let@ serverName := w_lift (IndexTLSServerName b) in
     match serverName with
     | Some serverName => write_fragmented c b serverName rnd
     | None => plain_write b
     end).
End Write.
Definition WriterReplaceable (c : FragmentConn) : bool := fc_firstPacketWritten c.
