(* ===== verification/TLSFragmentLaws.v ===== *)
(** * TLSFragmentLaws: the peer receives what was written

    The index of the server name is where the name is; the parts of the first write make up the record, as bytes or as the
    payload of several records; a failed write leaves a front of them. *)

From S2P Require Import Prelude GoStd NetIP DNSMessage Metadata RuleItems RuleMatch RuleAction Sniff.
From S2P Require Import FakeIP FakeIPCodec GoIO SniffBasic SniffLaws JA3 JA3Laws TLSFragment.
Open Scope string_scope.

(** ** The server name *)

(** A computation of an index gives no panic, and a name that lies at the index. *)
Definition name_at (b : string) (s : MyServerName) : Prop :=
  exists front back, b = front +:+ sname_ServerName s +:+ back /\ String.length front = sname_Index s.
Definition found_in (b : string) (r : result (option MyServerName)) : Prop :=
  r = Ok None \/ exists s, r = Ok (Some s) /\ name_at b s.

Lemma found_shift n a b r : String.length a = n -> found_in b r ->
  found_in (a +:+ b) (let! s := r in Ok (option_map (shift_index n) s)).
Proof.
  intros Ha [->|(s & -> & front & back & -> & Hf)]; [by left|]. right. cbn [mbind result_bind option_map]. eexists. split; [done|].
  exists (a +:+ front), back. cbn [shift_index sname_ServerName sname_Index]. rewrite str_length_app, Ha, Hf. split; [by rewrite str_app_assoc|lia].
Qed.
Lemma byte_at_value b i : (i < String.length b)%nat -> exists v, byte_at b i = Ok v /\ (v < 256)%N.
Proof.
  intros H. destruct (byte_at_ok b i H) as [v E]. exists v. split; [done|]. unfold byte_at in E. destruct (String.get i b); [|done].
  injection E as <-. apply byte_val_lt.
Qed.
Lemma u16_at_value b i : (i + 1 < String.length b)%nat -> exists v, u16_at b i = Ok v /\ (v < 65536)%N.
Proof.
  intros H. destruct (byte_at_value b i ltac:(lia)) as (x & Ex & _), (byte_at_value b (i + 1) ltac:(lia)) as (y & Ey & _).
  assert (u16_at b i = Ok (x * 256 + y)%N) as E by (unfold u16_at; rewrite Ex; cbn [mbind result_bind]; by rewrite Ey).
  eexists. split; [exact E|]. by apply (u16_at_lt b i).
Qed.
Lemma take_drop_split n s : (n <= String.length s)%nat -> exists a b, s = a +:+ b /\ String.length a = n /\ str_drop n s = b /\ str_take n s = a.
Proof. intros H. exists (str_take n s), (str_drop n s). rewrite str_take_drop, take_length. split_and!; try done. lia. Qed.

Lemma extensions_found fuel : forall i exs, (N.of_nat (String.length exs) < 65536)%N -> (String.length exs < fuel)%nat ->
  forall pre, String.length pre = i -> found_in (pre +:+ exs) (index_extensions fuel i exs).
Proof.
  induction fuel as [|f IH]; intros i exs Hn Hf pre Hp; [lia|]. cbn [index_extensions]. destruct (str_empty exs); [by left|].
  destruct (Nat.ltb_spec (String.length exs) extensionHeaderLen) as [|H4]; [by left|]. unfold extensionHeaderLen in *.
  destruct (u16_at_value exs 0 ltac:(lia)) as (ty & -> & _), (u16_at_value exs 2 ltac:(lia)) as (n & -> & Hlen). cbn [mbind result_bind].
  destruct (Nat.ltb_spec (String.length exs) (4 + N.to_nat n)) as [|Hl]; [by left|].
  destruct (take_drop_split (4 + N.to_nat n) exs Hl) as (e & rest & -> & He & Hd & _).
  destruct (take_drop_split 4 e ltac:(lia)) as (head & sex & -> & Hh & _ & _). rewrite str_length_app in He.
  rewrite str_app_assoc, slice_app by (done || lia). cbn [mbind result_bind]. destruct (ty =? sniExtensionType)%N.
  - destruct (Nat.ltb_spec (String.length sex) sniExtensionHeaderLen) as [|H5]; [by left|]. unfold sniExtensionHeaderLen in *.
    destruct (byte_at_value sex 2 ltac:(lia)) as (sty & -> & _). cbn [mbind result_bind]. destruct (negb _); [by left|].
    destruct (u16_at_value sex 3 ltac:(lia)) as (sl & -> & _). cbn [mbind result_bind].
    destruct (take_drop_split 5 sex H5) as (h5 & name & -> & Hh5 & _ & _). rewrite slice_from_app by done. cbn [mbind result_bind]. right. eexists. split; [done|].
    exists (pre +:+ head +:+ h5), rest. cbn [sname_ServerName sname_Index]. rewrite !str_length_app. split; [by rewrite !str_app_assoc|lia].
  - rewrite !str_length_app in *. rewrite N.mod_small by lia. rewrite <- (str_app_assoc head sex rest), slice_from_app by (rewrite str_length_app; lia).
    cbn [mbind result_bind]. rewrite <- (str_app_assoc pre). apply IH; rewrite ?str_length_app; lia.
Qed.
Lemma from_extensions_found exs : (N.of_nat (String.length exs) < 65536)%N -> found_in exs (indexTLSServerNameFromExtensions exs).
Proof.
  intros Hn. unfold indexTLSServerNameFromExtensions. destruct (str_empty exs); [by left|].
  destruct (Nat.ltb_spec (String.length exs) extensionsHeaderLen) as [|H2]; [by left|]. unfold extensionsHeaderLen in *.
  destruct (u16_at_value exs 0 ltac:(lia)) as (n & -> & _). cbn [mbind result_bind].
  destruct (take_drop_split 2 exs H2) as (h2 & rest & -> & Hh & _ & _). rewrite slice_from_app by done. cbn [mbind result_bind].
  destruct (_ <? _)%nat; [by left|]. rewrite str_length_app in Hn. apply extensions_found; lia.
Qed.
Lemma from_handshake_found hs : (N.of_nat (String.length hs) < 65536)%N -> found_in hs (indexTLSServerNameFromHandshake hs).
Proof.
  intros Hn. unfold indexTLSServerNameFromHandshake, handshakeHeaderLen, randomDataLen, sessionIDHeaderLen, cipherSuiteHeaderLen, compressMethodHeaderLen.
  destruct (Nat.ltb_spec (String.length hs) (6 + 32 + 1)) as [|H39]; [by left|].
  destruct (byte_at_value hs 0 ltac:(lia)) as (v0 & -> & _). cbn [mbind result_bind]. destruct (negb _); [by left|].
  destruct (byte_at_value hs 1 ltac:(lia)) as (v1 & -> & _), (byte_at_value hs 2 ltac:(lia)) as (v2 & -> & _), (byte_at_value hs 3 ltac:(lia)) as (v3 & -> & _).
  cbn [mbind result_bind]. destruct (negb _); [by left|]. destruct (u16_at_value hs 4 ltac:(lia)) as (ver & -> & _). cbn [mbind result_bind].
  destruct (negb _); [by left|]. destruct (byte_at_value hs 38 ltac:(lia)) as (sid & -> & _). cbn [mbind result_bind].
  set (i := (6 + 32 + 1 + N.to_nat sid)%nat). destruct (Nat.ltb_spec (String.length hs) i) as [|Hi]; [by left|].
  rewrite (slice_from_ok hs i Hi). cbn [mbind result_bind]. rewrite !str_length_drop.
  destruct (Nat.ltb_spec (String.length hs - i) 2) as [|H2]; [by left|].
  destruct (u16_at_value (str_drop i hs) 0 ltac:(rewrite str_length_drop; lia)) as (cl & -> & _). cbn [mbind result_bind].
  destruct (Nat.ltb_spec (String.length hs - i) (2 + N.to_nat cl + 1)) as [|H3]; [by left|].
  destruct (byte_at_value (str_drop i hs) (2 + N.to_nat cl) ltac:(rewrite str_length_drop; lia)) as (cm & -> & _). cbn [mbind result_bind].
  set (j := (i + (2 + N.to_nat cl + 1 + N.to_nat cm))%nat). destruct (Nat.ltb_spec (String.length hs) j) as [|Hj]; [by left|].
  destruct (take_drop_split j hs Hj) as (a & b & -> & Ha & _ & _). rewrite slice_from_app by done. cbn [mbind result_bind].
  apply found_shift; [done|]. apply from_extensions_found. rewrite str_length_app in Hn. lia.
Qed.
Lemma index_found b : (N.of_nat (String.length b) < 65536)%N -> found_in b (IndexTLSServerName b).
Proof.
  intros Hn. unfold IndexTLSServerName. destruct (Nat.ltb_spec (String.length b) recordLayerHeaderLen) as [|H5]; [by left|].
  unfold recordLayerHeaderLen in *. destruct (byte_at_value b 0 ltac:(lia)) as (ty & -> & _). cbn [mbind result_bind]. destruct (negb _); [by left|].
  destruct (u16_at_value b 3 ltac:(lia)) as (n & -> & _). cbn [mbind result_bind]. destruct (_ <? _)%nat; [by left|].
  destruct (take_drop_split 5 b H5) as (a & hs & -> & Ha & _ & _). rewrite slice_from_app by done. cbn [mbind result_bind].
  apply found_shift; [done|]. apply from_handshake_found. rewrite str_length_app in Hn. lia.
Qed.
(** The name comes after the header of the record. *)
Lemma index_after_header b s : IndexTLSServerName b = Ok (Some s) -> (5 <= sname_Index s)%nat.
Proof.
  unfold IndexTLSServerName. destruct (_ <? _)%nat; [done|]. destruct (byte_at b 0) as [ty| |]; cbn [mbind result_bind]; [|done|done].
  destruct (negb _); [done|]. destruct (u16_at b 3) as [n| |]; cbn [mbind result_bind]; [|done|done]. destruct (_ <? _)%nat; [done|].
  destruct (slice_from b _) as [hs| |]; cbn [mbind result_bind]; [|done|done].
  destruct (indexTLSServerNameFromHandshake hs) as [[s'|]| |]; cbn [mbind result_bind option_map]; [|done|done|done].
  intros [= <-]. cbn [shift_index sname_Index]. unfold recordLayerHeaderLen. lia.
Qed.

(** ** The points of the split *)

Fixpoint ascending (from : nat) (l : list nat) (to : nat) : Prop :=
  match l with [] => (from <= to)%nat | x :: l => (from <= x)%nat /\ ascending x l to end.
Lemma ascending_le from l to : ascending from l to -> (from <= to)%nat.
Proof. revert from. induction l as [|x l IH]; intros from; cbn [ascending]; [done|]. intros [H1 H2%IH]. lia. Qed.
Lemma ascending_weaken from from' l to to' : ascending from l to -> (from' <= from)%nat -> (to <= to')%nat -> ascending from' l to'.
Proof. revert from from'. induction l as [|x l IH]; intros from from'; cbn [ascending]; [lia|]. intros [H1 H2] Hf Ht. split; [lia|]. eapply IH; [done|lia|lia]. Qed.

(** The length of the labels with the dots between them. *)
Fixpoint labels_length (l : list string) : nat :=
  match l with [] => 0 | s :: l => String.length s + if nonempty l then S (labels_length l) else labels_length l end.
Lemma split_indexes_ascending splits : forall i rnd idx, split_indexes splits i rnd = Ok idx ->
  ascending i idx (i + labels_length splits) /\ length idx = length splits.
Proof.
  induction splits as [|s splits IH]; intros i rnd idx; cbn [split_indexes labels_length].
  - intros [= <-]. cbn [ascending]. split; [lia|done].
  - unfold Intn. destruct (Nat.eqb_spec (String.length s) 0) as [|Hs]; [done|]. cbn [mbind result_bind].
    set (r := (hd 0%nat rnd mod String.length s)%nat). assert (r < String.length s)%nat as Hr by (by apply Nat.mod_upper_bound).
    destruct (split_indexes splits _ _) as [idx'| |] eqn:E; [|done|done]. cbn [mbind result_bind]. intros [= <-].
    destruct (IH _ _ _ E) as [Ha Hl]. cbn [ascending length]. split; [|by rewrite Hl]. split; [lia|].
    eapply ascending_weaken; [exact Ha|lia|]. destruct (nonempty splits); lia.
Qed.
Lemma str_split_length s : labels_length (str_split "."%char s) = String.length s /\ str_split "."%char s <> [].
Proof.
  induction s as [|c s [IH Hne]]; [done|]. cbn [str_split String.length]. case_bool_decide.
  - cbn [labels_length String.length]. rewrite IH. split; [|done]. by destruct (str_split "."%char s).
  - destruct (str_split "."%char s) as [|x l]; [done|]. cbn [labels_length String.length] in *. split; [|done]. lia.
Qed.
Lemma labels_length_firstn n l : (labels_length (firstn n l) <= labels_length l)%nat.
Proof.
  revert n. induction l as [|s l IH]; intros [|n]; cbn [firstn labels_length]; [lia|lia|lia|]. specialize (IH n).
  destruct l as [|t l], n as [|n]; cbn [firstn nonempty labels_length] in *; lia.
Qed.
Lemma count_dots_splits s : length (str_split "."%char s) = S (count_dots s).
Proof.
  induction s as [|c s IH]; [done|]. cbn [str_split count_dots]. case_bool_decide; cbn [length]; [by rewrite IH|].
  destruct (str_split "."%char s); [done|]. exact IH.
Qed.
(** The points lie in the name, in order, and there is one. *)
Lemma split_points_ascending PublicSuffix s rnd idx : split_points PublicSuffix s rnd = Ok idx ->
  ascending (sname_Index s) idx (sname_Index s + String.length (sname_ServerName s)) /\ idx <> [].
Proof.
  unfold split_points. destruct (str_split_length (sname_ServerName s)) as [Hlen Hne]. pose proof (count_dots_splits (sname_ServerName s)) as Hc.
  set (l := if str_empty _ then _ else _). assert (labels_length l <= String.length (sname_ServerName s))%nat as Hl.
  { unfold l. destruct (str_empty _); [lia|]. rewrite <- Hlen. apply labels_length_firstn. }
  assert (l <> []) as Hl0.
  { unfold l. destruct (str_empty _); [done|]. rewrite Hc. replace (S _ - _)%nat with 1%nat by lia. by destruct (str_split "."%char _). }
  assert (forall k i, split_indexes k i rnd = Ok idx -> k <> [] -> (sname_Index s <= i)%nat ->
    (i + labels_length k <= sname_Index s + String.length (sname_ServerName s))%nat ->
    ascending (sname_Index s) idx (sname_Index s + String.length (sname_ServerName s)) /\ idx <> []) as G.
  { intros k i Hk Hk0 Hi Hb. destruct (split_indexes_ascending _ _ _ _ Hk) as [Ha Hn]. split; [by eapply ascending_weaken|].
    intros ->. by destruct k. }
  destruct l as [|x [|y l]]; [done|intros H; eapply (G [x]); [exact H|done|lia|lia]|].
  case_bool_decide as Hx; [|intros H; eapply (G (x :: y :: l)); [exact H|done|lia|lia]].
  intros H. eapply (G (y :: l)); [exact H|done|lia|]. cbn [labels_length nonempty] in *. lia.
Qed.
(** With a public suffix only the first label is split. *)
Lemma split_points_first PublicSuffix s rnd label rest : PublicSuffix (sname_ServerName s) <> "" ->
  str_split "."%char (sname_ServerName s) = label :: rest -> label <> "" ->
  split_points PublicSuffix s rnd = Ok [(sname_Index s + hd 0 rnd mod String.length label)%nat].
Proof.
  intros Hp E Hl. unfold split_points. unfold str_empty. rewrite bool_decide_eq_false_2 by done. rewrite count_dots_splits.
  replace (S _ - _)%nat with 1%nat by lia. rewrite E. cbn [firstn split_indexes]. unfold Intn.
  destruct label as [|c label]; [done|]. cbn [String.length Nat.eqb mbind result_bind split_indexes]. done.
Qed.

(** ** The parts *)

(** The parts of [b] from the turn [i] on. *)
Fixpoint parts (b : string) (idx : list nat) (turns i : nat) : list string :=
  match turns with
  | O => []
  | S turns => match part b idx i with Ok p => p | _ => "" end :: parts b idx turns (S i)
  end.
Lemma slice_str_concat b from to : (from <= to <= String.length b)%nat -> slice b from to = Ok (str_take (to - from) (str_drop from b)).
Proof. intros [H1 H2]. by apply slice_ok. Qed.
Lemma drop_drop m n s : str_drop m (str_drop n s) = str_drop (n + m) s.
Proof.
  revert s. induction n as [|n IH]; intros s; [by destruct s|]. destruct s as [|c s]; [by destruct m|]. cbn [str_drop Nat.add]. apply IH.
Qed.
Lemma str_concat_cons' c l : str_concat (c :: l) = c +:+ str_concat l.
Proof. done. Qed.
Lemma part_later b pre from tail : ascending from tail (String.length b) ->
  forall turns, turns = length tail ->
  Forall (fun j => is_Ok (part b (pre ++ from :: tail) j)) (seq (S (length pre)) (S turns)) /\
  str_concat (parts b (pre ++ from :: tail) (S turns) (S (length pre))) = str_drop from b.
Proof.
  revert pre from. induction tail as [|to tail IH]; intros pre from Ha turns ->; cbn [length seq parts].
  - cbn [ascending] in Ha. assert (part b (pre ++ [from]) (S (length pre)) = Ok (str_drop from b)) as Ep.
    { unfold part. rewrite list_lookup_middle by done. rewrite lookup_ge_None_2 by (rewrite length_app; cbn [length]; lia). by apply slice_from_ok. }
    split; [constructor; [by rewrite Ep|constructor]|]. by rewrite Ep, str_concat_cons', str_app_nil.
  - destruct Ha as [H1 H2]. pose proof (ascending_le _ _ _ H2) as Hto. destruct (IH (pre ++ [from])%list to H2 (length tail) eq_refl) as [I1 I2].
    rewrite <- app_assoc in I1, I2. cbn [app] in I1, I2. rewrite length_app in I1, I2. cbn [length] in I1, I2. rewrite Nat.add_1_r in I1, I2.
    assert (part b (pre ++ from :: to :: tail) (S (length pre)) = Ok (str_take (to - from) (str_drop from b))) as Ep.
    { unfold part. rewrite list_lookup_middle by done. replace (S (length pre)) with (length (pre ++ [from])%list) by (rewrite length_app; cbn; lia).
      change (pre ++ from :: to :: tail)%list with (pre ++ [from] ++ to :: tail)%list.
      rewrite app_assoc, list_lookup_middle by done. apply slice_str_concat. lia. }
    split.
    + constructor; [by rewrite Ep|exact I1].
    + cbn [parts] in I2. rewrite Ep, str_concat_cons', I2. rewrite <- (str_take_drop (to - from) (str_drop from b)) at 2.
      rewrite drop_drop. by replace (from + (to - from))%nat with to by lia.
Qed.
Lemma parts_all b x tail : ascending x tail (String.length b) ->
  let idx := x :: tail in
  (forall j, (j <= length idx)%nat -> is_Ok (part b idx j)) /\ part b idx 0 = Ok (str_take x b) /\
  str_concat (parts b idx (S (length idx)) 0) = b.
Proof.
  intros Ha idx. pose proof (ascending_le _ _ _ Ha) as Hx. destruct (part_later b [] x tail Ha (length tail) eq_refl) as [H1 H2]. cbn [app length] in H1, H2.
  assert (part b idx 0 = Ok (str_take x b)) as E0.
  { unfold part, idx. rewrite slice_str_concat by lia. rewrite Nat.sub_0_r. by destruct b. }
  split_and!; [|done|].
  - intros [|j] Hj; [by rewrite E0|]. rewrite Forall_forall in H1. apply H1. apply elem_of_seq. unfold idx in Hj. cbn [length] in Hj. lia.
  - unfold idx in *. cbn [length]. change (parts b (x :: tail) (S (S (length tail))) 0)
      with (match part b (x :: tail) 0 with Ok p => p | _ => "" end :: parts b (x :: tail) (S (length tail)) 1).
    rewrite E0, str_concat_cons', H2. apply str_take_drop.
Qed.

(** ** What is written *)

Definition event_data (e : event) : string := match e with WriteAndWaitAck p | ConnWrite p => p | _ => "" end.
Definition written (es : list event) : string := str_concat (map event_data es).
Lemma written_app a b : written (a ++ b)%list = written a +:+ written b.
Proof. unfold written. by rewrite map_app, str_concat_app. Qed.

(** A computation in which nothing fails. *)
Definition runs {A} (m : W A) (es : list event) (a : A) : Prop := m [] = (es, [], Ok a).
Lemma runs_lift {A} (a : A) : runs (w_lift (Ok a)) [] a.
Proof. done. Qed.
Lemma runs_bind {A B} (m : W A) (k : A -> W B) es a es' b : runs m es a -> runs (k a) es' b -> runs (w_bind m k) (es ++ es')%list b.
Proof. unfold runs, w_bind. intros -> ->. done. Qed.
Lemma runs_perform e : runs (perform e) [e] tt.
Proof. done. Qed.
Lemma runs_emit e : runs (emit e) [e] tt.
Proof. done. Qed.

Lemma runs_if (cond : bool) e : runs (if cond then perform e else w_lift (Ok tt)) (if cond then [e] else []) tt.
Proof. by destruct cond. Qed.

Section Parts.
Context (c : FragmentConn) (b : string) (idx : list nat).

Definition payload_at (i : nat) : string :=
  let p := match part b idx i with Ok p => p | _ => "" end in
  if (i =? 0)%nat && fc_splitRecord c then str_drop recordLayerHeaderLen p else p.
Definition encoded (payload : string) : string := if fc_splitRecord c then record_of b payload else payload.
Fixpoint payloads (turns i : nat) : list string :=
  match turns with O => [] | S turns => payload_at i :: payloads turns (S i) end.

Lemma write_parts_runs turns : forall i buffer,
  (forall j, (i <= j < i + turns)%nat -> is_Ok (part b idx j)) ->
  (i = 0%nat -> exists p, part b idx 0 = Ok p /\ (5 <= String.length p)%nat) ->
  exists es buffer', runs (write_parts c b idx turns i buffer) es buffer' /\
    written es = (if fc_splitPacket c then str_concat (map encoded (payloads turns i)) else "") /\
    (fc_splitRecord c = true -> fc_splitPacket c = false -> buffer' = buffer +:+ str_concat (map (record_of b) (payloads turns i))).
Proof.
  induction turns as [|turns IH]; intros i buffer Hok H0; cbn [write_parts payloads map].
  - exists [], buffer. split_and!; [done|by destruct (fc_splitPacket c)|]. intros _ _. by rewrite str_app_nil.
  - assert (exists p, part b idx i = Ok p) as [p Ep].
    { specialize (Hok i ltac:(lia)). destruct (part b idx i); [by eexists|done|done]. }
    assert (payload_at i = if (i =? 0)%nat && fc_splitRecord c then str_drop recordLayerHeaderLen p else p) as Epay by (unfold payload_at; by rewrite Ep).
    assert ((if (i =? 0)%nat && fc_splitRecord c then slice_from p recordLayerHeaderLen else Ok p) = Ok (payload_at i)) as Es.
    { rewrite Epay. destruct (Nat.eqb_spec i 0) as [->|]; [|done]. destruct (fc_splitRecord c); [|done]. cbn [andb].
      destruct (H0 eq_refl) as (p' & E' & Hp). rewrite Ep in E'. injection E' as <-. by apply slice_from_ok. }
    set (payload := payload_at i) in *.
    set (buf1 := if fc_splitRecord c then (if fc_splitPacket c then "" else buffer) +:+ record_of b payload else buffer).
    set (data := if fc_splitRecord c && fc_splitPacket c then buf1 else payload).
    destruct (IH (S i) buf1) as (es & buffer' & Hr & Hw & Hb); [intros j Hj; apply Hok; lia|lia|].
    set (last := (i =? length idx)%nat).
    assert (exists es1, runs (if fc_splitPacket c then if fc_tcpConn c && negb last then perform (WriteAndWaitAck data)
      else w_bind (perform (ConnWrite data)) (fun _ => if last then w_lift (Ok tt) else emit SleepFallback) else w_lift (Ok tt)) es1 tt /\
      written es1 = if fc_splitPacket c then data else "") as (es1 & Hr1 & Hw1).
    { destruct (fc_splitPacket c); [|by exists []]. destruct (fc_tcpConn c && negb last); [exists [WriteAndWaitAck data]; split; [done|apply str_app_nil]|].
      destruct last; eexists; (split; [eapply runs_bind; [apply runs_perform|apply runs_lift || apply runs_emit]|]); cbn; by rewrite ?str_app_nil. }
    exists (es1 ++ es)%list, buffer'. split_and!.
    + unfold runs. rewrite Ep. eapply (runs_bind _ _ []); [apply runs_lift|]. eapply (runs_bind _ _ []); [unfold runs, w_lift; by rewrite Es|].
      eapply runs_bind; [exact Hr1|exact Hr].
    + rewrite written_app, Hw1, Hw. destruct (fc_splitPacket c) eqn:Hsp; [|done]. rewrite str_concat_cons'. f_equal. unfold data, buf1, encoded.
      destruct (fc_splitRecord c); done.
    + intros Hsr Hsp. rewrite (Hb Hsr Hsp), str_concat_cons'. unfold buf1. rewrite Hsr, Hsp. by rewrite str_app_assoc.
Qed.
End Parts.

(** ** What is received *)

(** The records of a stream: the type and version, and the payload of each. *)
Fixpoint read_records_go (fuel : nat) (s : string) : option (list (string * string)) :=
  if str_empty s then Some []
  else match fuel with
    | O => None
    | S f =>
        if (String.length s <? 5)%nat then None
        else
          let n := N.to_nat (be_val (str_take 2 (str_drop 3 s))) in
          if (String.length s <? 5 + n)%nat then None
          else rest ← read_records_go f (str_drop (5 + n) s); Some ((str_take 3 s, str_take n (str_drop 5 s)) :: rest)
    end.
Definition read_records (s : string) : option (list (string * string)) := read_records_go (String.length s) s.

Lemma record_length b p : (3 <= String.length b)%nat -> String.length (record_of b p) = (5 + String.length p)%nat.
Proof. intros H. unfold record_of. rewrite !str_length_app, be_bytes_length, take_length. lia. Qed.
Lemma read_records_records b ps : forall fuel, (3 <= String.length b)%nat -> Forall (fun p => N.of_nat (String.length p) < 65536)%N ps -> (length ps <= fuel)%nat ->
  read_records_go fuel (str_concat (map (record_of b) ps)) = Some (map (pair (str_take 3 b)) ps).
Proof.
  induction ps as [|p ps IH]; intros fuel Hb Hps Hf; [by destruct fuel|]. apply Forall_cons in Hps as [Hp Hps]. cbn [length] in Hf.
  destruct fuel as [|fuel]; [lia|]. cbn [map]. rewrite str_concat_cons'. set (tail := str_concat (map (record_of b) ps)).
  assert (String.length (str_take 3 b) = 3)%nat as H3 by (rewrite take_length; lia).
  pose proof (record_length b p Hb) as Hl. cbn [read_records_go].
  assert (str_empty (record_of b p +:+ tail) = false) as ->.
  { destruct (str_empty _) eqn:E; [|done]. unfold str_empty in E. apply bool_decide_eq_true in E. apply (f_equal String.length) in E.
    rewrite str_length_app, Hl in E. cbn in E. lia. }
  rewrite str_length_app, Hl. rewrite (proj2 (Nat.ltb_ge _ 5)) by lia. unfold record_of. rewrite N.mod_small by done. rewrite !str_app_assoc.
  rewrite (str_drop_app 3), (str_take_app 3), (str_take_app 2) by (done || apply be_bytes_length). rewrite be_roundtrip by exact Hp. rewrite Nat2N.id.
  rewrite (proj2 (Nat.ltb_ge _ (5 + _))) by lia.
  assert (str_take 3 b +:+ be_bytes 2 (N.of_nat (String.length p)) +:+ p +:+ tail = (str_take 3 b +:+ be_bytes 2 (N.of_nat (String.length p))) +:+ p +:+ tail) as ->
    by (by rewrite str_app_assoc).
  rewrite (str_drop_app 5) by (rewrite str_length_app, H3, be_bytes_length; done). rewrite str_take_app by done.
  rewrite <- str_app_assoc, str_drop_app by (rewrite !str_length_app, H3, be_bytes_length; lia). unfold tail. rewrite IH by (done || lia). done.
Qed.
Lemma records_count b ps : (3 <= String.length b)%nat -> (length ps <= String.length (str_concat (map (record_of b) ps)))%nat.
Proof.
  intros Hb. induction ps as [|p ps IH]; [done|]. cbn [map length]. rewrite str_concat_cons', str_length_app, record_length by done. lia.
Qed.

(** What the peer gets of a write of [b]: the bytes of [b], or records of the same type and version as [b] with the same payload. *)
Definition delivers (b data : string) : Prop :=
  data = b \/ exists payloads, read_records data = Some (map (pair (str_take 3 b)) payloads) /\ str_concat payloads = str_drop 5 b.

Section Concat.
Context (c : FragmentConn) (b : string).
Lemma payloads_later idx turns : forall i, (0 < i)%nat -> payloads c b idx turns i = parts b idx turns i.
Proof.
  induction turns as [|turns IH]; intros i Hi; [done|]. cbn [payloads parts]. rewrite IH by lia. f_equal. unfold payload_at.
  destruct i; [lia|done].
Qed.
Lemma payloads_concat x tail : ascending x tail (String.length b) -> (5 <= x)%nat ->
  str_concat (payloads c b (x :: tail) (S (length (x :: tail))) 0) = if fc_splitRecord c then str_drop 5 b else b.
Proof.
  intros Ha Hx. pose proof (ascending_le _ _ _ Ha) as Hb. destruct (parts_all b x tail Ha) as (_ & E0 & Hc). set (idx := x :: tail) in *.
  change (payloads c b idx (S (length idx)) 0) with (payload_at c b idx 0 :: payloads c b idx (length idx) 1). rewrite payloads_later by lia.
  change (parts b idx (S (length idx)) 0) with (match part b idx 0 with Ok p => p | _ => "" end :: parts b idx (length idx) 1) in Hc.
  unfold payload_at. rewrite E0 in Hc |- *. cbn [Nat.eqb andb]. rewrite str_concat_cons' in Hc |- *.
  destruct (fc_splitRecord c); [|done]. transitivity (str_drop 5 (str_take x b +:+ str_concat (parts b idx (length idx) 1))); [|by rewrite Hc].
  rewrite drop_prefix; [done|]. rewrite take_length. lia.
Qed.
End Concat.
Lemma concat_lengths ps : Forall (fun p => String.length p <= String.length (str_concat ps))%nat ps.
Proof.
  induction ps as [|p ps IH]; [done|]. constructor; rewrite str_concat_cons', str_length_app; [lia|].
  eapply Forall_impl; [exact IH|]. intros q Hq. cbn beta in *. lia.
Qed.

(** ** The first write *)

Lemma split_indexes_cases splits : forall i rnd, (exists idx, split_indexes splits i rnd = Ok idx) \/
  (split_indexes splits i rnd = Panic intn_panic /\ "" ∈ splits).
Proof.
  induction splits as [|s splits IH]; intros i rnd; cbn [split_indexes]; [left; by eexists|]. unfold Intn.
  destruct (Nat.eqb_spec (String.length s) 0) as [H|]; cbn [mbind result_bind].
  - right. split; [done|]. destruct s; [set_solver|done].
  - destruct (IH (i + String.length s + (if nonempty splits then 1 else 0))%nat (tl rnd)) as [[idx ->]|[-> Hin]]; cbn [mbind result_bind]; [left; by eexists|].
    right. split; [done|]. set_solver.
Qed.
Lemma split_points_cases PublicSuffix s rnd : (exists idx, split_points PublicSuffix s rnd = Ok idx) \/
  (split_points PublicSuffix s rnd = Panic intn_panic /\ "" ∈ str_split "."%char (sname_ServerName s)).
Proof.
  unfold split_points. set (l := if str_empty _ then _ else _).
  assert (forall x, x ∈ l -> x ∈ str_split "."%char (sname_ServerName s)) as Hl.
  { unfold l. destruct (str_empty _); [done|]. intros x. apply subseteq_take. }
  assert (forall k i, (forall x, x ∈ k -> x ∈ l) -> (exists idx, split_indexes k i rnd = Ok idx) \/
    (split_indexes k i rnd = Panic intn_panic /\ "" ∈ str_split "."%char (sname_ServerName s))) as G.
  { intros k i Hk. destruct (split_indexes_cases k i rnd) as [?|[E H]]; [by left|right]. auto. }
  destruct l as [|x [|y l]]; [by apply G|by apply G|]. destruct (bool_decide _); apply G; cbn [tl]; set_solver.
Qed.

Section FirstWrite.
Variable PublicSuffix : string -> string.

Lemma write_fragmented_runs c b s rnd idx : (N.of_nat (String.length b) < 65536)%N -> IndexTLSServerName b = Ok (Some s) ->
  split_points PublicSuffix s rnd = Ok idx -> fc_splitPacket c || fc_splitRecord c = true ->
  exists es, runs (write_fragmented PublicSuffix c b s rnd) es (String.length b) /\ delivers b (written es).
Proof.
  intros Hb Hi Hs Hflags. destruct (split_points_ascending _ _ _ _ Hs) as [Ha Hne]. pose proof (index_after_header _ _ Hi) as H5.
  destruct (index_found b Hb) as [E|(s' & E & front & back & Hn & Hf)]; [by rewrite Hi in E|]. rewrite Hi in E. injection E as <-.
  assert (sname_Index s + String.length (sname_ServerName s) <= String.length b)%nat as Hend by (rewrite Hn, !str_length_app; lia).
  destruct idx as [|x tail]; [done|]. destruct Ha as [Hx Ha'].
  assert (ascending x tail (String.length b)) as Ha by (eapply ascending_weaken; [exact Ha'|lia|exact Hend]).
  pose proof (ascending_le _ _ _ Ha) as Hxb. destruct (parts_all b x tail Ha) as (Hall & E0 & _). set (idx := x :: tail) in *.
  destruct (write_parts_runs c b idx (S (length idx)) 0 "") as (es & buffer & Hr & Hw & Hbuf).
  { intros j Hj. apply Hall. lia. } { intros _. eexists. split; [exact E0|]. rewrite take_length. lia. }
  set (ps := payloads c b idx (S (length idx)) 0) in *. assert (str_concat ps = if fc_splitRecord c then str_drop 5 b else b) as Hps by (apply payloads_concat; [done|lia]).
  assert (fc_splitRecord c = true -> delivers b (str_concat (map (record_of b) ps))) as Hrec.
  { intros Hsr. rewrite Hsr in Hps. right. exists ps. split; [|done]. apply read_records_records; [lia| |apply records_count; lia].
    eapply Forall_impl; [apply concat_lengths|]. intros q Hq. cbn beta in *. rewrite Hps, str_length_drop in Hq. lia. }
  eexists. split.
  - unfold write_fragmented. eapply runs_bind; [apply runs_if|]. eapply (runs_bind _ _ []); [unfold runs, w_lift; by rewrite Hs|].
    eapply runs_bind; [exact Hr|]. eapply runs_bind; [apply runs_if|]. eapply runs_bind; [apply runs_if|]. apply runs_lift.
  - rewrite !written_app, Hw. cbn [app]. change (written []) with "". rewrite str_app_nil.
    assert (forall (cond : bool) n, written (if cond then [SetNoDelay n] else []) = "") as Hno by (by intros [] n).
    assert (forall t, "" +:+ t = t) as Hnil by done. rewrite !Hno, !Hnil, str_app_nil. destruct (fc_splitPacket c) eqn:Hsp; cbn [negb].
    + rewrite andb_false_r. change (written []) with "". rewrite str_app_nil. unfold encoded. destruct (fc_splitRecord c) eqn:Hsr; [by apply Hrec|].
      left. transitivity (str_concat ps); [by rewrite map_id|done].
    + cbn [orb] in Hflags. rewrite Hflags in *. cbn [andb]. change (written [ConnWrite buffer]) with (buffer +:+ ""). rewrite str_app_nil, (Hbuf eq_refl eq_refl), !Hnil.
      by apply Hrec.
Qed.

(** C16: splitting the first write is invisible to the peer.  For any first write of less than 64 KiB, where no call fails: [Write] returns its length and marks the
    connection, and what is written is the data itself or, when records are split, records of the same type and version whose
    payloads make up the payload of the data.  The only other outcome is the panic of [rand.Intn] for a server name with an empty label. *)
Theorem fragment_write c b rnd : (N.of_nat (String.length b) < 65536)%N -> fc_splitPacket c || fc_splitRecord c = true ->
  let '(c', w) := Conn_Write PublicSuffix c b rnd in
  fc_firstPacketWritten c' = true /\
  ((exists es, runs w es (String.length b) /\ delivers b (written es)) \/
   (exists s es o, IndexTLSServerName b = Ok (Some s) /\ "" ∈ str_split "."%char (sname_ServerName s) /\ w [] = (es, o, Panic intn_panic))).
Proof.
  intros Hb Hflags. unfold Conn_Write.
  assert (exists es, runs (plain_write b) es (String.length b) /\ delivers b (written es)) as Hplain.
  { exists [ConnWrite b]. split; [done|]. left. apply str_app_nil. }
  destruct (fc_firstPacketWritten c) eqn:Hw; [split; [done|by left]|]. split; [done|].
  destruct (index_found b Hb) as [E|(s & E & _)]; rewrite E.
  - left. destruct Hplain as (es & Hr & Hd). exists es. split; [|done]. by eapply (runs_bind _ _ []).
  - destruct (split_points_cases PublicSuffix s rnd) as [[idx Hs]|[Hs Hin]].
    + left. destruct (write_fragmented_runs c b s rnd idx Hb E Hs Hflags) as (es & Hr & Hd). exists es. split; [|done]. by eapply (runs_bind _ _ []).
    + right. unfold write_fragmented. destruct (fc_splitPacket c && fc_tcpConn c); eexists s, _, _; (split; [done|]; split; [done|]);
        unfold w_bind, w_lift, perform; rewrite Hs; reflexivity.
Qed.
End FirstWrite.

(** ** Failures *)

(** The calls among events: those that may fail. *)
Definition is_call (e : event) : bool := match e with SleepFallback => false | _ => true end.
Definition calls (es : list event) : nat := length (List.filter is_call es).
Lemma calls_app a b : calls (a ++ b)%list = (calls a + calls b)%nat.
Proof. unfold calls. by rewrite List.filter_app, length_app. Qed.
(** With the outcomes [o] of the calls: all calls succeed and all is as without failures, or the last call is the first to fail, its
    error is returned, and the events are a front of those without failures. *)
Definition stops_at {A} (o : list (option error)) (es0 es : list event) (r0 r : result A) : Prop :=
  (es = es0 /\ r = r0 /\ Forall (eq None) (take (calls es) o)) \/
  (es `prefix_of` es0 /\ exists e k, calls es = S k /\ Forall (eq None) (take k o) /\ o !! k = Some (Some e) /\ r = Err e).
Definition stops {A} (m : W A) : Prop := forall o,
  let '(es0, o0, r0) := m [] in
  let '(es, o', r) := m o in
  o0 = [] /\ o' = drop (calls es) o /\ stops_at o es0 es r0 r.

Lemma take_drop_app {A} m n (l : list A) : take (m + n) l = (take m l ++ take n (drop m l))%list.
Proof. revert l. induction m as [|m IH]; intros [|x l]; cbn; rewrite ?take_nil; f_equal; auto. Qed.
Lemma stops_lift {A} (r : result A) : stops (w_lift r).
Proof. intros o. cbn. split_and!; [done|done|left; split_and!; [done..|constructor]]. Qed.
Lemma stops_emit e : is_call e = false -> stops (emit e).
Proof. intros He o. cbn. unfold stops_at, calls. cbn [List.filter]. rewrite He. split_and!; [done|done|left; split_and!; [done..|constructor]]. Qed.
Lemma stops_perform e : is_call e = true -> stops (perform e).
Proof.
  intros He o. cbn. unfold stops_at, calls. cbn [List.filter]. rewrite He. cbn [length]. destruct o as [|[err|] o]; (split_and!; [done|done|]).
  - left. split_and!; [done|done|constructor].
  - right. split; [done|]. exists err, 0%nat. split_and!; [done|constructor|done|done].
  - left. split_and!; [done|done|]. by repeat constructor.
Qed.
Lemma stops_bind {A B} (m : W A) (k : A -> W B) : stops m -> (forall a, stops (k a)) -> stops (w_bind m k).
Proof.
  intros Hm Hk o. specialize (Hm o). unfold w_bind. destruct (m []) as [[es0 o0] r0], (m o) as [[es o'] r]. destruct Hm as (-> & -> & Hm).
  destruct Hm as [(-> & -> & Hn)|(Hp & e & i & Hc & Hn & Ho & ->)].
  - destruct r0 as [a|e|msg]; [|by split_and!; [..|left]|by split_and!; [..|left]].
    specialize (Hk a (drop (calls es0) o)). destruct (k a []) as [[fs0 p0] q0], (k a (drop (calls es0) o)) as [[fs p'] q]. destruct Hk as (-> & -> & Hk).
    unfold stops_at. rewrite list.drop_drop, calls_app. split_and!; [done|done|].
    destruct Hk as [(-> & -> & Hk)|(Hp & e & i & Hc & Hk & Ho & ->)].
    + left. split_and!; [done|done|]. rewrite take_drop_app. by apply Forall_app.
    + right. split; [by apply prefix_app|]. exists e, (calls es0 + i)%nat. rewrite Hc. split_and!; [lia| |by rewrite <- lookup_drop|done].
      rewrite take_drop_app. by apply Forall_app.
  - destruct r0 as [a|e'|msg]; [|split_and!; [done|done|right; eauto 8]|split_and!; [done|done|right; eauto 8]].
    destruct (k a []) as [[fs0 p0] q0] eqn:E. pose proof (Hk a []) as Hk0. rewrite E in Hk0. destruct Hk0 as (-> & _ & _).
    split_and!; [done|done|]. right. split; [by apply prefix_app_r|eauto 8].
Qed.
Create HintDb stops.
#[export] Hint Resolve stops_lift : stops.
#[export] Hint Extern 1 (stops (perform _)) => apply stops_perform; reflexivity : stops.
#[export] Hint Extern 1 (stops (emit _)) => apply stops_emit; reflexivity : stops.
Ltac stop := repeat match goal with
  | |- stops (w_bind _ _) => apply stops_bind; [|intros ?]
  | |- stops (if ?c then _ else _) => destruct c
  | |- stops (match ?x with _ => _ end) => destruct x
  | |- _ => solve [auto with stops]
  end.
Lemma stops_write_parts c b idx turns : forall i buffer, stops (write_parts c b idx turns i buffer).
Proof. induction turns as [|turns IH]; intros i buffer; cbn [write_parts]; cbv zeta; stop. Qed.
#[export] Hint Resolve stops_write_parts : stops.

(** C17: when a call on the connection below fails, the first write stops there.  With any outcomes of the calls, either every call that was made
    succeeded, and the events and the result are those without failures; or the last call made is the first that failed, its error is returned,
    and what was done is a front of what is done without failures.  The connection is marked in either case. *)
Theorem fragment_write_fails PublicSuffix c b rnd o :
  let '(c', w) := Conn_Write PublicSuffix c b rnd in
  let '(es0, _, r0) := w [] in
  let '(es, o', r) := w o in
  fc_firstPacketWritten c' = true /\ o' = drop (calls es) o /\ stops_at o es0 es r0 r.
Proof.
  assert (stops (snd (Conn_Write PublicSuffix c b rnd))) as Hs.
  { unfold Conn_Write, write_fragmented, plain_write. destruct (fc_firstPacketWritten c); cbn [snd]; stop. }
  assert (fc_firstPacketWritten (fst (Conn_Write PublicSuffix c b rnd)) = true) as Hf.
  { unfold Conn_Write. destruct (fc_firstPacketWritten c) eqn:E; [exact E|done]. }
  destruct (Conn_Write PublicSuffix c b rnd) as [c' w]. cbn [fst snd] in *. specialize (Hs o). destruct (w []) as [[es0 o0] r0], (w o) as [[es o'] r].
  split; [done|]. apply Hs.
Qed.

(** ** Names in hellos *)

(** The name of a hello that has one, in front of which there is no other. *)
Lemma index_extensions_encoded es : forall fuel i name before after, es = (before ++ ExtServerName name :: after)%list ->
  Forall ext_ok es -> Forall (fun e => ext_type e <> sniExtensionType) before -> (N.of_nat (String.length (encode_exts es)) < 65536)%N -> (length es <= fuel)%nat ->
  exists j, index_extensions fuel i (encode_exts es) = Ok (Some (mkMyServerName j (String.length name) name)).
Proof.
  induction es as [|e es IH]; intros fuel i name before after E Hes Hb Hlen Hf; [by destruct before|].
  apply Forall_cons in Hes as [He Hes]. destruct fuel as [|fuel]; [cbn in Hf; lia|]. cbn [length] in Hf.
  change (encode_exts (e :: es)) with (encode_ext e +:+ encode_exts es) in *.
  rewrite str_length_app, encode_ext_length in Hlen. cbn [index_extensions].
  assert (str_empty (encode_ext e +:+ encode_exts es) = false) as -> by reflexivity.
  assert (String.length (encode_ext e +:+ encode_exts es) = 4 + String.length (ext_body e) + String.length (encode_exts es))%nat as Hl
    by (rewrite str_length_app, encode_ext_length; lia).
  pose proof (ext_type_lt e He) as Hty. pose proof (proj1 He) as Hbody. rewrite Hl.
  rewrite (proj2 (Nat.ltb_ge _ extensionHeaderLen)) by (unfold extensionHeaderLen; lia).
  unfold encode_ext. rewrite !str_app_assoc.
  rewrite u16_at_be by done. cbn [mbind result_bind]. rewrite (u16_at_mid 2) by (done || apply be_bytes_length). cbn [mbind result_bind].
  rewrite Nat2N.id, (proj2 (Nat.ltb_ge _ _)) by (unfold extensionHeaderLen; lia).
  rewrite <- str_app_assoc, (slice_app extensionHeaderLen) by (rewrite ?str_length_app, ?be_bytes_length; reflexivity). cbn [mbind result_bind].
  destruct before as [|e' before]; injection E as -> ->.
  - destruct (server_name_fields name (proj2 He)) as (H1 & H2 & H3 & H4). cbn [ext_type]. change (sniExtensionType =? sniExtensionType)%N with true. cbn iota.
    rewrite H1, H2. cbn [mbind result_bind]. change (negb (0 =? sniNameDNSHostnameType)%N) with false. cbn iota. rewrite H3. cbn [mbind result_bind].
    rewrite H4. cbn [mbind result_bind]. rewrite Nat2N.id. by eexists.
  - apply Forall_cons in Hb as [Hb' Hb]. rewrite (proj2 (N.eqb_neq _ _) Hb').
    rewrite N.mod_small by lia. rewrite <- str_app_assoc, (slice_from_app (N.to_nat _)) by (rewrite !str_length_app, !be_bytes_length; lia).
    cbn [mbind result_bind]. eapply IH; [done|done|done|lia|lia].
Qed.
Lemma slice_from_shift n a b k : String.length a = n -> slice_from (a +:+ b) (n + k) = slice_from b k.
Proof.
  intros <-. unfold slice_from, slice. rewrite str_length_app, !Nat.leb_refl, !andb_true_r, <- drop_drop, str_drop_app by done.
  destruct (Nat.leb_spec k (String.length b)), (Nat.leb_spec (String.length a + k) (String.length a + String.length b)); try lia; [|done].
  do 2 f_equal. lia.
Qed.
Lemma from_extensions_encoded es name before after : es = (before ++ ExtServerName name :: after)%list ->
  Forall ext_ok es -> Forall (fun e => ext_type e <> sniExtensionType) before -> (N.of_nat (String.length (encode_exts es)) < 65536)%N ->
  exists j, indexTLSServerNameFromExtensions (be_bytes 2 (N.of_nat (String.length (encode_exts es))) +:+ encode_exts es) =
    Ok (Some (mkMyServerName j (String.length name) name)).
Proof.
  intros E Hes Hb Hn. unfold indexTLSServerNameFromExtensions. change (str_empty _) with false. cbn iota. rewrite str_length_app, be_bytes_length.
  change (2 + String.length (encode_exts es) <? extensionsHeaderLen)%nat with false. cbn iota.
  rewrite u16_at_be by done. cbn [mbind result_bind]. rewrite slice_from_app by apply be_bytes_length. cbn [mbind result_bind].
  rewrite Nat2N.id, Nat.ltb_irrefl. eapply index_extensions_encoded; [done|done|done|done|]. pose proof (encode_exts_count es). lia.
Qed.
(** The index finds the name of a hello. *)
Lemma index_hello h name before after version : hello_ok h -> h_extensions h = (before ++ ExtServerName name :: after)%list ->
  Forall (fun e => ext_type e <> sniExtensionType) before -> (version < 65536)%N ->
  exists j, IndexTLSServerName (byte 0x16 +:+ be_bytes 2 version +:+ be_bytes 2 (N.of_nat (String.length (encode_hello h))) +:+ encode_hello h) =
    Ok (Some (mkMyServerName j (String.length name) name)).
Proof.
  intros Hok Eh Hb Hv. pose proof (ok_length h Hok) as Hlen.
  destruct (hello_fields h Hok) as (F0 & F1 & F2 & F3 & F4 & F38). destruct (suites_fields h Hok) as (S0 & _ & S2 & S3).
  destruct (version_ok _ (ok_version h Hok)) as [Hv' _]. pose proof (encode_body_length h Hok) as Lb. pose proof (encode_suites_length h) as Ls.
  pose proof (encode_tail_length h) as Lt. pose proof (encode_hello_length h) as Lh.
  assert (exists j, indexTLSServerNameFromHandshake (encode_hello h) = Ok (Some (mkMyServerName j (String.length name) name))) as [j Ej].
  { unfold indexTLSServerNameFromHandshake. cbv zeta. long_enough. rewrite F0. cbn [mbind result_bind]. change (negb (1 =? handshakeType)%N) with false. cbn iota.
    rewrite F1, F2, F3. cbn [mbind result_bind]. rewrite N.mul_0_l, N.add_0_l, (N.mul_comm (_ / _)), <- N.div_mod, Nat2N.id by done.
    replace (String.length (encode_hello h) - 4)%nat with (String.length (encode_body h)) by lia. rewrite Nat.eqb_refl. cbn [negb].
    rewrite F4. cbn [mbind result_bind]. rewrite Hv'. cbn [negb]. rewrite F38. cbn [mbind result_bind]. rewrite Nat2N.id. long_enough.
    rewrite encode_hello_front, slice_from_app by (by rewrite hello_front_length). cbn [mbind result_bind]. long_enough.
    rewrite S0. cbn [mbind result_bind]. long_enough. rewrite S2. cbn [mbind result_bind]. rewrite Nat2N.id.
    rewrite str_length_app, hello_front_length by done. long_enough.
    rewrite slice_from_shift by (by rewrite hello_front_length). rewrite S3. cbn [mbind result_bind].
    destruct (from_extensions_encoded (h_extensions h) name before after) as [j ->]; [done|apply ok_extensions, Hok|done|lia|].
    cbn [mbind result_bind option_map shift_index]. by eexists. }
  unfold IndexTLSServerName. rewrite !str_length_app, !be_bytes_length. change (String.length (byte 22)) with 1%nat.
  rewrite (proj2 (Nat.ltb_ge _ _)) by (unfold recordLayerHeaderLen; lia).
  rewrite byte_at_byte. cbn [mbind result_bind]. change (negb (22 mod 256 =? contentType)%N) with false. cbn iota.
  rewrite <- (str_app_assoc (byte 22)), (u16_at_mid 3) by done. cbn [mbind result_bind]. rewrite Nat2N.id.
  rewrite (proj2 (Nat.ltb_ge _ _)) by (unfold recordLayerHeaderLen; lia).
  rewrite <- str_app_assoc, (slice_from_app recordLayerHeaderLen) by done. cbn [mbind result_bind]. rewrite Ej. by eexists.
Qed.

(** ** Where it fails *)

(** An empty server name is not split: it panics. *)
Lemma empty_name_panics PublicSuffix i n rnd : split_points PublicSuffix (mkMyServerName i n "") rnd = Panic intn_panic.
Proof. unfold split_points. cbn [sname_ServerName]. destruct (str_empty _); reflexivity. Qed.
(** With a public suffix there is one cut, in the first label; the number 0 of [rand.Intn] puts it before the name, which stays whole. *)
Lemma name_left_whole PublicSuffix s label rest : PublicSuffix (sname_ServerName s) <> "" ->
  str_split "."%char (sname_ServerName s) = label :: rest -> label <> "" -> split_points PublicSuffix s [0%nat] = Ok [sname_Index s].
Proof.
  intros H1 H2 H3. rewrite (split_points_first _ _ _ label rest) by done. cbn [hd]. rewrite Nat.Div0.mod_0_l. by rewrite Nat.add_0_r.
Qed.
