(* ===== verification/SniffSample.v ===== *)
(** * SniffSample: a client hello for example.com, in pieces

    The theorems on the sniffers at concrete inputs, with stand-ins for the primitives of cryptography; and inputs on which the
    sniffers and the parser of hellos do not do what they are for. *)

From S2P Require Import Prelude GoStd NetIP DNSMessage Metadata RuleItems RuleMatch RuleAction Sniff.
From S2P Require Import FakeIP FakeIPCodec GoIO SniffBasic SniffLaws JA3 JA3Laws QUIC QUICLaws QUICFrames QUICPacket SniffDriver Sample.
From S2P Require Import TLSFragment TLSFragmentLaws.
Open Scope string_scope.

(** ** Data *)

Definition sample_hello : hello := mkHello 0x0303 (be_bytes 32 0x1234) "" [0x1301; 0x1302; 0x1303]%N (byte 0)
  [ExtServerName "example.com"; ExtGroups [29; 23]%N; ExtPointFormats [0]%N; ExtVersions [0x0304]%N; ExtSignatures [0x0403; 0x0804]%N;
   ExtOther 16 "h3"].
Lemma sample_hello_ok : hello_ok sample_hello.
Proof.
  constructor; cbn [sample_hello h_version h_random h_session h_suites h_compress h_extensions].
  - set_solver.
  - by rewrite be_bytes_length.
  - done.
  - by repeat constructor.
  - done.
  - done.
  - repeat constructor; try done. set_solver.
  - vm_compute. done.
Qed.

Lemma stream_sniffers_stable_witness (L := Build_SniffLibrary (fun _ => Err io_EOF) (fun _ => Err io_EOF) (fun s => s) (fun _ => (None, None))) :
  stable (sniff_RDP SniffInfo_zero) /\ is_Ok (sniff_SSH SniffInfo_zero "SSH-2.0-OpenSSH_9") = true.
Proof.
  destruct (stream_sniffers_stable (L := L) SniffInfo_zero ltac:(done)) as (_ & H & _). split; [exact H|]. vm_compute. reflexivity.
Defined.
Lemma ja3_hello_roundtrip_witness :
  ja3_Compute (byte 0x16 +:+ be_bytes 2 0x0301 +:+ be_bytes 2 (N.of_nat (String.length (encode_hello sample_hello))) +:+ encode_hello sample_hello +:+ "rest") =
    Ok (mkClientHello 0x0303 [0x1301; 0x1302; 0x1303] [0; 10; 11; 43; 13; 16] [29; 23] [0] [0x0304] [0x0403; 0x0804] "example.com")%N.
Proof. rewrite (ja3_hello_roundtrip sample_hello 0x0301 "rest" sample_hello_ok ltac:(set_solver)). vm_compute. reflexivity. Defined.

(** A hello whose list of versions is announced and not there. *)
Definition short_hello : hello := mkHello 0x0303 (be_bytes 32 0x1234) "" [0x1301]%N (byte 0) [ExtOther 43 (byte 2)].
Definition short_segment : string :=
  byte 0x16 +:+ be_bytes 2 0x0303 +:+ be_bytes 2 (N.of_nat (String.length (encode_hello short_hello))) +:+ encode_hello short_hello.
Lemma ja3_ends_witness : exists m, ja3_Compute short_segment = Panic m /\ m = index_panic.
Proof.
  assert (ja3_Compute short_segment = Panic index_panic) as H by (vm_compute; reflexivity). exists index_panic.
  split; [exact H|]. exact (ja3_ends _ _ H).
Defined.

(** ** Three datagrams *)

#[export] Instance sample_crypto : QUICCrypto := {|
  hkdf_Extract := fun secret salt => salt +:+ secret;
  hkdf_Expand := fun secret info n => str_take n (info +:+ secret +:+ be_bytes n 0);
  aes_Encrypt := fun key block => str_take 16 (key +:+ block +:+ be_bytes 16 0);
  gcm_Open := fun key nonce data ad =>
    let n := (String.length data - 16)%nat in
    if bool_decide (str_drop n data = str_take 16 (nonce +:+ ad +:+ be_bytes 16 0)) then Ok (str_take n data) else Err os_ErrInvalid
|}.
#[export] Instance sample_seal : QUICSeal.
Proof.
  refine {| gcm_Seal := fun key nonce plain ad => plain +:+ str_take 16 (nonce +:+ ad +:+ be_bytes 16 0) |}.
  - intros key nonce plain ad. assert (String.length (str_take 16 (nonce +:+ ad +:+ be_bytes 16 0)) = 16)%nat as H
      by (rewrite take_length, !str_length_app, be_bytes_length; lia).
    unfold gcm_Open, sample_crypto. cbv zeta. rewrite str_length_app, H, Nat.add_sub.
    rewrite (str_drop_app (String.length plain)), (str_take_app (String.length plain)) by done. by rewrite bool_decide_eq_true_2.
  - intros key nonce plain ad. rewrite str_length_app, take_length, !str_length_app, be_bytes_length. lia.
  - intros key block. unfold aes_Encrypt, sample_crypto. rewrite take_length, !str_length_app, be_bytes_length. lia.
  - intros secret info n. unfold hkdf_Expand, sample_crypto. rewrite take_length, !str_length_app, be_bytes_length. lia.
Defined.

Definition sample_chunks : list string :=
  let s := encode_hello sample_hello in [str_take 10 s; str_take 30 (str_drop 10 s); str_drop 40 s].
Definition sample_piece (i : nat) : frame :=
  match fragments_of 0 sample_chunks !! i with Some f => Crypto (fr_offset f) (fr_payload f) | None => Padding end.
Definition sample_datagram (version pn : N) (fs : list frame) : datagram :=
  mkDatagram (mkInitial version "destination" "source" "" pn 2 (encode_frames fs)) fs "next packet".
Definition sample_before : list datagram :=
  [sample_datagram Version1 0 [Padding; sample_piece 2; Ping]; sample_datagram Version1 1 [Ack 0 3 0 [] None; Padding]].
Definition sample_last : datagram := sample_datagram Version1 300 [sample_piece 1; sample_piece 0; Padding].

Lemma sample_datagram_ok version pn fs : version ∈ [VersionDraft29; Version1; Version2] -> (pn < 65536)%N -> Forall frame_ok fs ->
  (2 <= String.length (encode_frames fs))%nat -> (len (encode_frames fs) < 65536)%N -> datagram_ok (sample_datagram version pn fs).
Proof.
  intros Hv Hpn Hf H2 Hl. split_and!; [|done|done]. constructor; cbn [sample_datagram dg_packet ip_version ip_dcid ip_scid ip_token ip_pn ip_pn_length ip_plain].
  - done.
  - cbn. lia.
  - cbn. lia.
  - done.
  - lia.
  - exact Hpn.
  - lia.
  - unfold small. change (2 ^ 62)%N with 4611686018427387904%N. lia.
Qed.
Lemma sample_datagrams_ok : Forall datagram_ok (sample_before ++ [sample_last]).
Proof.
  repeat constructor; apply sample_datagram_ok; try set_solver; try (vm_compute; done); try (vm_compute; lia).
  all: repeat constructor; vm_compute; try done; repeat constructor.
Qed.

Lemma sample_chunks_ok : Forall (fun c => c <> "") sample_chunks /\ str_concat sample_chunks = encode_hello sample_hello.
Proof. split; [repeat constructor; vm_compute; done|]. vm_compute. reflexivity. Qed.
Lemma sample_fragments_ok :
  (concat (map dg_fragments (sample_before ++ [sample_last])) ≡ₚ fragments_of 0 sample_chunks)%list /\ dg_fragments sample_last <> [].
Proof.
  split; [|by vm_compute]. replace (concat _) with (rev (fragments_of 0 sample_chunks)) by (vm_compute; reflexivity). apply Permutation_rev.
Qed.
Lemma quic_server_name_witness : exists answers metadata,
  sniff_datagrams 3 (map dg_bytes (sample_before ++ [sample_last])%list) SniffInfo_zero None = Ok (answers ++ [None], metadata, None)%list /\
  length answers = 2%nat /\ sn_Domain metadata = "example.com".
Proof.
  destruct (quic_server_name sample_hello sample_chunks 3 sample_before sample_last SniffInfo_zero) as (answers & m & H1 & H2 & _ & _ & H3).
  - exact sample_hello_ok.
  - apply sample_chunks_ok.
  - apply sample_chunks_ok.
  - cbn. lia.
  - exact sample_datagrams_ok.
  - apply sample_fragments_ok.
  - apply sample_fragments_ok.
  - exists answers, m. split; [exact H1|]. split; [exact H2|]. rewrite H3. vm_compute. reflexivity.
Defined.

(** ** The sniff action *)

Definition example_server : Addr := Addr4 (93 * 2 ^ 24 + 184 * 2 ^ 16 + 216 * 2 ^ 8 + 34).
#[local] Existing Instance sample.
#[local] Instance no_library : SniffLibrary := Build_SniffLibrary (fun _ => Err io_EOF) (fun _ => Err io_EOF) (fun s => s) (fun _ => (None, None)).
Definition sample_join (l : list error) : option error := match l with [] => None | e :: l => Some (foldl EJoin e l) end.
Lemma sample_join_is l : is_error (sample_join l) ErrNeedMoreData = existsb (fun e => errors_Is e ErrNeedMoreData) l.
Proof.
  destruct l as [|e l]; [done|]. cbn [sample_join is_error existsb]. revert e. induction l as [|e' l IH]; intros e; cbn [foldl existsb].
  - by rewrite orb_false_r.
  - rewrite IH, orb_assoc. done.
Qed.
Definition sample_packets : list PacketBuffer :=
  map (fun d => mkPacketBuffer (dg_bytes d) (mkSocksaddr example_server 443 "")) (sample_before ++ [sample_last]).
Definition sample_state : mstate (S := go_sniffers sample_join 3) :=
  mkMState (S := go_sniffers sample_join 3) (sample_context "" example_server 443) None [] (map PacketOk sample_packets ++ [PacketFailed io_EOF])%list [] [].

Lemma sniff_action_finds_quic_witness : exists st,
  actionSniff (S := go_sniffers sample_join 3) false true (mkSniff [] [] [] 0 true) [] [] sample_state = (mkSniffResult None sample_packets None, st) /\
  sn_Domain (md_sniff (ms_md st)) = "example.com" /\ md_Destination (ms_md st) = mkSocksaddr AddrNone 443 "example.com".
Proof.
  destruct (sniff_action_finds_quic sample_join 3 sample_hello sample_chunks sample_before sample_last (mkSniff [] [] [] 0 true) [] sample_packets
    [PacketFailed io_EOF] sample_state) as (st & H1 & _ & H2 & _ & _ & H3).
  - exact sample_join_is.
  - exact sample_hello_ok.
  - apply sample_chunks_ok.
  - apply sample_chunks_ok.
  - cbn. lia.
  - exact sample_datagrams_ok.
  - unfold sample_packets. rewrite map_map. reflexivity.
  - apply sample_fragments_ok.
  - apply sample_fragments_ok.
  - reflexivity.
  - reflexivity.
  - intros packet _. by eexists.
  - reflexivity.
  - reflexivity.
  - reflexivity.
  - reflexivity.
  - reflexivity.
  - exists st. split; [exact H1|]. rewrite H2, H3. split; vm_compute; reflexivity.
Defined.

(** ** A fragmented hello *)

Definition sample_record : string :=
  byte 0x16 +:+ be_bytes 2 0x0301 +:+ be_bytes 2 (N.of_nat (String.length (encode_hello sample_hello))) +:+ encode_hello sample_hello.
Definition last_label (domain : string) : string := List.last (str_split "."%char domain) "".
(** Split into records and packets, with a cut after [exa]. *)
Definition sample_write : FragmentConn * W nat := Conn_Write last_label (mkFragmentConn true false true true) sample_record [3%nat].
Lemma fragment_write_witness :
  fc_firstPacketWritten (fst sample_write) = true /\
  exists es, runs (snd sample_write) es (String.length sample_record) /\ delivers sample_record (written es) /\ length es = 4%nat.
Proof.
  pose proof (fragment_write last_label (mkFragmentConn true false true true) sample_record [3%nat] ltac:(vm_compute; reflexivity) eq_refl) as H.
  change (Conn_Write last_label (mkFragmentConn true false true true) sample_record [3%nat]) with sample_write in H.
  destruct sample_write as [c w] eqn:E. destruct H as [H1 H2]. split; [exact H1|].
  assert (w = snd sample_write) as -> by (by rewrite E). destruct H2 as [(es & Hr & Hd)|(s & es & o & _ & _ & Hp)].
  - exists es. split; [exact Hr|]. split; [exact Hd|].
    assert (length (fst (fst (snd sample_write []))) = 4%nat) as Hl by (vm_compute; reflexivity). unfold runs in Hr. rewrite Hr in Hl. exact Hl.
  - exfalso. assert (is_Ok (snd (snd sample_write [])) = true) as Ho by (vm_compute; reflexivity). rewrite Hp in Ho. done.
Defined.

(** * Where the sniffers fail *)

(** ** QUIC *)

(** An empty fragment where the data ends: the loop [find] finds it again and again, whatever the fuel. *)
Lemma empty_fragment_loops fragments i f : find_fragment i fragments = Some f -> fr_length f = 0%N -> (i < 2 ^ 64)%N ->
  forall fuel, assemble fuel fragments i = Panic "out of fuel".
Proof.
  intros Hf Hl Hi. induction fuel as [|k IH]; cbn [assemble]; rewrite Hf; [done|].
  destruct (find_fragment_some _ _ _ Hf) as [_ ->]. rewrite Hl, N.add_0_r, N.mod_small, IH by done. done.
Qed.
(** A packet with an empty CRYPTO frame at the start of the stream does not end, whatever is known. *)
Lemma empty_crypto_frame_loops types new metadata context fuel :
  quic_hello fuel types (mkFragment 0 0 "" :: new) metadata context = Panic "out of fuel".
Proof.
  unfold quic_hello, hello_record. cbn [app].
  rewrite (empty_fragment_loops _ 0 (mkFragment 0 0 "")) by done. done.
Qed.

(** A piece that was received twice: its length counts twice, and no packet completes the hello. *)
Lemma retransmission_missed h chunks fuel types new metadata context dups :
  hello_ok h -> Forall (fun c => c <> "") chunks -> str_concat chunks = encode_hello h -> (length chunks <= fuel)%nat ->
  (new ++ default [] context ≡ₚ fragments_of 0 chunks ++ dups)%list -> dups <> [] -> dups ⊆ fragments_of 0 chunks ->
  (total (new ++ default [] context)%list < 65536)%N ->
  exists answer metadata' context', quic_hello fuel types new metadata context = Ok (answer, metadata', context') /\ asks_more answer.
Proof.
  intros Hok Hne Hcut Hfuel Hp Hd Hsub Ht. pose proof (ok_length h Hok) as Hlen. fold (len (encode_hello h)) in Hlen.
  unfold quic_hello, hello_record. set (fs := (new ++ default [] context)%list) in *.
  destruct (assemble_some chunks fs Hne) with (post := chunks) (pre := @nil string) (fuel := fuel) as (got & rest & E & Ha & _ & Hr);
    [rewrite Hcut; change (2 ^ 62)%N with 4611686018427387904%N; lia|intros f; rewrite Hp; set_solver|done|done|].
  rewrite (Hr ltac:(intros f; rewrite Hp; set_solver)), app_nil_r in E. subst got. change (len (str_concat [])) with 0%N in Ha. rewrite Ha.
  cbn [mbind result_bind]. unfold frame_len. fold (total fs). rewrite (N.mod_small _ (2 ^ 64)), (N.mod_small _ 65536) by lia.
  assert (len (encode_hello h) < total fs)%N as Hlt.
  { rewrite Hp, total_app, total_fragments_of, Hcut. destruct dups as [|f dups]; [done|].
    pose proof (fragments_of_offsets f _ _ (Hsub f ltac:(set_solver)) Hne). unfold total. cbn [foldr]. lia. }
  rewrite Hcut. destruct (record_short (encode_hello h) (total fs)) as [e ->]; [done|done|].
  eexists _, _, _. split; [done|]. by eexists.
Qed.

(** A CRYPTO frame that claims more bytes than the packet has is cut out of range. *)
Lemma long_crypto_frame_panics offset n memory : small offset -> small n -> (len memory < n)%N ->
  let decrypted := byte frameTypeCrypto +:+ q_put offset +:+ q_put n in
  quic_frames decrypted (decrypted +:+ memory) = Panic slice_panic.
Proof.
  intros Ho Hn Hm decrypted. unfold quic_frames. assert (exists k, String.length decrypted = S k) as [k ->] by (by eexists).
  unfold decrypted. change (byte frameTypeCrypto +:+ ?s) with (String (byte_of frameTypeCrypto) s) at 3. cbn [read_frames stream rd_data].
  change (byte_val (byte_of frameTypeCrypto)) with frameTypeCrypto. unfold read_frame. do 5 next_case. cbn [orb].
  change (set_data (q_put offset +:+ q_put n) _) with (mkReader (q_put offset +:+ q_put n) io_EOF). rewrite q_put_read by done. cbn [mbind result_bind].
  pose proof (q_put_read n "" io_EOF Hn) as Q. rewrite str_app_nil in Q. rewrite Q. cbn [mbind result_bind rd_data String.length].
  rewrite !str_length_app. unfold len in Hm. rewrite (proj2 (N.ltb_lt _ _)) by lia. done.
Qed.

(** ** Hellos *)

(** The list of versions of an extension is read by the length it states. *)
Lemma short_versions_panic x : parse_extension versionExtensionType (byte 2) x = Panic index_panic.
Proof. reflexivity. Qed.
(** The fingerprint drops what it should keep: of a hello without GREASE values only the version is left. *)
Lemma fingerprint_keeps_grease j : Forall (fun v => grease v = false) (ch_CipherSuites j) -> ch_Extensions j = [] -> ch_EllipticCurves j = [] ->
  ch_EllipticCurvePF j = [] -> ch_CipherSuites j <> [] -> marshalJA3 j = format_uint (ch_Version j) +:+ ",,,".
Proof.
  intros Hg E1 E2 E3 Hne. unfold marshalJA3. rewrite E1, E2, E3. cbn [nonempty marshal_list].
  assert (List.filter grease (ch_CipherSuites j) = []) as Hf.
  { clear Hne. induction Hg as [|v l Hv _ IH]; [done|]. cbn [List.filter]. by rewrite Hv. }
  unfold marshal_list at 1. destruct (ch_CipherSuites j) as [|v l] eqn:E; [done|]. rewrite Hf. cbn [nonempty map str_concat].
  unfold marshal_list. cbn [nonempty].
  unfold replace_last. rewrite str_app_nil, str_length_app. change (String.length ",") with 1%nat. rewrite Nat.add_sub, str_take_app by done.
  by rewrite !str_app_assoc.
Qed.
(** With the order of the extensions ignored, a hello equals itself only if its extensions are sorted. *)
Lemma equals_itself_sorted j : ja3_Equals j j true = bool_decide (ch_Extensions j = sortedExtensions j).
Proof. unfold ja3_Equals. rewrite N.eqb_refl. rewrite !(bool_decide_eq_true_2 (?[x] = ?x)) by done. cbn [andb orb negb]. by rewrite !andb_true_r. Qed.

(** ** Streams and DNS *)

(** The header of BitTorrent in two buffers is not recognised, however much follows. *)
Lemma bittorrent_split metadata a b rest : (0 < String.length a < 19)%nat -> "BitTorrent protocol" = a +:+ b ->
  sniff_BitTorrent metadata [byte 19 +:+ a; b +:+ rest] = Err ErrNeedMoreData.
Proof.
  intros Ha E. unfold sniff_BitTorrent. 
  assert (multi_Read 1 [byte 19 +:+ a; b +:+ rest] = Some (byte 19, [a; b +:+ rest])) as -> by (by destruct a).
  change (byte_at (byte 19) 0) with (Ok 19%N). cbn [mbind result_bind]. change (negb (19 =? 19)%N) with false. cbn iota.
  destruct a as [|c a]; [cbn in Ha; lia|]. set (s := String c a) in *.
  assert (multi_Read 19 [s; b +:+ rest] = Some (str_take 19 s, [str_drop 19 s; b +:+ rest])) as -> by done.
  rewrite take_all by lia. rewrite E, str_take_app by done. rewrite bool_decide_eq_true_2 by done. cbn [negb].
  by rewrite (proj2 (Nat.ltb_lt _ _)) by lia.
Qed.
(** A DNS message that is no query is reported as recognised, without a protocol. *)
Lemma dns_response_accepted {L : SniffLibrary} metadata packet msg : Msg_Unpack packet = Ok msg -> msg_Response msg = true ->
  sniff_DomainNameQuery metadata packet = Ok metadata.
Proof. intros E H. unfold sniff_DomainNameQuery. rewrite E. cbn [mbind result_bind]. by rewrite H. Qed.
