(* ===== verification/CoreService.v ===== *)
(** * CoreService: starting and stopping the engine

    The application around the engine (src/v2): hcore/start.go, stop.go, restart.go, custom.go and coreinfo.go, and the
    average of pings (hcore/independent_instance.go).  A call is a program whose steps are the single reads and writes of the instance, so that calls on other goroutines
    may come between any two of them: [StartService] and [Stop] hold the lock, [Restart] does not hold it while it waits, and the deferred recovery from a panic runs
    after the lock is released.  What the calls below answer (an error, a panic) are arguments. *)

From S2P Require Import Prelude GoStd.
Open Scope string_scope.
Open Scope list_scope.

(** ** The instance *)

Inductive CoreStates : Type := STOPPED | STARTING | STARTED | STOPPING.
Inductive MessageType : Type :=
| EMPTY | EMPTY_CONFIGURATION | START_COMMAND_SERVER | CREATE_SERVICE | START_SERVICE | UNEXPECTED_ERROR | ALREADY_STARTED | ALREADY_STOPPED
| INSTANCE_NOT_FOUND | INSTANCE_NOT_STOPPED | INSTANCE_NOT_STARTED | ERROR_BUILDING_CONFIG | ERROR_PARSING_CONFIG | ERROR_READING_CONFIG | ERROR_EXTENSION.
Record StartRequest : Type := mkStartRequest {
  sr_ConfigPath : string;
  sr_ConfigContent : string;
  sr_DisableMemoryLimit : bool;
  sr_DelayStart : bool;
  sr_EnableOldCommandServer : bool;
  sr_EnableRawConfig : bool;
  sr_ConfigName : string
}.
(** The message is the text of an error, or empty. *)
Record CoreInfoResponse : Type := mkCoreInfo { ci_CoreState : CoreStates; ci_MessageType : MessageType; ci_Message : option error }.

(** [HiddifyInstance]: services are numbered in the order they are made.  [co_closes] are the calls of [CloseService] and
    [co_settings] is the table of settings in the database. *)
Record core : Type := mkCore {
  co_CoreState : CoreStates;
  co_StartedService : option nat;
  co_previous : option StartRequest;
  co_ListenPort : N;
  co_settings : gmap string string;
  co_published : list CoreInfoResponse;
  co_made : nat;
  co_closes : list nat
}.
Definition core_new (settings : gmap string string) : core := mkCore STOPPED None None 0 settings [] 0 [].
Definition set_service (ss : option nat) (c : core) : core :=
  mkCore (co_CoreState c) ss (co_previous c) (co_ListenPort c) (co_settings c) (co_published c) (co_made c) (co_closes c).
Definition set_previous (r : StartRequest) (c : core) : core :=
  mkCore (co_CoreState c) (co_StartedService c) (Some r) (co_ListenPort c) (co_settings c) (co_published c) (co_made c) (co_closes c).
Definition set_settings (s : gmap string string) (c : core) : core :=
  mkCore (co_CoreState c) (co_StartedService c) (co_previous c) (co_ListenPort c) s (co_published c) (co_made c) (co_closes c).
Definition set_port (p : N) (c : core) : core :=
  mkCore (co_CoreState c) (co_StartedService c) (co_previous c) p (co_settings c) (co_published c) (co_made c) (co_closes c).

Definition set_state (state : CoreStates) (c : core) : core :=
  mkCore state (co_StartedService c) (co_previous c) (co_ListenPort c) (co_settings c) (co_published c) (co_made c) (co_closes c).
Definition publish (info : CoreInfoResponse) (c : core) : core :=
  mkCore (co_CoreState c) (co_StartedService c) (co_previous c) (co_ListenPort c) (co_settings c) (co_published c ++ [info]) (co_made c) (co_closes c).
(** [CloseService] of a service, which is counted whatever it answers. *)
Definition count_close (s : nat) (c : core) : core :=
  mkCore (co_CoreState c) (co_StartedService c) (co_previous c) (co_ListenPort c) (co_settings c) (co_published c) (co_made c) (co_closes c ++ [s]).

(** The service [NewService] makes becomes the started one. *)
Definition new_service (c : core) : core :=
  mkCore (co_CoreState c) (Some (co_made c)) (co_previous c) (co_ListenPort c) (co_settings c) (co_published c) (S (co_made c)) (co_closes c).

(** What the calls below answer. *)
Record core_env : Type := mkCoreEnv {
  ce_Get : string -> option error; (* reading a setting that is stored *)
  ce_BuildConfig : result unit;
  ce_stored : nat; (* how many of the settings are stored *)
  ce_PreStart : result unit;
  ce_Marshal : result unit; (* in debug mode *)
  ce_NewService : result unit;
  ce_ports : list N; (* the ports of the SOCKS inbounds *)
  ce_Close : nat -> result unit (* by the number of the call *)
}.

(** ** Calls *)

(** A call: it returns, or panics; or its next step writes the instance (and goes on by what it was before), takes or releases the lock, is a wait that ends one
    way or the other, or is the first without the lock ([Unguarded]: what follows writes the instance without holding the lock). *)
Inductive prog (A : Type) : Type :=
| Return (a : A)
| Throw (m : string)
| Atomic (f : core -> core) (k : core -> prog A)
| Lock (k : prog A)
| Unlock (k : prog A)
| Unguarded (k : prog A)
| Choose (k1 k2 : prog A).
Arguments Return {_} _.
Arguments Throw {_} _.
Arguments Atomic {_} _ _.
Arguments Lock {_} _.
Arguments Unlock {_} _.
Arguments Unguarded {_} _.
Arguments Choose {_} _ _.
Fixpoint bind {A B} (p : prog A) (next : A -> prog B) : prog B :=
  match p with
  | Return a => next a
  | Throw m => Throw m
  | Atomic f k => Atomic f (fun c => bind (k c) next)
  | Lock k => Lock (bind k next)
  | Unlock k => Unlock (bind k next)
  | Unguarded k => Unguarded (bind k next)
  | Choose k1 k2 => Choose (bind k1 next) (bind k2 next)
  end.
Local Notation "'do!' x := p 'in' q" := (bind p (fun x => q)) (at level 10, x pattern, p at level 100, q at level 200).
(** [defer static.lock.Unlock()]. *)
Fixpoint defer_unlock {A} (p : prog A) : prog A :=
  match p with
  | Return a => Unlock (Return a)
  | Throw m => Unguarded (Unlock (Throw m))
  | Atomic f k => Atomic f (fun c => defer_unlock (k c))
  | Lock k => Lock (defer_unlock k)
  | Unlock k => Unlock (defer_unlock k)
  | Unguarded k => Unguarded (defer_unlock k)
  | Choose k1 k2 => Choose (defer_unlock k1) (defer_unlock k2)
  end.
(** [defer config.DeferPanicToError(name, handler)]: it is deferred before [Unlock], and runs after it. *)
Fixpoint DeferPanicToError {A} (name : string) (handler : error -> prog A) (p : prog A) : prog A :=
  match p with
  | Return a => Return a
  | Throw m => handler (ENew (name +:+ " panic: " +:+ m))
  | Atomic f k => Atomic f (fun c => DeferPanicToError name handler (k c))
  | Lock k => Lock (DeferPanicToError name handler k)
  | Unlock k => Unlock (DeferPanicToError name handler k)
  | Unguarded k => Unguarded (DeferPanicToError name handler k)
  | Choose k1 k2 => Choose (DeferPanicToError name handler k1) (DeferPanicToError name handler k2)
  end.

Definition read : prog core := Atomic id Return.
Definition write (f : core -> core) : prog unit := Atomic f (fun _ => Return tt).
Definition response : Type := CoreInfoResponse * option error.

(** The state is written, and then the event is published. *)
Definition SetCoreStatus (state : CoreStates) (msgType : MessageType) (message : option error) : prog CoreInfoResponse :=
  let info := mkCoreInfo state msgType message in
  do! _ := write (set_state state) in do! _ := write (publish info) in Return info.
Definition CloseService (env : core_env) (ss : nat) : prog (option error) :=
  Atomic (count_close ss) (fun c => match ce_Close env (length (co_closes c)) with Ok _ => Return None | Err e => Return (Some e) | Panic m => Throw m end).
(** The error of [CloseService] is ignored; after a panic of it the service stays. *)
Definition StopAndAlert (env : core_env) (msgType : MessageType) (message : error) : prog unit :=
  do! _ := SetCoreStatus STOPPED msgType (Some message) in
  do! c := read in
  match co_StartedService c with
  | Some ss => do! _ := CloseService env ss in write (set_service None)
  | None => Return tt
  end.
Definition errorWrapper (env : core_env) (state : MessageType) (err : error) : prog response :=
  do! _ := StopAndAlert env UNEXPECTED_ERROR err in
  do! info := SetCoreStatus STOPPED state (Some err) in Return (info, Some err).
(** A call below that may fail or panic. *)
Definition below (env : core_env) (msgType : MessageType) (r : result unit) (next : prog response) : prog response :=
  match r with Ok _ => next | Err e => errorWrapper env msgType e | Panic m => Throw m end.

(** ** The last request *)

Definition request_keys : list string := ["lastStartRequestPath"; "lastStartRequestContent"; "lastStartRequestName"].
Definition request_values (r : StartRequest) : list string := [sr_ConfigPath r; sr_ConfigContent r; sr_ConfigName r].
Definition saveLastStartRequest (stored : nat) (r : StartRequest) (settings : gmap string string) : gmap string string :=
  if str_empty (sr_ConfigContent r) && str_empty (sr_ConfigPath r) then settings
  else foldl (fun s kv => <[fst kv := snd kv]> s) settings (take stored (zip request_keys (request_values r))).
Definition err_setting : error := ELib "EOF".
Definition get_setting (fails : string -> option error) (key : string) (settings : gmap string string) : result string :=
  match fails key with
  | Some e => Err e
  | None => match settings !! key with Some v => Ok v | None => Err err_setting end
  end.
Definition loadLastStartRequestIfNeeded (fails : string -> option error) (r : option StartRequest) (settings : gmap string string) : result StartRequest :=
  let load :=
    let! lastPath := get_setting fails "lastStartRequestPath" settings in
    let! lastContent := get_setting fails "lastStartRequestContent" settings in
    let! lastName := get_setting fails "lastStartRequestName" settings in
    Ok (mkStartRequest lastPath lastContent false false false false lastName) in
  match r with
  | Some r' => if negb (str_empty (sr_ConfigContent r')) || negb (str_empty (sr_ConfigPath r')) then Ok r' else load
  | None => load
  end.

(** ** Starting and stopping *)

(** What [StartService] and [Stop] do under the lock. *)
Definition start_locked (env : core_env) (debug : bool) (r : option StartRequest) : prog response :=
  do! c := read in
  match co_CoreState c with
  | STOPPED =>
      do! _ := SetCoreStatus STARTING EMPTY None in
      do! c := read in
      match loadLastStartRequestIfNeeded (ce_Get env) r (co_settings c) with
      | Err e => errorWrapper env ERROR_BUILDING_CONFIG e
      | Panic m => Throw m
      | Ok r =>
          do! _ := write (set_previous r) in
          below env ERROR_BUILDING_CONFIG (ce_BuildConfig env) (
            do! _ := write (fun c => set_settings (saveLastStartRequest (ce_stored env) r (co_settings c)) c) in
            below env ERROR_EXTENSION (ce_PreStart env) (
              below env ERROR_BUILDING_CONFIG (if debug then ce_Marshal env else Ok tt) (
                below env START_SERVICE (ce_NewService env) (
                  do! _ := write new_service in
                  do! _ := write (fun c => set_port (default (co_ListenPort c) (last (ce_ports env))) c) in
                  do! info := SetCoreStatus STARTED EMPTY None in Return (info, None)))))
      end
  | _ => do! c := read in Return (mkCoreInfo (co_CoreState c) ALREADY_STARTED (Some (ENew "instance already started")), None)
  end.
Definition stop_locked (env : core_env) : prog response :=
  do! _ := SetCoreStatus STOPPING EMPTY None in
  do! c := read in
  match co_StartedService c with
  | None => do! info := SetCoreStatus STOPPED ALREADY_STOPPED None in Return (info, None)
  | Some ss =>
      do! err := CloseService env ss in
      do! _ := write (set_service None) in
      match err with
      | Some e => errorWrapper env UNEXPECTED_ERROR e
      | None => do! info := SetCoreStatus STOPPED EMPTY None in Return (info, None)
      end
  end.
Definition StartService (env : core_env) (debug : bool) (r : option StartRequest) : prog response :=
  DeferPanicToError "startmobile" (errorWrapper env UNEXPECTED_ERROR) (Lock (defer_unlock (start_locked env debug r))).
Definition Stop (env : core_env) : prog response :=
  DeferPanicToError "stop" (errorWrapper env UNEXPECTED_ERROR) (Lock (defer_unlock (stop_locked env))).
(** The end of the context while [Restart] waits. *)
Definition restart_cancelled : prog response :=
  Unguarded (do! info := SetCoreStatus STOPPED INSTANCE_NOT_STARTED (Some (ENew "restart cancelled")) in Return (info, None)).
(** [tun]: on Android with a TUN it waits for a second, or for the end of its context. *)
Definition Restart (env1 env2 : core_env) (debug tun : bool) (r : option StartRequest) : prog response :=
  DeferPanicToError "startmobile" (errorWrapper env2 UNEXPECTED_ERROR) (
    do! (resp, err) := Stop env1 in
    match err with
    | Some e => Return (resp, Some e)
    | None => if tun then Choose restart_cancelled (StartService env2 debug r) else StartService env2 debug r
    end).
(** [Close], less the servers it stops. *)
Definition Close (env1 env2 : core_env) : prog (option error) :=
  DeferPanicToError "close" (fun e => do! _ := StopAndAlert env2 UNEXPECTED_ERROR e in Return None) (do! (_, err) := Stop env1 in Return err).

(** ** Interleavings *)

Inductive core_op : Type :=
| OpStart (env : core_env) (debug : bool) (r : option StartRequest)
| OpStop (env : core_env)
| OpRestart (env1 env2 : core_env) (debug tun : bool) (r : option StartRequest)
| OpClose (env1 env2 : core_env).
Definition op_envs (o : core_op) : list core_env :=
  match o with OpStart e _ _ | OpStop e => [e] | OpRestart e1 e2 _ _ _ | OpClose e1 e2 => [e1; e2] end.
(** A call ends with its error. *)
Definition op_prog (o : core_op) : prog (option error) :=
  match o with
  | OpStart env debug r => do! (_, err) := StartService env debug r in Return err
  | OpStop env => do! (_, err) := Stop env in Return err
  | OpRestart env1 env2 debug tun r => do! (_, err) := Restart env1 env2 debug tun r in Return err
  | OpClose env1 env2 => Close env1 env2
  end.

(** The instance, who holds the lock, the calls with what is left of each, and those that write without the lock. *)
Record core_system : Type := mkCoreSystem {
  sy_core : core;
  sy_lock : option nat;
  sy_calls : gmap nat (core_op * prog (option error));
  sy_unguarded : gset nat
}.
Definition system_new (settings : gmap string string) : core_system := mkCoreSystem (core_new settings) None ∅ ∅.
(** A call begins, or goes on by a step; [b] says how a wait ends. *)
Inductive core_label : Type := Begin (i : nat) (o : core_op) | Go (i : nat) (b : bool).
Definition core_step (l : core_label) (s : core_system) : option core_system :=
  match l with
  | Begin i o =>
      match sy_calls s !! i with
      | None => Some (mkCoreSystem (sy_core s) (sy_lock s) (<[i := (o, op_prog o)]> (sy_calls s)) (sy_unguarded s))
      | Some _ => None
      end
  | Go i b =>
      match sy_calls s !! i with
      | None => None
      | Some (o, p) =>
          let go c lock k := Some (mkCoreSystem c lock (<[i := (o, k)]> (sy_calls s)) (sy_unguarded s)) in
          match p with
          | Return _ | Throw _ => None
          | Atomic f k => go (f (sy_core s)) (sy_lock s) (k (sy_core s))
          | Lock k => match sy_lock s with None => go (sy_core s) (Some i) k | Some _ => None end
          | Unlock k => go (sy_core s) None k
          | Unguarded k => Some (mkCoreSystem (sy_core s) (sy_lock s) (<[i := (o, k)]> (sy_calls s)) ({[i]} ∪ sy_unguarded s))
          | Choose k1 k2 => go (sy_core s) (sy_lock s) (if b then k1 else k2)
          end
      end
  end.

(** The calls that have ended: with an error or without, or with a panic that reached the caller. *)
Definition has_ended {A} (p : prog A) : bool := match p with Return _ | Throw _ => true | _ => false end.
(** Nobody comes between while a call writes without the lock: when [i] does and has not ended, the step is one of its own; and a
    restart is cancelled only while the engine is still stopped and nobody holds the lock. *)
Definition undisturbed (l : core_label) (s : core_system) : Prop :=
  (forall i o p, i ∈ sy_unguarded s -> sy_calls s !! i = Some (o, p) -> has_ended p = false -> exists b, l = Go i b) /\
  (forall i b o p, l = Go i b -> sy_calls s !! i = Some (o, Unguarded p) -> sy_lock s <> Some i -> sy_lock s = None /\ co_CoreState (sy_core s) = STOPPED).
Inductive core_reachable (settings : gmap string string) : core_system -> Prop :=
| reachable_new : core_reachable settings (system_new settings)
| reachable_step l s s' : core_reachable settings s -> undisturbed l s -> core_step l s = Some s' -> core_reachable settings s'.

(** ** What holds between the calls *)

Definition states (c : core) : list CoreStates := map ci_CoreState (co_published c).
Definition follows (a b : CoreStates) : Prop :=
  match a, b with
  | STOPPED, STARTED | STARTING, (STARTING | STOPPING) | STARTED, (STOPPED | STARTING | STARTED) | STOPPING, (STARTING | STARTED | STOPPING) => False
  | _, _ => True
  end.
Fixpoint status_path (from : CoreStates) (l : list CoreStates) : Prop :=
  match l with [] => True | s :: l => follows from s /\ status_path s l end.
Lemma status_path_snoc l : forall from s, status_path from (l ++ [s]) <-> status_path from l /\ follows (default from (last l)) s.
Proof.
  induction l as [|x l IH]; intros from s; [cbn; tauto|]. cbn [app status_path]. rewrite IH. rewrite last_cons. destruct (last l); tauto.
Qed.
Record core_inv (c : core) : Prop := mkCoreInv {
  iv_path : status_path STOPPED (states c);
  iv_last : default STOPPED (last (states c)) = co_CoreState c;
  iv_kept : forall s, (s < co_made c)%nat -> co_StartedService c = Some s \/ s ∈ co_closes c;
  iv_current : forall s, co_StartedService c = Some s -> (s < co_made c)%nat;
  iv_closed : forall s, s ∈ co_closes c -> (s < co_made c)%nat
}.
(** The state says whether a service runs: one that is still there after its [CloseService] panicked is not running. *)
Definition settled (c : core) : Prop :=
  match co_CoreState c, co_StartedService c with
  | STOPPED, None => True
  | STOPPED, Some s => s ∈ co_closes c
  | STARTED, Some s => s ∉ co_closes c
  | _, _ => False
  end.
Lemma status_inv st mt msg c : core_inv c -> follows (co_CoreState c) st -> core_inv (publish (mkCoreInfo st mt msg) (set_state st c)).
Proof.
  intros [H1 H2 H3 H4 H5] Hf. constructor; cbn; try done; unfold states; cbn; rewrite map_app; cbn.
  - apply status_path_snoc. split; [done|]. unfold states in H2. by rewrite H2.
  - by rewrite last_snoc.
Qed.
Lemma drop_service_inv c ss : core_inv c -> co_StartedService c = Some ss -> core_inv (set_service None (count_close ss c)).
Proof.
  intros [H1 H2 H3 H4 H5] Hs. constructor; cbn; try done.
  - intros s Hl. right. destruct (H3 s Hl) as [E|E]; [|set_solver]. rewrite Hs in E. injection E as ->. set_solver.
  - intros s Hin. apply elem_of_app in Hin as [?|Hin]; [by apply H5|]. apply list_elem_of_singleton in Hin as ->. by apply H4.
Qed.
Lemma count_close_inv c ss : core_inv c -> co_StartedService c = Some ss -> core_inv (count_close ss c).
Proof.
  intros [H1 H2 H3 H4 H5] Hs. constructor; cbn; try done.
  - intros s Hl. destruct (H3 s Hl); [by left|right; set_solver].
  - intros s Hin. apply elem_of_app in Hin as [?|Hin]; [by apply H5|]. apply list_elem_of_singleton in Hin as ->. by apply H4.
Qed.
Lemma new_service_inv c : core_inv c -> (forall s, co_StartedService c = Some s -> s ∈ co_closes c) -> core_inv (new_service c).
Proof.
  intros [I1 I2 I3 I4 I5] Hs. constructor; cbn; [done|done| |intros s [= <-]; lia|intros s Hin; specialize (I5 s Hin); lia].
  intros s Hl. destruct (decide (s = co_made c)) as [->|Hne]; [by left|right]. destruct (I3 s ltac:(lia)) as [E|E]; [by apply Hs|done].
Qed.
(** The invariant does not look at the request, the settings and the port. *)
Lemma core_inv_same c c' :
  core_inv c -> co_CoreState c' = co_CoreState c -> co_StartedService c' = co_StartedService c -> co_published c' = co_published c ->
  co_made c' = co_made c -> co_closes c' = co_closes c -> core_inv c'.
Proof. intros [I1 I2 I3 I4 I5] E1 E2 E3 E4 E5. constructor; unfold states; rewrite ?E1, ?E2, ?E3, ?E4, ?E5; done. Qed.
Lemma core_new_inv settings : core_inv (core_new settings).
Proof. constructor; cbn; [done|done|intros s Hl; lia|done|intros s Hin; by apply not_elem_of_nil in Hin]. Qed.
Definition good (c : core) : Prop := core_inv c /\ settled c.
Definition stopped (c : core) : Prop := good c /\ co_CoreState c = STOPPED.

(** ** A program alone *)

(** It ends with an answer and an instance as in [Q], or with a panic and an instance as in [R]. *)
Fixpoint ends {A} (p : prog A) (Q : A -> core -> Prop) (R : core -> Prop) (c : core) : Prop :=
  match p with Return a => Q a c | Throw _ => R c | Atomic f k => ends (k c) Q R (f c) | _ => False end.
Lemma prog_ends_bind {A B} (p : prog A) (next : A -> prog B) Q R : forall c, ends p (fun a => ends (next a) Q R) R c -> ends (bind p next) Q R c.
Proof. induction p as [a|m|f k IH|k IH|k IH|k IH|k1 IH1 k2 IH2]; intros c H; cbn in *; try done. by apply IH. Qed.
Lemma prog_ends_mono {A} (p : prog A) (Q Q' : A -> core -> Prop) (R R' : core -> Prop) : (forall a c, Q a c -> Q' a c) -> (forall c, R c -> R' c) -> forall c, ends p Q R c -> ends p Q' R' c.
Proof. intros HQ HR. induction p as [a|m|f k IH|k IH|k IH|k IH|k1 IH1 k2 IH2]; intros c H; cbn in *; auto. Qed.

(** Closing a service has panicked. *)
Definition closing_panics (envs : list core_env) : Prop := exists env n m, env ∈ envs /\ ce_Close env n = Panic m.
Lemma StopAndAlert_ends env mt e c : core_inv c -> co_CoreState c <> STARTED ->
  ends (StopAndAlert env mt e) (fun _ => stopped) (fun c => stopped c /\ closing_panics [env]) c.
Proof.
  intros Hi Hst. cbn. set (c1 := publish (mkCoreInfo STOPPED mt (Some e)) (set_state STOPPED c)).
  assert (core_inv c1) as H1 by (apply status_inv; [done|by destruct (co_CoreState c)]).
  destruct (co_StartedService c) as [ss|] eqn:E; cbn; [|split; [split; [done|]|done]; unfold settled; cbn; by rewrite E].
  pose proof (drop_service_inv c1 ss H1 E) as H2. pose proof (count_close_inv c1 ss H1 E) as H3.
  destruct (ce_Close env (length (co_closes c))) as [u|e'|m] eqn:Ec; cbn; [by split|by split|].
  split; [split; [split; [done|]|done]|by exists env, (length (co_closes c)), m; split; [set_solver|]]. unfold settled. cbn. rewrite E. set_solver.
Qed.
Lemma status_stopped mt msg c : stopped c -> stopped (publish (mkCoreInfo STOPPED mt msg) (set_state STOPPED c)).
Proof. intros [[Hi Hs] E]. split; [|done]. split; [apply status_inv; [done|by rewrite E]|]. unfold settled in *. cbn. by rewrite E in Hs. Qed.
Lemma errorWrapper_ends env mt e c : core_inv c -> co_CoreState c <> STARTED ->
  ends (errorWrapper env mt e) (fun r c => snd r = Some e /\ stopped c) (fun c => stopped c /\ closing_panics [env]) c.
Proof.
  intros Hi Hst. unfold errorWrapper. apply prog_ends_bind. eapply prog_ends_mono; [| |by apply StopAndAlert_ends]; [|done]. intros [] c' H. cbn. split; [done|]. by apply status_stopped.
Qed.
(** Under the lock: a panic leaves what the recovery can clean up. *)
Definition recoverable (c : core) : Prop := core_inv c /\ co_CoreState c <> STARTED.
Lemma errorWrapper_locked env mt e (Q : response -> core -> Prop) c : core_inv c -> co_CoreState c <> STARTED -> (forall r c, stopped c -> Q r c) ->
  ends (errorWrapper env mt e) Q recoverable c.
Proof.
  intros Hi Hst HQ. eapply prog_ends_mono; [| |by apply errorWrapper_ends]; [intros r c' [_ H]; by apply HQ|]. intros c' [[[H1 _] H2] _]. split; [done|by rewrite H2].
Qed.
Lemma below_locked env mt r next (Q : response -> core -> Prop) c : core_inv c -> co_CoreState c = STARTING -> (forall r c, stopped c -> Q r c) ->
  ends next Q recoverable c -> ends (below env mt r next) Q recoverable c.
Proof. intros Hi Hst HQ Hn. destruct r as [u|e|m]; cbn [below]; [done|apply errorWrapper_locked; [done|by rewrite Hst|done]|cbn; split; [done|by rewrite Hst]]. Qed.
Lemma start_locked_ends env debug r c : good c -> ends (start_locked env debug r) (fun r c => good c /\ (snd r <> None -> stopped c)) recoverable c.
Proof.
  intros [Hi Hs]. assert (forall (r : response) c, stopped c -> good c /\ (snd r <> None -> stopped c)) as HQ by (intros ? ? H; split; [apply H|done]).
  unfold start_locked. cbn [read bind ends]. unfold id. destruct (co_CoreState c) eqn:Es; try (cbn; by split).
  cbn [SetCoreStatus write bind ends]. set (c1 := publish _ _). assert (core_inv c1) as H1 by (apply status_inv; [done|by rewrite Es]).
  assert (forall s, co_StartedService c1 = Some s -> s ∈ co_closes c1) as Hn.
  { unfold settled in Hs. rewrite Es in Hs. cbn. intros s E. by rewrite E in Hs. }
  assert (co_CoreState c1 = STARTING) as Hst by done. clearbody c1.
  destruct (loadLastStartRequestIfNeeded (ce_Get env) r (co_settings c1)) as [r'|e|m]; [|apply errorWrapper_locked; [done|by rewrite Hst|done]|cbn; split; [done|by rewrite Hst]].
  cbn [write bind ends]. apply below_locked; [by eapply core_inv_same|done|done|]. cbn [write bind ends].
  do 3 (apply below_locked; [by eapply core_inv_same|done|done|]). cbn [write bind ends SetCoreStatus]. split; [|done]. split.
  - apply status_inv; [|cbn; by rewrite Hst]. eapply core_inv_same; [apply (new_service_inv _ H1 Hn)|..]; done.
  - unfold settled. cbn. intros Hin. pose proof (iv_closed _ H1 _ Hin). lia.
Qed.
Lemma stop_locked_ends env c : good c -> ends (stop_locked env) (fun _ => stopped) recoverable c.
Proof.
  intros [Hi Hs]. unfold stop_locked. cbn [read write SetCoreStatus bind ends]. unfold id. set (c1 := publish _ _).
  assert (core_inv c1) as H1. { apply status_inv; [done|]. unfold settled in Hs. by destruct (co_CoreState c), (co_StartedService c). }
  assert (co_CoreState c1 = STOPPING) as Hst by done. clearbody c1. destruct (co_StartedService c1) as [ss|] eqn:E.
  - pose proof (drop_service_inv c1 ss H1 E) as H2. pose proof (count_close_inv c1 ss H1 E) as H3. cbn [CloseService bind ends].
    destruct (ce_Close env (length (co_closes c1))) as [u|e|m]; cbn [write bind ends].
    + split; [split; [apply status_inv; [done|cbn; by rewrite Hst]|done]|done].
    + apply errorWrapper_locked; [done|cbn; by rewrite Hst|done].
    + split; [done|cbn; by rewrite Hst].
  - cbn [SetCoreStatus write bind ends]. split; [|done]. split; [apply status_inv; [done|by rewrite Hst]|]. unfold settled. cbn. by rewrite E.
Qed.

(** ** Calls among others *)

(** What is left of a call: under the lock, it goes to its [Unlock] and leaves the instance good; without the lock it takes it when the instance is good, and writes
    only where nobody comes between ([held]: whether the lock is still to be released).  [E]: what a panic that reaches the caller means. *)
Fixpoint exclusive {A} (E : Prop) (held : bool) (p : prog A) (c : core) : Prop :=
  match p with
  | Return _ => held = false /\ good c
  | Throw _ => held = false /\ good c /\ E
  | Atomic f k => exclusive E held (k c) (f c)
  | Unlock k => held = true /\ exclusive E false k c
  | _ => False
  end.
Fixpoint locked {A} (E : Prop) (p : prog A) (c : core) : Prop :=
  match p with Atomic f k => locked E (k c) (f c) | Unlock k => good c /\ outside E k | Unguarded k => exclusive E true k c | _ => False end
with outside {A} (E : Prop) (p : prog A) : Prop :=
  match p with
  | Return _ => True
  | Throw _ => E
  | Lock k => forall c, good c -> locked E k c
  | Unguarded k => forall c, stopped c -> exclusive E false k c
  | Choose k1 k2 => outside E k1 /\ outside E k2
  | _ => False
  end.

(** What a call is a part of: it goes on in the same way, whatever the part does. *)
Record context {A B} (G : prog A -> prog B) : Prop := mkContext {
  cx_atomic : forall f k, G (Atomic f k) = Atomic f (fun c => G (k c));
  cx_lock : forall k, G (Lock k) = Lock (G k);
  cx_unlock : forall k, G (Unlock k) = Unlock (G k);
  cx_unguarded : forall k, G (Unguarded k) = Unguarded (G k)
}.
Lemma locked_ends {A B} E (F : prog A -> prog B) (p : prog A) : (forall f k, F (Atomic f k) = Atomic f (fun c => F (k c))) ->
  forall c, ends p (fun a => locked E (F (Return a))) (fun c => forall m, locked E (F (Throw m)) c) c -> locked E (F p) c.
Proof. intros HF. induction p as [a|m|f k IH|k IH|k IH|k IH|k1 IH1 k2 IH2]; intros c H; cbn [ends] in H; try done. rewrite HF. cbn. by apply IH. Qed.
Lemma exclusive_ends {A B} E held (G : prog A -> prog B) (p : prog A) : context G ->
  forall c, ends p (fun a => exclusive E held (G (Return a))) (fun c => forall m, exclusive E held (G (Throw m)) c) c -> exclusive E held (G p) c.
Proof. intros HG. induction p as [a|m|f k IH|k IH|k IH|k IH|k1 IH1 k2 IH2]; intros c H; cbn [ends] in H; try done. rewrite (cx_atomic G HG). cbn. by apply IH. Qed.
Lemma context_bind {A B} (next : A -> prog B) : context (fun p => bind p next).
Proof. by constructor. Qed.
Lemma context_defer {A} name handler : context (DeferPanicToError (A := A) name handler).
Proof. by constructor. Qed.
Lemma context_comp {A B C} (G : prog B -> prog C) (G' : prog A -> prog B) : context G -> context G' -> context (fun p => G (G' p)).
Proof. intros [H1 H2 H3 H4] [K1 K2 K3 K4]. constructor; intros; by rewrite ?K1, ?K2, ?K3, ?K4, ?H1, ?H2, ?H3, ?H4. Qed.

(** [StartService] and [Stop] in a context: it must go on after their answer, after the error of a recovery, and after the panic of a recovery. *)
Lemma guarded_outside {B} E env name body (G : prog response -> prog B) : context G ->
  (forall c, good c -> ends body (fun r c => good c /\ outside E (G (Return r))) recoverable c) ->
  (forall info e c, stopped c -> exclusive E false (G (Return (info, Some e))) c) ->
  (closing_panics [env] -> forall m c, stopped c -> exclusive E false (G (Throw m)) c) ->
  outside E (G (DeferPanicToError name (errorWrapper env UNEXPECTED_ERROR) (Lock (defer_unlock body)))).
Proof.
  intros HG Hbody Herr Hpanic. cbn [DeferPanicToError]. rewrite (cx_lock G HG). cbn [outside]. intros c Hc.
  apply (locked_ends E (fun p => G (DeferPanicToError name (errorWrapper env UNEXPECTED_ERROR) (defer_unlock p))) body).
  { intros f k. cbn [defer_unlock DeferPanicToError]. apply (cx_atomic G HG). }
  eapply prog_ends_mono; [| |by apply Hbody].
  - intros r c' H. cbn [defer_unlock DeferPanicToError]. rewrite (cx_unlock G HG). exact H.
  - intros c' [Hi Hst] m. cbn [defer_unlock DeferPanicToError]. rewrite (cx_unguarded G HG), (cx_unlock G HG). cbn [locked exclusive]. split; [done|].
    apply (exclusive_ends E false G); [done|]. eapply prog_ends_mono; [| |by apply errorWrapper_ends].
    + intros [info err] c2 [He H2]. cbn in He. subst err. by apply Herr.
    + intros c2 [H2 Hp] m'. by apply Hpanic.
Qed.
Lemma closing_panics_mono envs envs' : (forall e, e ∈ envs -> e ∈ envs') -> closing_panics envs -> closing_panics envs'.
Proof. intros Hs (env & n & m & Hin & H). exists env, n, m. split; [by apply Hs|done]. Qed.

Definition op_outside (o : core_op) (p : prog (option error)) : Prop := outside (closing_panics (op_envs o)) p.
Definition answer (p : prog response) : prog (option error) := bind p (fun '(_, err) => Return err).
Lemma context_answer : context answer.
Proof. apply context_bind. Qed.
(** The context of a part of [Restart]. *)
Definition restarting (env2 : core_env) (p : prog response) : prog (option error) := answer (DeferPanicToError "startmobile" (errorWrapper env2 UNEXPECTED_ERROR) p).
Lemma context_restarting env2 : context (restarting env2).
Proof. apply (context_comp answer); [apply context_answer|apply context_defer]. Qed.
(** After a panic, [Restart] recovers once more. *)
Lemma restarting_panics E env2 m c : (closing_panics [env2] -> E) -> stopped c -> exclusive E false (restarting env2 (Throw m)) c.
Proof.
  intros HE [[Hi Hs] Hst]. unfold restarting. cbn [DeferPanicToError]. apply (exclusive_ends E false answer); [apply context_answer|].
  eapply prog_ends_mono; [| |by apply errorWrapper_ends; [|by rewrite Hst]].
  - intros [info err] c2 [_ [H2 _]]. by split.
  - intros c2 [[H2 _] Hp] m'. cbn. split_and!; [done|done|by apply HE].
Qed.
Lemma restart_outside E env1 env2 debug tun r : (closing_panics [env2] -> E) -> outside E (answer (Restart env1 env2 debug tun r)).
Proof.
  intros HE.
  set (next := fun '(resp, err) => match err with Some e => Return (resp, Some e) | None => if tun then Choose restart_cancelled (StartService env2 debug r) else StartService env2 debug r end : prog response).
  assert (outside E (restarting env2 (StartService env2 debug r))) as Hstart.
  { apply guarded_outside; [apply context_restarting| | |].
    - intros c Hc. eapply prog_ends_mono; [|done|by apply start_locked_ends]. intros [info err] c' [H _]. by split.
    - intros info e c [H _]. by split.
    - intros _ m c. by apply restarting_panics. }
  change (outside E ((fun p => restarting env2 (bind p next)) (Stop env1))). apply guarded_outside.
  - apply (context_comp (restarting env2)); [apply context_restarting|apply context_bind].
  - intros c Hc. eapply prog_ends_mono; [|done|by apply stop_locked_ends]. intros [resp [e|]] c' [H _]; (split; [done|]); cbn [bind next]; [done|].
    destruct tun; [|done]. split; [|done]. cbn. intros c2 H2. split; [done|]. by apply status_stopped.
  - intros info e c [H _]. by split.
  - intros _ m c. by apply restarting_panics.
Qed.
Lemma close_outside E env1 env2 : (closing_panics [env2] -> E) -> outside E (Close env1 env2).
Proof.
  intros HE. apply (guarded_outside E env1 "stop" (stop_locked env1) (fun p => DeferPanicToError "close" _ (bind p (fun '(_, err) => Return err)))).
  - apply (context_comp (DeferPanicToError "close" _)); [apply context_defer|apply context_bind].
  - intros c Hc. eapply prog_ends_mono; [|done|by apply stop_locked_ends]. intros [resp err] c' [H _]. by split.
  - intros info e c [H _]. by split.
  - intros _ m c [[Hi Hs] Hst]. cbn [bind DeferPanicToError]. apply (exclusive_ends E false (fun p => bind p (fun _ : unit => Return None))); [apply context_bind|].
    eapply prog_ends_mono; [| |by apply StopAndAlert_ends; [|by rewrite Hst]].
    + intros [] c2 [H2 _]. by split.
    + intros c2 [[H2 _] Hp] m'. cbn. split_and!; [done|done|by apply HE].
Qed.
Lemma op_prog_outside o : op_outside o (op_prog o).
Proof.
  unfold op_outside. destruct o as [env debug r|env|env1 env2 debug tun r|env1 env2]; cbn [op_prog op_envs].
  - apply (guarded_outside _ env "startmobile" (start_locked env debug r) answer); [apply context_answer| | |].
    + intros c Hc. eapply prog_ends_mono; [|done|by apply start_locked_ends]. intros [info err] c' [H _]. by split.
    + intros info e c [H _]. by split.
    + intros Hp m c [H _]. by split_and!.
  - apply (guarded_outside _ env "stop" (stop_locked env) answer); [apply context_answer| | |].
    + intros c Hc. eapply prog_ends_mono; [|done|by apply stop_locked_ends]. intros [info err] c' [H _]. by split.
    + intros info e c [H _]. by split.
    + intros Hp m c [H _]. by split_and!.
  - apply restart_outside. apply closing_panics_mono. set_solver.
  - apply close_outside. apply closing_panics_mono. set_solver.
Qed.

(** ** All calls *)

Definition call_outside (x : core_op * prog (option error)) : Prop := op_outside (fst x) (snd x).
Definition idle (s : core_system) (j : nat) (x : core_op * prog (option error)) : Prop := call_outside x /\ (j ∈ sy_unguarded s -> has_ended (snd x) = true).
(** Nobody is at work; one call holds the lock; or one writes where nobody comes between. *)
Inductive system_ok (s : core_system) : Prop :=
| ok_quiet : sy_lock s = None -> good (sy_core s) -> (forall j x, sy_calls s !! j = Some x -> idle s j x) -> system_ok s
| ok_locked i o p : sy_calls s !! i = Some (o, p) -> (i ∉ sy_unguarded s) -> sy_lock s = Some i -> locked (closing_panics (op_envs o)) p (sy_core s) ->
    (forall j x, j <> i -> sy_calls s !! j = Some x -> idle s j x) -> system_ok s
| ok_exclusive i o p held : sy_calls s !! i = Some (o, p) -> i ∈ sy_unguarded s -> has_ended p = false -> sy_lock s = (if held : bool then Some i else None) ->
    exclusive (closing_panics (op_envs o)) held p (sy_core s) -> (forall j x, j <> i -> sy_calls s !! j = Some x -> idle s j x) -> system_ok s.
(** The calls after [i] has gone on. *)
Lemma calls_after s i x (P : nat -> core_op * prog (option error) -> Prop) : P i x -> (forall j y, j <> i -> sy_calls s !! j = Some y -> P j y) ->
  forall j y, <[i := x]> (sy_calls s) !! j = Some y -> P j y.
Proof. intros Hi Hj j y H. apply lookup_insert_Some in H as [[<- <-]|[Hne H]]; [done|]. by apply Hj. Qed.
(** A call that writes alone ends, or goes on so. *)
Lemma exclusive_next s i o k held c lock calls unguarded : exclusive (closing_panics (op_envs o)) held k c -> lock = (if held : bool then Some i else None) -> i ∈ unguarded ->
  calls !! i = Some (o, k) -> (forall j x, j <> i -> calls !! j = Some x -> idle s j x) -> (forall j, j ∈ unguarded -> j = i \/ j ∈ sy_unguarded s) -> system_ok (mkCoreSystem c lock calls unguarded).
Proof.
  intros Hx Hl Hu Hc Hj Hsub. assert (forall j x, j <> i -> calls !! j = Some x -> idle (mkCoreSystem c lock calls unguarded) j x) as Hj'.
  { intros j x Hne H. destruct (Hj j x Hne H) as [H1 H2]. split; [done|]. cbn. intros Hin. apply H2. by destruct (Hsub j Hin). }
  destruct (has_ended k) eqn:Ee.
  - assert (held = false /\ good c /\ outside (closing_panics (op_envs o)) k) as (-> & Hg & Ho) by (destruct k; cbn in *; try done; tauto). subst lock. apply ok_quiet; [done|done|]. cbn.
    intros j x H. destruct (decide (j = i)) as [->|Hne]; [|by apply Hj']. rewrite Hc in H. injection H as <-. by split.
  - by apply (ok_exclusive _ i o k held).
Qed.
Lemma core_step_ok l s s' : system_ok s -> (forall j, j ∈ sy_unguarded s -> is_Some (sy_calls s !! j)) -> undisturbed l s -> core_step l s = Some s' -> system_ok s'.
Proof.
  intros Hs Hdom [Hu1 Hu2] Hstep. destruct l as [i o|i b]; cbn [core_step] in Hstep.
  - destruct (sy_calls s !! i) eqn:Hi; [done|]. injection Hstep as <-.
    assert (idle s i (o, op_prog o)) as Hnew by (split; [apply op_prog_outside|intros Hin; destruct (Hdom i Hin); congruence]).
    destruct Hs as [Hl Hg Hj|i0 o0 p0 H0 Hn Hl Hw Hj|i0 o0 p0 held H0 Hin He Hl Hx Hj].
    + apply ok_quiet; [done|done|]. cbn. apply calls_after; [done|]. intros j x _. apply Hj.
    + apply (ok_locked _ i0 o0 p0); [cbn; rewrite lookup_insert_ne; [done|congruence]|done|done|done|]. cbn. intros j x Hne H.
      apply lookup_insert_Some in H as [[<- <-]|[_ H]]; [done|by apply Hj].
    + destruct (Hu1 i0 o0 p0 Hin H0 He) as [b [=]].
  - destruct (sy_calls s !! i) as [[o p]|] eqn:Hi; [|done].
    destruct Hs as [Hl Hg Hj|i0 o0 p0 H0 Hn Hl Hw Hj|i0 o0 p0 held H0 Hin He Hl Hx Hj].
    + destruct (Hj i _ Hi) as [Ho Hun]. unfold call_outside, op_outside in Ho. cbn [fst snd] in Ho, Hun.
      destruct p as [a|m|f k|k|k|k|k1 k2]; try done.
      * rewrite Hl in Hstep. injection Hstep as <-. apply (ok_locked _ i o k); cbn; [by rewrite lookup_insert_eq| |done|by apply Ho|].
        { intros Hin. by specialize (Hun Hin). } intros j x Hne H. rewrite lookup_insert_ne in H by done. by apply Hj.
      * injection Hstep as <-. destruct (Hu2 i b o k eq_refl Hi) as [_ Hst]; [by rewrite Hl|]. apply (exclusive_next s i o k false); [by apply Ho|done|set_solver|by rewrite lookup_insert_eq| |].
        { intros j x Hne H. rewrite lookup_insert_ne in H by done. by apply Hj. } { intros j Hin. set_solver. }
      * injection Hstep as <-. apply ok_quiet; [done|done|]. cbn. apply calls_after; [|intros j x _; apply Hj]. split; [by destruct Ho, b|].
        intros Hin. by specialize (Hun Hin).
    + destruct (decide (i = i0)) as [->|Hne].
      * rewrite Hi in H0. injection H0 as -> ->. destruct p0 as [a|m|f k|k|k|k|k1 k2]; try done; injection Hstep as <-.
        -- apply (ok_locked _ i0 o0 (k (sy_core s))); cbn; [by rewrite lookup_insert_eq|done|done|done|]. intros j x Hne' H. rewrite lookup_insert_ne in H by done. by apply Hj.
        -- destruct Hw as [Hg Ho]. apply ok_quiet; [done|done|]. cbn. apply calls_after; [by split|done].
        -- apply (exclusive_next s i0 o0 k true); [done|done|set_solver|by rewrite lookup_insert_eq| |]; [intros j x Hne' H; rewrite lookup_insert_ne in H by done; by apply Hj|set_solver].
      * destruct (Hj i _ Hne Hi) as [Ho Hun]. unfold call_outside, op_outside in Ho. cbn [fst snd] in Ho, Hun. destruct p as [a|m|f k|k|k|k|k1 k2]; try done.
        -- by rewrite Hl in Hstep.
        -- destruct (Hu2 i b o k eq_refl Hi) as [Hl' _]; [rewrite Hl; congruence|congruence].
        -- injection Hstep as <-. apply (ok_locked _ i0 o0 p0); cbn; [by rewrite lookup_insert_ne|done|done|done|]. intros j x Hne' H.
           apply lookup_insert_Some in H as [[<- <-]|[_ H]]; [|by apply Hj]. split; [by destruct Ho, b|]. intros Hin. by specialize (Hun Hin).
    + destruct (Hu1 i0 o0 p0 Hin H0 He) as [b' [= <- <-]]. rewrite Hi in H0. injection H0 as -> ->.
      assert (forall (k : prog (option error)) j x, j <> i -> <[i := (o0, k)]> (sy_calls s) !! j = Some x -> idle s j x) as Hj' by (intros k j x Hne H; rewrite lookup_insert_ne in H by done; by apply Hj).
      destruct p0 as [a|m|f k|k|k|k|k1 k2]; try done; injection Hstep as <-.
      * apply (exclusive_next s i o0 (k (sy_core s)) held); [done|done|done|by rewrite lookup_insert_eq|by apply Hj'|auto].
      * destruct Hx as [-> Hx]. apply (exclusive_next s i o0 k false); [done|done|done|by rewrite lookup_insert_eq|by apply Hj'|auto].
Qed.
Lemma core_step_calls l s s' j : core_step l s = Some s' -> (forall j, j ∈ sy_unguarded s -> is_Some (sy_calls s !! j)) -> j ∈ sy_unguarded s' -> is_Some (sy_calls s' !! j).
Proof.
  intros Hstep Hdom. assert (forall (i : nat) (x : core_op * prog (option error)), is_Some (sy_calls s !! j) \/ j = i -> is_Some (<[i := x]> (sy_calls s) !! j)) as Hi.
  { intros i x H. destruct (decide (j = i)) as [->|Hne]; [rewrite lookup_insert_eq; by eexists|]. rewrite lookup_insert_ne by done. by destruct H. }
  destruct l as [i o|i b]; cbn [core_step] in Hstep; destruct (sy_calls s !! i) as [[o' p]|] eqn:E; try done.
  - injection Hstep as <-. cbn. intros Hin. apply Hi. left. by apply Hdom.
  - destruct p; try done; try (destruct (sy_lock s); try done); injection Hstep as <-; cbn; intros Hin; apply Hi; try (left; by apply Hdom); apply elem_of_union in Hin as [Hin|Hin];
      first [right; by apply elem_of_singleton in Hin | left; by apply Hdom].
Qed.
Lemma core_reachable_ok settings s : core_reachable settings s -> system_ok s /\ forall j, j ∈ sy_unguarded s -> is_Some (sy_calls s !! j).
Proof.
  induction 1 as [|l s s' _ [Hs Hdom] Hu Hstep].
  - split; [|intros j Hin; set_solver]. apply ok_quiet; cbn; [done|by split; [apply core_new_inv|]|]. intros j x H. by rewrite lookup_empty in H.
  - split; [by eapply core_step_ok|]. intros j. by eapply core_step_calls.
Qed.

(** C38: the engine is started and stopped cleanly, in every interleaving of calls of [StartService], [Stop], [Restart] and [Close], with whatever errors and panics below them, in which nobody
    comes between while a call recovers from a panic without the lock, and a restart that waits is cancelled only while the engine is still stopped and no call holds the lock (without that, services are lost:
    [restart_cancel_loses_service], [recovery_stops_another]).  Whenever no call is inside, the state is STOPPED or STARTED; when it is STARTED one service runs, which has
    not been closed, and every other service ever made has been told to close; when it is STOPPED all of them have; and the states published follow each other as they should (a
    start is announced before it is done, and a service that runs is stopping before it is stopped).  A panic reaches a caller only when closing a service panicked. *)
Theorem core_lifecycle settings s : core_reachable settings s ->
  (sy_lock s = None -> (forall i o p, i ∈ sy_unguarded s -> sy_calls s !! i = Some (o, p) -> has_ended p = true) -> let c := sy_core s in
    (co_CoreState c = STOPPED \/ co_CoreState c = STARTED) /\
    (co_CoreState c = STARTED -> exists s, co_StartedService c = Some s /\ (s ∉ co_closes c) /\ forall s', (s' < co_made c)%nat -> s' <> s -> s' ∈ co_closes c) /\
    (co_CoreState c = STOPPED -> forall s, (s < co_made c)%nat -> s ∈ co_closes c) /\
    status_path STOPPED (states c)) /\
  (forall i o m, sy_calls s !! i = Some (o, Throw m) -> exists env n m', env ∈ op_envs o /\ ce_Close env n = Panic m').
Proof.
  intros H. apply core_reachable_ok in H as [Hs _]. split.
  - intros Hl Hq. assert (good (sy_core s)) as [Hi Hset].
    { destruct Hs as [|i o p H0 Hn Hl' Hw|i o p held H0 Hin He]; [done|congruence|]. specialize (Hq i o p Hin H0). congruence. }
    cbn zeta. unfold settled in Hset. destruct Hi as [I1 _ I3 I4 I5]. split_and!; [|..|done].
    + destruct (co_CoreState (sy_core s)); auto; by destruct (co_StartedService (sy_core s)).
    + intros E. rewrite E in Hset. destruct (co_StartedService (sy_core s)) as [ss|]; [|done]. exists ss. split_and!; [done..|]. intros s' Hlt Hne. destruct (I3 s' Hlt) as [[= ->]|]; done.
    + intros E ss Hlt. rewrite E in Hset. destruct (I3 ss Hlt) as [E'|]; [|done]. by rewrite E' in Hset.
  - intros i o m Hi. destruct Hs as [Hl Hg Hj|i0 o0 p0 H0 Hn Hl Hw Hj|i0 o0 p0 held H0 Hin He Hl Hx Hj].
    + by destruct (Hj i _ Hi).
    + destruct (decide (i = i0)) as [->|Hne]; [rewrite Hi in H0; by injection H0 as <- <-|]. by destruct (Hj i _ Hne Hi).
    + destruct (decide (i = i0)) as [->|Hne]; [rewrite Hi in H0; by injection H0 as <- <-|]. by destruct (Hj i _ Hne Hi).
Qed.

(** ** The request that is kept *)

(** A start without a request takes the path, content and name of the last start whose configuration was built, when it was stored; the flags are lost. *)
Lemma load_saved r settings :
  str_empty (sr_ConfigContent r) && str_empty (sr_ConfigPath r) = false ->
  loadLastStartRequestIfNeeded (fun _ => None) None (saveLastStartRequest 3 r settings) =
  Ok (mkStartRequest (sr_ConfigPath r) (sr_ConfigContent r) false false false false (sr_ConfigName r)).
Proof.
  intros E. unfold saveLastStartRequest. rewrite E. unfold loadLastStartRequestIfNeeded, get_setting. cbn [request_keys request_values zip zip_with take foldl fst snd].
  by simplify_map_eq.
Qed.

(** ** Examples *)

(** [undisturbed], decided. *)
Definition undisturbedb (l : core_label) (s : core_system) : bool :=
  forallb (fun i => match sy_calls s !! i, l with
    | Some (_, p), Go j _ => has_ended p || bool_decide (j = i)
    | Some (_, p), Begin _ _ => has_ended p
    | None, _ => true
    end) (elements (sy_unguarded s)) &&
  match l with
  | Go i _ =>
      match sy_calls s !! i with
      | Some (_, Unguarded _) => bool_decide (sy_lock s = Some i) || (bool_decide (sy_lock s = None) && match co_CoreState (sy_core s) with STOPPED => true | _ => false end)
      | _ => true
      end
  | Begin _ _ => true
  end.
Lemma undisturbedb_true l s : undisturbedb l s = true -> undisturbed l s.
Proof.
  intros H. apply andb_true_iff in H as [H1 H2]. rewrite forallb_forall in H1. split.
  - intros i o p Hin Hi He. specialize (H1 i). rewrite Hi, He in H1. cbn in H1. specialize (H1 ltac:(by apply list_elem_of_In, elem_of_elements)).
    destruct l as [j o'|j b]; [done|]. apply bool_decide_eq_true in H1 as ->. by exists b.
  - intros i b o p -> Hi Hne. rewrite Hi in H2. apply orb_true_iff in H2 as [H2|H2]; [by apply bool_decide_eq_true in H2|].
    apply andb_true_iff in H2 as [H2 H3]. apply bool_decide_eq_true in H2. split; [done|]. by destruct (co_CoreState (sy_core s)).
Qed.
(** Labels, [n] times each; with [check] only as far as nobody is disturbed. *)
Fixpoint repeat_step (check : bool) (l : core_label) (n : nat) (s : core_system) : core_system :=
  match n with
  | O => s
  | S n => if check && negb (undisturbedb l s) then s else match core_step l s with Some s => repeat_step check l n s | None => s end
  end.
Fixpoint schedule (check : bool) (ls : list (core_label * nat)) (s : core_system) : core_system :=
  match ls with [] => s | (l, n) :: ls => schedule check ls (repeat_step check l n s) end.
Lemma repeat_reachable settings l n : forall s, core_reachable settings s -> core_reachable settings (repeat_step true l n s).
Proof.
  induction n as [|n IH]; intros s H; [done|]. cbn [repeat_step]. destruct (undisturbedb l s) eqn:E; cbn; [|done]. destruct (core_step l s) as [s'|] eqn:Es; [|done].
  apply IH. eapply reachable_step; [done|by apply undisturbedb_true|done].
Qed.
Lemma schedule_reachable settings ls : forall s, core_reachable settings s -> core_reachable settings (schedule true ls s).
Proof. induction ls as [|[l n] ls IH]; intros s H; [done|]. cbn [schedule]. by apply IH, repeat_reachable. Qed.

Definition quiet : core_env := mkCoreEnv (fun _ => None) (Ok tt) 3 (Ok tt) (Ok tt) (Ok tt) [] (fun _ => Ok tt).
(** The first [CloseService] panics. *)
Definition panicking : core_env := mkCoreEnv (fun _ => None) (Ok tt) 3 (Ok tt) (Ok tt) (Ok tt) [] (fun n => match n with O => Panic "closed" | _ => Ok tt end).
Definition some_request : option StartRequest := Some (mkStartRequest "config.json" "" false false false false "home").
Definition a_start : core_op := OpStart quiet false some_request.
Definition a_restart : core_op := OpRestart quiet quiet false true some_request.
Definition alone (i : nat) (o : core_op) : list (core_label * nat) := [(Begin i o, 1); (Go i false, 50)].
Definition summary (s : core_system) : CoreStates * option nat * nat * list nat :=
  (co_CoreState (sy_core s), co_StartedService (sy_core s), co_made (sy_core s), co_closes (sy_core s)).

(** A restart stops the engine and waits; another call starts it; the restart goes on and finds it started. *)
Definition calls_overlap : core_system := schedule true (alone 1 a_start ++ [(Begin 2 a_restart, 1); (Go 2 false, 9)] ++ alone 3 a_start ++ [(Go 2 false, 50)]) (system_new ∅).
Lemma core_lifecycle_witness : summary calls_overlap = (STARTED, Some 1, 2, [0])%nat /\ status_path STOPPED (states (sy_core calls_overlap)).
Proof.
  split; [vm_compute; reflexivity|]. refine (proj2 (proj2 (proj2 (proj1 (core_lifecycle ∅ calls_overlap (schedule_reachable ∅ _ _ (reachable_new ∅))) _ _)))).
  - vm_compute. reflexivity.
  - intros i o p Hin. assert (sy_unguarded calls_overlap = ∅) as E by (vm_compute; reflexivity). rewrite E in Hin. exfalso. revert Hin. apply not_elem_of_empty.
Defined.
(** While [Restart] waits it does not hold the lock.  A start then, and the end of the context of [Restart] after it: the state says STOPPED
    while a service runs, and the next start makes another one over it.  Service 1 is not closed and no longer known. *)
Example restart_cancel_loses_service :
  let s := schedule false (alone 1 a_start ++ [(Begin 2 a_restart, 1); (Go 2 false, 9)] ++ alone 3 a_start ++ [(Go 2 true, 50)]) (system_new ∅) in
  summary s = (STOPPED, Some 1, 2, [0])%nat /\ summary (schedule false (alone 4 a_start) s) = (STARTED, Some 2, 3, [0])%nat.
Proof. split; vm_compute; reflexivity. Qed.
(** The recovery of [Stop] runs after the lock is released.  It sets the state to STOPPED, a start makes service 1, and the recovery closes it: the start ends
    with the state STARTED, and no service runs. *)
Example recovery_stops_another :
  summary (schedule false (alone 1 a_start ++ [(Begin 2 (OpStop panicking), 1); (Go 2 false, 8); (Begin 3 a_start, 1); (Go 3 false, 9); (Go 2 false, 50); (Go 3 false, 50)]) (system_new ∅)) =
  (STARTED, None, 2, [0; 1])%nat.
Proof. vm_compute. reflexivity. Qed.

(** ** The average of pings (hcore/independent_instance.go) *)

(** [pings] are the milliseconds of the [count] pings, or nothing for one that failed. *)
Fixpoint ping_loop (count i : Z) (pings : list (option Z)) (sum real_count : Z) : result Z :=
  match pings with
  | [] => if bool_decide (real_count = 0)%Z then Panic "runtime error: integer divide by zero" else Ok (wrap64 (Z.quot sum real_count * 1000000))
  | Some delay :: pings => ping_loop count (i + 1) pings (wrap64 (sum + delay)) (real_count + 1)
  | None :: pings => if bool_decide (real_count = 0)%Z && bool_decide (i > count / 2)%Z then Err (ENew "ping average failed") else ping_loop count (i + 1) pings sum real_count
  end.
Definition PingAverage (pings : list (option Z)) : result Z :=
  let count := Z.of_nat (length pings) in
  if bool_decide (count <= 0)%Z then Err (ENew "count must be greater than 0") else ping_loop count 0 pings 0 0.

Definition no_answer (p : option Z) : bool := if p is None then true else false.
Definition total (pings : list (option Z)) : Z := foldr Z.add 0%Z (omap id pings).
Definition average (pings : list (option Z)) : Z := wrap64 (Z.quot (wrap64 (total pings)) (Z.of_nat (length (omap id pings))) * 1000000).
Lemma ping_loop_some count pings : forall i sum n, (0 < n)%nat ->
  ping_loop count i pings (wrap64 sum) (Z.of_nat n) = Ok (wrap64 (Z.quot (wrap64 (sum + total pings)) (Z.of_nat (n + length (omap id pings))) * 1000000)).
Proof.
  induction pings as [|[d|] pings IH]; intros i sum n Hn; cbn [ping_loop].
  - rewrite bool_decide_false by lia. unfold total. cbn. by rewrite Z.add_0_r, Nat.add_0_r.
  - rewrite wrap64_add. replace (Z.of_nat n + 1)%Z with (Z.of_nat (S n)) by lia. rewrite IH by lia. unfold total. cbn [omap list_omap id foldr length]. by rewrite Z.add_assoc, Nat.add_succ_r.
  - rewrite bool_decide_false by lia. cbn [andb]. by rewrite IH.
Qed.
Lemma ping_loop_none count pings : forall i, (i + Z.of_nat (length pings) = count)%Z -> (0 <= i <= count / 2 + 1)%Z ->
  ping_loop count i pings 0 0 =
  if forallb no_answer (take (Z.to_nat (count / 2 + 2 - i)) pings) then
    (if bool_decide (count / 2 + 2 <= count)%Z then Err (ENew "ping average failed") else Panic "runtime error: integer divide by zero")
  else Ok (average pings).
Proof.
  induction pings as [|p pings IH]; intros i Hc Hi; [rewrite take_nil; cbn [ping_loop length forallb] in *; by rewrite (bool_decide_false (count / 2 + 2 <= count)%Z) by lia|].
  replace (Z.to_nat (count / 2 + 2 - i)) with (S (Z.to_nat (count / 2 + 2 - (i + 1)))) by lia. cbn [take forallb]. cbn [length] in Hc. destruct p as [d|]; cbn [no_answer andb ping_loop].
  - change (0 + 1)%Z with (Z.of_nat 1). rewrite ping_loop_some by lia. unfold average, total. cbn [omap list_omap id foldr length]. by rewrite Z.add_0_l.
  - rewrite bool_decide_true by done. cbn [andb]. destruct (decide (i > count / 2)%Z) as [Hg|Hg]; [rewrite (bool_decide_true (i > count / 2)%Z) by done|rewrite (bool_decide_false (i > count / 2)%Z) by done].
    + replace (Z.to_nat (count / 2 + 2 - (i + 1))) with 0%nat by lia. cbn [take forallb]. by rewrite bool_decide_true by lia.
    + by rewrite IH by lia.
Qed.
(** [PingAverage] in full.  It gives up when none of the first [count / 2 + 2] pings is answered, which it never finds out with a count of 1 or 2: then it
    divides by 0. *)
Theorem PingAverage_reference pings :
  PingAverage pings =
  match pings with
  | [] => Err (ENew "count must be greater than 0")
  | _ =>
      if forallb no_answer (take (length pings / 2 + 2) pings) then
        (if (length pings <=? 2)%nat then Panic "runtime error: integer divide by zero" else Err (ENew "ping average failed"))
      else Ok (average pings)
  end.
Proof.
  destruct pings as [|p l]; [done|]. set (pings := p :: l). assert (0 < length pings)%nat as Hl by (cbn; lia). unfold PingAverage.
  rewrite bool_decide_false by lia. rewrite ping_loop_none; [|lia|pose proof (Z.div_pos (Z.of_nat (length pings)) 2 ltac:(lia) ltac:(lia)); lia].
  replace (Z.to_nat (Z.of_nat (length pings) / 2 + 2 - 0)) with (length pings / 2 + 2)%nat by (rewrite Z.sub_0_r; change 2%Z with (Z.of_nat 2); rewrite <- Nat2Z.inj_div, <- Nat2Z.inj_add, Nat2Z.id; done).
  destruct (forallb no_answer _); [|done]. pose proof (Z.div_mod (Z.of_nat (length pings)) 2 ltac:(lia)). pose proof (Z.mod_pos_bound (Z.of_nat (length pings)) 2 ltac:(lia)).
  case_bool_decide; destruct (Nat.leb_spec (length pings) 2); try done; lia.
Qed.
