(* ===== verification/Broadcaster.v ===== *)
(** * Broadcaster: events to subscribers

    common/monitoring/brodcaster.go: the broadcaster of the groups' events and of the states of the core.  Channels are numbered in the order they are
    made, with what is in their buffer, the readers that wait, and, to state what a subscriber sees, what has been received from them.  [Subscribe], [Unsubscribe] and
    [closeAll] hold the write lock: each is one step, and none is taken while a publisher is inside.  [Publish] holds the read lock, so that publishers overlap: its
    start, its turn for a subscriber and its end are steps of their own.  The subscribers are visited in any order (a Go map), and [select] picks any case that is ready. *)

From S2P Require Import Prelude GoStd TransportBase.
From stdpp Require Import gmap list.
From Stdlib Require Import Sorting.Sorted.
Open Scope string_scope.
Open Scope list_scope.

Section Broadcaster.
Context {T : Type}.

(** An event comes with the number of its publication. *)
Record channel : Type := mkChannel { ch_cap : nat; ch_buf : list (nat * T); ch_waiting : nat; ch_closed : bool; ch_got : list (nat * T) }.
(** A send succeeds at once when a reader waits, which then has the event, or when the buffer has room. *)
Definition ready (c : channel) : bool := (0 <? ch_waiting c)%nat || (length (ch_buf c) <? ch_cap c)%nat.
Definition ch_send (x : nat * T) (c : channel) : channel :=
  if (0 <? ch_waiting c)%nat then mkChannel (ch_cap c) (ch_buf c) (pred (ch_waiting c)) (ch_closed c) (ch_got c ++ [x])
  else mkChannel (ch_cap c) (ch_buf c ++ [x]) (ch_waiting c) (ch_closed c) (ch_got c).
(** The readers that wait go on without an event. *)
Definition ch_close (c : channel) : channel := mkChannel (ch_cap c) (ch_buf c) 0 true (ch_got c).

(** A call of [Publish]: its event, the subscribers it has not visited ([None]: it has ended), and the calls that had ended when it began. *)
Record publication : Type := mkPublication { pb_event : T; pb_todo : option (gset nat); pb_after : gset nat }.
(** [br_subs] is [None] when the map is nil. *)
Record Broadcaster : Type := mkBroadcaster {
  br_chans : list channel; br_subs : option (gset nat); br_done : bool; br_watching : bool; br_pubs : gmap nat publication
}.
Definition NewBroadcaster : Broadcaster := mkBroadcaster [] (Some ∅) false true ∅.
Definition subs_of (b : Broadcaster) : gset nat := default ∅ (br_subs b).
(** Nobody holds the read lock. *)
Definition unlocked (b : Broadcaster) : bool := bool_decide (map_Forall (fun _ pb => pb_todo pb = None) (br_pubs b)).
Definition ended (b : Broadcaster) : gset nat := dom (filter (fun kv : nat * publication => pb_todo kv.2 = None) (br_pubs b)).
Definition set_chans (chans : list channel) (b : Broadcaster) : Broadcaster := mkBroadcaster chans (br_subs b) (br_done b) (br_watching b) (br_pubs b).

Definition close_chan (i : nat) (chans : list channel) : result (list channel) :=
  match chans !! i with
  | Some c => if ch_closed c then Panic "close of closed channel" else Ok (<[i := ch_close c]> chans)
  | None => Panic "close of nil channel"
  end.
Definition Subscribe (buffer : nat) (b : Broadcaster) : result Broadcaster :=
  let c := mkChannel buffer [] 0 (br_done b) [] in
  let chans := br_chans b ++ [c] in
  if br_done b then Ok (set_chans chans b)
  else
    match br_subs b with
    | Some subs => Ok (mkBroadcaster chans (Some ({[length (br_chans b)]} ∪ subs)) (br_done b) (br_watching b) (br_pubs b))
    | None => Panic "assignment to entry in nil map"
    end.
Definition Unsubscribe (ch : nat) (b : Broadcaster) : result Broadcaster :=
  if bool_decide (ch ∈ subs_of b) then
    let! chans := close_chan ch (br_chans b) in
    Ok (mkBroadcaster chans (Some (subs_of b ∖ {[ch]})) (br_done b) (br_watching b) (br_pubs b))
  else Ok b.

(** [Publish]: the start of the call [p], its turn for the subscriber [ch], and its end.  [stop]: the done context is picked, where it is done. *)
Definition set_publication (p : nat) (pb : publication) (b : Broadcaster) : Broadcaster :=
  mkBroadcaster (br_chans b) (br_subs b) (br_done b) (br_watching b) (<[p := pb]> (br_pubs b)).
Definition Publish_begin (p : nat) (event : T) (b : Broadcaster) : Broadcaster :=
  set_publication p (mkPublication event (Some (subs_of b)) (ended b)) b.
Definition Publish_offer (p : nat) (pb : publication) (todo : gset nat) (ch : nat) (stop : bool) (b : Broadcaster) : result Broadcaster :=
  let next todo := set_publication p (mkPublication (pb_event pb) (Some todo) (pb_after pb)) in
  match br_chans b !! ch with
  | None => Panic "send on nil channel"
  | Some c =>
      if ch_closed c then Panic "send on closed channel"
      else if br_done b && (stop || negb (ready c)) then Ok (next ∅ b)
      else if ready c then Ok (next (todo ∖ {[ch]}) (set_chans (<[ch := ch_send (p, pb_event pb) c]> (br_chans b)) b))
      else Ok (next (todo ∖ {[ch]}) b)
  end.
Definition Publish_end (p : nat) (pb : publication) (b : Broadcaster) : Broadcaster :=
  set_publication p (mkPublication (pb_event pb) None (pb_after pb)) b.

(** [Close], or the end of the parent context. *)
Definition Broadcaster_Close (b : Broadcaster) : Broadcaster := mkBroadcaster (br_chans b) (br_subs b) true (br_watching b) (br_pubs b).
Fixpoint close_subs (order : list nat) (chans : list channel) : result (list channel) :=
  match order with [] => Ok chans | i :: order => let! chans := close_chan i chans in close_subs order chans end.
Definition closeAll (b : Broadcaster) : result Broadcaster :=
  let! chans := close_subs (elements (subs_of b)) (br_chans b) in
  Ok (mkBroadcaster chans None (br_done b) false (br_pubs b)).

Inductive broadcast_label : Type :=
| BSubscribe (buffer : nat) | BUnsubscribe (ch : nat)
| BBegin (p : nat) (event : T) | BOffer (p ch : nat) (stop : bool) | BEnd (p : nat)
| BClose
| BCloseAll (* the goroutine [watchContext] *)
| BReceive (ch : nat) (* a reader takes the first event of the buffer *)
| BWait (ch : nat) | BLeave (ch : nat) (* a reader waits; it gives up *).
Definition broadcast_step (l : broadcast_label) (b : Broadcaster) : result Broadcaster :=
  match l with
  | BSubscribe buffer => if unlocked b then Subscribe buffer b else Err disabled
  | BUnsubscribe ch => if unlocked b then Unsubscribe ch b else Err disabled
  | BBegin p event => match br_pubs b !! p with None => Ok (Publish_begin p event b) | Some _ => Err disabled end
  | BOffer p ch stop =>
      match br_pubs b !! p with
      | Some (mkPublication e (Some todo) after) =>
          if bool_decide (ch ∈ todo) then Publish_offer p (mkPublication e (Some todo) after) todo ch stop b else Err disabled
      | _ => Err disabled
      end
  | BEnd p =>
      match br_pubs b !! p with
      | Some (mkPublication e (Some todo) after) =>
          if bool_decide (todo = ∅) then Ok (Publish_end p (mkPublication e (Some todo) after) b) else Err disabled
      | _ => Err disabled
      end
  | BClose => Ok (Broadcaster_Close b)
  | BCloseAll => if unlocked b && br_done b && br_watching b then closeAll b else Err disabled
  | BReceive ch =>
      match br_chans b !! ch with
      | Some (mkChannel cap (e :: buf) waiting closed got) => Ok (set_chans (<[ch := mkChannel cap buf waiting closed (got ++ [e])]> (br_chans b)) b)
      | _ => Err disabled
      end
  | BWait ch =>
      match br_chans b !! ch with
      | Some (mkChannel cap [] waiting false got) => Ok (set_chans (<[ch := mkChannel cap [] (S waiting) false got]> (br_chans b)) b)
      | _ => Err disabled
      end
  | BLeave ch =>
      match br_chans b !! ch with
      | Some (mkChannel cap buf (S waiting) closed got) => Ok (set_chans (<[ch := mkChannel cap buf waiting closed got]> (br_chans b)) b)
      | _ => Err disabled
      end
  end.
Fixpoint broadcast_run (ls : list broadcast_label) (b : Broadcaster) : result Broadcaster :=
  match ls with [] => Ok b | l :: ls => let! b := broadcast_step l b in broadcast_run ls b end.

(** ** Safety *)

Definition seen (c : channel) : list (nat * T) := ch_got c ++ ch_buf c.
(** [q] had not ended when [p] began: [p] may come before [q]. *)
Definition may_precede (pubs : gmap nat publication) (p q : nat) : Prop := forall pb, pubs !! p = Some pb -> q ∉ pb_after pb.
Record chan_ok (pubs : gmap nat publication) (c : channel) : Prop := mkChanOk {
  ck_cap : (length (ch_buf c) <= ch_cap c)%nat;
  ck_waiting : (0 < ch_waiting c)%nat -> ch_buf c = [];
  ck_once : NoDup (map fst (seen c));
  ck_event : forall p e, (p, e) ∈ seen c -> exists pb, pubs !! p = Some pb /\ pb_event pb = e;
  ck_order : StronglySorted (may_precede pubs) (map fst (seen c))
}.
Record broadcast_inv (b : Broadcaster) : Prop := mkBroadcastInv {
  bi_subs : forall i, i ∈ subs_of b <-> exists c, br_chans b !! i = Some c /\ ch_closed c = false;
  bi_chan : forall i c, br_chans b !! i = Some c -> chan_ok (br_pubs b) c;
  bi_todo : forall p pb todo, br_pubs b !! p = Some pb -> pb_todo pb = Some todo ->
    todo ⊆ subs_of b /\ forall i c, i ∈ todo -> br_chans b !! i = Some c -> p ∉ map fst (seen c);
  bi_after : forall p pb q, br_pubs b !! p = Some pb -> q ∈ pb_after pb -> exists pbq, br_pubs b !! q = Some pbq /\ pb_todo pbq = None;
  bi_self : forall p pb, br_pubs b !! p = Some pb -> p ∉ pb_after pb;
  bi_done : br_watching b = false -> br_done b = true;
  bi_nil : br_subs b = None <-> br_watching b = false
}.
Lemma NewBroadcaster_inv : broadcast_inv NewBroadcaster.
Proof. constructor; cbn; try done. intros i. split; [set_solver|]. by intros (c & ? & _). Qed.
Lemma unlocked_todo b p pb : unlocked b = true -> br_pubs b !! p = Some pb -> pb_todo pb = None.
Proof. unfold unlocked. intros H%bool_decide_eq_true. by apply H. Qed.
Lemma elem_of_ended b q : q ∈ ended b <-> exists pb, br_pubs b !! q = Some pb /\ pb_todo pb = None.
Proof.
  unfold ended. rewrite elem_of_dom. split.
  - intros [pb Hq]. apply map_lookup_filter_Some in Hq as [? ?]. by exists pb.
  - intros (pb & ? & ?). exists pb. by apply map_lookup_filter_Some.
Qed.
(** What was seen stays as it was when publications go on. *)
Lemma chan_ok_pubs pubs pubs' c : chan_ok pubs c -> (forall p pb, pubs !! p = Some pb -> exists pb', pubs' !! p = Some pb' /\ pb_event pb' = pb_event pb /\ pb_after pb' = pb_after pb) ->
  chan_ok pubs' c.
Proof.
  intros [H1 H2 H3 H4 H5] Hp. constructor; try done.
  - intros p e Hin. destruct (H4 p e Hin) as (pb & E & <-). destruct (Hp p pb E) as (pb' & E' & He & _). by exists pb'.
  - assert (forall p, p ∈ map fst (seen c) -> exists pb, pubs !! p = Some pb) as Hin.
    { intros p Hin. apply list_elem_of_In, in_map_iff in Hin as ([p' e] & <- & Hin). apply list_elem_of_In in Hin. destruct (H4 _ _ Hin) as (pb & E & _). by exists pb. }
    clear H3. revert H5 Hin. induction (map fst (seen c)) as [|p l IH]; intros H5 Hin; [constructor|]. apply StronglySorted_inv in H5 as [H5 Hf]. constructor.
    + apply IH; [done|]. intros q Hq. apply Hin. by right.
    + destruct (Hin p) as [pb E]; [by left|]. destruct (Hp p pb E) as (pb' & E' & _ & Ha). eapply Forall_impl; [exact Hf|]. intros q Hq pb0 E0.
      assert (pb0 = pb') as -> by congruence. rewrite Ha. by apply Hq.
Qed.
(** A channel goes on: its buffer, its readers, but not what has been seen. *)
Lemma chan_step_inv b i c c' : broadcast_inv b -> br_chans b !! i = Some c -> seen c' = seen c -> ch_closed c' = ch_closed c ->
  (length (ch_buf c') <= ch_cap c')%nat -> ((0 < ch_waiting c')%nat -> ch_buf c' = []) -> broadcast_inv (set_chans (<[i := c']> (br_chans b)) b).
Proof.
  intros [H1 H2 H3 H4 H7 H5 H6] Hi Hs Hc Hcap Hw.
  assert (forall j x, <[i := c']> (br_chans b) !! j = Some x -> (j = i /\ x = c') \/ (j <> i /\ br_chans b !! j = Some x)) as Hx.
  { intros j x Hx. apply list_lookup_insert_Some in Hx as [(<- & -> & _)|[? ?]]; [by left|right; split; congruence]. }
  pose proof (lookup_lt_Some _ _ _ Hi) as Hl. constructor; cbn; [| | |done..].
  - intros j. etransitivity; [apply H1|]. destruct (decide (j = i)) as [->|Hne]; [|by rewrite list_lookup_insert_ne by done].
    rewrite list_lookup_insert_eq, Hi by done. split; intros (x & [= <-] & E); eexists; (split; [done|congruence]).
  - intros j x Hj. destruct (Hx j x Hj) as [[-> ->]|[? ?]]; [|by apply (H2 j)]. destruct (H2 i c Hi) as [K1 K2 K3 K4 K5]. constructor; rewrite ?Hs; done.
  - intros p pb todo Hp Ht. destruct (H3 p pb todo Hp Ht) as [Hsub Hn]. split; [done|]. intros j x Hj Hxj. destruct (Hx j x Hxj) as [[-> ->]|[? ?]]; [rewrite Hs; by apply (Hn i)|by apply (Hn j)].
Qed.

(** Publications. *)
Lemma Publish_begin_inv p e b : broadcast_inv b -> br_pubs b !! p = None -> broadcast_inv (Publish_begin p e b).
Proof.
  intros [H1 H2 H3 H4 H7 H5 H6] Hp.
  assert (forall q pb, br_pubs b !! q = Some pb -> q <> p) as Hne by (intros q pb Hq ->; congruence).
  assert (forall i c, br_chans b !! i = Some c -> p ∉ map fst (seen c)) as Hnew.
  { intros i c Hi Hin. apply list_elem_of_In, in_map_iff in Hin as ([p' x] & Hpx & Hin). cbn in Hpx. subst p'. apply list_elem_of_In in Hin.
    destruct (ck_event _ _ (H2 i c Hi) _ _ Hin) as (pb & E & _). congruence. }
  constructor; cbn; [done| | | | |done|done].
  - intros i c Hi. eapply chan_ok_pubs; [by apply (H2 i)|]. intros q pb Hq. exists pb. rewrite lookup_insert_ne; [done|]. intros <-. congruence.
  - intros q pb todo Hq Ht. apply lookup_insert_Some in Hq as [[<- <-]|[_ Hq]]; [|by apply (H3 q pb)]. injection Ht as <-. split; [done|]. intros i c _. by apply Hnew.
  - intros q pb r Hq Hr. apply lookup_insert_Some in Hq as [[<- <-]|[_ Hq]].
    + apply elem_of_ended in Hr as (pbr & Er & Htr). exists pbr. rewrite lookup_insert_ne; [done|]. intros <-. congruence.
    + destruct (H4 q pb r Hq Hr) as (pbr & Er & Htr). exists pbr. rewrite lookup_insert_ne; [done|]. intros <-. congruence.
  - intros q pb Hq. apply lookup_insert_Some in Hq as [[<- <-]|[_ Hq]]; [|by apply (H7 q)]. cbn. intros Hin. apply elem_of_ended in Hin as (pb & E & _). congruence.
Qed.
(** A publication goes on: it has not ended, and has fewer subscribers to visit. *)
Lemma todo_inv p pb todo todo' b : broadcast_inv b -> br_pubs b !! p = Some pb -> pb_todo pb = Some todo ->
  (forall t, todo' = Some t -> t ⊆ todo) -> broadcast_inv (set_publication p (mkPublication (pb_event pb) todo' (pb_after pb)) b).
Proof.
  intros [H1 H2 H3 H4 H7 H5 H6] Hp Ht Hsub. constructor; cbn; [done| | | | |done|done].
  - intros i c Hi. eapply chan_ok_pubs; [by apply (H2 i)|]. intros q pbq Hq. destruct (decide (q = p)) as [->|Hne].
    + rewrite lookup_insert_eq. eexists. split; [done|]. by simplify_eq.
    + rewrite lookup_insert_ne by done. by exists pbq.
  - intros q pbq t Hq Hqt. apply lookup_insert_Some in Hq as [[<- <-]|[_ Hq]]; [|by apply (H3 q pbq)]. cbn in Hqt. destruct (H3 p pb todo Hp Ht) as [K1 K2].
    specialize (Hsub t Hqt). split; [set_solver|]. intros i c Hi. apply K2. set_solver.
  - assert (forall q, (exists pbq, br_pubs b !! q = Some pbq /\ pb_todo pbq = None) ->
      exists pbq, <[p := mkPublication (pb_event pb) todo' (pb_after pb)]> (br_pubs b) !! q = Some pbq /\ pb_todo pbq = None) as Hk.
    { intros q (pbq & Eq & Hq). exists pbq. rewrite lookup_insert_ne; [done|]. intros <-. congruence. }
    intros q pbq r Hq Hr. apply lookup_insert_Some in Hq as [[<- <-]|[_ Hq]]; apply Hk; [by apply (H4 p pb)|by apply (H4 q pbq)].
  - intros q pbq Hq. apply lookup_insert_Some in Hq as [[<- <-]|[_ Hq]]; [exact (H7 p pb Hp)|exact (H7 q pbq Hq)].
Qed.
(** The turn of a subscriber that gets the event. *)
Lemma seen_send x c : ((0 < ch_waiting c)%nat -> ch_buf c = []) -> seen (ch_send x c) = seen c ++ [x].
Proof.
  unfold ch_send, seen. destruct (Nat.ltb_spec 0 (ch_waiting c)) as [Hw|Hw]; intros Hb; cbn.
  - rewrite Hb by done. by rewrite !app_nil_r.
  - by rewrite app_assoc.
Qed.
Lemma StronglySorted_snoc {A} (R : A -> A -> Prop) l x : StronglySorted R l -> Forall (fun y => R y x) l -> StronglySorted R (l ++ [x]).
Proof.
  induction l as [|y l IH]; intros Hs Hf; cbn; [by repeat constructor|]. apply StronglySorted_inv in Hs as [Hs Hy]. apply Forall_cons in Hf as [Hyx Hf]. constructor; [by apply IH|].
  apply Forall_app. split; [done|by repeat constructor].
Qed.
Lemma StronglySorted_lookup {A} (R : A -> A -> Prop) l : StronglySorted R l -> forall j k x y, (j < k)%nat -> l !! j = Some x -> l !! k = Some y -> R x y.
Proof.
  induction 1 as [|a l _ IH Hf]; intros j k x y Hjk Hx Hy; [done|]. destruct k as [|k]; [lia|]. destruct j as [|j]; cbn in Hx, Hy.
  - injection Hx as ->. rewrite Forall_forall in Hf. apply Hf. by eapply list_elem_of_lookup_2.
  - apply (IH j k); [lia|done|done].
Qed.
Lemma send_chan_ok pubs p pb todo c : chan_ok pubs c -> pubs !! p = Some pb -> pb_todo pb = Some todo -> p ∉ map fst (seen c) -> ready c = true ->
  (forall q pbq, pubs !! q = Some pbq -> p ∈ pb_after pbq -> exists pbp, pubs !! p = Some pbp /\ pb_todo pbp = None) -> chan_ok pubs (ch_send (p, pb_event pb) c).
Proof.
  intros [H1 H2 H3 H4 H5] Hp Ht Hn Hr Ha. constructor; rewrite ?(seen_send _ _ H2), ?map_app; cbn [map fst].
  - unfold ch_send. destruct (Nat.ltb_spec 0 (ch_waiting c)) as [Hw|Hw]; cbn; [done|]. rewrite length_app. cbn. unfold ready in Hr.
    apply orb_true_iff in Hr as [Hr|Hr]; apply Nat.ltb_lt in Hr; lia.
  - unfold ch_send. destruct (Nat.ltb_spec 0 (ch_waiting c)) as [Hw|Hw]; cbn; [intros _; by apply H2|intros Hw'; lia].
  - apply NoDup_app. split_and!; [done| |apply NoDup_singleton]. intros q Hq ->%list_elem_of_singleton. done.
  - intros q e Hin. apply elem_of_app in Hin as [Hin|Hin]; [by apply H4|]. apply list_elem_of_singleton in Hin as [= -> ->]. by exists pb.
  - apply StronglySorted_snoc; [done|]. apply Forall_forall. intros q _ pbq Hq Hin. destruct (Ha q pbq Hq Hin) as (pbp & Ep & Htp). congruence.
Qed.
Lemma Publish_offer_inv p pb todo ch stop b : broadcast_inv b -> br_pubs b !! p = Some pb -> pb_todo pb = Some todo -> ch ∈ todo ->
  exists b', Publish_offer p pb todo ch stop b = Ok b' /\ broadcast_inv b'.
Proof.
  intros H Hp Ht Hch. pose proof H as [H1 H2 H3 H4 H7 H5 H6]. destruct (H3 p pb todo Hp Ht) as [Hsub Hnew].
  destruct (proj1 (H1 ch) ltac:(set_solver)) as (c & Hc & Hcl). unfold Publish_offer. rewrite Hc, Hcl.
  destruct (br_done b && (stop || negb (ready c))); [eexists; split; [done|]; apply (todo_inv p pb todo (Some ∅)); try done; intros t [= <-]; set_solver|].
  destruct (ready c) eqn:Er; [|eexists; split; [done|]; apply (todo_inv p pb todo (Some (todo ∖ {[ch]}))); try done; intros t [= <-]; set_solver].
  eexists. split; [done|]. specialize (Hnew ch c Hch Hc).
  pose proof (todo_inv p pb todo (Some (todo ∖ {[ch]})) b H Hp Ht ltac:(intros t [= <-]; set_solver)) as [G1 G2 G3 G4 G7 G5 G6].
  set (c' := ch_send (p, pb_event pb) c). pose proof (lookup_lt_Some _ _ _ Hc) as Hl.
  assert (ch_closed c' = false) as Hcl' by (unfold c', ch_send; by destruct (0 <? ch_waiting c)%nat).
  assert (forall j x, <[ch := c']> (br_chans b) !! j = Some x -> (j = ch /\ x = c') \/ (j <> ch /\ br_chans b !! j = Some x)) as Hx.
  { intros j x Hx. apply list_lookup_insert_Some in Hx as [(<- & -> & _)|[? ?]]; [by left|right; split; congruence]. }
  cbn [set_publication br_chans br_pubs br_subs subs_of] in *.
  constructor; cbn; [| | |done..].
  - intros j. etransitivity; [apply G1|]. destruct (decide (j = ch)) as [->|Hne]; [|by rewrite list_lookup_insert_ne by done].
    rewrite list_lookup_insert_eq, Hc by done. split; intros (x & [= <-] & E); eexists; done.
  - intros j x Hj. destruct (Hx j x Hj) as [[-> ->]|[? ?]]; [|by apply (G2 j)]. eapply chan_ok_pubs.
    + apply (send_chan_ok (br_pubs b) p pb todo c); try done; [by apply (H2 ch)|]. intros q pbq Hq Hin. by apply (H4 q pbq).
    + intros q pbq Hq. destruct (decide (q = p)) as [->|Hne]; [rewrite lookup_insert_eq; eexists; split; [done|]; by simplify_eq|rewrite lookup_insert_ne by done; by exists pbq].
  - intros q pbq t Hq Hqt. destruct (G3 q pbq t Hq Hqt) as [K1 K2]. split; [done|]. intros j x Hj Hxj. destruct (Hx j x Hxj) as [[-> ->]|[Hne Hxj']]; [|by apply (K2 j)].
    unfold c'. rewrite seen_send by apply (H2 ch c Hc). rewrite map_app. intros Hin. apply elem_of_app in Hin as [Hin|Hin]; [by apply (K2 ch c Hj Hc)|].
    apply list_elem_of_singleton in Hin. cbn in Hin. subst q. rewrite lookup_insert_eq in Hq. injection Hq as <-. injection Hqt as <-. set_solver.
Qed.

(** The operations under the write lock: no publication is under way. *)
Lemma close_chan_ok i chans c : chans !! i = Some c -> ch_closed c = false -> close_chan i chans = Ok (<[i := ch_close c]> chans).
Proof. intros E Hc. unfold close_chan. by rewrite E, Hc. Qed.
Lemma close_subs_ok order : forall chans, NoDup order -> (forall i, i ∈ order -> exists c, chans !! i = Some c /\ ch_closed c = false) ->
  exists chans', close_subs order chans = Ok chans' /\ forall i, chans' !! i = if bool_decide (i ∈ order) then ch_close <$> chans !! i else chans !! i.
Proof.
  induction order as [|i order IH]; intros chans Hnd Ho; [by exists chans|]. apply NoDup_cons in Hnd as [Hni Hnd]. destruct (Ho i) as (c & E & Hc); [set_solver|].
  cbn [close_subs]. rewrite (close_chan_ok i chans c E Hc). cbn [mbind result_bind]. pose proof (lookup_lt_Some _ _ _ E) as Hl.
  destruct (IH (<[i:=ch_close c]> chans) Hnd) as (chans' & E' & Hs).
  - intros j Hj. rewrite list_lookup_insert_ne by (by intros <-). apply Ho. set_solver.
  - exists chans'. split; [done|]. intros j. rewrite Hs. destruct (decide (j = i)) as [->|Hne].
    + rewrite bool_decide_false by done. rewrite bool_decide_true by set_solver. by rewrite list_lookup_insert_eq, E.
    + rewrite list_lookup_insert_ne by done. destruct (decide (j ∈ order)); [rewrite !bool_decide_true by set_solver|rewrite !bool_decide_false by set_solver]; done.
Qed.
Lemma closed_ok pubs c : chan_ok pubs c -> chan_ok pubs (ch_close c).
Proof. intros [H1 H2 H3 H4 H5]. constructor; try done. cbn. lia. Qed.
(** Without a publication under way, channels that are as they should be are enough. *)
Lemma unlocked_inv b chans subs done w : broadcast_inv b -> unlocked b = true -> (forall i c, chans !! i = Some c -> chan_ok (br_pubs b) c) ->
  (forall i, i ∈ default ∅ subs <-> exists c, chans !! i = Some c /\ ch_closed c = false) -> (w = false -> done = true) -> (subs = None <-> w = false) ->
  broadcast_inv (mkBroadcaster chans subs done w (br_pubs b)).
Proof.
  intros [H1 H2 H3 H4 H7 H5 H6] Hu Hc Hs Hd Hn. constructor; cbn; try done. intros p pb todo Hp Ht. pose proof (unlocked_todo b p pb Hu Hp). congruence.
Qed.
Lemma closeAll_inv b : broadcast_inv b -> unlocked b = true -> br_done b = true -> exists b', closeAll b = Ok b' /\ broadcast_inv b'.
Proof.
  intros H Hu Hd. pose proof H as [H1 H2 H3 H4 H7 H5 H6]. unfold closeAll. destruct (close_subs_ok (elements (subs_of b)) (br_chans b)) as (chans' & E & Hs).
  { apply NoDup_elements. } { intros i Hi. apply H1. by apply elem_of_elements. }
  rewrite E. eexists. split; [done|]. apply unlocked_inv; try done.
  - intros i c Hi. rewrite Hs in Hi. case_bool_decide; [|by apply (H2 i)]. destruct (br_chans b !! i) as [c0|] eqn:E0; [|done]. injection Hi as <-. by apply closed_ok, (H2 i).
  - intros i. split; [set_solver|]. intros (c & Hi & Hc). exfalso. rewrite Hs in Hi. case_bool_decide as Hin.
    + destruct (br_chans b !! i); [|done]. by injection Hi as <-.
    + apply Hin, elem_of_elements, H1. by exists c.
Qed.
Lemma Subscribe_inv buffer b : broadcast_inv b -> unlocked b = true -> exists b', Subscribe buffer b = Ok b' /\ broadcast_inv b'.
Proof.
  intros H Hu. pose proof H as [H1 H2 H3 H4 H7 H5 H6]. unfold Subscribe. set (c := mkChannel buffer [] 0 (br_done b) []).
  assert (forall i x, (br_chans b ++ [c]) !! i = Some x -> br_chans b !! i = Some x \/ (i = length (br_chans b) /\ x = c)) as Hl.
  { intros i x Hx. apply lookup_app_Some in Hx as [?|[Hge Hx]]; [by left|right]. apply list_lookup_singleton_Some in Hx as [? <-]. split; [lia|done]. }
  assert (forall i x, br_chans b !! i = Some x -> (br_chans b ++ [c]) !! i = Some x) as Hr by (intros i x Hx; by apply lookup_app_l_Some).
  assert (br_chans b !! length (br_chans b) = None) as Hn by (by apply lookup_ge_None).
  assert (forall i x, (br_chans b ++ [c]) !! i = Some x -> chan_ok (br_pubs b) x) as Hok.
  { intros i x Hx. destruct (Hl i x Hx) as [Hx'|[_ ->]]; [by apply (H2 i)|]. constructor; cbn; [lia|done|constructor|set_solver|constructor]. }
  destruct (br_done b) eqn:Ed.
  - eexists. split; [done|]. unfold set_chans. rewrite Ed. apply unlocked_inv; try done. intros i. etransitivity; [apply H1|]. split; intros (x & Hx & Hc); [exists x; auto|].
    destruct (Hl i x Hx) as [?|[_ ->]]; [by exists x|done].
  - destruct (br_subs b) as [subs|] eqn:Es; [|by specialize (H5 (proj1 H6 eq_refl))]. eexists. split; [done|]. apply unlocked_inv; try done.
    + intros i. cbn. rewrite elem_of_union, elem_of_singleton. assert (i ∈ subs <-> i ∈ subs_of b) as -> by (unfold subs_of; by rewrite Es). rewrite H1. split.
      * intros [->|(x & Hx & Hc)]; [exists c; split; [by apply list_lookup_middle|done]|exists x; auto].
      * intros (x & Hx & Hc). destruct (Hl i x Hx) as [?|[-> _]]; [right; by exists x|by left].
    + split; [done|]. intros E. apply H6 in E. done.
Qed.
Lemma Unsubscribe_inv ch b : broadcast_inv b -> unlocked b = true -> exists b', Unsubscribe ch b = Ok b' /\ broadcast_inv b'.
Proof.
  intros H Hu. pose proof H as [H1 H2 H3 H4 H7 H5 H6]. unfold Unsubscribe. case_bool_decide as Hin; [|by exists b]. destruct (proj1 (H1 ch) Hin) as (c & E & Hc).
  rewrite (close_chan_ok ch _ c E Hc). eexists. split; [done|]. pose proof (lookup_lt_Some _ _ _ E) as Hl.
  assert (forall i x, <[ch := ch_close c]> (br_chans b) !! i = Some x -> (i = ch /\ x = ch_close c) \/ (i <> ch /\ br_chans b !! i = Some x)) as Hx.
  { intros i x Hx. apply list_lookup_insert_Some in Hx as [(<- & -> & _)|[? ?]]; [by left|right; split; congruence]. }
  apply unlocked_inv; try done.
  - intros i x Hi. destruct (Hx i x Hi) as [[-> ->]|[? ?]]; [by apply closed_ok, (H2 ch)|by apply (H2 i)].
  - intros i. cbn. rewrite elem_of_difference, elem_of_singleton, H1. split.
    + intros [(x & Hi & Hcl) Hne]. exists x. by rewrite list_lookup_insert_ne by done.
    + intros (x & Hi & Hcl). destruct (Hx i x Hi) as [[-> ->]|[? ?]]; [done|]. split; [by exists x|done].
  - split; [done|]. intros Ew. apply H6 in Ew. unfold subs_of in Hin. rewrite Ew in Hin. cbn in Hin. set_solver.
Qed.

Lemma broadcast_step_inv l b : broadcast_inv b -> match broadcast_step l b with Ok b' => broadcast_inv b' | Err _ => True | Panic _ => False end.
Proof.
  intros H. destruct l as [n|ch|p e|p ch stop|p| | |ch|ch|ch]; cbn [broadcast_step].
  - destruct (unlocked b) eqn:Eu; [|done]. by destruct (Subscribe_inv n b H Eu) as (b' & -> & ?).
  - destruct (unlocked b) eqn:Eu; [|done]. by destruct (Unsubscribe_inv ch b H Eu) as (b' & -> & ?).
  - destruct (br_pubs b !! p) eqn:E; [done|]. by apply Publish_begin_inv.
  - destruct (br_pubs b !! p) as [[e [todo|] after]|] eqn:E; try done. case_bool_decide; [|done]. by destruct (Publish_offer_inv p _ todo ch stop b H E eq_refl) as (b' & -> & ?).
  - destruct (br_pubs b !! p) as [[e [todo|] after]|] eqn:E; try done. case_bool_decide; [|done]. by apply (todo_inv p _ todo None b H E eq_refl).
  - destruct H. by constructor.
  - destruct (unlocked b) eqn:Eu; [|done]. destruct (br_done b) eqn:Ed; [|done]. destruct (br_watching b); [|done]. by destruct (closeAll_inv b H Eu Ed) as (b' & -> & ?).
  - destruct (br_chans b !! ch) as [[cap [|x buf] w closed got]|] eqn:E; [done| |done]. pose proof (ck_cap _ _ (bi_chan b H ch _ E)) as Hc. pose proof (ck_waiting _ _ (bi_chan b H ch _ E)) as Hw. cbn in Hc, Hw.
    eapply chan_step_inv; [done|exact E|unfold seen; cbn; by rewrite <- app_assoc|done|cbn; lia|]. cbn. intros Hw'. by specialize (Hw Hw').
  - destruct (br_chans b !! ch) as [[cap [|x buf] w [] got]|] eqn:E; try done. eapply chan_step_inv; try done. cbn. lia.
  - destruct (br_chans b !! ch) as [[cap buf [|w] closed got]|] eqn:E; try done. pose proof (bi_chan b H ch _ E) as [Hc Hw _ _ _]. eapply chan_step_inv; try done. intros _. apply Hw. cbn. lia.
Qed.
Lemma broadcast_run_inv ls : forall b, broadcast_inv b -> match broadcast_run ls b with Ok b' => broadcast_inv b' | Err _ => True | Panic _ => False end.
Proof.
  induction ls as [|l ls IH]; intros b H; cbn [broadcast_run]; [done|]. pose proof (broadcast_step_inv l b H) as Hs.
  destruct (broadcast_step l b) as [b1|e|m]; [|done|done]. cbn [mbind result_bind]. by apply IH.
Qed.

(** C37: the broadcaster is safe in any interleaving of publishers, which overlap, with subscriptions, unsubscriptions, readers, the end of its context and of its
    goroutine: it never sends on a closed channel, closes one twice or writes to the nil map; a subscriber sees events of calls of [Publish], each call at most once, and
    a call that had ended when another began never after it (calls that overlap may come in any order, and another one for each subscriber); a buffer
    keeps its size; the channels subscribed are those that are open; and when [watchContext] has ended, no channel is open, nor will one be. *)
Theorem broadcaster_safe ls :
  match broadcast_run ls NewBroadcaster with
  | Ok b =>
      (forall i c, br_chans b !! i = Some c -> let calls := map fst (ch_got c ++ ch_buf c) in
        NoDup calls /\ (forall p e, (p, e) ∈ ch_got c ++ ch_buf c -> exists pb, br_pubs b !! p = Some pb /\ pb_event pb = e) /\
        (forall j k p q pb, calls !! j = Some p -> calls !! k = Some q -> br_pubs b !! p = Some pb -> q ∈ pb_after pb -> (k < j)%nat) /\
        (length (ch_buf c) <= ch_cap c)%nat) /\
      (forall i, i ∈ subs_of b <-> exists c, br_chans b !! i = Some c /\ ch_closed c = false) /\
      (br_watching b = false -> forall i c, br_chans b !! i = Some c -> ch_closed c = true)
  | Err _ => True
  | Panic _ => False
  end.
Proof.
  pose proof (broadcast_run_inv ls NewBroadcaster NewBroadcaster_inv) as H. destruct (broadcast_run ls NewBroadcaster) as [b|e|m]; [|done|done].
  split_and!; [|apply H|].
  - intros i c Hi. destruct (bi_chan b H i c Hi) as [K1 K2 K3 K4 K5]. split_and!; [done|done| |done].
    intros j k p q pb Hj Hk Hp Hq. destruct (Nat.lt_trichotomy k j) as [?|[->|Hlt]]; [done| |].
    + assert (p = q) as -> by congruence. by destruct (bi_self b H q pb Hp).
    + by destruct (StronglySorted_lookup _ _ K5 j k p q Hlt Hj Hk pb Hp).
  - intros Hw i c Hi. destruct (ch_closed c) eqn:Ec; [done|]. assert (i ∈ subs_of b) as Hin by (apply (bi_subs _ H); by exists c).
    unfold subs_of in Hin. rewrite (proj2 (bi_nil _ H) Hw) in Hin. cbn in Hin. set_solver.
Qed.

(** Before the context ends, a subscriber whose turn it is gets the event if a reader waits or the buffer has room. *)
Lemma offer_ready p pb todo ch stop b c : br_done b = false -> br_chans b !! ch = Some c -> ch_closed c = false ->
  exists b', Publish_offer p pb todo ch stop b = Ok b' /\ br_chans b' !! ch = Some (if ready c then ch_send (p, pb_event pb) c else c).
Proof.
  intros Hd Hc Hcl. unfold Publish_offer. rewrite Hc, Hcl, Hd. cbn [andb]. destruct (ready c); (eexists; split; [done|]); cbn; [|done].
  apply list_lookup_insert_eq. by eapply lookup_lt_Some.
Qed.
End Broadcaster.

(** Two publishers overlap, and the two subscribers see their events in different orders. *)
Example overlapping_publishers : exists b : Broadcaster (T := nat),
  broadcast_run [BSubscribe 2; BSubscribe 2; BBegin 0 7; BBegin 1 8; BOffer 0 0 false; BOffer 1 1 false; BOffer 0 1 false; BOffer 1 0 false; BEnd 0; BEnd 1]%nat NewBroadcaster = Ok b /\
  map (map snd) (map seen (br_chans b)) = [[7; 8]; [8; 7]]%nat.
Proof. eexists. split; [vm_compute; reflexivity|done]. Qed.
(** A channel without a buffer: the event is dropped when nobody waits, and given to a reader that does. *)
Example unbuffered : exists b : Broadcaster (T := nat),
  broadcast_run [BSubscribe 0; BBegin 0 7; BOffer 0 0 false; BEnd 0; BWait 0; BBegin 1 8; BOffer 1 0 false; BEnd 1]%nat NewBroadcaster = Ok b /\
  map (map snd) (map seen (br_chans b)) = [[8]]%nat.
Proof. eexists. split; [vm_compute; reflexivity|done]. Qed.
