(* ===== verification/Monitoring.v ===== *)
(** * Monitoring: the delays of the outbounds

    [OutboundMonitoring] (common/monitoring/outbound_monitoring.go): the outbounds and groups it tests, the queues of tests with their workers, the
    cycles, and the delay it reports for a group.  A test (a request through the outbound) and the answers it gets are arguments.  A time is a
    number of nanoseconds.  What is done under the mutex of an outbound is one step. *)

From S2P Require Import Prelude GoStd TransportBase.
From stdpp Require Import gmap list sorting.
Open Scope string_scope.
Open Scope list_scope.

(** ** Data *)

(** [ipinfo.IpInfo]; the coordinates are the bits of a float64. *)
Record IpInfo : Type := mkIpInfo {
  ip_IP : string; ip_CountryCode : string; ip_Region : string; ip_City : string; ip_ASN : Z; ip_Org : string;
  ip_Latitude : N; ip_Longitude : N; ip_PostalCode : string
}.
(** [adapter.URLTestHistory]. *)
Record History : Type := mkHistory { hi_Time : Z; hi_Delay : N; hi_IpInfo : option IpInfo; hi_IsFromCache : bool }.
Definition History_zero : History := mkHistory 0 0 None false.
Definition MonitorTimeoutDelay : N := 65535.
Definition mergeIpInfo (old new : option IpInfo) : option IpInfo :=
  match old, new with
  | None, _ => new
  | _, None => old
  | Some old, Some new =>
      Some (mkIpInfo (ip_IP new) (if str_empty (ip_CountryCode new) then ip_CountryCode old else ip_CountryCode new) (ip_Region new) (ip_City new) (ip_ASN new)
              (if str_empty (ip_Org new) then ip_Org old else ip_Org new) (ip_Latitude new) (ip_Longitude new) (ip_PostalCode new))
  end.

Record outboundState : Type := mkOutboundState {
  os_groupTags : list string;
  os_dependencies : list string;
  os_dependenciesInverse : list string;
  os_invalid : bool;
  os_queued : bool;
  os_priorityQueued : bool;
  os_testing : bool;
  os_enqueuedCycle : N;
  os_from_cache : bool;
  os_ipInfoFailures : Z;
  os_ipInfoFailedAt : Z;
  os_history : History
}.
Definition new_outboundState (dependencies : list string) : outboundState :=
  mkOutboundState [] dependencies [] true false false false 0 false 0 0 History_zero.
Definition set_groupTags l (s : outboundState) := mkOutboundState l (os_dependencies s) (os_dependenciesInverse s) (os_invalid s) (os_queued s)
  (os_priorityQueued s) (os_testing s) (os_enqueuedCycle s) (os_from_cache s) (os_ipInfoFailures s) (os_ipInfoFailedAt s) (os_history s).
Definition set_inverse l (s : outboundState) := mkOutboundState (os_groupTags s) (os_dependencies s) l (os_invalid s) (os_queued s)
  (os_priorityQueued s) (os_testing s) (os_enqueuedCycle s) (os_from_cache s) (os_ipInfoFailures s) (os_ipInfoFailedAt s) (os_history s).
Definition set_invalid i (s : outboundState) := mkOutboundState (os_groupTags s) (os_dependencies s) (os_dependenciesInverse s) i (os_queued s)
  (os_priorityQueued s) (os_testing s) (os_enqueuedCycle s) (os_from_cache s) (os_ipInfoFailures s) (os_ipInfoFailedAt s) (os_history s).
Definition set_flags q p c (s : outboundState) := mkOutboundState (os_groupTags s) (os_dependencies s) (os_dependenciesInverse s) (os_invalid s) q
  p (os_testing s) c (os_from_cache s) (os_ipInfoFailures s) (os_ipInfoFailedAt s) (os_history s).
Definition set_testing t (s : outboundState) := mkOutboundState (os_groupTags s) (os_dependencies s) (os_dependenciesInverse s) (os_invalid s) (os_queued s)
  (os_priorityQueued s) t (os_enqueuedCycle s) (os_from_cache s) (os_ipInfoFailures s) (os_ipInfoFailedAt s) (os_history s).
Definition set_ipInfo n t (s : outboundState) := mkOutboundState (os_groupTags s) (os_dependencies s) (os_dependenciesInverse s) (os_invalid s) (os_queued s)
  (os_priorityQueued s) (os_testing s) (os_enqueuedCycle s) (os_from_cache s) n t (os_history s).
Definition set_history f h (s : outboundState) := mkOutboundState (os_groupTags s) (os_dependencies s) (os_dependenciesInverse s) (os_invalid s) (os_queued s)
  (os_priorityQueued s) (os_testing s) (os_enqueuedCycle s) f (os_ipInfoFailures s) (os_ipInfoFailedAt s) h.

(** [testTask]: [resultCh] is the stage of a cycle that waits for the result; the [url] of a [testOutcome] is never set. *)
Record testTask : Type := mkTask { ta_outboundTag : string; ta_cycleID : N; ta_priority : bool; ta_resultCh : option nat }.
Record testOutcome : Type := mkOutcome { oc_outboundTag : string; oc_history : History; oc_err : option error; oc_cycleID : N; oc_priority : bool }.
(** A cycle in [runCycle]: the targets, the turn [cy_idx] of its loop and, in [runStage], the channel, the targets to enqueue, the number of results expected and
    those that have come. *)
Record cycle : Type := mkCycle {
  cy_ID : N;
  cy_tags : list string;
  cy_idx : nat;
  cy_ch : nat;
  cy_todo : list string;
  cy_expected : nat;
  cy_results : list testOutcome
}.
(** The storage shared with the groups: [None] is the monitoring's own history of the outbound, whose address [applyResult] stores. *)
Abbreviation SharedHistory := (gmap string (option History)).

Record OutboundMonitoring : Type := mkMonitoring {
  om_outbounds : gmap string outboundState;
  om_groups : gmap string (gset string);
  om_urls : list string;
  om_currentLinkIndex : nat;
  om_mainInterval : Z;
  om_priorityQueue : list testTask;
  om_normalQueue : list testTask;
  om_waiting : list testTask; (* of outbounds that were not ready *)
  om_executing : list testTask;
  om_cycleSeq : N;
  om_cycle : option cycle; (* [cycleRunning] *)
  om_stages : nat;
  om_sent : list (nat * testOutcome); (* in the channels of the stages *)
  om_cacheDirty : bool;
  om_saved : option (gmap string History); (* in the cache file *)
  om_history : SharedHistory;
  om_done : bool
}.
Definition with_outbounds f (m : OutboundMonitoring) := mkMonitoring (f (om_outbounds m)) (om_groups m) (om_urls m) (om_currentLinkIndex m) (om_mainInterval m)
  (om_priorityQueue m) (om_normalQueue m) (om_waiting m) (om_executing m) (om_cycleSeq m) (om_cycle m) (om_stages m) (om_sent m) (om_cacheDirty m) (om_saved m) (om_history m) (om_done m).
Definition with_queues p n (m : OutboundMonitoring) := mkMonitoring (om_outbounds m) (om_groups m) (om_urls m) (om_currentLinkIndex m) (om_mainInterval m)
  p n (om_waiting m) (om_executing m) (om_cycleSeq m) (om_cycle m) (om_stages m) (om_sent m) (om_cacheDirty m) (om_saved m) (om_history m) (om_done m).
Definition with_work w x (m : OutboundMonitoring) := mkMonitoring (om_outbounds m) (om_groups m) (om_urls m) (om_currentLinkIndex m) (om_mainInterval m)
  (om_priorityQueue m) (om_normalQueue m) w x (om_cycleSeq m) (om_cycle m) (om_stages m) (om_sent m) (om_cacheDirty m) (om_saved m) (om_history m) (om_done m).
Definition with_cycle seq c st s (m : OutboundMonitoring) := mkMonitoring (om_outbounds m) (om_groups m) (om_urls m) (om_currentLinkIndex m) (om_mainInterval m)
  (om_priorityQueue m) (om_normalQueue m) (om_waiting m) (om_executing m) seq c st s (om_cacheDirty m) (om_saved m) (om_history m) (om_done m).
Definition with_link i (m : OutboundMonitoring) := mkMonitoring (om_outbounds m) (om_groups m) (om_urls m) i (om_mainInterval m)
  (om_priorityQueue m) (om_normalQueue m) (om_waiting m) (om_executing m) (om_cycleSeq m) (om_cycle m) (om_stages m) (om_sent m) (om_cacheDirty m) (om_saved m) (om_history m) (om_done m).
Definition with_cache d s h (m : OutboundMonitoring) := mkMonitoring (om_outbounds m) (om_groups m) (om_urls m) (om_currentLinkIndex m) (om_mainInterval m)
  (om_priorityQueue m) (om_normalQueue m) (om_waiting m) (om_executing m) (om_cycleSeq m) (om_cycle m) (om_stages m) (om_sent m) d s h (om_done m).
Definition with_done (m : OutboundMonitoring) := mkMonitoring (om_outbounds m) (om_groups m) (om_urls m) (om_currentLinkIndex m) (om_mainInterval m)
  (om_priorityQueue m) (om_normalQueue m) (om_waiting m) (om_executing m) (om_cycleSeq m) (om_cycle m) (om_stages m) (om_sent m) (om_cacheDirty m) (om_saved m) (om_history m) true.
Definition on_state (tag : string) (f : outboundState -> outboundState) (m : OutboundMonitoring) : OutboundMonitoring := with_outbounds (alter f tag) m.

Definition default_int (d z : Z) : Z := if (z <=? 0)%Z then d else z.
Definition defaultInterval : Z := 300000000000.
Definition defaultURLTest : string := "https://www.gstatic.com/generate_204".
(** [NewOutboundMonitoring]: the interval and the links. *)
Definition NewOutboundMonitoring (interval : Z) (urls : list string) : OutboundMonitoring :=
  mkMonitoring ∅ ∅ (if bool_decide (urls = []) then [defaultURLTest] else urls) 0 (default_int defaultInterval interval) [] [] [] [] 0 None 0 [] false None ∅ false.

(** ** Registration and the history in the cache file ([Start], [loadHistory], [saveHistory]) *)

Fixpoint register_inverse (tag : string) (dependencies : list string) (outbounds : gmap string outboundState) : result (gmap string outboundState) :=
  match dependencies with
  | [] => Ok outbounds
  | dep :: dependencies =>
      match outbounds !! dep with
      | None => Panic "invalid memory address or nil pointer dereference"
      | Some st => register_inverse tag dependencies (<[dep := set_inverse (os_dependenciesInverse st ++ [tag]) st]> outbounds)
      end
  end.
Fixpoint register_inverses (order : list string) (outbounds : gmap string outboundState) : result (gmap string outboundState) :=
  match order with
  | [] => Ok outbounds
  | tag :: order =>
      let! outbounds := register_inverse tag (from_option os_dependencies [] (outbounds !! tag)) outbounds in
      register_inverses order outbounds
  end.
Definition join_group (groupTag tag : string) (m : OutboundMonitoring) : OutboundMonitoring :=
  let m := on_state tag (fun st => set_groupTags (os_groupTags st ++ [groupTag]) st) m in
  mkMonitoring (om_outbounds m) (<[groupTag := {[tag]} ∪ default ∅ (om_groups m !! groupTag)]> (om_groups m)) (om_urls m) (om_currentLinkIndex m) (om_mainInterval m)
    (om_priorityQueue m) (om_normalQueue m) (om_waiting m) (om_executing m) (om_cycleSeq m) (om_cycle m) (om_stages m) (om_sent m) (om_cacheDirty m) (om_saved m) (om_history m) (om_done m).
Definition makeGroup (tag : string) (m : OutboundMonitoring) : OutboundMonitoring :=
  mkMonitoring (om_outbounds m) (<[tag := default ∅ (om_groups m !! tag)]> (om_groups m)) (om_urls m) (om_currentLinkIndex m) (om_mainInterval m)
    (om_priorityQueue m) (om_normalQueue m) (om_waiting m) (om_executing m) (om_cycleSeq m) (om_cycle m) (om_stages m) (om_sent m) (om_cacheDirty m) (om_saved m) (om_history m) (om_done m).
Fixpoint join_members (groupTag : string) (tags : list string) (m : OutboundMonitoring) : result OutboundMonitoring :=
  match tags with
  | [] => Ok m
  | tag :: tags =>
      match om_outbounds m !! tag with
      | None => Err (ENew ("outbound monitoring: outbound not found: " +:+ tag +:+ " in group " +:+ groupTag))
      | Some _ => join_members groupTag tags (join_group groupTag tag m)
      end
  end.
Fixpoint make_groups (outbounds : list (string * list string * option (list string))) (m : OutboundMonitoring) : result OutboundMonitoring :=
  match outbounds with
  | [] => Ok m
  | (tag, _, Some all) :: outbounds => let! m := join_members tag all (makeGroup tag m) in make_groups outbounds m
  | (_, _, None) :: outbounds => make_groups outbounds m
  end.
Definition loadHistory (m : OutboundMonitoring) : OutboundMonitoring :=
  match om_saved m with
  | None => m
  | Some saved =>
      with_outbounds (map_imap (fun tag st => Some
        match saved !! tag, om_groups m !! tag with
        | Some his, None => set_history true (mkHistory (hi_Time his) (if (MonitorTimeoutDelay <=? hi_Delay his)%N then 0 else hi_Delay his) (hi_IpInfo his) (hi_IsFromCache his)) st
        | _, _ => st
        end)) m
  end.
Definition saveHistory (m : OutboundMonitoring) : OutboundMonitoring := with_cache (om_cacheDirty m) (Some (os_history <$> om_outbounds m)) (om_history m) m.
(** [Start] in the stage of initialization: outbounds with their dependencies and, of a group, its members; [order] is the order in which the
    map is visited. *)
Definition Start_initialize (outbounds : list (string * list string * option (list string))) (endpoints : list (string * list string)) (order : list string)
  (m : OutboundMonitoring) : result OutboundMonitoring :=
  let states := foldl (fun s '(tag, dependencies) => <[tag := new_outboundState dependencies]> s) (om_outbounds m) (map fst outbounds ++ endpoints) in
  let! states := register_inverses order states in
  let m := foldl (fun m tag => join_group "" tag m) (makeGroup "" (with_outbounds (fun _ => states) m)) order in
  let! m := make_groups outbounds m in
  Ok (loadHistory m).

(** ** The queues *)

Definition cap_priority : nat := N.to_nat 1000.
Definition cap_normal : nat := N.to_nat 10000.
Definition enqueueTask (task : testTask) (m : OutboundMonitoring) : bool * OutboundMonitoring :=
  if om_done m then (false, m)
  else
    match om_outbounds m !! ta_outboundTag task with
    | None => (false, m)
    | Some st =>
        if ta_priority task then
          if os_priorityQueued st then (false, m)
          else
            let m := on_state (ta_outboundTag task) (fun st => set_flags (os_queued st) true (os_enqueuedCycle st) st) m in
            if (length (om_priorityQueue m) <? cap_priority)%nat then (true, with_queues (om_priorityQueue m ++ [task]) (om_normalQueue m) m) else (false, m)
        else if (os_enqueuedCycle st =? ta_cycleID task)%N then (false, m)
        else
          let m := on_state (ta_outboundTag task) (fun st => set_flags true (os_priorityQueued st) (ta_cycleID task) st) m in
          if (length (om_normalQueue m) <? cap_normal)%nat then (true, with_queues (om_priorityQueue m) (om_normalQueue m ++ [task]) m) else (false, m)
    end.
Definition err_not_registered : error := ENew "outbound not registered".
(** [order] gives the order in which the members of a group are visited. *)
Fixpoint testNow (fuel : nat) (order : string -> list string) (outboundTag : string) (priority : bool) (m : OutboundMonitoring) : option (option error * OutboundMonitoring) :=
  match fuel with
  | O => None
  | S f =>
      match om_groups m !! outboundTag with
      | Some _ =>
          m ← foldl (fun om tag => m ← om; snd <$> testNow f order tag false m) (Some m) (order outboundTag);
          Some (None, m)
      | None =>
          match om_outbounds m !! outboundTag with
          | None => Some (Some err_not_registered, m)
          | Some _ => Some (None, snd (enqueueTask (mkTask outboundTag (om_cycleSeq m) priority None) m))
          end
      end
  end.
Fixpoint testParents (fuel : nat) (order : string -> list string) (outboundTag : string) (first : bool) (m : OutboundMonitoring) : option OutboundMonitoring :=
  match fuel with
  | O => None
  | S f =>
      match om_outbounds m !! outboundTag with
      | None => Some m
      | Some st =>
          m ← (if bool_decide (om_groups m !! outboundTag = None) && negb first then snd <$> testNow f order outboundTag true m else Some m);
          foldl (fun om dep => m ← om; testParents f order dep false m) (Some m) (os_dependenciesInverse st)
      end
  end.
Definition TestNow (fuel : nat) (order : string -> list string) (outboundTag : string) (m : OutboundMonitoring) : option (option error * OutboundMonitoring) :=
  m ← testParents fuel order outboundTag true m; testNow fuel order outboundTag true m.
Definition InvalidateTest (outboundTag : string) (m : OutboundMonitoring) : option error * OutboundMonitoring :=
  match om_outbounds m !! outboundTag with
  | None => (Some err_not_registered, m)
  | Some _ => (None, snd (enqueueTask (mkTask outboundTag (om_cycleSeq m) true None) (on_state outboundTag (set_invalid true) m)))
  end.

(** ** A test *)

Definition ipInfoBaseBackoff : Z := 300000000000.
Definition ipInfoMaxBackoff : Z := 7200000000000.
Definition ipInfoBackoff (failures : Z) : Z := Z.min (Z.shiftl ipInfoBaseBackoff (Z.min (failures - 1) 5)) ipInfoMaxBackoff.
Definition ipInfoDue (now : Z) (out : outboundState) : bool :=
  if (os_ipInfoFailures out =? 0)%Z then true else (ipInfoBackoff (os_ipInfoFailures out) <=? now - os_ipInfoFailedAt out)%Z.
Definition noteIpInfoResult (now : Z) (err : option error) (out : outboundState) : outboundState :=
  match err with
  | None => set_ipInfo 0 0 out
  | Some _ => set_ipInfo (os_ipInfoFailures out + 1) now out
  end.
(** What a test is answered: by the request to the URL, by the context and by the providers of the IP information. *)
Record test_env : Type := mkTestEnv {
  te_now : Z;
  te_URLTest : string -> N * option error;
  te_ctx : option error;
  te_GetIpInfo : option error * IpInfo * N
}.
Definition tester (env : test_env) (tag : string) (m : OutboundMonitoring) : result (History * option error * OutboundMonitoring) :=
  match om_outbounds m !! tag with
  | None => Ok (History_zero, Some err_not_registered, m)
  | Some out =>
      match om_urls m !! om_currentLinkIndex m with
      | None => Panic "index out of range"
      | Some url =>
          let '(delay, err) := te_URLTest env url in
          if bool_decide (err <> None) || (MonitorTimeoutDelay <=? delay)%N then Ok (mkHistory (te_now env) MonitorTimeoutDelay None false, err, m)
          else
            let his := mkHistory (te_now env) delay None false in
            match te_ctx env with
            | Some e => Ok (his, Some e, m)
            | None =>
                if (bool_decide (hi_IpInfo (os_history out) = None) || os_from_cache out) && ipInfoDue (te_now env) out then
                  let '(err, newip, t) := te_GetIpInfo env in
                  let m := on_state tag (noteIpInfoResult (te_now env) err) m in
                  match err with
                  | None => Ok (mkHistory (te_now env) (if (t <? delay)%N then t else delay) (mergeIpInfo (hi_IpInfo (os_history out)) (Some newip)) false, None, m)
                  | Some _ => Ok (his, None, m)
                  end
                else Ok (his, None, m)
            end
      end
  end.
(** What [StoreURLTestHistory] makes of an entry. *)
Definition update_history (history old : History) : History :=
  mkHistory (hi_Time history) (hi_Delay history) (match hi_IpInfo history with Some ip => Some ip | None => hi_IpInfo old end) (hi_IsFromCache old).
(** The storage takes the address of the monitoring's own history when it has none of the outbound: writing to it then changes nothing. *)
Definition store_own (tag : string) (history : History) (s : SharedHistory) : SharedHistory :=
  match s !! tag with
  | None => <[tag := None]> s
  | Some (Some old) => <[tag := Some (update_history history old)]> s
  | Some None => s
  end.
(** Another part of the program stores a delay ([URLTestGroup], the API). *)
Definition store_other (tag : string) (history : History) (m : OutboundMonitoring) : OutboundMonitoring :=
  match om_history m !! tag with
  | None => with_cache (om_cacheDirty m) (om_saved m) (<[tag := Some history]> (om_history m)) m
  | Some (Some old) => with_cache (om_cacheDirty m) (om_saved m) (<[tag := Some (update_history history old)]> (om_history m)) m
  | Some None => on_state tag (fun st => set_history (os_from_cache st) (update_history history (os_history st)) st) m
  end.
Definition applyResult (outcome : testOutcome) (m : OutboundMonitoring) : OutboundMonitoring :=
  if om_done m then m
  else
    match om_outbounds m !! oc_outboundTag outcome with
    | None => m
    | Some st =>
        let dirty := negb (hi_Delay (oc_history outcome) =? hi_Delay (os_history st))%N || bool_decide (hi_IpInfo (os_history st) = None)
                     || bool_decide (hi_IpInfo (oc_history outcome) <> None) in
        let history := update_history (oc_history outcome) (os_history st) in
        let m := on_state (oc_outboundTag outcome) (fun st =>
          set_history false history (set_invalid (bool_decide (oc_err outcome <> None)) (set_flags false false 0 st))) m in
        with_cache (om_cacheDirty m || dirty) (om_saved m) (store_own (oc_outboundTag outcome) history (om_history m)) m
    end.

(** ** The workers ([workerLoop], [executeTask]) *)

Definition readyCycles : N := 10.
(** The beginning of [executeTask]: the test of an outbound that is not ready waits, in the first ten cycles. *)
Definition executeTask (ready : bool) (task : testTask) (m : OutboundMonitoring) : OutboundMonitoring :=
  if om_done m then m
  else
    match om_outbounds m !! ta_outboundTag task with
    | None => m
    | Some _ =>
        let m := on_state (ta_outboundTag task) (set_testing true) m in
        if (ta_cycleID task <? readyCycles)%N && negb ready
        then with_work (om_waiting m ++ [task]) (om_executing m) (on_state (ta_outboundTag task) (set_testing false) m)
        else with_work (om_waiting m) (om_executing m ++ [task]) m
    end.
(** Three seconds later: whether the task is in a queue again is not looked at. *)
Definition retryTask (task : testTask) (m : OutboundMonitoring) : bool * OutboundMonitoring :=
  if om_done m then (false, m)
  else enqueueTask (mkTask (ta_outboundTag task) ((ta_cycleID task + 1) mod 2 ^ 64)%N (ta_priority task) (ta_resultCh task)) m.
(** The send to the channel of a stage, whose buffer holds one result per target. *)
Definition send_result (ch : option nat) (outcome : testOutcome) (m : OutboundMonitoring) : OutboundMonitoring :=
  match ch, om_cycle m with
  | Some ch, Some cy =>
      if bool_decide (cy_ch cy = ch) && (length (om_sent m) <? length (cy_tags cy))%nat
      then with_cycle (om_cycleSeq m) (om_cycle m) (om_stages m) (om_sent m ++ [(ch, outcome)]) m else m
  | _, _ => m
  end.
(** The end of [executeTask]. *)
Definition finishTask (env : test_env) (task : testTask) (m : OutboundMonitoring) : result OutboundMonitoring :=
  let! (history, err, m) := tester env (ta_outboundTag task) m in
  let outcome := mkOutcome (ta_outboundTag task) history err (ta_cycleID task) (ta_priority task) in
  Ok (on_state (ta_outboundTag task) (set_testing false) (send_result (ta_resultCh task) outcome (applyResult outcome m))).

(** ** Cycles ([startCycleOnce], [runCycle], [runStage]) *)

(** [sort.SliceStable] by delay. *)
Fixpoint insert_by {A} (key : A -> N) (x : A) (l : list A) : list A :=
  match l with [] => [x] | y :: l' => if (key x <=? key y)%N then x :: l else y :: insert_by key x l' end.
Definition sort_by {A} (key : A -> N) (l : list A) : list A := foldr (insert_by key) [] l.
Definition is_target (now : Z) (m : OutboundMonitoring) (tag : string) : bool :=
  match om_outbounds m !! tag with
  | None => false
  | Some st =>
      bool_decide (om_groups m !! tag = None) && negb (os_testing st || os_queued st || os_priorityQueued st)
      && (os_invalid st || (om_mainInterval m <=? now - hi_Time (os_history st))%Z)
  end.
Definition state_delay (m : OutboundMonitoring) (tag : string) : N := from_option (fun st => hi_Delay (os_history st)) 0%N (om_outbounds m !! tag).
(** [order] is the order in which the map of outbounds is visited. *)
Definition collectCycleTargets (now : Z) (order : list string) (m : OutboundMonitoring) : list string :=
  sort_by (state_delay m) (filter (fun tag => is_target now m tag) order).
Definition new_stage (cy : cycle) (idx : nat) (m : OutboundMonitoring) : OutboundMonitoring :=
  with_cycle (om_cycleSeq m) (Some (mkCycle (cy_ID cy) (cy_tags cy) idx (om_stages m) (cy_tags cy) 0 [])) (S (om_stages m)) [] m.
Definition startCycleOnce (now : Z) (order : list string) (m : OutboundMonitoring) : bool * OutboundMonitoring :=
  match om_cycle m with
  | Some _ => (false, m)
  | None =>
      let seq := ((om_cycleSeq m + 1) mod 2 ^ 64)%N in
      let tags := collectCycleTargets now order m in
      let m := with_cycle seq None (om_stages m) (om_sent m) m in
      (true, if bool_decide (tags = []) then m else new_stage (mkCycle seq tags 0 0 [] 0 []) 0 m)
  end.
Definition set_stage (cy : cycle) todo expected results : cycle := mkCycle (cy_ID cy) (cy_tags cy) (cy_idx cy) (cy_ch cy) todo expected results.
Definition runStage_enqueue (cy : cycle) (tag : string) (todo : list string) (m : OutboundMonitoring) : OutboundMonitoring :=
  let '(ok, m) := enqueueTask (mkTask tag (cy_ID cy) false (Some (cy_ch cy))) m in
  with_cycle (om_cycleSeq m) (Some (set_stage cy todo (if ok then S (cy_expected cy) else cy_expected cy) (cy_results cy))) (om_stages m) (om_sent m) m.
(** The end of a stage: the next link, or the end of the cycle. *)
Definition runCycle_next (cy : cycle) (m : OutboundMonitoring) : OutboundMonitoring :=
  let success := length (filter (fun r => bool_decide (oc_err r = None)) (cy_results cy)) in
  if (0 <? success)%nat || (S (cy_idx cy) =? length (om_urls m))%nat
  then
    let m := with_cycle (om_cycleSeq m) None (om_stages m) (om_sent m) m in
    if om_cacheDirty m then with_cache false (om_saved (saveHistory m)) (om_history m) m else m
  else new_stage cy (S (cy_idx cy)) (with_link (S (om_currentLinkIndex m) mod length (om_urls m)) m).

Inductive monitor_label : Type :=
| LStartCycle (now : Z) (order : list string) | LEnqueue | LReceive | LEndStage
| LTakePriority (ready : bool) | LTakeNormal (ready : bool) | LRetry (i : nat) | LFinish (i : nat) (env : test_env)
| LTestNow (fuel : nat) (order : string -> list string) (tag : string) | LInvalidateTest (tag : string)
| LStoreOther (tag : string) (history : History) | LDone.
Definition monitor_step (l : monitor_label) (m : OutboundMonitoring) : result OutboundMonitoring :=
  match l with
  | LStartCycle now order => Ok (snd (startCycleOnce now order m))
  | LEnqueue =>
      match om_cycle m with
      | Some cy => match cy_todo cy with tag :: todo => Ok (runStage_enqueue cy tag todo m) | [] => Err disabled end
      | None => Err disabled
      end
  | LReceive =>
      match om_cycle m, om_sent m with
      | Some cy, (ch, outcome) :: sent =>
          if bool_decide (cy_todo cy = [] /\ cy_expected cy <> 0%nat)
          then Ok (with_cycle (om_cycleSeq m) (Some (set_stage cy [] (pred (cy_expected cy)) (cy_results cy ++ [outcome]))) (om_stages m) sent m)
          else Err disabled
      | _, _ => Err disabled
      end
  | LEndStage =>
      match om_cycle m with
      | Some cy => if bool_decide (cy_todo cy = [] /\ (cy_expected cy = 0%nat \/ om_done m = true)) then Ok (runCycle_next cy m) else Err disabled
      | None => Err disabled
      end
  | LTakePriority ready =>
      match om_priorityQueue m with task :: q => Ok (executeTask ready task (with_queues q (om_normalQueue m) m)) | [] => Err disabled end
  | LTakeNormal ready =>
      match om_normalQueue m with task :: q => Ok (executeTask ready task (with_queues (om_priorityQueue m) q m)) | [] => Err disabled end
  | LRetry i =>
      match om_waiting m !! i with Some task => Ok (snd (retryTask task (with_work (delete i (om_waiting m)) (om_executing m) m))) | None => Err disabled end
  | LFinish i env =>
      match om_executing m !! i with Some task => finishTask env task (with_work (om_waiting m) (delete i (om_executing m)) m) | None => Err disabled end
  | LTestNow fuel order tag => match TestNow fuel order tag m with Some (_, m) => Ok m | None => Err disabled end
  | LInvalidateTest tag => Ok (snd (InvalidateTest tag m))
  | LStoreOther tag history => Ok (store_other tag history m)
  | LDone => Ok (with_done m)
  end.
Fixpoint monitor_run (ls : list monitor_label) (m : OutboundMonitoring) : result OutboundMonitoring :=
  match ls with [] => Ok m | l :: ls => let! m := monitor_step l m in monitor_run ls m end.

(** ** What is reported ([getUrlTest], [getMinGroupOutboundHistory], [OutboundsHistory]) *)

(** The best of those tested, or of those of the cache: an update of the one before keeps its time. *)
Definition better (his : History) (best : option History) : option History :=
  match best with
  | None => Some his
  | Some b =>
      if (hi_Delay his <? hi_Delay b)%N then Some (mkHistory (hi_Time b) (hi_Delay his) (hi_IpInfo his) (hi_IsFromCache b))
      else if bool_decide (hi_IpInfo b = None) then Some (mkHistory (hi_Time b) (hi_Delay b) (hi_IpInfo his) (hi_IsFromCache b))
      else Some b
  end.
Definition least_step (his : option History) (best : option History * option History) : option History * option History :=
  match his with
  | None => best
  | Some h =>
      if (hi_Delay h =? 0)%N then best
      else if hi_IsFromCache h then (fst best, better h (snd best)) else (better h (fst best), snd best)
  end.
Definition min_history (histories : list (option History)) : option History :=
  let '(minHis, minHisFromCache) := foldl (fun best his => least_step his best) (None, None) histories in
  match minHis with
  | None => minHisFromCache
  | Some h =>
      if (MonitorTimeoutDelay <=? hi_Delay h)%N then minHisFromCache
      else
        match minHisFromCache with
        | Some c => if bool_decide (hi_IpInfo h = None) then Some (mkHistory (hi_Time h) (hi_Delay h) (hi_IpInfo c) (hi_IsFromCache h)) else Some h
        | None => Some h
        end
  end.
(** [now] answers [Now] of a group; [order] gives the order in which its members are visited. *)
Fixpoint getUrlTest (fuel : nat) (now : string -> string) (order : string -> list string) (m : OutboundMonitoring) (outboundTag : string) : option (option History) :=
  match fuel with
  | O => None
  | S f =>
      match om_outbounds m !! outboundTag with
      | None => Some None
      | Some st =>
          match om_groups m !! outboundTag with
          | Some _ =>
              let realtag := if str_empty (now outboundTag) then outboundTag else now outboundTag in
              if negb (str_empty realtag) && bool_decide (realtag <> outboundTag) then getUrlTest f now order m realtag
              else min_history <$> mapM (getUrlTest f now order m) (order outboundTag)
          | None => Some (Some (mkHistory (hi_Time (os_history st)) (hi_Delay (os_history st)) (hi_IpInfo (os_history st)) (os_from_cache st)))
          end
      end
  end.

(** ** The timer ([Touch], [startTimerWorkers], [scheduleLoop], [stopTimerWorkers]) *)

(** [ti_lastActive] is [None] before it is set: the zero time, which is longer ago than any timeout. *)
Record timers : Type := mkTimers { ti_started : bool; ti_ticker : bool; ti_running : bool; ti_lastActive : option Z; ti_loops : nat; ti_cycles : nat }.
Definition startTimerWorkers (t : timers) : timers :=
  if ti_running t then t else mkTimers (ti_started t) true true (ti_lastActive t) (S (ti_loops t)) (S (ti_cycles t)).
Definition stopTimerWorkers (t : timers) : timers :=
  if ti_running t then mkTimers (ti_started t) false false (ti_lastActive t) (ti_loops t) (ti_cycles t) else t.
Definition Monitoring_Touch (now : Z) (t : timers) : timers :=
  if negb (ti_started t) then t
  else if ti_ticker t then mkTimers (ti_started t) (ti_ticker t) (ti_running t) (Some now) (ti_loops t) (ti_cycles t)
  else startTimerWorkers t.
Definition idle (now idleTimeout : Z) (t : timers) : bool := match ti_lastActive t with None => true | Some a => (idleTimeout <? now - a)%Z end.
(** A tick of [scheduleLoop]; a cycle is counted whether or not one runs. *)
Definition schedule_tick (now idleTimeout : Z) (t : timers) : timers :=
  if idle now idleTimeout t then stopTimerWorkers (mkTimers (ti_started t) (ti_ticker t) (ti_running t) (ti_lastActive t) (pred (ti_loops t)) (ti_cycles t))
  else mkTimers (ti_started t) (ti_ticker t) (ti_running t) (ti_lastActive t) (ti_loops t) (S (ti_cycles t)).
