(* ===== verification/MonitoringLaws.v ===== *)
(** * MonitoringLaws: what the monitoring promises

    Theorems about Monitoring.v: what a cycle waits for, the test that is lost, the delay of a group. *)

From S2P Require Import Prelude GoStd TransportBase Monitoring.
From stdpp Require Import gmap list sorting.
Open Scope string_scope.
Open Scope list_scope.

Definition tasks (m : OutboundMonitoring) : list testTask := om_priorityQueue m ++ om_normalQueue m ++ om_waiting m ++ om_executing m.

Lemma on_state_lookup tag f m t : om_outbounds (on_state tag f m) !! t = if bool_decide (t = tag) then f <$> om_outbounds m !! t else om_outbounds m !! t.
Proof. cbn. case_bool_decide as E; [subst; apply lookup_alter_eq|by apply lookup_alter_ne]. Qed.

(** ** What no step changes: the outbounds there are, the groups and the links, and that it is done *)

Record frame (m m' : OutboundMonitoring) : Prop := mkFrame {
  fr_groups : om_groups m' = om_groups m;
  fr_urls : om_urls m' = om_urls m;
  fr_dom : forall t, is_Some (om_outbounds m' !! t) <-> is_Some (om_outbounds m !! t);
  fr_done : om_done m = true -> om_done m' = true
}.
#[export] Instance frame_refl : Reflexive frame.
Proof. by constructor. Qed.
#[export] Instance frame_trans : Transitive frame.
Proof. intros m1 m2 m3 [A1 A2 A3 A4] [B1 B2 B3 B4]. constructor; [congruence|congruence| |auto]. intros t. by rewrite B3. Qed.
Lemma frame_same m m' : om_groups m' = om_groups m -> om_urls m' = om_urls m -> om_outbounds m' = om_outbounds m -> (om_done m = true -> om_done m' = true) -> frame m m'.
Proof. intros E1 E2 E3 E4. constructor; [done|done|by intros t; rewrite E3|done]. Qed.
Lemma on_state_frame t f m : frame m (on_state t f m).
Proof. constructor; [done|done| |done]. intros u. rewrite on_state_lookup. case_bool_decide; [|done]. by rewrite fmap_is_Some. Qed.
Lemma enqueueTask_frame task m : frame m (snd (enqueueTask task m)).
Proof.
  unfold enqueueTask. destruct (om_done m); [done|]. destruct (om_outbounds m !! ta_outboundTag task); [|done].
  destruct (ta_priority task); [destruct (os_priorityQueued _)|destruct (_ =? _)%N]; [done| |done|]; (destruct (_ <? _)%nat; [|apply on_state_frame]).
  all: cbn [snd]; etransitivity; [apply on_state_frame|by apply frame_same].
Qed.
(** Everything but the outbounds, the queues and the caches. *)
Record same_core (m m' : OutboundMonitoring) : Prop := mkSameCore {
  sc_link : om_currentLinkIndex m' = om_currentLinkIndex m;
  sc_cycle : om_cycle m' = om_cycle m;
  sc_stages : om_stages m' = om_stages m;
  sc_sent : om_sent m' = om_sent m;
  sc_done : om_done m' = om_done m
}.
Definition caps (m : OutboundMonitoring) : Prop := (length (om_priorityQueue m) <= cap_priority /\ length (om_normalQueue m) <= cap_normal)%nat.
(** A step that adds tasks, registered and of the kind given. *)
Definition adds (P : testTask -> Prop) (m m' : OutboundMonitoring) : Prop :=
  same_core m m' /\ frame m m' /\ (caps m -> caps m') /\
  exists extra, tasks m' ≡ₚ extra ++ tasks m /\ Forall (fun t => P t /\ is_Some (om_outbounds m' !! ta_outboundTag t)) extra.
Lemma adds_refl P m : adds P m m.
Proof. split_and!; [done|done|done|]. by exists []. Qed.
Lemma adds_trans P m1 m2 m3 : adds P m1 m2 -> adds P m2 m3 -> adds P m1 m3.
Proof.
  intros ([A1 A2 A3 A4 A5] & A & Ac & x & Ax & Ar) ([B1 B2 B3 B4 B5] & B & Bc & y & By & Br). split_and!; [constructor; congruence|by etransitivity|auto|].
  exists (y ++ x). split; [by rewrite By, Ax, app_assoc|]. apply Forall_app. split; [done|]. eapply Forall_impl; [exact Ar|]. intros t [? ?]. split; [done|]. by apply (fr_dom _ _ B).
Qed.
Lemma adds_state P t f m : adds P m (on_state t f m).
Proof. split_and!; [done|apply on_state_frame|done|]. by exists []. Qed.
Lemma enqueueTask_adds task m :
  let '(ok, m') := enqueueTask task m in
  adds (fun t => t = task) m m' /\ tasks m' ≡ₚ (if ok then [task] else []) ++ tasks m /\ (ok = true -> is_Some (om_outbounds m !! ta_outboundTag task)).
Proof.
  pose proof (enqueueTask_frame task m) as Hf. revert Hf. unfold enqueueTask. pose proof (adds_refl (fun t => t = task) m) as Hr.
  destruct (om_done m) eqn:Ed; [done|]. destruct (om_outbounds m !! ta_outboundTag task) as [st|] eqn:E; [|done]. destruct (ta_priority task).
  - destruct (os_priorityQueued st); [done|]. destruct (Nat.ltb_spec (length (om_priorityQueue (on_state (ta_outboundTag task) (fun st => set_flags (os_queued st) true (os_enqueuedCycle st) st) m))) cap_priority) as [Hl|Hl]; cbn [snd]; intros Hf.
    + assert (tasks (with_queues (om_priorityQueue m ++ [task]) (om_normalQueue m) m) ≡ₚ [task] ++ tasks m) as Hp by (unfold tasks; cbn [with_queues om_priorityQueue om_normalQueue om_waiting om_executing]; rewrite <- app_assoc; apply Permutation_app_swap_app).
      split_and!; [|done|done]. split_and!; [done|done| |].
      * intros [H1 H2]. cbn in H1, H2, Hl. split; cbn; [rewrite length_app; cbn; lia|done].
      * exists [task]. split; [done|]. apply Forall_singleton. split; [done|]. apply (fr_dom _ _ Hf). by eexists.
    + split_and!; [apply adds_state|done|done].
  - destruct (_ =? _)%N; [done|]. destruct (Nat.ltb_spec (length (om_normalQueue (on_state (ta_outboundTag task) (fun st => set_flags true (os_priorityQueued st) (ta_cycleID task) st) m))) cap_normal) as [Hl|Hl]; cbn [snd]; intros Hf.
    + assert (tasks (with_queues (om_priorityQueue m) (om_normalQueue m ++ [task]) m) ≡ₚ [task] ++ tasks m) as Hp by (unfold tasks; cbn [with_queues om_priorityQueue om_normalQueue om_waiting om_executing]; rewrite <- app_assoc, (Permutation_app_swap_app (om_normalQueue m)); apply Permutation_app_swap_app).
      split_and!; [|done|done]. split_and!; [done|done| |].
      * intros [H1 H2]. cbn in H1, H2, Hl. split; cbn; [done|rewrite length_app; cbn; lia].
      * exists [task]. split; [done|]. apply Forall_singleton. split; [done|]. apply (fr_dom _ _ Hf). by eexists.
    + split_and!; [apply adds_state|done|done].
Qed.
Definition unasked (t : testTask) : Prop := ta_resultCh t = None.
Lemma adds_impl (P Q : testTask -> Prop) m m' : (forall t, P t -> Q t) -> adds P m m' -> adds Q m m'.
Proof. intros HI (A & B & C & x & D & E). split_and!; [done..|]. exists x. split; [done|]. eapply Forall_impl; [exact E|]. intros t []. auto. Qed.
Lemma enqueueTask_unasked task m : ta_resultCh task = None -> adds unasked m (snd (enqueueTask task m)).
Proof. intros H. pose proof (enqueueTask_adds task m) as Ha. destruct (enqueueTask task m) as [ok m']. destruct Ha as [Ha _]. eapply adds_impl; [|exact Ha]. by intros t ->. Qed.
Lemma foldl_adds (f : string -> OutboundMonitoring -> option OutboundMonitoring) l : (forall t m m', f t m = Some m' -> adds unasked m m') ->
  forall m m', foldl (fun om t => m ← om; f t m) (Some m) l = Some m' -> adds unasked m m'.
Proof.
  intros Hf. induction l as [|t l IH]; intros m m'; [intros [= <-]; apply adds_refl|]. cbn [foldl]. cbn [mbind option_bind]. destruct (f t m) as [m1|] eqn:E.
  - intros H. eapply adds_trans; [by eapply Hf|]. by apply IH.
  - intros H. exfalso. clear -H. induction l; done.
Qed.
Lemma testNow_adds fuel order : forall t p m r, testNow fuel order t p m = Some r -> adds unasked m (snd r).
Proof.
  induction fuel as [|f IH]; intros t p m r; [done|]. cbn [testNow]. destruct (om_groups m !! t).
  - destruct (foldl _ _ _) as [m1|] eqn:E; [|done]. cbn. intros [= <-]. apply (foldl_adds (fun t m => snd <$> testNow f order t false m)) in E; [done|].
    intros t' m2 m3 H. destruct (testNow f order t' false m2) as [r2|] eqn:E2; [|done]. injection H as <-. by eapply IH.
  - destruct (om_outbounds m !! t); intros [= <-]; [by apply enqueueTask_unasked|apply adds_refl].
Qed.
Lemma testParents_adds fuel order : forall t first m m', testParents fuel order t first m = Some m' -> adds unasked m m'.
Proof.
  induction fuel as [|f IH]; intros t first m m'; [done|]. cbn [testParents]. destruct (om_outbounds m !! t) as [st|]; [|intros [= <-]; apply adds_refl].
  destruct (_ && _).
  - destruct (testNow f order t true m) as [r|] eqn:E; [|done]. cbn. intros H. eapply adds_trans; [by eapply testNow_adds|].
    eapply (foldl_adds (fun dep m => testParents f order dep false m)); [|exact H]. intros. by eapply IH.
  - cbn. intros H. eapply (foldl_adds (fun dep m => testParents f order dep false m)); [|exact H]. intros. by eapply IH.
Qed.
Lemma testNow_frame fuel order t p m r : testNow fuel order t p m = Some r -> frame m (snd r).
Proof. intros H. by destruct (testNow_adds _ _ _ _ _ _ H) as (_ & ? & _). Qed.
Lemma testParents_frame fuel order t first m m' : testParents fuel order t first m = Some m' -> frame m m'.
Proof. intros H. by destruct (testParents_adds _ _ _ _ _ _ H) as (_ & ? & _). Qed.
Lemma executeTask_frame ready task m : frame m (executeTask ready task m).
Proof.
  unfold executeTask. destruct (om_done m); [done|]. destruct (om_outbounds m !! ta_outboundTag task); [|done].
  destruct (_ && _); (etransitivity; [apply (on_state_frame (ta_outboundTag task) (set_testing true))|]); [|by apply frame_same].
  etransitivity; [apply (on_state_frame (ta_outboundTag task) (set_testing false))|]. by apply frame_same.
Qed.
Lemma tester_frame env t m r : tester env t m = Ok r -> frame m (snd r).
Proof.
  unfold tester. destruct (om_outbounds m !! t) as [out|]; [|by intros [= <-]]. destruct (om_urls m !! om_currentLinkIndex m) as [url|]; [|done].
  destruct (te_URLTest env url) as [delay err]. destruct (_ || _); [by intros [= <-]|]. destruct (te_ctx env); [by intros [= <-]|].
  destruct (_ && _); [|by intros [= <-]]. destruct (te_GetIpInfo env) as [[[err'|] ip] t']; intros [= <-]; apply on_state_frame.
Qed.
Lemma applyResult_frame oc m : frame m (applyResult oc m).
Proof.
  unfold applyResult. destruct (om_done m); [done|]. destruct (om_outbounds m !! oc_outboundTag oc); [|done].
  etransitivity; [apply (on_state_frame (oc_outboundTag oc))|]. by apply frame_same.
Qed.
Lemma send_result_frame ch oc m : frame m (send_result ch oc m).
Proof. unfold send_result. destruct ch; [|done]. destruct (om_cycle m); [|done]. destruct (_ && _); by apply frame_same. Qed.
Lemma finishTask_frame env task m m' : finishTask env task m = Ok m' -> frame m m'.
Proof.
  unfold finishTask. destruct (tester env (ta_outboundTag task) m) as [[[hi err] m1]|e|p] eqn:E; [|done|done]. cbn [mbind result_bind]. intros [= <-].
  etransitivity; [by apply (tester_frame _ _ _ _ E)|]. etransitivity; [|apply on_state_frame]. etransitivity; [apply applyResult_frame|apply send_result_frame].
Qed.
Lemma runCycle_next_frame cy m : frame m (runCycle_next cy m).
Proof. unfold runCycle_next. destruct (_ || _); [|by apply frame_same]. destruct (om_cacheDirty _); by apply frame_same. Qed.
Lemma store_other_frame t h m : frame m (store_other t h m).
Proof. unfold store_other. destruct (om_history m !! t) as [[|]|]; [by apply frame_same|apply on_state_frame|by apply frame_same]. Qed.
Lemma monitor_step_frame l m m' : monitor_step l m = Ok m' -> frame m m'.
Proof.
  destruct l as [now order| | | |ready|ready|i|i env|fuel order t|t|t h|]; cbn [monitor_step].
  - intros [= <-]. unfold startCycleOnce. destruct (om_cycle m); [done|]. cbn [snd]. case_bool_decide; by apply frame_same.
  - destruct (om_cycle m) as [cy|]; [|done]. destruct (cy_todo cy) as [|t todo]; [done|]. intros [= <-]. unfold runStage_enqueue.
    pose proof (enqueueTask_frame (mkTask t (cy_ID cy) false (Some (cy_ch cy))) m) as H. destruct (enqueueTask _ m) as [ok m1]. etransitivity; [exact H|]. by apply frame_same.
  - destruct (om_cycle m) as [cy|]; [|done]. destruct (om_sent m) as [|[ch oc] sent]; [done|]. case_bool_decide; [|done]. intros [= <-]. by apply frame_same.
  - destruct (om_cycle m) as [cy|]; [|done]. case_bool_decide; [|done]. intros [= <-]. apply runCycle_next_frame.
  - destruct (om_priorityQueue m) as [|task q]; [done|]. intros [= <-]. etransitivity; [|apply executeTask_frame]. by apply frame_same.
  - destruct (om_normalQueue m) as [|task q]; [done|]. intros [= <-]. etransitivity; [|apply executeTask_frame]. by apply frame_same.
  - destruct (om_waiting m !! i) as [task|]; [|done]. intros [= <-]. unfold retryTask. destruct (om_done _); [by apply frame_same|].
    etransitivity; [|apply enqueueTask_frame]. by apply frame_same.
  - destruct (om_executing m !! i) as [task|]; [|done]. intros H. etransitivity; [|by eapply finishTask_frame]. by apply frame_same.
  - unfold TestNow. destruct (testParents fuel order t true m) as [m1|] eqn:E1; [|done]. cbn [mbind option_bind].
    destruct (testNow fuel order t true m1) as [[e m2]|] eqn:E2; [|done]. intros [= <-]. etransitivity; [by eapply testParents_frame|]. by apply (testNow_frame _ _ _ _ _ _ E2).
  - intros [= <-]. unfold InvalidateTest. destruct (om_outbounds m !! t); [|done]. cbn [snd]. etransitivity; [apply (on_state_frame t (set_invalid true))|apply enqueueTask_frame].
  - intros [= <-]. apply store_other_frame.
  - intros [= <-]. by apply frame_same.
Qed.

(** ** The test that is lost *)

(** The outbound is marked as queued with priority, and no task is there that would unmark it. *)
Definition stuck (tag : string) (h : History) (m : OutboundMonitoring) : Prop :=
  (exists st, om_outbounds m !! tag = Some st /\ os_priorityQueued st = true /\ os_history st = h) /\
  om_groups m !! tag = None /\ Forall (fun t => ta_outboundTag t <> tag) (tasks m) /\
  (forall cy, om_cycle m = Some cy -> (tag ∉ cy_tags cy) /\ (tag ∉ cy_todo cy)).
(** Tests of whole groups, and delays stored by others. *)
Definition harmless (tag : string) (m : OutboundMonitoring) (l : monitor_label) : Prop :=
  match l with LTestNow _ _ g => om_groups m !! g = None | LStoreOther t _ => t <> tag | _ => True end.

Section Stuck.
Variables (tag : string) (h : History).
#[local] Abbreviation stuck := (stuck tag h).

Lemma stuck_on_state t f m : stuck m -> (t = tag -> forall st, os_priorityQueued (f st) = os_priorityQueued st /\ os_history (f st) = os_history st) -> stuck (on_state t f m).
Proof.
  intros ((st & E & Hp & Hh) & Hg & Ht & Hc) Hf. split_and!; [|done..]. rewrite on_state_lookup. case_bool_decide as Et; [|by exists st].
  rewrite E. exists (f st). destruct (Hf (eq_sym Et) st) as [-> ->]. done.
Qed.
Lemma stuck_same m m' : stuck m -> om_outbounds m' = om_outbounds m -> om_groups m' = om_groups m -> (forall t, t ∈ tasks m' -> t ∈ tasks m) ->
  (forall cy, om_cycle m' = Some cy -> (tag ∉ cy_tags cy) /\ (tag ∉ cy_todo cy)) -> stuck m'.
Proof.
  intros (Hs & Hg & Ht & Hc) E1 E2 Hin Hc'. split_and!; [by rewrite E1|by rewrite E2| |done]. rewrite Forall_forall in Ht |- *. intros t Hi. by apply Ht, Hin.
Qed.
Lemma stuck_add_task m m' task : stuck m -> om_outbounds m' = om_outbounds m -> om_groups m' = om_groups m -> om_cycle m' = om_cycle m ->
  (forall t, t ∈ tasks m' -> t ∈ tasks m \/ t = task) -> ta_outboundTag task <> tag -> stuck m'.
Proof.
  intros (Hs & Hg & Ht & Hc) E1 E2 E3 Hin Hne. split_and!; [by rewrite E1|by rewrite E2| |by rewrite E3]. rewrite Forall_forall in Ht |- *. intros t Hi. destruct (Hin t Hi) as [?| ->]; auto.
Qed.
Lemma enqueueTask_stuck task m : stuck m -> (ta_outboundTag task = tag -> ta_priority task = true) ->
  stuck (snd (enqueueTask task m)) /\ (ta_outboundTag task = tag -> fst (enqueueTask task m) = false) /\ om_groups (snd (enqueueTask task m)) = om_groups m.
Proof.
  intros Hs Hp. unfold enqueueTask. destruct (om_done m); [done|]. destruct (om_outbounds m !! ta_outboundTag task) as [st|] eqn:E; [|done].
  destruct (decide (ta_outboundTag task = tag)) as [Et|Hne].
  - rewrite (Hp Et). destruct Hs as ((st' & E' & Hq & Hh) & Hg). rewrite Et in E. rewrite E in E'. injection E' as <-. rewrite Hq. cbn. split_and!; [|done|done]. split; [by exists st|done].
  - destruct (ta_priority task).
    + destruct (os_priorityQueued st); [done|]. set (m1 := on_state _ _ m). assert (stuck m1) as H1 by (by apply stuck_on_state).
      destruct (_ <? _)%nat; [|done]. cbn [fst snd]. split_and!; [|done|done]. eapply stuck_add_task; [exact H1|done|done|done| |exact Hne].
      intros t. unfold tasks. cbn [with_queues om_priorityQueue om_normalQueue om_waiting om_executing]. set_solver.
    + destruct (_ =? _)%N; [done|]. set (m1 := on_state _ _ m). assert (stuck m1) as H1 by (by apply stuck_on_state).
      destruct (_ <? _)%nat; [|done]. cbn [fst snd]. split_and!; [|done|done]. eapply stuck_add_task; [exact H1|done|done|done| |exact Hne].
      intros t. unfold tasks. cbn [with_queues om_priorityQueue om_normalQueue om_waiting om_executing]. set_solver.
Qed.
Lemma testNow_stuck fuel order t m r : stuck m -> om_groups m !! t = None -> testNow fuel order t true m = Some r -> stuck (snd r) /\ om_groups (snd r) = om_groups m.
Proof.
  intros Hs Hg. destruct fuel as [|f]; [done|]. cbn [testNow]. rewrite Hg. destruct (om_outbounds m !! t); intros [= <-]; [|done]. cbn [snd].
  destruct (enqueueTask_stuck (mkTask t (om_cycleSeq m) true None) m Hs) as (? & _ & ?); done.
Qed.
Lemma testParents_stuck fuel order : forall t first m m', stuck m -> testParents fuel order t first m = Some m' -> stuck m' /\ om_groups m' = om_groups m.
Proof.
  induction fuel as [|f IH]; intros t first m m' Hs; [done|]. cbn [testParents]. destruct (om_outbounds m !! t) as [st|]; [|by intros [= <-]].
  assert (forall l om, (forall m1, om = Some m1 -> stuck m1 /\ om_groups m1 = om_groups m) ->
    forall m2, foldl (fun om dep => m ← om; testParents f order dep false m) om l = Some m2 -> stuck m2 /\ om_groups m2 = om_groups m) as G.
  { induction l as [|d l IHl]; intros om H m2; cbn [foldl]; [apply H|]. apply IHl. intros m1. destruct om as [m3|]; [|done]. cbn.
    destruct (H m3 eq_refl) as [H3 Hg3]. intros E. destruct (IH _ _ _ _ H3 E) as [? Hg1]. split; [done|congruence]. }
  case_bool_decide as Hg; cbn [andb].
  - destruct first; cbn [negb mbind option_bind]; [apply G; by intros m1 [= <-]|]. destruct (testNow f order t true m) as [r|] eqn:E; [|done]. cbn.
    apply G. intros m1 [= <-]. by eapply testNow_stuck.
  - apply G. by intros m1 [= <-].
Qed.
Lemma executeTask_stuck ready task m : stuck m -> ta_outboundTag task <> tag -> stuck (executeTask ready task m).
Proof.
  intros Hs Hne. unfold executeTask. destruct (om_done m); [done|]. destruct (om_outbounds m !! ta_outboundTag task); [|done].
  set (m1 := on_state (ta_outboundTag task) (set_testing true) m). assert (stuck m1) as H1 by (by apply stuck_on_state). destruct (_ && _).
  - set (m2 := on_state (ta_outboundTag task) (set_testing false) m1). assert (stuck m2) as H2 by (by apply stuck_on_state).
    eapply stuck_add_task; [exact H2|done|done|done| |exact Hne]. intros t. unfold tasks. cbn. set_solver.
  - eapply stuck_add_task; [exact H1|done|done|done| |exact Hne]. intros t. unfold tasks. cbn. set_solver.
Qed.
Lemma tester_stuck env t m r : stuck m -> tester env t m = Ok r -> stuck (snd r).
Proof.
  intros Hs. unfold tester. destruct (om_outbounds m !! t) as [out|]; [|by intros [= <-]]. destruct (om_urls m !! om_currentLinkIndex m) as [url|]; [|done].
  destruct (te_URLTest env url) as [delay err]. destruct (_ || _); [by intros [= <-]|]. destruct (te_ctx env); [by intros [= <-]|].
  destruct (_ && _); [|by intros [= <-]]. destruct (te_GetIpInfo env) as [[err' ip] t']. set (m1 := on_state t _ m).
  assert (stuck m1) as H1 by (apply stuck_on_state; [done|by destruct err']). destruct err'; by intros [= <-].
Qed.
Lemma finishTask_stuck env task m m' : stuck m -> ta_outboundTag task <> tag -> finishTask env task m = Ok m' -> stuck m'.
Proof.
  intros Hs Hne. unfold finishTask. destruct (tester env (ta_outboundTag task) m) as [[[hi err] m1]|e|p] eqn:E; [|done|done]. cbn [mbind result_bind].
  pose proof (tester_stuck _ _ _ _ Hs E) as H1. cbn [snd] in H1. set (oc := mkOutcome _ _ _ _ _). intros [= <-]. apply stuck_on_state; [|done].
  assert (stuck (applyResult oc m1)) as H2.
  { unfold applyResult. destruct (om_done m1); [done|]. destruct (om_outbounds m1 !! oc_outboundTag oc) as [st|]; [|done].
    eapply stuck_same; [eapply stuck_on_state; [exact H1|]| | | |]; [|done|done|done|apply H1]. intros Et. by destruct Hne. }
  unfold send_result. destruct (ta_resultCh task); [|done]. destruct (om_cycle (applyResult oc m1)) as [cy|] eqn:Ec; [|done]. destruct (_ && _); [|done].
  eapply stuck_same; [exact H2|done|done|done|]. cbn. intros cy' Hcy. apply (proj2 (proj2 (proj2 H2))). congruence.
Qed.
Lemma stuck_not_target now m : stuck m -> is_target now m tag = false.
Proof. intros ((st & E & Hp & Hh) & Hg & _). unfold is_target. rewrite E, Hp, orb_true_r. by rewrite andb_false_r. Qed.
Lemma insert_by_perm {A} (key : A -> N) x l : insert_by key x l ≡ₚ x :: l.
Proof. induction l as [|y l IH]; [done|]. cbn [insert_by]. destruct (_ <=? _)%N; [done|]. rewrite IH. apply Permutation_swap. Qed.
Lemma sort_by_perm {A} (key : A -> N) l : sort_by key l ≡ₚ l.
Proof. induction l as [|x l IH]; [done|]. cbn [sort_by foldr]. rewrite insert_by_perm. by constructor. Qed.
Lemma startCycleOnce_stuck now order m : stuck m -> stuck (snd (startCycleOnce now order m)).
Proof.
  intros Hs. unfold startCycleOnce. destruct (om_cycle m) eqn:Ec; [done|]. cbn [snd]. case_bool_decide as E.
  - by eapply stuck_same.
  - assert (tag ∉ collectCycleTargets now order m) as Hni.
    { intros Hin. unfold collectCycleTargets in Hin. rewrite sort_by_perm in Hin. apply list_elem_of_filter in Hin as [Hin _]. by rewrite (stuck_not_target now m Hs) in Hin. }
    eapply stuck_same; [exact Hs|done|done|done|]. cbn. by intros cy [= <-].
Qed.
Lemma runCycle_next_stuck cy m : stuck m -> om_cycle m = Some cy -> stuck (runCycle_next cy m).
Proof.
  intros Hs Ec. destruct (proj2 (proj2 (proj2 Hs)) cy Ec) as [Hc _]. unfold runCycle_next. destruct (_ || _).
  - destruct (om_cacheDirty _); by eapply stuck_same.
  - eapply stuck_same; [exact Hs|done|done|done|]. cbn. by intros cy' [= <-].
Qed.
Lemma with_queues_stuck m p n : stuck m -> (forall t, t ∈ p -> t ∈ om_priorityQueue m) -> (forall t, t ∈ n -> t ∈ om_normalQueue m) -> stuck (with_queues p n m).
Proof. intros Hs Hp Hn. eapply stuck_same; [exact Hs|done|done| |apply Hs]. intros t. unfold tasks. cbn. set_solver. Qed.
Lemma with_work_stuck m w x : stuck m -> (forall t, t ∈ w -> t ∈ om_waiting m) -> (forall t, t ∈ x -> t ∈ om_executing m) -> stuck (with_work w x m).
Proof. intros Hs Hw Hx. eapply stuck_same; [exact Hs|done|done| |apply Hs]. intros t. unfold tasks. cbn. set_solver. Qed.
Lemma stuck_task m t : stuck m -> t ∈ tasks m -> ta_outboundTag t <> tag.
Proof. intros (_ & _ & H & _) Hin. rewrite Forall_forall in H. by apply H. Qed.
Lemma elem_of_delete {A} (l : list A) i x : x ∈ delete i l -> x ∈ l.
Proof. intros Hin. eapply list_elem_of_lookup_1 in Hin as [j Hj]. destruct (decide (j < i)%nat); [rewrite list_lookup_delete_lt in Hj by done|rewrite list_lookup_delete_ge in Hj by lia]; by eapply list_elem_of_lookup_2. Qed.
Lemma monitor_step_stuck l m m' : stuck m -> harmless tag m l -> monitor_step l m = Ok m' -> stuck m'.
Proof.
  intros Hs Hl. destruct l as [now order| | | |ready|ready|i|i env|fuel order t|t|t hi|]; cbn [monitor_step].
  - intros [= <-]. by apply startCycleOnce_stuck.
  - destruct (om_cycle m) as [cy|] eqn:Ec; [|done]. destruct (proj2 (proj2 (proj2 Hs)) cy Ec) as [Hc Ht]. destruct (cy_todo cy) as [|t todo]; [done|]. intros [= <-].
    unfold runStage_enqueue. destruct (enqueueTask_stuck (mkTask t (cy_ID cy) false (Some (cy_ch cy))) m Hs) as (H1 & _ & _); [cbn; set_solver|].
    destruct (enqueueTask _ m) as [ok m1]. cbn [snd] in H1. eapply stuck_same; [exact H1|done|done|done|]. cbn. intros cy' [= <-]. cbn. set_solver.
  - destruct (om_cycle m) as [cy|] eqn:Ec; [|done]. destruct (proj2 (proj2 (proj2 Hs)) cy Ec) as [Hc Ht]. destruct (om_sent m) as [|[ch oc] sent]; [done|]. case_bool_decide; [|done].
    intros [= <-]. eapply stuck_same; [exact Hs|done|done|done|]. cbn. intros cy' [= <-]. cbn. split; [done|apply not_elem_of_nil].
  - destruct (om_cycle m) as [cy|] eqn:Ec; [|done]. case_bool_decide; [|done]. intros [= <-]. by apply runCycle_next_stuck.
  - destruct (om_priorityQueue m) as [|task q] eqn:E; [done|]. intros [= <-]. apply executeTask_stuck.
    + apply with_queues_stuck; [done|rewrite E; set_solver|done].
    + apply (stuck_task m task Hs). unfold tasks. rewrite E. set_solver.
  - destruct (om_normalQueue m) as [|task q] eqn:E; [done|]. intros [= <-]. apply executeTask_stuck.
    + apply with_queues_stuck; [done|done|rewrite E; set_solver].
    + apply (stuck_task m task Hs). unfold tasks. rewrite E. set_solver.
  - destruct (om_waiting m !! i) as [task|] eqn:E; [|done]. intros [= <-]. apply list_elem_of_lookup_2 in E.
    assert (stuck (with_work (delete i (om_waiting m)) (om_executing m) m)) as H1 by (apply with_work_stuck; [done|by intros t; apply elem_of_delete|done]).
    unfold retryTask. destruct (om_done _); [done|]. apply enqueueTask_stuck; [done|]. intros Et. cbn in Et. exfalso. apply (stuck_task m task Hs); [|done]. unfold tasks. set_solver.
  - destruct (om_executing m !! i) as [task|] eqn:E; [|done]. apply list_elem_of_lookup_2 in E. apply finishTask_stuck.
    + apply with_work_stuck; [done|done|by intros t; apply elem_of_delete].
    + apply (stuck_task m task Hs). unfold tasks. set_solver.
  - unfold TestNow. destruct (testParents fuel order t true m) as [m1|] eqn:E1; [|done]. cbn [mbind option_bind].
    destruct (testParents_stuck fuel order t true m m1 Hs E1) as [H1 Hg]. cbn in Hl. destruct (testNow fuel order t true m1) as [[e m2]|] eqn:E2; [|done]. intros [= <-].
    apply (testNow_stuck fuel order t m1 (e, m2) H1); [congruence|done].
  - intros [= <-]. unfold InvalidateTest. destruct (om_outbounds m !! t); [|done]. cbn [snd]. apply enqueueTask_stuck; [by apply stuck_on_state|done].
  - intros [= <-]. cbn in Hl. unfold store_other. destruct (om_history m !! t) as [[|]|]; [by eapply stuck_same; try apply Hs|by apply stuck_on_state|by eapply stuck_same; try apply Hs].
  - intros [= <-]. by eapply stuck_same; try apply Hs.
Qed.
Lemma monitor_run_stuck ls : forall m m', stuck m -> Forall (harmless tag m) ls -> monitor_run ls m = Ok m' -> stuck m'.
Proof.
  induction ls as [|l ls IH]; intros m m' Hs Hl; [by intros [= <-]|]. apply Forall_cons in Hl as [Hl Hls]. cbn [monitor_run].
  destruct (monitor_step l m) as [m1|e|p] eqn:E; [|done|done]. cbn [mbind result_bind]. apply IH; [by eapply monitor_step_stuck|].
  pose proof (fr_groups _ _ (monitor_step_frame _ _ _ E)) as Hg. eapply Forall_impl; [exact Hls|]. intros []; cbn; congruence.
Qed.
End Stuck.

(** A priority test of an outbound that was not ready is tried again while the outbound is still marked as queued with priority: the queue does not take it. *)
Lemma retry_sticks m i task st : om_waiting m !! i = Some task -> ta_priority task = true -> om_done m = false ->
  om_outbounds m !! ta_outboundTag task = Some st -> os_priorityQueued st = true -> om_groups m !! ta_outboundTag task = None ->
  Forall (fun t => ta_outboundTag t <> ta_outboundTag task) (om_priorityQueue m ++ om_normalQueue m ++ delete i (om_waiting m) ++ om_executing m) ->
  (forall cy, om_cycle m = Some cy -> (ta_outboundTag task ∉ cy_tags cy) /\ (ta_outboundTag task ∉ cy_todo cy)) ->
  exists m', monitor_step (LRetry i) m = Ok m' /\ stuck (ta_outboundTag task) (os_history st) m'.
Proof.
  intros Hi Hp Hd Hst Hq Hg Ht Hc. cbn [monitor_step]. rewrite Hi. eexists. split; [done|]. unfold retryTask. cbn. rewrite Hd. unfold enqueueTask. cbn. rewrite Hd, Hst, Hp, Hq.
  cbn [snd]. split; [by exists st|]. split_and!; done.
Qed.

(** C36: a test asked for is lost, and the outbound is not tested again.  In the first ten cycles the test of an outbound that is not ready is tried again after three
    seconds; when it was asked for with priority ([TestNow], [InvalidateTest]), the outbound is still marked as queued, so that the queue refuses the task.  When no other test of the outbound is
    queued, waits or is carried out then, and the cycle that runs, if one does, does not have it as a target (the result of such a test would clear the mark), the mark stays: from
    then on, in any order of the goroutines and the calls, as long as no whole group is tested and no other part of the program stores a delay of the outbound, no cycle has the outbound among its targets, no
    request for a test is taken, and its history stays as it is. *)
Theorem priority_retry_stuck m i task st ls m' : om_waiting m !! i = Some task -> ta_priority task = true -> om_done m = false ->
  om_outbounds m !! ta_outboundTag task = Some st -> os_priorityQueued st = true -> om_groups m !! ta_outboundTag task = None ->
  Forall (fun t => ta_outboundTag t <> ta_outboundTag task) (om_priorityQueue m ++ om_normalQueue m ++ delete i (om_waiting m) ++ om_executing m) ->
  (forall cy, om_cycle m = Some cy -> (ta_outboundTag task ∉ cy_tags cy) /\ (ta_outboundTag task ∉ cy_todo cy)) ->
  Forall (harmless (ta_outboundTag task) m) ls -> monitor_run (LRetry i :: ls) m = Ok m' ->
  (exists st', om_outbounds m' !! ta_outboundTag task = Some st' /\ os_history st' = os_history st) /\
  (forall now order, ta_outboundTag task ∉ collectCycleTargets now order m') /\
  (forall cycleID ch, fst (enqueueTask (mkTask (ta_outboundTag task) cycleID true ch) m') = false) /\
  Forall (fun t => ta_outboundTag t <> ta_outboundTag task) (tasks m').
Proof.
  intros Hi Hp Hd Hst Hq Hg Ht Hc Hl. destruct (retry_sticks m i task st Hi Hp Hd Hst Hq Hg Ht Hc) as (m1 & E1 & H1). cbn [monitor_run]. rewrite E1. cbn [mbind result_bind]. intros Hr.
  assert (stuck (ta_outboundTag task) (os_history st) m') as Hs.
  { eapply monitor_run_stuck; [exact H1| |exact Hr]. pose proof (fr_groups _ _ (monitor_step_frame _ _ _ E1)) as Eg. eapply Forall_impl; [exact Hl|]. intros []; cbn; congruence. }
  split_and!; [|intros now order Hin|intros cycleID ch|apply Hs].
  - destruct Hs as ((st' & ? & _ & ?) & _). by exists st'.
  - unfold collectCycleTargets in Hin. rewrite sort_by_perm in Hin. apply list_elem_of_filter in Hin as [Hin _]. by rewrite (stuck_not_target _ _ now m' Hs) in Hin.
  - by apply (enqueueTask_stuck _ _ (mkTask (ta_outboundTag task) cycleID true ch) m' Hs).
Qed.

(** ** What a stage waits for *)

Definition waits_for (ch : nat) (t : testTask) : Prop := ta_resultCh t = Some ch.
#[export] Instance waits_for_dec ch t : Decision (waits_for ch t).
Proof. unfold waits_for. solve_decision. Defined.
(** The tasks that will send to the channel. *)
Definition inflight (ch : nat) (l : list testTask) : nat := length (filter (waits_for ch) l).
Lemma inflight_perm ch l l' : l ≡ₚ l' -> inflight ch l = inflight ch l'.
Proof. intros H. unfold inflight. by rewrite H. Qed.
Lemma inflight_cons ch t l : inflight ch (t :: l) = ((if decide (waits_for ch t) then 1 else 0) + inflight ch l)%nat.
Proof. unfold inflight. rewrite filter_cons. by destruct (decide _). Qed.
Lemma inflight_app ch l l' : inflight ch (l ++ l') = (inflight ch l + inflight ch l')%nat.
Proof. unfold inflight. by rewrite filter_app, length_app. Qed.
Lemma inflight_none ch l : Forall (fun t => ta_resultCh t = None) l -> inflight ch l = 0%nat.
Proof. intros H. unfold inflight. induction H as [|t l E H IH]; [done|]. rewrite filter_cons, decide_False; [done|]. unfold waits_for. congruence. Qed.


Record monitor_inv (m : OutboundMonitoring) : Prop := mkMonitorInv {
  mi_link : (om_currentLinkIndex m < length (om_urls m))%nat;
  mi_caps : caps m;
  mi_tags : Forall (fun t => is_Some (om_outbounds m !! ta_outboundTag t)) (tasks m);
  mi_fresh : forall t ch, t ∈ tasks m -> ta_resultCh t = Some ch -> (ch < om_stages m)%nat;
  mi_stage : forall cy, om_cycle m = Some cy -> (cy_ch cy < om_stages m)%nat /\ (cy_idx cy < length (om_urls m))%nat /\
    (cy_expected cy + length (cy_todo cy) <= length (cy_tags cy))%nat /\ (length (om_sent m) + inflight (cy_ch cy) (tasks m) <= cy_expected cy)%nat
}.
(** No result is missing. *)
Definition conserved (m : OutboundMonitoring) : Prop :=
  forall cy, om_cycle m = Some cy -> cy_expected cy = (length (om_sent m) + inflight (cy_ch cy) (tasks m))%nat.
(** The retry of a test a stage waits for is refused. *)
Definition retry_refused (l : monitor_label) (m : OutboundMonitoring) : Prop :=
  exists i task ch, l = LRetry i /\ om_waiting m !! i = Some task /\ ta_resultCh task = Some ch /\
    fst (retryTask task (with_work (delete i (om_waiting m)) (om_executing m) m)) = false.
Definition step_ok (l : monitor_label) (m m' : OutboundMonitoring) : Prop :=
  monitor_inv m' /\ (conserved m -> om_done m' = false -> ~ retry_refused l m -> conserved m').

Lemma tags_frame m m' l : frame m m' -> Forall (fun t => is_Some (om_outbounds m !! ta_outboundTag t)) l -> Forall (fun t => is_Some (om_outbounds m' !! ta_outboundTag t)) l.
Proof. intros Hf Hl. eapply Forall_impl; [exact Hl|]. intros t Ht. by apply (fr_dom _ _ Hf). Qed.
(** Tasks that no stage waits for change nothing. *)
Lemma adds_ok l m m' : monitor_inv m -> adds unasked m m' -> step_ok l m m'.
Proof.
  intros [H1 H2 H3 H4 H5] ([E1 E2 E3 E4 E5] & Hf & Hc & x & Hp & Hx).
  assert (forall ch, inflight ch (tasks m') = inflight ch (tasks m)) as Hi.
  { intros ch. rewrite (inflight_perm ch _ _ Hp), inflight_app, inflight_none; [done|]. eapply Forall_impl; [exact Hx|]. by intros t []. }
  split; [constructor|].
  - by rewrite E1, (fr_urls _ _ Hf).
  - by apply Hc.
  - rewrite Hp. apply Forall_app. split; [|by eapply tags_frame]. eapply Forall_impl; [exact Hx|]. by intros t [].
  - intros t ch Hin Hch. rewrite E3. rewrite Hp in Hin. apply elem_of_app in Hin as [Hin|Hin]; [|by apply (H4 t)].
    rewrite Forall_forall in Hx. destruct (Hx t Hin) as [Hu _]. unfold unasked in Hu. congruence.
  - intros cy. rewrite E2, E3, E4, (fr_urls _ _ Hf), Hi. apply H5.
  - intros Hcv _ _ cy. rewrite E2, E4, Hi. apply Hcv.
Qed.
(** Moving tasks around, in a step that keeps the rest. *)
Lemma moves_ok l m m' : monitor_inv m -> same_core m m' -> frame m m' -> caps m' -> tasks m' ≡ₚ tasks m -> step_ok l m m'.
Proof.
  intros H Hs Hf Hc Hp. apply adds_ok; [done|]. split_and!; [done|done|done|]. by exists [].
Qed.
(** A task that is dropped. *)
Lemma drop_task_inv m m' task : monitor_inv m -> same_core m m' -> frame m m' -> caps m' -> tasks m ≡ₚ task :: tasks m' -> monitor_inv m'.
Proof.
  intros [H1 H2 H3 H4 H5] [E1 E2 E3 E4 E5] Hf Hc Hp. constructor; [by rewrite E1, (fr_urls _ _ Hf)|done|..].
  - eapply tags_frame; [done|]. rewrite Hp in H3. by apply Forall_cons in H3 as [_ ?].
  - intros t ch Hin. rewrite E3. apply H4. rewrite Hp. set_solver.
  - intros cy. rewrite E2, E3, E4, (fr_urls _ _ Hf). intros Hcy. destruct (H5 cy Hcy) as (? & ? & ? & Hle). split_and!; [done..|].
    rewrite (inflight_perm _ _ _ Hp), inflight_cons in Hle. lia.
Qed.
Lemma executeTask_ok l ready task m0 m : monitor_inv m0 -> same_core m0 m -> frame m0 m -> caps m -> tasks m0 ≡ₚ task :: tasks m -> step_ok l m0 (executeTask ready task m).
Proof.
  intros Hi Hs Hf Hc Hp. assert (is_Some (om_outbounds m !! ta_outboundTag task)) as [st Est].
  { apply (fr_dom _ _ Hf). pose proof (mi_tags _ Hi) as Ht. rewrite Hp in Ht. by apply Forall_cons in Ht as [? _]. }
  pose proof (executeTask_frame ready task m) as He. revert He. unfold executeTask. destruct (om_done m) eqn:Ed.
  { intros _. split; [by eapply drop_task_inv|]. intros _ Hd. congruence. }
  rewrite Est. destruct (_ && _); intros He; (apply moves_ok; [done|by destruct Hs; constructor|by etransitivity|done|]);
    rewrite Hp; unfold tasks; cbn [on_state with_outbounds with_work om_priorityQueue om_normalQueue om_waiting om_executing].
  - rewrite <- app_assoc, (Permutation_app_swap_app (om_waiting m) [task]), (Permutation_app_swap_app (om_normalQueue m) [task]). apply Permutation_app_swap_app.
  - symmetry. rewrite !app_assoc. by rewrite <- Permutation_cons_append.
Qed.
Lemma step_ok_adds l m m1 m2 : step_ok l m m1 -> adds unasked m1 m2 -> step_ok l m m2.
Proof.
  intros [Hi Hc] Ha. destruct (adds_ok LDone m1 m2 Hi Ha) as [Hi2 Hc2]. split; [done|]. intros Hcv Hd Hr. pose proof (sc_done _ _ (proj1 Ha)) as Ed.
  apply Hc2; [|done|by intros (? & ? & ? & ? & _)]. apply Hc; [done|congruence|done].
Qed.
(** The end of a task: its result goes to the stage that waits for it. *)
Lemma send_result_ok l task oc m0 m : monitor_inv m0 -> same_core m0 m -> frame m0 m -> caps m -> tasks m0 ≡ₚ task :: tasks m ->
  step_ok l m0 (send_result (ta_resultCh task) oc m).
Proof.
  intros Hi Hs Hf Hc Hp. pose proof (drop_task_inv m0 m task Hi Hs Hf Hc Hp) as Hd. destruct Hs as [E1 E2 E3 E4 E5].
  assert (forall ch, inflight ch (tasks m0) = ((if decide (waits_for ch task) then 1 else 0) + inflight ch (tasks m))%nat) as Hin by (intros ch; by rewrite (inflight_perm _ _ _ Hp), inflight_cons).
  assert ((forall cy, om_cycle m = Some cy -> ~ waits_for (cy_ch cy) task) -> step_ok l m0 m) as Hdrop.
  { intros Hn. split; [done|]. intros Hcv _ _ cy Hcy. rewrite E4. rewrite (Hcv cy) by congruence. rewrite Hin, decide_False by (by apply Hn). done. }
  unfold send_result. destruct (ta_resultCh task) as [ch|] eqn:Ech; [|by apply Hdrop; intros cy _; unfold waits_for; rewrite Ech].
  destruct (om_cycle m) as [cy|] eqn:Ecy; [|by apply Hdrop].
  destruct (decide (cy_ch cy = ch)) as [<-|Hne]; [rewrite bool_decide_true by done|rewrite bool_decide_false by done; cbn [andb]; apply Hdrop; intros cy' [= <-]; unfold waits_for; congruence].
  destruct (mi_stage _ Hi cy) as (Hfr & Hidx & Hle & Hsum); [congruence|]. rewrite Hin, decide_True in Hsum by done.
  cbn [andb]. destruct (Nat.ltb_spec (length (om_sent m)) (length (cy_tags cy))) as [Hlt|Hge]; [|rewrite E4 in Hge; lia].
  destruct Hd as [H1 H2 H3 H4 H5]. split.
  - constructor; [done..|]. cbn [with_cycle om_cycle om_stages om_sent om_urls]. intros cy' [= <-]. rewrite (fr_urls _ _ Hf), E3, E4. split_and!; [done..|].
    change (tasks (with_cycle ?a ?b ?c ?d m)) with (tasks m). rewrite length_app. cbn [length]. lia.
  - intros Hcv _ _ cy'. cbn [with_cycle om_cycle om_sent]. intros [= <-]. rewrite (Hcv cy) by congruence. rewrite Hin, decide_True by done.
    change (tasks (with_cycle ?a ?b ?c ?d m)) with (tasks m). rewrite length_app, E4. cbn [length]. lia.
Qed.
Lemma applyResult_keeps oc m : same_core m (applyResult oc m) /\ caps (applyResult oc m) = caps m /\ tasks (applyResult oc m) = tasks m.
Proof. unfold applyResult. destruct (om_done m) eqn:E; [done|]. destruct (om_outbounds m !! oc_outboundTag oc); done. Qed.
Lemma tester_keeps env t m r : tester env t m = Ok r -> same_core m (snd r) /\ caps (snd r) = caps m /\ tasks (snd r) = tasks m.
Proof.
  unfold tester. destruct (om_outbounds m !! t) as [out|]; [|by intros [= <-]]. destruct (om_urls m !! om_currentLinkIndex m) as [url|]; [|done].
  destruct (te_URLTest env url) as [delay err]. destruct (_ || _); [by intros [= <-]|]. destruct (te_ctx env); [by intros [= <-]|].
  destruct (_ && _); [|by intros [= <-]]. by destruct (te_GetIpInfo env) as [[[err'|] ip] t']; intros [= <-].
Qed.
Lemma tester_total env t m : (om_currentLinkIndex m < length (om_urls m))%nat -> exists r, tester env t m = Ok r.
Proof.
  intros Hl. apply lookup_lt_is_Some_2 in Hl as [url Hu]. unfold tester. destruct (om_outbounds m !! t); [|by eexists]. rewrite Hu. destruct (te_URLTest env url).
  destruct (_ || _); [by eexists|]. destruct (te_ctx env); [by eexists|]. destruct (_ && _); [|by eexists]. destruct (te_GetIpInfo env) as [[[] ?] ?]; by eexists.
Qed.
Lemma finishTask_ok l env task m0 m : monitor_inv m0 -> same_core m0 m -> frame m0 m -> caps m -> tasks m0 ≡ₚ task :: tasks m ->
  exists m', finishTask env task m = Ok m' /\ step_ok l m0 m'.
Proof.
  intros Hi Hs Hf Hc Hp. unfold finishTask. destruct (tester_total env (ta_outboundTag task) m) as [[[hi err] m1] E].
  { rewrite (sc_link _ _ Hs), (fr_urls _ _ Hf). apply Hi. }
  rewrite E. cbn [mbind result_bind]. eexists. split; [done|]. set (oc := mkOutcome _ _ _ _ _). eapply step_ok_adds; [|apply adds_state].
  destruct (tester_keeps _ _ _ _ E) as (S1 & C1 & T1). cbn [snd] in S1, C1, T1. destruct (applyResult_keeps oc m1) as (S2 & C2 & T2).
  apply send_result_ok; [done| | | |].
  - destruct Hs, S1, S2. constructor; congruence.
  - etransitivity; [exact Hf|]. etransitivity; [apply (tester_frame _ _ _ _ E)|]. apply applyResult_frame.
  - by rewrite C2, C1.
  - by rewrite T2, T1.
Qed.
Lemma tasks_delete_waiting m i task : om_waiting m !! i = Some task -> tasks m ≡ₚ task :: tasks (with_work (delete i (om_waiting m)) (om_executing m) m).
Proof.
  intros E. apply delete_Permutation in E. unfold tasks. cbn [with_work om_priorityQueue om_normalQueue om_waiting om_executing]. rewrite E at 1.
  change (task :: delete i (om_waiting m)) with ([task] ++ delete i (om_waiting m)). rewrite <- app_assoc, (Permutation_app_swap_app (om_normalQueue m) [task]). apply Permutation_app_swap_app.
Qed.
Lemma tasks_delete_executing m i task : om_executing m !! i = Some task -> tasks m ≡ₚ task :: tasks (with_work (om_waiting m) (delete i (om_executing m)) m).
Proof.
  intros E. apply delete_Permutation in E. unfold tasks. cbn [with_work om_priorityQueue om_normalQueue om_waiting om_executing]. rewrite E at 1.
  change (task :: delete i (om_executing m)) with ([task] ++ delete i (om_executing m)).
  rewrite (Permutation_app_swap_app (om_waiting m) [task]), (Permutation_app_swap_app (om_normalQueue m) [task]). apply Permutation_app_swap_app.
Qed.
Lemma retryTask_ok m i task : monitor_inv m -> om_waiting m !! i = Some task ->
  step_ok (LRetry i) m (snd (retryTask task (with_work (delete i (om_waiting m)) (om_executing m) m))).
Proof.
  intros Hi Hw. pose proof (tasks_delete_waiting m i task Hw) as Hp. set (m1 := with_work (delete i (om_waiting m)) (om_executing m) m) in *.
  assert (same_core m m1) as Hs by done. assert (frame m m1) as Hf by (by apply frame_same). assert (caps m1) as Hc by apply Hi.
  assert (retry_refused (LRetry i) m <-> is_Some (ta_resultCh task) /\ fst (retryTask task m1) = false) as Hr.
  { split; [intros (j & t & ch & [= <-] & Ht & Hch & H)|intros [[ch Hch] H]; by exists i, task, ch]. rewrite Hw in Ht. injection Ht as <-. split; [by exists ch|done]. }
  pose proof (drop_task_inv m m1 task Hi Hs Hf Hc Hp) as Hd. unfold retryTask in *. destruct (om_done m1) eqn:Ed.
  { split; [done|]. intros _ E. cbn in E. change (om_done m1 = false) in E. congruence. }
  set (task' := mkTask _ _ _ _) in *. pose proof (enqueueTask_adds task' m1) as Ha. destruct (enqueueTask task' m1) as [ok m2]. cbn [fst snd] in *.
  destruct Ha as (([S1 S2 S3 S4 S5] & F & C & _) & Hp2 & Hok). destruct ok.
  - assert (tasks m2 ≡ₚ task' :: tasks m1) as Hp3 by exact Hp2. clear Hp2. destruct Hi as [I1 I2 I3 I4 I5].
    assert (forall ch, inflight ch (tasks m2) = inflight ch (tasks m)) as Hin.
    { intros ch. rewrite (inflight_perm ch _ _ Hp3), (inflight_perm ch _ _ Hp), !inflight_cons. done. }
    split; [constructor|].
    + rewrite S1, (fr_urls _ _ F). apply I1.
    + by apply C.
    + rewrite Hp3. apply Forall_cons. split; [by apply (fr_dom _ _ F), Hok|]. eapply tags_frame; [exact F|]. rewrite Hp in I3. by apply Forall_cons in I3 as [_ ?].
    + intros t ch Hin' Hch. rewrite S3. rewrite Hp3 in Hin'. apply elem_of_cons in Hin' as [->|Hin']; [apply (I4 task ch); [rewrite Hp; set_solver|done]|apply (I4 t ch); [rewrite Hp; set_solver|done]].
    + intros cy. rewrite S2, S3, S4, (fr_urls _ _ F), Hin. apply I5.
    + intros Hcv _ _ cy. rewrite S2, S4, Hin. apply Hcv.
  - split.
    + eapply drop_task_inv; [exact Hi|by constructor|by etransitivity|by apply C|]. rewrite Hp. by rewrite Hp2.
    + intros Hcv _ Hnr cy. rewrite S2, S4. intros Hcy. rewrite (Hcv cy Hcy). rewrite (inflight_perm _ _ _ Hp2), (inflight_perm _ _ _ Hp), inflight_cons.
      rewrite decide_False; [done|]. intros Hwf. apply Hnr, Hr. split; [|done]. by eexists.
Qed.
Lemma runStage_enqueue_ok m cy t todo : monitor_inv m -> om_cycle m = Some cy -> cy_todo cy = t :: todo -> step_ok LEnqueue m (runStage_enqueue cy t todo m).
Proof.
  intros [I1 I2 I3 I4 I5] Ec Et. destruct (I5 cy Ec) as (Hfr & Hidx & Hle & Hsum). rewrite Et in Hle. cbn [length] in Hle. unfold runStage_enqueue.
  pose proof (enqueueTask_adds (mkTask t (cy_ID cy) false (Some (cy_ch cy))) m) as Ha. destruct (enqueueTask _ m) as [ok m1].
  destruct Ha as (([S1 S2 S3 S4 S5] & F & C & _) & Hp & Hok). set (m2 := with_cycle _ _ _ _ m1). assert (tasks m2 = tasks m1) as Et2 by done.
  assert (inflight (cy_ch cy) (tasks m2) = ((if ok then 1 else 0) + inflight (cy_ch cy) (tasks m))%nat) as Hin.
  { rewrite Et2, (inflight_perm _ _ _ Hp), inflight_app. f_equal. destruct ok; [|done]. by rewrite inflight_cons, decide_True by done. }
  split; [constructor|].
  - cbn. rewrite S1, (fr_urls _ _ F). apply I1.
  - by apply C.
  - rewrite Et2, Hp. apply Forall_app. split; [|by apply (tags_frame m m1)]. destruct ok; [|done]. apply Forall_singleton. by apply (fr_dom _ _ F), Hok.
  - intros t' ch. rewrite Et2. cbn [om_stages m2 with_cycle]. rewrite S3. intros Hi Hch. rewrite Hp in Hi. apply elem_of_app in Hi as [Hi|Hi]; [|by apply (I4 t')].
    destruct ok; [|by apply not_elem_of_nil in Hi]. apply list_elem_of_singleton in Hi as ->. injection Hch as <-. done.
  - cbn [m2 with_cycle om_cycle om_stages om_sent om_urls]. intros cy' [= <-]. cbn [set_stage cy_ch cy_idx cy_expected cy_todo cy_tags]. rewrite S3, S4, (fr_urls _ _ F).
    change (tasks (with_cycle ?a ?b ?c ?d m1)) with (tasks m2). rewrite Hin. split_and!; [done|done|destruct ok; lia|destruct ok; lia].
  - intros Hcv _ _ cy' Hcy. assert (cy' = set_stage cy todo (if ok then S (cy_expected cy) else cy_expected cy) (cy_results cy)) as -> by (cbn in Hcy; congruence).
    cbn [set_stage cy_ch cy_expected]. rewrite Hin. assert (om_sent m2 = om_sent m) as -> by exact S4. specialize (Hcv cy Ec). destruct ok; lia.
Qed.
Lemma new_stage_inv cy idx m : monitor_inv m -> (idx < length (om_urls m))%nat -> monitor_inv (new_stage cy idx m) /\ conserved (new_stage cy idx m).
Proof.
  intros [I1 I2 I3 I4 I5] Hidx. assert (inflight (om_stages m) (tasks (new_stage cy idx m)) = 0%nat) as Hin.
  { change (tasks (new_stage cy idx m)) with (tasks m). unfold inflight. destruct (filter (waits_for (om_stages m)) (tasks m)) as [|t l] eqn:E; [done|].
    assert (t ∈ filter (waits_for (om_stages m)) (tasks m)) as Ht by (rewrite E; set_solver). apply list_elem_of_filter in Ht as [Hw Ht]. specialize (I4 t _ Ht Hw). lia. }
  assert (om_sent (new_stage cy idx m) = []) as Es by done.
  assert (forall cy', om_cycle (new_stage cy idx m) = Some cy' -> cy' = mkCycle (cy_ID cy) (cy_tags cy) idx (om_stages m) (cy_tags cy) 0 []) as Ec by (intros cy'; cbn; congruence).
  split; [constructor; [done..| |]|].
  - intros t ch Ht Hch. cbn. specialize (I4 t ch Ht Hch). lia.
  - intros cy' ->%Ec. cbn [cy_ch cy_idx cy_expected cy_todo cy_tags]. rewrite Hin, Es. cbn. split_and!; [lia|done|lia|lia].
  - intros cy' ->%Ec. cbn [cy_ch cy_expected]. by rewrite Hin, Es.
Qed.
Lemma monitor_step_ok l m : monitor_inv m -> match monitor_step l m with Ok m' => step_ok l m m' | Err _ => True | Panic _ => False end.
Proof.
  intros Hi. destruct l as [now order| | | |ready|ready|i|i env|fuel order t|t|t h|]; cbn [monitor_step].
  - unfold startCycleOnce. destruct (om_cycle m) eqn:Ec; [by apply moves_ok; [done..|apply Hi|]|]. cbn [snd].
    set (m1 := with_cycle _ None _ _ m). assert (monitor_inv m1) as H1 by (destruct Hi; by constructor).
    case_bool_decide; [by split|]. destruct (new_stage_inv (mkCycle ((om_cycleSeq m + 1) mod 2 ^ 64)%N (collectCycleTargets now order m) 0 0 [] 0 []) 0 m1 H1) as [? ?]; [|by split].
    pose proof (mi_link _ Hi). cbn. lia.
  - destruct (om_cycle m) as [cy|] eqn:Ec; [|done]. destruct (cy_todo cy) as [|t todo] eqn:Et; [done|]. by apply runStage_enqueue_ok.
  - destruct (om_cycle m) as [cy|] eqn:Ec; [|done]. destruct (om_sent m) as [|[ch oc] sent] eqn:Es; [done|]. case_bool_decide as Hb; [|done]. destruct Hb as [Et He].
    set (m1 := with_cycle _ _ _ _ m). assert (tasks m1 = tasks m) as Etm by done. assert (om_sent m1 = sent) as Es1 by done.
    assert (forall cy', om_cycle m1 = Some cy' -> cy' = set_stage cy [] (pred (cy_expected cy)) (cy_results cy ++ [oc])) as Ec1 by (intros cy'; cbn; congruence).
    destruct Hi as [I1 I2 I3 I4 I5]. destruct (I5 cy Ec) as (Hfr & Hidx & Hle & Hsum). rewrite Es in Hsum. cbn [length] in Hsum. split; [constructor; [done..|]|].
    + intros cy' ->%Ec1. cbn [set_stage cy_ch cy_idx cy_expected cy_todo cy_tags length]. rewrite Etm, Es1. split_and!; [done|done|lia|lia].
    + intros Hcv _ _ cy' ->%Ec1. cbn [set_stage cy_ch cy_expected]. rewrite Etm, Es1. specialize (Hcv cy Ec). rewrite Es in Hcv. cbn [length] in Hcv. lia.
  - destruct (om_cycle m) as [cy|] eqn:Ec; [|done]. case_bool_decide; [|done]. destruct (mi_stage _ Hi cy Ec) as (_ & Hidx & _). unfold runCycle_next.
    destruct (0 <? _)%nat; cbn [orb]; [|destruct (Nat.eqb_spec (S (cy_idx cy)) (length (om_urls m)))].
    + destruct (om_cacheDirty _); (split; [destruct Hi; by constructor|by intros _ _ _ cy']).
    + destruct (om_cacheDirty _); (split; [destruct Hi; by constructor|by intros _ _ _ cy']).
    + set (m1 := with_link _ m). assert (monitor_inv m1) as H1 by (destruct Hi; constructor; [apply (Nat.mod_upper_bound _ (length (om_urls m))); lia|done..]).
      destruct (new_stage_inv cy (S (cy_idx cy)) m1 H1) as [? ?]; [cbn; lia|by split].
  - destruct (om_priorityQueue m) as [|task q] eqn:E; [done|]. apply (executeTask_ok _ _ _ m); [done|done|by apply frame_same| |].
    + pose proof (mi_caps _ Hi) as [H1 H2]. rewrite E in H1. cbn in H1. split; cbn; [lia|done].
    + unfold tasks. rewrite E. done.
  - destruct (om_normalQueue m) as [|task q] eqn:E; [done|]. apply (executeTask_ok _ _ _ m); [done|done|by apply frame_same| |].
    + pose proof (mi_caps _ Hi) as [H1 H2]. rewrite E in H2. cbn in H2. split; cbn; [done|lia].
    + unfold tasks. rewrite E. cbn [with_queues om_priorityQueue om_normalQueue om_waiting om_executing]. symmetry. apply (Permutation_middle (om_priorityQueue m)).
  - destruct (om_waiting m !! i) as [task|] eqn:E; [|done]. by apply retryTask_ok.
  - destruct (om_executing m !! i) as [task|] eqn:E; [|done].
    destruct (finishTask_ok (LFinish i env) env task m (with_work (om_waiting m) (delete i (om_executing m)) m)) as (m' & -> & ?); [done|done|by apply frame_same|apply Hi|by apply tasks_delete_executing|done].
  - unfold TestNow. destruct (testParents fuel order t true m) as [m1|] eqn:E1; [|done]. cbn [mbind option_bind]. destruct (testNow fuel order t true m1) as [[e m2]|] eqn:E2; [|done].
    apply adds_ok; [done|]. eapply adds_trans; [by eapply testParents_adds|]. by apply (testNow_adds _ _ _ _ _ _ E2).
  - unfold InvalidateTest. destruct (om_outbounds m !! t); cbn [snd]; [|by apply adds_ok; [|apply adds_refl]]. apply adds_ok; [done|]. eapply adds_trans; [apply adds_state|by apply enqueueTask_unasked].
  - apply adds_ok; [done|]. unfold store_other. destruct (om_history m !! t) as [[old|]|]; [|apply adds_state|];
      (split_and!; [done|by apply frame_same|done|by exists []]).
  - split; [destruct Hi; by constructor|done].
Qed.

(** No retry of a test that a stage waits for was refused. *)
Fixpoint none_refused (ls : list monitor_label) (m : OutboundMonitoring) : Prop :=
  match ls with
  | [] => True
  | l :: ls => ~ retry_refused l m /\ match monitor_step l m with Ok m => none_refused ls m | _ => True end
  end.
Lemma monitor_run_ok ls : forall m, monitor_inv m ->
  match monitor_run ls m with
  | Ok m' => monitor_inv m' /\ (om_done m = true -> om_done m' = true) /\ (conserved m -> none_refused ls m -> om_done m' = false -> conserved m')
  | Err _ => True
  | Panic _ => False
  end.
Proof.
  induction ls as [|l ls IH]; intros m Hi; [done|]. cbn [monitor_run none_refused]. pose proof (monitor_step_ok l m Hi) as Hs. pose proof (monitor_step_frame l m) as Hf.
  destruct (monitor_step l m) as [m1|e|p]; [|done|done]. cbn [mbind result_bind]. destruct Hs as [H1 Hc1]. specialize (IH m1 H1). specialize (Hf m1 eq_refl).
  destruct (monitor_run ls m1) as [m2|e|p]; [|done|done]. destruct IH as (H2 & Hd2 & Hc2). split_and!; [done| |].
  - intros Hd. by apply Hd2, (fr_done _ _ Hf).
  - intros Hcv [Hr Hrs] Hd. apply Hc2; [|done|done]. apply Hc1; [done| |done]. destruct (om_done m1); [|done]. by rewrite Hd2 in Hd.
Qed.
(** What [Start] leaves as [NewOutboundMonitoring] made it. *)
Definition at_rest (m : OutboundMonitoring) : Prop := (om_currentLinkIndex m < length (om_urls m))%nat /\ tasks m = [] /\ om_cycle m = None.
Lemma join_members_rest g tags : forall m m', at_rest m -> join_members g tags m = Ok m' -> at_rest m'.
Proof. induction tags as [|t tags IH]; intros m m' H; [by intros [= <-]|]. cbn [join_members]. destruct (om_outbounds m !! t); [|done]. by apply IH. Qed.
Lemma make_groups_rest outbounds : forall m m', at_rest m -> make_groups outbounds m = Ok m' -> at_rest m'.
Proof.
  induction outbounds as [|[[t deps] [all|]] outbounds IH]; intros m m' H; [by intros [= <-]| |by apply IH]. cbn [make_groups].
  destruct (join_members t all (makeGroup t m)) as [m1|e|p] eqn:E; [|done|done]. cbn [mbind result_bind]. apply IH. by eapply join_members_rest; [|exact E].
Qed.
Lemma started_inv interval urls outbounds endpoints order m : Start_initialize outbounds endpoints order (NewOutboundMonitoring interval urls) = Ok m -> monitor_inv m /\ om_cycle m = None.
Proof.
  unfold Start_initialize. destruct (register_inverses order _) as [states|e|p]; [|done|done]. cbn [mbind result_bind]. set (m1 := foldl _ _ order). assert (at_rest m1) as H1.
  { unfold m1. assert (at_rest (makeGroup "" (with_outbounds (fun _ => states) (NewOutboundMonitoring interval urls)))) as H by (split_and!; [cbn; case_bool_decide; [cbn; lia|destruct urls; [done|cbn; lia]]|done|done]).
    revert H. generalize (makeGroup "" (with_outbounds (fun _ => states) (NewOutboundMonitoring interval urls))). induction order as [|t l IH]; intros m2 H; [done|]. by apply IH. }
  destruct (make_groups outbounds m1) as [m2|e|p] eqn:E; [|done|done]. cbn [mbind result_bind]. intros [= <-]. apply make_groups_rest in E as (L & T & C); [|done].
  assert (at_rest (loadHistory m2)) as (L' & T' & C') by (unfold loadHistory; by destruct (om_saved m2)). split; [|done].
  pose proof T' as T2. unfold tasks in T2. apply app_eq_nil in T2 as [P1 T2]. apply app_eq_nil in T2 as [P2 _]. constructor; [done| |by rewrite T'| |].
  - unfold caps. rewrite P1, P2. cbn. lia.
  - intros t ch. rewrite T'. by intros ?%not_elem_of_nil.
  - intros cy. by rewrite C'.
Qed.

(** C34: the monitoring works in any order of its goroutines and of the calls from outside: it never asks for a link that is not there, its queues keep their sizes, and a stage of a
    cycle never gets more results than it waits for.  While the monitoring is not closed, the stage gets all of them, for each result that is missing has a task that is queued, waits for
    its outbound to be ready or is carried out, unless the queue refused such a task when it was tried again. *)
Theorem monitoring_conserves interval urls outbounds endpoints order m0 ls : Start_initialize outbounds endpoints order (NewOutboundMonitoring interval urls) = Ok m0 ->
  match monitor_run ls m0 with
  | Ok m =>
      (om_currentLinkIndex m < length (om_urls m))%nat /\ (length (om_priorityQueue m) <= cap_priority)%nat /\ (length (om_normalQueue m) <= cap_normal)%nat /\
      (forall cy, om_cycle m = Some cy -> (length (om_sent m) + inflight (cy_ch cy) (tasks m) <= cy_expected cy <= length (cy_tags cy))%nat) /\
      (none_refused ls m0 -> om_done m = false ->
        forall cy, om_cycle m = Some cy -> cy_expected cy = (length (om_sent m) + inflight (cy_ch cy) (tasks m))%nat)
  | Err _ => True
  | Panic _ => False
  end.
Proof.
  intros Hs. destruct (started_inv _ _ _ _ _ _ Hs) as [Hi H0]. pose proof (monitor_run_ok ls m0 Hi) as H. destruct (monitor_run ls m0) as [m|e|p]; [|done|done]. destruct H as ([I1 I2 I3 I4 I5] & _ & Hc). split_and!.
  - done.
  - apply I2.
  - apply I2.
  - intros cy Hcy. destruct (I5 cy Hcy) as (_ & _ & ? & ?). lia.
  - intros Hr Hd cy Hcy. apply Hc; [|done|done|done]. intros cy'. by rewrite H0.
Qed.

(** ** The delay of a group *)

Definition report (h : History) : N * bool := (hi_Delay h, hi_IsFromCache h).
Definition omin (a b : option N) : option N := match a, b with Some x, Some y => Some (N.min x y) | Some x, None => Some x | None, b => b end.
Definition least (l : list N) : option N := foldr (fun d => omin (Some d)) None l.
(** The delays of the members that are known: tested, or of the cache. *)
Definition known (from_cache : bool) (r : option (N * bool)) : option N :=
  match r with Some (d, c) => if (d =? 0)%N || negb (Bool.eqb c from_cache) then None else Some d | None => None end.
(** The least delay of those tested, if one has answered; else the least that is remembered. *)
Definition best_of (reports : list (option (N * bool))) : option (N * bool) :=
  let cached := (fun d => (d, true)) <$> least (omap (known true) reports) in
  match least (omap (known false) reports) with
  | Some d => if (MonitorTimeoutDelay <=? d)%N then cached else Some (d, false)
  | None => cached
  end.
(** [getUrlTest] without an order: a member of a group counts by what is reported of it. *)
Fixpoint reported (fuel : nat) (now : string -> string) (m : OutboundMonitoring) (tag : string) : option (N * bool) :=
  match fuel with
  | O => None
  | S f =>
      match om_outbounds m !! tag, om_groups m !! tag with
      | None, _ => None
      | Some st, None => Some (hi_Delay (os_history st), os_from_cache st)
      | Some _, Some members =>
          if str_empty (now tag) || bool_decide (now tag = tag) then best_of (map (reported f now m) (elements members)) else reported f now m (now tag)
      end
  end.

Lemma omin_comm_assoc a b c : omin a (omin b c) = omin b (omin a c).
Proof. destruct a, b, c; cbn; f_equal; lia. Qed.
Lemma omin_assoc a b c : omin a (omin b c) = omin (omin a b) c.
Proof. destruct a, b, c; cbn; f_equal; lia. Qed.
Lemma least_perm l l' : l ≡ₚ l' -> least l = least l'.
Proof. induction 1 as [|x l l' H IH|x y l|l1 l2 l3 H1 IH1 H2 IH2]; [done|change (omin (Some x) (least l) = omin (Some x) (least l')); by rewrite IH|apply (omin_comm_assoc (Some y) (Some x))|congruence]. Qed.
Lemma best_of_perm l l' : l ≡ₚ l' -> best_of l = best_of l'.
Proof. intros H. unfold best_of. by rewrite (least_perm _ _ (omap_Permutation (known true) _ _ H)), (least_perm _ _ (omap_Permutation (known false) _ _ H)). Qed.

Lemma better_report h best c d : hi_IsFromCache h = c -> report <$> best = (fun d => (d, c)) <$> d -> report <$> better h best = (fun d => (d, c)) <$> omin d (Some (hi_Delay h)).
Proof.
  intros Hc Hb. destruct best as [b|], d as [d|]; try done; cbn in Hb |- *.
  - injection Hb as <- Hcb. destruct (N.ltb_spec (hi_Delay h) (hi_Delay b)); [|case_bool_decide]; unfold report; cbn; do 3 f_equal; try done; lia.
  - unfold report. by rewrite Hc.
Qed.
Lemma least_step_report his a b da db : report <$> a = (fun d => (d, false)) <$> da -> report <$> b = (fun d => (d, true)) <$> db ->
  let '(a', b') := least_step his (a, b) in
  report <$> a' = (fun d => (d, false)) <$> omin da (known false (report <$> his)) /\ report <$> b' = (fun d => (d, true)) <$> omin db (known true (report <$> his)).
Proof.
  intros Ha Hb. assert (forall o, omin o None = o) as Hn by (by intros []). destruct his as [h|]; cbn [least_step fmap option_fmap option_map known report]; [|by rewrite !Hn].
  destruct (hi_Delay h =? 0)%N; cbn [orb]; [by rewrite !Hn|]. destruct (hi_IsFromCache h) eqn:Ec; cbn [Bool.eqb negb fst snd]; rewrite Hn.
  - split; [done|by apply better_report].
  - split; [by apply better_report|done].
Qed.
Lemma min_history_best hs : report <$> min_history hs = best_of (map (fmap report) hs).
Proof.
  assert (forall a b da db, report <$> a = (fun d => (d, false)) <$> da -> report <$> b = (fun d => (d, true)) <$> db ->
    let '(a', b') := foldl (fun best his => least_step his best) (a, b) hs in
    report <$> a' = (fun d => (d, false)) <$> omin da (least (omap (known false) (map (fmap report) hs))) /\
    report <$> b' = (fun d => (d, true)) <$> omin db (least (omap (known true) (map (fmap report) hs)))) as H.
  { induction hs as [|his hs IH]; intros a b da db Ha Hb; [cbn; split; [by destruct da|by destruct db]|]. cbn [foldl map]. pose proof (least_step_report his a b da db Ha Hb) as Hs.
    destruct (least_step his (a, b)) as [a1 b1]. destruct Hs as [H1 H2]. specialize (IH _ _ _ _ H1 H2). destruct (foldl _ (a1, b1) hs) as [a2 b2].
    assert (forall c, least (omap (known c) ((report <$> his) :: map (fmap report) hs)) = omin (known c (report <$> his)) (least (omap (known c) (map (fmap report) hs)))) as Hl.
    { intros c. cbn [omap list_omap]. by destruct (known c (report <$> his)). }
    by rewrite !Hl, !omin_assoc. }
  specialize (H None None None None eq_refl eq_refl). unfold min_history, best_of. destruct (foldl _ _ hs) as [a b]. destruct H as [Ha Hb]. cbn [omin] in Ha, Hb.
  destruct (least (omap (known false) _)) as [d|], a as [h|]; try done; cbn in Ha. unfold report in Ha at 1. injection Ha as Ed Ec. rewrite <- Ed.
  destruct (_ <=? _)%N; [exact Hb|]. rewrite <- Ec. destruct b as [c|]; [case_bool_decide|]; done.
Qed.

Section Ranked.
Variables (now : string -> string) (m : OutboundMonitoring) (rank : string -> nat).
(** Groups do not contain or select themselves, over any number of groups. *)
Hypothesis selected_below : forall g, is_Some (om_groups m !! g) -> now g <> "" -> now g <> g -> (rank (now g) < rank g)%nat.
Hypothesis members_below : forall g members t, om_groups m !! g = Some members -> now g = "" \/ now g = g -> t ∈ members -> (rank t < rank g)%nat.
(** The order in which the members are visited. *)
Variable order : string -> list string.
Hypothesis order_members : forall g members, om_groups m !! g = Some members -> order g ≡ₚ elements members.

(** C35: the delay reported of an outbound or of a group does not depend on the order in which the map of its members is visited: it is that of the reference.  [getUrlTest]
    ends, when groups are nested without circles. *)
Theorem getUrlTest_reported fuel : forall tag, (rank tag < fuel)%nat -> exists r, getUrlTest fuel now order m tag = Some r /\ report <$> r = reported fuel now m tag.
Proof.
  induction fuel as [|f IH]; intros tag Hr; [lia|]. cbn [getUrlTest reported]. destruct (om_outbounds m !! tag) as [st|]; [|by eexists].
  destruct (om_groups m !! tag) as [members|] eqn:Eg; [|by eexists].
  destruct (decide (now tag = "" \/ now tag = tag)) as [Hs|Hs].
  - assert (str_empty (now tag) || bool_decide (now tag = tag) = true) as Eb by (unfold str_empty; destruct Hs as [E|E]; [by rewrite (bool_decide_true (now tag = ""))|by rewrite (bool_decide_true (now tag = tag)), orb_true_r]).
    assert (bool_decide ((if str_empty (now tag) then tag else now tag) <> tag) = false) as ->.
    { apply bool_decide_eq_false. unfold str_empty. destruct (bool_decide (now tag = "")) eqn:En; [intros Hn; by apply Hn|]. apply bool_decide_eq_false in En. destruct Hs; [done|]. intros Hn; by apply Hn. }
    rewrite andb_false_r, Eb.
    assert (forall l, (forall t, t ∈ l -> (rank t < f)%nat) -> exists hs, mapM (getUrlTest f now order m) l = Some hs /\ map (fmap report) hs = map (reported f now m) l) as Hm.
    { induction l as [|t l IHl]; intros Hl; [by exists []|]. destruct (IH t) as (r & E & Er); [apply Hl; set_solver|]. destruct IHl as (hs & Ehs & Hhs); [intros u Hu; apply Hl; set_solver|].
      exists (r :: hs). cbn. rewrite E. cbn. rewrite Ehs. cbn. by rewrite Er, Hhs. }
    destruct (Hm (order tag)) as (hs & Ehs & Hhs).
    { intros t Ht. rewrite (order_members _ _ Eg) in Ht. apply elem_of_elements in Ht. pose proof (members_below tag members t Eg Hs Ht). lia. }
    rewrite Ehs. eexists. split; [done|]. rewrite min_history_best, Hhs. apply best_of_perm. by rewrite (order_members _ _ Eg).
  - assert (now tag <> "" /\ now tag <> tag) as [H1 H2] by tauto. unfold str_empty. rewrite (bool_decide_false (now tag = "")), (bool_decide_false (now tag = tag)) by done. cbn [orb].
    rewrite (bool_decide_false (now tag = "")) by done. rewrite bool_decide_true by done. cbn [negb andb]. apply IH. pose proof (selected_below tag ltac:(by eexists) H1 H2). lia.
Qed.
End Ranked.

(** ** Concrete monitors *)

Definition sample_outbounds : list (string * list string * option (list string)) := [("slow", [], None); ("fast", [], None); ("auto", ["slow"; "fast"], Some ["slow"; "fast"])].
Definition sample_order : list string := ["slow"; "fast"; "auto"].
Definition sample_monitor : OutboundMonitoring :=
  match Start_initialize sample_outbounds [] sample_order (NewOutboundMonitoring 0 []) with Ok m => m | _ => NewOutboundMonitoring 0 [] end.
Definition sample_env (delay : N) : test_env := mkTestEnv 1000 (fun _ => (delay, None)) None (Some (ENew "no provider"), mkIpInfo "" "" "" "" 0 "" 0 0 "", 0%N).
Definition monitor_after (ls : list monitor_label) (m : OutboundMonitoring) : OutboundMonitoring := match monitor_run ls m with Ok m => m | _ => m end.
Definition sample_cycle : list monitor_label :=
  [LStartCycle 0 sample_order; LEnqueue; LEnqueue; LTakeNormal true; LTakeNormal true; LFinish 1 (sample_env 40); LReceive; LFinish 0 (sample_env 120); LReceive; LEndStage].
(** A cycle tests both outbounds, and stores the delays. *)
Example sample_cycle_ends :
  let m := monitor_after sample_cycle sample_monitor in
  (om_cycle m, map (state_delay m) sample_order, match om_saved m with Some saved => map (fun t => from_option hi_Delay 0%N (saved !! t)) sample_order | None => [] end)
  = (None, [120; 40; 0]%N, [120; 40; 0]%N).
Proof. vm_compute. reflexivity. Qed.
Lemma monitoring_conserves_witness :
  match monitor_run sample_cycle sample_monitor with
  | Ok m =>
      (om_currentLinkIndex m < length (om_urls m))%nat /\ (length (om_priorityQueue m) <= cap_priority)%nat /\ (length (om_normalQueue m) <= cap_normal)%nat /\
      (forall cy, om_cycle m = Some cy -> (length (om_sent m) + inflight (cy_ch cy) (tasks m) <= cy_expected cy <= length (cy_tags cy))%nat) /\
      (none_refused sample_cycle sample_monitor -> om_done m = false ->
        forall cy, om_cycle m = Some cy -> cy_expected cy = (length (om_sent m) + inflight (cy_ch cy) (tasks m))%nat)
  | Err _ => True
  | Panic _ => False
  end.
Proof. exact (monitoring_conserves 0 [] sample_outbounds [] sample_order sample_monitor sample_cycle ltac:(vm_compute; reflexivity)). Defined.

(** The test of [slow], asked for with priority before it is ready. *)
Definition sample_waiting : OutboundMonitoring := monitor_after [LInvalidateTest "slow"; LTakePriority false] sample_monitor.
Definition sample_task : testTask := mkTask "slow" 0 true None.
Definition sample_rest : list monitor_label := [LStartCycle 0 sample_order; LInvalidateTest "slow"; LEnqueue; LTakeNormal true; LFinish 0 (sample_env 40); LReceive; LEndStage].
Lemma priority_retry_stuck_witness :
  om_cycle (monitor_after (LRetry 0 :: sample_rest) sample_waiting) = None /\
  (forall now order, "slow" ∉ collectCycleTargets now order (monitor_after (LRetry 0 :: sample_rest) sample_waiting)).
Proof.
  split; [vm_compute; reflexivity|].
  refine (proj1 (proj2 (priority_retry_stuck sample_waiting 0 sample_task (set_flags false true 0 (set_groupTags ["" ; "auto"] (set_inverse ["auto"] (new_outboundState [])))) sample_rest
    (monitor_after (LRetry 0 :: sample_rest) sample_waiting) _ _ _ _ _ _ _ _ _ _))); try (vm_compute; reflexivity).
  - vm_compute. constructor.
  - intros cy E. vm_compute in E. discriminate E.
  - repeat constructor.
Defined.

Definition sample_now (g : string) : string := "".
Definition sample_rank (t : string) : nat := if bool_decide (t = "") then 2 else if bool_decide (t = "auto") then 1 else 0.
Definition sample_members (m : OutboundMonitoring) (g : string) : list string := rev (elements (default ∅ (om_groups m !! g))).
(** The group [auto] reports the delay of [fast]. *)
Lemma getUrlTest_reported_witness : let m := monitor_after sample_cycle sample_monitor in
  exists r, getUrlTest 3 sample_now (sample_members m) m "auto" = Some r /\ report <$> r = Some (40%N, false).
Proof.
  cbv zeta. set (m := monitor_after sample_cycle sample_monitor). assert (om_groups m = {["" := list_to_set sample_order; "auto" := {["slow"; "fast"]}]}) as Eg by (vm_compute; reflexivity).
  replace (Some (40%N, false)) with (reported 3 sample_now m "auto") by (vm_compute; reflexivity).
  refine (getUrlTest_reported sample_now m sample_rank _ _ (sample_members m) _ 3 "auto" _).
  - intros g _ Hn. by destruct Hn.
  - clearbody m. intros g members t E _ Ht. rewrite Eg in E. apply lookup_insert_Some in E as [[<- <-]|[_ E]].
    + clear -Ht. apply elem_of_list_to_set in Ht. unfold sample_order in Ht. rewrite !elem_of_cons in Ht. destruct Ht as [->|[->|[->|Ht]]]; [vm_compute; lia..|by apply not_elem_of_nil in Ht].
    + apply lookup_singleton_Some in E as [<- <-]. clear -Ht. apply elem_of_union in Ht as [->%elem_of_singleton| ->%elem_of_singleton]; vm_compute; lia.
  - clearbody m. intros g members E. unfold sample_members. rewrite E. cbn [default]. symmetry. apply Permutation_rev.
  - vm_compute. lia.
Defined.

(** ** The targets of a cycle *)

Lemma insert_by_sorted {A} (key : A -> N) x l : StronglySorted (fun a b => (key a <= key b)%N) l -> StronglySorted (fun a b => (key a <= key b)%N) (insert_by key x l).
Proof.
  induction 1 as [|y l Hl IH Hy]; [by repeat constructor|]. cbn [insert_by]. destruct (N.leb_spec (key x) (key y)) as [Hle|Hgt].
  - constructor; [by constructor|]. constructor; [done|]. eapply Forall_impl; [exact Hy|]. intros z Hz. cbn in Hz |- *. lia.
  - constructor; [done|]. rewrite Forall_forall in Hy |- *. intros z Hz. rewrite insert_by_perm in Hz. apply elem_of_cons in Hz as [->|Hz]; [lia|by apply Hy].
Qed.
Lemma insert_by_stable {A} (key : A -> N) d x l : StronglySorted (fun a b => (key a <= key b)%N) l ->
  filter (fun y => key y = d) (insert_by key x l) = filter (fun y => key y = d) (x :: l).
Proof.
  induction 1 as [|y l Hl IH Hy]; [done|]. cbn [insert_by]. destruct (N.leb_spec (key x) (key y)) as [Hle|Hgt]; [done|].
  rewrite filter_cons, IH, !filter_cons. destruct (decide (key y = d)), (decide (key x = d)); done || lia.
Qed.
(** The targets are the outbounds, not groups, that wait for no test and need one, those with the least delay first, and those of one delay in the order they were met. *)
Theorem collectCycleTargets_spec now order m :
  (forall tag, tag ∈ collectCycleTargets now order m <-> tag ∈ order /\ is_target now m tag = true) /\
  StronglySorted (fun a b => (state_delay m a <= state_delay m b)%N) (collectCycleTargets now order m) /\
  (forall d, filter (fun t => state_delay m t = d) (collectCycleTargets now order m) = filter (fun t => state_delay m t = d) (filter (fun t => is_target now m t) order)).
Proof.
  unfold collectCycleTargets. generalize (filter (fun tag => is_target now m tag) order) as l, (fun tag => list_elem_of_filter (fun tag => is_target now m tag) order tag). intros l Hl.
  assert (StronglySorted (fun a b => (state_delay m a <= state_delay m b)%N) (sort_by (state_delay m) l)) as Hs by (clear Hl; induction l as [|x l IH]; [constructor|by apply insert_by_sorted]).
  split_and!; [|done|].
  - intros tag. rewrite sort_by_perm, Hl, Is_true_true. tauto.
  - intros d. clear Hl Hs. induction l as [|x l IH]; [done|]. cbn [sort_by foldr]. rewrite insert_by_stable; [rewrite !filter_cons; by rewrite <- IH|].
    clear IH. induction l as [|y l IH]; [constructor|by apply insert_by_sorted].
Qed.

(** ** The history in the cache file, the retries of the IP information, the timer *)

(** What is saved is loaded as it was by the next start, marked as from the cache, but delays of failed tests. *)
Lemma load_saved_history m tag st : om_saved m = Some (os_history <$> om_outbounds (saveHistory m)) -> om_outbounds m !! tag = Some st -> om_groups m !! tag = None ->
  om_outbounds (loadHistory m) !! tag =
  Some (set_history true (mkHistory (hi_Time (os_history st)) (if (MonitorTimeoutDelay <=? hi_Delay (os_history st))%N then 0%N else hi_Delay (os_history st)) (hi_IpInfo (os_history st)) (hi_IsFromCache (os_history st))) st).
Proof. intros Es E Eg. unfold loadHistory. rewrite Es. cbn. by rewrite map_lookup_imap, E, lookup_fmap, E, Eg. Qed.
(** The IP information is looked for again after five minutes, twice as long after each further failure, and after two hours at the latest. *)
Lemma ipInfoBackoff_spec n : (1 <= n)%Z ->
  (ipInfoBaseBackoff <= ipInfoBackoff n <= ipInfoMaxBackoff)%Z /\ (n <= 5 -> ipInfoBackoff n = ipInfoBaseBackoff * 2 ^ (n - 1))%Z /\ (6 <= n -> ipInfoBackoff n = ipInfoMaxBackoff)%Z.
Proof.
  intros Hn. unfold ipInfoBackoff. assert (n = 1 \/ n = 2 \/ n = 3 \/ n = 4 \/ n = 5 \/ 6 <= n)%Z as [->|[->|[->|[->|[->|H]]]]] by lia; [by vm_compute..|].
  rewrite (Z.min_r (n - 1) 5) by lia. split_and!; [by vm_compute|by vm_compute|lia|by vm_compute].
Qed.
(** The touch that starts the timer does not count as activity: when nothing else touches the monitoring before the first tick, it stops, however long the timeout. *)
Lemma first_tick_stops now tick idleTimeout loops cycles :
  schedule_tick tick idleTimeout (Monitoring_Touch now (mkTimers true false false None loops cycles)) = mkTimers true false false None loops (S cycles).
Proof. done. Qed.
(** One that is touched again in time goes on. *)
Lemma touched_goes_on t now tick idleTimeout : ti_started t = true -> ti_ticker t = true -> (tick - now <= idleTimeout)%Z -> ti_ticker (schedule_tick tick idleTimeout (Monitoring_Touch now t)) = true.
Proof. intros Hs Ht Hi. unfold Monitoring_Touch, schedule_tick. rewrite Hs, Ht. cbn. destruct (Z.ltb_spec idleTimeout (tick - now)); [lia|done]. Qed.
(** The storage of delays holds the address of the monitoring's own history, so that a group that marks an outbound as failed ([DeleteURLTestHistory] stores 65535) changes the history the
    monitoring reports and saves. *)
Example shared_history_changes :
  map (fun m => state_delay m "fast") [monitor_after sample_cycle sample_monitor; monitor_after (sample_cycle ++ [LStoreOther "fast" (mkHistory 2000 65535 None false)]) sample_monitor] = [40; 65535]%N.
Proof. vm_compute. reflexivity. Qed.
